(* ===== verification/_CoqProject ===== *)
-Q . S2P
Prelude.v
KError.v
FrameAlloc.v
Fd.v
X86.v
Task.v
SyscallEntry.v
TaskManager.v
Critical.v
Scheduler.v
Paging.v
PageTree.v
PageMapper.v
AddrSpace.v
UserMem.v
UserSpace.v
BootMem.v
Keyboard.v
Faults.v
Segments.v
Sync.v
Block.v
Ahci.v
AhciInit.v
Pci.v
Str.v
Serial.v
Vfs.v
Elf.v
Syscall.v
SyscallFacts.v
SyscallTypes.v
TestMem.v
Execve.v
Boot.v
Heap.v
Fat.v
Ext4.v
Ext4Image.v
Ext4Dir.v
Ext4Facts.v
DiskManager.v
Display.v
Start.v
