(* ===== verification/Prelude.v ===== *)
(** * NWIN OS: a verification library

    NWIN OS is an x86-64 kernel in Rust (src/src) with a test program of user space
    (src/userspace).  This library translates its
    logic into executable Rocq definitions, one file per component, and proves
    what makes each component correct.

    ** The program and the files

    - Boot hands the physical memory map to the frame allocator
      (mm/memory.rs), a bitmap with 16-bit reference counts that every mapping
      and DMA buffer draws from.  [FrameAlloc]: the allocator state is the
      bitmap, the counters and the search hint; [init], [allocate_frame],
      [allocate_contiguous_frames], [deallocate_frame], [reference_frame] and the
      copy-on-write helpers are one definition each.  [BootMem] is the rest of
      mm/mod.rs: the kernel's own top-level table and the pages of the heap
      (mm/allocator.rs).  [Heap]: the global allocator on these pages, whose lock is
      taken with interrupts off, and the kernel stacks that tasks get from it.
    - Errors of all layers are one taxonomy (core/error.rs) with a text and an
      errno.  [KError].
    - Tasks (task/task.rs, task/usermode.rs) are kernel stacks with a hand-built
      first frame; [context_switch] is assembly.  [X86] gives the instructions,
      registers and word memory it uses, [Task] the task record, its
      construction, the switch and the jump to user mode.
    - The task manager (task/task_manager.rs) owns tasks, their states and the
      ready queue; the scheduler (task/scheduler.rs) runs on every timer tick;
      the reaper (task/mod.rs) removes dead tasks.  [TaskManager], [Scheduler].
      Every operation of the source runs under one lock with interrupts off
      ([with_task_manager]); [Critical] shows that such a section is atomic, so one
      definition is one step, and the step relation of [Scheduler] interleaves them
      in any order.
    - Exceptions and interrupts go through the descriptor table (core/idt.rs) to
      handlers that repair a page, end a task, read the keyboard or call the
      scheduler.  [Faults]: the table, every handler, and the dispatch of a vector.
      [SyscallEntry]: the selectors (core/gdt.rs), the [syscall] and [sysretq]
      instructions and the assembly between them (core/syscall.rs).  [Segments]: the
      task state segment, the loading of the segment registers, and the stack the
      processor enters a handler on.
    - Logs and panic reports go to the serial line (drivers/char/serial.rs,
      core/panic.rs); the tick comes from the timer chip (drivers/timer/pit.rs).
      [Serial].
    - The last steps of boot (task/mod.rs, fs/mod.rs, core/cpu.rs) index the
      initramfs and create the reaper and the shell.  [Boot].  [Start] is [_start]
      (main.rs): the bring-up of all components as one program.
    - Semaphore, mutex and condition variable (core/sync.rs) block and wake tasks
      through the task manager.  [Sync] splits each call, and each access to the
      data behind a mutex, at the points where another task can run or an interrupt
      can end the [hlt] of a waiting one.
    - The keyboard (drivers/input/keyboard.rs) fills a lock-free ring from the
      interrupt handler.  [Keyboard] interleaves the handler with the steps of a
      reader.
    - Each task has a descriptor table (fs/fd.rs).  [Fd].
    - Disks are block devices (fs/mod.rs, drivers/block/mod.rs) partitioned by an
      MBR (fs/partition/mbr.rs).  [Block]: the class [BlockDevice] with its laws
      and Module [Mbr].  [Ahci]: the controller driver (drivers/block/ahci and the
      adapter of drivers/block/mod.rs), whose command lists, tables and bounce
      buffers are DMA frames, over an abstract controller; [AhciInit]: the bring-up
      of a port and a concrete controller.  [Pci]: the bus scan that finds the
      controller (drivers/bus/pci.rs).
    - The screen (drivers/display) is a framebuffer with a text terminal that
      interprets ANSI sequences.  [Display].
    - The virtual file system (fs/vfs.rs) serves the TAR initramfs and resolves
      paths through mounts; FAT (fs/fat) and ext4 (fs/ext4) implement its node
      interface on block devices, and the disk manager (fs/manager.rs) probes the
      partitions of a disk at boot.  [Str] has the string functions of the Rust
      library they use, [Vfs] the TAR reader, mount table and resolver, [Fat] and
      [Ext4] the drivers, with every write to the disk; [Ext4Image] says what the
      bytes of a volume mean, [Ext4Dir] what the operations that change it do, and
      [Ext4Facts] has the theorems; [DiskManager] is the probe.
    - Address spaces (mm/memory.rs) are trees of page-table frames in physical
      memory.  [Paging]: physical memory as frames of bytes, the processor's walk,
      creation and destruction of spaces, the check of user pages.  [PageTree]: the
      trees, and the interface to the mapper of the x86_64 crate, whose documented
      behaviour is the class [MapperSpec]; [PageMapper]: a mapper that builds tables
      and satisfies it.  [AddrSpace]: mapping, translation and copy-on-write over
      the interface.
    - The ELF loader (task/elf.rs) and the system calls (core/syscall.rs) work on
      the memory of tasks.  [UserMem] and [UserSpace] give it an abstract form: the
      pages of a task with their bytes, reached by walking the tables.  [Elf] is the
      loader, [Syscall] the dispatcher with every call and the state it works on
      (tasks, memory, keyboard, files, console), [SyscallFacts] what the calls
      promise, [SyscallTypes] which results each call can have, [Execve] the way
      from a file to a running program.  [TestMem] is a program of user space
      (userspace/test_mem.rs) on top of these calls.

    ** Conventions

    A Rust computation is an [outcome]: a value, or a stop ([Panic],
    [OutOfBounds] for a raw access outside its object, [OutOfFuel]).  [wp] states
    total correctness: the run returns, and its value satisfies the
    postcondition.  Machine words are integers with explicit bounds; [uadd] and
    its siblings panic or wrap depending on the build [Profile], and the theorems
    hold for both profiles unless they say otherwise.  Interior mutability and
    statics are explicit state.  Code outside src/ is a class argument with its
    documented behaviour as laws ([VirtAddrNew], [PhysAddrNew], [EntryOps] and
    [Mapper] of the x86_64 crate, [GdtOps] and [StarOps] of the same, [HeapOps] of
    linked_list_allocator, [KeyDecoder] of pc_keyboard), and so are devices ([Hba] for
    the AHCI controller, [PciConfig], [PortIo] with [UartSpec] and [PitSpec]); every
    theorem that uses one has a closed instance.

    ** What the theorems show

    - Allocator: refinement of an abstract reference-count map over every
      sequence of calls, the exact set of free frames after boot, first fit, the
      round trip, and the behaviour at counter saturation.
    - Boot: from what the bootloader hands over, memory comes up with the heap in
      frames of its own and closed to ring 3; the first tasks are queued on a sound
      machine, and the first tick enters the reaper.  [_start] as a whole reaches its
      idle loop in such a state, with log, screen, segments, system-call registers
      and timer set up, on a machine without a disk controller.
    - Heap: a new task gets a stack that overlaps no other; no more than sixteen
      tasks fit, and the next spawn fails without a trace.
    - Tasks: a new task starts at its entry point at its privilege level; a
      switch away and back restores the task.
    - Scheduling: the manager invariant in every reachable state, fairness of the
      round robin, safety of [schedule] down to registers and stacks, the effect
      of a reaper round, and what [wait_for_child] waits for.
    - Exceptions: faults of user code end that task and nothing else; exceptions
      without a gate stop the kernel; a user write to a kernel page is repaired over
      and over; hardware interrupts keep the machine sound.  Every vector enters a
      handler, the double fault on a stack of its own, even when the stack pointer is
      unusable.
    - System call entry: a call changes RAX, RCX and R11 only; a dispatcher that
      enables interrupts opens a window on the user's stack.
    - Devices: sectors are read and written as asked through the AHCI command
      protocol, and the bring-up leaves a port ready for it; the PCI scan finds
      exactly the functions present; the display shows an abstract text screen; the
      serial line carries every byte printed, and the panic report even when its lock
      is held; the timer runs at 100 Hz.
    - Synchronisation: a section with interrupts off and the lock is atomic for
      interrupts at any point; mutual exclusion of tasks and of their accesses to the
      protected data under every interleaving with ticks, exits and stray interrupts;
      every sleeper is queued and reached by the signals that follow; no lost wake-up
      as long as no foreign wake-up, stray interrupt or kill interferes, and the loss
      of one after a stray interrupt.
    - Keyboard: the ring refines a bounded FIFO under interleaving.
    - Files: descriptor numbers are fresh and stable; the MBR and FAT boot records
      decode what was encoded; TAR search and tree agree with the archive on every
      image, and terminate on arbitrary bytes; mounts; FAT16 reads return the
      bytes of the cluster chain; FAT32 geometry recurses without end; ext4 reads
      return the bytes of the extents, a directory lookup finds the first entry,
      inodes written are read back, and the boot-time probe of a consistent volume
      creates its file so that it can be looked up and read.
    - Address spaces: a new space exposes nothing to ring 3; mapping a page adds a
      zeroed frame and nothing else; a copy-on-write fault is repaired; destroying a
      space releases each of its frames as often as it mentions them.  Mapping,
      loading, [execve], [mmap], [brk] and boot succeed when enough frames are free:
      four per page (the page and three tables) and one per top-level table.
    - Programs: a well-formed executable is loaded byte for byte; the check of user
      pointers is exact; any sequence of system calls other than [execve] runs
      without fault and touches no memory but the task's own; files are read through
      [open] and [read]; [mmap] and [brk] add zeroed pages; [execve] yields a task
      with the segments and the arguments in place, unless the heap it runs on is
      missing from the new space, which an earlier [mmap] can cause; every result of a
      call is of its type; the memory test of user space passes.
    - Errors: texts identify errors, errno values are negative.

    ** Bounds and fuel

    Loops of the source are [for_range]/[each_range] (structural), or [loop] with
    a fuel that the theorems prove sufficient: the contiguous search advances at
    every round, a TAR scan advances by 512 bytes per round, a FAT read copies at
    least one byte per round.  The geometry functions of [Fat] are indexed by call
    depth: three calls for FAT16, and for FAT32 every depth is exhausted.  The
    loops over the pages and the bytes of a segment, and over the pages of a user
    buffer, advance to the next page boundary at every round; those of ext4 over
    bitmaps, extents and directories are bounded by the size of a block.  The waits
    for a device take fuel, and are proved to end if the device answers within it.

    ** Not modelled

    The free list of the heap and the interrupt controllers (crates, as parameters
    with their contracts), the use of the heap by strings, maps and queues, log lines
    of the components outside the panic report and [_start], the probe of disks within
    the boot theorem (the driver, the probe and the file systems have theorems of
    their own), the write bits of upper-level tables in ring 3, and the accessed
    and dirty bits of page-table entries.  The stack and the code of
    the kernel are not read through the page tables, but the switch of [execve] to a
    new space checks that the heap, which holds that stack, is mapped there as before.
    Write protection is not checked on kernel accesses: the pages the calls write to are mapped writable.  Translation
    caches are assumed to be flushed where the source does so.  Tables that two
    spaces share are one table of each; the theorems on a space do not say what
    becomes of another space that shares them. *)

From stdpp Require Export base list gmap sorting strings.
From Stdlib Require Export ZArith Lia.

#[global] Open Scope Z_scope.

(** ** Outcomes: what a run of kernel code can do *)

(** A Rust function either returns a value or stops: it panics (an [assert!],
    an [expect], an index out of range, an arithmetic overflow when overflow
    checks are compiled in), it reads or writes through a raw pointer outside
    the object it was derived from, or the fuel given to the model of a loop
    runs out. *)
Inductive stop := Panic | OutOfBounds | OutOfFuel.

Inductive outcome (A : Type) :=
| Ret (a : A)
| Stop (r : stop).
Arguments Ret {A} a.
Arguments Stop {A} r.

Definition obind {A B} (m : outcome A) (f : A → outcome B) : outcome B :=
  match m with Ret a => f a | Stop r => Stop r end.

Declare Scope nwin_scope.
Notation "x <- m ;; k" := (obind m (λ x, k))
  (at level 100, m at next level, right associativity) : nwin_scope.
Notation "'let*' p ':=' m 'in' k" := (obind m (λ p, k))
  (at level 100, p strict pattern, m at next level, right associativity) : nwin_scope.
#[global] Open Scope nwin_scope.

(** Rust's [Result]. *)
Inductive result (A E : Type) :=
| Ok (a : A)
| Err (e : E).
Arguments Ok {A E} a.
Arguments Err {A E} e.
Definition result_ok {A E} (r : result A E) : bool := match r with Ok _ => true | Err _ => false end.

(** [wp m Q]: the run [m] returns, and its value satisfies [Q].  A run that
    panics, leaves its object or exhausts its fuel satisfies no [wp]. *)
Definition wp {A} (m : outcome A) (Q : A → Prop) : Prop :=
  match m with Ret a => Q a | Stop _ => False end.

Section Wp.
Context {A B : Type}.
Implicit Types m : outcome A.

Lemma wp_ret (a : A) (Q : A → Prop) : Q a → wp (Ret a) Q.
Proof. done. Qed.

Lemma wp_bind m (f : A → outcome B) Q :
  wp m (λ a, wp (f a) Q) → wp (obind m f) Q.
Proof. by destruct m. Qed.

Lemma wp_mono m (P Q : A → Prop) :
  wp m P → (∀ a, P a → Q a) → wp m Q.
Proof. destruct m; naive_solver. Qed.

Lemma wp_and m (P Q : A → Prop) : wp m P → wp m Q → wp m (λ a, P a ∧ Q a).
Proof. destruct m; naive_solver. Qed.

(** A [wp] is total: it exhibits the returned value. *)
Lemma wp_inv m Q : wp m Q → ∃ a, m = Ret a ∧ Q a.
Proof. destruct m; naive_solver. Qed.

Lemma wp_of_eq m (a : A) (Q : A → Prop) : m = Ret a → Q a → wp m Q.
Proof. by intros ->. Qed.
End Wp.

(** ** Simulation of runs

    Two runs are related when both return related values, or both stop for the
    same reason. *)
Definition osim {A B} (R : A → B → Prop) (m1 : outcome A) (m2 : outcome B) : Prop :=
  match m1, m2 with
  | Ret a, Ret b => R a b
  | Stop r1, Stop r2 => r1 = r2
  | _, _ => False
  end.

Lemma osim_bind {A B A' B'} (R : A → B → Prop) (R' : A' → B' → Prop) m1 m2 f1 f2 :
  osim R m1 m2 → (∀ a b, R a b → osim R' (f1 a) (f2 b)) →
  osim R' (obind m1 f1) (obind m2 f2).
Proof. destruct m1, m2; simpl; try done. auto. Qed.

(** A specified run simulates the run that returns a related value. *)
Lemma osim_wp {A B} (R : A → B → Prop) m (b : B) :
  wp m (λ a, R a b) → osim R m (Ret b).
Proof. by destruct m. Qed.

(** ** Machine words

    A [w]-bit unsigned integer is an integer in [0, 2^w).  Rust's [+], [-] and
    [*] panic on overflow when the crate is built with overflow checks (the
    [dev] profile of Cargo.toml) and wrap around otherwise (the [release]
    profile); [Profile] says which, and every theorem that does not fix it
    holds for both. *)
Class Profile := overflow_checks : bool.

Definition wrap (w x : Z) : Z := x mod 2 ^ w.
Definition fits (w x : Z) : bool := (0 <=? x) && (x <? 2 ^ w).

Definition checked `{Profile} (w x : Z) : outcome Z :=
  if fits w x then Ret x
  else if overflow_checks then Stop Panic else Ret (wrap w x).

Definition uadd `{Profile} (w a b : Z) : outcome Z := checked w (a + b).
Definition usub `{Profile} (w a b : Z) : outcome Z := checked w (a - b).
Definition umul `{Profile} (w a b : Z) : outcome Z := checked w (a * b).

(** [/] and [%] panic on a zero divisor in every profile. *)
Definition udiv (a b : Z) : outcome Z := if b =? 0 then Stop Panic else Ret (a / b).
Definition umod (a b : Z) : outcome Z := if b =? 0 then Stop Panic else Ret (a mod b).

(** [saturating_add] and [saturating_sub] on [w]-bit words. *)
Definition sat_add (w a b : Z) : Z := Z.min (a + b) (2 ^ w - 1).
Definition sat_sub (a b : Z) : Z := Z.max 0 (a - b).

(** [!x] on a [w]-bit word. *)
Definition unot (w x : Z) : Z := Z.lxor x (Z.ones w).

(** [i as u64] for a signed [i]. *)
Definition as_u64 (x : Z) : Z := x mod 2 ^ 64.

(** ** Loops

    [for i in lo..hi { body }]: the body either goes on with a new state or
    leaves the loop (a [return] or [break]) with a value. *)
Inductive flow (S R : Type) :=
| Next (s : S)
| Done (r : R).
Arguments Next {S R} s.
Arguments Done {S R} r.

Fixpoint for_n {S R} (n : nat) (i : Z) (body : Z → S → outcome (flow S R))
    (s : S) : outcome (flow S R) :=
  match n with
  | O => Ret (Next s)
  | Datatypes.S n' =>
      match body i s with
      | Ret (Next s') => for_n n' (i + 1) body s'
      | Ret (Done r) => Ret (Done r)
      | Stop e => Stop e
      end
  end.

Definition for_range {S R} (lo hi : Z) (body : Z → S → outcome (flow S R))
    (s : S) : outcome (flow S R) :=
  for_n (Z.to_nat (hi - lo)) lo body s.

(** A [for] loop without early exit. *)
Fixpoint each_n {S} (n : nat) (i : Z) (body : Z → S → outcome S) (s : S) : outcome S :=
  match n with
  | O => Ret s
  | Datatypes.S n' => s' <- body i s;; each_n n' (i + 1) body s'
  end.

Definition each_range {S} (lo hi : Z) (body : Z → S → outcome S) (s : S) : outcome S :=
  each_n (Z.to_nat (hi - lo)) lo body s.

(** [while]/[loop] with fuel. *)
Fixpoint loop {S R} (fuel : nat) (body : S → outcome (flow S R)) (s : S) : outcome R :=
  match fuel with
  | O => Stop OutOfFuel
  | Datatypes.S f =>
      match body s with
      | Ret (Next s') => loop f body s'
      | Ret (Done r) => Ret r
      | Stop e => Stop e
      end
  end.

Section Loops.
Context {S R : Type}.

(** The invariant rule of [for]: [P i s] holds before iteration [i], [Q r]
    when the body leaves with [r], and [P (max lo hi)] when it runs to the
    end. *)
Lemma wp_for_n (P : Z → S → Prop) (Q : R → Prop) body n : ∀ i s,
  P i s →
  (∀ j st, i ≤ j < i + Z.of_nat n → P j st →
     wp (body j st) (λ r, match r with Next s' => P (j + 1) s' | Done v => Q v end)) →
  wp (for_n n i body s)
     (λ r, match r with Next s' => P (i + Z.of_nat n) s' | Done v => Q v end).
Proof.
  induction n as [|n IH]; intros i s HP Hb; simpl.
  { apply wp_ret. by rewrite Z.add_0_r. }
  pose proof (Hb i s ltac:(lia) HP) as H1.
  destruct (body i s) as [[s'|v]|]; simpl in *; try done.
  replace (i + Z.of_nat (Datatypes.S n)) with ((i + 1) + Z.of_nat n) by lia.
  apply IH; [done|]. intros j st Hj. apply Hb. lia.
Qed.

Lemma wp_for_range (P : Z → S → Prop) (Q : R → Prop) body lo hi s :
  P lo s →
  (∀ j st, lo ≤ j < hi → P j st →
     wp (body j st) (λ r, match r with Next s' => P (j + 1) s' | Done v => Q v end)) →
  wp (for_range lo hi body s)
     (λ r, match r with Next s' => P (Z.max lo hi) s' | Done v => Q v end).
Proof.
  intros HP Hb. unfold for_range.
  replace (Z.max lo hi) with (lo + Z.of_nat (Z.to_nat (hi - lo))) by lia.
  apply wp_for_n; [done|]. intros j st Hj. apply Hb. lia.
Qed.

Lemma wp_each_range (P : Z → S → Prop) (body : Z → S → outcome S) lo hi s :
  P lo s →
  (∀ j st, lo ≤ j < hi → P j st → wp (body j st) (P (j + 1))) →
  wp (each_range lo hi body s) (P (Z.max lo hi)).
Proof.
  unfold each_range.
  replace (Z.max lo hi) with (lo + Z.of_nat (Z.to_nat (hi - lo))) by lia.
  assert (∀ j, lo ≤ j < lo + Z.of_nat (Z.to_nat (hi - lo)) → lo ≤ j < hi) as Hr by lia.
  revert Hr. generalize (Z.to_nat (hi - lo)) as n. intros n Hr HP Hb.
  assert (∀ j st, lo ≤ j < lo + Z.of_nat n → P j st → wp (body j st) (P (j + 1))) as Hb'
    by (intros; apply Hb; auto).
  clear Hb Hr. revert lo s HP Hb'.
  induction n as [|n IH]; intros lo s HP Hb; simpl.
  { apply wp_ret. by rewrite Z.add_0_r. }
  apply wp_bind. eapply wp_mono; [apply Hb; [lia|done]|].
  intros s' HP'.
  replace (lo + Z.of_nat (Datatypes.S n)) with ((lo + 1) + Z.of_nat n) by lia.
  apply IH; [done|]. intros j st Hj. apply Hb. lia.
Qed.

(** The rule of [while]/[loop]: a measure that decreases at every iteration
    and an invariant give termination within [measure + 1] rounds. *)
Lemma wp_loop (I : S → Prop) (m : S → nat) (Q : R → Prop) body :
  (∀ s, I s →
     wp (body s) (λ r, match r with
                       | Next s' => I s' ∧ (m s' < m s)%nat
                       | Done v => Q v end)) →
  ∀ fuel s, I s → (m s < fuel)%nat → wp (loop fuel body s) Q.
Proof.
  intros Hb fuel. induction fuel as [|f IH]; intros s HI Hm; simpl; [lia|].
  pose proof (Hb s HI) as H1. destruct (body s) as [[s'|v]|]; simpl in *; try done.
  destruct H1 as [HI' Hlt]. apply IH; [done|lia].
Qed.
End Loops.

(** ** Slices and vectors

    Indexing a slice panics out of range. *)
Definition vget {A} (l : list A) (i : Z) : outcome A :=
  match l !! Z.to_nat i with Some x => Ret x | None => Stop Panic end.

Definition vset {A} (l : list A) (i : Z) (x : A) : outcome (list A) :=
  match l !! Z.to_nat i with Some _ => Ret (<[Z.to_nat i := x]> l) | None => Stop Panic end.

(** [&l[off .. off + n]] as a value (in range). *)
Definition sub {A} (off n : Z) (l : list A) : list A :=
  take (Z.to_nat n) (drop (Z.to_nat off) l).

Section Slices.
Context {A : Type}.
Implicit Types l : list A.

Lemma wp_vget l i (Q : A → Prop) x :
  l !! Z.to_nat i = Some x → Q x → wp (vget l i) Q.
Proof. unfold vget. by intros ->. Qed.

Lemma wp_vset l i x (Q : list A → Prop) :
  0 ≤ i < Z.of_nat (length l) → Q (<[Z.to_nat i := x]> l) → wp (vset l i x) Q.
Proof.
  intros Hi HQ. unfold vset.
  destruct (lookup_lt_is_Some_2 l (Z.to_nat i)) as [y ->]; [lia|done].
Qed.

Lemma vget_panic l i : Z.of_nat (length l) ≤ i → vget l i = Stop Panic.
Proof. intros Hi. unfold vget. by rewrite lookup_ge_None_2 by lia. Qed.

Lemma length_sub l off n :
  0 ≤ off → 0 ≤ n → off + n ≤ Z.of_nat (length l) → length (sub off n l) = Z.to_nat n.
Proof. intros. unfold sub. rewrite length_take, length_drop. lia. Qed.

(** Slices of a concatenation. *)
Lemma sub_app_r l1 l2 off n :
  Z.of_nat (length l1) ≤ off → sub off n (l1 ++ l2)%list = sub (off - Z.of_nat (length l1)) n l2.
Proof.
  intros Hoff. unfold sub. f_equal. rewrite drop_app_ge by lia. f_equal. lia.
Qed.

Lemma sub_app_l l1 l2 n : n = Z.of_nat (length l1) → sub 0 n (l1 ++ l2)%list = l1.
Proof. intros ->. unfold sub. rewrite Nat2Z.id. change (Z.to_nat 0) with 0%nat. by rewrite drop_0, take_app_length. Qed.

Lemma sub_all l n : n = Z.of_nat (length l) → sub 0 n l = l.
Proof. intros ->. unfold sub. rewrite Nat2Z.id. change (Z.to_nat 0) with 0%nat. rewrite drop_0. by apply take_ge. Qed.

Lemma lookup_sub l off n i : 0 ≤ off → 0 ≤ i < n →
  sub off n l !! Z.to_nat i = l !! Z.to_nat (off + i).
Proof.
  intros Ho Hi. unfold sub. rewrite lookup_take_lt, lookup_drop by lia. f_equal. lia.
Qed.

Lemma sub_sub l off n off' n' : 0 ≤ off → 0 ≤ off' → 0 ≤ n' → off' + n' ≤ n →
  sub off' n' (sub off n l) = sub (off + off') n' l.
Proof.
  intros. unfold sub. rewrite skipn_firstn_comm, drop_drop, take_take.
  f_equal; [lia|]. f_equal. lia.
Qed.

Lemma sub_app_le l1 l2 off n : 0 ≤ off → 0 ≤ n → off + n ≤ Z.of_nat (length l1) →
  sub off n (l1 ++ l2)%list = sub off n l1.
Proof. intros. unfold sub. rewrite drop_app_le by lia. apply take_app_le. rewrite length_drop. lia. Qed.

Lemma sub_take l off n k : 0 ≤ off → 0 ≤ n → off + n ≤ Z.of_nat k → sub off n (take k l) = sub off n l.
Proof. intros. unfold sub. rewrite skipn_firstn_comm, take_take. f_equal. lia. Qed.

Lemma sub_drop l off n k : 0 ≤ off → sub off n (drop k l) = sub (off + Z.of_nat k) n l.
Proof. intros. unfold sub. rewrite drop_drop. f_equal. f_equal. lia. Qed.

(** Overwriting a range: [l[off .. off + |new|].copy_from_slice(new)]. *)
Definition splice (off : Z) (new l : list A) : list A :=
  (take (Z.to_nat off) l ++ new ++ drop (Z.to_nat off + length new) l)%list.

Lemma length_splice off new l : 0 ≤ off → off + Z.of_nat (length new) ≤ Z.of_nat (length l) →
  length (splice off new l) = length l.
Proof. intros. unfold splice. rewrite !length_app, length_take, length_drop. lia. Qed.

Lemma sub_splice_same off new l n : 0 ≤ off → n = Z.of_nat (length new) →
  off + n ≤ Z.of_nat (length l) → sub off n (splice off new l) = new.
Proof.
  intros Ho -> Hl. unfold splice. rewrite sub_app_r by (rewrite length_take; lia).
  rewrite length_take, Nat.min_l, Z2Nat.id, Z.sub_diag by lia. by apply sub_app_l.
Qed.

Lemma sub_splice_other off new l o n : 0 ≤ off → off + Z.of_nat (length new) ≤ Z.of_nat (length l) →
  0 ≤ o → 0 ≤ n → o + n ≤ off ∨ off + Z.of_nat (length new) ≤ o →
  sub o n (splice off new l) = sub o n l.
Proof.
  intros Ho Hl Hp Hn [Hc|Hc]; unfold splice.
  - rewrite sub_app_le by (rewrite ?length_take; lia). apply sub_take; lia.
  - rewrite sub_app_r by (rewrite length_take; lia). rewrite sub_app_r by (rewrite length_take; lia).
    rewrite sub_drop by (rewrite length_take; lia). f_equal. rewrite length_take. lia.
Qed.

(** The [i]-th of a sequence of consecutive fields of the given widths. *)
Definition widths_ok (fs : list (list A)) (ws : list nat) : Prop := Forall2 (λ f n, length f = n) fs ws.

Lemma length_concat_widths fs ws : widths_ok fs ws → length (concat fs) = sum_list ws.
Proof. induction 1 as [|f n fs ws Hf _ IH]; simpl; [done|]. rewrite length_app. lia. Qed.

Lemma sub_concat fs ws rest i f off n :
  widths_ok fs ws → fs !! i = Some f → off = Z.of_nat (sum_list (take i ws)) → Z.of_nat <$> ws !! i = Some n →
  sub off n (concat fs ++ rest)%list = f.
Proof.
  intros Hw Hf -> Hn.
  assert (length (concat (take i fs)) = sum_list (take i ws)) as Hl
    by (apply length_concat_widths; by apply Forall2_take).
  destruct (Forall2_lookup_l _ _ _ _ _ Hw Hf) as (w & Hi & Hlf). rewrite Hi in Hn. injection Hn as <-.
  rewrite <- (take_drop_middle fs i f Hf) at 1.
  rewrite concat_app, <- app_assoc, sub_app_r, Hl, Z.sub_diag by lia. cbn [concat].
  rewrite <- app_assoc. apply sub_app_l. by rewrite Hlf.
Qed.
End Slices.

(** ** Words: the facts the components use *)

(** Linear arithmetic with division and remainder by constants. *)
Ltac zlia := Z.to_euclidean_division_equations; lia.

Section Words.
Lemma checked_ok `{Profile} w x : 0 ≤ x < 2 ^ w → checked w x = Ret x.
Proof.
  intros Hx. unfold checked, fits.
  by rewrite (proj2 (Z.leb_le 0 x)), (proj2 (Z.ltb_lt x (2 ^ w))) by lia.
Qed.

(** What an overflowing operation does is decided by the profile. *)
Lemma checked_overflow `{Profile} w x : ¬ 0 ≤ x < 2 ^ w →
  checked w x = if overflow_checks then Stop Panic else Ret (wrap w x).
Proof.
  intros Hx. unfold checked, fits.
  destruct (Z.leb_spec 0 x), (Z.ltb_spec x (2 ^ w)); try done. lia.
Qed.

Lemma wp_checked `{Profile} w x (Q : Z → Prop) :
  0 ≤ x < 2 ^ w → Q x → wp (checked w x) Q.
Proof. intros Hx HQ. by rewrite checked_ok. Qed.

Lemma wrap_range w x : 0 ≤ w → 0 ≤ wrap w x < 2 ^ w.
Proof. intros. apply Z.mod_pos_bound. lia. Qed.

(** A non-negative integer with no bit at or above [w] is a [w]-bit word. *)
Lemma bits_bound w x :
  0 ≤ w → 0 ≤ x → (∀ i, w ≤ i → Z.testbit x i = false) → x < 2 ^ w.
Proof.
  intros Hw Hx Hb.
  assert (x mod 2 ^ w = x) as <-; [|apply Z.mod_pos_bound; lia].
  apply Z.bits_inj'. intros i Hi. destruct (decide (i < w)).
  - by rewrite Z.mod_pow2_bits_low by lia.
  - rewrite Z.mod_pow2_bits_high by lia. symmetry. apply Hb. lia.
Qed.

Lemma bits_above w x i : 0 ≤ x < 2 ^ w → 0 ≤ w ≤ i → Z.testbit x i = false.
Proof.
  intros Hx Hi. rewrite <- (Z.mod_small x (2 ^ w)) by lia.
  apply Z.mod_pow2_bits_high. lia.
Qed.

Lemma land_unot w x m : 0 ≤ w → 0 ≤ x < 2 ^ w → Z.land x (unot w m) = Z.ldiff x m.
Proof.
  intros Hw Hx. apply Z.bits_inj'. intros i Hi.
  unfold unot. rewrite Z.land_spec, Z.ldiff_spec, Z.lxor_spec.
  destruct (decide (i < w)).
  - rewrite Z.ones_spec_low by lia. by destruct (Z.testbit m i).
  - by rewrite (bits_above w x i) by lia.
Qed.

(** [x & !(2^k - 1)] rounds a word down to a multiple of [2^k]. *)
Lemma land_unot_ones w k x : 0 ≤ k → 0 ≤ w → 0 ≤ x < 2 ^ w →
  Z.land x (unot w (Z.ones k)) = x - x mod 2 ^ k.
Proof.
  intros Hk Hw Hx. rewrite land_unot, Z.ldiff_ones_r by lia.
  rewrite Z.shiftl_mul_pow2, Z.shiftr_div_pow2 by lia.
  pose proof (Z.div_mod x (2 ^ k) ltac:(lia)). lia.
Qed.

Lemma lor_range w x y : 0 ≤ w → 0 ≤ x < 2 ^ w → 0 ≤ y < 2 ^ w → 0 ≤ Z.lor x y < 2 ^ w.
Proof.
  intros Hw Hx Hy. split; [apply Z.lor_nonneg; lia|].
  apply bits_bound; [lia|apply Z.lor_nonneg; lia|].
  intros i Hi. rewrite Z.lor_spec, !(bits_above w) by lia. done.
Qed.

Lemma land_range w x y : 0 ≤ w → 0 ≤ x < 2 ^ w → 0 ≤ Z.land x y < 2 ^ w.
Proof.
  intros Hw Hx. split; [apply Z.land_nonneg; lia|].
  apply bits_bound; [lia|apply Z.land_nonneg; lia|].
  intros i Hi. rewrite Z.land_spec, (bits_above w) by lia. done.
Qed.

(** The three bit operations of the bitmap code on one byte. *)
Lemma mask_test b k : 0 ≤ k → (Z.land b (Z.shiftl 1 k) =? 0) = negb (Z.testbit b k).
Proof.
  intros Hk. destruct (Z.testbit b k) eqn:E; simpl.
  - apply Z.eqb_neq. intros H0. apply (f_equal (λ z, Z.testbit z k)) in H0.
    rewrite Z.land_spec, E, Z.shiftl_spec, Z.sub_diag, Z.bits_0 in H0 by lia. done.
  - apply Z.eqb_eq. apply Z.bits_inj'. intros i Hi.
    rewrite Z.land_spec, Z.bits_0, Z.shiftl_spec by lia.
    destruct (decide (i = k)) as [->|]; [by rewrite E|].
    destruct (decide (i < k)); [by rewrite (Z.testbit_neg_r 1), andb_false_r by lia|].
    rewrite (bits_above 1 1) by lia. apply andb_false_r.
Qed.

Lemma one_bit k i : 0 ≤ k → 0 ≤ i → Z.testbit (Z.shiftl 1 k) i = (i =? k).
Proof.
  intros Hk Hi. rewrite Z.shiftl_spec by lia.
  destruct (Z.eqb_spec i k) as [->|]; [by rewrite Z.sub_diag|].
  destruct (decide (i < k)); [by rewrite Z.testbit_neg_r by lia|].
  apply (bits_above 1); lia.
Qed.

Lemma mask_set b k i : 0 ≤ k → 0 ≤ i →
  Z.testbit (Z.lor b (Z.shiftl 1 k)) i = (i =? k) || Z.testbit b i.
Proof. intros. rewrite Z.lor_spec, one_bit by lia. apply orb_comm. Qed.

Lemma mask_clear w b k i : 0 ≤ w → 0 ≤ b < 2 ^ w → 0 ≤ k → 0 ≤ i →
  Z.testbit (Z.land b (unot w (Z.shiftl 1 k))) i = negb (i =? k) && Z.testbit b i.
Proof.
  intros. rewrite land_unot, Z.ldiff_spec, one_bit by lia. apply andb_comm.
Qed.

Lemma shiftl_one_range w k : 0 ≤ k < w → 0 ≤ Z.shiftl 1 k < 2 ^ w.
Proof.
  intros Hk. rewrite Z.shiftl_1_l. split; [lia|]. apply Z.pow_lt_mono_r; lia.
Qed.
End Words.

(** ** Little-endian encodings *)

Abbreviation is_byte b := (0 ≤ b < 256).

(** [u16::from_le_bytes] and its siblings, for any width. *)
Fixpoint le (l : list Z) : Z :=
  match l with
  | [] => 0
  | b :: t => b + 256 * le t
  end.

(** The [n]-byte field at offset [off] of a packed struct. *)
Definition field (off n : Z) (b : list Z) : Z := le (sub off n b).

(** The [n] low bytes of [x], least significant first. *)
Fixpoint le_bytes (n : nat) (x : Z) : list Z :=
  match n with
  | O => []
  | S n' => x mod 256 :: le_bytes n' (x / 256)
  end.

Section LittleEndian.
Lemma length_le_bytes n x : length (le_bytes n x) = n.
Proof. revert x. induction n; intros; simpl; [done|]. by rewrite IHn. Qed.

Lemma le_bytes_range n x : Forall (λ b, is_byte b) (le_bytes n x).
Proof.
  revert x. induction n; intros x; simpl; constructor; [|done].
  apply Z.mod_pos_bound. lia.
Qed.

Lemma le_range l : Forall (λ b, is_byte b) l → 0 ≤ le l < 256 ^ Z.of_nat (length l).
Proof.
  induction 1 as [|b l Hb _ IH]; simpl; [lia|].
  replace (Z.of_nat (S (length l))) with (Z.of_nat (length l) + 1) by lia.
  rewrite Z.pow_add_r by lia. lia.
Qed.

Lemma le_le_bytes n x : 0 ≤ x < 256 ^ Z.of_nat n → le (le_bytes n x) = x.
Proof.
  revert x. induction n as [|n IH]; intros x Hx; simpl.
  { change (256 ^ Z.of_nat 0) with 1 in Hx. lia. }
  replace (Z.of_nat (S n)) with (Z.of_nat n + 1) in Hx by lia.
  rewrite Z.pow_add_r in Hx by lia.
  rewrite IH; zlia.
Qed.

Lemma le_bytes_le l : Forall (λ b, is_byte b) l → le_bytes (length l) (le l) = l.
Proof.
  induction 1 as [|b l Hb _ IH]; simpl; [done|].
  replace ((b + 256 * le l) mod 256) with b by zlia.
  replace ((b + 256 * le l) / 256) with (le l) by zlia.
  by rewrite IH.
Qed.

Lemma le_app l1 l2 : le (l1 ++ l2) = le l1 + 256 ^ Z.of_nat (length l1) * le l2.
Proof.
  induction l1 as [|b l IH]; simpl; [lia|].
  replace (Z.of_nat (S (length l))) with (Z.of_nat (length l) + 1) by lia.
  rewrite IH, Z.pow_add_r by lia. lia.
Qed.

Lemma field_concat fs ws rest i n off x :
  widths_ok fs ws → fs !! i = Some (le_bytes (Z.to_nat n) x) → off = Z.of_nat (sum_list (take i ws)) →
  Z.of_nat <$> ws !! i = Some n → 0 ≤ x < 256 ^ n → 0 ≤ n → field off n (concat fs ++ rest) = x.
Proof.
  intros Hw Hf Hoff Hn Hx Hpos. unfold field. erewrite sub_concat by done.
  apply le_le_bytes. by rewrite Z2Nat.id.
Qed.

Lemma field_range off n b : 0 ≤ n → Forall (λ b, is_byte b) b → 0 ≤ field off n b < 256 ^ n.
Proof.
  intros Hn Hb. unfold field. pose proof (le_range (sub off n b)) as Hr.
  assert (Forall (λ b, is_byte b) (sub off n b)) as Hs by (apply Forall_take, Forall_drop, Hb).
  specialize (Hr Hs). split; [apply Hr|]. eapply Z.lt_le_trans; [apply Hr|].
  apply Z.pow_le_mono_r; [lia|]. unfold sub. rewrite length_take. lia.
Qed.
End LittleEndian.

(** ** Searching a range *)

(** The least [i] in [lo, lo + n) with [p i]. *)
Fixpoint first_from (p : Z → bool) (lo : Z) (n : nat) : option Z :=
  match n with
  | O => None
  | S n' => if p lo then Some lo else first_from p (lo + 1) n'
  end.

Section FirstFrom.
Context (p : Z → bool).

Lemma first_from_Some lo n i :
  first_from p lo n = Some i ↔
  lo ≤ i < lo + Z.of_nat n ∧ p i = true ∧ ∀ j, lo ≤ j < i → p j = false.
Proof.
  revert lo. induction n as [|n IH]; intros lo; simpl; [split; [done|lia]|].
  destruct (p lo) eqn:E.
  - split; [intros [= <-]; repeat split; auto; lia|].
    intros (Hr & Hp & Hj). f_equal.
    destruct (decide (lo = i)) as [|]; [done|].
    rewrite Hj in E by lia. done.
  - rewrite IH. split; intros (Hr & Hp & Hj); repeat split; auto; try lia.
    + intros j Hj'. destruct (decide (j = lo)) as [->|]; [done|]. apply Hj. lia.
    + destruct (decide (lo = i)) as [->|]; [congruence|lia].
    + intros j Hj'. apply Hj. lia.
Qed.

Lemma first_from_None lo n :
  first_from p lo n = None ↔ ∀ j, lo ≤ j < lo + Z.of_nat n → p j = false.
Proof.
  revert lo. induction n as [|n IH]; intros lo; simpl; [split; [lia|done]|].
  destruct (p lo) eqn:E.
  - split; [done|]. intros H. rewrite H in E by lia. done.
  - rewrite IH. split; intros H j Hj; [|apply H; lia].
    destruct (decide (j = lo)) as [->|]; [done|]. apply H. lia.
Qed.
End FirstFrom.

Lemma first_from_ext p q lo n :
  (∀ j, lo ≤ j < lo + Z.of_nat n → p j = q j) → first_from p lo n = first_from q lo n.
Proof.
  revert lo. induction n as [|n IH]; intros lo H; simpl; [done|].
  rewrite (H lo) by lia. case_match; [done|]. apply IH. intros. apply H. lia.
Qed.

(** ** Folding a fallible step over a list ([for x in xs { .. }]) *)
Fixpoint mfold {S A} (f : S → A → outcome S) (s : S) (l : list A) : outcome S :=
  match l with
  | [] => Ret s
  | x :: l' => s' <- f s x;; mfold f s' l'
  end.

Lemma wp_mfold {S A} (P : list A → S → Prop) (f : S → A → outcome S) l :
  ∀ done s, P done s →
  (∀ d x st, P d st → x ∈ l → wp (f st x) (P (d ++ [x]))) →
  wp (mfold f s l) (P (done ++ l)).
Proof.
  induction l as [|x l IH]; intros d s HP Hf; simpl.
  { apply wp_ret. by rewrite app_nil_r. }
  apply wp_bind. eapply wp_mono; [apply Hf; [exact HP|left]|]. intros s' HP'.
  replace (d ++ x :: l)%list with ((d ++ [x]) ++ l)%list by (by rewrite <- app_assoc).
  apply IH; [done|]. intros d' y st Hd Hy. apply Hf; [done|by right].
Qed.

(** A computation that returns with [Q], or panics for the reason [W]. *)
Definition panics_or {A} (W : Prop) (o : outcome A) (Q : A → Prop) : Prop :=
  match o with Ret a => Q a | Stop e => e = Panic ∧ W end.

Lemma panics_or_bind {A B} W (o : outcome A) (k : A → outcome B) P Q :
  wp o P → (∀ a, P a → panics_or W (k a) Q) → panics_or W (x <- o;; k x) Q.
Proof. destruct o; simpl; [auto|done]. Qed.

(** ** Lists *)

Lemma filter_all {A} (P : A → Prop) `{∀ x, Decision (P x)} (l : list A) :
  (∀ x, x ∈ l → P x) → filter P l = l.
Proof.
  induction l as [|x l IH]; intros Hl; [done|].
  rewrite filter_cons_True by (apply Hl; left). f_equal. apply IH. intros y Hy. apply Hl. by right.
Qed.

(** ** Automation

    [wp_step] reduces the head of a [wp] goal: a bind, a returned value, a
    checked operation or a slice access whose side condition [lia] solves. *)
Create HintDb nwin discriminated.
#[export] Hint Resolve wp_ret : nwin.

Ltac wp_step :=
  match goal with
  | |- wp (obind _ _) _ => apply wp_bind
  | |- wp (Ret _) _ => apply wp_ret
  | |- wp (checked _ _) _ => apply wp_checked; [lia|]
  | |- wp (uadd _ _ _) _ => apply wp_checked; [lia|]
  | |- wp (usub _ _ _) _ => apply wp_checked; [lia|]
  | |- wp (umul _ _ _) _ => apply wp_checked; [lia|]
  | H : ?l !! Z.to_nat ?i = Some _ |- wp (vget ?l ?i) _ => apply (wp_vget _ _ _ _ H)
  | |- wp (vset _ _ _) _ => apply wp_vset; [lia|]
  end; cbv beta.
Ltac wp_steps := repeat wp_step.

(** The widths of a list of fields, from the lengths in the context. *)
Ltac widths := repeat (apply Forall2_cons; split; [first [done | apply length_le_bytes]|]); apply Forall2_nil_2.

(** A field of an encoded struct is decoded: [w] proves the widths, [n] bounds
    the number of fields. *)
Ltac decode_at w i :=
  first [ eapply (sub_concat _ _ _ i); [exact w|reflexivity|reflexivity|reflexivity]
        | eapply (field_concat _ _ _ i); [exact w|reflexivity|reflexivity|reflexivity|lia|lia] ].
Ltac decode_field w n := match n with S ?k => first [decode_at w k | decode_field w k] end.
