(* ===== verification/KError.v ===== *)
(** * Typed error tree of the kernel (src/src/core/error.rs)

    The error enums, the conversions between them, their one-line [Display]
    form, the [source] chain and the reduction to POSIX [errno] values at the
    Ring 3 boundary, together with [DriverError] (src/src/drivers/block/mod.rs)
    and [ElfError] (src/src/task/elf.rs), which feed the tree. *)

From S2P Require Import Prelude.
From Stdlib Require Import Ascii String.
Open Scope string_scope.
Open Scope Z_scope.

(** ** The enums *)

Inductive ElfError := TooSmall | InvalidMagicNumber | Not64Bit | MemoryMappingFailed.

Inductive MemoryError :=
| PageFault (addr flags : Z)
| OutOfFrames
| InvalidMapping
| CoWResolutionFailed
| HhdmMissing
| HeapOOM.

Inductive PrivilegeError :=
| GeneralProtectionFault (error_code : Z) (is_user : bool)
| InvalidOpcode (is_user : bool)
| DivideError (is_user : bool)
| DoubleFault
| PermissionDenied.

Inductive HardwareError :=
| HwIoFailure
| HwControllerMissing
| HwUnsupportedProtocol
| HwDeviceNotFound.

Inductive FsError :=
| BlockRead
| BlockWrite
| BadMagic (expected found : Z)
| MbrInvalid
| GptOnly
| UnknownPartition (t : Z)
| VfsEntryMissing
| CorruptedDirectory
| NoSpace
| OutOfInodes
| OutOfBlocks
| Elf (inner : ElfError).

Inductive TaskError :=
| StackAllocation
| EntryMissing
| PrivilegeMismatch
| TaskCreationFailure.

Inductive SystemError :=
| ElfParseFailed (inner : ElfError)
| SysTaskCreationFailure.

Inductive KernelError :=
| Memory (e : MemoryError)
| Privilege (e : PrivilegeError)
| Hardware (e : HardwareError)
| Fs (e : FsError)
| TaskE (e : TaskError)
| System (e : SystemError).

(** The block-driver taxonomy (src/src/drivers/block/mod.rs). *)
Inductive DriverError :=
| IoFailure
| DeviceNotFound
| ControllerMissing
| Timeout
| UnsupportedProtocol
| BufferTooSmall
| BufferTooLarge
| NoDmaMemory.

(** [From<DriverError> for FsError]. *)
Definition FsError_from_DriverError (e : DriverError) : FsError :=
  match e with
  | IoFailure => BlockRead
  | Timeout => BlockRead
  | BufferTooSmall => CorruptedDirectory
  | BufferTooLarge => CorruptedDirectory
  | NoDmaMemory => OutOfBlocks
  | ControllerMissing => VfsEntryMissing
  | DeviceNotFound => VfsEntryMissing
  | UnsupportedProtocol => VfsEntryMissing
  end.

(** [From<_> for KernelError]. *)
Definition KernelError_from_MemoryError (e : MemoryError) : KernelError := Memory e.
Definition KernelError_from_PrivilegeError (e : PrivilegeError) : KernelError := Privilege e.
Definition KernelError_from_HardwareError (e : HardwareError) : KernelError := Hardware e.
Definition KernelError_from_FsError (e : FsError) : KernelError := Fs e.
Definition KernelError_from_TaskError (e : TaskError) : KernelError := TaskE e.
Definition KernelError_from_SystemError (e : SystemError) : KernelError := System e.
Definition KernelError_from_ElfError (e : ElfError) : KernelError := Fs (Elf e).
Definition KernelError_from_str (_msg : string) : KernelError := System SysTaskCreationFailure.

(** ** [errno] *)

Inductive Errno :=
| EPERM | ENOENT | EIO | ENXIO | ENOEXEC | EBADF | ENOMEM | EACCES | EFAULT
| EEXIST | EINVAL | ENOSPC | ENOSYS.

(** The [#[repr(i32)]] discriminants. *)
Definition Errno_code (e : Errno) : Z :=
  match e with
  | EPERM => 1 | ENOENT => 2 | EIO => 5 | ENXIO => 6 | ENOEXEC => 8 | EBADF => 9
  | ENOMEM => 12 | EACCES => 13 | EFAULT => 14 | EEXIST => 17 | EINVAL => 22
  | ENOSPC => 28 | ENOSYS => 38
  end.

Definition to_neg_i32 (e : Errno) : Z := - Errno_code e.

Definition mt (inner : Errno) : Z := to_neg_i32 inner.

Definition ElfError_to_errno (e : ElfError) : Z :=
  mt match e with
     | TooSmall => EINVAL
     | InvalidMagicNumber => ENOEXEC
     | Not64Bit => ENOEXEC
     | MemoryMappingFailed => ENOMEM
     end.

Definition MemoryError_to_errno (e : MemoryError) : Z :=
  match e with
  | PageFault _ _ => mt EFAULT
  | OutOfFrames => mt ENOMEM
  | HeapOOM => mt ENOMEM
  | InvalidMapping => mt EFAULT
  | CoWResolutionFailed => mt EFAULT
  | HhdmMissing => mt EFAULT
  end.

Definition PrivilegeError_to_errno (e : PrivilegeError) : Z :=
  match e with
  | GeneralProtectionFault _ _ => mt EFAULT
  | InvalidOpcode is_user => if is_user then mt ENOSYS else mt EFAULT
  | DivideError _ => mt EFAULT
  | DoubleFault => mt EFAULT
  | PermissionDenied => mt EACCES
  end.

Definition HardwareError_to_errno (e : HardwareError) : Z :=
  match e with
  | HwIoFailure => mt EIO
  | HwControllerMissing => mt ENXIO
  | HwUnsupportedProtocol => mt ENOSYS
  | HwDeviceNotFound => mt ENXIO
  end.

Definition FsError_to_errno (e : FsError) : Z :=
  match e with
  | BlockRead => mt EIO
  | BlockWrite => mt EIO
  | BadMagic _ _ => mt EINVAL
  | MbrInvalid => mt EINVAL
  | GptOnly => mt EINVAL
  | UnknownPartition _ => mt EINVAL
  | VfsEntryMissing => mt ENOENT
  | OutOfInodes => mt ENOSPC
  | OutOfBlocks => mt ENOSPC
  | CorruptedDirectory => mt EIO
  | NoSpace => mt ENOSPC
  | Elf inner => ElfError_to_errno inner
  end.

Definition TaskError_to_errno (e : TaskError) : Z :=
  match e with
  | StackAllocation => mt ENOMEM
  | EntryMissing => mt EINVAL
  | PrivilegeMismatch => mt EACCES
  | TaskCreationFailure => mt EINVAL
  end.

Definition SystemError_to_errno (e : SystemError) : Z :=
  match e with
  | ElfParseFailed inner => ElfError_to_errno inner
  | SysTaskCreationFailure => mt EINVAL
  end.

Definition KernelError_to_errno (e : KernelError) : Z :=
  match e with
  | Memory e => MemoryError_to_errno e
  | Privilege e => PrivilegeError_to_errno e
  | Hardware e => HardwareError_to_errno e
  | Fs e => FsError_to_errno e
  | TaskE e => TaskError_to_errno e
  | System e => SystemError_to_errno e
  end.

(** ** [Display] *)

Definition hex_digit (d : Z) : ascii :=
  ascii_of_nat (Z.to_nat (if d <? 10 then 48 + d else 87 + d)).

(** [{:x}]: lower-case hexadecimal without leading zeros. *)
Fixpoint hex_go (fuel : nat) (x : Z) (acc : string) : string :=
  match fuel with
  | O => acc
  | S f =>
      let acc' := String (hex_digit (x mod 16)) acc in
      if x / 16 =? 0 then acc' else hex_go f (x / 16) acc'
  end.

(** Sixteen digits are enough for a 64-bit word. *)
Definition hex (x : Z) : string := hex_go 16 x EmptyString.

(** [{:0Nx}]: the same, padded with zeros to [n] characters. *)
Definition hex0 (n : nat) (x : Z) : string :=
  let s := hex x in
  (fix pad k := match k with O => s | S k' => String "0" (pad k') end)
    (n - String.length s)%nat.

(** [{:?}] of the derived [Debug] of [ElfError]. *)
Definition ElfError_debug (e : ElfError) : string :=
  match e with
  | TooSmall => "TooSmall"
  | InvalidMagicNumber => "InvalidMagicNumber"
  | Not64Bit => "Not64Bit"
  | MemoryMappingFailed => "MemoryMappingFailed"
  end.

Definition ElfError_fmt (e : ElfError) : string :=
  match e with
  | TooSmall => "ELF binary too small"
  | InvalidMagicNumber => "Invalid ELF magic number"
  | Not64Bit => "ELF is not 64-bit"
  | MemoryMappingFailed => "Failed to map memory for ELF segment"
  end.

Definition MemoryError_fmt (e : MemoryError) : string :=
  match e with
  | PageFault addr flags => "MEMORY:#PF addr=0x" ++ hex addr ++ " flags=0x" ++ hex flags
  | OutOfFrames => "MEMORY:OutOfFrames (bitmap exhausted)"
  | InvalidMapping => "MEMORY:InvalidMapping (region already used or HHDM conflict)"
  | CoWResolutionFailed => "MEMORY:CoWResolutionFailed (cannot resolve Copy-on-Write)"
  | HhdmMissing => "MEMORY:HhdmMissing (Limine did not provide higher-half direct map)"
  | HeapOOM => "MEMORY:HeapOOM (linked_list_allocator returned None)"
  end.

Definition ring (is_user : bool) : string := if is_user then "3" else "0".

Definition PrivilegeError_fmt (e : PrivilegeError) : string :=
  match e with
  | GeneralProtectionFault error_code is_user =>
      "PRIV:#GP error_code=0x" ++ hex error_code ++ " ring=" ++ ring is_user
  | InvalidOpcode is_user => "PRIV:#UD ring=" ++ ring is_user
  | DivideError is_user => "PRIV:#DE ring=" ++ ring is_user
  | DoubleFault => "PRIV:#DF double-fault (panic-inevitable)"
  | PermissionDenied => "PRIV:PermissionDenied"
  end.

Definition HardwareError_fmt (e : HardwareError) : string :=
  match e with
  | HwIoFailure => "HW:IoFailure"
  | HwControllerMissing => "HW:ControllerMissing (not on PCI bus or unresponsive)"
  | HwUnsupportedProtocol => "HW:UnsupportedProtocol (version mismatch)"
  | HwDeviceNotFound => "HW:DeviceNotFound (class/id mismatch)"
  end.

Definition FsError_fmt (e : FsError) : string :=
  match e with
  | BlockRead => "FS:BlockRead (device read_block failed)"
  | BlockWrite => "FS:BlockWrite (device write_block failed)"
  | BadMagic expected found =>
      "FS:BadMagic expected=0x" ++ hex0 4 expected ++ " found=0x" ++ hex0 4 found
  | MbrInvalid => "FS:MbrInvalid (missing 0x55 0xAA boot signature)"
  | GptOnly => "FS:GptOnly (protective MBR; GPT parser not yet implemented)"
  | UnknownPartition t => "FS:UnknownPartition type=0x" ++ hex0 2 t
  | VfsEntryMissing => "FS:VfsEntryMissing (lookup/open_vnode failed)"
  | Elf inner => "FS:Elf(" ++ ElfError_debug inner ++ ")"
  | OutOfInodes => "FS:OutOfInodes (bitmap full)"
  | OutOfBlocks => "FS:OutOfBlocks (bitmap full)"
  | CorruptedDirectory => "FS:CorruptedDirectory (rec_len=0 / overflow)"
  | NoSpace => "FS:NoSpace (directory or block full)"
  end.

Definition TaskError_fmt (e : TaskError) : string :=
  match e with
  | StackAllocation => "TASK:StackAllocation (64 KiB heap reservation failed)"
  | EntryMissing => "TASK:EntryMissing (null or unresolved fn())"
  | PrivilegeMismatch => "TASK:PrivilegeMismatch (ring selector vs entry point incompatible)"
  | TaskCreationFailure => "TASK:TaskCreationFailure (generic spawn failure)"
  end.

Definition SystemError_fmt (e : SystemError) : string :=
  match e with
  | ElfParseFailed inner => "SYSTEM:ElfParseFailed(" ++ ElfError_debug inner ++ ")"
  | SysTaskCreationFailure =>
      "SYSTEM:TaskCreationFailure (legacy; migrates to TaskError)"
  end.

Definition KernelError_fmt (e : KernelError) : string :=
  match e with
  | Memory e => "KERNEL:" ++ MemoryError_fmt e
  | Privilege e => "KERNEL:" ++ PrivilegeError_fmt e
  | Hardware e => "KERNEL:" ++ HardwareError_fmt e
  | Fs e => "KERNEL:" ++ FsError_fmt e
  | TaskE e => "KERNEL:" ++ TaskError_fmt e
  | System e => "KERNEL:" ++ SystemError_fmt e
  end.

Definition DriverError_fmt (e : DriverError) : string :=
  match e with
  | IoFailure => "DRV:IoFailure (DMA/PIO operation failed)"
  | DeviceNotFound => "DRV:DeviceNotFound (LUN/id mismatch)"
  | ControllerMissing => "DRV:ControllerMissing (HBA unresponsive on PCI)"
  | Timeout => "DRV:Timeout (controller did not complete in time)"
  | UnsupportedProtocol => "DRV:UnsupportedProtocol (rev. not handled by driver)"
  | BufferTooSmall => "DRV:BufferTooSmall (caller buffer cannot hold a sector)"
  | BufferTooLarge => "DRV:BufferTooLarge (caller buffer exceeds a physical page)"
  | NoDmaMemory => "DRV:NoDmaMemory (no free frames for bounce buffer)"
  end.

(** [log_kernel_error]: the line written to the serial console. *)
Definition log_kernel_error (e : KernelError) : string :=
  "[KERNEL ERROR LOG] " ++ KernelError_fmt e ++ String (ascii_of_nat 10) EmptyString.

(** ** The [source] chain *)

(** [&dyn Error]: any of the error types behind the trait object. *)
Inductive dyn_error :=
| DynMemory (e : MemoryError)
| DynPrivilege (e : PrivilegeError)
| DynHardware (e : HardwareError)
| DynFs (e : FsError)
| DynTask (e : TaskError)
| DynSystem (e : SystemError)
| DynKernel (e : KernelError)
| DynElf (e : ElfError)
| DynDriver (e : DriverError).

Definition FsError_source (e : FsError) : option dyn_error :=
  match e with Elf inner => Some (DynElf inner) | _ => None end.

Definition SystemError_source (e : SystemError) : option dyn_error :=
  match e with
  | ElfParseFailed inner => Some (DynElf inner)
  | SysTaskCreationFailure => None
  end.

Definition KernelError_source (e : KernelError) : option dyn_error :=
  match e with
  | Memory e => Some (DynMemory e)
  | Privilege e => Some (DynPrivilege e)
  | Hardware e => Some (DynHardware e)
  | Fs e => Some (DynFs e)
  | TaskE e => Some (DynTask e)
  | System e => Some (DynSystem e)
  end.

(** [Error::source] by dynamic dispatch. *)
Definition error_source (d : dyn_error) : option dyn_error :=
  match d with
  | DynFs e => FsError_source e
  | DynSystem e => SystemError_source e
  | DynKernel e => KernelError_source e
  | DynMemory _ | DynPrivilege _ | DynHardware _ | DynTask _ | DynElf _ | DynDriver _ => None
  end.

(** ** Well-formed payloads *)

(** The machine widths of the payload fields. *)
Definition MemoryError_wf (e : MemoryError) : Prop :=
  match e with PageFault a f => 0 ≤ a < 2 ^ 64 ∧ 0 ≤ f < 2 ^ 64 | _ => True end.
Definition PrivilegeError_wf (e : PrivilegeError) : Prop :=
  match e with GeneralProtectionFault c _ => 0 ≤ c < 2 ^ 64 | _ => True end.
Definition FsError_wf (e : FsError) : Prop :=
  match e with
  | BadMagic x y => 0 ≤ x < 2 ^ 16 ∧ 0 ≤ y < 2 ^ 16
  | UnknownPartition t => 0 ≤ t < 2 ^ 8
  | _ => True
  end.
Definition KernelError_wf (e : KernelError) : Prop :=
  match e with
  | Memory e => MemoryError_wf e
  | Privilege e => PrivilegeError_wf e
  | Fs e => FsError_wf e
  | _ => True
  end.

(** ** Facts about hexadecimal text *)

Definition digit_val (c : ascii) : Z :=
  let n := Z.of_nat (nat_of_ascii c) in if n <? 58 then n - 48 else n - 87.

(** The value of a hexadecimal text read after the value [acc]. *)
Fixpoint hexval (s : string) (acc : Z) : Z :=
  match s with
  | EmptyString => acc
  | String c s' => hexval s' (16 * acc + digit_val c)
  end.

Fixpoint str_all (p : ascii → bool) (s : string) : bool :=
  match s with EmptyString => true | String c s' => p c && str_all p s' end.

Definition not_char (c c' : ascii) : bool := negb (Ascii.eqb c c').

Section Hex.
(** Case analysis on a hexadecimal digit. *)
Lemma hex_digit_cases (P : Z → Prop) :
  Forall P [0;1;2;3;4;5;6;7;8;9;10;11;12;13;14;15] → ∀ d, 0 ≤ d < 16 → P d.
Proof.
  intros HP d Hd. rewrite Forall_forall in HP. apply HP.
  rewrite !elem_of_cons. lia.
Qed.

Lemma digit_val_hex_digit d : 0 ≤ d < 16 → digit_val (hex_digit d) = d.
Proof. revert d. apply hex_digit_cases. by repeat constructor. Qed.

Lemma hex_digit_not c d : Ascii.eqb c " " || Ascii.eqb c (ascii_of_nat 10) = true →
  0 ≤ d < 16 → not_char c (hex_digit d) = true.
Proof.
  intros Hc. revert d. apply hex_digit_cases. unfold not_char.
  apply orb_true_iff in Hc as [->%Ascii.eqb_eq | ->%Ascii.eqb_eq]; by repeat constructor.
Qed.

Lemma hexval_hex_go f x s : 0 ≤ x < 16 ^ Z.of_nat f →
  hexval (hex_go f x s) 0 = hexval s x.
Proof.
  revert x s. induction f as [|f IH]; intros x s Hx.
  { change (16 ^ Z.of_nat 0) with 1 in Hx. by replace x with 0 by lia. }
  replace (Z.of_nat (S f)) with (Z.of_nat f + 1) in Hx by lia.
  rewrite Z.pow_add_r in Hx by lia. cbn [hex_go].
  destruct (Z.eqb_spec (x / 16) 0).
  - cbn [hexval]. rewrite digit_val_hex_digit by zlia. f_equal. zlia.
  - rewrite IH by zlia. cbn [hexval]. rewrite digit_val_hex_digit by zlia. f_equal. zlia.
Qed.

Lemma hexval_hex x : 0 ≤ x < 2 ^ 64 → hexval (hex x) 0 = x.
Proof. intros. unfold hex. by rewrite hexval_hex_go. Qed.

Lemma hexval_hex0 n x : 0 ≤ x < 2 ^ 64 → hexval (hex0 n x) 0 = x.
Proof.
  intros Hx. unfold hex0. generalize (n - String.length (hex x))%nat as k.
  induction k as [|k IH]; [by apply hexval_hex|exact IH].
Qed.

Lemma hex_inj x y : 0 ≤ x < 2 ^ 64 → 0 ≤ y < 2 ^ 64 → hex x = hex y → x = y.
Proof. intros Hx Hy E. by rewrite <- (hexval_hex x), <- (hexval_hex y), E. Qed.

Lemma hex0_inj n x y : 0 ≤ x < 2 ^ 64 → 0 ≤ y < 2 ^ 64 → hex0 n x = hex0 n y → x = y.
Proof. intros Hx Hy E. by rewrite <- (hexval_hex0 n x), <- (hexval_hex0 n y), E. Qed.

Context (c : ascii) (Hc : Ascii.eqb c " " || Ascii.eqb c (ascii_of_nat 10) = true).

Lemma hex_all x : str_all (not_char c) (hex x) = true.
Proof using Hc.
  unfold hex.
  assert (str_all (not_char c) EmptyString = true) as H by done.
  revert x H. generalize EmptyString. generalize 16%nat.
  induction n as [|f IH]; intros s x Hs; cbn [hex_go]; [done|].
  assert (str_all (not_char c) (String (hex_digit (x mod 16)) s) = true).
  { cbn [str_all]. rewrite hex_digit_not, Hs by (done || zlia). done. }
  case_match; auto.
Qed.

Lemma hex0_all n x : str_all (not_char c) (hex0 n x) = true.
Proof using Hc.
  unfold hex0. generalize (n - String.length (hex x))%nat as k.
  induction k as [|k IH]; [apply hex_all|]. cbn [str_all]. rewrite IH, andb_true_r.
  apply (hex_digit_not c 0); [done|lia].
Qed.

Lemma str_all_app p s1 s2 : str_all p (s1 ++ s2)%string = str_all p s1 && str_all p s2.
Proof using. induction s1; simpl; [done|]. by rewrite IHs1, andb_assoc. Qed.

(** Two texts that agree up to their first separator agree on both sides. *)
Lemma split_at_sep s1 s2 r1 r2 :
  str_all (not_char c) s1 = true → str_all (not_char c) s2 = true →
  (s1 ++ String c r1)%string = (s2 ++ String c r2)%string → s1 = s2 ∧ r1 = r2.
Proof using.
  assert (not_char c c = false) as Hcc by (unfold not_char; by rewrite Ascii.eqb_refl).
  revert s2. induction s1 as [|a s1 IH]; intros [|b s2]; simpl; intros H1 H2 E.
  - by injection E.
  - injection E as <- _. by rewrite Hcc in H2.
  - injection E as -> _. by rewrite Hcc in H1.
  - apply andb_true_iff in H1 as [_ H1], H2 as [_ H2].
    injection E as -> E. destruct (IH s2 H1 H2 E). by subst.
Qed.
End Hex.

(** ** Theorems *)

(** Within one sub-enum the text determines the value. *)
Ltac fmt_cases :=
  repeat match goal with b : bool |- _ => destruct b end;
  repeat match goal with i : ElfError |- _ => destruct i end;
  intros E; try done; try discriminate E.

Lemma MemoryError_fmt_inj e1 e2 : MemoryError_wf e1 → MemoryError_wf e2 →
  MemoryError_fmt e1 = MemoryError_fmt e2 → e1 = e2.
Proof.
  destruct e1, e2; intros W1 W2; fmt_cases. injection E as E.
  apply split_at_sep in E as [H1 H2]; [|by apply hex_all..].
  simpl in H2. injection H2 as H2.
  apply hex_inj in H1; [|apply W1|apply W2]. apply hex_inj in H2; [|apply W1|apply W2].
  by subst.
Qed.

Lemma PrivilegeError_fmt_inj e1 e2 : PrivilegeError_wf e1 → PrivilegeError_wf e2 →
  PrivilegeError_fmt e1 = PrivilegeError_fmt e2 → e1 = e2.
Proof.
  destruct e1, e2; intros W1 W2; fmt_cases; injection E as E;
    (apply split_at_sep in E as [H1 H2]; [|by apply hex_all..]);
    try discriminate H2; (apply hex_inj in H1; [by subst|done..]).
Qed.

Lemma FsError_fmt_inj e1 e2 : FsError_wf e1 → FsError_wf e2 →
  FsError_fmt e1 = FsError_fmt e2 → e1 = e2.
Proof.
  destruct e1, e2; intros W1 W2; simpl in W1, W2; fmt_cases; injection E as E.
  - apply split_at_sep in E as [H1 H2]; [|by apply hex0_all..].
    simpl in H2. injection H2 as H2. apply hex0_inj in H1, H2; [by subst|lia..].
  - apply hex0_inj in E; [by subst|lia..].
Qed.

(** The serial log line is a faithful record of the error.  For payloads
    of their machine widths, two errors that print the same [Display] text are
    the same error: the category, the variant and every field can be read back
    from the line. *)
Theorem KernelError_fmt_inj e1 e2 :
  KernelError_wf e1 → KernelError_wf e2 → KernelError_fmt e1 = KernelError_fmt e2 → e1 = e2.
Proof.
  destruct e1 as [e1|e1|e1|e1|e1|e1], e2 as [e2|e2|e2|e2|e2|e2];
    intros W1 W2 E; injection E as E; f_equal;
    try (apply MemoryError_fmt_inj || apply PrivilegeError_fmt_inj || apply FsError_fmt_inj);
    try done; try (destruct e1, e2; repeat case_match; discriminate E).
  all: destruct e1, e2; revert E; fmt_cases.
Qed.

Lemma KernelError_fmt_inj_witness :
  KernelError_fmt (Memory (PageFault 4096 7)) = "KERNEL:MEMORY:#PF addr=0x1000 flags=0x7"%string
  ∧ Memory (PageFault (16 * 256) 7) = Memory (PageFault 4096 (8 - 1)).
Proof.
  split; [vm_compute; reflexivity|].
  apply (KernelError_fmt_inj (Memory (PageFault (16 * 256) 7)) (Memory (PageFault 4096 (8 - 1))));
    [simpl; lia|simpl; lia|vm_compute; reflexivity].
Defined.

(** Every log message is one line: [KernelError]'s [Display] starts with
    [KERNEL:] and never contains a line feed, and [log_kernel_error] ends it
    with exactly one. *)
Theorem KernelError_fmt_one_line e :
  String.prefix "KERNEL:" (KernelError_fmt e) = true
  ∧ str_all (not_char (ascii_of_nat 10)) (KernelError_fmt e) = true
  ∧ (∃ body, log_kernel_error e = (body ++ String (ascii_of_nat 10) EmptyString)%string
             ∧ str_all (not_char (ascii_of_nat 10)) body = true).
Proof.
  assert (str_all (not_char (ascii_of_nat 10)) (KernelError_fmt e) = true) as Hone.
  2: { split; [destruct e as [e|e|e|e|e|e]; destruct e; reflexivity|]. split; [done|].
       exists ("[KERNEL ERROR LOG] " ++ KernelError_fmt e)%string.
       split; [reflexivity|]. by rewrite str_all_app, Hone. }
  destruct e as [e|e|e|e|e|e]; destruct e;
    repeat match goal with b : bool |- _ => destruct b | i : ElfError |- _ => destruct i end;
    try reflexivity;
    cbn [KernelError_fmt MemoryError_fmt PrivilegeError_fmt FsError_fmt];
    rewrite ?str_all_app, ?hex_all, ?hex0_all by done; reflexivity.
Qed.

(** [to_errno] always yields the negation of one of the POSIX codes of
    [Errno], so the value cast into [rax] lies in the top 38 words of the
    64-bit range: no error can be read by user space as a descriptor, a byte
    count or a user-half address. *)
Theorem KernelError_to_errno_range e :
  (∃ c : Errno, KernelError_to_errno e = - Errno_code c)
  ∧ -38 ≤ KernelError_to_errno e ≤ -1
  ∧ 2 ^ 64 - 38 ≤ as_u64 (KernelError_to_errno e) < 2 ^ 64.
Proof.
  assert (∃ c : Errno, KernelError_to_errno e = - Errno_code c) as [c Hc].
  { destruct e as [e|e|e|e|e|e]; destruct e;
      repeat match goal with b : bool |- _ => destruct b | i : ElfError |- _ => destruct i end;
      cbn; unfold mt, to_neg_i32, ElfError_to_errno; eauto. }
  assert (1 ≤ Errno_code c ≤ 38) by (destruct c; cbn; lia).
  split; [by exists c|]. rewrite Hc. unfold as_u64. zlia.
Qed.
