(* ===== verification/FrameAlloc.v ===== *)
(** * Physical frame allocator (src/src/mm/memory.rs)

    [BitmapFrameAllocator]: a bitmap with one bit per 4 KiB frame and a
    parallel array of [u16] reference counts.  The file models every method of
    the allocator, states its invariant, proves the functional behaviour of
    each method and that the whole allocator refines a map from owned frames
    to reference counts. *)

From S2P Require Import Prelude.

Definition FRAME_SIZE : Z := 4096.

Record BitmapFrameAllocator := mkAlloc {
  bitmap : list Z;
  ref_counts : list Z;
  total_frames : Z;
  last_free_frame_hint : Z;
}.

Definition empty : BitmapFrameAllocator := mkAlloc [] [] 0 0.

Definition set_bitmap (s : BitmapFrameAllocator) (b : list Z) : BitmapFrameAllocator :=
  mkAlloc b (ref_counts s) (total_frames s) (last_free_frame_hint s).
Definition set_ref_counts (s : BitmapFrameAllocator) (r : list Z) : BitmapFrameAllocator :=
  mkAlloc (bitmap s) r (total_frames s) (last_free_frame_hint s).
Definition set_hint (s : BitmapFrameAllocator) (h : Z) : BitmapFrameAllocator :=
  mkAlloc (bitmap s) (ref_counts s) (total_frames s) h.

(** ** Operations *)

Section Ops.
Context `{Profile}.
Implicit Types s : BitmapFrameAllocator.

Definition force_set_bit s (frame : Z) : outcome BitmapFrameAllocator :=
  if total_frames s <=? frame then Ret s else
  let byte := frame / 8 in
  let bit := frame mod 8 in
  b <- vget (bitmap s) byte;;
  bm <- vset (bitmap s) byte (Z.lor b (Z.shiftl 1 bit));;
  rc <- vset (ref_counts s) frame 1;;
  Ret (set_ref_counts (set_bitmap s bm) rc).

Definition force_free_bit s (frame : Z) : outcome BitmapFrameAllocator :=
  if total_frames s <=? frame then Ret s else
  let byte := frame / 8 in
  let bit := frame mod 8 in
  b <- vget (bitmap s) byte;;
  bm <- vset (bitmap s) byte (Z.land b (unot 8 (Z.shiftl 1 bit)));;
  rc <- vset (ref_counts s) frame 0;;
  Ret (set_ref_counts (set_bitmap s bm) rc).

Definition test_bit s (frame : Z) : outcome bool :=
  if total_frames s <=? frame then Ret true else
  let byte := frame / 8 in
  let bit := frame mod 8 in
  b <- vget (bitmap s) byte;;
  Ret (negb (Z.land b (Z.shiftl 1 bit) =? 0)).

(** The body of both loops of [allocate_frame]. *)
Definition try_frame (i : Z) s : outcome (flow BitmapFrameAllocator (option Z * BitmapFrameAllocator)) :=
  t <- test_bit s i;;
  if negb t then
    s1 <- force_set_bit s i;;
    h <- uadd 64 i 1;;
    addr <- umul 64 i FRAME_SIZE;;
    Ret (Done (Some addr, set_hint s1 h))
  else Ret (Next s).

Definition allocate_frame s : outcome (option Z * BitmapFrameAllocator) :=
  r <- for_range (last_free_frame_hint s) (total_frames s) try_frame s;;
  match r with
  | Done x => Ret x
  | Next s =>
      r <- for_range 0 (last_free_frame_hint s) try_frame s;;
      match r with
      | Done x => Ret x
      | Next s => Ret (None, s)
      end
  end.

Definition deallocate_frame s (phys_addr : Z) : outcome BitmapFrameAllocator :=
  let frame := phys_addr / FRAME_SIZE in
  if negb (frame <? total_frames s) then Stop Panic else
  n <- vget (ref_counts s) frame;;
  if 0 <? n then
    n' <- usub 16 n 1;;
    rc <- vset (ref_counts s) frame n';;
    let s := set_ref_counts s rc in
    n <- vget (ref_counts s) frame;;
    if n =? 0 then
      let byte := frame / 8 in
      let bit := frame mod 8 in
      b <- vget (bitmap s) byte;;
      bm <- vset (bitmap s) byte (Z.land b (unot 8 (Z.shiftl 1 bit)));;
      let s := set_bitmap s bm in
      Ret (if frame <? last_free_frame_hint s then set_hint s frame else s)
    else Ret s
  else Stop Panic.

Definition reference_frame s (phys_addr : Z) : outcome BitmapFrameAllocator :=
  let frame := phys_addr / FRAME_SIZE in
  if negb (frame <? total_frames s) then Stop Panic else
  n <- vget (ref_counts s) frame;;
  if negb (0 <? n) then Stop Panic else
  n' <- uadd 16 n 1;;
  rc <- vset (ref_counts s) frame n';;
  Ret (set_ref_counts s rc).

Definition get_ref_count s (phys_addr : Z) : outcome Z :=
  let frame := phys_addr / FRAME_SIZE in
  if total_frames s <=? frame then Ret 1 else vget (ref_counts s) frame.

(** The inner [for j in 0..count] of [allocate_contiguous_frames]. *)
Definition run_step s (i j free_run : Z) : outcome (flow Z Z) :=
  f <- uadd 64 i j;;
  t <- test_bit s f;;
  if t then Ret (Done free_run) else n <- uadd 64 free_run 1;; Ret (Next n).

Definition free_run s (i count : Z) : outcome Z :=
  r <- for_range 0 count (run_step s i) 0;;
  Ret match r with Next n => n | Done n => n end.

Definition contiguous_step (count : Z) (st : Z * BitmapFrameAllocator)
  : outcome (flow (Z * BitmapFrameAllocator) (option Z * BitmapFrameAllocator)) :=
  let '(i, s) := st in
  if negb (i <=? sat_sub (total_frames s) count) then Ret (Done (None, s)) else
  n <- free_run s i count;;
  if n =? count then
    e <- uadd 64 i count;;
    s' <- each_range i e (λ j s, force_set_bit s j) s;;
    addr <- umul 64 i FRAME_SIZE;;
    Ret (Done (Some addr, s'))
  else
    d <- uadd 64 n 1;;
    i' <- uadd 64 i d;;
    Ret (Next (i', s)).

(** [i] grows at every round and the loop stops above [total_frames], so
    [total_frames + 2] rounds are enough. *)
Definition allocate_contiguous_frames s (count : Z) : outcome (option Z * BitmapFrameAllocator) :=
  if count =? 0 then Ret (None, s)
  else loop (Z.to_nat (total_frames s) + 2) (contiguous_step count) (0, s).
End Ops.

(** ** The IRQ-safe reference helpers

    [without_interrupts] around the allocator lock: on the uniprocessor kernel
    the helpers are the allocator's methods run atomically. *)
Section Cow.
Context `{Profile}.

Definition cow_reference_frame := reference_frame.
Definition cow_deallocate_frame := deallocate_frame.
Definition cow_get_ref_count := get_ref_count.
End Cow.

(** ** Initialisation from the Limine memory map *)

Inductive memmap_kind :=
| MEMMAP_USABLE
| MEMMAP_BOOTLOADER_RECLAIMABLE
| MEMMAP_EXECUTABLE_AND_MODULES
| MEMMAP_FRAMEBUFFER
| MEMMAP_OTHER.

#[global] Instance memmap_kind_eq : EqDecision memmap_kind.
Proof. solve_decision. Defined.

Record memmap_entry := mkEntry { base : Z; entry_length : Z; type_ : memmap_kind }.

Definition is_usable (e : memmap_entry) : bool := bool_decide (type_ e = MEMMAP_USABLE).

(** The kinds of region [max_addr] ranges over. *)
Definition is_touchable (e : memmap_entry) : bool :=
  bool_decide (type_ e = MEMMAP_USABLE)
  || bool_decide (type_ e = MEMMAP_BOOTLOADER_RECLAIMABLE)
  || bool_decide (type_ e = MEMMAP_EXECUTABLE_AND_MODULES)
  || bool_decide (type_ e = MEMMAP_FRAMEBUFFER).

Section Init.
Context `{Profile}.
Implicit Types (s : BitmapFrameAllocator) (entries : list memmap_entry).

Definition max_top entries : outcome Z :=
  mfold (λ (max_addr : Z) (e : memmap_entry),
    if is_touchable e then
      top <- uadd 64 (base e) (entry_length e);;
      Ret (if max_addr <? top then top else max_addr)
    else Ret max_addr) 0 entries.

(** The frames of one usable region, freed one by one. *)
Definition free_region s (e : memmap_entry) : outcome BitmapFrameAllocator :=
  if is_usable e then
    a <- uadd 64 (base e) FRAME_SIZE;;
    a <- usub 64 a 1;;
    b <- uadd 64 (base e) (entry_length e);;
    each_range (a / FRAME_SIZE) (b / FRAME_SIZE) (λ i s, force_free_bit s i) s
  else Ret s.

(** [init]: [mmap] and [hhdm] are the bootloader's responses. *)
Definition init s (mmap : option (list memmap_entry)) (hhdm : option Z)
  : outcome BitmapFrameAllocator :=
  match mmap with
  | None => Stop Panic
  | Some entries =>
      max_addr <- max_top entries;;
      a <- uadd 64 max_addr FRAME_SIZE;;
      a <- usub 64 a 1;;
      let total := a / FRAME_SIZE in
      a <- uadd 64 total 7;;
      let raw_bitmap_size := a / 8 in
      a <- uadd 64 raw_bitmap_size 7;;
      let bitmap_size_aligned := Z.land a (unot 64 7) in
      refcounts_size_in_bytes <- umul 64 total 2;;
      metadata_total_size <- uadd 64 bitmap_size_aligned refcounts_size_in_bytes;;
      match find (λ e, is_usable e && (metadata_total_size <=? entry_length e)) entries with
      | None => Stop Panic
      | Some region =>
          let metadata_phys_addr := base region in
          match hhdm with
          | None => Stop Panic
          | Some hhdm_offset =>
              _virt <- uadd 64 hhdm_offset metadata_phys_addr;;
              let s := mkAlloc (replicate (Z.to_nat raw_bitmap_size) 255)
                         (replicate (Z.to_nat total) 1) total (last_free_frame_hint s) in
              s <- mfold free_region s entries;;
              let metadata_start_frame := metadata_phys_addr / FRAME_SIZE in
              a <- uadd 64 metadata_total_size FRAME_SIZE;;
              a <- usub 64 a 1;;
              metadata_end_frame <- uadd 64 metadata_start_frame (a / FRAME_SIZE);;
              s <- each_range metadata_start_frame metadata_end_frame
                    (λ i s, force_set_bit s i) s;;
              force_set_bit s 0
          end
      end
  end.
End Init.

(** ** Invariant *)

(** The bit and the counter of a frame. *)
Definition busy (s : BitmapFrameAllocator) (f : Z) : bool :=
  Z.testbit (default 0 (bitmap s !! Z.to_nat (f / 8))) (f mod 8).
Definition refs (s : BitmapFrameAllocator) (f : Z) : Z :=
  default 0 (ref_counts s !! Z.to_nat f).

(** Sizes and ranges: the arrays cover [total_frames] frames with bytes and
    16-bit counters, and every frame has a 64-bit address. *)
Record shape (s : BitmapFrameAllocator) : Prop := {
  shape_total : 0 ≤ total_frames s ≤ 2 ^ 52;
  shape_refs : Z.of_nat (length (ref_counts s)) = total_frames s;
  shape_bitmap : Z.of_nat (length (bitmap s)) = (total_frames s + 7) / 8;
  shape_bytes : Forall (λ b, 0 ≤ b < 2 ^ 8) (bitmap s);
  shape_counts : Forall (λ n, 0 ≤ n < 2 ^ 16) (ref_counts s);
}.

(** The invariant: a frame is marked busy exactly when its counter is positive,
    and there is no free frame below the hint. *)
Record WF (s : BitmapFrameAllocator) : Prop := {
  wf_shape : shape s;
  wf_sync : ∀ f, 0 ≤ f < total_frames s → busy s f = (0 <? refs s f);
  wf_hint : 0 ≤ last_free_frame_hint s ≤ total_frames s;
  wf_below : ∀ f, 0 ≤ f < last_free_frame_hint s → busy s f = true;
}.

(** [upd s s' f b n]: [s'] is [s] with the bit of frame [f] set to [b] and its
    counter to [n], and nothing else changed. *)
Record upd (s s' : BitmapFrameAllocator) (f : Z) (b : bool) (n : Z) : Prop := {
  upd_shape : shape s';
  upd_total : total_frames s' = total_frames s;
  upd_hint : last_free_frame_hint s' = last_free_frame_hint s;
  upd_busy : ∀ g, 0 ≤ g < total_frames s → busy s' g = if decide (g = f) then b else busy s g;
  upd_refs : ∀ g, 0 ≤ g < total_frames s → refs s' g = if decide (g = f) then n else refs s g;
}.

Section Lookups.
Implicit Types s : BitmapFrameAllocator.

Lemma byte_lookup s f : shape s → 0 ≤ f < total_frames s →
  ∃ b, bitmap s !! Z.to_nat (f / 8) = Some b ∧ 0 ≤ b < 2 ^ 8.
Proof.
  intros Hs Hf. destruct (lookup_lt_is_Some_2 (bitmap s) (Z.to_nat (f / 8))) as [b Hb].
  { pose proof (shape_bitmap s Hs). zlia. }
  exists b. split; [done|]. by eapply (Forall_lookup_1 _ _ _ _ (shape_bytes s Hs)).
Qed.

Lemma count_lookup s f : shape s → 0 ≤ f < total_frames s →
  ref_counts s !! Z.to_nat f = Some (refs s f) ∧ 0 ≤ refs s f < 2 ^ 16.
Proof.
  intros Hs Hf. destruct (lookup_lt_is_Some_2 (ref_counts s) (Z.to_nat f)) as [n Hn].
  { pose proof (shape_refs s Hs). lia. }
  unfold refs. rewrite Hn. split; [done|].
  by eapply (Forall_lookup_1 _ _ _ _ (shape_counts s Hs)).
Qed.

(** Reading a bit or a counter after one array element was replaced. *)
Lemma busy_set_byte s f b v g :
  shape s → 0 ≤ f < total_frames s → 0 ≤ g →
  bitmap s !! Z.to_nat (f / 8) = Some b →
  busy (set_bitmap s (<[Z.to_nat (f / 8) := v]> (bitmap s))) g
  = if decide (g / 8 = f / 8) then Z.testbit v (g mod 8) else busy s g.
Proof.
  intros Hs Hf Hg Hb. unfold busy. simpl.
  apply lookup_lt_Some in Hb. case_decide as E.
  - rewrite E, list_lookup_insert_eq by done. done.
  - by rewrite list_lookup_insert_ne by zlia.
Qed.

Lemma refs_set_count s f n g :
  shape s → 0 ≤ f < total_frames s → 0 ≤ g →
  refs (set_ref_counts s (<[Z.to_nat f := n]> (ref_counts s))) g
  = if decide (g = f) then n else refs s g.
Proof.
  intros Hs Hf Hg. unfold refs. simpl. pose proof (shape_refs s Hs).
  case_decide as E.
  - rewrite E, list_lookup_insert_eq by lia. done.
  - by rewrite list_lookup_insert_ne by lia.
Qed.

Lemma refs_set_bitmap s bm g : refs (set_bitmap s bm) g = refs s g.
Proof. done. Qed.

Lemma busy_set_ref_counts s rc g : busy (set_ref_counts s rc) g = busy s g.
Proof. done. Qed.

Lemma shape_set_bitmap s f v :
  shape s → 0 ≤ v < 2 ^ 8 → shape (set_bitmap s (<[f := v]> (bitmap s))).
Proof.
  intros [] Hv. split; simpl; auto; [by rewrite length_insert|by apply Forall_insert].
Qed.

Lemma shape_set_ref_counts s f n :
  shape s → 0 ≤ n < 2 ^ 16 → shape (set_ref_counts s (<[f := n]> (ref_counts s))).
Proof.
  intros [] Hn. split; simpl; auto; [by rewrite length_insert|by apply Forall_insert].
Qed.

Lemma shape_set_hint s h : shape s → shape (set_hint s h).
Proof. intros []. by split. Qed.
End Lookups.

(** ** Free frames *)

Definition free_frames (s : BitmapFrameAllocator) : Z :=
  Z.of_nat (length (List.filter (λ f, negb (busy s f)) (seqZ 0 (total_frames s)))).

Section FreeFrames.
Implicit Types s : BitmapFrameAllocator.

Lemma free_frames_nonneg s : 0 ≤ free_frames s.
Proof. unfold free_frames. lia. Qed.

Lemma free_frames_none s : (∀ g, 0 ≤ g < total_frames s → busy s g = true) → free_frames s = 0.
Proof.
  intros Hb. unfold free_frames. rewrite (List.filter_ext_in _ (λ _, false)); [by induction (seqZ 0 (total_frames s))|].
  intros g Hg%list_elem_of_In%elem_of_seqZ. by rewrite Hb by lia.
Qed.

(** Taking one frame. *)
Lemma free_frames_take s s' f : total_frames s' = total_frames s → 0 ≤ f < total_frames s →
  busy s f = false → busy s' f = true → (∀ g, 0 ≤ g < total_frames s → g ≠ f → busy s' g = busy s g) →
  free_frames s = free_frames s' + 1.
Proof.
  intros Ht Hf Hb Hb' Hoth. unfold free_frames. rewrite Ht.
  replace (total_frames s) with (f + Z.succ (total_frames s - f - 1)) by lia.
  rewrite seqZ_app, (seqZ_cons (0 + f)), !List.filter_app, !length_app by lia. cbn [List.filter]. rewrite Z.add_0_l, Hb, Hb'. cbn [negb length].
  rewrite (List.filter_ext_in (λ g, negb (busy s' g)) (λ g, negb (busy s g)) (seqZ 0 f)),
    (List.filter_ext_in (λ g, negb (busy s' g)) (λ g, negb (busy s g)) (seqZ (Z.succ f) _)); [lia|..];
    intros g Hg%list_elem_of_In%elem_of_seqZ; by rewrite Hoth by lia.
Qed.

Lemma free_frames_refs s s' f : WF s → WF s' → total_frames s' = total_frames s → 0 ≤ f < total_frames s →
  refs s f = 0 → (∀ g, 0 ≤ g < total_frames s → refs s' g = if decide (g = f) then 1 else refs s g) →
  free_frames s = free_frames s' + 1.
Proof.
  intros Hw Hw' Ht Hf Hz Hr. apply (free_frames_take s s' f); try done.
  - rewrite (wf_sync s Hw), Hz by done. done.
  - rewrite (wf_sync s' Hw'), Hr by lia. by rewrite decide_True.
  - intros g Hg Hne. rewrite (wf_sync s' Hw'), (wf_sync s Hw), Hr by lia. by rewrite decide_False.
Qed.
End FreeFrames.

#[export] Hint Resolve shape_set_bitmap shape_set_ref_counts shape_set_hint wf_shape : nwin.

(** ** The bit operations *)

Section BitOps.
Context `{Profile}.
Implicit Types s : BitmapFrameAllocator.

Lemma test_bit_spec s f : shape s → 0 ≤ f →
  test_bit s f = Ret (if total_frames s <=? f then true else busy s f).
Proof.
  intros Hs Hf. unfold test_bit. destruct (Z.leb_spec (total_frames s) f); [done|].
  destruct (byte_lookup s f Hs ltac:(lia)) as (b & Hb & _).
  unfold vget, busy. rewrite Hb. cbn [obind default].
  by rewrite mask_test, negb_involutive by zlia.
Qed.

(** Replacing the byte of [f] by one that differs from it at the bit of [f]
    only, and the counter of [f]. *)
Lemma upd_intro s f b v n t :
  shape s → 0 ≤ f < total_frames s → bitmap s !! Z.to_nat (f / 8) = Some b →
  0 ≤ v < 2 ^ 8 → 0 ≤ n < 2 ^ 16 →
  (∀ i, 0 ≤ i → Z.testbit v i = if i =? f mod 8 then t else Z.testbit b i) →
  upd s (set_ref_counts (set_bitmap s (<[Z.to_nat (f / 8) := v]> (bitmap s)))
           (<[Z.to_nat f := n]> (ref_counts s))) f t n.
Proof.
  intros Hs Hf Hb Hv Hn Hbits. split; try done.
  - exact (shape_set_ref_counts _ _ _ (shape_set_bitmap _ _ _ Hs Hv) Hn).
  - intros g Hg. rewrite busy_set_ref_counts, (busy_set_byte s f b) by (done || lia).
    rewrite Hbits by zlia.
    repeat case_decide; destruct (Z.eqb_spec (g mod 8) (f mod 8)); try done; try zlia.
    unfold busy. by rewrite H0, Hb.
  - intros g Hg.
    exact (refs_set_count (set_bitmap s _) f n g (shape_set_bitmap _ _ _ Hs Hv) Hf (proj1 Hg)).
Qed.

Lemma force_set_bit_spec s f : shape s → 0 ≤ f < total_frames s →
  wp (force_set_bit s f) (λ s', upd s s' f true 1).
Proof.
  intros Hs Hf. unfold force_set_bit.
  rewrite (proj2 (Z.leb_gt _ _)) by lia.
  destruct (byte_lookup s f Hs Hf) as (b & Hb & Hr).
  pose proof (shape_bitmap s Hs). pose proof (shape_refs s Hs).
  wp_step. apply (wp_vget _ _ _ _ Hb). wp_step. apply wp_vset; [zlia|]. wp_steps.
  apply (upd_intro s f b); auto; [|lia|].
  - apply lor_range; [lia|done|]. apply shiftl_one_range. zlia.
  - intros i Hi. rewrite mask_set by zlia. by case_match.
Qed.

Lemma force_free_bit_spec s f : shape s → 0 ≤ f < total_frames s →
  wp (force_free_bit s f) (λ s', upd s s' f false 0).
Proof.
  intros Hs Hf. unfold force_free_bit.
  rewrite (proj2 (Z.leb_gt _ _)) by lia.
  destruct (byte_lookup s f Hs Hf) as (b & Hb & Hr).
  pose proof (shape_bitmap s Hs). pose proof (shape_refs s Hs).
  wp_step. apply (wp_vget _ _ _ _ Hb). wp_step. apply wp_vset; [zlia|]. wp_steps.
  apply (upd_intro s f b); auto; [|lia|].
  - apply land_range; [lia|done].
  - intros i Hi. rewrite mask_clear by (lia || zlia). by case_match.
Qed.
End BitOps.

(** ** Single-frame allocation *)

(** The lowest free frame. *)
Definition lowest_free (s : BitmapFrameAllocator) : option Z :=
  first_from (λ f, negb (busy s f)) 0 (Z.to_nat (total_frames s)).

Section Allocate.
Context `{Profile}.
Implicit Types s : BitmapFrameAllocator.

Lemma WF_upd s s' f b n h :
  WF s → upd s s' f b n → b = (0 <? n) → 0 ≤ h ≤ total_frames s →
  (∀ g, 0 ≤ g < h → busy s' g = true) → WF (set_hint s' h).
Proof.
  intros Hwf [Hs' Ht _ Hb Hr] -> Hh Hbelow. split.
  - by apply shape_set_hint.
  - simpl. rewrite Ht. intros g Hg.
    change (busy s' g = (0 <? refs s' g)). rewrite Hb, Hr by done.
    case_decide; [done|by apply wf_sync].
  - simpl. lia.
  - simpl. intros g Hg. by apply Hbelow.
Qed.

(** The bits below the hint stay set when a bit is set. *)
Lemma below_upd s s' f n g : WF s → upd s s' f true n →
  0 ≤ g < last_free_frame_hint s → busy s' g = true.
Proof.
  intros Hwf Hu Hg. pose proof (wf_hint s Hwf). rewrite (upd_busy _ _ _ _ _ Hu) by lia.
  case_decide; [done|]. by apply wf_below.
Qed.

Lemma set_hint_id s : set_hint s (last_free_frame_hint s) = s.
Proof. by destruct s. Qed.

Lemma WF_set s s' f : WF s → upd s s' f true 1 → WF s'.
Proof.
  intros Hwf Hu. rewrite <- (set_hint_id s').
  apply (WF_upd s s' f true 1); auto; rewrite (upd_hint _ _ _ _ _ Hu).
  - by apply wf_hint.
  - intros g Hg. by apply (below_upd s s' f 1).
Qed.

Lemma try_frame_spec s i : shape s → 0 ≤ i < total_frames s →
  wp (try_frame i s) (λ r,
    if busy s i then r = Next s
    else ∃ s1, upd s s1 i true 1 ∧ r = Done (Some (i * FRAME_SIZE), set_hint s1 (i + 1))).
Proof.
  intros Hs Hi. unfold try_frame. rewrite test_bit_spec by (done || lia).
  rewrite (proj2 (Z.leb_gt _ _)) by lia. wp_step. wp_step.
  destruct (busy s i); cbn [negb]; [by wp_step|].
  wp_step. eapply wp_mono; [by apply force_set_bit_spec|cbv beta]. intros s1 Hu.
  pose proof (shape_total s Hs). unfold FRAME_SIZE.
  wp_steps. eauto.
Qed.

(** A scan over busy frames that stops at the first free one. *)
Lemma scan_spec s lo hi : shape s → 0 ≤ lo → hi ≤ total_frames s →
  wp (for_range lo hi try_frame s) (λ r,
    match r with
    | Next s' => s' = s ∧ ∀ j, lo ≤ j < hi → busy s j = true
    | Done x => ∃ i s1, lo ≤ i < hi ∧ busy s i = false ∧ (∀ j, lo ≤ j < i → busy s j = true)
                ∧ upd s s1 i true 1 ∧ x = (Some (i * FRAME_SIZE), set_hint s1 (i + 1))
    end).
Proof.
  intros Hs Hlo Hhi. eapply wp_mono.
  - apply (wp_for_range (λ i s', s' = s ∧ ∀ j, lo ≤ j < i → busy s j = true)
             (λ x, ∃ i s1, lo ≤ i < hi ∧ busy s i = false ∧ (∀ j, lo ≤ j < i → busy s j = true)
                ∧ upd s s1 i true 1 ∧ x = (Some (i * FRAME_SIZE), set_hint s1 (i + 1)))).
    { split; [done|]. intros; lia. }
    intros i st Hi [-> Hprev].
    eapply wp_mono; [apply try_frame_spec; [done|lia]|cbv beta].
    intros r Hr. destruct (busy s i) eqn:E.
    + subst r. split; [done|]. intros j Hj.
      destruct (decide (j = i)) as [->|]; [done|]. apply Hprev. lia.
    + destruct Hr as (s1 & Hu & ->). exists i, s1. auto.
  - intros [s'|x]; [|done]. intros [-> Hb]. split; [done|]. intros j Hj. apply Hb. lia.
Qed.

(** What [allocate_frame] does, on every branch. *)
Definition allocated s (r : option Z) (s' : BitmapFrameAllocator) : Prop :=
  match lowest_free s with
  | None => r = None ∧ s' = s
  | Some f => r = Some (f * FRAME_SIZE)
              ∧ ∃ s1, upd s s1 f true 1 ∧ s' = set_hint s1 (f + 1)
  end.

Lemma allocate_frame_allocated s : WF s →
  wp (allocate_frame s) (λ '(r, s'), WF s' ∧ allocated s r s').
Proof.
  intros Hwf. pose proof (wf_hint s Hwf). pose proof (wf_below s Hwf) as Hbelow.
  unfold allocate_frame. wp_step.
  eapply wp_mono; [apply scan_spec; [auto with nwin|lia|lia]|cbv beta].
  intros [s'|x].
  - intros [-> Hrest]. wp_step.
    eapply wp_mono; [apply scan_spec; [auto with nwin|lia|lia]|cbv beta].
    intros [s'|x].
    + intros [-> _]. wp_step. split; [done|]. unfold allocated, lowest_free.
      assert (first_from (λ f, negb (busy s f)) 0 (Z.to_nat (total_frames s)) = None) as ->;
        [|done].
      apply first_from_None. intros j Hj. apply negb_false_iff.
      destruct (decide (j < last_free_frame_hint s)); [apply Hbelow; lia|apply Hrest; lia].
    + intros (i & s1 & Hi & Hfree & _). rewrite Hbelow in Hfree by lia. done.
  - intros (i & s1 & Hi & Hfree & Hprev & Hu & ->). wp_step.
    assert (lowest_free s = Some i) as Hlow.
    { apply first_from_Some. split; [lia|]. split; [by rewrite Hfree|].
      intros j Hj. apply negb_false_iff.
      destruct (decide (j < last_free_frame_hint s)); [apply Hbelow; lia|apply Hprev; lia]. }
    split; [|unfold allocated; rewrite Hlow; eauto].
    apply (WF_upd s s1 i true 1); auto; [lia|]. intros g Hg.
    rewrite (upd_busy _ _ _ _ _ Hu) by lia. case_decide; [done|].
    destruct (decide (g < last_free_frame_hint s)); [apply Hbelow; lia|apply Hprev; lia].
Qed.
End Allocate.

(** ** Reference counting *)

Section RefCounting.
Context `{Profile}.
Implicit Types s : BitmapFrameAllocator.

Lemma upd_count s f n : shape s → 0 ≤ f < total_frames s → 0 ≤ n < 2 ^ 16 →
  upd s (set_ref_counts s (<[Z.to_nat f := n]> (ref_counts s))) f (busy s f) n.
Proof.
  intros Hs Hf Hn. split; try done.
  - by apply shape_set_ref_counts.
  - intros g Hg. rewrite busy_set_ref_counts. case_decide; by subst.
  - intros g Hg. apply refs_set_count; [done|done|lia].
Qed.

(** What [deallocate_frame] does to a well-formed allocator. *)
Definition deallocated s (f : Z) (s' : BitmapFrameAllocator) : Prop :=
  if refs s f =? 1
  then ∃ s1, upd s s1 f false 0
             ∧ s' = set_hint s1 (Z.min f (last_free_frame_hint s))
  else upd s s' f true (refs s f - 1).

Lemma deallocate_frame_deallocated s a : WF s → 0 ≤ a →
  a / FRAME_SIZE < total_frames s → 0 < refs s (a / FRAME_SIZE) →
  wp (deallocate_frame s a) (λ s', WF s' ∧ deallocated s (a / FRAME_SIZE) s').
Proof.
  intros Hwf Ha Hlt Hpos. pose proof (wf_shape s Hwf) as Hs.
  unfold deallocate_frame. set (f := a / FRAME_SIZE) in *.
  assert (0 ≤ f < total_frames s) as Hf by (unfold f, FRAME_SIZE in *; zlia).
  pose proof (wf_hint s Hwf) as Hh.
  rewrite (proj2 (Z.ltb_lt _ _)) by lia. cbn [negb].
  destruct (count_lookup s f Hs Hf) as [Hn Hr]. wp_steps.
  rewrite (proj2 (Z.ltb_lt _ _)) by lia. wp_step. wp_step. wp_step.
  pose proof (shape_refs s Hs). wp_step. wp_step.
  set (s1 := set_ref_counts s _).
  assert (upd s s1 f (busy s f) (refs s f - 1)) as Hu by (apply upd_count; auto; lia).
  pose proof (upd_shape _ _ _ _ _ Hu) as Hs1.
  assert (refs s1 f = refs s f - 1) as Hr1.
  { rewrite (upd_refs _ _ _ _ _ Hu) by lia. by rewrite decide_True. }
  destruct (count_lookup s1 f Hs1 Hf) as [Hn1 _]. wp_step.
  rewrite Hr1. unfold deallocated. rewrite (wf_sync s Hwf) in Hu by lia.
  rewrite (proj2 (Z.ltb_lt _ _)) in Hu by lia.
  destruct (Z.eqb_spec (refs s f - 1) 0), (Z.eqb_spec (refs s f) 1); try lia.
  - destruct (byte_lookup s f Hs Hf) as (b & Hb & Hbr). pose proof (shape_bitmap s Hs).
    wp_step. apply (wp_vget _ _ _ _ Hb). wp_step. apply wp_vset; [simpl; zlia|]. wp_step.
    set (s2 := set_bitmap s1 _). change (last_free_frame_hint s2) with (last_free_frame_hint s).
    assert (upd s s2 f false 0) as Hu2.
    { replace 0 with (refs s f - 1) by lia. apply (upd_intro s f b); auto; [|lia|].
      - apply land_range; [lia|done].
      - intros i Hi. rewrite mask_clear by (lia || zlia). by case_match. }
    assert ((if f <? last_free_frame_hint s then set_hint s2 f else s2)
            = set_hint s2 (Z.min f (last_free_frame_hint s))) as ->.
    { destruct (Z.ltb_spec f (last_free_frame_hint s)); [by rewrite Z.min_l by lia|].
      by rewrite Z.min_r by lia. }
    split; [|by eauto].
    apply (WF_upd s s2 f false 0); auto; [lia|]. intros g Hg.
    rewrite (upd_busy _ _ _ _ _ Hu2) by lia. rewrite decide_False by lia.
    apply (wf_below s Hwf). lia.
  - wp_step. split; [|done].
    rewrite <- (set_hint_id s1). apply (WF_upd s s1 f true (refs s f - 1)); auto.
    { symmetry. apply Z.ltb_lt. lia. }
    intros g Hg. by apply (below_upd s s1 f (refs s f - 1)).
Qed.

(** The two panics of [deallocate_frame]. *)
Lemma deallocate_frame_panics s a : WF s → 0 ≤ a →
  total_frames s ≤ a / FRAME_SIZE ∨ refs s (a / FRAME_SIZE) = 0 →
  deallocate_frame s a = Stop Panic.
Proof.
  intros Hwf Ha Hor. unfold deallocate_frame. set (f := a / FRAME_SIZE) in *.
  assert (0 ≤ f) by (unfold f, FRAME_SIZE; zlia).
  destruct (Z.ltb_spec f (total_frames s)) as [Hlt|]; [|done]. cbn [negb].
  destruct Hor as [?|Hz]; [lia|].
  destruct (count_lookup s f (wf_shape s Hwf) ltac:(lia)) as [Hn _].
  unfold vget. rewrite Hn. cbn [obind]. by rewrite Hz.
Qed.

Lemma reference_frame_spec s a : WF s → 0 ≤ a →
  a / FRAME_SIZE < total_frames s → 0 < refs s (a / FRAME_SIZE) < 2 ^ 16 - 1 →
  wp (reference_frame s a) (λ s',
    WF s' ∧ upd s s' (a / FRAME_SIZE) true (refs s (a / FRAME_SIZE) + 1)).
Proof.
  intros Hwf Ha Hlt Hpos. pose proof (wf_shape s Hwf) as Hs.
  unfold reference_frame. set (f := a / FRAME_SIZE) in *.
  assert (0 ≤ f < total_frames s) as Hf by (unfold f, FRAME_SIZE in *; zlia).
  rewrite (proj2 (Z.ltb_lt _ _)) by lia. cbn [negb].
  destruct (count_lookup s f Hs Hf) as [Hn Hr]. pose proof (shape_refs s Hs). wp_steps.
  rewrite (proj2 (Z.ltb_lt _ _)) by lia. cbn [negb]. wp_steps.
  assert (upd s (set_ref_counts s (<[Z.to_nat f := refs s f + 1]> (ref_counts s)))
            f true (refs s f + 1)) as Hu.
  { replace true with (busy s f); [apply upd_count; auto; lia|].
    rewrite (wf_sync s Hwf) by lia. apply Z.ltb_lt. lia. }
  split; [|done]. rewrite <- (set_hint_id (set_ref_counts s _)).
  apply (WF_upd s _ f true (refs s f + 1)); auto.
  - symmetry. apply Z.ltb_lt. lia.
  - by apply (wf_hint s).
  - intros g Hg. by apply (below_upd s _ f (refs s f + 1)).
Qed.

Lemma reference_frame_panics s a : WF s → 0 ≤ a →
  total_frames s ≤ a / FRAME_SIZE ∨ refs s (a / FRAME_SIZE) = 0 →
  reference_frame s a = Stop Panic.
Proof.
  intros Hwf Ha Hor. unfold reference_frame. set (f := a / FRAME_SIZE) in *.
  assert (0 ≤ f) by (unfold f, FRAME_SIZE; zlia).
  destruct (Z.ltb_spec f (total_frames s)) as [Hlt|]; [|done]. cbn [negb].
  destruct Hor as [?|Hz]; [lia|].
  destruct (count_lookup s f (wf_shape s Hwf) ltac:(lia)) as [Hn _].
  unfold vget. rewrite Hn. cbn [obind]. by rewrite Hz.
Qed.

(** The saturated counter: with overflow checks the call panics, without
    them the counter wraps to 0. *)
Lemma reference_frame_saturated s a : WF s → 0 ≤ a →
  a / FRAME_SIZE < total_frames s → refs s (a / FRAME_SIZE) = 2 ^ 16 - 1 →
  if overflow_checks then reference_frame s a = Stop Panic
  else ∃ s', reference_frame s a = Ret s' ∧ upd s s' (a / FRAME_SIZE) true 0.
Proof.
  intros Hwf Ha Hlt Hmax. pose proof (wf_shape s Hwf) as Hs.
  unfold reference_frame. set (f := a / FRAME_SIZE) in *.
  assert (0 ≤ f < total_frames s) as Hf by (unfold f, FRAME_SIZE in *; zlia).
  rewrite (proj2 (Z.ltb_lt _ _)) by lia. cbn [negb].
  destruct (count_lookup s f Hs Hf) as [Hn Hr]. pose proof (shape_refs s Hs).
  unfold vget. rewrite Hn. cbn [obind]. rewrite Hmax in *. cbn [Z.ltb negb].
  unfold uadd. rewrite checked_overflow by lia.
  destruct overflow_checks; [done|]. cbn [obind].
  change (wrap 16 _) with 0. unfold vset. rewrite Hn. cbn [obind].
  eexists. split; [done|]. replace true with (busy s f); [apply upd_count; auto; lia|].
  rewrite (wf_sync s Hwf), Hmax by lia. done.
Qed.
End RefCounting.

(** ** Contiguous allocation *)

(** Reference definition: [count] free frames start at [i], and the first such
    [i]. *)
Definition run_free (s : BitmapFrameAllocator) (i count : Z) : Prop :=
  ∀ j, i ≤ j < i + count → j < total_frames s ∧ busy s j = false.

Definition run_freeb (s : BitmapFrameAllocator) (i count : Z) : bool :=
  match first_from (λ j, (total_frames s <=? j) || busy s j) i (Z.to_nat count) with
  | None => true
  | Some _ => false
  end.

Definition first_fit (s : BitmapFrameAllocator) (count : Z) : option Z :=
  first_from (λ i, run_freeb s i count) 0 (Z.to_nat (total_frames s)).

(** [s'] is [s] with the frames of [lo, hi) busy with one reference each. *)
Record upd_range (s s' : BitmapFrameAllocator) (lo hi : Z) : Prop := {
  updr_shape : shape s';
  updr_total : total_frames s' = total_frames s;
  updr_hint : last_free_frame_hint s' = last_free_frame_hint s;
  updr_busy : ∀ g, 0 ≤ g < total_frames s →
    busy s' g = if decide (lo ≤ g < hi) then true else busy s g;
  updr_refs : ∀ g, 0 ≤ g < total_frames s →
    refs s' g = if decide (lo ≤ g < hi) then 1 else refs s g;
}.

Section Contiguous.
Context `{Profile}.
Implicit Types s : BitmapFrameAllocator.

Lemma run_freeb_spec s i count : 0 ≤ count →
  run_freeb s i count = true ↔ run_free s i count.
Proof.
  intros Hc. unfold run_freeb, run_free.
  destruct (first_from _ _ _) as [k|] eqn:E.
  - split; [done|]. intros Hrun.
    apply first_from_Some in E as (Hk & Hp & _).
    destruct (Hrun k ltac:(lia)) as [? Hb]. rewrite Hb, orb_false_r in Hp.
    apply Z.leb_le in Hp. lia.
  - split; [|done]. intros _ j Hj.
    apply (proj1 (first_from_None _ _ _)) with (j := j) in E; [|lia].
    apply orb_false_iff in E as [?%Z.leb_gt ?]. done.
Qed.

Lemma free_run_spec s i count :
  shape s → 0 ≤ i ≤ total_frames s → 0 ≤ count < 2 ^ 64 →
  wp (free_run s i count) (λ n,
    0 ≤ n ≤ count ∧ run_free s i n
    ∧ (n < count → total_frames s ≤ i + n ∨ busy s (i + n) = true)).
Proof.
  intros Hs Hi Hc. pose proof (shape_total s Hs). unfold free_run. wp_step.
  eapply wp_mono.
  - apply (wp_for_range (λ j n, n = j ∧ run_free s i j ∧ i + j ≤ total_frames s)
      (λ n, 0 ≤ n < count ∧ run_free s i n ∧ (total_frames s ≤ i + n ∨ busy s (i + n) = true))).
    { split; [done|]. split; [intros ?; lia|lia]. }
    intros j n Hj (-> & Hrun & Hle). unfold run_step. wp_step. wp_step. wp_step.
    rewrite test_bit_spec by (done || lia). wp_step.
    destruct (Z.leb_spec (total_frames s) (i + j)); [wp_step; split; [lia|auto]|].
    destruct (busy s (i + j)) eqn:E; [wp_step; split; [lia|auto]|].
    wp_step. wp_step. wp_step. split; [done|]. split; [|lia].
    intros k Hk. destruct (decide (k = i + j)) as [->|]; [done|]. apply Hrun. lia.
  - intros [n|n]; intros Hr; wp_step.
    + destruct Hr as (-> & Hrun & _). rewrite Z.max_r in * by lia.
      split; [lia|]. split; [done|lia].
    + destruct Hr as (? & ? & ?). auto with lia.
Qed.

Lemma set_run_spec s lo hi :
  shape s → 0 ≤ lo → lo ≤ hi ≤ total_frames s →
  wp (each_range lo hi (λ j s, force_set_bit s j) s) (λ s', upd_range s s' lo hi).
Proof.
  intros Hs Hlo Hhi. eapply wp_mono.
  - apply (wp_each_range (λ i s', upd_range s s' lo i)).
    { split; auto; intros g Hg; by rewrite decide_False by lia. }
    intros j st Hj [Hst Ht Hh Hb Hr].
    eapply wp_mono; [apply force_set_bit_spec; [done|lia]|cbv beta].
    intros s' [Hs' Ht' Hh' Hb' Hr']. split; [done|congruence|congruence|..].
    + intros g Hg. rewrite Hb', Hb by lia. repeat case_decide; try done; lia.
    + intros g Hg. rewrite Hr', Hr by lia. repeat case_decide; try done; lia.
  - intros s'. by rewrite Z.max_r by lia.
Qed.

Lemma WF_upd_range s s' lo hi : WF s → upd_range s s' lo hi → WF s'.
Proof.
  intros [Hs Hsync Hh Hbelow] [Hs' Ht Hh' Hb Hr]. split; [done|..].
  - rewrite Ht. intros f Hf. rewrite Hb, Hr by done. case_decide; [done|by apply Hsync].
  - rewrite Ht, Hh'. done.
  - rewrite Hh'. intros f Hf. rewrite Hb by lia. case_decide; [done|by apply Hbelow].
Qed.

(** What [allocate_contiguous_frames] does, on every branch. *)
Definition contiguous s (count : Z) (r : option Z) (s' : BitmapFrameAllocator) : Prop :=
  match first_fit s count with
  | None => r = None ∧ s' = s
  | Some i => r = Some (i * FRAME_SIZE) ∧ upd_range s s' i (i + count)
  end.

Lemma run_free_bound s i count : 0 < count → run_free s i count → i + count ≤ total_frames s.
Proof. intros Hc Hrun. destruct (Hrun (i + count - 1) ltac:(lia)). lia. Qed.

Lemma no_fit s count : 0 < count →
  (∀ k, 0 ≤ k → ¬ run_free s k count) → first_fit s count = None.
Proof.
  intros Hc Hno. apply first_from_None. intros j Hj.
  apply not_true_is_false. rewrite run_freeb_spec by lia. apply Hno. lia.
Qed.

Lemma fit_at s count i : 0 < count → 0 ≤ i → run_free s i count →
  (∀ k, 0 ≤ k < i → ¬ run_free s k count) → first_fit s count = Some i.
Proof.
  intros Hc Hi Hrun Hno. pose proof (run_free_bound s i count Hc Hrun).
  apply first_from_Some. split; [lia|]. split; [by apply run_freeb_spec; [lia|]|].
  intros j Hj. apply not_true_is_false. rewrite run_freeb_spec by lia. by apply Hno.
Qed.

(** One round of the search: it ends with the answer, or skips candidates
    none of which fits. *)
Lemma contiguous_step_spec s count i :
  WF s → 0 < count < 2 ^ 64 → 0 ≤ i ≤ total_frames s + 1 →
  (∀ k, 0 ≤ k < i → ¬ run_free s k count) →
  wp (contiguous_step count (i, s)) (λ r,
    match r with
    | Next (i', s') => s' = s ∧ i < i' ≤ total_frames s + 1 ∧ i ≤ total_frames s
                       ∧ ∀ k, 0 ≤ k < i' → ¬ run_free s k count
    | Done (x, s') => WF s' ∧ contiguous s count x s'
    end).
Proof.
  intros Hwf Hc Hi Hno. pose proof (wf_shape s Hwf) as Hs. pose proof (shape_total s Hs).
  unfold contiguous_step, sat_sub.
  destruct (Z.leb_spec i (Z.max 0 (total_frames s - count))); cbn [negb].
  - wp_step. eapply wp_mono; [apply free_run_spec; [done|lia|lia]|cbv beta].
    intros n (Hn & Hrun & Hstop). destruct (Z.eqb_spec n count) as [->|Hne].
    + pose proof (run_free_bound s i count ltac:(lia) Hrun). wp_step. wp_step. wp_step.
      eapply wp_mono; [apply set_run_spec; [done|lia|lia]|cbv beta]. intros s' Hu.
      unfold FRAME_SIZE. wp_steps. split; [by eapply WF_upd_range|].
      unfold contiguous. rewrite (fit_at s count i) by (done || lia). done.
    + assert (i + n ≤ total_frames s).
      { destruct (decide (n = 0)); [lia|]. apply run_free_bound; [lia|done]. }
      wp_steps. split; [done|]. split; [lia|]. split; [lia|]. intros k Hk.
      destruct (decide (k < i)); [by apply Hno; lia|]. intros Hrun'.
      destruct (Hrun' (i + n) ltac:(lia)) as [? Hb].
      destruct (Hstop ltac:(lia)) as [?|Hbusy]; [lia|congruence].
  - wp_step. split; [done|]. unfold contiguous. rewrite no_fit; [done|lia|].
    intros k Hk Hrun. pose proof (run_free_bound s k count ltac:(lia) Hrun).
    apply (Hno k); [lia|done].
Qed.

Lemma allocate_contiguous_frames_contiguous s count : WF s → 0 < count < 2 ^ 64 →
  wp (allocate_contiguous_frames s count) (λ '(r, s'), WF s' ∧ contiguous s count r s').
Proof.
  intros Hwf Hc. unfold allocate_contiguous_frames.
  rewrite (proj2 (Z.eqb_neq _ _)) by lia.
  pose proof (shape_total s (wf_shape s Hwf)).
  apply (wp_loop (λ '(i, s'), s' = s ∧ 0 ≤ i ≤ total_frames s + 1
                             ∧ ∀ k, 0 ≤ k < i → ¬ run_free s k count)
           (λ '(i, _), Z.to_nat (total_frames s + 1 - i))).
  - intros [i s'] (-> & Hi & Hno).
    eapply wp_mono; [by apply contiguous_step_spec|cbv beta].
    intros [[i' s']|[x s']]; [|done]. intros (-> & Hi' & Hle & Hno').
    split; [split; [done|split; [lia|done]]|lia].
  - split; [done|]. split; [lia|]. intros k Hk; lia.
  - lia.
Qed.
End Contiguous.

(** ** Initialisation *)

(** The quantities [init] computes, as pure functions of the memory map. *)
Definition max_addr_of (entries : list memmap_entry) : Z :=
  foldl (λ m e, if is_touchable e then Z.max m (base e + entry_length e) else m) 0 entries.
Definition total_of (entries : list memmap_entry) : Z :=
  (max_addr_of entries + FRAME_SIZE - 1) / FRAME_SIZE.
Definition metadata_size (total : Z) : Z :=
  Z.land ((total + 7) / 8 + 7) (unot 64 7) + total * 2.

(** The metadata fits in region [e]. *)
Definition hosts_metadata (total : Z) (e : memmap_entry) : bool :=
  is_usable e && (metadata_size total <=? entry_length e).

(** Frame [f] lies entirely inside region [e]. *)
Definition covers (e : memmap_entry) (f : Z) : bool :=
  (base e <=? f * FRAME_SIZE) && ((f + 1) * FRAME_SIZE <=? base e + entry_length e).
Definition usable_frame (entries : list memmap_entry) (f : Z) : bool :=
  existsb (λ e, is_usable e && covers e f) entries.

(** Region descriptions as a bootloader produces them. *)
Definition entry_ok (e : memmap_entry) : Prop :=
  0 ≤ base e ∧ 0 ≤ entry_length e ∧ base e + entry_length e < 2 ^ 64 - FRAME_SIZE.

Section InitProofs.
Context `{Profile}.
Implicit Types (s : BitmapFrameAllocator) (entries : list memmap_entry).

Lemma max_top_spec entries : Forall entry_ok entries →
  max_top entries = Ret (max_addr_of entries)
  ∧ 0 ≤ max_addr_of entries < 2 ^ 64 - FRAME_SIZE.
Proof.
  intros Hok. unfold max_top, max_addr_of.
  assert (0 ≤ 0 < 2 ^ 64 - FRAME_SIZE) as H0 by (unfold FRAME_SIZE; lia).
  revert H0. assert (∀ m z : Z, z = m → 0 ≤ m < 2 ^ 64 - FRAME_SIZE →
    mfold (λ (max_addr : Z) (e : memmap_entry),
      if is_touchable e then
        top <- uadd 64 (base e) (entry_length e);; Ret (if max_addr <? top then top else max_addr)
      else Ret max_addr) z entries
    = Ret (foldl (λ m e, if is_touchable e then Z.max m (base e + entry_length e) else m) m entries)
    ∧ 0 ≤ foldl (λ m e, if is_touchable e then Z.max m (base e + entry_length e) else m) m entries
      < 2 ^ 64 - FRAME_SIZE) as Hgen; [|by apply Hgen].
  induction Hok as [|e l He _ IH]; intros m ? -> Hm; cbn [mfold foldl]; [done|].
  destruct (is_touchable e); [|by apply IH].
  destruct He as (? & ? & ?). unfold uadd. rewrite checked_ok by (unfold FRAME_SIZE in *; lia).
  apply IH; [|lia]. destruct (Z.ltb_spec m (base e + entry_length e)); lia.
Qed.

Lemma max_addr_ge entries e : e ∈ entries → is_touchable e = true →
  base e + entry_length e ≤ max_addr_of entries.
Proof.
  unfold max_addr_of. generalize 0 as m.
  assert (∀ l m, m ≤ foldl (λ m e, if is_touchable e
            then Z.max m (base e + entry_length e) else m) m l) as Hmono.
  { induction l as [|x l IH]; intros m; simpl; [lia|].
    etrans; [|apply IH]. case_match; lia. }
  induction entries as [|x l IH]; intros m Hin Ht; [by apply not_elem_of_nil in Hin|].
  apply elem_of_cons in Hin as [->|Hin]; simpl; [|by apply IH].
  rewrite Ht. etrans; [|apply Hmono]. lia.
Qed.

Lemma usable_touchable e : is_usable e = true → is_touchable e = true.
Proof. unfold is_usable, is_touchable. by intros ->. Qed.

(** The state after the regions [d] were freed: a frame is free when one of
    them covers it, and has its boot-time mark (busy, one reference)
    otherwise. *)
Definition freed (total : Z) (d : list memmap_entry) s : Prop :=
  shape s ∧ total_frames s = total ∧ last_free_frame_hint s = 0
  ∧ ∀ g, 0 ≤ g < total →
      busy s g = negb (usable_frame d g) ∧ refs s g = if usable_frame d g then 0 else 1.

Lemma free_region_spec total d e s :
  freed total d s → entry_ok e → (is_usable e = true → base e + entry_length e ≤ total * FRAME_SIZE) →
  wp (free_region s e) (freed total (d ++ [e])).
Proof.
  intros Hfr (? & ? & ?) Htop. unfold free_region.
  assert (∀ g, usable_frame (d ++ [e]) g = usable_frame d g || (is_usable e && covers e g)) as Hu.
  { intros g. unfold usable_frame. rewrite existsb_app. simpl. by rewrite orb_false_r. }
  destruct (is_usable e) eqn:E.
  2: { wp_step. destruct Hfr as (? & ? & ? & Hg). split_and!; auto.
       intros g Hg0. rewrite Hu, orb_false_r. by apply Hg. }
  specialize (Htop eq_refl). unfold FRAME_SIZE in *. wp_step. wp_step. wp_step. wp_step.
  wp_step. wp_step.
  eapply wp_mono.
  - apply (wp_each_range (λ i s', shape s' ∧ total_frames s' = total ∧ last_free_frame_hint s' = 0
      ∧ ∀ g, 0 ≤ g < total →
        let fr := usable_frame d g || ((base e <=? g * 4096) && (g <? i)) in
        busy s' g = negb fr ∧ refs s' g = if fr then 0 else 1)).
    { destruct Hfr as (? & ? & ? & Hg). split_and!; auto. intros g Hg0.
      destruct (Z.leb_spec (base e) (g * 4096)), (Z.ltb_spec g ((base e + 4096 - 1) / 4096));
        try zlia; simpl; rewrite orb_false_r; by apply Hg. }
    intros j st Hj (Hs & Ht & Hh & Hg).
    eapply wp_mono; [apply force_free_bit_spec; [done|zlia]|cbv beta].
    intros s' [Hs' Ht' Hh' Hb' Hr'].
    split; [done|]. split; [congruence|]. split; [congruence|]. intros g Hg0.
    rewrite Hb', Hr' by lia. destruct (Hg g Hg0) as [-> ->].
    destruct (Z.leb_spec (base e) (g * 4096)), (Z.ltb_spec g j), (Z.ltb_spec g (j + 1)),
      (decide (g = j)); try zlia; simpl; by rewrite ?orb_true_r, ?orb_false_r.
  - intros s' (Hs & Ht & Hh & Hg). split_and!; auto. intros g Hg0.
    destruct (Hg g Hg0) as [Hb Hr].
    assert ((base e <=? g * 4096) && (g <? (base e + entry_length e) / 4096) = covers e g) as Hcv
      by (unfold covers, FRAME_SIZE;
          destruct (Z.leb_spec (base e) (g * 4096)), (Z.ltb_spec g ((base e + entry_length e) / 4096)),
            (Z.leb_spec ((g + 1) * 4096) (base e + entry_length e)); simpl; try done; zlia).
    rewrite Hu, Hb, Hr; simpl; rewrite <- Hcv.
    replace ((base e <=? g * 4096) && (g <? Z.max ((base e + 4096 - 1) / 4096) ((base e + entry_length e) / 4096)))
      with ((base e <=? g * 4096) && (g <? (base e + entry_length e) / 4096)); [done|].
    destruct (Z.leb_spec (base e) (g * 4096)); [|done].
    destruct (Z.ltb_spec g ((base e + entry_length e) / 4096)),
      (Z.ltb_spec g (Z.max ((base e + 4096 - 1) / 4096) ((base e + entry_length e) / 4096)));
      simpl; try done; zlia.
Qed.
End InitProofs.

(** The frames reserved for the allocator's own arrays. *)
Definition metadata_frame (total : Z) (region : memmap_entry) (f : Z) : bool :=
  (base region / FRAME_SIZE <=? f)
  && (f <? base region / FRAME_SIZE + (metadata_size total + FRAME_SIZE - 1) / FRAME_SIZE).

Section InitTheorem.
Context `{Profile}.
Implicit Types (s : BitmapFrameAllocator) (entries : list memmap_entry).

Lemma metadata_size_range total : 0 ≤ total ≤ 2 ^ 52 →
  2 * total ≤ metadata_size total ≤ 2 * total + (total + 7) / 8 + 7.
Proof.
  intros Ht. unfold metadata_size. change (unot 64 7) with (unot 64 (Z.ones 3)).
  rewrite land_unot_ones by zlia. change (2 ^ 3) with 8. zlia.
Qed.

(** The arrays as [init] fills them: every frame busy, one reference. *)
Lemma filled_freed total : 0 ≤ total ≤ 2 ^ 52 →
  freed total [] (mkAlloc (replicate (Z.to_nat ((total + 7) / 8)) 255)
                    (replicate (Z.to_nat total) 1) total 0).
Proof.
  intros Ht. split_and!; [|done|done|].
  - split; simpl; rewrite ?length_replicate; try lia; try zlia.
    + apply Forall_replicate. lia.
    + apply Forall_replicate. lia.
  - intros g Hg. unfold busy, refs. simpl. rewrite !lookup_replicate_2 by zlia. simpl.
    split; [|done].
    pose proof (Z.mod_pos_bound g 8 ltac:(lia)) as Hm. revert Hm.
    generalize (g mod 8) as k. intros k Hk.
    change 255 with (Z.ones 8). apply Z.ones_spec_low. lia.
Qed.

(** The final marks of [init]: the metadata run and frame 0. *)
Lemma mark_spec total entries s lo hi :
  freed total entries s → 0 ≤ lo → lo ≤ hi ≤ total →
  wp (s <- each_range lo hi (λ i s, force_set_bit s i) s;; force_set_bit s 0) (λ s',
    WF s' ∧ total_frames s' = total
    ∧ ∀ f, 0 ≤ f < total →
        busy s' f = negb (usable_frame entries f && negb ((lo <=? f) && (f <? hi)) && negb (f =? 0))).
Proof.
  intros (Hs & Ht & Hh & Hg) Hlo Hhi. wp_step.
  eapply wp_mono; [apply set_run_spec; [done|lia|lia]|cbv beta].
  intros s1 [Hs1 Ht1 Hh1 Hb1 Hr1]. rewrite Ht in *.
  destruct (decide (total = 0)) as [->|Hpos].
  { unfold force_set_bit. rewrite Ht1. cbn [Z.leb Z.compare]. wp_step.
    split_and!; auto; [split; auto; intros; lia|intros; lia]. }
  eapply wp_mono; [apply force_set_bit_spec; [done|lia]|cbv beta].
  intros s2 [Hs2 Ht2 Hh2 Hb2 Hr2]. rewrite Ht1 in *.
  split; [|split; [done|]].
  - split; [done|..]; rewrite ?Ht2, ?Hh2, ?Hh1, ?Hh; try (intros; lia).
    intros f Hf. rewrite Hb2, Hb1, Hr2, Hr1 by done. destruct (Hg f Hf) as [-> ->].
    repeat case_decide; try done. by case_match.
  - intros f Hf. rewrite Hb2, Hb1 by done. destruct (Hg f Hf) as [-> _].
    destruct (Z.leb_spec lo f), (Z.ltb_spec f hi), (Z.eqb_spec f 0);
      repeat case_decide; simpl; try lia; by rewrite ?andb_false_r, ?andb_true_r.
Qed.

Lemma init_spec entries region hhdm :
  Forall entry_ok entries →
  find (hosts_metadata (total_of entries)) entries = Some region →
  0 ≤ hhdm → hhdm + base region < 2 ^ 64 →
  wp (init empty (Some entries) (Some hhdm)) (λ s,
    WF s ∧ total_frames s = total_of entries
    ∧ (∀ f, 0 ≤ f < total_of entries →
         busy s f = false ↔
         usable_frame entries f = true ∧ metadata_frame (total_of entries) region f = false ∧ f ≠ 0)
    ∧ (base region mod FRAME_SIZE = 0 → ∀ a,
         base region ≤ a < base region + metadata_size (total_of entries) →
         busy s (a / FRAME_SIZE) = true)).
Proof.
  intros Hok Hfind Hh0 Hh1.
  destruct (max_top_spec entries Hok) as [Hmax Hrange].
  apply find_some in Hfind as Hreg. destruct Hreg as [Hin Hhost].
  apply list_elem_of_In in Hin. apply andb_true_iff in Hhost as [Hus Hsz%Z.leb_le].
  pose proof (proj1 (Forall_forall _ _) Hok region Hin) as (Hb0 & Hl0 & Htop).
  pose proof (max_addr_ge entries region Hin (usable_touchable _ Hus)) as Hge.
  unfold init. rewrite Hmax. wp_step. wp_step.
  assert (total_of entries = (max_addr_of entries + 4096 - 1) / 4096) as Htot by done.
  set (total := total_of entries) in *. unfold FRAME_SIZE in *.
  assert (0 ≤ total ≤ 2 ^ 52) as Ht by zlia.
  pose proof (metadata_size_range total Ht) as Hms.
  wp_step. wp_step. wp_step. wp_step. rewrite <- Htot.
  wp_step. wp_step. wp_step. apply wp_checked; [zlia|].
  wp_step. wp_step. wp_step. apply wp_checked.
  { change (0 ≤ metadata_size total < 2 ^ 64). zlia. }
  change (Z.land _ _ + total * 2) with (metadata_size total).
  change (λ e, is_usable e && (metadata_size total <=? entry_length e))
    with (hosts_metadata total). rewrite Hfind.
  wp_step. wp_step. wp_step.
  eapply wp_mono.
  { apply (wp_mfold (freed total) free_region entries []).
    - by apply filled_freed.
    - intros d e st Hst He. apply free_region_spec; [done| |].
      + by apply (proj1 (Forall_forall _ _) Hok).
      + intros Hue. pose proof (max_addr_ge entries e He (usable_touchable _ Hue)).
        unfold FRAME_SIZE. zlia. }
  intros s Hs. cbn [app] in Hs.
  wp_step. wp_step. wp_step. apply wp_checked; [zlia|].
  wp_step. apply wp_checked; [zlia|].
  eapply wp_mono; [apply (mark_spec total entries); [done|zlia|zlia]|cbv beta].
  intros s' (Hwf & Ht' & Hbusy). split_and!; [done|done|..].
  - intros f Hf. rewrite Hbusy by done.
    change ((base region / 4096 <=? f)
            && (f <? base region / 4096 + (metadata_size total + 4096 - 1) / 4096))
      with (metadata_frame total region f).
    destruct (usable_frame entries f), (metadata_frame total region f), (Z.eqb_spec f 0); simpl;
      (split; [intros ?; split_and!|intros (? & ? & ?)]); done.
  - intros Hal a Ha. rewrite Hbusy by zlia.
    rewrite (proj2 (Z.leb_le _ _)), (proj2 (Z.ltb_lt _ _)) by zlia.
    simpl. by rewrite andb_false_r.
Qed.

(** Booting the allocator.  For a memory map whose regions stay below
    [2^64 - 4096], with a region large enough for the metadata, [init]
    returns a well-formed allocator in which a frame is free exactly when it
    lies entirely inside a usable region and is neither frame 0 nor one of
    the frames reserved for the bitmap and the counters; and when that region
    is page-aligned no byte of the metadata lies in a free frame. *)
Theorem init_frames entries region hhdm :
  Forall entry_ok entries →
  find (hosts_metadata (total_of entries)) entries = Some region →
  0 ≤ hhdm → hhdm + base region < 2 ^ 64 →
  wp (init empty (Some entries) (Some hhdm)) (λ s,
    WF s ∧ total_frames s = total_of entries
    ∧ (∀ f, 0 ≤ f < total_of entries →
         busy s f = false ↔
         usable_frame entries f = true ∧ metadata_frame (total_of entries) region f = false ∧ f ≠ 0)
    ∧ (base region mod FRAME_SIZE = 0 → ∀ a,
         base region ≤ a < base region + metadata_size (total_of entries) →
         busy s (a / FRAME_SIZE) = true)).
Proof. apply init_spec. Qed.
End InitTheorem.

Lemma init_frames_witness :
  let _ : Profile := true in
  let usable := mkEntry 4096 (8 * 4096) MEMMAP_USABLE in
  let entries := [mkEntry 0 4096 MEMMAP_OTHER; usable; mkEntry 36864 4096 MEMMAP_FRAMEBUFFER] in
  wp (init empty (Some entries) (Some 0)) (λ s,
    total_frames s = 10 ∧ busy s 2 = false ∧ busy s 1 = true).
Proof.
  intros P usable entries.
  eapply wp_mono;
    [apply (init_frames entries usable 0);
      [repeat constructor; vm_compute; congruence|vm_compute; reflexivity|lia|vm_compute; reflexivity]|].
  intros s (_ & Ht & Hb & Hm). split; [exact Ht|]. split.
  - apply (proj2 (Hb 2 ltac:(vm_compute; split; congruence))).
    split; [vm_compute; reflexivity|]. split; [vm_compute; reflexivity|lia].
  - apply (Hm eq_refl 4096). vm_compute. split; congruence.
Defined.

(** ** Abstract specification

    What the allocator promises: a map from owned frames to their reference
    counts.  Allocation hands out the lowest unowned frame (or run of frames)
    with one reference, a deallocation drops one reference and forgets the
    frame with the last one. *)
Module Spec.
Record frames := mkFrames { limit : Z; owned : gmap Z Z }.

Definition unowned (a : frames) (f : Z) : bool :=
  match owned a !! f with None => true | Some _ => false end.

Definition give (a : frames) (lo : Z) (n : nat) : frames :=
  mkFrames (limit a) (foldr (λ j m, <[lo + Z.of_nat j := 1]> m) (owned a) (seq 0 n)).

Definition fits_run (a : frames) (count i : Z) : bool :=
  match first_from (λ j, (limit a <=? j) || negb (unowned a j)) i (Z.to_nat count) with
  | None => true
  | Some _ => false
  end.

Inductive op :=
| OpAlloc
| OpAllocContiguous (count : Z)
| OpFree (addr : Z)
| OpRef (addr : Z)
| OpCount (addr : Z).

Inductive answer := Addr (o : option Z) | Unit | Count (n : Z).

(** The arguments are 64-bit words. *)
Definition op_wf (o : op) : Prop :=
  match o with
  | OpAlloc => True
  | OpAllocContiguous n => 0 ≤ n < 2 ^ 64
  | OpFree a | OpRef a | OpCount a => 0 ≤ a < 2 ^ 64
  end.

Definition step (a : frames) (o : op) : outcome (answer * frames) :=
  match o with
  | OpAlloc =>
      match first_from (unowned a) 0 (Z.to_nat (limit a)) with
      | Some f => Ret (Addr (Some (f * FRAME_SIZE)), give a f 1)
      | None => Ret (Addr None, a)
      end
  | OpAllocContiguous count =>
      if count =? 0 then Ret (Addr None, a) else
      match first_from (fits_run a count) 0 (Z.to_nat (limit a)) with
      | Some i => Ret (Addr (Some (i * FRAME_SIZE)), give a i (Z.to_nat count))
      | None => Ret (Addr None, a)
      end
  | OpFree addr =>
      match owned a !! (addr / FRAME_SIZE) with
      | None => Stop Panic
      | Some n =>
          Ret (Unit, mkFrames (limit a)
                 (if n =? 1 then delete (addr / FRAME_SIZE) (owned a)
                  else <[addr / FRAME_SIZE := n - 1]> (owned a)))
      end
  | OpRef addr =>
      match owned a !! (addr / FRAME_SIZE) with
      | None => Stop Panic
      | Some n =>
          if n =? 2 ^ 16 - 1 then Stop Panic
          else Ret (Unit, mkFrames (limit a) (<[addr / FRAME_SIZE := n + 1]> (owned a)))
      end
  | OpCount addr =>
      if limit a <=? addr / FRAME_SIZE then Ret (Count 1, a)
      else Ret (Count (default 0 (owned a !! (addr / FRAME_SIZE))), a)
  end.

Fixpoint run (a : frames) (ops : list op) : outcome (list answer * frames) :=
  match ops with
  | [] => Ret ([], a)
  | o :: ops' =>
      let* (x, a1) := step a o in
      let* (xs, a2) := run a1 ops' in
      Ret (x :: xs, a2)
  end.

(** A frame that has as many owners as its counter can hold gets one more. *)
Definition owners_full (a : frames) (o : op) : bool :=
  match o with OpRef addr => bool_decide (owned a !! (addr / FRAME_SIZE) = Some (2 ^ 16 - 1)) | _ => false end.

Fixpoint saturates (a : frames) (ops : list op) : bool :=
  match ops with
  | [] => false
  | o :: ops' => owners_full a o || match step a o with Ret (_, a') => saturates a' ops' | Stop _ => false end
  end.
End Spec.

(** The same interface, served by the allocator's methods. *)
Section Impl.
Context `{Profile}.
Implicit Types s : BitmapFrameAllocator.

Definition impl_step s (o : Spec.op) : outcome (Spec.answer * BitmapFrameAllocator) :=
  match o with
  | Spec.OpAlloc => let* (r, s') := allocate_frame s in Ret (Spec.Addr r, s')
  | Spec.OpAllocContiguous n =>
      let* (r, s') := allocate_contiguous_frames s n in Ret (Spec.Addr r, s')
  | Spec.OpFree a => s' <- cow_deallocate_frame s a;; Ret (Spec.Unit, s')
  | Spec.OpRef a => s' <- cow_reference_frame s a;; Ret (Spec.Unit, s')
  | Spec.OpCount a => n <- cow_get_ref_count s a;; Ret (Spec.Count n, s)
  end.

Fixpoint impl_run s (ops : list Spec.op) : outcome (list Spec.answer * BitmapFrameAllocator) :=
  match ops with
  | [] => Ret ([], s)
  | o :: ops' =>
      let* (x, s1) := impl_step s o in
      let* (xs, s2) := impl_run s1 ops' in
      Ret (x :: xs, s2)
  end.
End Impl.

(** The simulation relation: the owned frames are those with a positive
    counter. *)
Record refines (s : BitmapFrameAllocator) (a : Spec.frames) : Prop := {
  ref_wf : WF s;
  ref_limit : Spec.limit a = total_frames s;
  ref_owned : ∀ f, Spec.owned a !! f =
    if decide (0 ≤ f < total_frames s ∧ 0 < refs s f) then Some (refs s f) else None;
}.

Section Refinement.
Implicit Types (s : BitmapFrameAllocator) (a : Spec.frames).

Lemma refines_unowned s a f : refines s a → 0 ≤ f < total_frames s →
  Spec.unowned a f = negb (busy s f).
Proof.
  intros [Hwf _ Hown] Hf. unfold Spec.unowned. rewrite Hown, (wf_sync s Hwf f Hf).
  destruct (Z.ltb_spec 0 (refs s f)); [rewrite decide_True by lia|rewrite decide_False by lia]; done.
Qed.

Lemma lookup_give a lo n f :
  Spec.owned (Spec.give a lo n) !! f =
  if decide (lo ≤ f < lo + Z.of_nat n) then Some 1 else Spec.owned a !! f.
Proof.
  unfold Spec.give. simpl.
  assert (∀ k, foldr (λ j m, <[lo + Z.of_nat j := 1]> m) (Spec.owned a) (seq k n) !! f
    = if decide (lo + Z.of_nat k ≤ f < lo + Z.of_nat (k + n)) then Some 1
      else Spec.owned a !! f) as Hgen.
  { induction n as [|n IH]; intros k; simpl.
    - by rewrite decide_False by lia.
    - rewrite lookup_insert, IH. repeat case_decide; try done; lia. }
  rewrite Hgen. repeat case_decide; try done; lia.
Qed.

(** Setting a run of frames to one reference is [give]. *)
Lemma refines_give s a s' lo n :
  refines s a → WF s' → total_frames s' = total_frames s →
  0 ≤ lo → lo + Z.of_nat n ≤ total_frames s →
  (∀ g, 0 ≤ g < total_frames s →
     refs s' g = if decide (lo ≤ g < lo + Z.of_nat n) then 1 else refs s g) →
  refines s' (Spec.give a lo n).
Proof.
  intros [Hwf Hlim Hown] Hwf' Ht Hlo Hhi Hr. split; [done|by rewrite Ht|].
  intros f. rewrite lookup_give, Hown, Ht.
  destruct (decide (0 ≤ f < total_frames s)) as [Hf|Hf].
  - rewrite Hr by done. repeat case_decide; try done; lia.
  - repeat case_decide; try done; lia.
Qed.

(** Changing the counter of one frame. *)
Lemma refines_upd s a s' f n m :
  refines s a → WF s' → total_frames s' = total_frames s → 0 ≤ f < total_frames s →
  (∀ g, 0 ≤ g < total_frames s → refs s' g = if decide (g = f) then n else refs s g) →
  (∀ g, m !! g = if decide (g = f) then (if decide (0 < n) then Some n else None)
                 else Spec.owned a !! g) →
  refines s' (Spec.mkFrames (Spec.limit a) m).
Proof.
  intros [Hwf Hlim Hown] Hwf' Ht Hf Hr Hm. split; [done|by rewrite Ht|].
  intros g. simpl. rewrite Hm, Hown, Ht.
  destruct (decide (0 ≤ g < total_frames s)) as [Hg|Hg].
  - rewrite Hr by done. repeat case_decide; subst; try done; lia.
  - repeat case_decide; subst; try done; lia.
Qed.

Lemma refines_lowest_free s a : refines s a →
  first_from (Spec.unowned a) 0 (Z.to_nat (Spec.limit a)) = lowest_free s.
Proof.
  intros Href. pose proof (shape_total s (wf_shape s (ref_wf _ _ Href))).
  unfold lowest_free. rewrite (ref_limit _ _ Href).
  apply first_from_ext. intros j Hj. apply refines_unowned; [done|lia].
Qed.

Lemma refines_first_fit s a count : refines s a →
  first_from (Spec.fits_run a count) 0 (Z.to_nat (Spec.limit a)) = first_fit s count.
Proof.
  intros Href. pose proof (shape_total s (wf_shape s (ref_wf _ _ Href))).
  unfold first_fit. rewrite (ref_limit _ _ Href). apply first_from_ext. intros i Hi.
  unfold Spec.fits_run, run_freeb.
  erewrite (first_from_ext _ (λ j, (total_frames s <=? j) || busy s j)); [done|].
  intros j Hj. cbv beta. rewrite (ref_limit _ _ Href).
  destruct (Z.leb_spec (total_frames s) j); [done|]. cbn [orb].
  rewrite (refines_unowned s) by (done || lia). by rewrite negb_involutive.
Qed.

(** The owner map at the frame of an address. *)
Lemma refines_lookup s a f : refines s a → 0 ≤ f →
  match Spec.owned a !! f with
  | Some n => f < total_frames s ∧ n = refs s f ∧ 0 < n < 2 ^ 16
  | None => total_frames s ≤ f ∨ refs s f = 0
  end.
Proof.
  intros [Hwf _ Hown] Hf. rewrite Hown. case_decide as E.
  - destruct (count_lookup s f (wf_shape s Hwf) ltac:(lia)). lia.
  - destruct (decide (f < total_frames s)); [|lia].
    destruct (count_lookup s f (wf_shape s Hwf) ltac:(lia)). lia.
Qed.

Definition sim_answer (x : Spec.answer * BitmapFrameAllocator)
    (y : Spec.answer * Spec.frames) : Prop := x.1 = y.1 ∧ refines x.2 y.2.
End Refinement.

Section StepRefinement.
Context `{Profile}.
Implicit Types (s : BitmapFrameAllocator) (a : Spec.frames).

Lemma alloc_refines s a : refines s a →
  osim sim_answer (impl_step s Spec.OpAlloc) (Spec.step a Spec.OpAlloc).
Proof.
  intros Href. pose proof (ref_wf _ _ Href) as Hwf. cbn [impl_step Spec.step].
  rewrite (refines_lowest_free s a Href).
  pose proof (allocate_frame_allocated s Hwf) as Ha. unfold allocated in Ha.
  apply wp_inv in Ha as ([r s'] & -> & Hwf' & Ha). cbn [obind].
  destruct (lowest_free s) as [f|] eqn:E.
  - destruct Ha as (-> & s1 & Hu & ->). split; [done|]. cbn [snd].
    apply first_from_Some in E as (Hf & _ & _).
    pose proof (shape_total s (wf_shape s Hwf)).
    apply (refines_give s); try done; [apply (upd_total _ _ _ _ _ Hu)|lia|lia|].
    intros g Hg. change (refs (set_hint s1 (f + 1)) g) with (refs s1 g).
    rewrite (upd_refs _ _ _ _ _ Hu) by done. repeat case_decide; try done; lia.
  - by destruct Ha as [-> ->].
Qed.

Lemma contiguous_refines s a count : refines s a → 0 ≤ count < 2 ^ 64 →
  osim sim_answer (impl_step s (Spec.OpAllocContiguous count))
    (Spec.step a (Spec.OpAllocContiguous count)).
Proof.
  intros Href Hc. pose proof (ref_wf _ _ Href) as Hwf. cbn [impl_step Spec.step].
  destruct (Z.eqb_spec count 0) as [->|Hne]; [done|].
  rewrite (refines_first_fit s a count Href).
  pose proof (allocate_contiguous_frames_contiguous s count Hwf ltac:(lia)) as Ha.
  unfold contiguous in Ha. apply wp_inv in Ha as ([r s'] & -> & Hwf' & Ha). cbn [obind].
  destruct (first_fit s count) as [i|] eqn:E.
  - destruct Ha as (-> & Hu). split; [done|]. cbn [snd].
    apply first_from_Some in E as (Hi & Hrun & _). apply run_freeb_spec in Hrun; [|lia].
    pose proof (run_free_bound s i count ltac:(lia) Hrun).
    apply (refines_give s); try done; [apply (updr_total _ _ _ _ Hu)|lia|lia|].
    intros g Hg. rewrite (updr_refs _ _ _ _ Hu) by done.
    by rewrite Z2Nat.id by lia.
  - by destruct Ha as [-> ->].
Qed.

Lemma free_refines s a addr : refines s a → 0 ≤ addr →
  osim sim_answer (impl_step s (Spec.OpFree addr)) (Spec.step a (Spec.OpFree addr)).
Proof.
  intros Href Haddr. pose proof (ref_wf _ _ Href) as Hwf. cbn [impl_step Spec.step].
  unfold cow_deallocate_frame.
  assert (0 ≤ addr / FRAME_SIZE) as Hf by (unfold FRAME_SIZE; zlia).
  pose proof (refines_lookup s a _ Href Hf) as Hl.
  destruct (Spec.owned a !! (addr / FRAME_SIZE)) as [n|];
    [|by rewrite deallocate_frame_panics].
  destruct Hl as (Hlt & -> & Hpos).
  pose proof (deallocate_frame_deallocated s addr Hwf Haddr Hlt ltac:(lia)) as Hd.
  unfold deallocated in Hd. apply wp_inv in Hd as (s' & -> & Hwf' & Hd).
  cbn [obind]. split; [done|]. cbn [snd].
  destruct (Z.eqb_spec (refs s (addr / FRAME_SIZE)) 1) as [E|E].
  - destruct Hd as (s1 & Hu & ->).
    apply (refines_upd s _ _ (addr / FRAME_SIZE) 0); try done;
      [apply (upd_total _ _ _ _ _ Hu)|apply (upd_refs _ _ _ _ _ Hu)|].
    intros g. destruct (decide (g = addr / FRAME_SIZE)) as [->|];
      [by rewrite lookup_delete_eq|by rewrite lookup_delete_ne].
  - apply (refines_upd s _ _ (addr / FRAME_SIZE) (refs s (addr / FRAME_SIZE) - 1)); try done;
      [apply (upd_total _ _ _ _ _ Hd)|apply (upd_refs _ _ _ _ _ Hd)|].
    intros g. destruct (decide (g = addr / FRAME_SIZE)) as [->|];
      [rewrite lookup_insert_eq, decide_True by lia; done|by rewrite lookup_insert_ne].
Qed.

Lemma ref_refines s a addr : overflow_checks = true ∨ Spec.owners_full a (Spec.OpRef addr) = false → refines s a → 0 ≤ addr →
  osim sim_answer (impl_step s (Spec.OpRef addr)) (Spec.step a (Spec.OpRef addr)).
Proof.
  intros Hchk Href Haddr. pose proof (ref_wf _ _ Href) as Hwf. cbn [impl_step Spec.step].
  unfold cow_reference_frame.
  assert (0 ≤ addr / FRAME_SIZE) as Hf by (unfold FRAME_SIZE; zlia).
  pose proof (refines_lookup s a _ Href Hf) as Hl.
  destruct (Spec.owned a !! (addr / FRAME_SIZE)) as [n|] eqn:En;
    [|by rewrite reference_frame_panics].
  destruct Hl as (Hlt & -> & Hpos).
  destruct (Z.eqb_spec (refs s (addr / FRAME_SIZE)) (2 ^ 16 - 1)) as [E|E].
  { destruct Hchk as [Hchk|Hchk]; [|cbn [Spec.owners_full] in Hchk; apply bool_decide_eq_false in Hchk; congruence].
    pose proof (reference_frame_saturated s addr Hwf Haddr Hlt E) as Hs. rewrite Hchk in Hs. by rewrite Hs. }
  pose proof (reference_frame_spec s addr Hwf Haddr Hlt ltac:(lia)) as Hd.
  apply wp_inv in Hd as (s' & -> & Hwf' & Hd). cbn [obind]. split; [done|]. cbn [snd].
  apply (refines_upd s _ _ (addr / FRAME_SIZE) (refs s (addr / FRAME_SIZE) + 1)); try done;
    [apply (upd_total _ _ _ _ _ Hd)|apply (upd_refs _ _ _ _ _ Hd)|].
  intros g. destruct (decide (g = addr / FRAME_SIZE)) as [->|];
    [rewrite lookup_insert_eq, decide_True by lia; done|by rewrite lookup_insert_ne].
Qed.

Lemma count_refines s a addr : refines s a → 0 ≤ addr →
  osim sim_answer (impl_step s (Spec.OpCount addr)) (Spec.step a (Spec.OpCount addr)).
Proof.
  intros Href Haddr. pose proof (ref_wf _ _ Href) as Hwf. cbn [impl_step Spec.step].
  unfold cow_get_ref_count, get_ref_count.
  assert (0 ≤ addr / FRAME_SIZE) as Hf by (unfold FRAME_SIZE; zlia).
  pose proof (refines_lookup s a _ Href Hf) as Hl. rewrite (ref_limit _ _ Href).
  destruct (Z.leb_spec (total_frames s) (addr / FRAME_SIZE)) as [Hge|Hlt]; [done|].
  destruct (count_lookup s _ (wf_shape s Hwf) (conj Hf Hlt)) as [Hn _].
  unfold vget. rewrite Hn. cbn [obind]. split; [|done]. cbn [fst].
  destruct (Spec.owned a !! _) as [n|]; cbn [default]; [by destruct Hl as (_ & -> & _)|].
  destruct Hl as [?| ->]; [lia|done].
Qed.

Lemma step_refines s a o : overflow_checks = true ∨ Spec.owners_full a o = false → refines s a → Spec.op_wf o →
  osim sim_answer (impl_step s o) (Spec.step a o).
Proof.
  intros Hchk Href Ho. destruct o; cbn [Spec.op_wf] in Ho;
    [by apply alloc_refines|by apply contiguous_refines|apply free_refines; [done|lia]
    |apply ref_refines; [done|done|lia]|apply count_refines; [done|lia]].
Qed.
End StepRefinement.

Section Theorems.
Context `{Profile}.
Implicit Types (s : BitmapFrameAllocator) (a : Spec.frames).

(** C12: every sequence of calls (single and contiguous allocation, release,
    sharing, counter query) made on the bitmap allocator gives the answers,
    panics included, that the map of owned frames gives, and ends in a
    well-formed allocator that represents the resulting map.  In a build without
    overflow checks this holds for the sequences that never share a frame that
    has 65535 owners, where the counter wraps to zero instead of panicking. *)
Theorem allocator_refines s a ops :
  overflow_checks = true ∨ Spec.saturates a ops = false → refines s a → Forall Spec.op_wf ops →
  osim (λ x y, x.1 = y.1 ∧ refines x.2 y.2) (impl_run s ops) (Spec.run a ops).
Proof.
  intros Hchk Href Hops. revert s a Hchk Href.
  induction Hops as [|o ops Ho _ IH]; intros s a Hchk Href; [done|]. cbn [impl_run Spec.run Spec.saturates] in *.
  rewrite orb_false_iff in Hchk.
  pose proof (step_refines s a o ltac:(tauto) Href Ho) as Hstep.
  destruct (impl_step s o) as [[x s1]|e], (Spec.step a o) as [[y a1]|e']; try done.
  destruct Hstep as [Hxy Href1]. cbn [fst snd] in Hxy, Href1. cbn [obind].
  eapply osim_bind; [apply IH; [tauto|done]|].
  intros [xs s2] [ys a2] [Hxs Href2]. cbn [fst snd] in Hxs, Href2. subst. done.
Qed.

(** [allocate_frame] always returns.  It hands out the lowest frame that
    is free, marks it busy with one reference and changes no other frame; it
    answers [None], leaving the allocator as it was, only when every frame
    is busy.  The invariant is kept. *)
Theorem allocate_frame_lowest s : WF s →
  wp (allocate_frame s) (λ '(r, s'),
    WF s' ∧
    match r with
    | Some addr => ∃ f, addr = f * FRAME_SIZE ∧ 0 ≤ f < total_frames s ∧ busy s f = false
        ∧ (∀ j, 0 ≤ j < f → busy s j = true)
        ∧ ∀ g, 0 ≤ g < total_frames s →
            busy s' g = (if decide (g = f) then true else busy s g)
            ∧ refs s' g = if decide (g = f) then 1 else refs s g
    | None => s' = s ∧ ∀ j, 0 ≤ j < total_frames s → busy s j = true
    end).
Proof.
  intros Hwf. eapply wp_mono; [by apply allocate_frame_allocated|cbv beta].
  intros [r s'] [Hwf' Ha]. split; [done|]. unfold allocated, lowest_free in Ha.
  pose proof (shape_total s (wf_shape s Hwf)).
  destruct (first_from _ _ _) as [f|] eqn:E.
  - destruct Ha as (-> & s1 & Hu & ->). apply first_from_Some in E as (Hf & Hb & Hbelow).
    exists f. split_and!; [done|lia|lia|by apply negb_true_iff| |].
    + intros j Hj. by apply negb_false_iff, Hbelow.
    + intros g Hg. by split; [apply (upd_busy _ _ _ _ _ Hu)|apply (upd_refs _ _ _ _ _ Hu)].
  - destruct Ha as [-> ->]. split; [done|]. intros j Hj.
    apply negb_false_iff. apply (proj1 (first_from_None _ _ _) E). lia.
Qed.

(** The skip-ahead search of [allocate_contiguous_frames] terminates and
    computes the plain first fit: the lowest start of [count] free frames,
    all of them marked busy with one reference, or [None] and no change when
    no such run exists. *)
Theorem allocate_contiguous_first_fit s count : WF s → 0 < count < 2 ^ 64 →
  wp (allocate_contiguous_frames s count) (λ '(r, s'),
    WF s' ∧
    match r with
    | Some addr => ∃ i, addr = i * FRAME_SIZE ∧ 0 ≤ i ∧ run_free s i count
        ∧ (∀ k, 0 ≤ k < i → ¬ run_free s k count)
        ∧ ∀ g, 0 ≤ g < total_frames s →
            busy s' g = (if decide (i ≤ g < i + count) then true else busy s g)
            ∧ refs s' g = if decide (i ≤ g < i + count) then 1 else refs s g
    | None => s' = s ∧ ∀ k, 0 ≤ k → ¬ run_free s k count
    end).
Proof.
  intros Hwf Hc. eapply wp_mono; [by apply allocate_contiguous_frames_contiguous|cbv beta].
  intros [r s'] [Hwf' Ha]. split; [done|]. unfold contiguous, first_fit in Ha.
  pose proof (shape_total s (wf_shape s Hwf)).
  destruct (first_from _ _ _) as [i|] eqn:E.
  - destruct Ha as (-> & Hu). apply first_from_Some in E as (Hi & Hrun & Hbelow).
    exists i. split_and!; [done|lia|by apply run_freeb_spec; [lia|]| |].
    + intros k Hk Hr. apply run_freeb_spec in Hr; [|lia]. by rewrite Hbelow in Hr by lia.
    + intros g Hg. by split; [apply (updr_busy _ _ _ _ Hu)|apply (updr_refs _ _ _ _ Hu)].
  - destruct Ha as [-> ->]. split; [done|]. intros k Hk Hr.
    pose proof (run_free_bound s k count ltac:(lia) Hr).
    apply run_freeb_spec in Hr; [|lia].
    by rewrite (proj1 (first_from_None _ _ _) E k) in Hr by lia.
Qed.

(** A frame that was just allocated can be released once: the release
    restores the bit and the counter of every frame, the next allocation
    hands the same frame out again, and a second release panics. *)
Theorem allocate_deallocate_roundtrip s addr s1 : WF s →
  allocate_frame s = Ret (Some addr, s1) →
  wp (deallocate_frame s1 addr) (λ s2,
    WF s2 ∧ (∀ g, 0 ≤ g < total_frames s → busy s2 g = busy s g ∧ refs s2 g = refs s g)
    ∧ deallocate_frame s2 addr = Stop Panic
    ∧ wp (allocate_frame s2) (λ '(r, _), r = Some addr)).
Proof.
  intros Hwf E. pose proof (allocate_frame_allocated s Hwf) as Ha. rewrite E in Ha.
  destruct Ha as [Hwf1 Ha]. unfold allocated in Ha.
  destruct (lowest_free s) as [f|] eqn:El; [|by destruct Ha].
  destruct Ha as ([= ->] & s0 & Hu & ->). pose proof El as El'.
  apply first_from_Some in El as (Hf & Hb & _). pose proof (shape_total s (wf_shape s Hwf)).
  apply negb_true_iff in Hb.
  assert (f * FRAME_SIZE / FRAME_SIZE = f) as Hdiv by (apply Z.div_mul; done).
  assert (refs s f = 0) as Hz.
  { rewrite (wf_sync s Hwf) in Hb by lia. apply Z.ltb_ge in Hb.
    destruct (count_lookup s f (wf_shape s Hwf) ltac:(lia)). lia. }
  set (sa := set_hint s0 (f + 1)) in *.
  assert (refs sa f = 1) as H1.
  { change (refs sa f) with (refs s0 f). rewrite (upd_refs _ _ _ _ _ Hu) by lia.
    by rewrite decide_True. }
  pose proof (upd_total _ _ _ _ _ Hu) as Ht.
  pose proof (deallocate_frame_deallocated sa (f * FRAME_SIZE) Hwf1) as Hd.
  rewrite Hdiv in Hd. unfold deallocated in Hd. rewrite H1 in Hd. cbn [Z.eqb Pos.eqb] in Hd.
  eapply wp_mono; [apply Hd; unfold FRAME_SIZE; simpl; lia|cbv beta].
  intros s2 (Hwf2 & s3 & Hu2 & ->).
  assert (∀ g, 0 ≤ g < total_frames s →
            busy s3 g = busy s g ∧ refs s3 g = refs s g) as Hsame.
  { intros g Hg. rewrite (upd_busy _ _ _ _ _ Hu2), (upd_refs _ _ _ _ _ Hu2) by (simpl; lia).
    change (busy sa g) with (busy s0 g). change (refs sa g) with (refs s0 g).
    rewrite (upd_busy _ _ _ _ _ Hu), (upd_refs _ _ _ _ _ Hu) by lia.
    case_decide; by subst. }
  split_and!; [done|exact Hsame| |].
  - apply deallocate_frame_panics; [done|unfold FRAME_SIZE; lia|]. right. rewrite Hdiv.
    change (refs s3 f = 0). rewrite (proj2 (Hsame f ltac:(lia))). done.
  - eapply wp_mono; [by apply allocate_frame_allocated|cbv beta].
    intros [r s4] [_ Ha]. unfold allocated in Ha.
    replace (lowest_free _) with (Some f) in Ha; [by destruct Ha|].
    symmetry. rewrite <- El'. unfold lowest_free. simpl total_frames.
    rewrite (upd_total _ _ _ _ _ Hu2). change (total_frames sa) with (total_frames s0).
    rewrite Ht. apply first_from_ext. intros j Hj. f_equal. apply Hsame. lia.
Qed.

(** The 16-bit reference counter is not saturating.  With overflow checks
    the 65536th sharer panics; without them the counter wraps to 0 while the
    frame stays marked busy, and the first owner to release the frame stops
    the kernel with the double-free panic. *)
Theorem reference_frame_wraps s addr : WF s → 0 ≤ addr →
  addr / FRAME_SIZE < total_frames s → refs s (addr / FRAME_SIZE) = 2 ^ 16 - 1 →
  if overflow_checks then reference_frame s addr = Stop Panic
  else wp (reference_frame s addr) (λ s',
         busy s' (addr / FRAME_SIZE) = true ∧ get_ref_count s' addr = Ret 0
         ∧ deallocate_frame s' addr = Stop Panic).
Proof.
  intros Hwf Ha Hlt Hmax. pose proof (reference_frame_saturated s addr Hwf Ha Hlt Hmax) as Hs.
  destruct overflow_checks; [done|]. destruct Hs as (s' & -> & Hu). apply wp_ret.
  assert (0 ≤ addr / FRAME_SIZE < total_frames s) as Hf by (unfold FRAME_SIZE in *; zlia).
  destruct (count_lookup s' (addr / FRAME_SIZE) (upd_shape _ _ _ _ _ Hu)) as [Hn _].
  { by rewrite (upd_total _ _ _ _ _ Hu). }
  rewrite (upd_refs _ _ _ _ _ Hu), decide_True in Hn by done.
  split_and!.
  - rewrite (upd_busy _ _ _ _ _ Hu) by done. by rewrite decide_True.
  - unfold get_ref_count, vget. rewrite (upd_total _ _ _ _ _ Hu), Hn.
    by rewrite (proj2 (Z.leb_gt _ _)).
  - unfold deallocate_frame, vget. rewrite (upd_total _ _ _ _ _ Hu), Hn.
    by rewrite (proj2 (Z.ltb_lt _ _)).
Qed.
End Theorems.

(** ** The invariant as an executable check *)

Definition all_below (n : Z) (p : Z → bool) : bool :=
  match first_from (λ f, negb (p f)) 0 (Z.to_nat n) with None => true | Some _ => false end.

Lemma all_below_spec n p : all_below n p = true → ∀ f, 0 ≤ f < n → p f = true.
Proof.
  unfold all_below. destruct (first_from _ _ _) eqn:E; [done|]. intros _ f Hf.
  apply negb_false_iff, (proj1 (first_from_None _ _ _) E). lia.
Qed.

Definition wf_check (s : BitmapFrameAllocator) : bool :=
  (0 <=? total_frames s) && (total_frames s <=? 2 ^ 52)
  && (Z.of_nat (length (ref_counts s)) =? total_frames s)
  && (Z.of_nat (length (bitmap s)) =? (total_frames s + 7) / 8)
  && forallb (fits 8) (bitmap s) && forallb (fits 16) (ref_counts s)
  && all_below (total_frames s) (λ f, Bool.eqb (busy s f) (0 <? refs s f))
  && (0 <=? last_free_frame_hint s) && (last_free_frame_hint s <=? total_frames s)
  && all_below (last_free_frame_hint s) (busy s).

Lemma Forall_fits w l : forallb (fits w) l = true → Forall (λ b, 0 ≤ b < 2 ^ w) l.
Proof.
  intros Hl%Is_true_eq_left%forallb_True. eapply Forall_impl; [exact Hl|].
  intros b Hb%Is_true_true. unfold fits in Hb. lia.
Qed.

Lemma wf_check_sound s : wf_check s = true → WF s.
Proof.
  unfold wf_check. intros Hc. repeat (apply andb_true_iff in Hc as [Hc ?]).
  split; [split|..]; try lia; try (by apply Forall_fits).
  - intros f Hf. by apply eqb_prop, (all_below_spec _ _ H2).
  - by apply all_below_spec.
Qed.

(** Ten frames: frames 0, 1 and 3 are busy, frame 3 is shared. *)
Definition sample : BitmapFrameAllocator :=
  mkAlloc [11; 0] [1; 1; 0; 2; 0; 0; 0; 0; 0; 0] 10 1.
Definition sample_map : Spec.frames :=
  Spec.mkFrames 10 (<[0 := 1]> (<[1 := 1]> (<[3 := 2]> ∅))).

Lemma sample_wf : WF sample.
Proof. by apply wf_check_sound. Qed.

Lemma sample_refines : refines sample sample_map.
Proof.
  split; [apply sample_wf|done|]. intros f. unfold sample_map. cbn [Spec.owned].
  destruct (decide (0 ≤ f < 10)) as [Hf|Hf].
  - assert (f ∈ seqZ 0 10) as Hin by (apply elem_of_seqZ; lia).
    clear Hf. revert f Hin. apply Forall_forall.
    repeat (constructor; [vm_compute; reflexivity|]). constructor.
  - rewrite !lookup_insert_ne, lookup_empty, decide_False by (simpl; lia). done.
Qed.

(** Frame 2 is handed out, shared frame 3 gets a third owner, frames 4 to 6 follow, frame
    2 is given back and handed out again; without overflow checks. *)
Definition sample_ops : list Spec.op :=
  [Spec.OpAlloc; Spec.OpRef 12288; Spec.OpAllocContiguous 3; Spec.OpFree 8192; Spec.OpAlloc; Spec.OpCount 12288].

Lemma allocator_refines_witness :
  ∃ s' a', @impl_run false sample sample_ops
    = Ret ([Spec.Addr (Some 8192); Spec.Unit; Spec.Addr (Some 16384); Spec.Unit; Spec.Addr (Some 8192); Spec.Count 3], s')
    ∧ refines s' a' ∧ Spec.owned a' !! 3 = Some 3.
Proof.
  assert (Forall Spec.op_wf sample_ops) as Hwf by (repeat constructor; vm_compute; done).
  pose proof (@allocator_refines false sample sample_map sample_ops (or_intror eq_refl) sample_refines Hwf) as H.
  destruct (Spec.run sample_map sample_ops) as [[ys a']|] eqn:E; [|discriminate E].
  destruct (impl_run sample sample_ops) as [[xs s']|]; [|destruct H].
  destruct H as [Hx Hr]. cbn [fst snd] in Hx, Hr. exists s', a'. vm_compute in E. injection E as <- <-. subst xs.
  split; [reflexivity|]. split; [exact Hr|vm_compute; reflexivity].
Defined.

Lemma allocate_frame_lowest_witness :
  WF sample ∧ wp (@allocate_frame true sample) (λ '(r, s'), WF s').
Proof.
  split; [apply sample_wf|].
  eapply wp_mono; [apply (@allocate_frame_lowest true sample); apply sample_wf|].
  intros [r s'] [Hwf _]. exact Hwf.
Defined.

Lemma allocate_contiguous_first_fit_witness :
  WF sample ∧ wp (@allocate_contiguous_frames false sample 3) (λ '(r, s'), WF s').
Proof.
  split; [apply sample_wf|].
  eapply wp_mono; [apply (@allocate_contiguous_first_fit false sample 3);
    [apply sample_wf|lia]|].
  intros [r s'] [Hwf _]. exact Hwf.
Defined.

Lemma allocate_deallocate_roundtrip_witness :
  ∃ s1, @allocate_frame true sample = Ret (Some 8192, s1)
        ∧ wp (@deallocate_frame true s1 8192) WF.
Proof.
  eexists. split; [vm_compute; reflexivity|].
  eapply wp_mono; [apply (@allocate_deallocate_roundtrip true sample 8192);
    [apply sample_wf|vm_compute; reflexivity]|].
  intros s2 [Hwf _]. exact Hwf.
Defined.

(** The same frames with the counter of frame 3 at its maximum. *)
Definition saturated : BitmapFrameAllocator :=
  mkAlloc [11; 0] [1; 1; 0; 65535; 0; 0; 0; 0; 0; 0] 10 1.

Lemma reference_frame_wraps_witness :
  wp (@reference_frame false saturated 12288) (λ s',
    busy s' 3 = true ∧ @get_ref_count s' 12288 = Ret 0
    ∧ @deallocate_frame false s' 12288 = Stop Panic).
Proof.
  apply (@reference_frame_wraps false saturated 12288);
    [by apply wf_check_sound|done|done|done].
Defined.
