(* ===== verification/Fd.v ===== *)
(** * File-descriptor tables (src/src/fs/fd.rs)

    [FdTable] maps descriptor numbers to open resources.  The type [V] of file
    nodes stands for [Arc<dyn VNode>].  The theorems follow a table through a
    sequence of calls: descriptor numbers are handed out in order and never
    again, the standard streams stay in place, and a descriptor designates the
    same resource until it is closed. *)

From S2P Require Import Prelude.

Section Fd.
Context {V : Type}.

Inductive FileDescriptor :=
| Stdin
| Stdout
| Stderr
| RegularFile (vnode : V) (offset : Z).

Record FdTable := mkFdTable {
  descriptors : gmap Z FileDescriptor;
  next_fd : Z;
}.

Definition FdTable_new : FdTable :=
  mkFdTable (<[2 := Stderr]> (<[1 := Stdout]> (<[0 := Stdin]> ∅))) 3.

(** [get_mut] returns a reference: [get_fd] reads through it, [put_fd] writes
    through it. *)
Definition get_fd (t : FdTable) (fd : Z) : option FileDescriptor := descriptors t !! fd.

Definition put_fd (t : FdTable) (fd : Z) (d : FileDescriptor) : FdTable :=
  match get_fd t fd with
  | Some _ => mkFdTable (<[fd := d]> (descriptors t)) (next_fd t)
  | None => t
  end.

Definition fd_insert `{Profile} (t : FdTable) (file : FileDescriptor) : outcome (Z * FdTable) :=
  let fd := next_fd t in
  let ds := <[fd := file]> (descriptors t) in
  n <- uadd 64 (next_fd t) 1;;
  Ret (fd, mkFdTable ds n).

Definition fd_close (t : FdTable) (fd : Z) : bool * FdTable :=
  if fd <? 3 then (false, t) else
  match descriptors t !! fd with
  | Some _ => (true, mkFdTable (delete fd (descriptors t)) (next_fd t))
  | None => (false, t)
  end.
End Fd.
Arguments FileDescriptor : clear implicits.
Arguments FdTable : clear implicits.

(** ** Sequences of calls *)

Section Calls.
Context {V : Type} `{Profile}.
Implicit Types t : FdTable V.

(** [OpSeek] is a write through [get_mut] that moves the cursor of a file, as
    [read] does. *)
Inductive fd_op :=
| OpInsert (d : FileDescriptor V)
| OpSeek (fd offset : Z)
| OpClose (fd : Z).

Definition seek t (fd off : Z) : FdTable V :=
  match get_fd t fd with
  | Some (RegularFile v _) => put_fd t fd (RegularFile v off)
  | _ => t
  end.

(** The numbers handed out and the final table. *)
Fixpoint fd_run t (ops : list fd_op) : outcome (list Z * FdTable V) :=
  match ops with
  | [] => Ret ([], t)
  | OpInsert d :: ops' =>
      let* (fd, t1) := fd_insert t d in
      let* (fds, t2) := fd_run t1 ops' in
      Ret (fd :: fds, t2)
  | OpSeek fd off :: ops' => fd_run (seek t fd off) ops'
  | OpClose fd :: ops' => fd_run (fd_close t fd).2 ops'
  end.

Fixpoint inserts (ops : list fd_op) : nat :=
  match ops with
  | [] => 0
  | OpInsert _ :: ops' => S (inserts ops')
  | _ :: ops' => inserts ops'
  end.

(** The table is well formed: its numbers are below [next_fd] and the three
    standard streams are open. *)
Record fd_wf t : Prop := {
  fd_next : 3 ≤ next_fd t < 2 ^ 64;
  fd_below : ∀ fd d, descriptors t !! fd = Some d → 0 ≤ fd < next_fd t;
  fd_stdin : descriptors t !! 0 = Some Stdin;
  fd_stdout : descriptors t !! 1 = Some Stdout;
  fd_stderr : descriptors t !! 2 = Some Stderr;
}.

(** Two descriptors of the same resource: the cursor may differ. *)
Definition same_file (d d' : FileDescriptor V) : Prop :=
  match d, d' with
  | RegularFile v _, RegularFile v' _ => v = v'
  | _, _ => d = d'
  end.

Lemma same_file_refl d : same_file d d.
Proof. by destruct d. Qed.

Lemma same_file_trans d1 d2 d3 : same_file d1 d2 → same_file d2 d3 → same_file d1 d3.
Proof. destruct d1, d2, d3; simpl; congruence. Qed.

(** What a call may do to the descriptor [fd]. *)
Definition keeps (fd : Z) t t' : Prop :=
  next_fd t ≤ next_fd t' ∧
  match get_fd t fd with
  | None => get_fd t' fd = None
  | Some d => ∃ d', get_fd t' fd = Some d' ∧ same_file d d'
  end.

Lemma keeps_refl fd t : keeps fd t t.
Proof. split; [done|]. destruct (get_fd t fd); eauto using same_file_refl. Qed.

Lemma keeps_trans fd t1 t2 t3 : keeps fd t1 t2 → keeps fd t2 t3 → keeps fd t1 t3.
Proof.
  intros [? H12] [? H23]. split; [lia|].
  destruct (get_fd t1 fd) as [d|]; [|by rewrite H12 in H23].
  destruct H12 as (d' & E & ?). rewrite E in H23.
  destruct H23 as (d'' & ? & ?). eauto using same_file_trans.
Qed.

Lemma lookup_seek t fd off g :
  get_fd (seek t fd off) g =
  match get_fd t g with
  | Some (RegularFile v o) => Some (RegularFile v (if decide (g = fd) then off else o))
  | x => x
  end.
Proof.
  unfold seek, put_fd. destruct (get_fd t fd) as [[| | |v o]|] eqn:E.
  5: { destruct (decide (g = fd)) as [->|]; [by rewrite E|].
       by destruct (get_fd t g) as [[]|]. }
  4: { unfold get_fd in *. simpl. destruct (decide (g = fd)) as [->|];
         [by rewrite lookup_insert_eq, E|rewrite lookup_insert_ne by done].
       by destruct (descriptors t !! g) as [[]|]. }
  all: destruct (decide (g = fd)) as [->|]; [by rewrite E|by destruct (get_fd t g) as [[]|]].
Qed.

Lemma next_fd_seek t fd off : next_fd (seek t fd off) = next_fd t.
Proof. unfold seek, put_fd. by repeat case_match. Qed.

Lemma next_fd_close t fd : next_fd (fd_close t fd).2 = next_fd t.
Proof. unfold fd_close. by repeat case_match. Qed.

Lemma lookup_close t fd g :
  get_fd (fd_close t fd).2 g = if decide (g = fd ∧ 3 ≤ fd) then None else get_fd t g.
Proof.
  unfold fd_close, get_fd. destruct (Z.ltb_spec fd 3); simpl.
  { by rewrite decide_False by lia. }
  destruct (descriptors t !! fd) eqn:E; simpl.
  - destruct (decide (g = fd)) as [->|].
    + by rewrite lookup_delete_eq, decide_True by lia.
    + rewrite lookup_delete_ne, decide_False; [done|tauto|congruence].
  - case_decide; [|done]. by destruct_and!; subst.
Qed.

Lemma fd_wf_new : fd_wf FdTable_new.
Proof.
  split; simpl; try done. intros fd d Hl.
  repeat (apply lookup_insert_Some in Hl as [[<- _]|[_ Hl]]; [lia|]). done.
Qed.

Lemma fd_wf_seek t fd off : fd_wf t → fd_wf (seek t fd off).
Proof.
  intros [Hn Hb H0 H1 H2]. pose proof (lookup_seek t fd off) as Hl. unfold get_fd in Hl.
  split; rewrite ?next_fd_seek; [done| |rewrite Hl, H0; done|rewrite Hl, H1; done
    |rewrite Hl, H2; done].
  intros g d Hg. rewrite Hl in Hg.
  destruct (descriptors t !! g) as [d0|] eqn:E; [by eapply Hb|done].
Qed.

Lemma fd_wf_close t fd : fd_wf t → fd_wf (fd_close t fd).2.
Proof.
  intros [Hn Hb H0 H1 H2]. pose proof (lookup_close t fd) as Hl. unfold get_fd in Hl.
  split; rewrite ?next_fd_close; [done| |rewrite Hl, decide_False by lia; done..].
  intros g d Hg. rewrite Hl in Hg. case_decide; [done|]. by eapply Hb.
Qed.

Lemma fd_wf_insert t d : fd_wf t → next_fd t < 2 ^ 64 - 1 →
  wp (fd_insert t d) (λ '(fd, t'),
    fd = next_fd t ∧ fd_wf t' ∧ next_fd t' = next_fd t + 1
    ∧ descriptors t' = <[next_fd t := d]> (descriptors t)).
Proof.
  intros [Hn Hb H0 H1 H2] Hlt. unfold fd_insert. wp_steps. split_and!; try done.
  split; simpl; [lia| |by rewrite lookup_insert_ne by lia..].
  intros g e [[<- _]|[_ Hg]]%lookup_insert_Some; [lia|]. specialize (Hb g e Hg). lia.
Qed.

Lemma keeps_seek g t fd off : keeps g t (seek t fd off).
Proof.
  split; [by rewrite next_fd_seek|]. rewrite lookup_seek.
  destruct (get_fd t g) as [[]|]; eauto using same_file_refl. eexists. by split.
Qed.

Lemma keeps_close g t fd : g ≠ fd → keeps g t (fd_close t fd).2.
Proof.
  intros Hne. split; [by rewrite next_fd_close|]. rewrite lookup_close, decide_False by lia.
  destruct (get_fd t g); eauto using same_file_refl.
Qed.

Lemma keeps_insert g t t' d : g ≠ next_fd t → next_fd t' = next_fd t + 1 →
  descriptors t' = <[next_fd t := d]> (descriptors t) → keeps g t t'.
Proof.
  intros Hne Hn Hd. split; [lia|]. unfold get_fd. rewrite Hd, lookup_insert_ne by done.
  destruct (descriptors t !! g); eauto using same_file_refl.
Qed.

(** From any well-formed table, a sequence of opens, seeks and closes
    returns and keeps the table well formed, standard streams included; the
    numbers it hands out are the successive integers from [next_fd] on, so no
    number is ever given twice, closed or not. *)
Theorem fd_numbers_fresh t ops :
  fd_wf t → next_fd t + Z.of_nat (inserts ops) < 2 ^ 64 →
  wp (fd_run t ops) (λ '(fds, t'),
    fds = seqZ (next_fd t) (Z.of_nat (inserts ops)) ∧ fd_wf t').
Proof.
  revert t. induction ops as [|[d|fd off|fd] ops IH]; intros t Hwf Hlt; simpl inserts in *.
  - by split.
  - cbn [fd_run]. wp_step. eapply wp_mono; [apply fd_wf_insert; [done|lia]|cbv beta].
    intros [fd t1] (-> & Hwf1 & Hn & _). wp_step.
    eapply wp_mono; [apply IH; [done|lia]|cbv beta].
    intros [fds t2] [-> Hwf2]. wp_step. split; [|done].
    rewrite (seqZ_cons (next_fd t)) by lia. by rewrite Hn, Nat2Z.inj_succ, Z.pred_succ.
  - cbn [fd_run]. rewrite <- (next_fd_seek t fd off).
    apply IH; [by apply fd_wf_seek|by rewrite next_fd_seek].
  - cbn [fd_run]. rewrite <- (next_fd_close t fd).
    apply IH; [by apply fd_wf_close|by rewrite next_fd_close].
Qed.

(** As long as [fd] is not closed, no sequence of opens, seeks and closes
    of other descriptors changes what it designates: an open descriptor stays
    open on the same resource, and a number already handed out that is not
    open (it was closed) stays invalid. *)
Theorem fd_stable t ops fd :
  fd_wf t → next_fd t + Z.of_nat (inserts ops) < 2 ^ 64 → fd < next_fd t →
  Forall (λ o, match o with OpClose g => g ≠ fd | _ => True end) ops →
  wp (fd_run t ops) (λ '(_, t'), keeps fd t t').
Proof.
  intros Hwf Hlt Hfd Hops. revert t Hwf Hlt Hfd.
  induction Hops as [|[d|g off|g] ops Ho _ IH]; intros t Hwf Hlt Hfd; simpl inserts in *;
    cbn [fd_run].
  - apply keeps_refl.
  - wp_step. eapply wp_mono; [apply fd_wf_insert; [done|lia]|cbv beta].
    intros [g t1] (-> & Hwf1 & Hn & Hd). wp_step.
    eapply wp_mono; [apply IH; [done|lia|lia]|cbv beta].
    intros [fds t2] Hk. wp_step. eapply keeps_trans; [|exact Hk].
    eapply keeps_insert; [lia|done|done].
  - eapply wp_mono; [apply IH; [by apply fd_wf_seek|by rewrite next_fd_seek..]|cbv beta].
    intros [fds t2] Hk. eapply keeps_trans; [apply keeps_seek|exact Hk].
  - eapply wp_mono; [apply IH; [by apply fd_wf_close|by rewrite next_fd_close..]|cbv beta].
    intros [fds t2] Hk. eapply keeps_trans; [by apply keeps_close|exact Hk].
Qed.
End Calls.

Lemma fd_numbers_fresh_witness :
  wp (@fd_run nat true FdTable_new [OpInsert (RegularFile 7%nat 0); OpClose 3; OpInsert Stdout])
     (λ '(fds, t'), fds = [3; 4] ∧ fd_wf t').
Proof.
  apply (@fd_numbers_fresh nat true FdTable_new
           [OpInsert (RegularFile 7%nat 0); OpClose 3; OpInsert Stdout]);
    [apply fd_wf_new|simpl; lia].
Defined.

Lemma fd_stable_witness :
  wp (@fd_run nat true FdTable_new [OpInsert (RegularFile 7%nat 0); OpClose 3; OpClose 2])
     (λ '(_, t'), keeps 1 FdTable_new t').
Proof.
  apply (@fd_stable nat true FdTable_new
           [OpInsert (RegularFile 7%nat 0); OpClose 3; OpClose 2] 1);
    [apply fd_wf_new|simpl; lia|simpl; lia|].
  repeat constructor; lia.
Defined.
