(* ===== verification/X86.v ===== *)
(** * The processor state and the assembly the kernel contains

    The kernel's assembly fragments ([context_switch] and [user_mode_trampoline] of
    src/src/task/task.rs, [jump_to_user_mode] of src/src/task/usermode.rs and
    [syscall_entry] of src/src/core/syscall.rs) are lists of [instr], run by [exec].  Memory is a
    map of 64-bit words at 8-byte aligned addresses, which is how these
    fragments use their stacks; a load from an address never written, or any
    misaligned access, stops with [OutOfBounds].

    The file also declares what the kernel uses of the [x86_64] crate's
    [VirtAddr], as a type class with the crate's documented behaviour. *)

From S2P Require Import Prelude.

(** ** [x86_64::VirtAddr] *)

(** An address whose bits 48 to 63 repeat bit 47. *)
Definition canonical (a : Z) : Prop := 0 ≤ a < 2 ^ 47 ∨ 2 ^ 64 - 2 ^ 47 ≤ a < 2 ^ 64.

#[global] Instance canonical_dec a : Decision (canonical a).
Proof. unfold canonical. apply _. Defined.

(** [VirtAddr::new] (release 0.14 of the crate) returns a canonical address
    unchanged, extends the sign of an address whose highest set bit is bit 47, and
    panics on any other word. *)
Class VirtAddrNew := virt_new : Z → outcome Z.

Class VirtAddrSpec `{VirtAddrNew} : Prop := {
  virt_new_ok a : canonical a → virt_new a = Ret a;
  virt_new_extends a : 2 ^ 47 ≤ a < 2 ^ 48 → virt_new a = Ret (a + (2 ^ 64 - 2 ^ 48));
  virt_new_panic a : ¬ canonical a → ¬ 2 ^ 47 ≤ a < 2 ^ 48 → virt_new a = Stop Panic;
}.

Lemma wp_virt_new `{VirtAddrSpec} a (Q : Z → Prop) :
  canonical a → Q a → wp (virt_new a) Q.
Proof. intros Ha HQ. by rewrite virt_new_ok. Qed.

(** An instance with the documented behaviour. *)
Definition checked_virt_new : VirtAddrNew :=
  λ a, if decide (canonical a) then Ret a
       else if decide (2 ^ 47 ≤ a < 2 ^ 48) then Ret (a + (2 ^ 64 - 2 ^ 48)) else Stop Panic.

Lemma checked_virt_new_spec : @VirtAddrSpec checked_virt_new.
Proof.
  split; intros a Ha; unfold virt_new, checked_virt_new; [by rewrite decide_True|..].
  - rewrite decide_False, decide_True; [done|done|unfold canonical; lia].
  - intros Hb. by rewrite !decide_False.
Qed.

(** ** Registers and memory *)

Inductive reg := RAX | RBX | RCX | RDX | RSI | RDI | RBP | RSP | R8 | R9 | R10 | R11 | R12 | R13 | R14 | R15.

#[global] Instance reg_eq_dec : EqDecision reg.
Proof. solve_decision. Defined.

Definition regfile := reg → Z.

Definition set_reg (rs : regfile) (r : reg) (v : Z) : regfile :=
  λ r', if decide (r' = r) then v else rs r'.

(** Memory: 64-bit words at aligned addresses. *)
Abbreviation memory := (gmap Z Z).

Definition load (m : memory) (a : Z) : outcome Z :=
  if a mod 8 =? 0 then match m !! a with Some v => Ret v | None => Stop OutOfBounds end
  else Stop OutOfBounds.

Definition store (m : memory) (a v : Z) : outcome memory :=
  if (a mod 8 =? 0) && fits 64 a then Ret (<[a := v]> m) else Stop OutOfBounds.

(** The data segments; [cs] and [ss] are apart because [iretq] loads them. *)
Inductive dataseg := DS | ES | FS | GS.

#[global] Instance dataseg_eq_dec : EqDecision dataseg.
Proof. solve_decision. Defined.

Record cpu := mkCpu {
  regs : regfile;
  rip : Z;
  rflags : Z;
  cs : Z;
  ss : Z;
  segs : dataseg → Z;
  mem : memory;
}.

Definition with_regs (c : cpu) (rs : regfile) : cpu :=
  mkCpu rs (rip c) (rflags c) (cs c) (ss c) (segs c) (mem c).
Definition with_mem (c : cpu) (m : memory) : cpu :=
  mkCpu (regs c) (rip c) (rflags c) (cs c) (ss c) (segs c) m.
Definition with_rip (c : cpu) (v : Z) : cpu :=
  mkCpu (regs c) v (rflags c) (cs c) (ss c) (segs c) (mem c).
Definition with_rflags (c : cpu) (v : Z) : cpu :=
  mkCpu (regs c) (rip c) v (cs c) (ss c) (segs c) (mem c).

(** ** Flags *)

Definition IF_BIT : Z := 9.

(** The RFLAGS bits [popfq] and [iretq] load at privilege level 0 (CF, PF, AF,
    ZF, SF, TF, IF, DF, OF, IOPL, NT, AC, ID); bit 1 reads as one. *)
Definition flags_loaded (v : Z) : Z := Z.lor (Z.land v 0x247FD5) 2.

(** The image [pushfq] stores: VM and RF read as zero. *)
Definition flags_image (v : Z) : Z := Z.land v (unot 64 0x30000).

Definition parity (x : Z) : bool :=
  negb (xorb (xorb (xorb (Z.testbit x 0) (Z.testbit x 1)) (xorb (Z.testbit x 2) (Z.testbit x 3)))
             (xorb (xorb (Z.testbit x 4) (Z.testbit x 5)) (xorb (Z.testbit x 6) (Z.testbit x 7)))).

Definition b2z (b : bool) (k : Z) : Z := if b then Z.shiftl 1 k else 0.

(** [test v, v] and [or]: CF and OF cleared, ZF, SF and PF from the result. *)
Definition flags_logic (fl v : Z) : Z :=
  Z.lor (Z.land fl (unot 64 0x8D5))
        (Z.lor (b2z (v =? 0) 6) (Z.lor (b2z (Z.testbit v 63) 7) (b2z (parity v) 2))).

(** ** Instructions *)

Inductive instr :=
| TestJzErr (r : reg)          (* test r, r; jz to the int3/hlt label *)
| Push (r : reg)
| Pop (r : reg)
| Pushfq
| Popfq
| OrTop (imm : Z)              (* or qword ptr [rsp], imm *)
| MovRsp (r : reg)             (* mov rsp, r *)
| MovReg (r r' : reg)          (* mov r, r' *)
| AndReg (r : reg) (imm : Z)   (* and r, imm *)
| MovToMem (a : Z) (r : reg)   (* mov qword ptr [a], r *)
| MovFromMem (r : reg) (a : Z) (* mov r, qword ptr [a] *)
| PushMem (a : Z)              (* push qword ptr [a] *)
| MovSeg (s : dataseg) (r : reg)  (* mov ds, cx and its siblings: the low 16 bits *)
| RetI
| Iretq.

Section Exec.
Implicit Types c : cpu.

Definition push c (v : Z) : outcome cpu :=
  let sp := wrap 64 (regs c RSP - 8) in
  m <- store (mem c) sp v;;
  Ret (with_mem (with_regs c (set_reg (regs c) RSP sp)) m).

Definition pop c : outcome (Z * cpu) :=
  let sp := regs c RSP in
  v <- load (mem c) sp;;
  Ret (v, with_regs c (set_reg (regs c) RSP (wrap 64 (sp + 8)))).

Definition exec (i : instr) c : outcome cpu :=
  match i with
  | TestJzErr r =>
      if regs c r =? 0 then Stop Panic
      else Ret (with_rflags c (flags_logic (rflags c) (regs c r)))
  | Push r => push c (regs c r)
  | Pop r => let* (v, c) := pop c in Ret (with_regs c (set_reg (regs c) r v))
  | Pushfq => push c (flags_image (rflags c))
  | Popfq => let* (v, c) := pop c in Ret (with_rflags c (flags_loaded v))
  | OrTop imm =>
      v <- load (mem c) (regs c RSP);;
      m <- store (mem c) (regs c RSP) (Z.lor v imm);;
      Ret (with_rflags (with_mem c m) (flags_logic (rflags c) (Z.lor v imm)))
  | MovRsp r => Ret (with_regs c (set_reg (regs c) RSP (regs c r)))
  | MovReg r r' => Ret (with_regs c (set_reg (regs c) r (regs c r')))
  | AndReg r imm =>
      let v := Z.land (regs c r) imm in
      Ret (with_rflags (with_regs c (set_reg (regs c) r v)) (flags_logic (rflags c) v))
  | MovToMem a r => m <- store (mem c) a (regs c r);; Ret (with_mem c m)
  | MovFromMem r a => v <- load (mem c) a;; Ret (with_regs c (set_reg (regs c) r v))
  | PushMem a => v <- load (mem c) a;; push c v
  | MovSeg s r =>
      Ret (mkCpu (regs c) (rip c) (rflags c) (cs c) (ss c)
             (λ s', if decide (s' = s) then wrap 16 (regs c r) else segs c s') (mem c))
  | RetI => let* (v, c) := pop c in Ret (with_rip c v)
  | Iretq =>
      let* (new_rip, c) := pop c in
      let* (new_cs, c) := pop c in
      let* (new_fl, c) := pop c in
      let* (new_rsp, c) := pop c in
      let* (new_ss, c) := pop c in
      Ret (mkCpu (set_reg (regs c) RSP new_rsp) new_rip (flags_loaded new_fl)
             new_cs new_ss (segs c) (mem c))
  end.

Fixpoint run_code (l : list instr) c : outcome cpu :=
  match l with
  | [] => Ret c
  | i :: l' => c' <- exec i c;; run_code l' c'
  end.

Lemma run_code_app l1 l2 c :
  run_code (l1 ++ l2) c = obind (run_code l1 c) (run_code l2).
Proof.
  revert c. induction l1 as [|i l1 IH]; intros c; simpl; [done|].
  destruct (exec i c); simpl; [apply IH|done].
Qed.
End Exec.

(** ** Memory lemmas *)

Section Memory.
Implicit Types m : memory.

Lemma load_ok m a v : a mod 8 = 0 → m !! a = Some v → load m a = Ret v.
Proof. intros Ha Hv. unfold load. by rewrite Ha, Hv. Qed.

Lemma store_ok m a v : a mod 8 = 0 → 0 ≤ a < 2 ^ 64 → store m a v = Ret (<[a := v]> m).
Proof.
  intros Ha Hr. unfold store, fits. rewrite Ha.
  by rewrite (proj2 (Z.leb_le _ _)), (proj2 (Z.ltb_lt _ _)) by lia.
Qed.

Lemma set_reg_eq rs r v : set_reg rs r v r = v.
Proof. unfold set_reg. by rewrite decide_True. Qed.

Lemma set_reg_ne rs r r' v : r' ≠ r → set_reg rs r v r' = rs r'.
Proof. intros. unfold set_reg. by rewrite decide_False. Qed.

Lemma push_ok c sp v : regs c RSP = sp → sp mod 8 = 0 → 8 ≤ sp < 2 ^ 64 →
  push c v = Ret (with_mem (with_regs c (set_reg (regs c) RSP (sp - 8))) (<[sp - 8 := v]> (mem c))).
Proof.
  intros <- Ha Hr. unfold push, wrap. rewrite Z.mod_small by lia.
  rewrite store_ok by zlia. done.
Qed.

Lemma pop_ok c sp v : regs c RSP = sp → sp mod 8 = 0 → 0 ≤ sp < 2 ^ 64 - 8 →
  mem c !! sp = Some v →
  pop c = Ret (v, with_regs c (set_reg (regs c) RSP (sp + 8))).
Proof.
  intros <- Ha Hr Hm. unfold pop, wrap. rewrite (load_ok _ _ v) by done. cbn [obind].
  rewrite Z.mod_small by lia. done.
Qed.
End Memory.

(** [words m a l]: the words of [l] lie in memory from address [a] upwards. *)
Fixpoint words (m : memory) (a : Z) (l : list Z) : Prop :=
  match l with
  | [] => True
  | v :: l' => m !! a = Some v ∧ words m (a + 8) l'
  end.

(** The memories agree on the addresses of [lo, hi). *)
Definition agree (lo hi : Z) (m m' : memory) : Prop := ∀ a, lo ≤ a < hi → m !! a = m' !! a.

Lemma words_agree m m' a l : agree a (a + 8 * Z.of_nat (length l)) m m' →
  words m a l → words m' a l.
Proof.
  revert a. induction l as [|v l IH]; intros a Hag Hw; simpl in *; [done|].
  destruct Hw as [Hv Hw]. split; [rewrite <- Hag by lia; done|].
  apply IH; [|done]. intros b Hb. apply Hag. lia.
Qed.

Lemma agree_insert lo hi m a v : ¬ lo ≤ a < hi → agree lo hi m (<[a := v]> m).
Proof. intros Ha b Hb. rewrite lookup_insert_ne; [done|]. lia. Qed.

Lemma agree_trans lo hi m1 m2 m3 : agree lo hi m1 m2 → agree lo hi m2 m3 → agree lo hi m1 m3.
Proof. intros H12 H23 a Ha. rewrite H12, H23 by done. done. Qed.
