(* ===== verification/Task.v ===== *)
(** * Tasks and the context switch (src/src/task/task.rs, src/src/task/usermode.rs)

    [Task_new] builds the kernel stack of a new task by writing an initial frame
    through raw pointers; [context_switch] and the [iretq] trampoline consume
    it.  The theorems run the assembly of X86.v on the frame [Task_new] leaves
    in memory, and show that a task that is switched out and in again resumes
    with its registers. *)

From S2P Require Import Prelude KError Fd X86.

(** ** Data *)

Inductive PrivilegeLevel := KernelMode | UserMode.

#[global] Instance PrivilegeLevel_eq_dec : EqDecision PrivilegeLevel.
Proof. solve_decision. Defined.

(** [TaskId] is its 64-bit number.  The kernel stack [_stack] is the range
    [stack_start, stack_end) of memory. *)
Record Task {V : Type} := mkTask {
  id : Z;
  parent_id : option Z;
  rsp : Z;
  pml4_frame : Z;
  stack_start : Z;
  stack_end : Z;
  privilege : PrivilegeLevel;
  heap_start : Z;
  program_break : Z;
  mmap_base : Z;
  fd_table : FdTable V;
}.
Arguments Task : clear implicits.

Record TaskContext := mkContext {
  c_rflags : Z;
  c_rbp : Z;
  c_rbx : Z;
  c_r12 : Z;
  c_r13 : Z;
  c_r14 : Z;
  c_r15 : Z;
}.

(** [#[repr(C)]]: the fields in declaration order, one word each. *)
Definition context_words (x : TaskContext) : list Z :=
  [c_rflags x; c_rbp x; c_rbx x; c_r12 x; c_r13 x; c_r14 x; c_r15 x].

Definition context_size : Z := 8 * 7.

(** The segment selectors the GDT hands out (src/src/core/gdt.rs). *)
Record Selectors := mkSelectors {
  kernel_code_selector : Z;
  kernel_data_selector : Z;
  user_code_selector : Z;
  user_data_selector : Z;
  tss_selector : Z;
}.

(** [TaskId::new]: the id and the next value of the atomic counter
    ([fetch_add] wraps around in every profile). *)
Definition TaskId_new (next : Z) : Z * Z := (next, wrap 64 (next + 1)).

(** ** Building a task *)

(** Successive word writes of a struct through [core::ptr::write]. *)
Fixpoint store_words (m : memory) (a : Z) (l : list Z) : outcome memory :=
  match l with
  | [] => Ret m
  | v :: l' => m' <- store m a v;; store_words m' (a + 8) l'
  end.

Section New.
Context {V : Type} `{Profile}.

(** [rsp -= 8; *(rsp as *mut u64) = v] *)
Definition push_word (st : Z * memory) (v : Z) : outcome (Z * memory) :=
  let '(sp, m) := st in
  sp' <- usub 64 sp 8;;
  m' <- store m sp' v;;
  Ret (sp', m').

Definition STACK_SIZE : Z := 65536.
Definition CANARY : Z := 0xDEADC0DEDEADC0DE.

Definition frame_words (sel : Selectors) (trampoline entry_point : Z)
    (priv : PrivilegeLevel) (user_stack_top : Z) : list Z :=
  match priv with
  | UserMode =>
      [Z.lor (user_data_selector sel) 3; user_stack_top; 0x202;
       Z.lor (user_code_selector sel) 3; entry_point; trampoline]
  | KernelMode => [CANARY; entry_point]
  end.

(** The initial frame, pushed from the aligned top of the stack. *)
Definition build_stack (sel : Selectors) (trampoline entry_point : Z)
    (priv : PrivilegeLevel) (user_stack_top stack_top : Z) (m : memory) : outcome (Z * memory) :=
  let rsp0 := Z.land stack_top (unot 64 0xF) in
  let* (sp, m) := mfold push_word (rsp0, m)
                    (frame_words sel trampoline entry_point priv user_stack_top) in
  sp <- usub 64 sp context_size;;
  m <- store_words m sp (context_words (mkContext 0x202 0 0 0 0 0 0));;
  Ret (sp, m).

(** [Task::new]: [stack] is the heap's answer to the stack reservation,
    [trampoline] the address of [user_mode_trampoline].  Returns the counter of
    task ids, the memory and the result.  The zeros [resize] fills the stack with
    are left out: [memory] holds the words that were stored, and nothing reads a
    word of a stack it has not stored. *)
Definition Task_new (sel : Selectors) (trampoline : Z) (entry_point pml4 : Z)
    (priv : PrivilegeLevel) (user_stack_top : Z) (parent : option Z)
    (stack : option Z) (next : Z) (m : memory)
    : outcome (Z * memory * result (Task V) KernelError) :=
  let '(tid, next) := TaskId_new next in
  match stack with
  | None => Ret (next, m, Err (TaskE StackAllocation))
  | Some start =>
      stack_top <- uadd 64 start STACK_SIZE;;
      let* (sp, m) := build_stack sel trampoline entry_point priv user_stack_top stack_top m in
      let heap := 0x200000000 in
      Ret (next, m,
           Ok (mkTask V tid parent sp pml4 start stack_top priv heap heap 0x400000000000 FdTable_new))
  end.

Definition is_valid_rsp (t : Task V) (sp : Z) : bool :=
  (stack_start t <=? sp) && (sp <? stack_end t).
End New.

(** ** The assembly fragments *)

Definition save_code : list instr :=
  [TestJzErr RDI; TestJzErr RSI;
   Push R15; Push R14; Push R13; Push R12; Push RBX; Push RBP; Pushfq; OrTop 0x200].

Definition restore_code : list instr :=
  [Popfq; Pop RBP; Pop RBX; Pop R12; Pop R13; Pop R14; Pop R15; RetI].

(** [context_switch(old_rsp, new_rsp)]: the value written through [old_rsp] and
    the processor after the [ret].  [old_rsp] points outside the stacks, to
    the [rsp] field of a task or to [BOOT_RSP]. *)
Definition context_switch (old_rsp new_rsp : Z) (c : cpu) : outcome (Z * cpu) :=
  c <- run_code save_code (with_regs c (set_reg (set_reg (regs c) RDI old_rsp) RSI new_rsp));;
  let saved := regs c RSP in
  c <- run_code (MovRsp RSI :: restore_code) c;;
  Ret (saved, c).

Definition user_mode_trampoline : list instr := [Iretq].

(** [jump_to_user_mode]: the operands bound by the [asm!] block, then its
    instructions. *)
Definition jump_to_user_mode (sel : Selectors) (entry_point user_stack : Z) (c : cpu) : outcome cpu :=
  let user_data := Z.lor (user_data_selector sel) 3 in
  let user_code := Z.lor (user_code_selector sel) 3 in
  let rs := set_reg (set_reg (set_reg (set_reg (set_reg (regs c) RCX user_data)
              RSI user_stack) RDX 0x202) R8 user_code) R9 entry_point in
  run_code [MovSeg DS RCX; MovSeg ES RCX; MovSeg FS RCX; MovSeg GS RCX;
            Push RCX; Push RSI; Push RDX; Push R8; Push R9; Iretq] (with_regs c rs).

(** ** Running the fragments *)

Ltac cpu_simpl :=
  cbn [regs mem rip rflags cs ss segs with_regs with_mem with_rip with_rflags];
  repeat first [rewrite set_reg_eq | rewrite set_reg_ne by done].

Ltac mem_simpl :=
  repeat first [rewrite lookup_insert_eq | rewrite lookup_insert_ne by lia].

Ltac exec_step :=
  cbn [run_code exec];
  lazymatch goal with
  | |- context [push ?c ?v] =>
      erewrite (push_ok c _ v) by (cpu_simpl; [reflexivity|zlia|lia]); cbn [obind]
  | |- context [pop ?c] =>
      erewrite (pop_ok c) by (cpu_simpl; [reflexivity|zlia|lia|mem_simpl; eassumption]);
      cbn [obind]
  end; cpu_simpl.

Section Switch.
Implicit Types c : cpu.

(** The registers [context_switch] preserves. *)
Definition callee_saved : list reg := [RBP; RBX; R12; R13; R14; R15].

(** The words [save_code] leaves above the flags. *)
Definition saved_words c : list Z := map (regs c) callee_saved.

(** What [save_code] does on the outgoing stack. *)
Record saved c c' (sp : Z) : Prop := {
  saved_rsp : regs c' RSP = sp - 56;
  saved_regs : ∀ r, r ≠ RSP → regs c' r = regs c r;
  saved_flags : ∃ fl, mem c' !! (sp - 56) = Some fl ∧ Z.testbit fl IF_BIT = true;
  saved_frame : words (mem c') (sp - 48) (saved_words c);
  saved_mem : ∀ a, ¬ sp - 56 ≤ a < sp → mem c' !! a = mem c !! a;
  saved_cs : cs c' = cs c;
  saved_ss : ss c' = ss c;
}.

Lemma save_code_spec c sp : regs c RSP = sp → sp mod 8 = 0 → 56 ≤ sp < 2 ^ 64 →
  regs c RDI ≠ 0 → regs c RSI ≠ 0 →
  wp (run_code save_code c) (λ c', saved c c' sp).
Proof.
  intros Hsp Ha Hr Hrdi Hrsi. unfold save_code. cbn [run_code exec].
  rewrite (proj2 (Z.eqb_neq _ _) Hrdi). cbn [obind]. cpu_simpl.
  rewrite (proj2 (Z.eqb_neq _ _) Hrsi). cbn [obind]. cpu_simpl.
  do 7 (erewrite push_ok; [|cpu_simpl; first [exact Hsp|reflexivity]|zlia|lia]; cbn [obind]; cpu_simpl).
  erewrite load_ok; [|zlia|mem_simpl; reflexivity]. cbn [obind].
  erewrite store_ok; [|zlia|lia]. cbn [obind]. cpu_simpl.
  apply wp_ret. split; cpu_simpl; try done; try lia.
  - intros r Hne. by repeat rewrite set_reg_ne by done.
  - eexists. split.
    + replace (sp - 56) with (sp - 8 - 8 - 8 - 8 - 8 - 8 - 8) by lia. by rewrite lookup_insert_eq.
    + rewrite Z.lor_spec. apply orb_true_r.
  - unfold saved_words, callee_saved. cbn [words map]. mem_simpl.
    split_and!; try done;
      repeat (rewrite lookup_insert; case_decide; [done || lia|]); exfalso; lia.
  - intros a Hna. by mem_simpl.
Qed.

(** What the restoring half does with a frame [fl, regs..., ret] at [sp]. *)
Record resumed c c' (sp fl : Z) (ws : list Z) (ret : Z) : Prop := {
  resumed_rsp : regs c' RSP = sp + 64;
  resumed_rip : rip c' = ret;
  resumed_flags : rflags c' = flags_loaded fl;
  resumed_regs : saved_words c' = ws;
  resumed_mem : mem c' = mem c;
  resumed_cs : cs c' = cs c;
  resumed_ss : ss c' = ss c;
}.

Lemma restore_code_spec c sp fl ws ret :
  regs c RSI = sp → sp mod 8 = 0 → 0 ≤ sp < 2 ^ 64 - 64 → length ws = 6%nat →
  words (mem c) sp (fl :: ws ++ [ret]) →
  wp (run_code (MovRsp RSI :: restore_code) c) (λ c', resumed c c' sp fl ws ret).
Proof.
  intros Hsp Ha Hr Hlen Hw.
  destruct ws as [|w1 [|w2 [|w3 [|w4 [|w5 [|w6 [|]]]]]]]; try done. clear Hlen.
  cbn [words app] in Hw. destruct Hw as (H0 & H1 & H2 & H3 & H4 & H5 & H6 & H7 & _).
  unfold restore_code. cbn [run_code exec]. cpu_simpl. cbn [obind]. cpu_simpl.
  do 8 (erewrite pop_ok; [|cpu_simpl; first [exact Hsp|reflexivity]|zlia|lia|cpu_simpl; eassumption];
        cbn [obind]; cpu_simpl).
  apply wp_ret. split; cpu_simpl; try done; try lia.
Qed.

(** The switch as a whole: the outgoing half on the stack at [sp], the incoming
    half on the frame at [new_rsp], which the outgoing half does not touch. *)
Lemma context_switch_spec c old new_rsp sp fl ws ret :
  regs c RSP = sp → sp mod 8 = 0 → 56 ≤ sp < 2 ^ 64 → old ≠ 0 →
  new_rsp mod 8 = 0 → 0 < new_rsp < 2 ^ 64 - 64 → length ws = 6%nat →
  words (mem c) new_rsp (fl :: ws ++ [ret]) →
  (new_rsp + 64 ≤ sp - 56 ∨ sp ≤ new_rsp) →
  wp (context_switch old new_rsp c) (λ '(out, c'),
    out = sp - 56
    ∧ (∃ fl', mem c' !! out = Some fl' ∧ Z.testbit fl' IF_BIT = true)
    ∧ words (mem c') (out + 8) (saved_words c)
    ∧ (∀ a, ¬ out ≤ a < sp → mem c' !! a = mem c !! a)
    ∧ regs c' RSP = new_rsp + 64 ∧ rip c' = ret ∧ rflags c' = flags_loaded fl
    ∧ saved_words c' = ws ∧ cs c' = cs c ∧ ss c' = ss c).
Proof.
  intros Hsp Ha Hr Hold Hna Hnr Hlen Hw Hdisj. unfold context_switch.
  set (c0 := with_regs c _).
  assert (∀ r, r ≠ RDI → r ≠ RSI → regs c0 r = regs c r) as Hc0.
  { intros r ? ?. unfold c0. by cpu_simpl. }
  assert (saved_words c0 = saved_words c) as Hsw.
  { unfold saved_words, callee_saved. cbn [map]. by rewrite !Hc0. }
  wp_step. eapply wp_mono; [apply (save_code_spec c0 sp)|cbv beta].
  { by rewrite Hc0. } { done. } { done. } { done. } { unfold c0. cpu_simpl. lia. }
  intros c1 Hs. rewrite (saved_rsp _ _ _ Hs). wp_step.
  eapply wp_mono; [apply (restore_code_spec c1 new_rsp fl ws ret)|cbv beta]; try done; [|lia|..].
  { rewrite (saved_regs _ _ _ Hs) by done. unfold c0. by cpu_simpl. }
  { eapply words_agree; [|exact Hw]. intros a Hb. symmetry. apply (saved_mem _ _ _ Hs).
    cbn [length] in Hb. rewrite length_app, Hlen in Hb. simpl in Hb. lia. }
  intros c2 Hre. wp_step. rewrite (resumed_mem _ _ _ _ _ _ Hre).
  split_and!; try apply Hre.
  - lia.
  - apply (saved_flags _ _ _ Hs).
  - replace (sp - 56 + 8) with (sp - 48) by lia. rewrite <- Hsw. apply (saved_frame _ _ _ Hs).
  - apply (saved_mem _ _ _ Hs).
  - rewrite (resumed_cs _ _ _ _ _ _ Hre). apply (saved_cs _ _ _ Hs).
  - rewrite (resumed_ss _ _ _ _ _ _ Hre). apply (saved_ss _ _ _ Hs).
Qed.
End Switch.

(** ** The initial stack *)

Lemma words_app m a l1 l2 :
  words m a (l1 ++ l2) ↔ words m a l1 ∧ words m (a + 8 * Z.of_nat (length l1)) l2.
Proof.
  revert a. induction l1 as [|v l1 IH]; intros a; simpl.
  { rewrite Z.add_0_r. tauto. }
  rewrite IH. replace (a + 8 + 8 * Z.of_nat (length l1)) with (a + 8 * Z.of_nat (S (length l1))) by lia.
  tauto.
Qed.

Section InitialStack.
Context {V : Type} `{Profile}.
Implicit Types (m : memory) (l : list Z).

Lemma push_words_spec l m sp : sp mod 8 = 0 → 8 * Z.of_nat (length l) ≤ sp < 2 ^ 64 →
  wp (mfold push_word (sp, m) l) (λ '(sp', m'),
    sp' = sp - 8 * Z.of_nat (length l) ∧ words m' sp' (rev l)
    ∧ ∀ a, ¬ sp' ≤ a < sp → m' !! a = m !! a).
Proof.
  revert m sp. induction l as [|v l IH]; intros m sp Ha Hr; cbn [mfold].
  { wp_step. split_and!; [simpl; lia|done|done]. }
  cbn [length] in Hr. wp_step. unfold push_word at 1. wp_step. wp_step.
  wp_step. eapply wp_of_eq; [apply store_ok; [zlia|lia]|]. wp_step.
  eapply wp_mono; [apply IH; [zlia|lia]|cbv beta].
  intros [sp' m'] (-> & Hw & Hout). cbn [length]. split_and!; [lia| |].
  - cbn [rev]. apply words_app. split; [done|]. rewrite length_rev. cbn [words].
    replace (sp - 8 - 8 * Z.of_nat (length l) + 8 * Z.of_nat (length l)) with (sp - 8) by lia.
    rewrite Hout by lia. by rewrite lookup_insert_eq.
  - intros a Hna. rewrite Hout by lia. by rewrite lookup_insert_ne by lia.
Qed.

Lemma store_words_spec l m sp : sp mod 8 = 0 → 0 ≤ sp → sp + 8 * Z.of_nat (length l) < 2 ^ 64 →
  wp (store_words m sp l) (λ m',
    words m' sp l ∧ ∀ a, ¬ sp ≤ a < sp + 8 * Z.of_nat (length l) → m' !! a = m !! a).
Proof.
  revert m sp. induction l as [|v l IH]; intros m sp Ha Hlo Hhi; cbn [store_words]; [done|].
  cbn [length] in Hhi. wp_step. eapply wp_of_eq; [apply store_ok; [done|lia]|].
  eapply wp_mono; [apply IH; [zlia|lia|lia]|cbv beta]. intros m' [Hw Hout].
  cbn [length words]. split_and!; [|done|].
  - rewrite Hout by lia. by rewrite lookup_insert_eq.
  - intros a Hna. rewrite Hout by lia. by rewrite lookup_insert_ne by lia.
Qed.

(** The words of a fresh kernel stack, lowest address first. *)
Definition initial_words (sel : Selectors) (tramp entry : Z) (priv : PrivilegeLevel) (ust : Z) : list Z :=
  [0x202; 0; 0; 0; 0; 0; 0] ++ rev (frame_words sel tramp entry priv ust).

Lemma build_stack_spec sel tramp entry priv ust top m : 4096 ≤ top < 2 ^ 64 →
  wp (build_stack sel tramp entry priv ust top m) (λ '(sp, m'),
    sp = top - top mod 16 - 8 * Z.of_nat (length (initial_words sel tramp entry priv ust))
    ∧ words m' sp (initial_words sel tramp entry priv ust)
    ∧ ∀ a, ¬ sp ≤ a < top → m' !! a = m !! a).
Proof.
  intros Htop. unfold build_stack. change 15 with (Z.ones 4).
  rewrite land_unot_ones by lia. change (2 ^ 4) with 16.
  assert (length (frame_words sel tramp entry priv ust) ≤ 6)%nat by (destruct priv; simpl; lia).
  unfold initial_words. rewrite length_app, length_rev. cbn [length].
  wp_step. eapply wp_mono; [apply push_words_spec; zlia|cbv beta].
  intros [sp m1] (-> & Hw & Hout). unfold context_size. wp_step.
  apply wp_checked; [zlia|]. wp_step.
  eapply wp_mono; [apply store_words_spec; cbn [length context_words]; zlia|cbv beta].
  intros m2 [Hw2 Hout2]. cbn [length context_words] in *. wp_step. split_and!; [lia| |].
  - apply words_app. split; [exact Hw2|]. cbn [length].
    eapply words_agree; [|].
    2: { replace (_ - 8 * 7 + _) with (top - top mod 16 - 8 * Z.of_nat (length (frame_words sel tramp entry priv ust)))
           by lia. exact Hw. }
    intros a Ha. symmetry. apply Hout2. lia.
  - intros a Hna. rewrite Hout2, Hout by zlia. done.
Qed.

(** What [Task_new] returns on a granted stack. *)
Lemma Task_new_spec sel tramp entry pml4 priv ust parent start next m :
  0 ≤ start → start + STACK_SIZE < 2 ^ 64 →
  wp (@Task_new V _ sel tramp entry pml4 priv ust parent (Some start) next m) (λ '(next', m', r),
    ∃ t, r = Ok t ∧ next' = wrap 64 (next + 1) ∧ id t = next ∧ parent_id t = parent
      ∧ pml4_frame t = pml4 ∧ privilege t = priv
      ∧ stack_start t = start ∧ stack_end t = start + STACK_SIZE
      ∧ rsp t = stack_end t - stack_end t mod 16
                - 8 * Z.of_nat (length (initial_words sel tramp entry priv ust))
      ∧ words m' (rsp t) (initial_words sel tramp entry priv ust)
      ∧ ∀ a, ¬ start ≤ a < start + STACK_SIZE → m' !! a = m !! a).
Proof.
  intros Hs Hr. unfold Task_new, TaskId_new. unfold STACK_SIZE in *. wp_step. wp_step. wp_step.
  eapply wp_mono; [apply build_stack_spec; lia|cbv beta].
  intros [sp m'] (-> & Hw & Hout). wp_step. eexists. split_and!; try done.
  intros a Hna. apply Hout. unfold initial_words. rewrite length_app, length_rev.
  assert (length (frame_words sel tramp entry priv ust) ≤ 6)%nat by (destruct priv; simpl; lia).
  cbn [length]. zlia.
Qed.
End InitialStack.

(** ** Theorems *)

(** [iretq] on a frame RIP, CS, RFLAGS, RSP, SS. *)
Lemma iretq_spec c sp r k f s x : regs c RSP = sp → sp mod 8 = 0 → 0 ≤ sp < 2 ^ 64 - 40 →
  words (mem c) sp [r; k; f; s; x] →
  wp (run_code user_mode_trampoline c) (λ u,
    rip u = r ∧ cs u = k ∧ rflags u = flags_loaded f ∧ regs u RSP = s ∧ ss u = x
    ∧ saved_words u = saved_words c ∧ segs u = segs c ∧ mem u = mem c).
Proof.
  intros Hsp Ha Hr (H0 & H1 & H2 & H3 & H4 & _).
  unfold user_mode_trampoline. cbn [run_code exec].
  do 5 (erewrite pop_ok; [|cpu_simpl; first [exact Hsp|reflexivity]|zlia|lia|cpu_simpl; eassumption];
        cbn [obind]; cpu_simpl).
  apply wp_ret. split_and!; cpu_simpl; try done.
Qed.

(** The state in which a new task starts, [c'] being the processor after the
    switch to it. *)
Definition starts {V} (sel : Selectors) (tramp entry ust : Z) (t : Task V) (c' : cpu) : Prop :=
  saved_words c' = replicate 6 0 ∧ rflags c' = 0x202 ∧
  match privilege t with
  | KernelMode =>
      rip c' = entry ∧ (regs c' RSP + 8) mod 16 = 0
      ∧ is_valid_rsp t (regs c' RSP) = true ∧ mem c' !! regs c' RSP = Some CANARY
  | UserMode =>
      rip c' = tramp ∧
      wp (run_code user_mode_trampoline c') (λ u,
        rip u = entry ∧ regs u RSP = ust ∧ rflags u = 0x202 ∧ saved_words u = replicate 6 0
        ∧ cs u = Z.lor (user_code_selector sel) 3 ∧ ss u = Z.lor (user_data_selector sel) 3)
  end.

Section TaskTheorems.
Context {V : Type} `{Profile}.

(** A task built by [Task::new] on a granted stack has a saved stack pointer
    inside its stack, and the first [context_switch] to it, from a processor
    whose own stack lies elsewhere, starts it as intended.  The callee-saved
    registers are zero and interrupts are enabled; a kernel task begins at its
    entry point with the stack alignment of the System V ABI and the canary as
    its return address; a user task goes through the [iretq] trampoline to its
    entry point in ring 3, on the user stack. *)
Theorem Task_new_enters sel tramp entry pml4 priv ust parent start next m c old :
  0 ≤ start → start + STACK_SIZE < 2 ^ 64 - 64 → old ≠ 0 →
  regs c RSP mod 8 = 0 → 56 ≤ regs c RSP < 2 ^ 64 →
  regs c RSP ≤ start ∨ start + STACK_SIZE ≤ regs c RSP - 56 →
  wp (@Task_new V _ sel tramp entry pml4 priv ust parent (Some start) next m) (λ '(_, m', r),
    ∃ t, r = Ok t ∧ privilege t = priv ∧ is_valid_rsp t (rsp t) = true
      ∧ wp (context_switch old (rsp t) (with_mem c m')) (λ '(_, c'), starts sel tramp entry ust t c')).
Proof.
  intros Hs Hr Hold Ha Hc Hdisj.
  eapply wp_mono; [apply Task_new_spec; lia|cbv beta]. intros [[next' m'] r].
  intros (t & -> & _ & _ & _ & _ & Hpriv & Hss & Hse & Hsp & Hw & _).
  exists t. unfold starts, is_valid_rsp. unfold STACK_SIZE in *. rewrite Hss, Hse in *.
  assert (start + 65536 - 104 - 15 ≤ rsp t
          ∧ rsp t + (match priv with KernelMode => 72 | UserMode => 104 end) ≤ start + 65536
          ∧ rsp t mod 8 = 0) as (Hb & Hb' & Hal).
  { rewrite Hsp. destruct priv; cbn [initial_words frame_words app rev length]; zlia. }
  split_and!; [done|done|destruct priv; lia|].
  eapply wp_mono.
  - apply (context_switch_spec _ old (rsp t) (regs c RSP) 0x202 (replicate 6 0)
             (match priv with KernelMode => entry | UserMode => tramp end)); try done; try (destruct priv; lia).
    destruct priv; cbn [initial_words frame_words app rev words replicate] in *; tauto.
  - intros [out c'] (Hout & _ & _ & Hmem & Hrsp & Hrip & Hfl & Hregs & _ & _).
    split_and!; [done|done|]. rewrite Hpriv. destruct priv.
    + cbn [initial_words frame_words app rev length words] in *. rewrite Hrsp.
      split_and!; [done|zlia|lia|]. rewrite Hmem by lia. simpl. destruct_and! Hw.
      by replace (rsp t + 64) with (rsp t + 8 + 8 + 8 + 8 + 8 + 8 + 8 + 8) by lia.
    + split; [done|]. cbn [initial_words frame_words app rev length] in *.
      eapply wp_mono; [apply (iretq_spec c' (rsp t + 64)); [done|zlia|lia|]|cbv beta].
      { eapply words_agree; [intros a Hra; symmetry; apply Hmem; simpl in Hra; lia|].
        simpl mem. cbn [words] in *. destruct_and! Hw.
        replace (rsp t + 64) with (rsp t + 8 + 8 + 8 + 8 + 8 + 8 + 8 + 8) by lia. done. }
      intros u (? & ? & Hf & ? & ? & Hsw & _). rewrite Hsw. done.
Qed.

(** C21: a context switch is transparent to the task that is switched out.
    Whatever runs in between, as long as it leaves the words of the outgoing
    stack alone, switching back to the saved pointer returns from the original
    call: same return address, stack pointer and callee-saved registers, with
    interrupts enabled. *)
Theorem context_switch_resumes c old new_rsp fl ws ret0 ret :
  regs c RSP mod 8 = 0 → 56 < regs c RSP < 2 ^ 64 - 8 → mem c !! regs c RSP = Some ret → old ≠ 0 →
  new_rsp mod 8 = 0 → 0 < new_rsp < 2 ^ 64 - 64 → length ws = 6%nat →
  words (mem c) new_rsp (fl :: ws ++ [ret0]) →
  new_rsp + 64 ≤ regs c RSP - 56 ∨ regs c RSP ≤ new_rsp →
  wp (context_switch old new_rsp c) (λ '(out, c'),
    rip c' = ret0 ∧ saved_words c' = ws
    ∧ ∀ d old', regs d RSP mod 8 = 0 → 56 ≤ regs d RSP < 2 ^ 64 → old' ≠ 0 →
       regs c RSP + 8 ≤ regs d RSP - 56 ∨ regs d RSP ≤ regs c RSP - 56 →
       agree out (regs c RSP + 8) (mem c') (mem d) →
       wp (context_switch old' out d) (λ '(_, d'),
         rip d' = ret ∧ regs d' RSP = regs c RSP + 8 ∧ saved_words d' = saved_words c
         ∧ Z.testbit (rflags d') IF_BIT = true)).
Proof.
  intros Ha Hr Hret Hold Hna Hnr Hlen Hw Hdisj.
  eapply wp_mono; [by apply (context_switch_spec c old new_rsp (regs c RSP) fl ws ret0); try lia|cbv beta].
  intros [out c'] (-> & (fl' & Hfl & HIF) & Hsw & Hmem & _ & Hrip & _ & Hws & _).
  split_and!; [done|done|]. intros d old' Hda Hdr Hold' Hddisj Hag.
  eapply wp_mono.
  - apply (context_switch_spec d old' (regs c RSP - 56) (regs d RSP) fl' (saved_words c) ret);
      try done; try lia; [zlia|].
    eapply words_agree.
    { cbn [length]. rewrite length_app. unfold saved_words at 1, callee_saved. cbn [length map].
      intros a Hb. apply Hag. simpl in Hb. lia. }
    cbn [words]. split; [done|]. apply words_app. split; [done|]. cbn [words].
    split; [|done]. unfold saved_words, callee_saved. cbn [length map].
    replace (_ - 56 + 8 + _) with (regs c RSP) by lia. by rewrite Hmem by lia.
  - intros [out' d'] (_ & _ & _ & _ & Hrsp & Hrip' & Hfl' & Hregs & _).
    split_and!; [done|lia|done|]. rewrite Hfl'. unfold flags_loaded, IF_BIT in *.
    by rewrite Z.lor_spec, Z.land_spec, HIF.
Qed.
End TaskTheorems.

(** [jump_to_user_mode] reaches ring 3 at the entry point, on the user
    stack, with interrupts enabled and with the user data selector in every
    data segment. *)
Theorem jump_to_user_mode_enters sel entry ust c :
  regs c RSP mod 8 = 0 → 40 ≤ regs c RSP < 2 ^ 64 - 40 →
  0 ≤ user_data_selector sel < 2 ^ 16 →
  wp (jump_to_user_mode sel entry ust c) (λ u,
    rip u = entry ∧ regs u RSP = ust ∧ rflags u = 0x202
    ∧ cs u = Z.lor (user_code_selector sel) 3 ∧ ss u = Z.lor (user_data_selector sel) 3
    ∧ ∀ s, segs u s = Z.lor (user_data_selector sel) 3).
Proof.
  intros Ha Hr Hsel. unfold jump_to_user_mode. cbn [run_code exec obind]. cpu_simpl.
  do 5 (erewrite push_ok; [|cpu_simpl; reflexivity|zlia|lia]; cbn [obind]; cpu_simpl).
  change (obind (exec Iretq ?c) (run_code [])) with (run_code user_mode_trampoline c).
  match goal with |- wp ?e _ => set (r := e) end.
  assert (∃ u, r = run_code user_mode_trampoline u
     ∧ words (mem u) (regs c RSP - 40) [entry; Z.lor (user_code_selector sel) 3; 0x202; ust;
                                         Z.lor (user_data_selector sel) 3]
     ∧ regs u RSP = regs c RSP - 40
     ∧ ∀ s, segs u s = Z.lor (user_data_selector sel) 3) as (u & -> & Hw & Hsp & Hseg).
  { eexists. split; [reflexivity|]. cpu_simpl. split_and!; [|lia|].
    - cbn [words]. split_and!; try done;
        repeat (rewrite lookup_insert; case_decide; [done || lia|]); exfalso; lia.
    - intros s. assert (wrap 16 (Z.lor (user_data_selector sel) 3) = Z.lor (user_data_selector sel) 3) as ->.
      { apply Z.mod_small, lor_range; lia. }
      by destruct s. }
  eapply wp_mono; [apply (iretq_spec u (regs c RSP - 40)); try done; [zlia|lia]|cbv beta].
  intros v (? & ? & ? & ? & ? & _ & Hs & _). rewrite Hs. done.
Qed.

(** A processor whose stack is at 1 MiB. *)
Definition sample_cpu (sp : Z) (m : memory) : cpu :=
  mkCpu (set_reg (λ _, 7) RSP sp) 0 0x202 8 16 (λ _, 16) m.
Definition sample_selectors : Selectors := mkSelectors 0x08 0x10 0x20 0x18 0x28.

Lemma Task_new_enters_witness :
  wp (@Task_new unit true sample_selectors 0x5000 0x400000 0x9000 UserMode 0x801000 (Some 1)
        (Some 0x20008) 2 ∅) (λ '(_, m', r),
    ∃ t, r = Ok t ∧ privilege t = UserMode ∧ is_valid_rsp t (rsp t) = true
      ∧ wp (context_switch 0x77 (rsp t) (with_mem (sample_cpu 0x100000 ∅) m'))
           (λ '(_, c'), starts sample_selectors 0x5000 0x400000 0x801000 t c')).
Proof.
  apply (@Task_new_enters unit true sample_selectors 0x5000 0x400000 0x9000 UserMode 0x801000
           (Some 1) 0x20008 2 ∅ (sample_cpu 0x100000 ∅) 0x77); vm_compute; intuition discriminate.
Defined.

(** Two stacks: the caller's at 1 MiB, with its return address, and a frame at
    0x4000. *)
Definition two_stacks : memory :=
  <[0x100000 := 0x1234]> (<[0x4000 := 0x202]> (<[0x4008 := 1]> (<[0x4010 := 2]> (<[0x4018 := 3]>
  (<[0x4020 := 4]> (<[0x4028 := 5]> (<[0x4030 := 6]> (<[0x4038 := 0x9999]> ∅)))))))).

Lemma context_switch_resumes_witness :
  wp (context_switch 0x77 0x4000 (sample_cpu 0x100000 two_stacks)) (λ '(out, c'),
    rip c' = 0x9999
    ∧ wp (context_switch 0x88 out (with_regs c' (set_reg (regs c') RSP 0x8000)))
         (λ '(_, d'), rip d' = 0x1234 ∧ regs d' RSP = 0x100008)).
Proof.
  eapply wp_mono.
  - apply (context_switch_resumes (sample_cpu 0x100000 two_stacks) 0x77 0x4000 0x202
             [1; 2; 3; 4; 5; 6] 0x9999 0x1234); vm_compute; intuition discriminate.
  - intros [out c'] (Hrip & _ & Hback). split; [exact Hrip|].
    eapply wp_mono; [apply (Hback (with_regs c' (set_reg (regs c') RSP 0x8000)) 0x88)|].
    1-4: vm_compute; intuition discriminate.
    + intros a Ha. reflexivity.
    + intros [out' d'] (H1 & H2 & _). split; [exact H1|exact H2].
Defined.

Lemma jump_to_user_mode_enters_witness :
  wp (jump_to_user_mode sample_selectors 0x400000 0x801000 (sample_cpu 0x8000 ∅)) (λ u,
    rip u = 0x400000 ∧ regs u RSP = 0x801000 ∧ rflags u = 0x202
    ∧ cs u = Z.lor (user_code_selector sample_selectors) 3
    ∧ ss u = Z.lor (user_data_selector sample_selectors) 3
    ∧ ∀ s, segs u s = Z.lor (user_data_selector sample_selectors) 3).
Proof.
  apply (jump_to_user_mode_enters sample_selectors 0x400000 0x801000 (sample_cpu 0x8000 ∅));
    vm_compute; intuition discriminate.
Defined.
