(* ===== verification/SyscallEntry.v ===== *)
(** * Entering and leaving a system call ([syscall_entry] and [init] of
    src/src/core/syscall.rs, the descriptor table of src/src/core/gdt.rs)

    The [syscall] and [sysretq] instructions, the selectors the kernel gives them,
    and the assembly between them, on the processor of X86.v.  The dispatcher
    [handle_syscall_rust] is a parameter here: a function that keeps to the System V
    calling convention.

    The theorems: the selectors of the descriptor table are the ones [sysretq]
    computes, so [init] does not panic; a system call returns to the next
    instruction with every register but RAX, RCX and R11 as it was; and a dispatcher
    that returns with interrupts enabled, as [wait4] does, leaves a window in which an
    interrupt is served on the user's stack pointer in ring 0. *)

From S2P Require Import Prelude X86 Task.

#[local] Open Scope list_scope.

(** ** The descriptor table *)

Inductive Descriptor := kernel_code_segment | kernel_data_segment | user_data_segment | user_code_segment | tss_segment.

(** [GlobalDescriptorTable] of the x86_64 crate. *)
Class GdtOps := {
  gdt : Type;
  gdt_new : gdt;
  add_entry : gdt → Descriptor → outcome (Z * gdt);
}.

Definition entry_slots (d : Descriptor) : Z := match d with tss_segment => 2 | _ => 1 end.
Definition entry_rpl (d : Descriptor) : Z := match d with user_data_segment | user_code_segment => 3 | _ => 0 end.

(** A new table has the null descriptor; an entry takes the next free slots of
    eight, and its selector has the privilege level of the descriptor. *)
Class GdtSpec `{GdtOps} (used : gdt → Z) : Prop := {
  gdt_new_used : used gdt_new = 1;
  add_entry_spec g d : used g + entry_slots d ≤ 8 →
    ∃ g', add_entry g d = Ret (8 * used g + entry_rpl d, g') ∧ used g' = used g + entry_slots d;
}.

(** The static [GDT]. *)
Definition GDT `{GdtOps} : outcome (gdt * Selectors) :=
  let* (kernel_code_selector, g) := add_entry gdt_new kernel_code_segment in
  let* (kernel_data_selector, g) := add_entry g kernel_data_segment in
  let* (user_data_selector, g) := add_entry g user_data_segment in
  let* (user_code_selector, g) := add_entry g user_code_segment in
  let* (tss_selector, g) := add_entry g tss_segment in
  Ret (g, mkSelectors kernel_code_selector kernel_data_selector user_code_selector user_data_selector tss_selector).

(** ** The registers of the instruction *)

(** STAR as its two selector bases, LSTAR and SFMASK. *)
Record Msrs := mkMsrs { star_sysret : Z; star_syscall : Z; lstar : Z; sfmask : Z }.

(** [Star::write] of the crate: it refuses selectors that do not have the layout the
    instructions assume. *)
Class StarOps := star_write : Z → Z → Z → Z → option (Z * Z).

Class StarSpec `{StarOps} : Prop := {
  star_write_ok cs_sysret ss_sysret cs_syscall ss_syscall :
    cs_sysret = ss_sysret + 8 → ss_syscall = cs_syscall + 8 → ss_sysret mod 4 = 3 → ss_syscall mod 4 = 0 → 8 ≤ ss_sysret →
    star_write cs_sysret ss_sysret cs_syscall ss_syscall = Some (ss_sysret - 8, cs_syscall);
}.

Definition INTERRUPT_FLAG : Z := 0x200.

Definition syscall_init `{StarOps} `{VirtAddrNew} (selectors : Selectors) (syscall_entry : Z) : outcome Msrs :=
  match star_write (user_code_selector selectors) (user_data_selector selectors)
          (kernel_code_selector selectors) (kernel_data_selector selectors) with
  | None => Stop Panic
  | Some (sysret, syscall) =>
      a <- virt_new syscall_entry;;
      Ret (mkMsrs sysret syscall a INTERRUPT_FLAG)
  end.

(** [syscall]: the return address and flags go to RCX and R11, the masked flags are
    cleared.  [next] is the address after the instruction. *)
Definition syscall_instr (ms : Msrs) (next : Z) (c : cpu) : cpu :=
  mkCpu (set_reg (set_reg (regs c) RCX next) R11 (rflags c)) (lstar ms) (Z.land (rflags c) (unot 64 (sfmask ms)))
    (star_syscall ms) (star_syscall ms + 8) (segs c) (mem c).

(** [sysretq]: a return address that is not canonical is a protection fault. *)
Definition sysret_flags (v : Z) : Z := Z.lor (Z.land v 0x3C7FD7) 2.

Definition sysretq (ms : Msrs) (c : cpu) : outcome cpu :=
  if bool_decide (canonical (regs c RCX)) then
    Ret (mkCpu (regs c) (regs c RCX) (sysret_flags (regs c R11)) (Z.lor (star_sysret ms + 16) 3) (Z.lor (star_sysret ms + 8) 3)
           (segs c) (mem c))
  else Stop Panic.

(** ** The trampoline *)

Section Trampoline.
Context (scratch kernel_rsp ret_addr : Z) (handle : cpu → outcome cpu) (ms : Msrs).

Definition entry_code : list instr :=
  [MovToMem scratch RSP; MovFromMem RSP kernel_rsp; PushMem scratch]
  ++ map Push [RCX; R11; R9; R8; R10; RDX; RSI; RDI; RAX]
  ++ [MovReg RDI RSP; Push R12; MovReg R12 RSP; AndReg RSP (unot 64 15)].

Definition exit_code : list instr :=
  [MovRsp R12; Pop R12] ++ map Pop [RAX; RDI; RSI; RDX; R10; R8; R9; R11; RCX] ++ [Pop RSP].

(** [call]: the return address is pushed and control is in the handler, which comes
    back through its [ret]. *)
Definition call_handle (c : cpu) : outcome cpu := c <- push c ret_addr;; handle c.

Definition syscall_entry (c : cpu) : outcome cpu :=
  c <- run_code entry_code c;;
  c <- call_handle c;;
  c <- run_code exit_code c;;
  sysretq ms c.
End Trampoline.

(** ** Runs of pushes and pops *)

Section Runs.
Implicit Types (c : cpu) (l : list reg).

(** Everything but the general registers and the memory. *)
Definition same_mode c c' : Prop := rip c' = rip c ∧ cs c' = cs c ∧ ss c' = ss c ∧ segs c' = segs c.

Lemma push_regs l : ∀ c sp, RSP ∉ l → regs c RSP = sp → sp mod 8 = 0 → 8 * Z.of_nat (length l) ≤ sp < 2 ^ 64 →
  ∃ c', run_code (map Push l) c = Ret c' ∧ regs c' RSP = sp - 8 * Z.of_nat (length l)
    ∧ words (mem c') (sp - 8 * Z.of_nat (length l)) (rev (map (regs c) l))
    ∧ (∀ r, r ≠ RSP → regs c' r = regs c r) ∧ same_mode c c' ∧ rflags c' = rflags c
    ∧ ∀ a, ¬ sp - 8 * Z.of_nat (length l) ≤ a < sp → mem c' !! a = mem c !! a.
Proof.
  induction l as [|r l IH]; intros c sp Hn Hsp Ha Hr; cbn [map run_code length rev].
  { exists c. split_and!; try done; lia. }
  apply not_elem_of_cons in Hn as [Hr0 Hn]. cbn [exec]. rewrite (push_ok c sp) by (done || cbn [length] in *; lia). cbn [obind].
  cbn [length] in Hr. set (c1 := with_mem _ _).
  destruct (IH c1 (sp - 8)) as (c' & -> & Hsp' & Hw & Hregs & Hmode & Hfl & Hout); [done|done|zlia|lia|].
  exists c'. split; [done|]. split; [rewrite Hsp'; lia|]. split_and!; try done.
  - replace (sp - 8 * Z.of_nat (S (length l))) with (sp - 8 - 8 * Z.of_nat (length l)) by lia. apply words_app. split.
    + replace (map (regs c) l) with (map (regs c1) l); [done|]. apply map_ext_in. intros x Hx. cbn. rewrite set_reg_ne; [done|].
      intros ->. apply Hn. by apply list_elem_of_In.
    + rewrite length_rev, length_map. cbn [words]. split; [|done].
      replace (sp - 8 - 8 * Z.of_nat (length l) + 8 * Z.of_nat (length l)) with (sp - 8) by lia.
      rewrite Hout by lia. cbn. by rewrite lookup_insert_eq.
  - intros x Hx. rewrite Hregs by done. cbn. by rewrite set_reg_ne.
  - intros a Hna. rewrite Hout by lia. cbn. rewrite lookup_insert_ne; [done|]. lia.
Qed.

Lemma pop_regs l : ∀ c sp vs, RSP ∉ l → NoDup l → regs c RSP = sp → sp mod 8 = 0 → 0 ≤ sp → sp + 8 * Z.of_nat (length l) < 2 ^ 64 →
  length vs = length l → words (mem c) sp vs →
  ∃ c', run_code (map Pop l) c = Ret c' ∧ regs c' RSP = sp + 8 * Z.of_nat (length l) ∧ map (regs c') l = vs
    ∧ (∀ r, r ≠ RSP → r ∉ l → regs c' r = regs c r) ∧ same_mode c c' ∧ rflags c' = rflags c ∧ mem c' = mem c.
Proof.
  induction l as [|r l IH]; intros c sp vs Hn Hnd Hsp Ha Hr Hr' Hlen Hw; cbn [map run_code length].
  { exists c. destruct vs; [|done]. split_and!; try done. lia. }
  destruct vs as [|v vs]; [done|]. cbn [words length] in *. destruct Hw as [Hv Hw].
  apply not_elem_of_cons in Hn as [Hr0 Hn]. apply NoDup_cons in Hnd as [Hrl Hnd].
  cbn [exec]. rewrite (pop_ok c sp v) by (done || lia). cbn [obind]. set (c1 := with_regs _ _).
  destruct (IH c1 (sp + 8) vs) as (c' & -> & Hsp' & Hvs & Hregs & Hmode & Hfl & Hm); try done; [|zlia|lia|lia|lia|].
  { cbn. rewrite set_reg_ne by done. by rewrite set_reg_eq. }
  exists c'. split; [done|]. split; [rewrite Hsp'; lia|]. split_and!; try done.
  - f_equal; [|done]. rewrite Hregs by done. cbn. by rewrite set_reg_eq.
  - intros x Hx Hxl. apply not_elem_of_cons in Hxl as [Hxr Hxl]. rewrite Hregs by done. cbn. by rewrite !set_reg_ne by done.
Qed.
End Runs.

(** ** A system call *)

Section Transparent.
Context (scratch kernel_rsp ret_addr : Z) (handle : cpu → outcome cpu) (ms : Msrs).
Context (lo ktop : Z) (result : list Z → Z).
Implicit Types c : cpu.

(** The kernel stack of the task, from [lo] to [ktop], and the two statics outside
    it. *)
Record entry_layout : Prop := {
  el_scratch : scratch mod 8 = 0 ∧ 0 ≤ scratch < 2 ^ 64 ∧ ¬ lo ≤ scratch < ktop;
  el_kernel : kernel_rsp mod 8 = 0 ∧ kernel_rsp ≠ scratch;
  el_stack : ktop mod 8 = 0 ∧ 0 ≤ lo ∧ lo + 128 ≤ ktop < 2 ^ 64;
}.

(** The calling convention.  Called with an aligned stack and RDI at the saved
    registers, the dispatcher returns to its caller with the callee-saved registers
    and the caller's part of the stack as they were, but for the first word at RDI,
    which gets the result. *)
Definition sysv_handler : Prop := ∀ c args, (regs c RSP + 8) mod 16 = 0 → lo ≤ regs c RSP → regs c RSP + 8 ≤ regs c RDI →
  mem c !! regs c RSP = Some ret_addr → length args = 7%nat → words (mem c) (regs c RDI) args →
  wp (handle c) (λ c', regs c' RSP = regs c RSP + 8 ∧ rip c' = ret_addr ∧ cs c' = cs c ∧ ss c' = ss c ∧ segs c' = segs c
    ∧ (∀ r, r ∈ callee_saved → regs c' r = regs c r)
    ∧ mem c' !! regs c RDI = Some (result args)
    ∧ ∀ a, regs c RSP + 8 ≤ a < ktop → a ≠ regs c RDI → mem c' !! a = mem c !! a).

(** The registers as the dispatcher sees them, and the rest of the frame. *)
Definition syscall_args c : list Z := map (regs c) [RAX; RDI; RSI; RDX; R10; R8; R9].
Definition syscall_frame c : list Z := map (regs c) [R12; RAX; RDI; RSI; RDX; R10; R8; R9; R11; RCX; RSP].

Lemma entry_spec c : entry_layout → mem c !! kernel_rsp = Some ktop →
  ∃ c1, run_code (entry_code scratch kernel_rsp) c = Ret c1 ∧ regs c1 R12 = ktop - 88 ∧ regs c1 RDI = ktop - 80
    ∧ regs c1 RSP = ktop - 88 - (ktop - 88) mod 16 ∧ words (mem c1) (ktop - 88) (syscall_frame c)
    ∧ (∀ r, r ≠ RSP → r ≠ RDI → r ≠ R12 → regs c1 r = regs c r) ∧ same_mode c c1.
Proof.
  intros [(Hs8 & Hsr & Hsout) (Hk8 & Hks) (Ht8 & Hlo & Ht)] Hk. unfold entry_code. cbn [app run_code exec].
  rewrite store_ok by done. cbn [obind exec run_code with_mem mem regs].
  rewrite (load_ok _ kernel_rsp ktop) by (done || by rewrite lookup_insert_ne by done). cbn [obind run_code exec].
  cbn [with_regs mem]. rewrite (load_ok _ scratch (regs c RSP)) by (done || apply lookup_insert_eq). cbn [obind].
  rewrite (push_ok _ ktop) by (done || lia). cbn [obind]. rewrite run_code_app. set (c0 := with_mem _ _).
  destruct (push_regs [RCX; R11; R9; R8; R10; RDX; RSI; RDI; RAX] c0 (ktop - 8)) as (c1 & -> & Hsp & Hw & Hr & Hm & _ & Hout);
    [by apply (bool_decide_unpack _)|done|zlia|cbn [length]; lia|].
  cbn [length rev map app] in *. change (Z.of_nat 9) with 9 in *. cbn [obind run_code exec].
  set (c2 := with_regs c1 _). assert (regs c2 RSP = ktop - 80) as Hsp2 by (cbn; rewrite set_reg_ne by done; lia).
  rewrite (push_ok c2 (ktop - 80)) by (done || zlia). cbn [obind run_code exec]. cbn [with_regs with_mem regs].
  rewrite set_reg_eq. change 15 with (Z.ones 4). rewrite set_reg_ne, set_reg_eq, land_unot_ones by (done || lia).
  eexists. split; [done|]. cbn [with_rflags with_regs with_mem regs mem].
  rewrite !set_reg_eq. change (2 ^ 4) with 16. replace (ktop - 80 - 8) with (ktop - 88) by lia.
  split_and!; try done.
  - assert (∀ r, r ≠ RSP → regs c0 r = regs c r) as Hc0 by (intros r Hne; cbn; by rewrite !set_reg_ne by done).
    assert (regs c2 R12 = regs c R12) as -> by (cbn; rewrite set_reg_ne, Hr by done; by apply Hc0).
    rewrite !Hc0 in Hw by done. replace (ktop - 8 - 8 * 9) with (ktop - 80) in Hw, Hout by lia.
    unfold syscall_frame. cbn [map]. split; [apply lookup_insert_eq|].
    replace (ktop - 88 + 8) with (ktop - 80) by lia. eapply words_agree; [apply agree_insert; lia|].
    change (mem c2) with (mem c1). apply (words_app _ _ (map (regs c) [RAX; RDI; RSI; RDX; R10; R8; R9; R11; RCX]) [regs c RSP]).
    split; [exact Hw|]. cbn [length map words]. split; [|done]. change (Z.of_nat 9) with 9.
    replace (ktop - 80 + 8 * 9) with (ktop - 8) by lia. rewrite Hout by lia. apply lookup_insert_eq.
  - intros r Hr1 Hr2 Hr3. cbn. rewrite !set_reg_ne, Hr by done. cbn. by rewrite !set_reg_ne by done.
Qed.

(** The frame once the dispatcher stored its result. *)
Definition answered_frame c (v : Z) : list Z := regs c R12 :: v :: map (regs c) [RDI; RSI; RDX; R10; R8; R9; R11; RCX; RSP].

Lemma kept_regs r : r ∈ [RBP; RBX; R13; R14; R15] → r ∈ callee_saved ∧ r ≠ RSP ∧ r ≠ RDI ∧ r ≠ R12
  ∧ r ∉ [RAX; RDI; RSI; RDX; R10; R8; R9; R11; RCX].
Proof.
  intros Hin. repeat (apply elem_of_cons in Hin as [->|Hin]; [split_and!; try done; by apply (bool_decide_unpack _)|]).
  by apply not_elem_of_nil in Hin.
Qed.

Lemma call_spec c c1 : entry_layout → sysv_handler → regs c1 R12 = ktop - 88 → regs c1 RDI = ktop - 80 →
  regs c1 RSP = ktop - 88 - (ktop - 88) mod 16 → words (mem c1) (ktop - 88) (syscall_frame c) →
  (∀ r, r ≠ RSP → r ≠ RDI → r ≠ R12 → regs c1 r = regs c r) →
  wp (call_handle ret_addr handle c1) (λ c2, regs c2 R12 = ktop - 88
    ∧ words (mem c2) (ktop - 88) (answered_frame c (result (syscall_args c)))
    ∧ (∀ r, r ∈ [RBP; RBX; R13; R14; R15] → regs c2 r = regs c r) ∧ cs c2 = cs c1 ∧ ss c2 = ss c1 ∧ segs c2 = segs c1).
Proof.
  intros [_ _ (Ht8 & Hlo & Ht)] Hh H12 Hdi Hsp Hw Hr. unfold call_handle.
  rewrite (push_ok c1 _ _ Hsp) by zlia. cbn [obind]. set (al := ktop - 88 - (ktop - 88) mod 16) in *.
  set (c1' := with_mem _ _). assert (regs c1' RSP = al - 8 ∧ regs c1' RDI = ktop - 80) as [Hsp' Hdi'] by (split; cbn; [by rewrite set_reg_eq|by rewrite set_reg_ne]).
  assert (words (mem c1') (ktop - 88) (syscall_frame c)) as Hw'.
  { eapply words_agree; [|exact Hw]. apply agree_insert. unfold al. zlia. }
  assert (words (mem c1') (ktop - 80) (syscall_args c)) as Hargs.
  { unfold syscall_frame, syscall_args in *. cbn [map words] in *. replace (ktop - 88 + 8) with (ktop - 80) in Hw' by lia. tauto. }
  eapply wp_mono; [apply (Hh c1' (syscall_args c)); rewrite ?Hsp', ?Hdi'; try done; unfold al; try zlia|].
  { cbn. apply lookup_insert_eq. }
  cbv beta. rewrite Hsp', Hdi'. intros c2 (_ & _ & Hcs & Hss & Hsegs & Hsaved & Hres & Hmem).
  split_and!; try done.
  - rewrite Hsaved by (by apply (bool_decide_unpack _)). cbn. by rewrite set_reg_ne.
  - assert (∀ a, ktop - 88 ≤ a < ktop → a ≠ ktop - 80 → mem c2 !! a = mem c1' !! a) as Hm2 by (intros; apply Hmem; [unfold al; zlia|done]).
    unfold syscall_frame, answered_frame in *. cbn [map words] in *. destruct_and! Hw'.
    split_and!; try exact I; try (rewrite Hm2 by lia; done). by replace (ktop - 88 + 8) with (ktop - 80) by lia.
  - intros r (Hin & Hns & Hnd & Hn12 & _)%kept_regs. rewrite Hsaved by done. cbn. rewrite set_reg_ne by done. by apply Hr.
Qed.

Lemma exit_spec c c2 v : entry_layout → regs c2 R12 = ktop - 88 → words (mem c2) (ktop - 88) (answered_frame c v) →
  (∀ r, r ∈ [RBP; RBX; R13; R14; R15] → regs c2 r = regs c r) →
  ∃ c3, run_code exit_code c2 = Ret c3 ∧ regs c3 RAX = v ∧ (∀ r, r ≠ RAX → regs c3 r = regs c r)
    ∧ same_mode c2 c3 ∧ rflags c3 = rflags c2 ∧ mem c3 = mem c2.
Proof.
  intros [_ _ (Ht8 & Hlo & Ht)] H12 Hw Hsaved. unfold exit_code. cbn [app run_code exec obind].
  set (c' := with_regs c2 _). assert (regs c' RSP = ktop - 88) as Hsp by (cbn; by rewrite set_reg_eq).
  unfold answered_frame in Hw. cbn [words map] in Hw. destruct Hw as [Hw0 Hw]. replace (ktop - 88 + 8) with (ktop - 80) in Hw by lia.
  rewrite (pop_ok c' (ktop - 88) (regs c R12)) by (done || zlia). cbn [obind]. rewrite run_code_app. set (c'' := with_regs _ _).
  destruct (pop_regs [RAX; RDI; RSI; RDX; R10; R8; R9; R11; RCX] c'' (ktop - 80) (v :: map (regs c) [RDI; RSI; RDX; R10; R8; R9; R11; RCX]))
    as (c3 & -> & Hsp3 & Hvs & Hr3 & Hm3 & Hf3 & Hmem3).
  { by apply (bool_decide_unpack _). }
  { by apply (bool_decide_unpack _). }
  { cbn. rewrite set_reg_ne, set_reg_eq by done. lia. }
  { zlia. }
  { lia. }
  { cbn [length]. lia. }
  { done. }
  { change (mem c'') with (mem c2). cbn [map words]. tauto. }
  cbn [length] in Hsp3. change (Z.of_nat 9) with 9 in Hsp3. cbn [obind run_code exec].
  rewrite (pop_ok c3 (ktop - 8) (regs c RSP)); [|lia|zlia|lia|].
  2: { rewrite Hmem3. change (mem c'') with (mem c2). replace (ktop - 8) with (ktop - 80 + 8 + 8 + 8 + 8 + 8 + 8 + 8 + 8 + 8) by lia. tauto. }
  cbn [obind]. eexists. split; [done|]. cbn [with_regs regs mem rflags]. cbn [map] in Hvs. injection Hvs as Hax Hv.
  split; [by rewrite !set_reg_ne by done|]. split; [|done]. intros r Hne.
  destruct (decide (r = RSP)) as [->|Hsp']; [by rewrite set_reg_eq|]. rewrite !set_reg_ne by done.
  destruct (decide (r ∈ [RBP; RBX; R13; R14; R15])) as [Hin|Hin].
  - pose proof (kept_regs r Hin) as (_ & _ & _ & Hn12 & Hnl). rewrite Hr3 by done. cbn. rewrite !set_reg_ne by done. by apply Hsaved.
  - destruct r; try done; try (exfalso; apply Hin; by apply (bool_decide_unpack _)).
    rewrite Hr3 by (by apply (bool_decide_unpack _)). cbn. by rewrite set_reg_eq.
Qed.

(** The trampoline up to [sysretq]. *)
Definition to_sysret c : outcome cpu :=
  c <- run_code (entry_code scratch kernel_rsp) c;;
  c <- call_handle ret_addr handle c;;
  run_code exit_code c.

Lemma syscall_entry_split c : syscall_entry scratch kernel_rsp ret_addr handle ms c = (c <- to_sysret c;; sysretq ms c).
Proof.
  unfold syscall_entry, to_sysret. destruct (run_code _ c) as [c1|]; [|done]. cbn [obind]. by destruct (call_handle _ _ c1).
Qed.

Lemma to_sysret_spec c : entry_layout → sysv_handler → mem c !! kernel_rsp = Some ktop →
  wp (to_sysret c) (λ c', regs c' RAX = result (syscall_args c) ∧ (∀ r, r ≠ RAX → regs c' r = regs c r)
    ∧ cs c' = cs c ∧ ss c' = ss c ∧ segs c' = segs c
    ∧ ∃ c1 c2, call_handle ret_addr handle c1 = Ret c2 ∧ rflags c' = rflags c2 ∧ mem c' = mem c2).
Proof.
  intros Hl Hh Hk. unfold to_sysret. destruct (entry_spec c Hl Hk) as (c1 & -> & H12 & Hdi & Hsp & Hw & Hr & Hm). cbn [obind].
  pose proof (call_spec c c1 Hl Hh H12 Hdi Hsp Hw Hr) as Hcall.
  destruct (call_handle ret_addr handle c1) as [c2|] eqn:Ec; [|done]. cbn [obind wp] in *.
  destruct Hcall as (H12' & Hw' & Hs' & Hcs & Hss & Hsegs).
  destruct (exit_spec c c2 _ Hl H12' Hw' Hs') as (c3 & -> & Hax & Hr3 & (_ & Hcs3 & Hss3 & Hsegs3) & Hf3 & Hm3).
  destruct Hm as (_ & Hcs1 & Hss1 & Hsegs1). cbn [wp]. split_and!; try done; [congruence|congruence|congruence|]. by exists c1, c2.
Qed.

Definition clobbered : list reg := [RAX; RCX; R11].

(** C6: a system call is transparent.  From the [syscall] instruction to the return
    to the next one the trampoline does not fail; the dispatcher gets the number and
    the six arguments of the caller, in the order of [SyscallRegisters]; afterwards
    RAX is its result, and every other register except RCX and R11, the stack
    pointer included, is what it was.  The flags come back, and the segments are the
    user selectors of STAR. *)
Theorem syscall_transparent c next : entry_layout → sysv_handler → mem c !! kernel_rsp = Some ktop → canonical next →
  wp (syscall_entry scratch kernel_rsp ret_addr handle ms (syscall_instr ms next c)) (λ c',
    rip c' = next ∧ rflags c' = sysret_flags (rflags c) ∧ regs c' RAX = result (syscall_args c)
    ∧ (∀ r, r ∉ clobbered → regs c' r = regs c r)
    ∧ cs c' = Z.lor (star_sysret ms + 16) 3 ∧ ss c' = Z.lor (star_sysret ms + 8) 3 ∧ segs c' = segs c).
Proof.
  intros Hl Hh Hk Hn. rewrite syscall_entry_split. wp_step.
  eapply wp_mono; [by apply (to_sysret_spec (syscall_instr ms next c))|cbv beta].
  intros c' (Hax & Hr & _ & _ & Hsegs & _). assert (regs c' RCX = next) as Hcx by (by rewrite Hr by done).
  assert (regs c' R11 = rflags c) as H11 by (by rewrite Hr by done).
  unfold sysretq. rewrite Hcx, bool_decide_true by done. cbn [wp rip rflags regs cs ss segs]. rewrite H11.
  split_and!; try done. intros r Hnr. unfold clobbered in Hnr. rewrite !not_elem_of_cons in Hnr.
  rewrite Hr by tauto. cbn. by rewrite !set_reg_ne by tauto.
Qed.

(** The processor serves an interrupt in ring 0: it stays on the current stack, and
    pushes the five words of the frame below the aligned stack pointer. *)
Definition ring0_interrupt (handler_rip : Z) c : outcome cpu :=
  let sp := regs c RSP in
  let c0 := with_regs c (set_reg (regs c) RSP (sp - sp mod 16)) in
  c1 <- push c0 (ss c);; c1 <- push c1 sp;; c1 <- push c1 (flags_image (rflags c));; c1 <- push c1 (cs c);; c1 <- push c1 (rip c);;
  Ret (with_rip (with_rflags c1 (Z.land (rflags c) (unot 64 INTERRUPT_FLAG))) handler_rip).

(** C32: the window before [sysretq].  If the dispatcher comes back with interrupts
    enabled, which is how a task leaves [context_switch] and hence [wait4], the
    trampoline reaches [sysretq] in ring 0 with the stack pointer of the user.  An
    interrupt that is served there writes its frame of five words to the address the
    user chose, whatever lies there. *)
Theorem syscall_exit_window c next handler_rip : entry_layout → sysv_handler → mem c !! kernel_rsp = Some ktop →
  (∀ c1 c2, handle c1 = Ret c2 → Z.testbit (rflags c2) IF_BIT = true) → 48 ≤ regs c RSP < 2 ^ 64 →
  let sp := regs c RSP - regs c RSP mod 16 in
  wp (to_sysret (syscall_instr ms next c)) (λ c3, cs c3 = star_syscall ms ∧ Z.testbit (rflags c3) IF_BIT = true
    ∧ regs c3 RSP = regs c RSP
    ∧ wp (ring0_interrupt handler_rip c3) (λ c4, rip c4 = handler_rip ∧ cs c4 = star_syscall ms
        ∧ words (mem c4) (sp - 40) [rip c3; star_syscall ms; flags_image (rflags c3); regs c RSP; star_syscall ms + 8])).
Proof.
  intros Hl Hh Hk Hif Hrsp sp. eapply wp_mono; [by apply (to_sysret_spec (syscall_instr ms next c))|cbv beta].
  intros c3 (_ & Hr & Hcs & Hss & _ & c1 & c2 & Hc & Hf & _).
  assert (regs c3 RSP = regs c RSP) as Hsp by (by rewrite Hr by done). split_and!; [done| |done|].
  - rewrite Hf. unfold call_handle in Hc. destruct (push c1 ret_addr) as [c1'|]; [|done]. by eapply Hif.
  - assert (sp mod 8 = 0 ∧ 40 ≤ sp < 2 ^ 64) as [Hs8 Hsr] by (unfold sp; zlia).
    unfold ring0_interrupt. rewrite Hsp. fold sp.
    rewrite (push_ok _ sp) by (done || lia). cbn [obind]. rewrite (push_ok _ (sp - 8)) by (done || zlia). cbn [obind].
    rewrite (push_ok _ (sp - 8 - 8)) by (done || zlia). cbn [obind]. rewrite (push_ok _ (sp - 8 - 8 - 8)) by (done || zlia). cbn [obind].
    rewrite (push_ok _ (sp - 8 - 8 - 8 - 8)) by (done || zlia). cbn [obind wp with_rip with_rflags with_mem with_regs rip cs mem].
    rewrite Hcs, Hss. split_and!; [done|done|]. cbn [words syscall_instr cs ss].
    replace (sp - 40) with (sp - 8 - 8 - 8 - 8 - 8) by lia.
    repeat (split; [rewrite ?lookup_insert_ne by lia; by rewrite ?Z.sub_add, lookup_insert_eq|]). done.
Qed.
End Transparent.

(** ** The selectors *)

(** The static [GDT] is built: each entry goes to the slot its selector names.  [gs]
    are the tables on the way. *)
Definition gdt_entries : list Descriptor :=
  [kernel_code_segment; kernel_data_segment; user_data_segment; user_code_segment; tss_segment].

Lemma GDT_built `{GdtSpec} : ∃ gs : nat → gdt, GDT = Ret (gs 5%nat, mkSelectors 0x08 0x10 0x23 0x1B 0x28)
  ∧ ∀ i d, gdt_entries !! i = Some d → ∃ sel, add_entry (gs i) d = Ret (sel, gs (S i)) ∧ used (gs i) = Z.of_nat i + 1.
Proof.
  unfold GDT. pose proof gdt_new_used as Hn.
  destruct (add_entry_spec gdt_new kernel_code_segment) as (g1 & E1 & Hu1); [rewrite Hn; done|]. rewrite E1. cbn [obind]. rewrite Hn in *.
  destruct (add_entry_spec g1 kernel_data_segment) as (g2 & E2 & Hu2); [rewrite Hu1; done|]. rewrite E2. cbn [obind]. rewrite Hu1 in *.
  destruct (add_entry_spec g2 user_data_segment) as (g3 & E3 & Hu3); [rewrite Hu2; done|]. rewrite E3. cbn [obind]. rewrite Hu2 in *.
  destruct (add_entry_spec g3 user_code_segment) as (g4 & E4 & Hu4); [rewrite Hu3; done|]. rewrite E4. cbn [obind]. rewrite Hu3 in *.
  destruct (add_entry_spec g4 tss_segment) as (g5 & E5 & Hu5); [rewrite Hu4; done|]. rewrite E5. cbn [obind]. rewrite Hu4 in *.
  exists (λ i, nth i [gdt_new; g1; g2; g3; g4; g5] gdt_new). split; [done|]. intros i d Hd.
  do 5 (destruct i as [|i]; [injection Hd as <-; by eexists|]). done.
Qed.

(** The registers of the instruction fit the selectors. *)
Record msrs_fit (sel : Selectors) (entry : Z) (ms : Msrs) : Prop := {
  mf_entry : lstar ms = entry;
  mf_kernel : star_syscall ms = kernel_code_selector sel ∧ star_syscall ms + 8 = kernel_data_selector sel;
  mf_user : Z.lor (star_sysret ms + 16) 3 = user_code_selector sel ∧ Z.lor (star_sysret ms + 8) 3 = user_data_selector sel;
  mf_mask : ∀ fl k, 0 ≤ fl < 2 ^ 64 → 0 ≤ k → Z.testbit (Z.land fl (unot 64 (sfmask ms))) k = (Z.testbit fl k && negb (k =? IF_BIT));
}.

Lemma syscall_init_ok `{StarSpec} `{VirtAddrSpec} entry : canonical entry →
  wp (syscall_init (mkSelectors 0x08 0x10 0x23 0x1B 0x28) entry) (msrs_fit (mkSelectors 0x08 0x10 0x23 0x1B 0x28) entry).
Proof.
  intros Hcan. unfold syscall_init. cbn [user_code_selector user_data_selector kernel_code_selector kernel_data_selector].
  rewrite star_write_ok by (cbn; done || lia). rewrite virt_new_ok by done. cbn [obind wp].
  split; try done. intros fl k Hfl Hk. cbn [sfmask]. unfold INTERRUPT_FLAG. rewrite land_unot, Z.ldiff_spec by lia.
  f_equal. f_equal. change 0x200 with (2 ^ IF_BIT). rewrite Z.pow2_bits_eqb by done. apply Z.eqb_sym.
Qed.

(** The descriptor table fits the instructions.  Building the table and setting up
    STAR do not panic; [syscall] then loads the kernel's code and data selectors, and
    [sysretq] computes exactly the user selectors of the table; entry clears the
    interrupt flag and nothing else. *)
Theorem syscall_selectors `{GdtSpec} `{StarSpec} `{VirtAddrSpec} entry : canonical entry →
  wp GDT (λ '(_, sel), sel = mkSelectors 0x08 0x10 0x23 0x1B 0x28 ∧ wp (syscall_init sel entry) (msrs_fit sel entry)).
Proof. intros Hcan. destruct GDT_built as (gs & -> & _). split; [done|]. by apply syscall_init_ok. Qed.

(** ** Witnesses *)

Module EntrySample.
(** A dispatcher that returns its first argument, with interrupts enabled. *)
Definition echo (c : cpu) : outcome cpu :=
  match mem c !! (regs c RDI + 8), mem c !! regs c RSP with
  | Some v, Some ret =>
      Ret (mkCpu (set_reg (regs c) RSP (regs c RSP + 8)) ret 0x202 (cs c) (ss c) (segs c) (<[regs c RDI := v]> (mem c)))
  | _, _ => Stop OutOfBounds
  end.

Lemma echo_ok : sysv_handler 0x4444 echo 0x1000 0x2000 (λ args, nth 1 args 0).
Proof.
  intros c args Ha Hlo Hd Hret Hlen Hw. destruct args as [|a0 [|a1 args]]; try done. cbn [words] in Hw. destruct Hw as (_ & H1 & _).
  unfold echo. rewrite H1, Hret. cbn [wp regs rip cs ss segs mem nth]. split_and!; try done.
  - intros r Hin. apply set_reg_ne. intros ->. by apply (bool_decide_pack _) in Hin.
  - apply lookup_insert_eq.
  - intros a _ Hne. by rewrite lookup_insert_ne by done.
Qed.

Lemma layout : entry_layout 0x100 0x108 0x1000 0x2000.
Proof. split; vm_compute; intuition discriminate. Qed.

Definition msrs : Msrs := mkMsrs 0x13 8 0x5000 0x200.
Definition user_cpu : cpu := mkCpu (λ r, if decide (r = RSP) then 0x7008 else 9) 0x400000 0x202 0x23 0x1B (λ _, 0x1B) {[0x108 := 0x2000]}.

Definition table : GdtOps := {| gdt := Z; gdt_new := 1; add_entry := λ g d, Ret (8 * g + entry_rpl d, g + entry_slots d) |}.

Lemma table_ok : @GdtSpec table (λ g, g).
Proof. split; [done|]. intros g d _. by exists (g + entry_slots d). Qed.

Definition star : StarOps := λ _ ss_sysret cs_syscall _, Some (ss_sysret - 8, cs_syscall).

Lemma star_ok : @StarSpec star.
Proof. by split. Qed.
End EntrySample.

Lemma syscall_transparent_witness :
  wp (syscall_entry 0x100 0x108 0x4444 EntrySample.echo EntrySample.msrs
        (syscall_instr EntrySample.msrs 0x400002 EntrySample.user_cpu))
     (λ c', rip c' = 0x400002 ∧ regs c' RAX = 9 ∧ regs c' RSP = 0x7008).
Proof.
  eapply wp_mono.
  - apply (syscall_transparent 0x100 0x108 0x4444 EntrySample.echo EntrySample.msrs 0x1000 0x2000 (λ args, nth 1 args 0)
      EntrySample.user_cpu 0x400002 EntrySample.layout EntrySample.echo_ok).
    + reflexivity.
    + left. lia.
  - intros c' (Hrip & _ & Hax & Hr & _). split; [exact Hrip|]. split; [exact Hax|].
    apply (Hr RSP). apply (bool_decide_unpack _). exact I.
Defined.

Lemma syscall_exit_window_witness :
  wp (to_sysret 0x100 0x108 0x4444 EntrySample.echo (syscall_instr EntrySample.msrs 0x400002 EntrySample.user_cpu))
     (λ c3, wp (ring0_interrupt 0x9000 c3) (λ c4, mem c4 !! 0x6ff0 = Some 0x7008)).
Proof.
  eapply wp_mono.
  - apply (syscall_exit_window 0x100 0x108 0x4444 EntrySample.echo EntrySample.msrs 0x1000 0x2000 (λ args, nth 1 args 0)
      EntrySample.user_cpu 0x400002 0x9000 EntrySample.layout EntrySample.echo_ok).
    + reflexivity.
    + intros c1 c2 Hc. unfold EntrySample.echo in Hc. destruct (mem c1 !! (regs c1 RDI + 8)); [|discriminate Hc].
      destruct (mem c1 !! regs c1 RSP); [|discriminate Hc]. injection Hc as <-. reflexivity.
    + split; vm_compute; [discriminate|reflexivity].
  - intros c3 (_ & _ & _ & Hi). eapply wp_mono; [exact Hi|]. intros c4 (_ & _ & Hw). cbn [words] in Hw. apply Hw.
Defined.

Lemma syscall_selectors_witness :
  wp (@GDT EntrySample.table) (λ '(_, sel), user_code_selector sel = 0x23).
Proof.
  eapply wp_mono.
  - apply (@syscall_selectors EntrySample.table (λ g, g) EntrySample.table_ok EntrySample.star EntrySample.star_ok
      checked_virt_new checked_virt_new_spec 0x5000). left. lia.
  - intros [g sel] [-> _]. reflexivity.
Defined.
