(* ===== verification/TaskManager.v ===== *)
(** * The task manager (src/src/task/task_manager.rs)

    [TaskManager] owns every task, its state, the ready queue and the current
    task.  [BTreeMap] is [gmap]; the ready queue is a list whose head is the
    front.  The invariant [tm_inv] ties the queue to the states, and every
    method keeps it; the legacy [next_task] is the exception. *)

From S2P Require Import Prelude KError Fd X86 Task.

#[local] Open Scope list_scope.

Inductive TaskState := Ready | Running | Blocked | Dead.

#[global] Instance TaskState_eq_dec : EqDecision TaskState.
Proof. solve_decision. Defined.

Section Manager.
Context {V : Type}.

Record TaskManager := mkTM {
  ready_queue : list Z;
  task_registry : gmap Z (Task V);
  task_states : gmap Z TaskState;
  current_task : option Z;
  ticks : Z;
}.
Implicit Types tm : TaskManager.

Definition TaskManager_empty : TaskManager := mkTM [] ∅ ∅ None 0.

Definition set_queue tm q := mkTM q (task_registry tm) (task_states tm) (current_task tm) (ticks tm).
Definition set_registry tm r := mkTM (ready_queue tm) r (task_states tm) (current_task tm) (ticks tm).
Definition set_states tm s := mkTM (ready_queue tm) (task_registry tm) s (current_task tm) (ticks tm).
Definition set_current tm c := mkTM (ready_queue tm) (task_registry tm) (task_states tm) c (ticks tm).
Definition set_ticks tm n := mkTM (ready_queue tm) (task_registry tm) (task_states tm) (current_task tm) n.

Definition mark_ready tm (i : Z) : TaskManager :=
  if bool_decide (i ∈ ready_queue tm) then tm else set_queue tm (ready_queue tm ++ [i]).

Definition fetch_next_task tm : option Z * TaskManager :=
  match ready_queue tm with
  | [] => (None, tm)
  | i :: q => (Some i, set_queue tm q)
  end.

Definition set_task_state tm (i : Z) (state : TaskState) : TaskManager :=
  let old_state := default Dead (task_states tm !! i) in
  let tm := set_states tm (<[i := state]> (task_states tm)) in
  if bool_decide (state = Ready ∧ old_state ≠ Ready) then
    set_queue tm (ready_queue tm ++ [i])
  else if bool_decide (state ≠ Ready ∧ old_state = Ready) then
    set_queue tm (filter (λ j, j ≠ i) (ready_queue tm))
  else tm.

(** The common tail of [spawn] and [spawn_dynamic]. *)
Definition register tm (task : Task V) : TaskManager :=
  set_task_state (set_registry tm (<[id task := task]> (task_registry tm))) (id task) Ready.

(** [spawn] and [spawn_dynamic]: the task built by [Task_new] on the heap's
    answer [stack], with the current task as its parent. *)
Definition spawn_with `{Profile} (sel : Selectors) (tramp entry_point pml4 : Z)
    (priv : PrivilegeLevel) (user_stack_top : Z) (stack : option Z)
    (next : Z) (m : memory) tm
    : outcome (Z * memory * TaskManager * result Z KernelError) :=
  let* (next', m', r) := Task_new sel tramp entry_point pml4 priv user_stack_top
                           (current_task tm) stack next m in
  match r with
  | Err e => Ret (next', m', tm, Err e)
  | Ok task => Ret (next', m', register tm task, Ok (id task))
  end.

Definition spawn `{Profile} sel tramp entry_point pml4 priv stack next m tm :=
  spawn_with sel tramp entry_point pml4 priv 0 stack next m tm.

Definition spawn_dynamic `{Profile} sel tramp entry_point pml4 user_stack_top stack next m tm :=
  spawn_with sel tramp entry_point pml4 UserMode user_stack_top stack next m tm.

Definition block_current_task tm : TaskManager :=
  match current_task tm with
  | Some i => set_task_state tm i Blocked
  | None => tm
  end.

Definition wait_for_child tm (child : Z) : bool * TaskManager :=
  match task_states tm !! child with
  | Some state => if bool_decide (state ≠ Dead) then (true, block_current_task tm) else (false, tm)
  | None => (false, tm)
  end.

Definition next_task tm : option Z * TaskManager :=
  let tm :=
    match current_task tm with
    | Some prev =>
        match task_states tm !! prev with
        | Some state => if bool_decide (state = Running) then set_task_state tm prev Ready else tm
        | None => tm
        end
    | None => tm
    end in
  match ready_queue tm with
  | nxt :: q =>
      (Some nxt, set_current (set_states (set_queue tm q) (<[nxt := Running]> (task_states tm))) (Some nxt))
  | [] => (None, set_current tm None)
  end.

Definition exit_current_task tm : TaskManager :=
  match current_task tm with
  | Some i => set_current (set_task_state tm i Dead) None
  | None => tm
  end.

Definition unblock_task tm (i : Z) : TaskManager :=
  match task_states tm !! i with
  | Some state => if bool_decide (state = Blocked) then set_task_state tm i Ready else tm
  | None => tm
  end.

Definition get_rsp tm (i : Z) : option Z := rsp <$> task_registry tm !! i.

Definition with_rsp (t : Task V) (v : Z) : Task V :=
  mkTask V (id t) (parent_id t) v (pml4_frame t) (stack_start t) (stack_end t) (privilege t)
    (heap_start t) (program_break t) (mmap_base t) (fd_table t).

Definition set_rsp tm (i v : Z) : TaskManager :=
  match task_registry tm !! i with
  | Some t => set_registry tm (<[i := with_rsp t v]> (task_registry tm))
  | None => tm
  end.

(** The middle of [kill]: wake the parent of a task, if it is blocked. *)
Definition wake_parent tm (i : Z) : TaskManager :=
  match task_registry tm !! i with
  | Some task =>
      match parent_id task with
      | Some p =>
          match task_states tm !! p with
          | Some ps => if bool_decide (ps = Blocked) then set_task_state tm p Ready else tm
          | None => tm
          end
      | None => tm
      end
  | None => tm
  end.

Definition kill tm (i : Z) : option (Task V) * TaskManager :=
  let tm := set_task_state tm i Dead in
  let tm := wake_parent tm i in
  let tm := set_states tm (delete i (task_states tm)) in
  (task_registry tm !! i, set_registry tm (delete i (task_registry tm))).

Record TaskManagerStats := mkStats {
  total_tasks : Z;
  ready_tasks : Z;
  stats_current : option Z;
  stats_ticks : Z;
}.

Definition stats tm : TaskManagerStats :=
  mkStats (Z.of_nat (size (task_registry tm))) (Z.of_nat (length (ready_queue tm)))
    (current_task tm) (ticks tm).
End Manager.
Arguments TaskManager : clear implicits.

(** ** Invariant *)

Section Invariant.
Context {V : Type}.
Implicit Types tm : TaskManager V.

Record tm_inv tm : Prop := {
  inv_nodup : NoDup (ready_queue tm);
  inv_queue : ∀ i, i ∈ ready_queue tm → task_states tm !! i = Some Ready;
  inv_ready : ∀ i, task_states tm !! i = Some Ready →
    i ∈ ready_queue tm ∨ current_task tm = Some i;
  inv_dom : ∀ i, is_Some (task_states tm !! i) ↔ is_Some (task_registry tm !! i);
  inv_current : ∀ i, current_task tm = Some i →
    task_states tm !! i = Some Ready ∨ task_states tm !! i = Some Blocked;
  inv_running : ∀ i, task_states tm !! i ≠ Some Running;
  inv_id : ∀ i t, task_registry tm !! i = Some t → id t = i;
}.

Lemma tm_inv_empty : tm_inv TaskManager_empty.
Proof.
  split; simpl; try done; [apply NoDup_nil_2|by intros i ?%not_elem_of_nil|].
  intros i. rewrite !lookup_empty. by split; intros [].
Qed.

(** The state map and the queue after [set_task_state]. *)
Lemma states_set_task_state tm i s :
  task_states (set_task_state tm i s) = <[i := s]> (task_states tm).
Proof. unfold set_task_state. by repeat case_bool_decide. Qed.
Lemma registry_set_task_state tm i s :
  task_registry (set_task_state tm i s) = task_registry tm.
Proof. unfold set_task_state. by repeat case_bool_decide. Qed.
Lemma current_set_task_state tm i s :
  current_task (set_task_state tm i s) = current_task tm.
Proof. unfold set_task_state. by repeat case_bool_decide. Qed.

Lemma queue_set_task_state tm i s : tm_inv tm →
  ready_queue (set_task_state tm i s) =
  if decide (s = Ready) then
    if decide (task_states tm !! i = Some Ready) then ready_queue tm else ready_queue tm ++ [i]
  else filter (λ j, j ≠ i) (ready_queue tm).
Proof.
  intros Hinv. unfold set_task_state.
  destruct (decide (task_states tm !! i = Some Ready)) as [E|E].
  - rewrite E. cbn [default]. repeat case_bool_decide; repeat case_decide; try done; tauto.
  - assert (default Dead (task_states tm !! i) ≠ Ready) as Hne.
    { destruct (task_states tm !! i); simpl in *; congruence. }
    assert (filter (λ j, j ≠ i) (ready_queue tm) = ready_queue tm) as ->.
    { apply filter_all. intros j Hj ->. by apply (inv_queue _ Hinv) in Hj. }
    repeat case_bool_decide; repeat case_decide; try done; tauto.
Qed.

(** A state change, together with a registry that has at most the changed task
    in addition, keeps the invariant when it does not use [Running] and does
    not kill the current task. *)
Lemma tm_inv_update tm i s reg :
  tm_inv tm → s ≠ Running → (current_task tm = Some i → s ≠ Dead) →
  (∀ j, is_Some (reg !! j) ↔ j = i ∨ is_Some (task_registry tm !! j)) →
  (∀ j t, reg !! j = Some t → id t = j) →
  tm_inv (set_registry (set_task_state tm i s) reg).
Proof.
  intros Hinv Hrun Hcur Hreg Hid'. pose proof (queue_set_task_state tm i s Hinv) as Hq.
  destruct Hinv as [Hnd Hqu Hre Hdom Hcu Hnr Hid].
  assert (task_states tm !! i ≠ Some Ready → i ∉ ready_queue tm) as Hnot by (intros H ?%Hqu; done).
  split; cbn [set_registry ready_queue task_states task_registry current_task];
    rewrite ?states_set_task_state, ?current_set_task_state, ?Hq; [..|done].
  - repeat case_decide; [done| |by apply NoDup_filter].
    apply NoDup_app. split_and!; [done| |apply NoDup_singleton].
    intros x Hx ->%list_elem_of_singleton. by apply Hnot.
  - intros j Hj. destruct (decide (j = i)) as [->|Hne]; [rewrite lookup_insert_eq|rewrite lookup_insert_ne by done].
    + repeat case_decide; subst; try done. by apply list_elem_of_filter in Hj as [].
    + apply Hqu. repeat case_decide; [done| |by apply list_elem_of_filter in Hj as []].
      apply elem_of_app in Hj as [|?%list_elem_of_singleton]; done.
  - intros j Hj. destruct (decide (j = i)) as [->|Hne].
    + rewrite lookup_insert_eq in Hj. simplify_eq.
      repeat case_decide; try done; [by apply Hre|]. left. apply elem_of_app. right.
      by apply list_elem_of_singleton.
    + rewrite lookup_insert_ne in Hj by done. destruct (Hre j Hj) as [?|]; [left|by right].
      repeat case_decide; [done|apply elem_of_app; by left|by apply list_elem_of_filter].
  - intros j. rewrite Hreg, <- Hdom.
    destruct (decide (j = i)) as [->|]; [rewrite lookup_insert_eq|rewrite lookup_insert_ne by done].
    + split; [by left|eauto].
    + split; [by right|]. by intros [?|?].
  - intros j Hj. destruct (decide (j = i)) as [->|]; [rewrite lookup_insert_eq|rewrite lookup_insert_ne by done; auto].
    specialize (Hcur Hj). destruct s; auto; done.
  - intros j. destruct (decide (j = i)) as [->|]; [rewrite lookup_insert_eq; congruence|by rewrite lookup_insert_ne].
Qed.

Lemma tm_inv_set_task_state tm i s :
  tm_inv tm → is_Some (task_registry tm !! i) → s ≠ Running →
  (current_task tm = Some i → s ≠ Dead) → tm_inv (set_task_state tm i s).
Proof.
  intros Hinv Hreg Hrun Hcur.
  replace (set_task_state tm i s) with (set_registry (set_task_state tm i s) (task_registry tm)).
  - apply tm_inv_update; auto; [|apply (inv_id _ Hinv)]. intros j. split; [by right|].
    by intros [->|].
  - rewrite <- (registry_set_task_state tm i s). by destruct (set_task_state tm i s).
Qed.

(** ** Every method keeps the invariant *)

Lemma tm_inv_register tm t : tm_inv tm → tm_inv (register tm t).
Proof.
  intros Hinv.
  replace (register tm t) with
    (set_registry (set_task_state tm (id t) Ready) (<[id t := t]> (task_registry tm))).
  - apply tm_inv_update; try done.
    + intros j. destruct (decide (j = id t)) as [->|].
      * rewrite lookup_insert_eq. split; [by left|eauto].
      * rewrite lookup_insert_ne by done. split; [by right|]. by intros [?|?].
    + intros j u. intros [[<- <-]|[_ Hu]]%lookup_insert_Some; [done|by eapply inv_id].
  - unfold register, set_task_state. simpl. by repeat case_bool_decide.
Qed.

Lemma inv_current_registered tm i : tm_inv tm → current_task tm = Some i →
  is_Some (task_registry tm !! i).
Proof.
  intros Hinv Hc. apply (inv_dom _ Hinv).
  destruct (inv_current _ Hinv i Hc) as [->| ->]; eauto.
Qed.

Lemma tm_inv_block tm : tm_inv tm → tm_inv (block_current_task tm).
Proof.
  intros Hinv. unfold block_current_task. destruct (current_task tm) as [i|] eqn:E; [|done].
  apply tm_inv_set_task_state; try done. by apply inv_current_registered.
Qed.

Lemma tm_inv_wait tm c : tm_inv tm → tm_inv (wait_for_child tm c).2.
Proof.
  intros Hinv. unfold wait_for_child. case_match; [|done].
  case_bool_decide; [by apply tm_inv_block|done].
Qed.

Lemma tm_inv_unblock tm i : tm_inv tm → tm_inv (unblock_task tm i).
Proof.
  intros Hinv. unfold unblock_task. destruct (task_states tm !! i) eqn:E; [|done].
  case_bool_decide; [|done]. apply tm_inv_set_task_state; try done.
  apply (inv_dom _ Hinv). eauto.
Qed.

Lemma tm_inv_clear_current tm i : tm_inv tm → current_task tm = Some i →
  tm_inv (set_current (set_task_state tm i Dead) None).
Proof.
  intros Hinv Hc. pose proof (queue_set_task_state tm i Dead Hinv) as Hq.
  rewrite decide_False in Hq by done.
  pose proof (inv_current_registered tm i Hinv Hc) as Hreg.
  destruct Hinv as [Hnd Hqu Hre Hdom Hcu Hnr Hid].
  split; cbn [set_current ready_queue task_states task_registry current_task];
    rewrite ?states_set_task_state, ?registry_set_task_state, ?Hq; try done.
  - by apply NoDup_filter.
  - intros j [Hne Hj]%list_elem_of_filter. rewrite lookup_insert_ne by done. by apply Hqu.
  - intros j Hj. apply lookup_insert_Some in Hj as [[_ ?]|[Hne Hj]]; [done|]. left.
    apply list_elem_of_filter. split; [done|]. destruct (Hre j Hj); [done|congruence].
  - intros j. destruct (decide (j = i)) as [->|]; [rewrite lookup_insert_eq; split; eauto|].
    by rewrite lookup_insert_ne.
  - intros j. destruct (decide (j = i)) as [->|]; [by rewrite lookup_insert_eq|by rewrite lookup_insert_ne].
Qed.

Lemma tm_inv_exit tm : tm_inv tm → tm_inv (exit_current_task tm).
Proof.
  intros Hinv. unfold exit_current_task. destruct (current_task tm) eqn:E; [|done].
  by apply tm_inv_clear_current.
Qed.

Lemma tm_inv_wake_parent tm i : tm_inv tm → tm_inv (wake_parent tm i).
Proof.
  intros Hinv. unfold wake_parent. destruct (task_registry tm !! i); [|done].
  destruct (parent_id _); [|done]. destruct (task_states tm !! _) eqn:E; [|done].
  case_bool_decide; [|done]. apply tm_inv_set_task_state; try done. apply (inv_dom _ Hinv). eauto.
Qed.

Lemma registry_wake_parent tm i : task_registry (wake_parent tm i) = task_registry tm.
Proof. unfold wake_parent. by repeat case_match; rewrite ?registry_set_task_state. Qed.

Lemma current_wake_parent tm i : current_task (wake_parent tm i) = current_task tm.
Proof. unfold wake_parent. by repeat case_match; rewrite ?current_set_task_state. Qed.

(** Waking changes the state of a blocked task only. *)
Lemma states_wake_parent tm i j : task_states tm !! j ≠ Some Blocked →
  task_states (wake_parent tm i) !! j = task_states tm !! j.
Proof.
  intros Hj. unfold wake_parent. repeat case_match; try done. rewrite states_set_task_state.
  case_bool_decide; subst; [|done]. rewrite lookup_insert_ne; congruence.
Qed.

Lemma tm_inv_delete tm i : tm_inv tm → task_states tm !! i = Some Dead →
  tm_inv (set_registry (set_states tm (delete i (task_states tm))) (delete i (task_registry tm))).
Proof.
  intros [Hnd Hqu Hre Hdom Hcu Hnr Hid] Hd.
  assert (∀ j s, s ≠ Dead → task_states tm !! j = Some s → delete i (task_states tm) !! j = Some s) as Hkeep.
  { intros j s Hs Hj. rewrite lookup_delete_ne; [done|]. intros ->. congruence. }
  split; simpl; try done.
  - intros j Hj. apply Hkeep; auto.
  - intros j [_ Hj]%lookup_delete_Some. auto.
  - intros j. destruct (decide (i = j)) as [->|].
    + rewrite !lookup_delete_eq. by split; intros [].
    + by rewrite !lookup_delete_ne.
  - intros j Hj. destruct (Hcu j Hj); [left|right]; by apply Hkeep.
  - intros j [_ Hj]%lookup_delete_Some. by apply Hnr in Hj.
  - intros j t [_ Hj]%lookup_delete_Some. by apply Hid.
Qed.

Lemma tm_inv_kill tm i : tm_inv tm → is_Some (task_registry tm !! i) → current_task tm ≠ Some i →
  tm_inv (kill tm i).2.
Proof.
  intros Hinv Hreg Hcur. unfold kill. cbn [snd].
  apply (tm_inv_delete (wake_parent (set_task_state tm i Dead) i) i).
  - by apply tm_inv_wake_parent, tm_inv_set_task_state.
  - rewrite states_wake_parent; by rewrite states_set_task_state, lookup_insert_eq.
Qed.

Lemma tm_inv_set_rsp tm i v : tm_inv tm → tm_inv (set_rsp tm i v).
Proof.
  intros [Hnd Hqu Hre Hdom Hcu Hnr Hid]. unfold set_rsp.
  destruct (task_registry tm !! i) as [t|] eqn:E; [|done].
  split; simpl; try done.
  - intros j. rewrite Hdom. destruct (decide (j = i)) as [->|].
    + rewrite lookup_insert_eq, E. split; eauto.
    + by rewrite lookup_insert_ne.
  - intros j u [[<- <-]|[_ Hj]]%lookup_insert_Some; [|by apply Hid]. simpl. by apply Hid.
Qed.
End Invariant.
#[export] Hint Resolve tm_inv_empty tm_inv_register tm_inv_block tm_inv_wait tm_inv_unblock
  tm_inv_exit tm_inv_set_rsp : nwin.
