(* ===== verification/Scheduler.v ===== *)
(** * The scheduler (src/src/task/scheduler.rs) and the reaper (src/src/task/mod.rs)

    [schedule] is the timer handler: it requeues the current task, takes the
    next one from the ready queue, loads the address space and the kernel
    stacks of the next task, acknowledges the interrupt and switches stacks.
    The model runs it on the task manager, the processor registers it writes
    and the processor of X86.v, so the switch is the assembly of Task.v.

    The theorems: the invariant of the task manager holds in every reachable
    state; a ready task is dispatched within as many ticks as its position in
    the queue, whatever else happens; and [schedule] keeps every parked task
    resumable. *)

From S2P Require Import Prelude KError Fd X86 Task TaskManager.

#[local] Open Scope list_scope.

Definition TIMER_INTERRUPT : Z := 32.

(** The [rsp] cell [context_switch] writes: the field of a task, or
    [BOOT_RSP]. *)
Inductive save_cell := TaskRsp (i : Z) | BootRsp.

Section Schedule.
Context {V : Type}.

(** The state [schedule] works on, besides the processor: the task manager, the
    TSS entry, the stack of [syscall] entry, CR3, [BOOT_RSP] and the
    end-of-interrupt commands sent to the PIC, latest first. *)
Record machine := mkMachine {
  tm : TaskManager V;
  tss_rsp0 : Z;
  KERNEL_RSP : Z;
  cr3 : Z;
  BOOT_RSP : Z;
  eois : list Z;
}.
Implicit Types m : machine.

Definition set_tm m t := mkMachine t (tss_rsp0 m) (KERNEL_RSP m) (cr3 m) (BOOT_RSP m) (eois m).
Definition set_tss_rsp0 m v := mkMachine (tm m) v (KERNEL_RSP m) (cr3 m) (BOOT_RSP m) (eois m).
Definition set_kernel_rsp m v := mkMachine (tm m) (tss_rsp0 m) v (cr3 m) (BOOT_RSP m) (eois m).
Definition set_cr3 m v := mkMachine (tm m) (tss_rsp0 m) (KERNEL_RSP m) v (BOOT_RSP m) (eois m).
Definition set_boot_rsp m v := mkMachine (tm m) (tss_rsp0 m) (KERNEL_RSP m) (cr3 m) v (eois m).
Definition notify_eoi m v := mkMachine (tm m) (tss_rsp0 m) (KERNEL_RSP m) (cr3 m) (BOOT_RSP m) (v :: eois m).

(** The current task goes back to the queue if it can still run. *)
Definition requeue_current (t : TaskManager V) : TaskManager V :=
  match current_task t with
  | Some c =>
      let state := default Ready (task_states t !! c) in
      if bool_decide (state = Running ∨ state = Ready) then mark_ready t c else t
  | None => t
  end.

(** The tick, the requeueing and the choice of the next task. *)
Definition pick (t : TaskManager V) : option Z * TaskManager V :=
  let t := set_ticks t (wrap 64 (ticks t + 1)) in
  fetch_next_task (requeue_current t).

(** The task manager after the locked part of [schedule]. *)
Definition advance (t : TaskManager V) : TaskManager V :=
  let '(nxt, t') := pick t in
  match nxt with
  | Some n => if bool_decide (Some n ≠ current_task t) then set_current t' (Some n) else t'
  | None => t'
  end.

(** Preparing the jump to [next_task]: RSP0 for a user task, then its address
    space and saved stack pointer. *)
Definition load_task `{VirtAddrNew} m (cell : save_cell) (next_task : Task V)
    : outcome (machine * option Z * option (save_cell * Z)) :=
  m <- (if bool_decide (privilege next_task = UserMode)
        then a <- virt_new (stack_end next_task);; Ret (set_tss_rsp0 m a)
        else Ret m);;
  Ret (m, Some (pml4_frame next_task), Some (cell, rsp next_task)).

(** The locked part of [schedule]. *)
Definition select `{VirtAddrNew} m : outcome (machine * option Z * option (save_cell * Z)) :=
  let current_id_opt := current_task (tm m) in
  let '(nxt, t) := pick (tm m) in
  let m := set_tm m t in
  match nxt with
  | Some n =>
      if bool_decide (Some n ≠ current_id_opt) then
        let m := set_tm m (set_current (tm m) (Some n)) in
        match current_id_opt with
        | Some c =>
            match task_registry (tm m) !! c with
            | Some _ =>
                match task_registry (tm m) !! n with
                | Some next_task => load_task m (TaskRsp c) next_task
                | None => Ret (m, None, None)
                end
            | None => Ret (m, None, None)
            end
        | None =>
            match task_registry (tm m) !! n with
            | Some next_task => load_task m BootRsp next_task
            | None => Ret (m, None, None)
            end
        end
      else Ret (m, None, None)
  | None => Ret (m, None, None)
  end.

(** [KERNEL_RSP] follows the current task. *)
Definition update_kernel_rsp m : machine :=
  match current_task (tm m) with
  | Some i =>
      match task_registry (tm m) !! i with
      | Some task => set_kernel_rsp m (stack_end task)
      | None => m
      end
  | None => m
  end.

Definition update_cr3 m (next_cr3 : option Z) : machine :=
  match next_cr3 with
  | Some pml4 => if bool_decide (cr3 m ≠ pml4) then set_cr3 m pml4 else m
  | None => m
  end.

Definition save_rsp m (cell : save_cell) (v : Z) : machine :=
  match cell with
  | TaskRsp i => set_tm m (set_rsp (tm m) i v)
  | BootRsp => set_boot_rsp m v
  end.

(** [schedule]: [cell_addr] gives the address of a cell, [ret_addr] is the
    return address the call of [context_switch] pushes. *)
Definition schedule `{VirtAddrNew} (cell_addr : save_cell → Z) (ret_addr : Z) m (c : cpu)
    : outcome (machine * cpu) :=
  let* (m, next_cr3, switch_data) := select m in
  let m := notify_eoi m TIMER_INTERRUPT in
  let m := update_kernel_rsp m in
  let m := update_cr3 m next_cr3 in
  match switch_data with
  | Some (cell, new_rsp) =>
      c <- push c ret_addr;;
      let* (out, c) := context_switch (cell_addr cell) new_rsp c in
      Ret (save_rsp m cell out, c)
  | None => Ret (m, c)
  end.

(** [timer_interrupt_handler] of src/src/core/idt.rs. *)
Definition timer_interrupt_handler `{VirtAddrNew} (cell_addr : save_cell → Z) (ret_addr : Z) m c :=
  schedule cell_addr ret_addr (notify_eoi m TIMER_INTERRUPT) c.

Definition get_stats m : TaskManagerStats := stats (tm m).

(** ** The reaper *)

(** The dead tasks in key order, as iterating over the [BTreeMap] gives
    them. *)
Definition dead_tasks (t : TaskManager V) : list Z :=
  filter (λ i, task_states t !! i = Some Dead)
    (merge_sort Z.le (elements (dom (task_states t)))).

(** One dead task: [kill], then its address space if it ran in ring 3.  The
    result lists the PML4 frames to destroy, in order. *)
Definition reap_one (st : TaskManager V * list Z) (i : Z) : TaskManager V * list Z :=
  let '(t, freed) := st in
  let '(purged, t) := kill t i in
  match purged with
  | Some task =>
      (t, if bool_decide (privilege task = UserMode) then freed ++ [pml4_frame task] else freed)
  | None => (t, freed)
  end.

(** The body of the loop of [hilo_segador], once it wakes up. *)
Definition hilo_segador (t : TaskManager V) : TaskManager V * list Z :=
  foldl reap_one (t, []) (dead_tasks t).
End Schedule.
Arguments machine : clear implicits.

(** ** Choosing the next task *)

Section Advance.
Context {V : Type}.
Implicit Types t : TaskManager V.

(** The queue the next task is taken from. *)
Definition round_queue t : list Z :=
  match current_task t with
  | Some c =>
      if decide (task_states t !! c = Some Ready ∧ c ∉ ready_queue t) then ready_queue t ++ [c]
      else ready_queue t
  | None => ready_queue t
  end.

Lemma requeue_current_eq t : tm_inv t → requeue_current t = set_queue t (round_queue t).
Proof.
  intros Hinv. unfold requeue_current, round_queue.
  destruct (current_task t) as [c|] eqn:E; [|by destruct t].
  destruct (inv_current _ Hinv c E) as [Hs|Hs]; rewrite Hs; cbn [default].
  - rewrite bool_decide_true by auto. unfold mark_ready. case_bool_decide.
    + rewrite decide_False by tauto. by destruct t.
    + by rewrite decide_True by done.
  - rewrite bool_decide_false by (intros [?|?]; done).
    rewrite decide_False by (intros [? _]; done). by destruct t.
Qed.

Lemma tm_inv_ticks t n : tm_inv t → tm_inv (set_ticks t n).
Proof. intros []. by split. Qed.

Lemma round_queue_ticks t n : round_queue (set_ticks t n) = round_queue t.
Proof. done. Qed.

Lemma pick_eq t : tm_inv t →
  pick t = (head (round_queue t),
            set_queue (set_ticks t (wrap 64 (ticks t + 1))) (tail (round_queue t))).
Proof.
  intros Hinv. unfold pick. rewrite requeue_current_eq by (by apply tm_inv_ticks).
  rewrite round_queue_ticks. unfold fetch_next_task. simpl.
  by destruct (round_queue t) as [|h q].
Qed.

(** The whole effect of a tick on the task manager. *)
Lemma advance_eq t : tm_inv t →
  advance t = set_current (set_queue (set_ticks t (wrap 64 (ticks t + 1))) (tail (round_queue t)))
                (match head (round_queue t) with Some n => Some n | None => current_task t end).
Proof.
  intros Hinv. unfold advance. rewrite pick_eq by done.
  destruct (round_queue t) as [|h q]; simpl; [done|].
  case_bool_decide as Hb; [done|]. by rewrite Hb.
Qed.

Lemma round_queue_spec t : tm_inv t →
  NoDup (round_queue t) ∧ (∀ i, i ∈ round_queue t ↔ task_states t !! i = Some Ready).
Proof.
  intros Hinv. pose proof (inv_nodup _ Hinv) as Hnd. pose proof (inv_queue _ Hinv) as Hqu.
  pose proof (inv_ready _ Hinv) as Hre. unfold round_queue.
  destruct (current_task t) as [c|].
  - case_decide as E.
    + destruct E as [Hs Hn]. split.
      * apply NoDup_app. split_and!; [done| |apply NoDup_singleton].
        by intros x Hx ->%list_elem_of_singleton.
      * intros i. rewrite elem_of_app, list_elem_of_singleton. split.
        -- intros [?| ->]; auto.
        -- intros Hi. destruct (Hre i Hi) as [?|[= ->]]; auto.
    + split; [done|]. intros i. split; [auto|]. intros Hi.
      destruct (Hre i Hi) as [?|[= ->]]; [done|].
      apply dec_stable. intros Hn. by apply E.
  - split; [done|]. intros i. split; [auto|]. intros Hi. by destruct (Hre i Hi).
Qed.

Lemma tm_inv_advance t : tm_inv t → tm_inv (advance t).
Proof.
  intros Hinv. rewrite advance_eq by done.
  destruct (round_queue_spec t Hinv) as [Hnd Hel]. destruct Hinv as [_ _ Hre Hdom Hcu Hnr Hid].
  destruct (round_queue t) as [|h q] eqn:E; simpl.
  - split; simpl; try done.
    + intros i. by rewrite <- Hel.
    + intros i Hi. apply Hel in Hi. by apply not_elem_of_nil in Hi.
  - apply NoDup_cons in Hnd as [Hh Hnd]. split; simpl; try done.
    + intros i Hi. apply Hel. by right.
    + intros i Hi%Hel. apply elem_of_cons in Hi as [->|]; auto.
    + intros i [= <-]. left. apply Hel. left.
Qed.
End Advance.
#[export] Hint Resolve tm_inv_advance : nwin.

(** ** Reachable states *)

Section Reachable.
Context {V : Type}.
Implicit Types t : TaskManager V.

(** What happens to the task manager: a tick, a new task, the current task
    blocking, waiting for a child or exiting, a wake-up, the reaper killing a
    dead task, and the write of a saved stack pointer. *)
Inductive event :=
| Tick
| Spawn (task : Task V)
| BlockE
| WaitE (child : Z)
| ExitE
| Unblock (i : Z)
| Reap (i : Z)
| SaveRsp (i v : Z).

Definition apply_event t (e : event) : TaskManager V :=
  match e with
  | Tick => advance t
  | Spawn task => register t task
  | BlockE => block_current_task t
  | WaitE child => (wait_for_child t child).2
  | ExitE => exit_current_task t
  | Unblock i => unblock_task t i
  | Reap i => (kill t i).2
  | SaveRsp i v => set_rsp t i v
  end.

(** New tasks have new numbers; the reaper only kills dead tasks. *)
Definition enabled t (e : event) : Prop :=
  match e with
  | Spawn task => task_registry t !! id task = None
  | Reap i => task_states t !! i = Some Dead
  | _ => True
  end.

Inductive tm_step : TaskManager V → TaskManager V → Prop :=
| tm_step_event t e : enabled t e → tm_step t (apply_event t e).

Lemma tm_inv_event t e : tm_inv t → enabled t e → tm_inv (apply_event t e).
Proof.
  intros Hinv He. destruct e; cbn [apply_event]; auto with nwin.
  cbn [enabled] in He. apply tm_inv_kill; [done|apply (inv_dom _ Hinv); eauto|].
  intros Hc. by destruct (inv_current _ Hinv i Hc) as [E|E]; rewrite He in E.
Qed.

(** C13: in every state reachable from the empty task manager, by any
    interleaving of ticks, spawns, blocking, waiting, exits, wake-ups and
    reaping: the ready queue has no duplicates and holds exactly the tasks in
    state [Ready], except that the current task may be missing from it; states
    and tasks have the same keys; the current task exists and is not dead; and
    no task is ever in state [Running]. *)
Theorem task_manager_invariant t : rtc tm_step TaskManager_empty t → tm_inv t.
Proof.
  intros Hr. cut (∀ a b, rtc tm_step a b → tm_inv a → tm_inv b).
  { intros Hc. apply (Hc _ _ Hr). apply tm_inv_empty. }
  clear t Hr. intros a b. induction 1 as [|a b c Hstep _ IH]; [done|].
  intros Hinv. apply IH. destruct Hstep. by apply tm_inv_event.
Qed.
End Reachable.
Arguments event : clear implicits.

(** A first task, as [Task_new] builds it. *)
Definition sample_task (i : Z) (parent : option Z) : Task unit :=
  mkTask unit i parent 0x2ffb8 0x1000 0x20000 0x30000 KernelMode
    0x200000000 0x200000000 0x400000000000 FdTable_new.

Lemma task_manager_invariant_witness :
  tm_inv (advance (register TaskManager_empty (sample_task 1 None))).
Proof.
  apply (task_manager_invariant (advance (register TaskManager_empty (sample_task 1 None)))).
  eapply rtc_l; [apply (tm_step_event TaskManager_empty (Spawn (sample_task 1 None))); reflexivity|].
  eapply rtc_l; [apply (tm_step_event (register TaskManager_empty (sample_task 1 None)) Tick); exact I|].
  apply rtc_refl.
Defined.

(** ** Fairness *)

Section Fairness.
Context {V : Type}.
Implicit Types t : TaskManager V.

(** [i] waits in the queue with at most [k] tasks before it. *)
Definition queued (q : list Z) (i : Z) (k : nat) : Prop := ∃ k', (k' ≤ k)%nat ∧ q !! k' = Some i.

Lemma queued_app q q' i k : queued q i k → queued (q ++ q') i k.
Proof.
  intros (k' & ? & Hk). exists k'. split; [done|]. by apply lookup_app_l_Some.
Qed.

Lemma queued_filter q i j k : i ≠ j → queued q i k → queued (filter (λ x, x ≠ j) q) i k.
Proof.
  intros Hij. revert k. induction q as [|x q IH]; intros k (k' & Hle & Hk); [done|].
  destruct k' as [|k']; simpl in Hk.
  - simplify_eq. rewrite filter_cons_True by done. exists 0%nat. split; [lia|done].
  - destruct k as [|k]; [lia|]. destruct (IH k) as (k'' & ? & ?); [exists k'; split; [lia|done]|].
    rewrite filter_cons. case_decide; [exists (S k'')|exists k'']; (split; [lia|done]).
Qed.

Lemma queued_set_task_state t j s i k : (s ≠ Ready → i ≠ j) →
  queued (ready_queue t) i k → queued (ready_queue (set_task_state t j s)) i k.
Proof.
  intros Hs Hq. unfold set_task_state. case_bool_decide; simpl; [by apply queued_app|].
  case_bool_decide; simpl; [|done]. apply queued_filter; [|done]. tauto.
Qed.

Lemma queued_wake_parent t j i k :
  queued (ready_queue t) i k → queued (ready_queue (wake_parent t j)) i k.
Proof.
  intros Hq. unfold wake_parent. repeat case_match; try done.
  by apply queued_set_task_state.
Qed.

(** Events other than ticks do not move a waiting task back. *)
Lemma queued_event t e i k : tm_inv t → enabled t e → e ≠ Tick → current_task t ≠ Some i →
  queued (ready_queue t) i k →
  queued (ready_queue (apply_event t e)) i k ∧ current_task (apply_event t e) ≠ Some i.
Proof.
  intros Hinv He Hne Hc Hq.
  assert (task_states t !! i = Some Ready) as Hi.
  { destruct Hq as (k' & _ & Hk). eapply inv_queue; [done|]. by eapply list_elem_of_lookup_2. }
  assert (queued (ready_queue (block_current_task t)) i k
          ∧ current_task (block_current_task t) ≠ Some i) as Hblock.
  { unfold block_current_task. destruct (current_task t) as [c|] eqn:E; [|by rewrite E].
    rewrite current_set_task_state, E. split; [|done].
    apply queued_set_task_state; [|done]. intros _ ->. done. }
  destruct e as [|task| |child| |j|j|j v]; cbn [apply_event]; try done.
  - unfold register. rewrite current_set_task_state. split; [|done]. by apply queued_set_task_state.
  - unfold wait_for_child. case_match; [|done]. case_bool_decide; done.
  - unfold exit_current_task. destruct (current_task t) as [c|] eqn:E; [|by rewrite E].
    simpl. split; [|done]. apply queued_set_task_state; [|done]. intros _ ->. done.
  - unfold unblock_task. case_match; [|done]. case_bool_decide; [|done].
    rewrite current_set_task_state. split; [|done]. by apply queued_set_task_state.
  - unfold kill. cbn [snd]. simpl. rewrite current_wake_parent, current_set_task_state.
    split; [|done]. apply queued_wake_parent, queued_set_task_state; [|done].
    intros _ ->. cbn [enabled] in He. congruence.
  - unfold set_rsp. case_match; done.
Qed.

Lemma queued_tick t i k : tm_inv t → queued (ready_queue t) i k →
  current_task (apply_event t Tick) = Some i
  ∨ (∃ k', k = S k' ∧ queued (ready_queue (apply_event t Tick)) i k').
Proof.
  intros Hinv Hq. cbn [apply_event]. rewrite advance_eq by done. simpl.
  assert (queued (round_queue t) i k) as (k' & Hle & Hk).
  { unfold round_queue. destruct (current_task t); [|done]. case_decide; [by apply queued_app|done]. }
  destruct (round_queue t) as [|h q]; [done|]. destruct k' as [|k']; simpl in *.
  - left. congruence.
  - right. destruct k as [|k]; [lia|]. exists k. split; [done|]. exists k'. split; [lia|done].
Qed.

Fixpoint run_events t (es : list (event V)) : TaskManager V :=
  match es with [] => t | e :: es' => run_events (apply_event t e) es' end.

Fixpoint enabled_all t (es : list (event V)) : Prop :=
  match es with [] => True | e :: es' => enabled t e ∧ enabled_all (apply_event t e) es' end.

Fixpoint tick_count (es : list (event V)) : nat :=
  match es with
  | [] => 0
  | Tick :: es' => S (tick_count es')
  | _ :: es' => tick_count es'
  end.

(** C23: no starvation.  A task that has [k] tasks before it in the ready queue
    becomes the current task at the latest at the [k + 1]st tick, whatever
    other events (spawns, wake-ups, exits, waits, reaping) come between the
    ticks and in whatever order. *)
Theorem ready_task_dispatched t i k es :
  tm_inv t → ready_queue t !! k = Some i → enabled_all t es → (k < tick_count es)%nat →
  ∃ es1 es2, es = es1 ++ es2 ∧ current_task (run_events t es1) = Some i.
Proof.
  intros Hinv Hk. assert (queued (ready_queue t) i k) as Hq by (exists k; done). clear Hk.
  revert t k Hinv Hq. induction es as [|e es IH]; intros t k Hinv Hq Hen Hlt; [simpl in Hlt; lia|].
  destruct (decide (current_task t = Some i)) as [|Hc]; [by exists [], (e :: es)|].
  destruct Hen as [He Hen].
  assert (tm_inv (apply_event t e)) as Hinv' by (by apply tm_inv_event).
  assert (∀ k', queued (ready_queue (apply_event t e)) i k' → (k' < tick_count es)%nat →
    ∃ es1 es2, e :: es = es1 ++ es2 ∧ current_task (run_events t es1) = Some i) as Hgo.
  { intros k' Hq' Hlt'. destruct (IH _ k' Hinv' Hq' Hen Hlt') as (es1 & es2 & -> & Hcur).
    by exists (e :: es1), es2. }
  assert (e = Tick ∨ e ≠ Tick) as [->|Hne] by (destruct e; auto; by right).
  - destruct (queued_tick t i k Hinv Hq) as [Hcur|(k' & -> & Hq')].
    + by exists [Tick], es.
    + simpl in Hlt. apply (Hgo k'); [done|lia].
  - apply (Hgo k); [by apply queued_event|]. by destruct e.
Qed.
End Fairness.

(** Three tasks, the second of which blocks: the third still gets the
    processor. *)
Definition three_tasks : TaskManager unit :=
  register (register (register TaskManager_empty (sample_task 1 None)) (sample_task 2 (Some 1)))
    (sample_task 3 (Some 1)).

Lemma three_tasks_inv : tm_inv three_tasks.
Proof. unfold three_tasks. auto 10 with nwin. Qed.

Lemma ready_task_dispatched_witness :
  ∃ es1 es2, [Tick; Tick; BlockE; Unblock 2; Spawn (sample_task 4 None); Tick; ExitE] = es1 ++ es2
    ∧ current_task (run_events three_tasks es1) = Some 3.
Proof.
  apply (ready_task_dispatched three_tasks 3 2
           [Tick; Tick; BlockE; Unblock 2; Spawn (sample_task 4 None); Tick; ExitE]).
  - apply three_tasks_inv.
  - reflexivity.
  - vm_compute. intuition.
  - vm_compute. lia.
Defined.

(** ** The switch keeps every task resumable *)

Section Machine.
Context {V : Type}.
Implicit Types (m : machine V) (c : cpu) (u v : Task V).

(** A task that can run again and is not running. *)
Definition parked (t : TaskManager V) (i : Z) u : Prop :=
  task_registry t !! i = Some u ∧ task_states t !! i ≠ Some Dead ∧ current_task t ≠ Some i.

(** The kernel stack of a task: room for a frame, and a canonical end. *)
Definition stack_ok u : Prop :=
  0 < stack_start u ∧ stack_start u + 128 ≤ stack_end u < 2 ^ 64 - 64 ∧ canonical (stack_end u).

(** The saved pointer of a task points to a complete frame on its stack. *)
Definition framed u (mm : memory) : Prop :=
  rsp u mod 8 = 0 ∧ stack_start u ≤ rsp u ∧ rsp u + 64 ≤ stack_end u ∧
  ∃ fl ws ret, length ws = 6%nat ∧ words mm (rsp u) (fl :: ws ++ [ret]).

Definition disjoint_stacks u v : Prop :=
  stack_end u ≤ stack_start v ∨ stack_end v ≤ stack_start u.

(** The processor runs on the stack of [u], or away from it, with room for one
    return address and one frame. *)
Definition on_stack u c : Prop := stack_start u + 64 ≤ regs c RSP ≤ stack_end u.
Definition off_stack u c : Prop := regs c RSP ≤ stack_start u ∨ stack_end u ≤ regs c RSP - 64.

(** The registers the kernel keeps for the running task. *)
Definition loaded m u : Prop :=
  KERNEL_RSP m = stack_end u ∧ cr3 m = pml4_frame u
  ∧ (privilege u = UserMode → tss_rsp0 m = stack_end u).

Record machine_ok m c : Prop := {
  mo_inv : tm_inv (tm m);
  mo_stacks : ∀ i u, task_registry (tm m) !! i = Some u → stack_ok u;
  mo_disjoint : ∀ i j u v, i ≠ j → task_registry (tm m) !! i = Some u →
    task_registry (tm m) !! j = Some v → disjoint_stacks u v;
  mo_frames : ∀ i u, parked (tm m) i u → framed u (mem c);
  mo_cpu : regs c RSP mod 8 = 0 ∧ 64 ≤ regs c RSP < 2 ^ 64;
  mo_on : ∀ i u, current_task (tm m) = Some i → task_registry (tm m) !! i = Some u →
    on_stack u c ∧ loaded m u;
  mo_off : current_task (tm m) = None → ∀ i u, parked (tm m) i u → off_stack u c;
}.

Lemma machine_off m c i u : machine_ok m c → parked (tm m) i u → off_stack u c.
Proof.
  intros Hok Hp. destruct (current_task (tm m)) as [k|] eqn:E; [|by eapply mo_off].
  destruct (inv_current_registered _ k (mo_inv _ _ Hok) E) as [v Hv].
  destruct (mo_on _ _ Hok k v E Hv) as [Hon _]. destruct Hp as (Hu & _ & Hne).
  pose proof (mo_disjoint _ _ Hok k i v u ltac:(congruence) Hv Hu).
  unfold disjoint_stacks, on_stack, off_stack in *. lia.
Qed.

Lemma framed_mem u mm mm' : framed u mm →
  (∀ a, rsp u ≤ a < rsp u + 64 → mm' !! a = mm !! a) → framed u mm'.
Proof.
  intros (Ha & Hlo & Hhi & fl & ws & ret & Hlen & Hw) Hag. split_and!; try done.
  exists fl, ws, ret. split; [done|]. eapply words_agree; [|exact Hw].
  intros a Hra. symmetry. apply Hag. simpl in Hra. rewrite length_app, Hlen in Hra. simpl in Hra. lia.
Qed.

(** The part of the invariant that depends on the task manager is kept when a
    tick keeps the current task. *)
Lemma machine_ok_stay m c : machine_ok m c →
  current_task (advance (tm m)) = current_task (tm m) →
  machine_ok (update_kernel_rsp (notify_eoi (set_tm m (advance (tm m))) TIMER_INTERRUPT)) c.
Proof.
  intros Hok Hcur. pose proof (mo_inv _ _ Hok) as Hinv.
  pose proof (tm_inv_advance _ Hinv) as Hinv'.
  assert (task_registry (advance (tm m)) = task_registry (tm m)
          ∧ task_states (advance (tm m)) = task_states (tm m)) as [Hreg Hst] by (by rewrite advance_eq).
  set (m' := update_kernel_rsp _).
  assert (tm m' = advance (tm m) ∧ tss_rsp0 m' = tss_rsp0 m ∧ cr3 m' = cr3 m) as (Htm & Htss & Hcr3).
  { unfold m', update_kernel_rsp. simpl. by repeat case_match. }
  assert (∀ i u, parked (advance (tm m)) i u ↔ parked (tm m) i u) as Hpk.
  { intros i u. unfold parked. by rewrite Hreg, Hst, Hcur. }
  destruct Hok as [_ Hss Hdj Hfr Hcpu Hon Hoff].
  split; rewrite ?Htm, ?Hreg, ?Hcur; try done.
  - intros i u ?%Hpk. by eapply Hfr.
  - intros i u Hc Hu. destruct (Hon i u Hc Hu) as [? (? & ? & ?)]. split; [done|].
    unfold loaded. rewrite Htss, Hcr3. split_and!; try done.
    unfold m', update_kernel_rsp. simpl. by rewrite Hcur, Hc, Hreg, Hu.
  - intros Hc i u Hp%Hpk. by eapply Hoff.
Qed.

(** What [select] returns: the tick on the task manager and, when it changes
    the current task, the data of the switch. *)
Lemma select_stay `{VirtAddrNew} m : tm_inv (tm m) →
  current_task (advance (tm m)) = current_task (tm m) →
  select m = Ret (set_tm m (advance (tm m)), None, None).
Proof.
  intros Hinv. rewrite advance_eq by done. simpl. intros Hcur. unfold select. rewrite pick_eq by done.
  destruct (round_queue (tm m)) as [|h q]; simpl in *; [done|].
  rewrite bool_decide_false by (intros Hx; by apply Hx). by rewrite Hcur.
Qed.

(** The task that a tick brings to the processor was parked. *)
Lemma advance_parked t : tm_inv t → current_task (advance t) ≠ current_task t →
  ∃ n (u : Task V), current_task (advance t) = Some n ∧ Some n ≠ current_task t ∧ parked t n u.
Proof.
  intros Hinv. rewrite advance_eq by done. simpl. intros Hne.
  destruct (round_queue_spec t Hinv) as [_ Hel].
  destruct (round_queue t) as [|h q]; simpl in *; [done|].
  assert (task_states t !! h = Some Ready) as Hh by (apply Hel; left).
  destruct (proj1 (inv_dom _ Hinv h)) as [u Hu]; [eauto|].
  exists h, u. split_and!; [done|done|]. split_and!; [done|by rewrite Hh|done].
Qed.

Lemma select_switch `{VirtAddrSpec} m n u : tm_inv (tm m) →
  current_task (advance (tm m)) = Some n → Some n ≠ current_task (tm m) →
  task_registry (tm m) !! n = Some u → canonical (stack_end u) →
  ∃ m', select m = Ret (m', Some (pml4_frame u),
          Some (match current_task (tm m) with Some k => TaskRsp k | None => BootRsp end, rsp u))
    ∧ tm m' = advance (tm m) ∧ cr3 m' = cr3 m
    ∧ (privilege u = UserMode → tss_rsp0 m' = stack_end u).
Proof.
  intros Hinv Hn Hne Hu Hcan.
  pose proof (advance_eq _ Hinv) as Hadv. rewrite Hadv in Hn. simpl in Hn.
  unfold select. rewrite pick_eq by done.
  destruct (round_queue (tm m)) as [|h q]; simpl in *; [congruence|]. simplify_eq.
  rewrite bool_decide_true by done. rewrite Hu.
  assert (∀ cell, ∃ m', load_task (set_tm m (advance (tm m))) cell u
            = Ret (m', Some (pml4_frame u), Some (cell, rsp u))
            ∧ tm m' = advance (tm m) ∧ cr3 m' = cr3 m
            ∧ (privilege u = UserMode → tss_rsp0 m' = stack_end u)) as Hload.
  { intros cell. unfold load_task. case_bool_decide.
    - rewrite virt_new_ok by done. simpl. eexists. by split_and!.
    - simpl. eexists. by split_and!. }
  rewrite Hadv in Hload |- *.
  destruct (current_task (tm m)) as [k|] eqn:Ek.
  - destruct (inv_current_registered _ k Hinv Ek) as [v Hv]. rewrite Hv. apply Hload.
  - apply Hload.
Qed.

(** The processor after the call of [context_switch] from [c]. *)
Lemma call_switch_spec c old u ret_addr :
  regs c RSP mod 8 = 0 → 64 ≤ regs c RSP < 2 ^ 64 → old ≠ 0 →
  stack_ok u → framed u (mem c) → off_stack u c →
  wp (c1 <- push c ret_addr;; context_switch old (rsp u) c1) (λ '(out, c'),
    out = regs c RSP - 64 ∧ regs c' RSP = rsp u + 64
    ∧ (∃ fl ws, length ws = 6%nat ∧ words (mem c') out (fl :: ws ++ [ret_addr]) ∧ ws = saved_words c)
    ∧ (∃ fl ret, mem c !! rsp u = Some fl ∧ rflags c' = flags_loaded fl
                ∧ mem c !! (rsp u + 56) = Some ret ∧ rip c' = ret
                ∧ words (mem c) (rsp u + 8) (saved_words c'))
    ∧ ∀ a, ¬ regs c RSP - 64 ≤ a < regs c RSP → mem c' !! a = mem c !! a).
Proof.
  intros Ha Hr Hold (Hs0 & Hse & _) (Hfa & Hlo & Hhi & fl & ws & ret & Hlen & Hw) Hoff.
  unfold off_stack in Hoff. erewrite push_ok by (done || lia). cbn [obind].
  set (c1 := with_mem _ _).
  assert (regs c1 RSP = regs c RSP - 8) as Hrsp1 by (unfold c1; by cpu_simpl).
  assert (saved_words c1 = saved_words c) as Hsw.
  { unfold c1, saved_words, callee_saved. cbn [map]. by cpu_simpl. }
  assert (words (mem c1) (rsp u) (fl :: ws ++ [ret])) as Hw1.
  { eapply words_agree; [|exact Hw]. unfold c1. cpu_simpl. apply agree_insert.
    cbn [length]. rewrite length_app, Hlen. simpl. lia. }
  eapply wp_mono.
  - apply (context_switch_spec c1 old (rsp u) (regs c RSP - 8) fl ws ret); try done; [zlia|lia|lia|lia].
  - intros [out c'] (-> & (fl' & Hfl' & _) & Hsaved & Hout & Hrsp & Hrip & Hflags & Hws & _).
    split_and!; [lia|done| | |].
    + exists fl', (saved_words c). split_and!; [done| |done]. cbn [words]. split; [done|].
      apply words_app. rewrite <- Hsw. split; [done|]. cbn [words]. split; [|done].
      unfold saved_words, callee_saved. cbn [length map].
      replace (_ - 56 + 8 + _) with (regs c RSP - 8) by lia.
      rewrite Hout by lia. unfold c1. cpu_simpl. by rewrite lookup_insert_eq.
    + exists fl, ret. cbn [words] in Hw. destruct Hw as [Hw0 Hw2]. apply words_app in Hw2 as [Hw2 Hw3].
      rewrite Hlen in Hw3. cbn [words] in Hw3. destruct Hw3 as [Hw3 _].
      replace (rsp u + 8 + _) with (rsp u + 56) in Hw3 by lia. rewrite Hws. done.
    + intros b Hb. rewrite Hout by lia. unfold c1. cpu_simpl. by rewrite lookup_insert_ne by lia.
Qed.

(** The machine once the switch to task [n] has happened. *)
Lemma machine_ok_switch m m' c c' cell n u :
  machine_ok m c → tm m' = advance (tm m) → cr3 m' = cr3 m →
  (privilege u = UserMode → tss_rsp0 m' = stack_end u) →
  current_task (advance (tm m)) = Some n → Some n ≠ current_task (tm m) → parked (tm m) n u →
  cell = match current_task (tm m) with Some k => TaskRsp k | None => BootRsp end →
  regs c' RSP = rsp u + 64 →
  (∃ fl ws ret, length ws = 6%nat ∧ words (mem c') (regs c RSP - 64) (fl :: ws ++ [ret])) →
  (∀ a, ¬ regs c RSP - 64 ≤ a < regs c RSP → mem c' !! a = mem c !! a) →
  machine_ok (save_rsp (update_cr3 (update_kernel_rsp (notify_eoi m' TIMER_INTERRUPT))
                (Some (pml4_frame u))) cell (regs c RSP - 64)) c'.
Proof.
  intros Hok Htm Hcr3 Htss Hn Hne Hp -> Hrsp Hframe Hmem.
  pose proof (machine_off m c) as Hoff. pose proof (mo_inv _ _ Hok) as Hinv.
  assert (task_registry (advance (tm m)) = task_registry (tm m)
          ∧ task_states (advance (tm m)) = task_states (tm m)) as [Hreg Hst] by (by rewrite advance_eq).
  pose proof Hp as (Hu & Hud & _).
  assert (∃ m2, update_cr3 (update_kernel_rsp (notify_eoi m' TIMER_INTERRUPT)) (Some (pml4_frame u)) = m2
    ∧ tm m2 = advance (tm m) ∧ loaded m2 u) as (m2 & -> & Htm2 & Hl2).
  { eexists. split; [done|]. unfold update_kernel_rsp, loaded. simpl. rewrite Htm, Hn, Hreg, Hu. simpl.
    case_bool_decide as Hb; simpl; split_and!; auto. }
  clear Htm Hcr3 Htss.
  destruct (mo_frames _ _ Hok n u Hp) as (Hfa & Hlo & Hhi & _).
  destruct (mo_stacks _ _ Hok n u Hu) as (Hs0 & Hse & _).
  (* the registry after the write of the saved pointer *)
  set (m3 := save_rsp m2 _ _).
  assert (current_task (tm m3) = Some n ∧ task_states (tm m3) = task_states (tm m)
          ∧ tm_inv (tm m3) ∧ loaded m3 u) as (Hc3 & Hst3 & Hinv3 & Hl3).
  { unfold m3, save_rsp. destruct (current_task (tm m)); simpl; rewrite Htm2.
    - split_and!; [by unfold set_rsp; case_match|by unfold set_rsp; case_match
        |by apply tm_inv_set_rsp, tm_inv_advance|done].
    - split_and!; [done|done|by apply tm_inv_advance|done]. }
  assert (∀ i v, task_registry (tm m3) !! i = Some v →
    ∃ v0, task_registry (tm m) !! i = Some v0
      ∧ v = if decide (current_task (tm m) = Some i) then with_rsp v0 (regs c RSP - 64) else v0) as Hreg3.
  { intros i v. unfold m3, save_rsp, set_rsp. destruct (current_task (tm m)) as [k|]; simpl; rewrite ?Htm2, ?Hreg.
    - destruct (task_registry (tm m) !! k) as [w|] eqn:Ek; simpl; rewrite ?Htm2, ?Hreg.
      + intros [[<- <-]|[Hki Hv]]%lookup_insert_Some; [exists w; by rewrite decide_True|].
        exists v. by rewrite decide_False by congruence.
      + intros Hv. exists v. rewrite decide_False; [done|]. intros [= <-]. congruence.
    - intros Hv. exists v. by case_decide || done. }
  assert (∀ i v, task_registry (tm m3) !! i = Some v → ∃ v0, task_registry (tm m) !! i = Some v0
    ∧ stack_start v = stack_start v0 ∧ stack_end v = stack_end v0) as Hsame.
  { intros i v Hv. destruct (Hreg3 i v Hv) as (v0 & ? & ->). exists v0. by case_decide. }
  destruct (mo_cpu _ _ Hok) as [Hca Hcr].
  split; [done|..].
  - intros i v (v0 & Hv0 & E1 & E2)%Hsame. unfold stack_ok. rewrite E1, E2. by apply (mo_stacks _ _ Hok i).
  - intros i j v w Hij (v0 & Hv0 & E1 & E2)%Hsame (w0 & Hw0 & E3 & E4)%Hsame.
    unfold disjoint_stacks. rewrite E1, E2, E3, E4. by apply (mo_disjoint _ _ Hok i j).
  - intros i v (Hv & Hvd & Hvc). rewrite Hst3 in Hvd. rewrite Hc3 in Hvc.
    destruct (Hreg3 i v Hv) as (v0 & Hv0 & ->). case_decide as Ei.
    + destruct (mo_on _ _ Hok i v0 Ei Hv0) as [[??] _]. unfold framed. simpl.
      destruct Hframe as (fl & ws & ret & ? & ?). split_and!; [zlia|lia|lia|eauto 10].
    + assert (parked (tm m) i v0) as Hpi by done.
      eapply framed_mem; [by eapply (mo_frames _ _ Hok)|]. intros a Hra. apply Hmem.
      destruct (mo_frames _ _ Hok i v0 Hpi) as (_ & ? & ? & _).
      specialize (Hoff i v0 Hok Hpi). unfold off_stack in Hoff. lia.
  - rewrite Hrsp. split; [zlia|lia].
  - intros i v Hi Hv. rewrite Hc3 in Hi. injection Hi as <-.
    destruct (Hreg3 n v Hv) as (v0 & Hv0 & ->). rewrite decide_False by congruence.
    assert (v0 = u) as -> by congruence. split; [|done]. unfold on_stack. lia.
  - intros Hnone. congruence.
Qed.

(** What the running processor holds after a switch to [u] at memory [mm]. *)
Definition resumes u (mm : memory) c' : Prop :=
  regs c' RSP = rsp u + 64 ∧ words mm (rsp u + 8) (saved_words c')
  ∧ mm !! (rsp u + 56) = Some (rip c').

Lemma schedule_spec `{VirtAddrSpec} cell_addr ret_addr m c :
  (∀ cell, cell_addr cell ≠ 0) → machine_ok m c →
  wp (schedule cell_addr ret_addr m c) (λ '(m', c'),
    machine_ok m' c' ∧ current_task (tm m') = current_task (advance (tm m))
    ∧ (current_task (tm m') = current_task (tm m) → c' = c)
    ∧ (current_task (tm m') ≠ current_task (tm m) → ∀ n u,
         current_task (tm m') = Some n → task_registry (tm m) !! n = Some u → resumes u (mem c) c')).
Proof.
  intros Hcell Hok. pose proof (mo_inv _ _ Hok) as Hinv. unfold schedule.
  destruct (decide (current_task (advance (tm m)) = current_task (tm m))) as [E|E].
  - rewrite select_stay by done. cbn [obind update_cr3]. apply wp_ret.
    assert (tm (update_kernel_rsp (notify_eoi (set_tm m (advance (tm m))) TIMER_INTERRUPT)) = advance (tm m)) as Ht
      by (unfold update_kernel_rsp; simpl; by repeat case_match).
    rewrite Ht. split_and!; [by apply machine_ok_stay|done|done|done].
  - destruct (advance_parked _ Hinv E) as (n & u & Hn & Hne & Hp). pose proof Hp as (Hu & _).
    destruct (select_switch m n u Hinv Hn Hne Hu) as (m' & -> & Htm & Hcr3 & Htss).
    { apply (mo_stacks _ _ Hok n u Hu). }
    destruct (mo_cpu _ _ Hok) as [Hca Hcr]. cbn [obind].
    pose proof (call_switch_spec c (cell_addr (match current_task (tm m) with Some k => TaskRsp k | None => BootRsp end))
                  u ret_addr Hca Hcr (Hcell _) (mo_stacks _ _ Hok n u Hu) (mo_frames _ _ Hok n u Hp)
                  (machine_off m c n u Hok Hp)) as Hcall.
    destruct (push c ret_addr) as [c1|]; [|done]. cbn [obind] in Hcall |- *.
    wp_step. eapply wp_mono; [exact Hcall|cbv beta]. intros [out c'].
    intros (-> & Hrsp & (fl & ws & Hlen & Hw & _) & (fl0 & ret & Hfl0 & _ & Hret & Hrip & Hregs) & Hmem).
    wp_step. set (cell := match current_task (tm m) with Some k => _ | None => _ end).
    assert (machine_ok (save_rsp (update_cr3 (update_kernel_rsp (notify_eoi m' TIMER_INTERRUPT))
              (Some (pml4_frame u))) cell (regs c RSP - 64)) c') as Hok'.
    { apply (machine_ok_switch m m' c c' cell n u); eauto 10. }
    assert (current_task (tm (save_rsp (update_cr3 (update_kernel_rsp (notify_eoi m' TIMER_INTERRUPT))
              (Some (pml4_frame u))) cell (regs c RSP - 64))) = Some n) as Hcur.
    { unfold save_rsp, set_rsp, update_cr3, update_kernel_rsp. rewrite <- Hn, <- Htm.
      by repeat (case_match || case_bool_decide). }
    rewrite Hcur. split_and!; [done|done|congruence|].
    intros _ n' u' [= <-] Hu'. assert (u' = u) as -> by congruence.
    split_and!; [done|done|congruence].
Qed.

Lemma schedule_eois `{VirtAddrNew} cell_addr ret_addr m c m' c' :
  schedule cell_addr ret_addr m c = Ret (m', c') → eois m' = TIMER_INTERRUPT :: eois m.
Proof.
  unfold schedule. destruct (select m) as [[[m1 cr] sw]|] eqn:E; [|done]. cbn [obind].
  assert (eois m1 = eois m) as He.
  { revert E. unfold select, load_task. destruct (pick (tm m)) as [nxt t].
    repeat (case_match || case_bool_decide); simpl; intros; simplify_eq; try done.
    all: destruct (virt_new _); simpl in *; by simplify_eq. }
  assert (∀ (x : machine V) y, eois (update_cr3 (update_kernel_rsp (notify_eoi x y)) cr) = y :: eois x) as Hu.
  { intros. unfold update_cr3, update_kernel_rsp. by repeat (case_match || case_bool_decide). }
  destruct sw as [[cell v]|]; [|intros; simplify_eq; by rewrite Hu, He].
  destruct (push c ret_addr) as [c1|]; [|done]. cbn [obind].
  destruct (context_switch _ _ _) as [[out c2]|]; [|done]. cbn [obind]. intros; simplify_eq.
  rewrite <- He, <- (Hu m1). unfold save_rsp. by case_match.
Qed.

(** C1: [schedule] returns and keeps the machine sound.  From a machine in which
    every parked task has a complete frame on its own stack, the stacks do not
    overlap and the running task is on its stack, a tick leads to such a
    machine again: the current task is the one at the front of the ready queue
    (or the same as before), its address space, system-call stack and, for a
    user task, interrupt stack are loaded, and the processor resumes it with
    the stack pointer, callee-saved registers and return address of its saved
    frame.  If the current task does not change, the processor is left alone. *)
Theorem schedule_safe `{VirtAddrSpec} cell_addr ret_addr m c :
  (∀ cell, cell_addr cell ≠ 0) → machine_ok m c →
  wp (schedule cell_addr ret_addr m c) (λ '(m', c'),
    machine_ok m' c' ∧ current_task (tm m') = current_task (advance (tm m))
    ∧ (current_task (tm m') = current_task (tm m) → c' = c)
    ∧ (current_task (tm m') ≠ current_task (tm m) → ∀ n u,
         current_task (tm m') = Some n → task_registry (tm m) !! n = Some u → resumes u (mem c) c')).
Proof. apply schedule_spec. Qed.

(** A timer interrupt is acknowledged twice, once by the handler and once
    by [schedule]. *)
Theorem timer_interrupt_eois `{VirtAddrSpec} cell_addr ret_addr m c :
  (∀ cell, cell_addr cell ≠ 0) → machine_ok m c →
  wp (timer_interrupt_handler cell_addr ret_addr m c) (λ '(m', _),
    eois m' = TIMER_INTERRUPT :: TIMER_INTERRUPT :: eois m).
Proof.
  intros Hcell Hok. unfold timer_interrupt_handler.
  assert (machine_ok (notify_eoi m TIMER_INTERRUPT) c) as Hok' by (destruct Hok; by split).
  pose proof (schedule_spec cell_addr ret_addr _ c Hcell Hok') as Hs.
  destruct (schedule _ _ _ _) as [[m' c']|] eqn:E; [|done]. by apply schedule_eois in E.
Qed.
End Machine.

(** A machine that has booted: one task is queued, the processor is on the boot
    stack at 0x8000. *)
Definition boot_memory : memory :=
  <[0x2ffb8 := 0x202]> (<[0x2ffc0 := 0]> (<[0x2ffc8 := 0]> (<[0x2ffd0 := 0]> (<[0x2ffd8 := 0]>
  (<[0x2ffe0 := 0]> (<[0x2ffe8 := 0]> (<[0x2fff0 := 0x401000]> (<[0x2fff8 := CANARY]> ∅)))))))).

Definition boot_machine : machine unit :=
  mkMachine (register TaskManager_empty (sample_task 1 None)) 0 0 0x9000 0 [].

Lemma boot_machine_ok : machine_ok boot_machine (sample_cpu 0x8000 boot_memory).
Proof.
  assert (∀ i u, task_registry (tm boot_machine) !! i = Some u → i = 1 ∧ u = sample_task 1 None) as Hone.
  { intros i u Hi. change ((<[1 := sample_task 1 None]> ∅ : gmap Z (Task unit)) !! i = Some u) in Hi.
    apply lookup_insert_Some in Hi as [[<- <-]|[_ Hi]]; [done|]. by rewrite lookup_empty in Hi. }
  split.
  - apply tm_inv_register, tm_inv_empty.
  - intros i u [-> ->]%Hone. vm_compute. intuition discriminate.
  - intros i j u v Hij [-> _]%Hone [-> _]%Hone. done.
  - intros i u ([-> ->]%Hone & _). split_and!; [done|done|done|].
    exists 0x202, [0; 0; 0; 0; 0; 0], 0x401000. vm_compute. intuition discriminate.
  - vm_compute. intuition discriminate.
  - done.
  - intros _ i u ([-> ->]%Hone & _). left. vm_compute. discriminate.
Qed.

Lemma schedule_safe_witness :
  wp (@schedule unit checked_virt_new (λ _, 0x77) 0x1234 boot_machine (sample_cpu 0x8000 boot_memory))
     (λ '(m', c'), machine_ok m' c' ∧ current_task (tm m') = Some 1).
Proof.
  eapply wp_mono.
  - apply (@schedule_safe unit checked_virt_new checked_virt_new_spec (λ _, 0x77) 0x1234
             boot_machine (sample_cpu 0x8000 boot_memory)); [discriminate|apply boot_machine_ok].
  - intros [m' c'] (Hok & Hc & _). split; [exact Hok|exact Hc].
Defined.

Lemma timer_interrupt_eois_witness :
  wp (@timer_interrupt_handler unit checked_virt_new (λ _, 0x77) 0x1234 boot_machine
        (sample_cpu 0x8000 boot_memory))
     (λ '(m', _), eois m' = [TIMER_INTERRUPT; TIMER_INTERRUPT]).
Proof.
  apply (@timer_interrupt_eois unit checked_virt_new checked_virt_new_spec (λ _, 0x77) 0x1234
           boot_machine (sample_cpu 0x8000 boot_memory)); [discriminate|apply boot_machine_ok].
Defined.

(** ** Reaping *)

Section Reaper.
Context {V : Type}.
Implicit Types (t : TaskManager V) (u : Task V) (d : list Z).

Lemma dead_tasks_spec t : NoDup (dead_tasks t) ∧ ∀ i, i ∈ dead_tasks t ↔ task_states t !! i = Some Dead.
Proof.
  unfold dead_tasks. pose proof (merge_sort_Permutation Z.le (elements (dom (task_states t)))) as Hp.
  split.
  - apply NoDup_filter. rewrite Hp. apply NoDup_elements.
  - intros i. rewrite list_elem_of_filter, Hp, elem_of_elements, elem_of_dom. split; [tauto|eauto].
Qed.

(** [p] is the parent of a task of [d]. *)
Definition orphans t d (p : Z) : Prop :=
  Exists (λ i, task_registry t !! i ≫= parent_id = Some p) d.

#[local] Instance orphans_dec t d p : Decision (orphans t d p).
Proof. unfold orphans. apply _. Defined.

(** The PML4 frames of the user tasks of [d]. *)
Definition user_spaces t d : list Z :=
  omap (λ i, u ← task_registry t !! i;
             if bool_decide (privilege u = UserMode) then Some (pml4_frame u) else None) d.

(** [t'] is [t] after the dead tasks of [d] have been killed. *)
Record reaped t d t' (freed : list Z) : Prop := {
  reaped_inv : tm_inv t';
  reaped_registry : ∀ i, task_registry t' !! i = if decide (i ∈ d) then None else task_registry t !! i;
  reaped_gone : ∀ i, i ∈ d → task_states t' !! i = None;
  reaped_kept : ∀ i, i ∉ d → task_states t !! i ≠ Some Blocked → task_states t' !! i = task_states t !! i;
  reaped_woken : ∀ p, p ∉ d → task_states t !! p = Some Blocked → orphans t d p →
    task_states t' !! p = Some Ready;
  reaped_asleep : ∀ p, p ∉ d → task_states t !! p = Some Blocked → ¬ orphans t d p →
    task_states t' !! p = Some Blocked;
  reaped_current : current_task t' = current_task t;
  reaped_freed : freed = user_spaces t d;
}.

(** One [kill]. *)
Lemma kill_spec t i u : tm_inv t → task_registry t !! i = Some u → task_states t !! i = Some Dead →
  (kill t i).1 = Some u ∧ tm_inv (kill t i).2
  ∧ task_registry (kill t i).2 = delete i (task_registry t)
  ∧ current_task (kill t i).2 = current_task t
  ∧ ∀ j, task_states (kill t i).2 !! j =
      if decide (j = i) then None
      else if decide (task_states t !! j = Some Blocked ∧ parent_id u = Some j) then Some Ready
      else task_states t !! j.
Proof.
  intros Hinv Hu Hd.
  assert (current_task t ≠ Some i) as Hc.
  { intros E. destruct (inv_current _ Hinv i E); congruence. }
  split_and!; [..|intros j]; unfold kill; cbn [fst snd set_registry set_states task_registry task_states current_task].
  - by rewrite registry_wake_parent, registry_set_task_state.
  - apply (tm_inv_kill t i); eauto.
  - by rewrite registry_wake_parent, registry_set_task_state.
  - by rewrite current_wake_parent, current_set_task_state.
  - destruct (decide (j = i)) as [->|Hne]; [by rewrite lookup_delete_eq|].
    rewrite lookup_delete_ne by done. unfold wake_parent.
    rewrite registry_set_task_state, Hu, states_set_task_state.
    destruct (parent_id u) as [p|] eqn:Ep.
    2: { rewrite states_set_task_state, lookup_insert_ne by done. rewrite decide_False by intuition congruence. done. }
    destruct (decide (p = i)) as [->|Hpi].
    { rewrite lookup_insert_eq. rewrite bool_decide_false by done.
      rewrite states_set_task_state, lookup_insert_ne by done. rewrite decide_False by intuition congruence. done. }
    rewrite lookup_insert_ne by done.
    destruct (task_states t !! p) as [ps|] eqn:Eps.
    2: { rewrite states_set_task_state, lookup_insert_ne by done. rewrite decide_False by intuition congruence. done. }
    case_bool_decide as Hb.
    + rewrite !states_set_task_state. subst. destruct (decide (j = p)) as [->|].
      * rewrite lookup_insert_eq, decide_True by done. done.
      * rewrite !lookup_insert_ne, decide_False by intuition congruence. done.
    + rewrite states_set_task_state, lookup_insert_ne by done. rewrite decide_False by intuition congruence. done.
Qed.

Lemma reaped_nil t : tm_inv t → reaped t [] t [].
Proof.
  intros Hinv. split; try done.
  - by intros i ?%not_elem_of_nil.
  - intros p _ _ Hp. by apply Exists_nil in Hp.
Qed.

Lemma reap_one_spec t d t' freed i : tm_inv t → reaped t d t' freed → i ∉ d →
  task_states t !! i = Some Dead →
  reaped t (d ++ [i]) (reap_one (t', freed) i).1 (reap_one (t', freed) i).2.
Proof.
  intros Hinv [Hinv' Hreg Hgone Hkept Hwoken Hasleep Hcur ->] Hi Hd.
  destruct (proj1 (inv_dom _ Hinv i)) as [u Hu]; [eauto|].
  assert (task_registry t' !! i = Some u) as Hu' by (by rewrite Hreg, decide_False).
  assert (task_states t' !! i = Some Dead) as Hd' by (rewrite Hkept; congruence).
  destruct (kill_spec t' i u Hinv' Hu' Hd') as (Hk & Hki & Hkr & Hkc & Hks).
  unfold reap_one. destruct (kill t' i) as [purged t2]. cbn [fst snd] in *. subst purged. cbn [fst snd].
  assert (∀ p, orphans t (d ++ [i]) p ↔ orphans t d p ∨ parent_id u = Some p) as Horph.
  { intros p. unfold orphans. rewrite Exists_app, Exists_cons, Exists_nil, Hu. simpl. tauto. }
  assert (∀ j, j ∈ d ++ [i] ↔ j ∈ d ∨ j = i) as Hel.
  { intros j. by rewrite elem_of_app, list_elem_of_singleton. }
  split; [done|..].
  - intros j. rewrite Hkr. destruct (decide (j = i)) as [->|].
    + rewrite lookup_delete_eq, decide_True; [done|apply Hel; auto].
    + rewrite lookup_delete_ne, Hreg by done. repeat case_decide; rewrite Hel in *; tauto.
  - intros j Hj. rewrite Hks. case_decide; [done|]. apply Hel in Hj as [Hj|]; [|done].
    rewrite decide_False by (rewrite Hgone by done; intuition congruence). by apply Hgone.
  - intros j Hj Hb. rewrite Hel in Hj. rewrite Hks, decide_False by tauto.
    rewrite decide_False; rewrite Hkept by tauto; [done|tauto].
  - intros p Hp Hb [Ho|Ho]%Horph; rewrite Hel in Hp; rewrite Hks, decide_False by tauto.
    + rewrite (Hwoken p) by tauto. by rewrite decide_False by intuition congruence.
    + destruct (decide (task_states t' !! p = Some Blocked)) as [E|E]; [by rewrite decide_True|].
      rewrite decide_False by tauto. apply Hwoken; [tauto|done|]. destruct (decide (orphans t d p)); [done|].
      exfalso. apply E, Hasleep; tauto.
  - intros p Hp Hb Hno. rewrite Horph in Hno. rewrite Hel in Hp. rewrite Hks, decide_False by tauto.
    rewrite decide_False by tauto. apply Hasleep; tauto.
  - by rewrite Hkc.
  - unfold user_spaces. rewrite omap_app. simpl. rewrite Hu. simpl. case_bool_decide; [done|by rewrite app_nil_r].
Qed.

Lemma foldl_reaped t l : tm_inv t → ∀ d st, reaped t d st.1 st.2 → NoDup (d ++ l) →
  (∀ i, i ∈ l → task_states t !! i = Some Dead) →
  reaped t (d ++ l) (foldl reap_one st l).1 (foldl reap_one st l).2.
Proof.
  intros Hinv. induction l as [|i l IH]; intros d [t' freed] Hr Hnd Hl; simpl.
  { by rewrite app_nil_r. }
  replace (d ++ i :: l) with ((d ++ [i]) ++ l) in * by (by rewrite <- app_assoc).
  apply IH; [|done|].
  - apply reap_one_spec; try done; [|apply Hl; left].
    rewrite <- app_assoc in Hnd. apply NoDup_app in Hnd as (_ & Hnd & _).
    intros Hi. apply (Hnd i Hi). simpl. left.
  - intros j Hj. apply Hl. by right.
Qed.

(** C27: one round of the reaper removes exactly the dead tasks, from the
    registry and from the state map, and destroys the address space of each
    dead user task once.  A blocked task is woken exactly when one of its
    children was among the dead; nothing else changes state and the invariant
    holds afterwards. *)
Theorem hilo_segador_reaps t : tm_inv t →
  let '(t', freed) := hilo_segador t in
  tm_inv t' ∧ current_task t' = current_task t
  ∧ (∀ i, task_registry t' !! i =
       if decide (task_states t !! i = Some Dead) then None else task_registry t !! i)
  ∧ (∀ i, task_states t' !! i =
       match task_states t !! i with
       | Some Dead => None
       | Some Blocked => if decide (orphans t (dead_tasks t) i) then Some Ready else Some Blocked
       | s => s
       end)
  ∧ freed = user_spaces t (dead_tasks t).
Proof.
  intros Hinv. destruct (dead_tasks_spec t) as [Hnd Hel].
  pose proof (foldl_reaped t (dead_tasks t) Hinv [] (t, []) (reaped_nil t Hinv) Hnd
                (λ i, proj1 (Hel i))) as Hr.
  unfold hilo_segador. destruct (foldl _ _ _) as [t' freed]. cbn [fst snd app] in Hr.
  destruct Hr as [Hinv' Hreg Hgone Hkept Hwoken Hasleep Hcur Hfreed]. split_and!; try done.
  - intros i. rewrite Hreg. repeat case_decide; rewrite Hel in *; tauto.
  - intros i. destruct (task_states t !! i) as [[]|] eqn:E.
    3: { case_decide; [apply Hwoken|apply Hasleep]; try done; rewrite Hel; congruence. }
    3: { apply Hgone. by apply Hel. }
    all: rewrite <- E; apply Hkept; [rewrite Hel; congruence|congruence].
Qed.

(** Waiting and being woken.  [wait_for_child] on a task that exists and is
    not dead blocks the caller.  When that task is later reaped, a caller that
    is still blocked becomes ready if the task is its child, and stays blocked
    otherwise: waiting for a task that is not a child is never answered. *)
Theorem wait_for_child_woken t p child u :
  tm_inv t → current_task t = Some p → task_registry t !! child = Some u →
  task_states t !! child ≠ Some Dead →
  (wait_for_child t child).1 = true
  ∧ task_states (wait_for_child t child).2 !! p = Some Blocked
  ∧ ∀ t2 u2, tm_inv t2 → task_registry t2 !! child = Some u2 → parent_id u2 = parent_id u →
      task_states t2 !! child = Some Dead → task_states t2 !! p = Some Blocked →
      task_states (kill t2 child).2 !! p =
        Some (if decide (parent_id u = Some p) then Ready else Blocked).
Proof.
  intros Hinv Hc Hu Hnd. destruct (proj2 (inv_dom _ Hinv child)) as [s Hs]; [eauto|].
  unfold wait_for_child. rewrite Hs. rewrite bool_decide_true by congruence. cbn [fst snd].
  split_and!; [done| |].
  - unfold block_current_task. rewrite Hc, states_set_task_state. by rewrite lookup_insert_eq.
  - intros t2 u2 Hinv2 Hu2 Hpar Hd2 Hp2.
    destruct (kill_spec t2 child u2 Hinv2 Hu2 Hd2) as (_ & _ & _ & _ & Hks).
    rewrite Hks, decide_False by congruence. rewrite <- Hpar.
    repeat case_decide; try done; tauto.
Qed.

(** The legacy [next_task] loses a current task in state [Ready], the state in
    which [schedule] leaves every running task: afterwards the task is neither
    queued nor current, and is never dispatched again. *)
Lemma next_task_drops_current t c n q : tm_inv t → current_task t = Some c →
  task_states t !! c = Some Ready → ready_queue t = n :: q → c ∉ ready_queue t →
  task_states (next_task t).2 !! c = Some Ready ∧ ¬ (c ∈ ready_queue (next_task t).2)
  ∧ current_task (next_task t).2 ≠ Some c.
Proof.
  intros Hinv Hc Hs Hq Hn. unfold next_task. rewrite Hc, Hs.
  rewrite bool_decide_false by done. rewrite Hq in Hn |- *. simpl.
  apply not_elem_of_cons in Hn as [Hne Hn]. rewrite lookup_insert_ne by congruence.
  split_and!; [done|done|congruence].
Qed.
End Reaper.

(** Task 2, a child of the current task 1, has exited. *)
Definition one_dead : TaskManager unit :=
  set_task_state (run_events three_tasks [Tick; WaitE 2]) 2 Dead.

Lemma one_dead_inv : tm_inv one_dead.
Proof.
  apply tm_inv_set_task_state; [|vm_compute; eauto|done|done].
  change (tm_inv (wait_for_child (advance three_tasks) 2).2).
  apply tm_inv_wait, tm_inv_advance, three_tasks_inv.
Qed.

Lemma hilo_segador_reaps_witness :
  let '(t', freed) := hilo_segador one_dead in
  tm_inv t' ∧ task_registry t' !! 2 = None ∧ task_states t' !! 1 = Some Ready ∧ freed = [].
Proof.
  pose proof (hilo_segador_reaps one_dead one_dead_inv) as H.
  destruct (hilo_segador one_dead) as [t' freed].
  destruct H as (H1 & _ & H2 & H3 & H4). rewrite H2, H3, H4.
  split; [exact H1|]. vm_compute. auto.
Defined.

Lemma wait_for_child_woken_witness :
  (wait_for_child (advance three_tasks) 2).1 = true
  ∧ task_states (kill one_dead 2).2 !! 1 = Some Ready.
Proof.
  destruct (wait_for_child_woken (advance three_tasks) 1 2 (sample_task 2 (Some 1))) as (H1 & _ & H2).
  - apply tm_inv_advance, three_tasks_inv.
  - reflexivity.
  - reflexivity.
  - discriminate.
  - split; [exact H1|].
    exact (H2 one_dead (sample_task 2 (Some 1)) one_dead_inv eq_refl eq_refl eq_refl eq_refl).
Defined.
