(* ===== verification/Paging.v ===== *)
(** * Page tables and address spaces (src/src/mm/memory.rs)

    The functions that walk or build page tables by hand: the zeroing frame
    allocator, the construction of the kernel's and of a task's top-level table,
    the destruction of a task's address space, the user-mapping check of the
    system calls, and the debug walk.  Physical memory is a map from frame
    addresses to their 4096 bytes, reached through the direct map (HHDM); an
    access to a frame that is not there stops with [OutOfBounds].

    The theorems: a new address space shares the kernel half and has no
    user-accessible entry below it; destroying an address space releases every
    frame exactly as often as it is mapped, and its tables once; the
    user-mapping check answers for the leaf entry only. *)

From S2P Require Import Prelude X86 FrameAlloc.

#[local] Open Scope list_scope.

(** ** What the [x86_64] crate provides *)

(** [PhysAddr::new] panics when bits 52 to 63 are set. *)
Class PhysAddrNew := phys_new : Z → outcome Z.
Class PhysAddrSpec `{PhysAddrNew} : Prop := {
  phys_new_ok a : 0 ≤ a < 2 ^ 52 → phys_new a = Ret a;
}.

(** [PageTableEntry]: the word is unused when it is zero; the flags and the
    frame address are bits of it.  [index l a] is [a.p<l>_index()]. *)
Class EntryOps := {
  is_unused : Z → bool;
  flag_user : Z → bool;
  flag_huge : Z → bool;
  entry_addr : Z → Z;
  index : Z → Z → Z;
}.

Definition PHYS_MASK : Z := 0x000FFFFFFFFFF000.

Class EntrySpec `{EntryOps} : Prop := {
  is_unused_spec e : is_unused e = (e =? 0);
  flag_user_spec e : flag_user e = Z.testbit e 2;
  flag_huge_spec e : flag_huge e = Z.testbit e 7;
  entry_addr_spec e : entry_addr e = Z.land e PHYS_MASK;
  index_spec l a : 1 ≤ l ≤ 4 → index l a = Z.land (Z.shiftr a (12 + 9 * (l - 1))) 511;
}.

Definition x86_entries : EntryOps := {|
  is_unused := λ e, e =? 0;
  flag_user := λ e, Z.testbit e 2;
  flag_huge := λ e, Z.testbit e 7;
  entry_addr := λ e, Z.land e PHYS_MASK;
  index := λ l a, Z.land (Z.shiftr a (12 + 9 * (l - 1))) 511;
|}.

Lemma x86_entries_spec : @EntrySpec x86_entries.
Proof. by split. Qed.

(** ** Physical memory *)

Abbreviation ram := (gmap Z (list Z)).

Record mem := mkMem { mem_alloc : BitmapFrameAllocator; mem_ram : ram }.
Definition set_alloc (m : mem) a := mkMem a (mem_ram m).
Definition set_ram (m : mem) r := mkMem (mem_alloc m) r.

(** Entry [i] of the table in frame [t]. *)
Definition get_entry (r : ram) (t i : Z) : outcome Z :=
  match r !! t with Some b => Ret (field (8 * i) 8 b) | None => Stop OutOfBounds end.

Definition set_entry (r : ram) (t i e : Z) : outcome ram :=
  match r !! t with
  | Some b => Ret (<[t := splice (8 * i) (le_bytes 8 e) b]> r)
  | None => Stop OutOfBounds
  end.

Definition zero_frame : list Z := replicate 4096 0.

(** [write_bytes(p, 0, 4096)] and [PageTable::zero]. *)
Definition zero (r : ram) (t : Z) : outcome ram :=
  match r !! t with Some _ => Ret (<[t := zero_frame]> r) | None => Stop OutOfBounds end.

Section Paging.
Context `{Profile} `{VirtAddrNew} `{PhysAddrNew} `{EntryOps}.
(** The bootloader's direct-map offset. *)
Context (hhdm : option Z).

Definition hhdm_offset : outcome Z :=
  match hhdm with Some o => Ret o | None => Stop Panic end.

(** [phys_mem_offset + phys]: the pointer must be canonical. *)
Definition window (off phys : Z) : outcome unit :=
  a <- uadd 64 off phys;; _v <- virt_new a;; Ret tt.

(** [SystemFrameAllocator::allocate_frame]. *)
Definition system_allocate_frame (m : mem) : outcome (option Z * mem) :=
  let* (o, a) := allocate_frame (mem_alloc m) in
  let m := set_alloc m a in
  match o with
  | None => Ret (None, m)
  | Some frame_address =>
      off <- hhdm_offset;;
      _virt <- uadd 64 frame_address off;;
      r <- zero (mem_ram m) frame_address;;
      phys_addr <- phys_new frame_address;;
      Ret (Some phys_addr, set_ram m r)
  end.

(** [for i in lo..hi { new[i] = old[i].clone(); }], for the entries [keep]
    accepts. *)
Definition copy_entries (keep : Z → bool) (old new lo hi : Z) (r : ram) : outcome ram :=
  each_range lo hi (λ i r,
    e <- get_entry r old i;;
    if keep e then set_entry r new i e else Ret r) r.

(** [isolate_and_init_paging]: the new table becomes CR3. *)
Definition isolate_and_init_paging (cr3 : Z) (m : mem) : outcome (Z * mem) :=
  off <- hhdm_offset;;
  off <- virt_new off;;
  _ <- window off cr3;;
  let* (o, m) := system_allocate_frame m in
  match o with
  | None => Stop Panic
  | Some new =>
      _ <- window off new;;
      r <- zero (mem_ram m) new;;
      r <- copy_entries (λ _, true) cr3 new 256 512 r;;
      r <- copy_entries (λ e, negb (is_unused e)) cr3 new 0 256 r;;
      Ret (new, set_ram m r)
  end.

Definition create_isolated_pml4 (cr3 : Z) (m : mem) : outcome (option Z * mem) :=
  let* (o, m) := system_allocate_frame m in
  match o with
  | None => Ret (None, m)
  | Some new =>
      off <- hhdm_offset;;
      off <- virt_new off;;
      _ <- window off new;;
      r <- zero (mem_ram m) new;;
      _ <- window off cr3;;
      r <- copy_entries (λ _, true) cr3 new 256 512 r;;
      r <- copy_entries (λ e, negb (is_unused e) && negb (flag_user e)) cr3 new 0 256 r;;
      Ret (Some new, set_ram m r)
  end.

(** ** Destruction *)

(** [cow_deallocate_frame(e.addr()); table[i].set_unused()], the entry read
    again. *)
Definition release_entry (t i : Z) (m : mem) : outcome mem :=
  e <- get_entry (mem_ram m) t i;;
  a <- cow_deallocate_frame (mem_alloc m) (entry_addr e);;
  r <- set_entry (mem_ram m) t i 0;;
  Ret (mkMem a r).

(** The body of the four loops.  [below] destroys the table an entry points to;
    the entries of a level-1 table map pages and have none.  [check_huge] is off
    for the top-level table. *)
Definition destroy_entry (off : Z) (check_huge : bool) (below : option (Z → mem → outcome mem))
    (t i : Z) (m : mem) : outcome mem :=
  e <- get_entry (mem_ram m) t i;;
  if negb (is_unused e) && flag_user e then
    match below with
    | None => release_entry t i m
    | Some destroy =>
        if check_huge && flag_huge e then release_entry t i m
        else
          _ <- window off (entry_addr e);;
          m <- destroy (entry_addr e) m;;
          release_entry t i m
    end
  else Ret m.

(** The three inner loops: [lvl] is 0 for a level-1 table, 1 for a page directory
    and 2 for a directory-pointer table. *)
Fixpoint destroy_table (off : Z) (lvl : nat) (t : Z) (m : mem) : outcome mem :=
  each_range 0 512
    (destroy_entry off true (match lvl with O => None | S l => Some (destroy_table off l) end) t) m.

Definition destroy_user_address_space (pml4 : Z) (m : mem) : outcome mem :=
  off <- hhdm_offset;;
  off <- virt_new off;;
  _ <- window off pml4;;
  m <- each_range 0 256 (destroy_entry off false (Some (destroy_table off 2)) pml4) m;;
  a <- cow_deallocate_frame (mem_alloc m) pml4;;
  Ret (set_alloc m a).

(** ** The user-mapping check *)

Definition PRESENT : Z := Z.shiftl 1 0.
Definition USER : Z := Z.shiftl 1 2.
Definition HUGE : Z := Z.shiftl 1 7.

(** The closure [read_entry]. *)
Definition read_entry (off : Z) (r : ram) (phys_addr idx : Z) : outcome Z :=
  b <- uadd 64 phys_addr off;;
  _virt <- uadd 64 b (idx * 8);;
  get_entry r phys_addr idx.

Definition is_user_page_mapped (cr3 : Z) (r : ram) (addr : Z) : outcome bool :=
  off <- hhdm_offset;;
  p4_entry <- read_entry off r cr3 (index 4 addr);;
  if Z.land p4_entry PRESENT =? 0 then Ret false else
  let p3_phys := Z.land p4_entry PHYS_MASK in
  p3_entry <- read_entry off r p3_phys (index 3 addr);;
  if Z.land p3_entry PRESENT =? 0 then Ret false else
  if negb (Z.land p3_entry HUGE =? 0) then Ret (negb (Z.land p3_entry USER =? 0)) else
  let p2_phys := Z.land p3_entry PHYS_MASK in
  p2_entry <- read_entry off r p2_phys (index 2 addr);;
  if Z.land p2_entry PRESENT =? 0 then Ret false else
  if negb (Z.land p2_entry HUGE =? 0) then Ret (negb (Z.land p2_entry USER =? 0)) else
  let p1_phys := Z.land p2_entry PHYS_MASK in
  p1_entry <- read_entry off r p1_phys (index 1 addr);;
  if Z.land p1_entry PRESENT =? 0 then Ret false else
  Ret (negb (Z.land p1_entry USER =? 0)).

(** [debug_page_tables]: the entries it prints, level by level. *)
Fixpoint debug_levels (off : Z) (r : ram) (t : Z) (idxs : list Z) : outcome (list (Z * Z)) :=
  match idxs with
  | [] => Ret []
  | i :: idxs' =>
      _ <- uadd 64 t off;;
      e <- get_entry r t i;;
      if is_unused e then Ret [(i, e)]
      else rest <- debug_levels off r (entry_addr e) idxs';; Ret ((i, e) :: rest)
  end.

Definition debug_page_tables (pml4 : Z) (r : ram) (vaddr : Z) : outcome (list (Z * Z)) :=
  off <- hhdm_offset;;
  debug_levels off r pml4
    (map (λ s, Z.land (Z.shiftr vaddr s) 0x1FF) [39; 30; 21; 12]).
End Paging.

(** ** Tables in memory *)

Definition entry_of (r : ram) (t i : Z) : Z := field (8 * i) 8 (default [] (r !! t)).

Definition frame_ok (r : ram) (t : Z) : Prop :=
  ∃ b, r !! t = Some b ∧ length b = 4096%nat ∧ Forall (λ x, is_byte x) b.

Section Entries.
Implicit Types r : ram.

Lemma entry_of_frame r r' t i : r' !! t = r !! t → entry_of r' t i = entry_of r t i.
Proof. intros Heq. unfold entry_of. by rewrite Heq. Qed.

Lemma frame_ok_eq r r' t : r' !! t = r !! t → frame_ok r t → frame_ok r' t.
Proof. unfold frame_ok. by intros ->. Qed.

Lemma get_entry_ok r t i : frame_ok r t → get_entry r t i = Ret (entry_of r t i).
Proof. intros (b & Hb & _). unfold get_entry, entry_of. by rewrite Hb. Qed.

Lemma entry_of_range r t i : frame_ok r t → 0 ≤ entry_of r t i < 2 ^ 64.
Proof.
  intros (b & Hb & _ & Hby). unfold entry_of. rewrite Hb. by apply (field_range _ 8).
Qed.

Lemma set_entry_ok r t i e : frame_ok r t → 0 ≤ i < 512 → 0 ≤ e < 2 ^ 64 →
  wp (set_entry r t i e) (λ r', (∀ x, frame_ok r x → frame_ok r' x)
    ∧ (∀ j, 0 ≤ j < 512 → entry_of r' t j = if decide (j = i) then e else entry_of r t j)
    ∧ (∀ x, x ≠ t → r' !! x = r !! x)).
Proof.
  intros (b & Hb & Hl & Hby) Hi He. unfold set_entry. rewrite Hb. wp_step.
  pose proof (length_le_bytes 8 e) as Hle. split_and!.
  - intros x Hx. destruct (decide (x = t)) as [->|]; [|apply (frame_ok_eq r); [by rewrite lookup_insert_ne|done]].
    exists (splice (8 * i) (le_bytes 8 e) b). rewrite lookup_insert_eq. split; [done|].
    split; [by rewrite length_splice by lia|]. unfold splice.
    apply Forall_app. split; [by apply Forall_take|]. apply Forall_app.
    split; [apply le_bytes_range|by apply Forall_drop].
  - intros j Hj. unfold entry_of, field. rewrite lookup_insert_eq, Hb. cbn [default from_option]. unfold id.
    case_decide as Hji.
    + subst j. rewrite sub_splice_same by lia. by apply le_le_bytes.
    + by rewrite sub_splice_other by lia.
  - intros x Hx. by rewrite lookup_insert_ne.
Qed.

Lemma zero_ok r t : frame_ok r t →
  wp (zero r t) (λ r', (∀ x, frame_ok r x → frame_ok r' x) ∧ (∀ j, 0 ≤ j < 512 → entry_of r' t j = 0)
    ∧ (∀ x, x ≠ t → r' !! x = r !! x)).
Proof.
  intros (b & Hb & _). unfold zero. rewrite Hb. wp_step. split_and!.
  - intros x Hx. destruct (decide (x = t)) as [->|]; [|apply (frame_ok_eq r); [by rewrite lookup_insert_ne|done]].
    exists zero_frame. rewrite lookup_insert_eq. split_and!; [done|apply length_replicate|].
    apply Forall_replicate. lia.
  - intros j Hj. unfold entry_of, field, zero_frame. rewrite lookup_insert_eq. cbn [default from_option]. unfold id, sub.
    rewrite drop_replicate, take_replicate. generalize (Z.to_nat 8 `min` (4096 - Z.to_nat (8 * j)))%nat.
    induction n as [|n IH]; [done|]. cbn [replicate le]. by rewrite IH.
  - intros x Hx. by rewrite lookup_insert_ne.
Qed.

(** What one copy leaves: the table [new] of [r'] has the accepted entries of
    [old] in the range, everything else is as in [r]. *)
Definition copied (keep : Z → bool) (old new lo hi : Z) (r r' : ram) : Prop :=
  (∀ x, frame_ok r x → frame_ok r' x)
  ∧ (∀ j, 0 ≤ j < 512 → entry_of r' new j =
       if decide (lo ≤ j < hi) then (if keep (entry_of r old j) then entry_of r old j else entry_of r new j)
       else entry_of r new j)
  ∧ (∀ x, x ≠ new → r' !! x = r !! x).

(** Copying a range of entries between two tables. *)
Lemma copy_entries_ok (keep : Z → bool) old new lo hi r : frame_ok r old → frame_ok r new → old ≠ new →
  0 ≤ lo ≤ hi → hi ≤ 512 →
  wp (copy_entries keep old new lo hi r) (copied keep old new lo hi r).
Proof.
  intros Ho Hn Hne Hlo Hhi. unfold copy_entries.
  eapply wp_mono; [apply (wp_each_range (λ i, copied keep old new lo i r))|intros r'; by rewrite Z.max_r by lia].
  { split_and!; [done| |done]. intros j Hj. by rewrite decide_False by lia. }
  intros i r1 Hi (Hok & He & Hx). rewrite get_entry_ok by auto. cbn [obind].
  rewrite (entry_of_frame r r1 old i) by auto.
  assert (entry_of r1 new i = entry_of r new i) as Hnew by (rewrite He by lia; by rewrite decide_False by lia).
  destruct (keep (entry_of r old i)) eqn:Hk.
  - eapply wp_mono; [apply set_entry_ok; [auto|lia|by apply entry_of_range]|].
    cbv beta. intros r2 (Hok2 & He2 & Hx2). split_and!; [auto| |intros x Hxn; by rewrite Hx2, Hx by done].
    intros j Hj. rewrite He2 by done. destruct (decide (j = i)) as [->|]; [by rewrite decide_True, Hk by lia|].
    rewrite He by done. repeat case_decide; try done; lia.
  - wp_step. split_and!; [done| |done]. intros j Hj. destruct (decide (j = i)) as [->|].
    + by rewrite decide_True, Hk, Hnew by lia.
    + rewrite He by done. repeat case_decide; try done; lia.
Qed.
End Entries.

(** ** The processor's walk *)

(** What the processor allows in ring 3: every entry on the way to the page is
    present and user-accessible.  [lvl] counts down from 3. *)
Fixpoint user_walk (r : ram) (lvl : nat) (t a : Z) : bool :=
  let e := entry_of r t (Z.land (Z.shiftr a (12 + 9 * Z.of_nat lvl)) 511) in
  Z.testbit e 0 && Z.testbit e 2 &&
  match lvl with
  | O => true
  | S l => if (lvl <? 3)%nat && Z.testbit e 7 then true else user_walk r l (Z.land e PHYS_MASK) a
  end.

Definition user_accessible (r : ram) (cr3 a : Z) : bool := user_walk r 3 cr3 a.

(** The leaf entry of the translation of [a] and its level, if every level is
    present. *)
Fixpoint leaf_walk (r : ram) (lvl : nat) (t a : Z) : option (nat * Z) :=
  let e := entry_of r t (Z.land (Z.shiftr a (12 + 9 * Z.of_nat lvl)) 511) in
  if Z.testbit e 0 then
    match lvl with
    | O => Some (lvl, e)
    | S l => if (lvl <? 3)%nat && Z.testbit e 7 then Some (lvl, e) else leaf_walk r l (Z.land e PHYS_MASK) a
    end
  else None.

(** An accessible page has a user leaf. *)
Lemma user_walk_leaf r lvl : ∀ t a, user_walk r lvl t a = true →
  ∃ l e, leaf_walk r lvl t a = Some (l, e) ∧ Z.testbit e 2 = true.
Proof.
  induction lvl as [|l IH]; intros t a Hw; cbn [user_walk leaf_walk] in *;
    set (e := entry_of r t _) in *; destruct (Z.testbit e 0), (Z.testbit e 2) eqn:E2; try done; [by eauto|].
  destruct ((S l <? 3)%nat && Z.testbit e 7); [by eauto|]. by apply IH.
Qed.

(** ** Well-formed memory *)

Section Spaces.
Context `{HP : Profile} `{HV : VirtAddrSpec} `{HA : PhysAddrSpec} `{HE : EntrySpec}.
Context (off : Z).

(** The allocator is well formed, the frames it manages are present, and the
    direct map covers them with canonical addresses. *)
Record mem_ok (m : mem) : Prop := {
  mo_wf : WF (mem_alloc m);
  mo_phys : total_frames (mem_alloc m) * FRAME_SIZE ≤ 2 ^ 52;
  mo_off : canonical off;
  mo_hhdm p : 0 ≤ p < total_frames (mem_alloc m) * FRAME_SIZE → canonical (off + p);
  mo_ram f : 0 ≤ f < total_frames (mem_alloc m) → frame_ok (mem_ram m) (f * FRAME_SIZE);
}.

(** A frame address the allocator manages. *)
Definition managed (m : mem) (p : Z) : Prop :=
  ∃ f, p = f * FRAME_SIZE ∧ 0 ≤ f < total_frames (mem_alloc m).

Lemma managed_bound m p : managed m p → 0 ≤ p < total_frames (mem_alloc m) * FRAME_SIZE.
Proof. intros (f & -> & Hf). unfold FRAME_SIZE. lia. Qed.

Lemma managed_frame m p : mem_ok m → managed m p → frame_ok (mem_ram m) p.
Proof. intros Hm (f & -> & Hf). by apply mo_ram. Qed.

Lemma window_ok m p : mem_ok m → managed m p → window off p = Ret tt.
Proof.
  intros Hm Hp. pose proof (mo_hhdm m Hm p (managed_bound m p Hp)) as Hc. unfold window, uadd.
  rewrite checked_ok by (unfold canonical in Hc; lia). cbn [obind]. by rewrite virt_new_ok.
Qed.

Lemma virt_new_off m : mem_ok m → virt_new off = Ret off.
Proof. intros Hm. apply virt_new_ok, (mo_off m Hm). Qed.

(** The frame taken from the allocator: free before, zeroed, owned once. *)
Definition taken (m m' : mem) (p : Z) : Prop :=
  mem_ok m' ∧ (∃ f, p = f * FRAME_SIZE ∧ 0 ≤ f < total_frames (mem_alloc m)
    ∧ lowest_free (mem_alloc m) = Some f ∧ busy (mem_alloc m) f = false
    ∧ refs (mem_alloc m) f = 0
    ∧ (∀ g, 0 ≤ g < total_frames (mem_alloc m) →
         refs (mem_alloc m') g = if decide (g = f) then 1 else refs (mem_alloc m) g))
  ∧ total_frames (mem_alloc m') = total_frames (mem_alloc m)
  ∧ (∀ x, x ≠ p → mem_ram m' !! x = mem_ram m !! x).

Lemma free_refs a f : WF a → 0 ≤ f < total_frames a → busy a f = false → refs a f = 0.
Proof.
  intros Hwf Hf Hb. rewrite (wf_sync a Hwf) in Hb by done. apply Z.ltb_ge in Hb.
  destruct (count_lookup a f (wf_shape a Hwf) Hf). lia.
Qed.

Lemma mem_ok_frames m a r : mem_ok m → WF a → total_frames a = total_frames (mem_alloc m) →
  (∀ x, frame_ok (mem_ram m) x → frame_ok r x) → mem_ok (mkMem a r).
Proof.
  intros [] Hwf Ht Hr. split; cbn [mem_alloc mem_ram]; rewrite ?Ht; auto.
Qed.

Lemma system_allocate_frame_ok m : mem_ok m →
  wp (system_allocate_frame (Some off) m) (λ '(o, m'),
    match o with
    | None => m' = m ∧ ∀ g, 0 ≤ g < total_frames (mem_alloc m) → busy (mem_alloc m) g = true
    | Some p => taken m m' p ∧ ∀ j, 0 ≤ j < 512 → entry_of (mem_ram m') p j = 0
    end).
Proof.
  intros Hm. pose proof (mo_wf m Hm) as Hwf. pose proof (shape_total _ (wf_shape _ Hwf)) as Ht.
  unfold system_allocate_frame. wp_step.
  eapply wp_mono; [by apply allocate_frame_allocated|cbv beta]. intros [o a] [Hwfa Ha].
  unfold allocated in Ha. destruct (lowest_free (mem_alloc m)) as [f|] eqn:El.
  - destruct Ha as [-> (s1 & Hu & ->)]. pose proof El as El'. unfold lowest_free in El'.
    apply first_from_Some in El' as (Hf & Hb & _). apply negb_true_iff in Hb.
    assert (0 ≤ f < total_frames (mem_alloc m)) as Hf' by lia.
    pose proof (mo_hhdm m Hm (f * FRAME_SIZE) ltac:(unfold FRAME_SIZE; lia)) as Hc.
    pose proof (mo_phys m Hm) as Hph. unfold hhdm_offset. cbn [obind]. unfold uadd. unfold canonical in Hc.
    rewrite checked_ok by lia. cbn [obind set_alloc mem_ram]. wp_step.
    eapply wp_mono; [apply zero_ok; by apply (mo_ram m Hm)|cbv beta]. intros r (Hr1 & Hr2 & Hr3).
    rewrite phys_new_ok by (unfold FRAME_SIZE in *; lia). cbn [obind set_ram]. wp_step. split; [|done].
    pose proof (upd_total _ _ _ _ _ Hu) as Htot.
    split_and!; [apply (mem_ok_frames m); [done|done|done|done]| |done|done].
    exists f. split_and!; try done; [lia|lia|by apply free_refs|]. intros g Hg.
    change (refs (set_hint s1 (f + 1)) g = if decide (g = f) then 1 else refs (mem_alloc m) g).
    change (refs (set_hint s1 (f + 1)) g) with (refs s1 g). by rewrite (upd_refs _ _ _ _ _ Hu).
  - destruct Ha as [-> ->]. wp_step. split; [by destruct m|]. intros g Hg. unfold lowest_free in El.
    pose proof (proj1 (first_from_None _ _ _) El g ltac:(lia)) as Hb. cbv beta in Hb. by apply negb_false_iff in Hb.
Qed.

(** The new table after both copies: the upper half of [old], and of the lower
    half the entries [keep] accepts. *)
Definition seeded (keep : Z → bool) (r r' : ram) (old new : Z) : Prop :=
  (∀ j, 256 ≤ j < 512 → entry_of r' new j = entry_of r old j)
  ∧ (∀ j, 0 ≤ j < 256 → entry_of r' new j = if keep (entry_of r old j) then entry_of r old j else 0).

Lemma seeded_intro keep old new r0 r1 r2 r3 : old ≠ new → r1 !! old = r0 !! old →
  (∀ j, 0 ≤ j < 512 → entry_of r1 new j = 0) →
  copied (λ _, true) old new 256 512 r1 r2 → copied keep old new 0 256 r2 r3 →
  seeded keep r0 r3 old new.
Proof.
  intros Hne Hr0 He1 (_ & He2 & Hx2) (_ & He3 & _).
  assert (∀ j, entry_of r1 old j = entry_of r0 old j) as Heq1 by (intros j; by apply entry_of_frame).
  assert (∀ j, entry_of r2 old j = entry_of r0 old j) as Heq2
    by (intros j; apply entry_of_frame; by rewrite Hx2).
  split; intros j Hj; rewrite He3, Heq2 by lia.
  - rewrite decide_False by lia. rewrite He2, Heq1 by lia. by rewrite decide_True by lia.
  - rewrite decide_True by lia. rewrite (He2 j) by lia. rewrite decide_False by lia. by rewrite He1 by lia.
Qed.

Lemma p4_lower a : 0 ≤ a < 2 ^ 47 → 0 ≤ Z.land (Z.shiftr a 39) 511 < 256.
Proof.
  intros Ha. change 511 with (Z.ones 9). rewrite Z.land_ones, Z.shiftr_div_pow2 by lia. zlia.
Qed.

Lemma taken_ne m m' p q : taken m m' p → managed m q → 0 < refs (mem_alloc m) (q / FRAME_SIZE) → q ≠ p.
Proof.
  intros (_ & (f & -> & Hf & _ & _ & Hz & _) & _) _ Hq ->. rewrite Z.div_mul in Hq by done. lia.
Qed.

Lemma taken_managed m m' p : taken m m' p → managed m' p.
Proof. intros (_ & (f & -> & Hf & _) & Ht & _). exists f. by rewrite Ht. Qed.

(** Rewriting the tables of a taken frame keeps it taken. *)
Lemma taken_ram m m' p r : taken m m' p → (∀ x, frame_ok (mem_ram m') x → frame_ok r x) →
  (∀ x, x ≠ p → r !! x = mem_ram m' !! x) → taken m (set_ram m' r) p.
Proof.
  intros (Hok & Hf & Ht & Hx) Hr Hx'. split_and!; [|done|done|intros x Hne; by rewrite <- Hx, <- Hx' by done].
  apply (mem_ok_frames m'); try done. apply (mo_wf m' Hok).
Qed.

Lemma create_isolated_ok cr3 m : mem_ok m → managed m cr3 →
  0 < refs (mem_alloc m) (cr3 / FRAME_SIZE) →
  wp (create_isolated_pml4 (Some off) cr3 m) (λ '(o, m'),
    match o with
    | None => m' = m ∧ ∀ g, 0 ≤ g < total_frames (mem_alloc m) → busy (mem_alloc m) g = true
    | Some p => taken m m' p
        ∧ seeded (λ e, negb (e =? 0) && negb (Z.testbit e 2)) (mem_ram m) (mem_ram m') cr3 p
        ∧ ∀ a, 0 ≤ a < 2 ^ 47 → user_accessible (mem_ram m') p a = false
    end).
Proof.
  intros Hm Hcr3 Hrefs. unfold create_isolated_pml4. wp_step.
  eapply wp_mono; [by apply system_allocate_frame_ok|cbv beta]. intros [o m1] Ho.
  destruct o as [p|]; [|by wp_step]. destruct Ho as [Htk _]. pose proof Htk as (Hok & _ & Htot & Hx).
  unfold hhdm_offset. cbn [obind]. rewrite (virt_new_off m1) by done. cbn [obind].
  rewrite (window_ok m1) by (done || by eapply taken_managed). cbn [obind].
  assert (cr3 ≠ p) as Hne by (by eapply taken_ne).
  assert (managed m1 cr3) as Hc1 by (destruct Hcr3 as (f & -> & Hf); exists f; by rewrite Htot).
  assert (frame_ok (mem_ram m1) p) as Hp by (apply managed_frame; [done|by eapply taken_managed]).
  wp_step. eapply wp_mono; [by apply zero_ok|cbv beta]. intros r1 (Hk1 & He1 & Hx1).
  rewrite (window_ok m1) by done. cbn [obind].
  assert (frame_ok r1 cr3) as Hcf by (apply Hk1; by apply managed_frame).
  wp_step. eapply wp_mono; [apply copy_entries_ok; auto; lia|cbv beta]. intros r2 Hc2.
  wp_step. eapply wp_mono; [apply copy_entries_ok; [by apply Hc2|apply Hc2; auto|done|lia|lia]|cbv beta]. intros r3 Hc3.
  wp_step. assert (r1 !! cr3 = mem_ram m !! cr3) as Hcr by (rewrite Hx1, Hx by done; done).
  pose proof (seeded_intro _ _ _ _ _ _ _ Hne Hcr He1 Hc2 Hc3) as Hsd.
  destruct Hc2 as (Hk2 & _ & Hx2), Hc3 as (Hk3 & _ & Hx3).
  assert (seeded (λ e, negb (e =? 0) && negb (Z.testbit e 2)) (mem_ram m) r3 cr3 p) as Hsd'.
  { destruct Hsd as [Hu Hl]. split; [done|]. intros j Hj. rewrite Hl by done. by rewrite is_unused_spec, flag_user_spec. }
  split_and!; [apply taken_ram; [done|auto|intros x Hxp; by rewrite Hx3, Hx2, Hx1 by done]|done|].
  intros a Ha. cbn [set_ram mem_ram].
  unfold user_accessible. cbn [user_walk]. change (12 + 9 * Z.of_nat 3) with 39.
  destruct Hsd' as [_ Hl]. rewrite Hl by (by apply p4_lower).
  destruct (negb _ && negb (Z.testbit _ 2)) eqn:E; [|by rewrite Z.bits_0].
  apply andb_true_iff in E as [_ E]. apply negb_true_iff in E. by rewrite E, andb_false_r.
Qed.

(** A new address space.  [create_isolated_pml4] fails only when no frame is
    free.  Otherwise it takes the lowest free frame, with one owner, and fills it
    with the kernel half of the current table and those lower-half entries that
    are in use and not user-accessible; every other frame keeps its contents and
    its count, and in the new space the processor lets ring 3 touch no address of
    the lower half. *)
Theorem create_isolated_pml4_isolates cr3 m : mem_ok m → managed m cr3 →
  0 < refs (mem_alloc m) (cr3 / FRAME_SIZE) →
  wp (create_isolated_pml4 (Some off) cr3 m) (λ '(o, m'),
    match o with
    | None => m' = m ∧ ∀ g, 0 ≤ g < total_frames (mem_alloc m) → busy (mem_alloc m) g = true
    | Some p => taken m m' p
        ∧ seeded (λ e, negb (e =? 0) && negb (Z.testbit e 2)) (mem_ram m) (mem_ram m') cr3 p
        ∧ ∀ a, 0 ≤ a < 2 ^ 47 → user_accessible (mem_ram m') p a = false
    end).
Proof. apply create_isolated_ok. Qed.

(** ** Destruction *)

(** The frames released for one entry, and the tables below it. *)
Definition freed_item (check_huge : bool) (below : option (Z → list Z)) (e : Z) : list Z :=
  let a := Z.land e PHYS_MASK in
  if negb (e =? 0) && Z.testbit e 2 then
    match below with
    | None => [a]
    | Some f => if check_huge && Z.testbit e 7 then [a] else f a ++ [a]
    end
  else [].

Definition tables_item (check_huge : bool) (below : option (Z → list Z)) (e : Z) : list Z :=
  if negb (e =? 0) && Z.testbit e 2 then
    match below with
    | None => []
    | Some f => if check_huge && Z.testbit e 7 then [] else f (Z.land e PHYS_MASK)
    end
  else [].

Definition items (n : nat) (item : Z → list Z) (r : ram) (t : Z) : list Z :=
  concat (map (λ i, item (entry_of r t (Z.of_nat i))) (seq 0 n)).

Fixpoint freed (r : ram) (lvl : nat) (t : Z) : list Z :=
  items 512 (freed_item true (match lvl with O => None | S l => Some (freed r l) end)) r t.

Fixpoint tables (r : ram) (lvl : nat) (t : Z) : list Z :=
  t :: items 512 (tables_item true (match lvl with O => None | S l => Some (tables r l) end)) r t.

(** The frames of an address space, one mention per mapping, tables included,
    and its tables. *)
Definition space_frames (r : ram) (pml4 : Z) : list Z :=
  items 256 (freed_item false (Some (freed r 2))) r pml4 ++ [pml4].
Definition space_tables (r : ram) (pml4 : Z) : list Z :=
  pml4 :: items 256 (tables_item false (Some (tables r 2))) r pml4.

(** How often a list of frame addresses mentions frame [f]. *)
Definition occurs (f : Z) (l : list Z) : Z := Z.of_nat (length (filter (λ x, x / FRAME_SIZE = f) l)).

Definition released (a : BitmapFrameAllocator) (l : list Z) (a' : BitmapFrameAllocator) : Prop :=
  total_frames a' = total_frames a
  ∧ ∀ f, 0 ≤ f < total_frames a → refs a' f = refs a f - occurs f l.

(** Every mention is of a managed frame and covered by its count. *)
Definition releasable (m : mem) (l : list Z) : Prop :=
  Forall (managed m) l ∧ ∀ f, 0 ≤ f < total_frames (mem_alloc m) → occurs f l ≤ refs (mem_alloc m) f.

Lemma occurs_app f l1 l2 : occurs f (l1 ++ l2) = occurs f l1 + occurs f l2.
Proof. unfold occurs. rewrite filter_app, length_app. lia. Qed.

Lemma occurs_nonneg f l : 0 ≤ occurs f l.
Proof. unfold occurs. lia. Qed.

Lemma released_refl a : released a [] a.
Proof. split; [done|]. intros f Hf. unfold occurs. simpl. lia. Qed.

Lemma released_trans a l1 a1 l2 a2 : released a l1 a1 → released a1 l2 a2 → released a (l1 ++ l2) a2.
Proof.
  intros [Ht1 Hr1] [Ht2 Hr2]. split; [congruence|]. intros f Hf. rewrite Hr2, Hr1, occurs_app by lia. lia.
Qed.

Lemma deallocate_released a p f : WF a → p = f * FRAME_SIZE → 0 ≤ f < total_frames a → 0 < refs a f →
  wp (cow_deallocate_frame a p) (λ a', WF a' ∧ released a [p] a').
Proof.
  intros Hwf -> Hf Hpos. assert (f * FRAME_SIZE / FRAME_SIZE = f) as Hd by (by apply Z.div_mul).
  eapply wp_mono; [apply deallocate_frame_deallocated; rewrite ?Hd; try done; unfold FRAME_SIZE; lia|cbv beta].
  intros a' [Hwf' Hde]. split; [done|]. rewrite Hd in Hde. unfold deallocated in Hde.
  assert (∀ g, occurs g [f * FRAME_SIZE] = if decide (g = f) then 1 else 0) as Hoc.
  { intros g. unfold occurs. rewrite filter_cons, Hd. repeat case_decide; subst; done. }
  destruct (Z.eqb_spec (refs a f) 1) as [E|].
  - destruct Hde as (s1 & Hu & ->). split; [apply (upd_total _ _ _ _ _ Hu)|]. intros g Hg.
    change (refs (set_hint s1 ?h) g) with (refs s1 g). rewrite (upd_refs _ _ _ _ _ Hu), Hoc by done.
    case_decide; subst; lia.
  - split; [apply (upd_total _ _ _ _ _ Hde)|]. intros g Hg. rewrite (upd_refs _ _ _ _ _ Hde), Hoc by done.
    case_decide; subst; lia.
Qed.

(** What a step of the destruction may do: release the frames [l] and change the
    tables [ts]. *)
Definition after (m m' : mem) (l ts : list Z) : Prop :=
  mem_ok m' ∧ released (mem_alloc m) l (mem_alloc m') ∧ ∀ x, x ∉ ts → mem_ram m' !! x = mem_ram m !! x.

Lemma managed_total m m' p : total_frames (mem_alloc m') = total_frames (mem_alloc m) → managed m p → managed m' p.
Proof. unfold managed. by intros ->. Qed.

Lemma releasable_part m m1 l1 l2 l3 : releasable m (l1 ++ l2 ++ l3) →
  released (mem_alloc m) l1 (mem_alloc m1) → releasable m1 l2.
Proof.
  intros [Hf Ho] [Ht Hr]. apply Forall_app in Hf as [_ Hf]. apply Forall_app in Hf as [Hf _]. split.
  - eapply Forall_impl; [exact Hf|]. intros p. by apply managed_total.
  - intros f Hft. rewrite Ht in Hft. rewrite Hr by done. specialize (Ho f Hft). rewrite !occurs_app in Ho.
    pose proof (occurs_nonneg f l3). lia.
Qed.

Lemma after_trans m m1 m2 l1 l2 ts1 ts2 : after m m1 l1 ts1 → after m1 m2 l2 ts2 → after m m2 (l1 ++ l2) (ts1 ++ ts2).
Proof.
  intros (_ & Hr1 & Hx1) (Hok & Hr2 & Hx2). split_and!; [done|by eapply released_trans|].
  intros x Hx. rewrite not_elem_of_app in Hx. rewrite Hx2, Hx1 by tauto. done.
Qed.

Lemma release_entry_ok t i m : mem_ok m → managed m t → 0 ≤ i < 512 →
  releasable m [Z.land (entry_of (mem_ram m) t i) PHYS_MASK] →
  wp (release_entry t i m) (λ m', after m m' [Z.land (entry_of (mem_ram m) t i) PHYS_MASK] [t]
    ∧ ∀ j, 0 ≤ j < 512 → j ≠ i → entry_of (mem_ram m') t j = entry_of (mem_ram m) t j).
Proof.
  intros Hm Ht Hi [Hman Hoc]. unfold release_entry. pose proof (managed_frame m t Hm Ht) as Hfr.
  rewrite get_entry_ok by done. cbn [obind]. rewrite entry_addr_spec.
  set (p := Z.land _ PHYS_MASK) in *. inversion_clear Hman as [|? ? (f & Hp & Hf) _].
  assert (p / FRAME_SIZE = f) as Hd by (rewrite Hp; by apply Z.div_mul).
  assert (0 < refs (mem_alloc m) f) as Hpos.
  { specialize (Hoc f Hf). unfold occurs in Hoc. rewrite filter_cons, decide_True in Hoc by done. simpl in Hoc. lia. }
  wp_step. eapply wp_mono; [by eapply deallocate_released, Hpos; [apply (mo_wf m Hm)|..]|cbv beta].
  intros a [Hwf Hrel]. wp_step. eapply wp_mono; [apply set_entry_ok; [done|done|lia]|cbv beta].
  intros r (Hk & He & Hx). wp_step. split.
  - split_and!; [|done|intros y Hy; apply Hx; intros ->; apply Hy; left].
    apply (mem_ok_frames m); [done|done|apply Hrel|done].
  - intros j Hj Hne. cbn [mem_ram]. rewrite He by done. by rewrite decide_False.
Qed.

(** The specification of destroying a table: [f] gives the frames it releases,
    [tb] the tables it changes, both determined by these tables alone. *)
Definition sub_ok (d : Z → mem → outcome mem) (f tb : ram → Z → list Z) : Prop :=
  (∀ c m, mem_ok m → NoDup (tb (mem_ram m) c) → Forall (managed m) (tb (mem_ram m) c) →
     releasable m (f (mem_ram m) c) →
     wp (d c m) (λ m', after m m' (f (mem_ram m) c) (tb (mem_ram m) c)))
  ∧ (∀ r r' c, (∀ x, x ∈ tb r c → r' !! x = r !! x) → f r' c = f r c ∧ tb r' c = tb r c).

Definition below_ok (D : option (Z → mem → outcome mem)) (F T : option (ram → Z → list Z)) : Prop :=
  match D, F, T with
  | None, None, None => True
  | Some d, Some f, Some tb => sub_ok d f tb
  | _, _, _ => False
  end.

Definition at_ram (r : ram) (F : option (ram → Z → list Z)) : option (Z → list Z) := (λ f, f r) <$> F.

Lemma destroy_entry_ok chk D F T t i m : below_ok D F T → mem_ok m → managed m t → 0 ≤ i < 512 →
  let e := entry_of (mem_ram m) t i in
  let ts := tables_item chk (at_ram (mem_ram m) T) e in
  NoDup (t :: ts) → Forall (managed m) ts → releasable m (freed_item chk (at_ram (mem_ram m) F) e) →
  wp (destroy_entry off chk D t i m) (λ m',
    after m m' (freed_item chk (at_ram (mem_ram m) F) e) (t :: ts)
    ∧ ∀ j, 0 ≤ j < 512 → j ≠ i → entry_of (mem_ram m') t j = entry_of (mem_ram m) t j).
Proof.
  intros Hbelow Hm Ht Hi e ts Hnd Hman Hrel. unfold destroy_entry.
  rewrite get_entry_ok by (by apply managed_frame). fold e. cbn [obind].
  rewrite is_unused_spec, flag_user_spec, flag_huge_spec, entry_addr_spec.
  unfold freed_item, tables_item in *. subst ts.
  destruct (negb (e =? 0) && Z.testbit e 2).
  2: { wp_step. split; [|done]. split_and!; [done|apply released_refl|done]. }
  assert (releasable m [Z.land e PHYS_MASK] →
    wp (release_entry t i m) (λ m', after m m' [Z.land e PHYS_MASK] [t]
      ∧ ∀ j, 0 ≤ j < 512 → j ≠ i → entry_of (mem_ram m') t j = entry_of (mem_ram m) t j)) as Hleaf
    by (intros; by apply release_entry_ok).
  destruct D as [d|], F as [f|], T as [tb|]; try done; cbn [at_ram fmap option_fmap option_map] in *; [|by apply Hleaf].
  destruct (chk && Z.testbit e 7); [by apply Hleaf|].
  destruct Hbelow as [Hd Hext]. apply NoDup_cons in Hnd as [Hnt Hnd].
  assert (releasable m (f (mem_ram m) (Z.land e PHYS_MASK))) as Hr1.
  { eapply (releasable_part m m [] _ [Z.land e PHYS_MASK]); [exact Hrel|apply released_refl]. }
  assert (managed m (Z.land e PHYS_MASK)) as Hma.
  { destruct Hrel as [Hf _]. apply Forall_app in Hf as [_ Hf]. by inversion_clear Hf. }
  rewrite (window_ok m) by done. cbn [obind]. wp_step. eapply wp_mono; [by apply Hd|cbv beta].
  intros m1 Hafter. pose proof Hafter as (Hm1 & Hrel1 & Hx1).
  assert (∀ j, entry_of (mem_ram m1) t j = entry_of (mem_ram m) t j) as Hent
    by (intros j; by apply entry_of_frame, Hx1).
  pose proof (release_entry_ok t i m1 Hm1) as Hlast. rewrite Hent in Hlast. fold e in Hlast.
  eapply wp_mono; [apply Hlast; [by eapply managed_total; [apply Hrel1|]|done|]|cbv beta].
  { eapply (releasable_part m m1 _ _ []); [rewrite app_nil_r; exact Hrel|done]. }
  intros m2 [Hafter2 Hent2]. split; [|intros j Hj Hne; by rewrite Hent2, Hent].
  pose proof (after_trans _ _ _ _ _ _ _ Hafter Hafter2) as (Ha & Hb & Hc). split_and!; [done|done|].
  intros x [Hxt Hxs]%not_elem_of_cons. apply Hc, not_elem_of_app. split; [done|].
  apply not_elem_of_cons. split; [done|apply not_elem_of_nil].
Qed.

Lemma items_S n item r t : items (S n) item r t = items n item r t ++ item (entry_of r t (Z.of_nat n)).
Proof. unfold items. rewrite seq_S, map_app, concat_app. simpl. by rewrite app_nil_r. Qed.

Lemma items_split n k item r t : (k < n)%nat →
  ∃ rest, items n item r t = items k item r t ++ item (entry_of r t (Z.of_nat k)) ++ rest.
Proof.
  intros Hk. unfold items. exists (concat (map (λ i, item (entry_of r t (Z.of_nat i))) (seq (S k) (n - S k)))).
  replace n with (k + S (n - S k))%nat at 1 by lia. rewrite seq_app, map_app, concat_app. cbn [seq map concat].
  by rewrite Nat.add_0_l.
Qed.

(** The items of an entry depend on the tables below it only. *)
Lemma item_ext chk D F T r r' e : below_ok D F T →
  (∀ x, x ∈ tables_item chk (at_ram r T) e → r' !! x = r !! x) →
  freed_item chk (at_ram r' F) e = freed_item chk (at_ram r F) e
  ∧ tables_item chk (at_ram r' T) e = tables_item chk (at_ram r T) e.
Proof.
  intros Hb Hx. unfold freed_item, tables_item in *. destruct (negb (e =? 0) && Z.testbit e 2); [|done].
  destruct D as [d|], F as [f|], T as [tb|]; try done. cbn [at_ram fmap option_fmap option_map] in *.
  destruct (chk && Z.testbit e 7); [done|]. destruct Hb as [_ Hext]. destruct (Hext r r' _ Hx) as [-> ->]. done.
Qed.

Lemma destroy_loop n chk D F T t m : (n ≤ 512)%nat → below_ok D F T → mem_ok m → managed m t →
  let r := mem_ram m in
  let fs := items n (freed_item chk (at_ram r F)) r t in
  let ts := t :: items n (tables_item chk (at_ram r T)) r t in
  NoDup ts → Forall (managed m) ts → releasable m fs →
  wp (each_range 0 (Z.of_nat n) (destroy_entry off chk D t) m) (λ m', after m m' fs ts).
Proof.
  intros Hn Hbelow Hm Ht r fs ts Hnd Hman Hrel.
  set (fi := freed_item chk (at_ram r F)) in *. set (ti := tables_item chk (at_ram r T)) in *.
  eapply wp_mono; [apply (wp_each_range (λ z m', after m m' (items (Z.to_nat z) fi r t) (t :: items (Z.to_nat z) ti r t)
    ∧ ∀ j, z ≤ j < 512 → entry_of (mem_ram m') t j = entry_of r t j))|].
  { split; [|done]. split_and!; [done|apply released_refl|done]. }
  2: { intros m' [Ha _]. rewrite Z.max_r, Nat2Z.id in Ha by lia. exact Ha. }
  intros z m1 Hz [Ha Hent]. replace (Z.to_nat (z + 1)) with (S (Z.to_nat z)) by lia. rewrite !items_S.
  rewrite Z2Nat.id by lia.
  destruct (items_split n (Z.to_nat z) fi r t ltac:(lia)) as [frest Hfs].
  destruct (items_split n (Z.to_nat z) ti r t ltac:(lia)) as [trest Hts]. rewrite Z2Nat.id in Hfs, Hts by lia.
  pose proof Ha as (Hm1 & Hrel1 & Hx1). set (e := entry_of r t z) in *.
  assert (entry_of (mem_ram m1) t z = e) as He by (apply Hent; lia).
  unfold ts in Hnd, Hman. rewrite Hts in Hnd, Hman. apply NoDup_cons in Hnd as [Hnt Hnd].
  rewrite !not_elem_of_app in Hnt. apply NoDup_app in Hnd as (_ & Hdis & Hnd).
  apply NoDup_app in Hnd as (Hnde & _ & _).
  inversion_clear Hman as [|? ? _ Hman']. apply Forall_app in Hman' as [_ Hman']. apply Forall_app in Hman' as [Hmane _].
  assert (∀ x, x ∈ ti e → mem_ram m1 !! x = r !! x) as Hsame.
  { intros x Hx. apply Hx1. intros [->|Hin]%elem_of_cons; [tauto|].
    apply (Hdis x Hin). apply elem_of_app. by left. }
  destruct (item_ext chk D F T r (mem_ram m1) e Hbelow Hsame) as [Hfe Hte].
  pose proof (destroy_entry_ok chk D F T t z m1 Hbelow Hm1) as Hstep. cbv zeta in Hstep.
  rewrite He, Hfe, Hte in Hstep. fold fi ti in Hstep.
  eapply wp_mono; [apply Hstep|cbv beta].
  - by eapply managed_total; [apply Hrel1|].
  - lia.
  - apply NoDup_cons. split; [tauto|done].
  - eapply Forall_impl; [exact Hmane|]. intros p. apply managed_total, Hrel1.
  - unfold fs in Hrel. rewrite Hfs in Hrel. by eapply releasable_part.
  - intros m2 [Ha2 Hent2]. split.
    + pose proof (after_trans _ _ _ _ _ _ _ Ha Ha2) as (Hok & Hr & Hx). split_and!; [done|done|].
      intros x Hxn. rewrite app_comm_cons, not_elem_of_app, not_elem_of_cons in Hxn. apply Hx.
      rewrite not_elem_of_app, !not_elem_of_cons. tauto.
    + intros j Hj. rewrite Hent2 by lia. apply Hent. lia.
Qed.

Definition level (A : nat → ram → Z → list Z) (lvl : nat) : option (ram → Z → list Z) :=
  match lvl with O => None | S l => Some (A l) end.
Abbreviation freed_at := (λ l r t, freed r l t).
Abbreviation tables_at := (λ l r t, tables r l t).
Abbreviation destroy_at lvl := (match lvl with O => None | S l => Some (destroy_table off l) end).

Lemma freed_unfold r lvl t : freed r lvl t = items 512 (freed_item true (at_ram r (level freed_at lvl))) r t.
Proof. by destruct lvl. Qed.

Lemma tables_unfold r lvl t :
  tables r lvl t = t :: items 512 (tables_item true (at_ram r (level tables_at lvl))) r t.
Proof. by destruct lvl. Qed.

(** The frames and tables of a subtree depend on its tables only. *)
Lemma items_ext n chk D F T r r' t : below_ok D F T →
  (∀ x, x ∈ t :: items n (tables_item chk (at_ram r T)) r t → r' !! x = r !! x) →
  items n (freed_item chk (at_ram r' F)) r' t = items n (freed_item chk (at_ram r F)) r t
  ∧ items n (tables_item chk (at_ram r' T)) r' t = items n (tables_item chk (at_ram r T)) r t.
Proof.
  intros Hb Hx. assert (r' !! t = r !! t) as Ht by (apply Hx; left).
  assert (∀ j, entry_of r' t j = entry_of r t j) as He by (intros j; by apply entry_of_frame).
  assert (∀ k, (k < n)%nat → ∀ x, x ∈ tables_item chk (at_ram r T) (entry_of r t (Z.of_nat k)) → r' !! x = r !! x) as Hk.
  { intros k Hk x Hin. apply Hx. right. destruct (items_split n k (tables_item chk (at_ram r T)) r t Hk) as [rest ->].
    apply elem_of_app. right. apply elem_of_app. by left. }
  unfold items. split; f_equal; apply map_ext_in; intros k [_ Hin]%in_seq; rewrite He;
    apply (item_ext chk D F T r r' _ Hb), Hk; lia.
Qed.

Lemma destroy_table_ok lvl : below_ok (Some (destroy_table off lvl)) (Some (freed_at lvl)) (Some (tables_at lvl)).
Proof.
  assert (∀ l, below_ok (destroy_at l) (level freed_at l) (level tables_at l) →
    sub_ok (destroy_table off l) (freed_at l) (tables_at l)) as Hstep.
  { intros l Hb. split.
    - intros c m Hm. rewrite freed_unfold, tables_unfold. intros Hnd Hman Hrel.
      inversion_clear Hman as [|? ? Hc Hman'].
      assert (destroy_table off l c m = each_range 0 (Z.of_nat 512) (destroy_entry off true (destroy_at l) c) m) as ->
        by (by destruct l).
      apply (destroy_loop 512 true (destroy_at l) (level freed_at l) (level tables_at l) c m); try done.
      by constructor.
    - intros r r' c Hx. rewrite !freed_unfold, !tables_unfold. rewrite tables_unfold in Hx.
      destruct (items_ext 512 true _ _ _ r r' c Hb Hx) as [-> ->]. done. }
  induction lvl as [|l IH]; apply Hstep; [done|exact IH].
Qed.

(** C11: destroying an address space.  When the tables of the space are distinct
    frames and every frame is counted at least as often as the space mentions it
    (once per page that maps it, once per table, once for the top-level table),
    [destroy_user_address_space] returns, without a double-free panic and in
    either profile, and the count of every frame has dropped by exactly the number
    of its mentions: pages owned by this space alone become free, shared pages
    survive for their other owners.  No frame outside the space's own tables is
    written. *)
Theorem destroy_user_address_space_releases pml4 m : mem_ok m →
  NoDup (space_tables (mem_ram m) pml4) → Forall (managed m) (space_tables (mem_ram m) pml4) →
  releasable m (space_frames (mem_ram m) pml4) →
  wp (destroy_user_address_space (Some off) pml4 m) (λ m', mem_ok m'
    ∧ released (mem_alloc m) (space_frames (mem_ram m) pml4) (mem_alloc m')
    ∧ ∀ x, x ∉ space_tables (mem_ram m) pml4 → mem_ram m' !! x = mem_ram m !! x).
Proof.
  intros Hm Hnd Hman Hrel. unfold destroy_user_address_space, hhdm_offset. cbn [obind].
  rewrite (virt_new_off m) by done. cbn [obind].
  assert (managed m pml4) as Hp by (by inversion_clear Hman).
  rewrite (window_ok m) by done. cbn [obind]. wp_step.
  assert (releasable m (items 256 (freed_item false (Some (freed (mem_ram m) 2))) (mem_ram m) pml4)) as Hr1.
  { eapply (releasable_part m m [] _ [pml4]); [exact Hrel|apply released_refl]. }
  eapply wp_mono; [apply (destroy_loop 256 false (Some (destroy_table off 2)) (Some (freed_at 2%nat)) (Some (tables_at 2%nat)));
    [lia|apply destroy_table_ok|done..]|cbv beta].
  intros m1 (Hm1 & Hrel1 & Hx1). wp_step.
  assert (releasable m1 [pml4]) as [Hf1 Ho1].
  { eapply (releasable_part m m1 _ _ []); [rewrite app_nil_r; exact Hrel|exact Hrel1]. }
  inversion_clear Hf1 as [|? ? (f & Hpf & Hf) _].
  eapply wp_mono; [apply (deallocate_released _ _ f); [apply (mo_wf m1 Hm1)|exact Hpf|done|]|cbv beta].
  { specialize (Ho1 f Hf). unfold occurs in Ho1. rewrite filter_cons, decide_True in Ho1 by (rewrite Hpf; by apply Z.div_mul).
    simpl in Ho1. lia. }
  intros a [Hwf Hrel2]. wp_step. split_and!.
  - apply (mem_ok_frames m1); [done|done|apply Hrel2|done].
  - exact (released_trans _ _ _ _ _ Hrel1 Hrel2).
  - intros y Hy. by apply Hx1.
Qed.

(** ** The user-mapping check *)

(** The tables on the way are in memory, inside the direct map. *)
Fixpoint walk_ok (r : ram) (lvl : nat) (t a : Z) : Prop :=
  let e := entry_of r t (Z.land (Z.shiftr a (12 + 9 * Z.of_nat lvl)) 511) in
  frame_ok r t ∧ 0 ≤ t ∧ off + t + 4096 ≤ 2 ^ 64 ∧
  match lvl with
  | O => True
  | S l => Z.testbit e 0 = true → (lvl <? 3)%nat && Z.testbit e 7 = false → walk_ok r l (Z.land e PHYS_MASK) a
  end.

Lemma read_entry_ok r t l a : 0 ≤ off → frame_ok r t → 0 ≤ t → off + t + 4096 ≤ 2 ^ 64 → 1 ≤ l ≤ 4 →
  read_entry off r t (index l a) = Ret (entry_of r t (Z.land (Z.shiftr a (12 + 9 * (l - 1))) 511)).
Proof.
  intros Ho Hf Ht Hoff Hl. unfold read_entry, uadd. rewrite index_spec by lia.
  assert (0 ≤ Z.land (Z.shiftr a (12 + 9 * (l - 1))) 511 < 512) as Hi.
  { change 511 with (Z.ones 9). rewrite Z.land_ones by lia. apply Z.mod_pos_bound. lia. }
  rewrite checked_ok by lia. cbn [obind]. rewrite checked_ok by lia. cbn [obind]. by apply get_entry_ok.
Qed.

Lemma bit_present e : (Z.land e PRESENT =? 0) = negb (Z.testbit e 0).
Proof. by apply mask_test. Qed.
Lemma bit_user e : (Z.land e USER =? 0) = negb (Z.testbit e 2).
Proof. by apply mask_test. Qed.
Lemma bit_huge e : (Z.land e HUGE =? 0) = negb (Z.testbit e 7).
Proof. by apply mask_test. Qed.

Lemma user_page_mapped_ok cr3 r a : 0 ≤ off → walk_ok r 3 cr3 a →
  is_user_page_mapped (Some off) cr3 r a
  = Ret match leaf_walk r 3 cr3 a with Some (_, e) => Z.testbit e 2 | None => false end.
Proof.
  intros Ho Hok.
  unfold is_user_page_mapped, hhdm_offset. cbn [obind walk_ok leaf_walk] in *.
  destruct Hok as (Hf4 & Hp4 & Hq4 & Hok). rewrite read_entry_ok by (done || lia). cbn [obind].
  change (12 + 9 * (4 - 1)) with (12 + 9 * Z.of_nat 3). set (e4 := entry_of r cr3 _) in *.
  rewrite bit_present. destruct (Z.testbit e4 0); [|done]. cbn [negb].
  destruct (Hok eq_refl eq_refl) as (Hf3 & Hp3 & Hq3 & Hok3). rewrite read_entry_ok by (done || lia). cbn [obind].
  change (12 + 9 * (3 - 1)) with (12 + 9 * Z.of_nat 2). set (e3 := entry_of r (Z.land e4 PHYS_MASK) _) in *.
  rewrite bit_present, bit_huge, bit_user. destruct (Z.testbit e3 0); [|done]. rewrite !negb_involutive. cbn [negb].
  change (2 <? 3)%nat with true in *. change (3 <? 3)%nat with false in *. cbn [andb] in *.
  destruct (Z.testbit e3 7); [done|].
  destruct (Hok3 eq_refl eq_refl) as (Hf2 & Hp2 & Hq2 & Hok2). rewrite read_entry_ok by (done || lia). cbn [obind].
  change (12 + 9 * (2 - 1)) with (12 + 9 * Z.of_nat 1). set (e2 := entry_of r (Z.land e3 PHYS_MASK) _) in *.
  rewrite bit_present, bit_huge, bit_user. destruct (Z.testbit e2 0); [|done]. rewrite !negb_involutive. cbn [negb].
  change (1 <? 3)%nat with true in *. cbn [andb] in *. destruct (Z.testbit e2 7); [done|].
  destruct (Hok2 eq_refl eq_refl) as (Hf1 & Hp1 & Hq1 & _). rewrite read_entry_ok by (done || lia). cbn [obind].
  change (12 + 9 * (1 - 1)) with (12 + 9 * Z.of_nat 0). set (e1 := entry_of r (Z.land e2 PHYS_MASK) _) in *.
  rewrite bit_present, bit_user, negb_involutive. by destruct (Z.testbit e1 0).
Qed.

(** The check of user pointers.  [is_user_page_mapped] returns whether the
    translation of the address is present at every level with the user bit set in
    its last entry (a page or a huge page).  So it accepts every address that the
    processor lets ring 3 access; it does not look at the user bits of the upper
    levels. *)
Theorem is_user_page_mapped_leaf cr3 r a : 0 ≤ off → walk_ok r 3 cr3 a →
  is_user_page_mapped (Some off) cr3 r a
  = Ret match leaf_walk r 3 cr3 a with Some (_, e) => Z.testbit e 2 | None => false end
  ∧ (user_accessible r cr3 a = true → is_user_page_mapped (Some off) cr3 r a = Ret true).
Proof.
  intros Ho Hok. pose proof (user_page_mapped_ok _ _ _ Ho Hok) as Heq.
  split; [done|]. intros Hu. rewrite Heq. destruct (user_walk_leaf _ _ _ _ Hu) as (l & e & -> & ->). done.
Qed.
End Spaces.

(** ** Witnesses *)

Definition masked_phys_new : PhysAddrNew := λ a, if (0 <=? a) && (a <? 2 ^ 52) then Ret a else Stop Panic.

Lemma masked_phys_new_spec : @PhysAddrSpec masked_phys_new.
Proof. split. intros a Ha. unfold phys_new, masked_phys_new. by rewrite (proj2 (Z.leb_le _ _)), (proj2 (Z.ltb_lt _ _)) by lia. Qed.

Module Sample.
Definition off : Z := 2 ^ 64 - 2 ^ 47.

(** A table with the given entries. *)
Definition table (es : list (Z * Z)) : list Z :=
  foldr (λ '(i, e) b, splice (8 * i) (le_bytes 8 e) b) zero_frame es.

(** Ten frames: a top-level table in frame 1 with a kernel entry and one user
    page, which is frame 5 and has a second owner. *)
Definition frames : BitmapFrameAllocator := mkAlloc [63; 0] [1; 1; 1; 1; 1; 2; 0; 0; 0; 0] 10 6.
Definition contents : list (list Z) :=
  [zero_frame; table [(0, 0x2007); (256, 0x9003)]; table [(0, 0x3007)]; table [(0, 0x4007)]; table [(5, 0x5007)]]
  ++ replicate 5 zero_frame.
Definition memory : ram :=
  list_to_map (imap (λ i b, (Z.of_nat i * FRAME_SIZE, b)) contents).
Definition m : mem := mkMem frames memory.

Definition frame_okb (r : ram) (t : Z) : bool :=
  match r !! t with Some b => (length b =? 4096)%nat && forallb (fits 8) b | None => false end.

Lemma frame_okb_sound r t : frame_okb r t = true → frame_ok r t.
Proof.
  unfold frame_okb. intros Hb. destruct (r !! t) as [b|] eqn:E; [|done]. apply andb_true_iff in Hb as [Hl Hf].
  exists b. split; [done|]. split; [by apply Nat.eqb_eq|by apply (Forall_fits 8)].
Qed.

Lemma ok : mem_ok off m.
Proof.
  split.
  - by apply wf_check_sound.
  - vm_compute. discriminate.
  - right. vm_compute. split; [discriminate|reflexivity].
  - intros p Hp. change (total_frames (mem_alloc m) * FRAME_SIZE) with 40960 in Hp. right. unfold off. lia.
  - intros f Hf. apply frame_okb_sound.
    apply (all_below_spec 10 (λ f, frame_okb memory (f * FRAME_SIZE))); [vm_compute; reflexivity|exact Hf].
Qed.

Lemma managed_1 : managed m 4096.
Proof. exists 1. split; [reflexivity|]. vm_compute. split; [discriminate|reflexivity]. Qed.

Definition managedb (p : Z) : bool := (p mod FRAME_SIZE =? 0) && (0 <=? p / FRAME_SIZE) && (p / FRAME_SIZE <? 10).

Lemma managedb_sound l : forallb managedb l = true → Forall (managed m) l.
Proof.
  intros Hl%Is_true_eq_left%forallb_True. eapply Forall_impl; [exact Hl|]. intros p Hp%Is_true_true.
  unfold managedb in Hp. exists (p / FRAME_SIZE). change (total_frames (mem_alloc m)) with 10.
  unfold FRAME_SIZE in *. split; zlia.
Qed.

Lemma frames_eq : space_frames memory 4096 = [0x5000; 0x4000; 0x3000; 0x2000; 0x1000].
Proof. vm_compute. reflexivity. Qed.

Lemma tables_eq : space_tables memory 4096 = [0x1000; 0x2000; 0x3000; 0x4000].
Proof. vm_compute. reflexivity. Qed.
End Sample.

Lemma create_isolated_pml4_isolates_witness :
  wp (@create_isolated_pml4 true checked_virt_new masked_phys_new x86_entries (Some Sample.off) 4096 Sample.m)
     (λ '(o, m'), match o with Some p => user_accessible (mem_ram m') p 0x5000 = false | None => True end).
Proof.
  eapply wp_mono; [apply (@create_isolated_pml4_isolates true checked_virt_new checked_virt_new_spec masked_phys_new
    masked_phys_new_spec x86_entries x86_entries_spec Sample.off 4096 Sample.m Sample.ok Sample.managed_1)|].
  - vm_compute. reflexivity.
  - intros [[p|] m'].
    + intros (_ & _ & Ha). apply Ha. lia.
    + intros _. exact I.
Defined.

Lemma destroy_user_address_space_releases_witness :
  wp (@destroy_user_address_space true checked_virt_new x86_entries (Some Sample.off) 4096 Sample.m)
     (λ m', released Sample.frames [0x5000; 0x4000; 0x3000; 0x2000; 0x1000] (mem_alloc m')).
Proof.
  rewrite <- Sample.frames_eq.
  eapply wp_mono; [apply (@destroy_user_address_space_releases true checked_virt_new checked_virt_new_spec
    x86_entries x86_entries_spec Sample.off 4096 Sample.m Sample.ok)|].
  - cbn [mem_ram Sample.m]. rewrite Sample.tables_eq. apply (bool_decide_unpack _). vm_compute. exact I.
  - cbn [mem_ram Sample.m]. rewrite Sample.tables_eq.
    apply Sample.managedb_sound. vm_compute. reflexivity.
  - cbn [mem_ram Sample.m]. rewrite Sample.frames_eq. split.
    + apply Sample.managedb_sound. vm_compute. reflexivity.
    + intros f Hf. cbn in Hf. apply Z.leb_le.
      apply (all_below_spec 10 (λ f, occurs f [0x5000; 0x4000; 0x3000; 0x2000; 0x1000] <=? refs Sample.frames f));
        [vm_compute; reflexivity|exact Hf].
  - intros m' (_ & Hr & _). exact Hr.
Defined.

(** The check against memory whose second-level entry lacks the user bit. *)
Definition hidden_memory : ram :=
  list_to_map (imap (λ i b, (Z.of_nat i * FRAME_SIZE, b))
    [zero_frame; Sample.table [(0, 0x2007)]; Sample.table [(0, 0x3007)]; Sample.table [(0, 0x4003)]; Sample.table [(5, 0x5007)]]).

Lemma is_user_page_mapped_leaf_witness :
  user_accessible Sample.memory 4096 0x5123 = true
  ∧ @is_user_page_mapped true x86_entries (Some Sample.off) 4096 Sample.memory 0x5123 = Ret true.
Proof.
  assert (user_accessible Sample.memory 4096 0x5123 = true) as Hu by (vm_compute; reflexivity).
  split; [exact Hu|].
  apply (@is_user_page_mapped_leaf true x86_entries x86_entries_spec Sample.off 4096 Sample.memory 0x5123).
  - discriminate.
  - cbn [walk_ok]. split_and!; try (apply Sample.frame_okb_sound; vm_compute; reflexivity); try (vm_compute; discriminate).
    intros _ _. split_and!; try (apply Sample.frame_okb_sound; vm_compute; reflexivity); try (vm_compute; discriminate).
    intros _ _. split_and!; try (apply Sample.frame_okb_sound; vm_compute; reflexivity); try (vm_compute; discriminate).
    intros _ _. split_and!; try (apply Sample.frame_okb_sound; vm_compute; reflexivity); try (vm_compute; discriminate).
    exact I.
  - exact Hu.
Defined.

(** The check accepts pages that ring 3 cannot reach: with the user bit clear
    in the page-directory entry and set in the last one, [is_user_page_mapped] says
    yes where the processor faults. *)
Theorem is_user_page_mapped_ignores_upper_levels :
  @is_user_page_mapped true x86_entries (Some Sample.off) 4096 hidden_memory 0x5000 = Ret true
  ∧ user_accessible hidden_memory 4096 0x5000 = false.
Proof. split; vm_compute; reflexivity. Qed.
