(* ===== verification/PageTree.v ===== *)
(** * Page-table trees and the mapper (src/src/mm/memory.rs)

    The interface between the kernel's memory code and the [OffsetPageTable] of the
    x86_64 crate.  The crate's operations are the class [Mapper]; its documented
    behaviour is [MapperSpec], stated over the processor's walk of [Paging]: which
    translations an operation changes, which memory it may write, how many frames
    it takes and when it may fail.  The lemmas about trees of tables serve the
    clients of the specification and the mapper of [PageMapper], which satisfies
    it. *)

From S2P Require Import Prelude KError X86 FrameAlloc Paging.

#[local] Open Scope list_scope.

(** ** The mapper *)

Inductive MapToError := FrameAllocationFailed | ParentEntryHugePage | PageAlreadyMapped.
Inductive UnmapError := UnmapParentHuge | PageNotMapped | InvalidFrameAddress.
Inductive FlagUpdateError := FlagPageNotMapped | FlagParentHuge.

(** The operations take the frame of the top-level table.  [map_to] is given the
    frame allocator for new tables. *)
Class Mapper := {
  translate_addr : ram → Z → Z → option Z;
  translate_flags : ram → Z → Z → option Z;
  translate_page : ram → Z → Z → bool;
  map_to : (mem → outcome (option Z * mem)) → mem → Z → Z → Z → Z → outcome (result unit MapToError * mem);
  unmap : ram → Z → Z → result Z UnmapError * ram;
  update_flags : ram → Z → Z → Z → result unit FlagUpdateError * ram;
}.

Definition FLAG_PRESENT : Z := 1.
Definition FLAG_WRITABLE : Z := 2.
Definition FLAG_USER : Z := 4.

(** [Page::containing_address]. *)
Definition page_of (a : Z) : Z := a - a mod 4096.

(** ** Page-table trees *)

(** Does an entry of a level-[lvl] table point to a table? *)
Definition descends (lvl : nat) (e : Z) : bool := Z.testbit e 0 && negb ((lvl <? 3)%nat && Z.testbit e 7).

Definition idx (lvl : nat) (a : Z) : Z := Z.land (Z.shiftr a (12 + 9 * Z.of_nat lvl)) 511.

(** The level-1 table of the translation of [a], and its entry for [a]. *)
Fixpoint leaf_table (r : ram) (lvl : nat) (t a : Z) : option Z :=
  match lvl with
  | O => Some t
  | S l => let e := entry_of r t (idx lvl a) in
           if descends lvl e then leaf_table r l (Z.land e PHYS_MASK) a else None
  end.

Definition slot (r : ram) (pml4 a : Z) : option Z :=
  (λ t, entry_of r t (idx 0 a)) <$> leaf_table r 3 pml4 a.

(** No unusual entry on the way to the level-1 table: each is zero, or points to a
    table. *)
Fixpoint plain_path (r : ram) (lvl : nat) (t a : Z) : bool :=
  match lvl with
  | O => true
  | S l => let e := entry_of r t (idx lvl a) in
           (e =? 0) || (Z.testbit e 0 && negb (Z.testbit e 7) && plain_path r l (Z.land e PHYS_MASK) a)
  end.

(** Every entry on the way is present and open to ring 3. *)
Fixpoint user_parents (r : ram) (lvl : nat) (t a : Z) : bool :=
  match lvl with
  | O => true
  | S l => let e := entry_of r t (idx lvl a) in
           descends lvl e && Z.testbit e 2 && user_parents r l (Z.land e PHYS_MASK) a
  end.

(** All tables of a tree. *)
Fixpoint pt_tables (r : ram) (lvl : nat) (t : Z) : list Z :=
  t :: match lvl with
       | O => []
       | S l => items 512 (λ e, if descends lvl e then pt_tables r l (Z.land e PHYS_MASK) else []) r t
       end.

(** A well-formed space: its tables are distinct owned frames, and the reserved
    bit 7 of the top-level entries is clear. *)
Record space_wf (m : mem) (pml4 : Z) : Prop := {
  sw_nodup : NoDup (pt_tables (mem_ram m) 3 pml4);
  sw_owned : Forall (λ x, managed m x ∧ 0 < refs (mem_alloc m) (x / FRAME_SIZE)) (pt_tables (mem_ram m) 3 pml4);
  sw_reserved i : 0 ≤ i < 512 → Z.testbit (entry_of (mem_ram m) pml4 i) 7 = false;
}.

(** Does a page have an entry? *)
Definition mapped (r : ram) (pml4 page : Z) : bool :=
  match slot r pml4 page with Some e => negb (e =? 0) | None => false end.

(** The translations of the other pages of the lower half are the same. *)
Definition same_at (r r' : ram) (pml4 a : Z) : Prop :=
  leaf_walk r' 3 pml4 a = leaf_walk r 3 pml4 a ∧ mapped r' pml4 a = mapped r pml4 a.
Definition others_same (r r' : ram) (pml4 page : Z) : Prop :=
  ∀ a, 0 ≤ a < 2 ^ 47 → page_of a ≠ page → same_at r r' pml4 a.

(** The pages whose path was plain keep a plain path. *)
Definition plain_kept (r r' : ram) (pml4 : Z) : Prop :=
  ∀ a, 0 ≤ a < 2 ^ 47 → plain_path r 3 pml4 a = true → plain_path r' 3 pml4 a = true.

(** What ring 3 could reach it can still reach. *)
Definition user_kept (r r' : ram) (pml4 : Z) : Prop :=
  ∀ a, 0 ≤ a < 2 ^ 47 → user_accessible r pml4 a = true → user_accessible r' pml4 a = true.

(** New tables are made of frames that were free. *)
Definition tables_grown (m m' : mem) (pml4 : Z) : Prop :=
  ∀ x, x ∈ pt_tables (mem_ram m') 3 pml4 →
    x ∈ pt_tables (mem_ram m) 3 pml4 ∨ ¬ 0 < refs (mem_alloc m) (x / FRAME_SIZE).

(** Only tables of the space and frames that were free are written. *)
Definition data_same (m m' : mem) (pml4 : Z) : Prop :=
  ∀ x, managed m x → 0 < refs (mem_alloc m) (x / FRAME_SIZE) → x ∉ pt_tables (mem_ram m) 3 pml4 →
    mem_ram m' !! x = mem_ram m !! x.

(** Frames may have been taken, none was released. *)
Definition grown (m m' : mem) : Prop :=
  total_frames (mem_alloc m') = total_frames (mem_alloc m)
  ∧ ∀ f, 0 ≤ f < total_frames (mem_alloc m) →
      (0 < refs (mem_alloc m) f → refs (mem_alloc m') f = refs (mem_alloc m) f)
      ∧ refs (mem_alloc m) f ≤ refs (mem_alloc m') f.

Definition is_page (a : Z) : Prop := 0 ≤ a < 2 ^ 47 ∧ a mod 4096 = 0.

(** Flags of a page: present, no huge bit, no address bits. *)
Definition page_flags (fl : Z) : Prop :=
  0 ≤ fl < 2 ^ 64 ∧ Z.land fl PHYS_MASK = 0 ∧ Z.testbit fl 0 = true ∧ Z.testbit fl 7 = false.

Abbreviation nfree m := (free_frames (mem_alloc m)).

(** Why mapping fails on an ordinary path: a mapping needs at most three new
    tables, and does not replace an entry. *)
Definition map_failure (m : mem) (pml4 page : Z) (e : MapToError) : Prop :=
  match e with
  | FrameAllocationFailed => nfree m < 3
  | ParentEntryHugePage => False
  | PageAlreadyMapped => mapped (mem_ram m) pml4 page = true
  end.

(** The documented behaviour of the mapper on well-formed spaces. *)
Class MapperSpec (off : Z) `{Profile} `{PhysAddrNew} `{Mapper} : Prop := {
  translate_page_spec m pml4 page : mem_ok off m → space_wf m pml4 → is_page page →
    translate_page (mem_ram m) pml4 page = mapped (mem_ram m) pml4 page;
  translate_addr_spec m pml4 a e : mem_ok off m → space_wf m pml4 → 0 ≤ a < 2 ^ 47 →
    slot (mem_ram m) pml4 a = Some e →
    translate_addr (mem_ram m) pml4 a = if e =? 0 then None else Some (Z.land e PHYS_MASK + a mod 4096);
  translate_addr_unmapped m pml4 a : mem_ok off m → space_wf m pml4 → 0 ≤ a < 2 ^ 47 →
    slot (mem_ram m) pml4 a = None → plain_path (mem_ram m) 3 pml4 a = true → translate_addr (mem_ram m) pml4 a = None;
  translate_flags_spec m pml4 a e : mem_ok off m → space_wf m pml4 → 0 ≤ a < 2 ^ 47 →
    slot (mem_ram m) pml4 a = Some e → e ≠ 0 →
    translate_flags (mem_ram m) pml4 a = Some (Z.ldiff e PHYS_MASK);
  map_to_spec m pml4 page frame fl : mem_ok off m → space_wf m pml4 → is_page page → page_flags fl →
    managed m frame → 0 < refs (mem_alloc m) (frame / FRAME_SIZE) →
    frame ∉ pt_tables (mem_ram m) 3 pml4 → plain_path (mem_ram m) 3 pml4 page = true →
    wp (map_to (system_allocate_frame (Some off)) m pml4 page frame fl) (λ '(res, m'),
      mem_ok off m' ∧ space_wf m' pml4 ∧ grown m m' ∧ data_same m m' pml4
      ∧ tables_grown m m' pml4 ∧ plain_kept (mem_ram m) (mem_ram m') pml4
      ∧ user_kept (mem_ram m) (mem_ram m') pml4 ∧ nfree m ≤ nfree m' + 3
      ∧ match res with
        | Ok _ => slot (mem_ram m') pml4 page = Some (Z.lor frame fl)
            ∧ (Z.testbit fl 2 = true → user_accessible (mem_ram m') pml4 page = true)
            ∧ others_same (mem_ram m) (mem_ram m') pml4 page
        | Err e => (∀ a, 0 ≤ a < 2 ^ 47 → same_at (mem_ram m) (mem_ram m') pml4 a)
            ∧ ~ (slot (mem_ram m) pml4 page = Some 0 ∧ user_parents (mem_ram m) 3 pml4 page = true)
            ∧ map_failure m pml4 page e
        end);
  unmap_spec m pml4 page e : mem_ok off m → space_wf m pml4 → is_page page →
    slot (mem_ram m) pml4 page = Some e → Z.testbit e 0 = true → Z.testbit e 7 = false →
    ∃ r', unmap (mem_ram m) pml4 page = (Ok (Z.land e PHYS_MASK), r')
      ∧ mem_ok off (set_ram m r') ∧ space_wf (set_ram m r') pml4 ∧ data_same m (set_ram m r') pml4
      ∧ pt_tables r' 3 pml4 = pt_tables (mem_ram m) 3 pml4
      ∧ user_parents r' 3 pml4 page = user_parents (mem_ram m) 3 pml4 page
      ∧ slot r' pml4 page = Some 0 ∧ others_same (mem_ram m) r' pml4 page;
  update_flags_spec m pml4 page e fl : mem_ok off m → space_wf m pml4 → is_page page →
    slot (mem_ram m) pml4 page = Some e → Z.testbit e 0 = true → page_flags fl →
    ∃ r', update_flags (mem_ram m) pml4 page fl = (Ok tt, r')
      ∧ mem_ok off (set_ram m r') ∧ space_wf (set_ram m r') pml4 ∧ data_same m (set_ram m r') pml4
      ∧ slot r' pml4 page = Some (Z.lor (Z.land e PHYS_MASK) fl) ∧ others_same (mem_ram m) r' pml4 page;
}.

(** ** Lemmas on trees *)

Section TreeLemmas.
Implicit Types (m : mem) (r : ram).

Lemma page_of_page a : 0 ≤ a < 2 ^ 47 → is_page (page_of a).
Proof. intros Ha. unfold is_page, page_of. zlia. Qed.

Lemma same_at_slot r r' pml4 a : leaf_walk r' 3 pml4 a = leaf_walk r 3 pml4 a → slot r' pml4 a = slot r pml4 a →
  same_at r r' pml4 a.
Proof. intros Hl Hs. split; [done|]. unfold mapped. by rewrite Hs. Qed.

Lemma same_at_trans r r' r'' pml4 a : same_at r r' pml4 a → same_at r' r'' pml4 a → same_at r r'' pml4 a.
Proof. intros [H1 H2] [H3 H4]. split; congruence. Qed.

Lemma grown_refl m : grown m m.
Proof. split; [done|]. intros. lia. Qed.

Lemma grown_trans m m1 m2 : grown m m1 → grown m1 m2 → grown m m2.
Proof.
  intros [Ht1 Hr1] [Ht2 Hr2]. split; [congruence|]. intros f Hf. destruct (Hr1 f Hf) as [Ha Hb].
  destruct (Hr2 f ltac:(lia)) as [Hc Hd]. split; [|lia]. intros Hpos. rewrite Hc, Ha by (try rewrite Ha; done || lia). done.
Qed.

(** Owned frames stay owned. *)
Lemma owned_grown m m1 x : grown m m1 → managed m x → 0 < refs (mem_alloc m) (x / FRAME_SIZE) →
  managed m1 x ∧ 0 < refs (mem_alloc m1) (x / FRAME_SIZE).
Proof.
  intros [Ht Hr] Hx Hpos. split; [by eapply managed_total|]. destruct Hx as (f & -> & Hf).
  rewrite Z.div_mul in * by done. destruct (Hr f Hf) as [_ Hle]. lia.
Qed.

Lemma taken_grown off m m1 f : taken off m m1 f → grown m m1.
Proof.
  intros (_ & (g & _ & Hg & _ & _ & Hz & Hr) & Ht & _). split; [done|]. intros h Hh. rewrite Hr by done.
  case_decide; subst; lia.
Qed.

Lemma taken_free off m m1 f : mem_ok off m → taken off m m1 f → nfree m = nfree m1 + 1.
Proof.
  intros Hm (Hm1 & (g & _ & Hg & _ & _ & Hz & Hr) & Ht & _).
  apply (free_frames_refs _ _ g); try done; [apply (mo_wf _ _ Hm)|apply (mo_wf _ _ Hm1)].
Qed.

Lemma idx_range lvl a : 0 ≤ idx lvl a < 512.
Proof. unfold idx. change 511 with (Z.ones 9). rewrite Z.land_ones by lia. apply Z.mod_pos_bound. lia. Qed.

(** The tables below an entry. *)
Lemma child_tables r l t i x : 0 ≤ i < 512 → descends (S l) (entry_of r t i) = true →
  x ∈ pt_tables r l (Z.land (entry_of r t i) PHYS_MASK) → x ∈ pt_tables r (S l) t.
Proof.
  intros Hi Hd Hin. cbn [pt_tables]. right.
  set (item := λ e, if descends (S l) e then pt_tables r l (Z.land e PHYS_MASK) else []).
  destruct (items_split 512 (Z.to_nat i) item r t ltac:(lia)) as [rest ->]. apply elem_of_app. right.
  apply elem_of_app. left. rewrite Z2Nat.id by lia. unfold item. by rewrite Hd.
Qed.

(** The walks look at the tables of the tree only. *)
Lemma walk_ext r r' lvl : ∀ t, (∀ x, x ∈ pt_tables r lvl t → r' !! x = r !! x) →
  pt_tables r' lvl t = pt_tables r lvl t
  ∧ ∀ a, leaf_walk r' lvl t a = leaf_walk r lvl t a ∧ leaf_table r' lvl t a = leaf_table r lvl t a
      ∧ user_walk r' lvl t a = user_walk r lvl t a ∧ user_parents r' lvl t a = user_parents r lvl t a
      ∧ plain_path r' lvl t a = plain_path r lvl t a.
Proof.
  induction lvl as [|l IH]; intros t Hx.
  { split; [done|]. intros a. cbn [leaf_walk leaf_table user_walk user_parents plain_path].
    assert (∀ j, entry_of r' t j = entry_of r t j) as He by (intros j; apply entry_of_frame, Hx; left). by rewrite He. }
  assert (∀ j, entry_of r' t j = entry_of r t j) as He by (intros j; apply entry_of_frame, Hx; left).
  split.
  - cbn [pt_tables]. f_equal. unfold items. f_equal. apply map_ext_in. intros k [_ Hin]%in_seq. rewrite He.
    destruct (descends (S l) (entry_of r t (Z.of_nat k))) eqn:Hd; [|done].
    apply IH. intros x Hx'. apply Hx. by eapply (child_tables r l t (Z.of_nat k)); [lia|..].
  - intros a. cbn [leaf_walk leaf_table user_walk user_parents plain_path]. rewrite !He. fold (idx (S l) a).
    set (e := entry_of r t (idx (S l) a)) in *.
    assert (descends (S l) e = true → ∀ x, x ∈ pt_tables r l (Z.land e PHYS_MASK) → r' !! x = r !! x) as Hsub.
    { intros Hd x Hin. apply Hx. by eapply child_tables; [apply idx_range|..]. }
    unfold descends in *. destruct (Z.testbit e 0); [|done]. cbn [andb] in *.
    destruct ((S l <? 3)%nat && Z.testbit e 7) eqn:Eh.
    { apply andb_true_iff in Eh as [_ ->]. done. }
    destruct (IH _ (Hsub eq_refl)) as [_ IHw]. destruct (IHw a) as (-> & -> & -> & -> & ->). done.
Qed.

Lemma leaf_table_in r lvl a : ∀ t t1, leaf_table r lvl t a = Some t1 → t1 ∈ pt_tables r lvl t.
Proof.
  induction lvl as [|l IH]; intros t t1 Hl; cbn [leaf_table] in Hl; [simplify_eq; left|].
  destruct (descends _ _) eqn:Hd; [|done]. eapply child_tables; [apply idx_range|exact Hd|]. by apply IH.
Qed.

Lemma slot_ext r r' pml4 a : (∀ x, x ∈ pt_tables r 3 pml4 → r' !! x = r !! x) →
  slot r' pml4 a = slot r pml4 a.
Proof.
  intros Hx. unfold slot. destruct (walk_ext r r' 3 pml4 Hx) as [_ Hw]. destruct (Hw a) as (_ & -> & _).
  destruct (leaf_table r 3 pml4 a) as [t|] eqn:E; [|done]. cbn [fmap option_fmap option_map]. f_equal.
  by eapply entry_of_frame, Hx, leaf_table_in.
Qed.

Lemma idx_page lvl a : idx lvl (page_of a) = idx lvl a.
Proof.
  unfold idx. f_equal. rewrite <- !Z.shiftr_shiftr by lia. f_equal.
  rewrite !Z.shiftr_div_pow2 by lia. unfold page_of. zlia.
Qed.

Lemma leaf_table_page r a lvl : ∀ t, leaf_table r lvl t (page_of a) = leaf_table r lvl t a.
Proof. induction lvl as [|l IH]; intros t; cbn [leaf_table]; [done|]. rewrite idx_page. by rewrite IH. Qed.

Lemma slot_page r pml4 a : slot r pml4 (page_of a) = slot r pml4 a.
Proof. unfold slot. by rewrite leaf_table_page, idx_page. Qed.

(** The walks do not look at the offset in the page. *)
Lemma walk_page r a lvl : ∀ t, user_walk r lvl t (page_of a) = user_walk r lvl t a
  ∧ leaf_walk r lvl t (page_of a) = leaf_walk r lvl t a ∧ plain_path r lvl t (page_of a) = plain_path r lvl t a.
Proof.
  induction lvl as [|l IH]; intros t; cbn [user_walk leaf_walk plain_path].
  - fold (idx 0 (page_of a)) (idx 0 a). by rewrite idx_page.
  - fold (idx (S l) (page_of a)) (idx (S l) a). rewrite idx_page.
    destruct (IH (Z.land (entry_of r t (idx (S l) a)) PHYS_MASK)) as (-> & -> & ->). done.
Qed.

Lemma items_elem n k item r t x : (k < n)%nat → x ∈ item (entry_of r t (Z.of_nat k)) → x ∈ items n item r t.
Proof.
  intros Hk Hx. destruct (items_split n k item r t Hk) as [rest ->]. apply elem_of_app. right.
  apply elem_of_app. by left.
Qed.

Lemma items_lt n k j item r t x : NoDup (items n item r t) → (j < k < n)%nat →
  x ∈ item (entry_of r t (Z.of_nat k)) → x ∉ item (entry_of r t (Z.of_nat j)).
Proof.
  intros Hnd Hk Hxk Hxj. destruct (items_split n k item r t) as [rest E]; [lia|]. rewrite E in Hnd.
  apply NoDup_app in Hnd as (_ & Hdis & _). apply (Hdis x); [by apply (items_elem k j); [lia|]|].
  apply elem_of_app. by left.
Qed.

Lemma items_unique n k j item r t x : NoDup (items n item r t) → (k < n)%nat → (j < n)%nat →
  x ∈ item (entry_of r t (Z.of_nat k)) → x ∈ item (entry_of r t (Z.of_nat j)) → k = j.
Proof.
  intros Hnd Hk Hj Hxk Hxj. destruct (lt_eq_lt_dec k j) as [[Hlt|]|Hlt]; [|done|].
  - by destruct (items_lt n j k item r t x).
  - by destruct (items_lt n k j item r t x).
Qed.

(** In a tree without sharing, the subtrees of two entries have no table in common. *)
Lemma subtree_unique r l t i j x : NoDup (pt_tables r (S l) t) → 0 ≤ i < 512 → 0 ≤ j < 512 →
  descends (S l) (entry_of r t i) = true → descends (S l) (entry_of r t j) = true →
  x ∈ pt_tables r l (Z.land (entry_of r t i) PHYS_MASK) → x ∈ pt_tables r l (Z.land (entry_of r t j) PHYS_MASK) →
  i = j.
Proof.
  cbn [pt_tables]. intros [_ Hnd]%NoDup_cons Hi Hj Hdi Hdj Hxi Hxj.
  assert (Z.to_nat i = Z.to_nat j) as E; [|lia].
  eapply (items_unique 512 _ _ _ r t x Hnd); [lia|lia| |]; cbv beta; rewrite Z2Nat.id by lia; by rewrite ?Hdi, ?Hdj.
Qed.

Lemma subtree_nodup r l t i : NoDup (pt_tables r (S l) t) → 0 ≤ i < 512 → descends (S l) (entry_of r t i) = true →
  NoDup (pt_tables r l (Z.land (entry_of r t i) PHYS_MASK))
  ∧ (t ∉ pt_tables r l (Z.land (entry_of r t i) PHYS_MASK)).
Proof.
  cbn [pt_tables]. intros [Ht Hnd]%NoDup_cons Hi Hd.
  set (item := λ e, if descends (S l) e then pt_tables r l (Z.land e PHYS_MASK) else []) in *.
  destruct (items_split 512 (Z.to_nat i) item r t) as [rest E]; [lia|]. rewrite E, Z2Nat.id in * by lia.
  assert (item (entry_of r t i) = pt_tables r l (Z.land (entry_of r t i) PHYS_MASK)) as <- by (unfold item; by rewrite Hd).
  split.
  - apply NoDup_app in Hnd as (_ & _ & Hnd). by apply NoDup_app in Hnd as (Hnd & _).
  - intros Hin. apply Ht. apply elem_of_app. right. apply elem_of_app. by left.
Qed.

Lemma leaf_not_root r l t p t1 : NoDup (pt_tables r (S l) t) → leaf_table r (S l) t p = Some t1 → t ≠ t1.
Proof.
  intros Hnd Hl ->. cbn [leaf_table] in Hl. destruct (descends _ _) eqn:Hd; [|done].
  destruct (subtree_nodup r l t1 (idx (S l) p) Hnd (idx_range _ _) Hd) as [_ Hn]. by apply Hn, (leaf_table_in _ _ p).
Qed.

(** A leaf table serves one block of pages. *)
Lemma leaf_path r lvl a b x : ∀ t, NoDup (pt_tables r lvl t) → leaf_table r lvl t a = Some x →
  leaf_table r lvl t b = Some x → ∀ k, (1 ≤ k ≤ lvl)%nat → idx k a = idx k b.
Proof.
  induction lvl as [|l IH]; intros t Hnd Ha Hb k Hk; [lia|]. cbn [leaf_table] in Ha, Hb.
  destruct (descends _ (entry_of r t (idx (S l) a))) eqn:Hda; [|done].
  destruct (descends _ (entry_of r t (idx (S l) b))) eqn:Hdb; [|done].
  assert (idx (S l) a = idx (S l) b) as Heq.
  { eapply (subtree_unique r l t _ _ x Hnd); try apply idx_range; try done; by apply leaf_table_in in Ha, Hb. }
  destruct (decide (k = S l)) as [->|]; [done|]. rewrite <- Heq in Hb.
  destruct (subtree_nodup r l t _ Hnd (idx_range _ _) Hda) as [Hndc _]. apply (IH _ Hndc); done || lia.
Qed.

(** Rewriting one leaf table keeps the tree and the other leaves. *)
Lemma leaf_write r r' t1 : (∀ x, x ≠ t1 → r' !! x = r !! x) → ∀ lvl t p,
  NoDup (pt_tables r lvl t) → leaf_table r lvl t p = Some t1 →
  pt_tables r' lvl t = pt_tables r lvl t
  ∧ ∀ a, leaf_table r' lvl t a = leaf_table r lvl t a ∧ user_parents r' lvl t a = user_parents r lvl t a
      ∧ plain_path r' lvl t a = plain_path r lvl t a
      ∧ (leaf_table r lvl t a ≠ Some t1 →
           leaf_walk r' lvl t a = leaf_walk r lvl t a ∧ user_walk r' lvl t a = user_walk r lvl t a).
Proof.
  intros Hx. induction lvl as [|l IH]; intros t p Hnd Hl.
  { cbn [leaf_table] in *. simplify_eq. done. }
  assert (∀ i, entry_of r' t i = entry_of r t i) as He.
  { intros i. by eapply entry_of_frame, Hx, leaf_not_root. }
  assert (∀ i, 0 ≤ i < 512 → descends (S l) (entry_of r t i) = true →
    let c := Z.land (entry_of r t i) PHYS_MASK in pt_tables r' l c = pt_tables r l c
    ∧ ∀ a, leaf_table r' l c a = leaf_table r l c a ∧ user_parents r' l c a = user_parents r l c a
        ∧ plain_path r' l c a = plain_path r l c a
        ∧ (leaf_table r l c a ≠ Some t1 →
             leaf_walk r' l c a = leaf_walk r l c a ∧ user_walk r' l c a = user_walk r l c a)) as Hsub.
  { intros i Hi Hd c. destruct (subtree_nodup r l t i Hnd Hi Hd) as [Hndc _].
    destruct (decide (t1 ∈ pt_tables r l c)) as [Hin|Hn].
    - apply (IH c p Hndc). cbn [leaf_table] in Hl. destruct (descends _ _) eqn:Hdp in Hl; [|done].
      assert (idx (S l) p = i) as <-; [|done]. pose proof (leaf_table_in _ _ _ _ _ Hl).
      by apply (subtree_unique r l t _ _ t1 Hnd); [apply idx_range|..].
    - destruct (walk_ext r r' l c) as [Heq Hw]; [intros x Hxc; apply Hx; by intros ->|]. split; [done|].
      intros a. destruct (Hw a) as (? & ? & ? & ? & ?). done. }
  split.
  - cbn [pt_tables]. f_equal. unfold items. f_equal. apply map_ext_in. intros k [_ Hin]%in_seq. rewrite He.
    destruct (descends _ _) eqn:Hd; [|done]. apply (Hsub (Z.of_nat k)); [lia|done].
  - intros a. cbn [leaf_table user_parents plain_path leaf_walk user_walk]. fold (idx (S l) a). rewrite !He.
    specialize (Hsub (idx (S l) a) (idx_range _ _)). set (e := entry_of r t (idx (S l) a)) in *. unfold descends in *.
    destruct (Z.testbit e 0); [|done]. cbn [andb] in *. destruct ((S l <? 3)%nat && Z.testbit e 7) eqn:Eh.
    { apply andb_true_iff in Eh as [_ ->]. done. }
    destruct (Hsub eq_refl) as [_ Hw]. destruct (Hw a) as (-> & -> & -> & Hlw). split_and!; try done. intros Hne. destruct (Hlw Hne) as [-> ->]. done.
Qed.

Lemma leaf_walk_slot r lvl a x : ∀ t, leaf_table r lvl t a = Some x →
  leaf_walk r lvl t a = (let e := entry_of r x (idx 0 a) in if Z.testbit e 0 then Some (0%nat, e) else None)
  ∧ user_walk r lvl t a = user_parents r lvl t a && (Z.testbit (entry_of r x (idx 0 a)) 0 && Z.testbit (entry_of r x (idx 0 a)) 2).
Proof.
  induction lvl as [|l IH]; intros t Hl; cbn [leaf_table leaf_walk user_walk user_parents] in *.
  { simplify_eq. split; [done|]. by rewrite andb_true_r. }
  fold (idx (S l) a). set (e := entry_of r t (idx (S l) a)) in *. unfold descends in *.
  destruct (Z.testbit e 0); [|done]. cbn [andb] in *.
  destruct ((S l <? 3)%nat && Z.testbit e 7); [done|]. destruct (IH _ Hl) as [-> ->]. split; [done|]. cbn [negb andb].
  by rewrite andb_assoc.
Qed.

Lemma page_of_idx a b : 0 ≤ a < 2 ^ 47 → 0 ≤ b < 2 ^ 47 → (∀ k, (k ≤ 3)%nat → idx k a = idx k b) → page_of a = page_of b.
Proof.
  intros Ha Hb Hk. pose proof (Hk 0%nat ltac:(lia)) as H0. pose proof (Hk 1%nat ltac:(lia)) as H1.
  pose proof (Hk 2%nat ltac:(lia)) as H2. pose proof (Hk 3%nat ltac:(lia)) as H3. clear Hk. unfold idx in *.
  change 511 with (Z.ones 9) in *. rewrite !Z.land_ones, !Z.shiftr_div_pow2 in * by lia. unfold page_of. zlia.
Qed.

(** Writing the entry of a page. *)
Definition put r (t i e : Z) : ram := match set_entry r t i e with Ret r' => r' | Stop _ => r end.

Lemma put_spec r t i e : frame_ok r t → 0 ≤ i < 512 → 0 ≤ e < 2 ^ 64 →
  (∀ x, frame_ok r x → frame_ok (put r t i e) x)
  ∧ (∀ j, 0 ≤ j < 512 → entry_of (put r t i e) t j = if decide (j = i) then e else entry_of r t j)
  ∧ (∀ x, x ≠ t → put r t i e !! x = r !! x).
Proof.
  intros Hf Hi He. pose proof (set_entry_ok _ _ _ _ Hf Hi He) as Hw. unfold put.
  by destruct (set_entry _ _ _ _).
Qed.

Lemma put_leaf off m pml4 page t1 e : mem_ok off m → space_wf m pml4 → is_page page →
  leaf_table (mem_ram m) 3 pml4 page = Some t1 → 0 ≤ e < 2 ^ 64 →
  let r' := put (mem_ram m) t1 (idx 0 page) e in
  mem_ok off (set_ram m r') ∧ space_wf (set_ram m r') pml4 ∧ data_same m (set_ram m r') pml4
  ∧ pt_tables r' 3 pml4 = pt_tables (mem_ram m) 3 pml4
  ∧ user_parents r' 3 pml4 page = user_parents (mem_ram m) 3 pml4 page
  ∧ leaf_table r' 3 pml4 page = Some t1 ∧ entry_of r' t1 (idx 0 page) = e
  ∧ plain_kept (mem_ram m) r' pml4 ∧ others_same (mem_ram m) r' pml4 page
  ∧ ∀ a, 0 ≤ a < 2 ^ 47 → page_of a ≠ page → user_accessible r' pml4 a = user_accessible (mem_ram m) pml4 a.
Proof.
  intros Hm Hs [Hpg Hal] Hl He r'. destruct Hs as [Hnd Hown Hres].
  pose proof (leaf_table_in _ _ _ _ _ Hl) as Hin. pose proof (leaf_not_root _ _ _ _ _ Hnd Hl) as Hroot.
  assert (frame_ok (mem_ram m) t1) as Hfr.
  { apply (proj1 (Forall_forall _ _) Hown) in Hin as [Hman _]. by eapply managed_frame. }
  destruct (put_spec _ _ _ _ Hfr (idx_range 0 page) He) as (Hok & Hent & Hx). fold r' in Hok, Hent, Hx.
  destruct (leaf_write _ r' t1 Hx 3 pml4 page Hnd Hl) as [Heq Hw]. destruct (Hw page) as (Hlp & Hup & _).
  assert (∀ a, 0 ≤ a < 2 ^ 47 → page_of a ≠ page → same_at (mem_ram m) r' pml4 a
    ∧ user_walk r' 3 pml4 a = user_walk (mem_ram m) 3 pml4 a) as Hoth.
  { intros a Ha Hne. destruct (Hw a) as (Hla & Hua & _ & Hlw).
    destruct (decide (leaf_table (mem_ram m) 3 pml4 a = Some t1)) as [Ea|Hn].
    2: { destruct (Hlw Hn) as [Hlk Huk]. split; [|done]. apply same_at_slot; [done|]. unfold slot. rewrite Hla.
         destruct (leaf_table (mem_ram m) 3 pml4 a) as [t2|] eqn:Et; [|done]. cbn [fmap option_fmap option_map]. f_equal.
         apply entry_of_frame, Hx. congruence. }
    assert (idx 0 a ≠ idx 0 page) as Hi.
    { intros Ei. apply Hne. assert (page = page_of page) as -> by (unfold page_of; lia). apply page_of_idx; [done|done|].
      intros k Hk. destruct k as [|k]; [done|]. apply (leaf_path (mem_ram m) 3 a page t1 pml4); done || lia. }
    assert (entry_of r' t1 (idx 0 a) = entry_of (mem_ram m) t1 (idx 0 a)) as Hea.
    { rewrite Hent by apply idx_range. by rewrite decide_False. }
    rewrite Ea in Hla. pose proof (leaf_walk_slot _ _ _ _ _ Ea) as [El1 Eu1]. pose proof (leaf_walk_slot _ _ _ _ _ Hla) as [El2 Eu2].
    split; [apply same_at_slot|].
    - by rewrite El1, El2, Hea.
    - unfold slot. rewrite Ea, Hla. cbn [fmap option_fmap option_map]. by rewrite Hea.
    - by rewrite Eu1, Eu2, Hea, Hua. }
  split_and!; try done.
  - apply (mem_ok_frames off m); try done. apply (mo_wf _ _ Hm).
  - split; cbn [set_ram mem_ram mem_alloc]; rewrite ?Heq; try done.
    intros i Hi. rewrite (entry_of_frame (mem_ram m)); [by apply Hres|]. by apply Hx.
  - intros x _ _ Hn. apply Hx. by intros ->.
  - by rewrite Hlp.
  - rewrite Hent by apply idx_range. by rewrite decide_True.
  - intros a Ha Hpa. by destruct (Hw a) as (_ & _ & -> & _).
  - intros a Ha Hne. by apply Hoth.
  - intros a Ha Hne. by apply Hoth.
Qed.

End TreeLemmas.
