(* ===== verification/PageMapper.v ===== *)
(** * A mapper that builds page tables

    [table_mapper] is an implementation of the class [Mapper] in the manner of the
    crate's [OffsetPageTable]: [map_to] descends from the top-level table, takes a
    zeroed frame for every table that is missing, widens the flags of the parents
    that exist, and fills the entry of the page.  [table_mapper_spec] shows that it
    satisfies [MapperSpec], so the theorems that assume the specification apply to
    a mapper that reaches their success paths. *)

From S2P Require Import Prelude KError X86 FrameAlloc Paging PageTree.

#[local] Open Scope list_scope.

(** The flags of the tables on the way to a page. *)
Definition parent_flags (fl : Z) : Z := Z.land fl 7.

(** Filling the entry of [page] in the tree of level [lvl] at [t]. *)
Fixpoint map_at (alloc : mem → outcome (option Z * mem)) (lvl : nat) (t page e pf : Z) (m : mem)
    : outcome (result unit MapToError * mem) :=
  let e0 := entry_of (mem_ram m) t (idx lvl page) in
  match lvl with
  | O => if e0 =? 0 then Ret (Ok tt, set_ram m (put (mem_ram m) t (idx 0 page) e))
         else Ret (Err PageAlreadyMapped, m)
  | S l =>
      if e0 =? 0 then
        let* (o, m) := alloc m in
        match o with
        | None => Ret (Err FrameAllocationFailed, m)
        | Some f => map_at alloc l f page e pf (set_ram m (put (mem_ram m) t (idx lvl page) (Z.lor f pf)))
        end
      else
        let e1 := Z.lor e0 pf in
        let m := set_ram m (put (mem_ram m) t (idx lvl page) e1) in
        if Z.testbit e1 7 then Ret (Err ParentEntryHugePage, m)
        else map_at alloc l (Z.land e1 PHYS_MASK) page e pf m
  end.

Definition table_mapper : Mapper := {|
  translate_addr r t a := e ← slot r t a; if e =? 0 then None else Some (Z.land e PHYS_MASK + a mod 4096);
  translate_flags r t a := e ← slot r t a; if e =? 0 then None else Some (Z.ldiff e PHYS_MASK);
  translate_page r t a := mapped r t a;
  map_to alloc m t page frame fl := map_at alloc 3 t page (Z.lor frame fl) (parent_flags fl) m;
  unmap r t page :=
    match leaf_table r 3 t page with
    | None => (Err PageNotMapped, r)
    | Some t1 => let e := entry_of r t1 (idx 0 page) in
        if Z.testbit e 0 then (Ok (Z.land e PHYS_MASK), put r t1 (idx 0 page) 0) else (Err PageNotMapped, r)
    end;
  update_flags r t page fl :=
    match leaf_table r 3 t page with
    | None => (Err FlagPageNotMapped, r)
    | Some t1 => let e := entry_of r t1 (idx 0 page) in
        if e =? 0 then (Err FlagPageNotMapped, r) else (Ok tt, put r t1 (idx 0 page) (Z.lor (Z.land e PHYS_MASK) fl))
    end;
|}.

(** ** Trees of any level *)

Definition table_slot (r : ram) (lvl : nat) (t a : Z) : option Z :=
  (λ x, entry_of r x (idx 0 a)) <$> leaf_table r lvl t a.

Definition entered (r : ram) (lvl : nat) (t a : Z) : bool :=
  match table_slot r lvl t a with Some e => negb (e =? 0) | None => false end.

Definition owned (m : mem) (x : Z) : Prop := managed m x ∧ 0 < refs (mem_alloc m) (x / FRAME_SIZE).

Record tree_wf (m : mem) (lvl : nat) (t : Z) : Prop := {
  tr_nodup : NoDup (pt_tables (mem_ram m) lvl t);
  tr_owned x : x ∈ pt_tables (mem_ram m) lvl t → owned m x;
}.

(** The tables below an entry of a table of level [S l]. *)
Definition below (r : ram) (l : nat) (e : Z) : list Z :=
  if descends (S l) e then pt_tables r l (Z.land e PHYS_MASK) else [].

Section Trees.
Implicit Types r : ram.

Lemma pt_tables_S r l t : pt_tables r (S l) t = t :: items 512 (below r l) r t.
Proof. done. Qed.

Lemma items_in n item r t x : x ∈ items n item r t → ∃ k, (k < n)%nat ∧ x ∈ item (entry_of r t (Z.of_nat k)).
Proof.
  induction n as [|n IH]; [by intros ?%elem_of_nil|]. rewrite items_S. intros [Hx|Hx]%elem_of_app.
  - destruct (IH Hx) as (k & Hk & ?). exists k. split; [lia|done].
  - exists n. split; [lia|done].
Qed.

Lemma items_nodup n item r t : (∀ k, (k < n)%nat → NoDup (item (entry_of r t (Z.of_nat k)))) →
  (∀ j k x, (j < n)%nat → (k < n)%nat → x ∈ item (entry_of r t (Z.of_nat j)) → x ∈ item (entry_of r t (Z.of_nat k)) → j = k) →
  NoDup (items n item r t).
Proof.
  induction n as [|n IH]; intros Hn Hd; [constructor|]. rewrite items_S. apply NoDup_app. split_and!.
  - apply IH; [intros; apply Hn; lia|]. intros j k x Hj Hk. apply Hd; lia.
  - intros x (k & Hk & Hx)%items_in Hx'. enough (k = n) by lia. apply (Hd k n x); done || lia.
  - apply Hn. lia.
Qed.

Lemma tables_in r l t x : x ∈ pt_tables r (S l) t ↔ x = t ∨ ∃ j, 0 ≤ j < 512 ∧ x ∈ below r l (entry_of r t j).
Proof.
  rewrite pt_tables_S, elem_of_cons. apply or_iff_compat_l. split.
  - intros (k & Hk & Hx)%items_in. exists (Z.of_nat k). split; [lia|done].
  - intros (j & Hj & Hx). apply (items_elem 512 (Z.to_nat j)); [lia|]. by rewrite Z2Nat.id by lia.
Qed.

Lemma tables_nodup r l t : (∀ j, 0 ≤ j < 512 → NoDup (below r l (entry_of r t j))) →
  (∀ j k x, 0 ≤ j < 512 → 0 ≤ k < 512 → x ∈ below r l (entry_of r t j) → x ∈ below r l (entry_of r t k) → j = k) →
  (∀ j, 0 ≤ j < 512 → t ∉ below r l (entry_of r t j)) → NoDup (pt_tables r (S l) t).
Proof.
  intros Hn Hd Ht. rewrite pt_tables_S. apply NoDup_cons. split.
  - intros (k & Hk & Hx)%items_in. apply (Ht (Z.of_nat k)); [lia|done].
  - apply items_nodup; [intros; apply Hn; lia|]. intros j k x Hj Hk Hxj Hxk. apply Nat2Z.inj, (Hd _ _ x); done || lia.
Qed.

(** The subtrees of a tree without sharing. *)
Lemma below_nodup r l t j : NoDup (pt_tables r (S l) t) → 0 ≤ j < 512 →
  NoDup (below r l (entry_of r t j)) ∧ (t ∉ below r l (entry_of r t j)).
Proof.
  intros Hnd Hj. unfold below. destruct (descends _ _) eqn:Hd; [by apply subtree_nodup|].
  split; [constructor|apply not_elem_of_nil].
Qed.

Lemma below_unique r l t j k x : NoDup (pt_tables r (S l) t) → 0 ≤ j < 512 → 0 ≤ k < 512 →
  x ∈ below r l (entry_of r t j) → x ∈ below r l (entry_of r t k) → j = k.
Proof.
  intros Hnd Hj Hk. unfold below. destruct (descends _ (entry_of r t j)) eqn:Hdj; [|by intros ?%elem_of_nil].
  destruct (descends _ (entry_of r t k)) eqn:Hdk; [|by intros _ ?%elem_of_nil]. by apply subtree_unique.
Qed.

(** A step of the walks. *)
Lemma walk_down r l t a : let e := entry_of r t (idx (S l) a) in descends (S l) e = true →
  leaf_walk r (S l) t a = leaf_walk r l (Z.land e PHYS_MASK) a
  ∧ table_slot r (S l) t a = table_slot r l (Z.land e PHYS_MASK) a
  ∧ user_walk r (S l) t a = Z.testbit e 2 && user_walk r l (Z.land e PHYS_MASK) a
  ∧ user_parents r (S l) t a = Z.testbit e 2 && user_parents r l (Z.land e PHYS_MASK) a
  ∧ (plain_path r (S l) t a = negb (Z.testbit e 7) && plain_path r l (Z.land e PHYS_MASK) a).
Proof.
  intros e Hd. unfold table_slot. cbn [leaf_walk leaf_table user_walk user_parents plain_path]. fold (idx (S l) a).
  fold e. rewrite Hd. unfold descends in Hd. apply andb_true_iff in Hd as [H0 H7].
  rewrite H0. apply negb_true_iff in H7. rewrite H7. split_and!; try done.
  assert (e ≠ 0) as Hne by (intros E; by rewrite E in H0). by rewrite (proj2 (Z.eqb_neq _ _)).
Qed.
End Trees.

(** ** What building the way to a page keeps *)

Section Build.
Context `{HP : Profile} `{HA : PhysAddrSpec} (off : Z).
Implicit Types m : mem.

Record kept m m' (lvl : nat) (t : Z) : Prop := {
  k_ok : mem_ok off m';
  k_grown : grown m m';
  k_wf : tree_wf m' lvl t;
  k_data x : owned m x → x ∉ pt_tables (mem_ram m) lvl t → mem_ram m' !! x = mem_ram m !! x;
  k_tables x : x ∈ pt_tables (mem_ram m') lvl t →
    x ∈ pt_tables (mem_ram m) lvl t ∨ ¬ 0 < refs (mem_alloc m) (x / FRAME_SIZE);
  k_plain a : plain_path (mem_ram m) lvl t a = true → plain_path (mem_ram m') lvl t a = true;
  k_user a : user_walk (mem_ram m) lvl t a = true → user_walk (mem_ram m') lvl t a = true;
  k_parents a : user_parents (mem_ram m) lvl t a = true → user_parents (mem_ram m') lvl t a = true;
  k_top i : 0 ≤ i < 512 → lvl ≠ 0%nat →
    Z.testbit (entry_of (mem_ram m') t i) 7 = Z.testbit (entry_of (mem_ram m) t i) 7;
}.

(** The translation of [a] is the same. *)
Definition same_in m m' (lvl : nat) (t a : Z) : Prop :=
  leaf_walk (mem_ram m') lvl t a = leaf_walk (mem_ram m) lvl t a
  ∧ entered (mem_ram m') lvl t a = entered (mem_ram m) lvl t a.

Lemma kept_refl m lvl t : mem_ok off m → tree_wf m lvl t → kept m m lvl t.
Proof. intros. split; try done. intros x Hx. by left. Qed.

Lemma owned_kept m m' x : grown m m' → owned m x → owned m' x.
Proof. intros Hg [Hx Hp]. by apply (owned_grown m). Qed.

Lemma kept_trans m m1 m2 lvl t : kept m m1 lvl t → kept m1 m2 lvl t → kept m m2 lvl t.
Proof.
  intros H1 H2. pose proof (k_grown _ _ _ _ H1) as Hg. split; try apply H2.
  - eapply grown_trans; [exact Hg|apply H2].
  - intros x Hx Hn. rewrite (k_data _ _ _ _ H2), (k_data _ _ _ _ H1); try done; [by eapply owned_kept|].
    intros [Hin|Hf]%(k_tables _ _ _ _ H1); [done|]. apply Hf, Hx.
  - intros x Hx. pose proof (tr_owned _ _ _ (k_wf _ _ _ _ H2) x Hx) as [(f & Hxf & Hf) _].
    destruct (k_tables _ _ _ _ H2 x Hx) as [Hin|Hfr]; [by apply (k_tables _ _ _ _ H1)|]. right. intros Hp. apply Hfr.
    destruct (k_grown _ _ _ _ H2) as [Ht _]. destruct Hg as [Ht' Hr]. rewrite Hxf, Z.div_mul in * by done.
    destruct (Hr f ltac:(lia)) as [_ Hle]. lia.
  - intros a Ha. by apply (k_plain _ _ _ _ H2), (k_plain _ _ _ _ H1).
  - intros a Ha. by apply (k_user _ _ _ _ H2), (k_user _ _ _ _ H1).
  - intros a Ha. by apply (k_parents _ _ _ _ H2), (k_parents _ _ _ _ H1).
  - intros i Hi Hl. by rewrite (k_top _ _ _ _ H2), (k_top _ _ _ _ H1).
Qed.

(** ** Replacing one subtree *)

(** Entry [i] of [t] becomes [e], which points to a well-formed subtree made of the
    old one and of frames that were free. *)
Record relinked m m' (l : nat) (t i e : Z) : Prop := {
  r_ok : mem_ok off m';
  r_grown : grown m m';
  r_entry j : 0 ≤ j < 512 → entry_of (mem_ram m') t j = if decide (j = i) then e else entry_of (mem_ram m) t j;
  r_descends : descends (S l) e = true;
  r_reserved : Z.testbit e 7 = Z.testbit (entry_of (mem_ram m) t i) 7;
  r_data x : owned m x → x ≠ t → x ∉ below (mem_ram m) l (entry_of (mem_ram m) t i) → mem_ram m' !! x = mem_ram m !! x;
  r_wf : tree_wf m' l (Z.land e PHYS_MASK);
  r_tables x : x ∈ pt_tables (mem_ram m') l (Z.land e PHYS_MASK) →
    x ∈ below (mem_ram m) l (entry_of (mem_ram m) t i) ∨ ¬ 0 < refs (mem_alloc m) (x / FRAME_SIZE);
  r_walks a : idx (S l) a = i →
    (plain_path (mem_ram m) (S l) t a = true → plain_path (mem_ram m') (S l) t a = true)
    ∧ (user_walk (mem_ram m) (S l) t a = true → user_walk (mem_ram m') (S l) t a = true)
    ∧ (user_parents (mem_ram m) (S l) t a = true → user_parents (mem_ram m') (S l) t a = true);
}.

Section Relink.
Context (m m' : mem) (l : nat) (t i e : Z).
Context (Hwf : tree_wf m (S l) t) (Hi : 0 ≤ i < 512) (Hr : relinked m m' l t i e).

Lemma root_owned : owned m t.
Proof. apply (tr_owned _ _ _ Hwf). rewrite pt_tables_S. left. Qed.

(** The frames of the other subtrees are not touched. *)
Lemma sibling_data j x : 0 ≤ j < 512 → j ≠ i → x ∈ below (mem_ram m) l (entry_of (mem_ram m) t j) →
  mem_ram m' !! x = mem_ram m !! x.
Proof.
  intros Hj Hne Hx. pose proof (tr_nodup _ _ _ Hwf) as Hnd. apply (r_data _ _ _ _ _ _ Hr).
  - apply (tr_owned _ _ _ Hwf), tables_in. right. by exists j.
  - intros ->. by apply (below_nodup _ _ _ _ Hnd Hj).
  - intros Hxi. by apply Hne, (below_unique _ _ _ _ _ _ Hnd Hj Hi Hx).
Qed.

Lemma sibling_below j : 0 ≤ j < 512 → j ≠ i →
  below (mem_ram m') l (entry_of (mem_ram m') t j) = below (mem_ram m) l (entry_of (mem_ram m) t j).
Proof.
  intros Hj Hne. rewrite (r_entry _ _ _ _ _ _ Hr) by done. rewrite decide_False by done.
  pose proof (sibling_data j) as Hx. unfold below in *. destruct (descends _ _); [|done].
  apply walk_ext. intros x. by apply Hx.
Qed.

Lemma own_below : below (mem_ram m') l (entry_of (mem_ram m') t i) = pt_tables (mem_ram m') l (Z.land e PHYS_MASK).
Proof.
  rewrite (r_entry _ _ _ _ _ _ Hr), decide_True by done. unfold below. by rewrite (r_descends _ _ _ _ _ _ Hr).
Qed.

(** Addresses that do not go through the entry. *)
Lemma relink_away a : idx (S l) a ≠ i → leaf_walk (mem_ram m') (S l) t a = leaf_walk (mem_ram m) (S l) t a
  ∧ table_slot (mem_ram m') (S l) t a = table_slot (mem_ram m) (S l) t a
  ∧ user_walk (mem_ram m') (S l) t a = user_walk (mem_ram m) (S l) t a
  ∧ user_parents (mem_ram m') (S l) t a = user_parents (mem_ram m) (S l) t a
  ∧ plain_path (mem_ram m') (S l) t a = plain_path (mem_ram m) (S l) t a.
Proof.
  intros Hne. pose proof (idx_range (S l) a) as Hj. pose proof (r_entry _ _ _ _ _ _ Hr _ Hj) as Ee.
  rewrite decide_False in Ee by done. pose proof (sibling_data (idx (S l) a)) as Hx.
  unfold table_slot. cbn [leaf_walk leaf_table user_walk user_parents plain_path]. fold (idx (S l) a). rewrite Ee.
  set (e1 := entry_of (mem_ram m) t (idx (S l) a)) in *. unfold below in Hx.
  destruct (descends (S l) e1) eqn:Hd; unfold descends in Hd.
  2: { apply andb_false_iff in Hd as [->|Hd]; [done|]. apply negb_false_iff in Hd. rewrite Hd.
       apply andb_true_iff in Hd as [_ ->]. by destruct (Z.testbit e1 0). }
  apply andb_true_iff in Hd as [-> Hd%negb_true_iff]. rewrite Hd.
  destruct (walk_ext (mem_ram m) (mem_ram m') l (Z.land e1 PHYS_MASK)) as [_ Hw]; [intros x; by apply Hx|].
  destruct (Hw a) as (-> & El & -> & -> & ->). split_and!; try done. rewrite El.
  destruct (leaf_table (mem_ram m) l _ a) as [y|] eqn:Ey; [|done]. cbn [fmap option_fmap option_map]. f_equal.
  apply entry_of_frame, Hx; try done. by eapply leaf_table_in.
Qed.

Lemma relink_wf : tree_wf m' (S l) t.
Proof.
  pose proof (tr_nodup _ _ _ Hwf) as Hnd. pose proof (r_grown _ _ _ _ _ _ Hr) as Hg.
  assert (∀ j x, 0 ≤ j < 512 → j ≠ i → x ∈ below (mem_ram m') l (entry_of (mem_ram m') t j) →
    x ∉ below (mem_ram m') l (entry_of (mem_ram m') t i)) as Hdis.
  { intros j x Hj Hne. rewrite sibling_below, own_below by done. intros Hx [Hxi|Hf]%(r_tables _ _ _ _ _ _ Hr).
    - by apply Hne, (below_unique _ _ _ _ _ _ Hnd Hj Hi Hx).
    - apply Hf, (tr_owned _ _ _ Hwf), tables_in. right. by exists j. }
  split.
  - apply tables_nodup.
    + intros j Hj. destruct (decide (j = i)) as [->|Hne]; [rewrite own_below; apply (r_wf _ _ _ _ _ _ Hr)|].
      rewrite sibling_below by done. by apply (below_nodup _ _ _ _ Hnd).
    + intros j k x Hj Hk Hxj Hxk. destruct (decide (j = i)) as [->|Hji], (decide (k = i)) as [->|Hki]; try done.
      * by destruct (Hdis k x).
      * by destruct (Hdis j x).
      * rewrite sibling_below in Hxj, Hxk by done. by apply (below_unique _ _ _ _ _ _ Hnd Hj Hk Hxj).
    + intros j Hj. destruct (decide (j = i)) as [->|Hne].
      * rewrite own_below. intros [Hin|Hf]%(r_tables _ _ _ _ _ _ Hr); [|apply Hf, root_owned].
        by apply (below_nodup _ _ _ _ Hnd Hi).
      * rewrite sibling_below by done. by apply (below_nodup _ _ _ _ Hnd).
  - intros x [->|(j & Hj & Hx)]%tables_in; [eapply owned_kept, root_owned; done|].
    destruct (decide (j = i)) as [->|Hne]; [rewrite own_below in Hx; by apply (r_wf _ _ _ _ _ _ Hr)|].
    rewrite sibling_below in Hx by done. eapply owned_kept, (tr_owned _ _ _ Hwf), tables_in; [done|]. right. by exists j.
Qed.

Lemma relink_kept : kept m m' (S l) t.
Proof.
  pose proof Hr as [Hm Hg He _ H7 Hd _ Ht Hw]. split; try done.
  - apply relink_wf.
  - intros x Hx Hn. apply Hd; [done| |]; intros Hin; apply Hn, tables_in; [by left|]. right. by exists i.
  - intros x [->|(j & Hj & Hx)]%tables_in; [left; apply tables_in; by left|].
    destruct (decide (j = i)) as [->|Hne].
    + rewrite own_below in Hx. destruct (Ht x Hx) as [Hin|]; [|by right]. left. apply tables_in. right. by exists i.
    + rewrite sibling_below in Hx by done. left. apply tables_in. right. by exists j.
  - intros a. destruct (decide (idx (S l) a = i)) as [Ea|Hne]; [by apply Hw|]. by destruct (relink_away a Hne) as (_ & _ & _ & _ & ->).
  - intros a. destruct (decide (idx (S l) a = i)) as [Ea|Hne]; [by apply Hw|]. by destruct (relink_away a Hne) as (_ & _ & -> & _ & _).
  - intros a. destruct (decide (idx (S l) a = i)) as [Ea|Hne]; [by apply Hw|]. by destruct (relink_away a Hne) as (_ & _ & _ & -> & _).
  - intros j Hj _. rewrite He by done. by case_decide; subst.
Qed.
End Relink.

(** ** The way to the page *)

Definition build_failure m (lvl : nat) (t page : Z) (er : MapToError) : Prop :=
  match er with
  | FrameAllocationFailed => nfree m < Z.of_nat lvl
  | ParentEntryHugePage => False
  | PageAlreadyMapped => entered (mem_ram m) lvl t page = true
  end.

(** The entry of [page] is filled, or nothing that is translated changed. *)
Definition mapped_to m m' (lvl : nat) (t page e fl : Z) (res : result unit MapToError) : Prop :=
  kept m m' lvl t ∧ nfree m ≤ nfree m' + Z.of_nat lvl ∧ match res with
  | Ok _ => table_slot (mem_ram m') lvl t page = Some e
      ∧ (Z.testbit fl 2 = true → user_parents (mem_ram m') lvl t page = true)
      ∧ ∀ a, (∃ k, (k ≤ lvl)%nat ∧ idx k a ≠ idx k page) → same_in m m' lvl t a
  | Err er => (∀ a, same_in m m' lvl t a)
      ∧ ~ (table_slot (mem_ram m) lvl t page = Some 0 ∧ user_parents (mem_ram m) lvl t page = true)
      ∧ build_failure m lvl t page er
  end.

(** The way is open to level [l]: no translation changed. *)
Record opened m m' (l : nat) (t page c fl : Z) : Prop := {
  o_entry : Z.land (entry_of (mem_ram m') t (idx (S l) page)) PHYS_MASK = c;
  o_link : relinked m m' l t (idx (S l) page) (entry_of (mem_ram m') t (idx (S l) page));
  o_user : Z.testbit fl 2 = true → Z.testbit (entry_of (mem_ram m') t (idx (S l) page)) 2 = true;
  o_cost : nfree m ≤ nfree m' + 1;
  o_plain : plain_path (mem_ram m') l c page = true;
  o_same a : idx (S l) a = idx (S l) page → same_in m m' (S l) t a;
  o_slot a e : idx (S l) a = idx (S l) page → table_slot (mem_ram m) (S l) t a = Some e →
    table_slot (mem_ram m') (S l) t a = Some e;
}.

Lemma opened_wf m m' l t page c fl : opened m m' l t page c fl → tree_wf m' l c.
Proof. intros Ho. rewrite <- (o_entry _ _ _ _ _ _ _ Ho). apply (o_link _ _ _ _ _ _ _ Ho). Qed.

Lemma same_in_trans m m1 m2 lvl t a : same_in m m1 lvl t a → same_in m1 m2 lvl t a → same_in m m2 lvl t a.
Proof. intros [H1 H2] [H3 H4]. split; congruence. Qed.

Lemma away_same m m' l t i e a : tree_wf m (S l) t → 0 ≤ i < 512 → relinked m m' l t i e → idx (S l) a ≠ i →
  same_in m m' (S l) t a.
Proof.
  intros Hwf Hi Hr Hne. destruct (relink_away _ _ _ _ _ _ Hwf Hi Hr a Hne) as (Hl & Hs & _).
  split; [done|]. unfold entered. by rewrite Hs.
Qed.

Lemma opened_same m m' l t page c fl a : tree_wf m (S l) t → opened m m' l t page c fl → same_in m m' (S l) t a.
Proof.
  intros Hwf Ho. destruct (decide (idx (S l) a = idx (S l) page)) as [E|Hne]; [by apply (o_same _ _ _ _ _ _ _ Ho)|].
  eapply away_same; [done|apply idx_range|apply (o_link _ _ _ _ _ _ _ Ho)|done].
Qed.

Lemma opened_kept m m' l t page c fl : tree_wf m (S l) t → opened m m' l t page c fl → kept m m' (S l) t.
Proof. intros Hwf Ho. eapply relink_kept; [done|apply idx_range|apply (o_link _ _ _ _ _ _ _ Ho)]. Qed.

(** Mapping below an open entry maps from the table. *)
Lemma child_relinked m m' l t page : tree_wf m (S l) t →
  let e := entry_of (mem_ram m) t (idx (S l) page) in descends (S l) e = true →
  kept m m' l (Z.land e PHYS_MASK) → relinked m m' l t (idx (S l) page) e.
Proof.
  intros Hwf e Hd Hk. pose proof (tr_nodup _ _ _ Hwf) as Hnd. pose proof (idx_range (S l) page) as Hi.
  assert (below (mem_ram m) l e = pt_tables (mem_ram m) l (Z.land e PHYS_MASK)) as Hb by (unfold below; by rewrite Hd).
  assert (∀ j, entry_of (mem_ram m') t j = entry_of (mem_ram m) t j) as He.
  { intros j. apply entry_of_frame, (k_data _ _ _ _ Hk); [by eapply root_owned|]. rewrite <- Hb.
    by apply (below_nodup _ _ _ _ Hnd Hi). }
  split; try apply Hk; try done.
  - intros j _. rewrite He. by case_decide; subst.
  - intros x Hx _. fold e. rewrite Hb. by apply (k_data _ _ _ _ Hk).
  - fold e. rewrite Hb. apply Hk.
  - intros a Ha. destruct (walk_down (mem_ram m) l t a) as (_ & _ & -> & -> & ->); [by rewrite Ha|].
    destruct (walk_down (mem_ram m') l t a) as (_ & _ & -> & -> & ->); [by rewrite He, Ha|]. rewrite He, Ha. fold e.
    split_and!; intros [-> Hc]%andb_true_iff; by apply Hk in Hc.
Qed.

Lemma mapped_lift m m' l t page e fl res : tree_wf m (S l) t →
  let e1 := entry_of (mem_ram m) t (idx (S l) page) in descends (S l) e1 = true →
  (Z.testbit fl 2 = true → Z.testbit e1 2 = true) →
  mapped_to m m' l (Z.land e1 PHYS_MASK) page e fl res → mapped_to m m' (S l) t page e fl res.
Proof.
  intros Hwf e1 Hd Hu (Hk & Hcost & Hres). pose proof (child_relinked _ _ _ _ _ Hwf Hd Hk) as Hr. fold e1 in Hr.
  pose proof (idx_range (S l) page) as Hi.
  assert (entry_of (mem_ram m') t (idx (S l) page) = e1) as He.
  { rewrite (r_entry _ _ _ _ _ _ Hr) by done. by rewrite decide_True. }
  assert (∀ a, idx (S l) a = idx (S l) page → same_in m m' l (Z.land e1 PHYS_MASK) a → same_in m m' (S l) t a) as Hin.
  { intros a Ha [Hl Hs]. unfold same_in, entered in *.
    destruct (walk_down (mem_ram m) l t a) as (-> & -> & _); [by rewrite Ha|].
    destruct (walk_down (mem_ram m') l t a) as (-> & -> & _); [by rewrite Ha, He|]. rewrite Ha, He. done. }
  split; [by eapply relink_kept|]. split; [lia|]. pose proof (walk_down (mem_ram m) l t page Hd) as (_ & Hs & _ & Hp & _).
  pose proof (walk_down (mem_ram m') l t page) as Hw'. cbn zeta in Hw'. rewrite He in Hw'.
  destruct (Hw' Hd) as (_ & Hs' & _ & Hp' & _). fold e1 in Hs, Hp. destruct res as [u|er].
  - destruct Hres as (Hsl & Hua & Ho). rewrite Hs', Hp'. split_and!; [done| |].
    + intros Hb. by rewrite Hu, Hua.
    + intros a (k & Hk' & Hne). destruct (decide (idx (S l) a = idx (S l) page)) as [Ea|Hna]; [|by eapply away_same].
      apply Hin; [done|]. apply Ho. exists k. split; [|done]. assert (k ≠ S l) by congruence. lia.
  - destruct Hres as (Ho & Hn & Hf). rewrite Hs, Hp. split_and!.
    + intros a. destruct (decide (idx (S l) a = idx (S l) page)) as [Ea|Hna]; [by apply Hin|by eapply away_same].
    + intros [Hz [_ Hpar]%andb_true_iff]. by apply Hn.
    + destruct er; cbn [build_failure] in *; [lia|done|]. unfold entered. by rewrite Hs.
Qed.

(** Opening the way and mapping below. *)
Lemma opened_mapped m m1 m2 l t page c e fl res : tree_wf m (S l) t → opened m m1 l t page c fl →
  mapped_to m1 m2 l c page e fl res → mapped_to m m2 (S l) t page e fl res.
Proof.
  intros Hwf Ho Hmap. pose proof (opened_kept _ _ _ _ _ _ _ Hwf Ho) as Hk. pose proof (k_wf _ _ _ _ Hk) as Hwf1.
  pose proof (r_descends _ _ _ _ _ _ (o_link _ _ _ _ _ _ _ Ho)) as Hd. rewrite <- (o_entry _ _ _ _ _ _ _ Ho) in Hmap.
  destruct (mapped_lift _ _ _ _ _ _ _ _ Hwf1 Hd (o_user _ _ _ _ _ _ _ Ho) Hmap) as (Hk2 & _ & Hres).
  pose proof (o_cost _ _ _ _ _ _ _ Ho) as Hcost. destruct Hmap as (_ & Hcost2 & Hmap).
  split; [by eapply kept_trans|]. split; [lia|]. destruct res as [u|er].
  - destruct Hres as (Hs & Hu & Hoth). split_and!; try done. intros a Ha.
    eapply same_in_trans; [by eapply opened_same|by apply Hoth].
  - destruct Hres as (Hsame & Hn & Hf). destruct Hmap as (_ & _ & Hf2).
    split; [intros a; eapply same_in_trans; [by eapply opened_same|done]|]. split.
    + intros [Hz Hp]. apply Hn. split; [by eapply (o_slot _ _ _ _ _ _ _ Ho)|by apply (k_parents _ _ _ _ Hk)].
    + destruct er; cbn [build_failure] in *; [lia|done|]. rewrite <- Hf. symmetry. by eapply opened_same.
Qed.

(** Bits of the entries. *)
Lemma parent_bits fl b : 0 ≤ b → Z.testbit (parent_flags fl) b = Z.testbit fl b && (b <? 3).
Proof.
  intros Hb. unfold parent_flags. change 7 with (Z.ones 3). rewrite Z.land_spec. f_equal.
  destruct (Z.ltb_spec b 3); [by apply Z.ones_spec_low; lia|by apply Z.ones_spec_high; lia].
Qed.

Lemma parent_range fl : 0 ≤ parent_flags fl < 8.
Proof. unfold parent_flags. change 7 with (Z.ones 3). rewrite Z.land_ones by lia. apply Z.mod_pos_bound. lia. Qed.

Lemma parent_mask e fl : Z.land (Z.lor e (parent_flags fl)) PHYS_MASK = Z.land e PHYS_MASK.
Proof.
  rewrite Z.land_lor_distr_l. unfold parent_flags. rewrite <- Z.land_assoc.
  change (Z.land 7 PHYS_MASK) with 0. by rewrite Z.land_0_r, Z.lor_0_r.
Qed.

Lemma managed_mask m f : mem_ok off m → managed m f → Z.land f PHYS_MASK = f.
Proof.
  intros Hm Hf. pose proof (managed_bound _ _ Hf). pose proof (mo_phys _ _ Hm). destruct Hf as (g & -> & Hg).
  unfold FRAME_SIZE in *. change 4096 with (2 ^ 12) in *. rewrite <- Z.shiftl_mul_pow2 by lia.
  change PHYS_MASK with (Z.shiftl (Z.ones 40) 12). rewrite <- Z.shiftl_land, Z.land_ones by lia.
  by rewrite Z.mod_small by lia.
Qed.

Lemma managed_low m f b : managed m f → 0 ≤ b < 12 → Z.testbit f b = false.
Proof.
  intros (g & -> & _) Hb. unfold FRAME_SIZE. change 4096 with (2 ^ 12). rewrite Z.mul_pow2_bits by lia.
  apply Z.testbit_neg_r. lia.
Qed.

Lemma put_kept m t i e : mem_ok off m → managed m t → 0 ≤ i < 512 → 0 ≤ e < 2 ^ 64 →
  let m' := set_ram m (put (mem_ram m) t i e) in
  mem_ok off m' ∧ grown m m'
  ∧ (∀ j, 0 ≤ j < 512 → entry_of (mem_ram m') t j = if decide (j = i) then e else entry_of (mem_ram m) t j)
  ∧ (∀ x, x ≠ t → mem_ram m' !! x = mem_ram m !! x).
Proof.
  intros Hm Ht Hi He m'. destruct (put_spec (mem_ram m) t i e) as (Hok & Hent & Hx); [by eapply managed_frame|done|done|].
  split_and!; try done. apply (mem_ok_frames off m); try done. apply (mo_wf _ _ Hm).
Qed.

(** A write outside a tree. *)
Lemma tree_same m m' l t c : (∀ x, x ≠ t → mem_ram m' !! x = mem_ram m !! x) → t ∉ pt_tables (mem_ram m) l c →
  pt_tables (mem_ram m') l c = pt_tables (mem_ram m) l c
  ∧ ∀ a, leaf_walk (mem_ram m') l c a = leaf_walk (mem_ram m) l c a
      ∧ table_slot (mem_ram m') l c a = table_slot (mem_ram m) l c a
      ∧ user_walk (mem_ram m') l c a = user_walk (mem_ram m) l c a
      ∧ user_parents (mem_ram m') l c a = user_parents (mem_ram m) l c a
      ∧ plain_path (mem_ram m') l c a = plain_path (mem_ram m) l c a.
Proof.
  intros Hx Hn. destruct (walk_ext (mem_ram m) (mem_ram m') l c) as [Hpt Hw]; [intros x Hin; apply Hx; by intros ->|].
  split; [done|]. intros a. destruct (Hw a) as (-> & El & -> & -> & ->). split_and!; try done.
  unfold table_slot. rewrite El. destruct (leaf_table (mem_ram m) l c a) as [y|] eqn:Ey; [|done].
  cbn [fmap option_fmap option_map]. f_equal. apply entry_of_frame, Hx. intros ->. by apply Hn, (leaf_table_in _ _ a).
Qed.

(** A blank table translates nothing. *)
Lemma blank_tree r l c : (∀ j, 0 ≤ j < 512 → entry_of r c j = 0) →
  pt_tables r l c = [c] ∧ ∀ a, leaf_walk r l c a = None ∧ entered r l c a = false ∧ plain_path r l c a = true.
Proof.
  intros Hz. split.
  - destruct l as [|l]; [done|]. rewrite pt_tables_S. f_equal. destruct (items 512 (below r l) r c) as [|x xs] eqn:E; [done|].
    assert (x ∈ items 512 (below r l) r c) as Hin by (rewrite E; left). apply items_in in Hin as (k & Hk & Hin).
    rewrite Hz in Hin by lia. by apply elem_of_nil in Hin.
  - intros a. pose proof (Hz _ (idx_range l a)) as Ha. unfold entered, table_slot.
    destruct l as [|l]; cbn [leaf_walk leaf_table plain_path fmap option_fmap option_map]; unfold idx in *; by rewrite Ha.
Qed.

(** The old parent entry of a plain path. *)
Lemma plain_parent r l t page fl : let e0 := entry_of r t (idx (S l) page) in
  plain_path r (S l) t page = true → e0 ≠ 0 → let e1 := Z.lor e0 (parent_flags fl) in
  Z.testbit e0 7 = false ∧ Z.testbit e1 7 = false ∧ descends (S l) e0 = true ∧ descends (S l) e1 = true
  ∧ (Z.testbit e0 2 = true → Z.testbit e1 2 = true) ∧ (Z.testbit fl 2 = true → Z.testbit e1 2 = true)
  ∧ plain_path r l (Z.land e0 PHYS_MASK) page = true.
Proof.
  intros e0 Hpl Hne e1. cbn [plain_path] in Hpl. fold e0 in Hpl. rewrite (proj2 (Z.eqb_neq _ _) Hne) in Hpl.
  apply andb_true_iff in Hpl as [[H0 H7%negb_true_iff]%andb_true_iff Hpl]. unfold descends, e1.
  rewrite !Z.lor_spec, !parent_bits, H0, H7 by lia. cbn. rewrite !andb_false_r, andb_true_r. split_and!; try done.
  - by intros ->.
  - intros ->. by rewrite orb_true_r.
Qed.

(** A parent that exists gets the flags of the new page. *)
Lemma open_flags m l t page fl : mem_ok off m → tree_wf m (S l) t →
  let e0 := entry_of (mem_ram m) t (idx (S l) page) in
  plain_path (mem_ram m) (S l) t page = true → e0 ≠ 0 →
  let e1 := Z.lor e0 (parent_flags fl) in
  opened m (set_ram m (put (mem_ram m) t (idx (S l) page) e1)) l t page (Z.land e1 PHYS_MASK) fl.
Proof.
  intros Hm Hwf e0 Hpl Hne e1. pose proof (idx_range (S l) page) as Hi.
  destruct (plain_parent _ _ _ _ fl Hpl Hne) as (H7 & H7' & Hd & Hd' & Hb2 & Hf2 & Hpc). fold e0 e1 in H7, H7', Hd, Hd', Hb2, Hf2, Hpc.
  set (i := idx (S l) page) in *. pose proof (root_owned _ _ _ Hwf) as [Hman _]. pose proof (parent_range fl) as Hpr.
  pose proof (entry_of_range _ _ i (managed_frame _ _ _ Hm Hman)) as Her. fold e0 in Her.
  destruct (put_kept m t i e1 Hm Hman Hi) as (Hm' & Hg & Hent & Hx); [apply (lor_range 64); lia|].
  set (m' := set_ram m _) in *. pose proof (Hent i Hi) as Hei. rewrite decide_True in Hei by done.
  assert (Z.land e1 PHYS_MASK = Z.land e0 PHYS_MASK) as Hc by apply parent_mask.
  assert (below (mem_ram m) l e0 = pt_tables (mem_ram m) l (Z.land e0 PHYS_MASK)) as Hb by (unfold below; by rewrite Hd).
  pose proof (below_nodup _ _ _ _ (tr_nodup _ _ _ Hwf) Hi) as [Hndc Htc]. fold e0 in Hndc, Htc. rewrite Hb in Hndc, Htc.
  destruct (tree_same m m' l t _ Hx Htc) as [Hpt Hw].
  assert (∀ a, idx (S l) a = i → same_in m m' (S l) t a
    ∧ table_slot (mem_ram m') (S l) t a = table_slot (mem_ram m) (S l) t a) as Hsame.
  { intros a Ha. unfold same_in, entered. destruct (walk_down (mem_ram m) l t a) as (-> & -> & _); [by rewrite Ha|].
    destruct (walk_down (mem_ram m') l t a) as (-> & -> & _); [by rewrite Ha, Hei|].
    rewrite Ha, Hei, Hc. fold e0. by destruct (Hw a) as (-> & -> & _). }
  split; fold i; rewrite ?Hei; try done.
  - split; try done.
    + by rewrite H7', <- H7.
    + intros x _ Hne' _. by apply Hx.
    + rewrite Hc. split; rewrite Hpt; [done|]. intros x Hin. apply (owned_kept m); [done|].
      apply (tr_owned _ _ _ Hwf), tables_in. right. exists i. split; [done|]. fold e0. by rewrite Hb.
    + rewrite Hc, Hpt. fold e0. rewrite Hb. by left.
    + intros a Ha. destruct (walk_down (mem_ram m) l t a) as (_ & _ & -> & -> & ->); [by rewrite Ha|].
      destruct (walk_down (mem_ram m') l t a) as (_ & _ & -> & -> & ->); [by rewrite Ha, Hei|].
      rewrite Ha, Hei, Hc, H7'. fold e0. rewrite H7. destruct (Hw a) as (_ & _ & -> & -> & ->).
      split_and!; [done|..]; intros [E ->]%andb_true_iff; by rewrite Hb2.
  - unfold m'. cbn [set_ram mem_alloc]. lia.
  - rewrite Hc. by destruct (Hw page) as (_ & _ & _ & _ & ->).
  - intros a Ha. by apply Hsame.
  - intros a e Ha. by destruct (Hsame a Ha) as [_ ->].
Qed.

(** The entry of a new table. *)
Lemma fresh_entry m f fl : mem_ok off m → managed m f → Z.testbit fl 0 = true →
  let e1 := Z.lor f (parent_flags fl) in
  0 ≤ e1 < 2 ^ 64 ∧ Z.land e1 PHYS_MASK = f ∧ Z.testbit e1 7 = false ∧ (∀ l, descends l e1 = true)
  ∧ (Z.testbit fl 2 = true → Z.testbit e1 2 = true).
Proof.
  intros Hm Hf H0 e1. pose proof (managed_bound _ _ Hf). pose proof (mo_phys _ _ Hm). pose proof (parent_range fl).
  assert (Z.testbit e1 7 = false) as H7 by (unfold e1; by rewrite Z.lor_spec, parent_bits, (managed_low m), andb_false_r).
  split_and!; try done.
  - apply (lor_range 64); lia.
  - apply (lor_range 64); lia.
  - unfold e1. rewrite parent_mask. by apply (managed_mask m).
  - intros l. unfold descends. rewrite H7, andb_false_r. unfold e1. by rewrite Z.lor_spec, parent_bits, H0, orb_true_r.
  - intros Hb. unfold e1. by rewrite Z.lor_spec, parent_bits, Hb, orb_true_r.
Qed.

Lemma taken_owned m m1 f : taken off m m1 f → owned m1 f ∧ ¬ 0 < refs (mem_alloc m) (f / FRAME_SIZE).
Proof.
  intros Ht. split; [split; [by eapply taken_managed|]|]; destruct Ht as (_ & (g & -> & Hg & _ & _ & Hz & Hr) & _);
    rewrite Z.div_mul by done; [rewrite Hr by done; by rewrite decide_True|lia].
Qed.

(** A missing table is a zeroed frame that was free. *)
Lemma open_fresh m m1 l t page f fl : mem_ok off m → tree_wf m (S l) t → taken off m m1 f →
  (∀ j, 0 ≤ j < 512 → entry_of (mem_ram m1) f j = 0) → entry_of (mem_ram m) t (idx (S l) page) = 0 → Z.testbit fl 0 = true →
  opened m (set_ram m1 (put (mem_ram m1) t (idx (S l) page) (Z.lor f (parent_flags fl)))) l t page f fl.
Proof.
  intros Hm Hwf Htk Hz He0 H0. pose proof (idx_range (S l) page) as Hi. set (i := idx (S l) page) in *.
  pose proof (root_owned _ _ _ Hwf) as Hroot. pose proof (taken_grown _ _ _ _ Htk) as Hg. destruct (taken_owned _ _ _ Htk) as [Hof Hfree].
  assert (∀ x, owned m x → x ≠ f) as Hnf by (intros x [??]; by eapply (taken_ne off m)).
  pose proof (taken_free _ _ _ _ Hm Htk) as Hcost. destruct Htk as (Hm1 & _ & _ & Hram). pose proof (owned_kept _ _ _ Hg Hroot) as [Hman _].
  destruct (fresh_entry m1 f fl Hm1 (proj1 Hof) H0) as (He1 & Hc & H7 & Hd & Hb2). set (e1 := Z.lor f _) in *.
  destruct (put_kept m1 t i e1 Hm1 Hman Hi He1) as (Hm' & Hg' & Hent & Hx). set (m' := set_ram m1 _) in *.
  pose proof (Hent i Hi) as Hei. rewrite decide_True in Hei by done.
  destruct (blank_tree (mem_ram m') l f) as [Hpt Hw].
  { intros j Hj. rewrite (entry_of_frame (mem_ram m1)); [by apply Hz|]. apply Hx. intros E. by apply (Hnf t). }
  assert (∀ a, idx (S l) a = i → leaf_walk (mem_ram m) (S l) t a = None ∧ table_slot (mem_ram m) (S l) t a = None
    ∧ user_walk (mem_ram m) (S l) t a = false ∧ user_parents (mem_ram m) (S l) t a = false) as Hold.
  { intros a Ha. unfold table_slot. cbn [leaf_walk leaf_table user_walk user_parents]. fold (idx (S l) a).
    by rewrite Ha, He0. }
  split; fold i; rewrite ?Hei; try done.
  - split; rewrite ?Hc, ?Hpt; try done.
    + intros j Hj. rewrite Hent by done. case_decide; [done|]. by apply entry_of_frame, Hram, Hnf.
    + by rewrite H7, He0.
    + intros x Hxo Hne _. rewrite Hx by done. by apply Hram, Hnf.
    + split; rewrite Hpt; [apply NoDup_singleton|]. intros x ->%list_elem_of_singleton. by eapply owned_kept.
    + intros x ->%list_elem_of_singleton. by right.
    + intros a Ha. destruct (Hold a Ha) as (_ & _ & -> & ->). split; [|done]. intros _.
      destruct (walk_down (mem_ram m') l t a) as (_ & _ & _ & _ & ->); rewrite Ha, Hei; [done|]. rewrite H7, Hc. apply Hw.
  - unfold m'. cbn [set_ram mem_alloc]. lia.
  - apply Hw.
  - intros a Ha. destruct (Hold a Ha) as (El & Es & _). unfold same_in, entered. rewrite El, Es.
    destruct (walk_down (mem_ram m') l t a) as (-> & -> & _); rewrite Ha, Hei; [done|]. rewrite Hc. by destruct (Hw a) as (-> & ? & _).
  - intros a e Ha. by destruct (Hold a Ha) as (_ & -> & _).
Qed.

(** ** The mapping *)

Lemma map_leaf m t page e fl : mem_ok off m → tree_wf m 0 t → 0 ≤ e < 2 ^ 64 →
  entry_of (mem_ram m) t (idx 0 page) = 0 →
  mapped_to m (set_ram m (put (mem_ram m) t (idx 0 page) e)) 0 t page e fl (Ok tt).
Proof.
  intros Hm Hwf He E0. pose proof (idx_range 0 page) as Hi. assert (owned m t) as Ho by (apply (tr_owned _ _ _ Hwf); left).
  destruct (put_kept m t (idx 0 page) e Hm (proj1 Ho) Hi He) as (Hm' & Hg & Hent & Hx). set (m' := set_ram m _) in *.
  assert (∀ a, idx 0 a ≠ idx 0 page → entry_of (mem_ram m') t (idx 0 a) = entry_of (mem_ram m) t (idx 0 a)) as Haway.
  { intros a Ha. rewrite Hent by apply idx_range. by rewrite decide_False. }
  split; [split; try done|split; [unfold m'; cbn [set_ram mem_alloc]; lia|]].
  - split; [apply NoDup_singleton|]. intros x ->%list_elem_of_singleton. by eapply owned_kept.
  - intros x _ Hn. apply Hx. intros ->. apply Hn. left.
  - by left.
  - intros a. cbn [user_walk]. fold (idx 0 a).
    destruct (decide (idx 0 a = idx 0 page)) as [->|Hne]; [by rewrite E0|by rewrite Haway].
  - unfold table_slot, same_in, entered. cbn [leaf_table fmap option_fmap option_map user_parents leaf_walk]. split_and!; [|done|].
    + rewrite Hent by done. by rewrite decide_True.
    + intros a (k & Hk & Hne). assert (k = 0%nat) as -> by lia. unfold table_slot. cbn [leaf_table fmap option_fmap option_map].
      fold (idx 0 a). by rewrite Haway.
Qed.

Lemma map_at_ok page e fl lvl : 0 ≤ e < 2 ^ 64 → e ≠ 0 → Z.testbit fl 0 = true → ∀ m t, mem_ok off m → tree_wf m lvl t →
  plain_path (mem_ram m) lvl t page = true →
  wp (map_at (system_allocate_frame (Some off)) lvl t page e (parent_flags fl) m) (λ '(res, m'),
    mapped_to m m' lvl t page e fl res).
Proof.
  intros He Hne H0. induction lvl as [|l IH]; intros m t Hm Hwf Hpl; cbn [map_at].
  { destruct (Z.eqb_spec (entry_of (mem_ram m) t (idx 0 page)) 0) as [E0|E0]; wp_step; [by apply map_leaf|].
    split; [by apply kept_refl|]. split; [lia|]. split; [done|].
    cbn [build_failure]. unfold entered, table_slot. cbn [leaf_table fmap option_fmap option_map].
    split; [intros [? _]; congruence|]. by rewrite (proj2 (Z.eqb_neq _ _)). }
  destruct (Z.eqb_spec (entry_of (mem_ram m) t (idx (S l) page)) 0) as [E0|E0].
  - wp_step. eapply wp_mono; [by apply system_allocate_frame_ok|cbv beta]. intros [[f|] m1] Ha.
    2: { destruct Ha as [-> Hfull]. wp_step. split; [by apply kept_refl|]. split; [lia|]. split; [done|].
         cbn [build_failure]. rewrite (free_frames_none _ Hfull). unfold table_slot. cbn [leaf_table].
         rewrite E0. split; [by intros [? _]|lia]. }
    destruct Ha as [Htk Hz]. pose proof (open_fresh m m1 l t page f fl Hm Hwf Htk Hz E0 H0) as Ho.
    pose proof (o_link _ _ _ _ _ _ _ Ho) as Hl. eapply wp_mono; [apply IH|cbv beta; intros [res m2] Hmap; by eapply opened_mapped].
    + apply Hl.
    + by apply (opened_wf _ _ _ _ _ _ _ Ho).
    + apply Ho.
  - pose proof (open_flags m l t page fl Hm Hwf Hpl E0) as Ho. pose proof (o_link _ _ _ _ _ _ _ Ho) as Hl.
    destruct (plain_parent _ _ _ _ fl Hpl E0) as (_ & -> & _).
    eapply wp_mono; [apply IH|cbv beta; intros [res m2] Hmap; by eapply opened_mapped].
    + apply Hl.
    + by apply (opened_wf _ _ _ _ _ _ _ Ho).
    + apply Ho.
Qed.

Lemma space_tree m pml4 : space_wf m pml4 → tree_wf m 3 pml4.
Proof. intros [Hnd Ho _]. split; [done|]. intros x Hx. by apply (proj1 (Forall_forall _ _) Ho). Qed.

Lemma kept_space m m' pml4 : space_wf m pml4 → kept m m' 3 pml4 →
  mem_ok off m' ∧ space_wf m' pml4 ∧ grown m m' ∧ data_same m m' pml4 ∧ tables_grown m m' pml4
  ∧ plain_kept (mem_ram m) (mem_ram m') pml4 ∧ user_kept (mem_ram m) (mem_ram m') pml4.
Proof.
  intros Hs Hk. split_and!; [apply Hk| |apply Hk| |exact (k_tables _ _ _ _ Hk)| |].
  - destruct (k_wf _ _ _ _ Hk) as [Hnd Ho]. split; [done|by apply Forall_forall|].
    intros i Hi. rewrite (k_top _ _ _ _ Hk) by done. by apply (sw_reserved _ _ Hs).
  - intros x Hx Hp. by apply (k_data _ _ _ _ Hk).
  - intros a _. apply Hk.
  - intros a _. apply Hk.
Qed.

Lemma page_differs a page : 0 ≤ a < 2 ^ 47 → is_page page → page_of a ≠ page → ∃ k, (k ≤ 3)%nat ∧ idx k a ≠ idx k page.
Proof.
  intros Ha [Hp Hal] Hne. destruct (decide (Exists (λ k, idx k a ≠ idx k page) [0; 1; 2; 3]%nat)) as [Hex|Hno].
  - apply Exists_exists in Hex as (k & Hk & ?). exists k. split; [|done]. repeat (apply elem_of_cons in Hk as [->|Hk]; [lia|]).
    by apply elem_of_nil in Hk.
  - exfalso. apply Hne. assert (page = page_of page) as -> by (unfold page_of; lia). apply page_of_idx; [done|done|].
    intros k Hk. destruct (decide (idx k a = idx k page)) as [|Hn]; [done|]. destruct Hno. apply Exists_exists. exists k.
    split; [|done]. destruct k as [|[|[|[|]]]]; [repeat constructor..|lia].
Qed.

(** The operations that edit one entry. *)
Lemma leaf_slot r pml4 a e : slot r pml4 a = Some e →
  ∃ t1, leaf_table r 3 pml4 a = Some t1 ∧ entry_of r t1 (idx 0 a) = e.
Proof. unfold slot. destruct (leaf_table r 3 pml4 a) as [t1|]; [|done]. intros [= <-]. by exists t1. Qed.

Lemma map_to_ok m pml4 page frame fl : mem_ok off m → space_wf m pml4 → is_page page → page_flags fl → managed m frame →
  plain_path (mem_ram m) 3 pml4 page = true →
  wp (map_at (system_allocate_frame (Some off)) 3 pml4 page (Z.lor frame fl) (parent_flags fl) m) (λ '(res, m'),
    mem_ok off m' ∧ space_wf m' pml4 ∧ grown m m' ∧ data_same m m' pml4
    ∧ tables_grown m m' pml4 ∧ plain_kept (mem_ram m) (mem_ram m') pml4
    ∧ user_kept (mem_ram m) (mem_ram m') pml4 ∧ nfree m ≤ nfree m' + 3
    ∧ match res with
      | Ok _ => slot (mem_ram m') pml4 page = Some (Z.lor frame fl)
          ∧ (Z.testbit fl 2 = true → user_accessible (mem_ram m') pml4 page = true)
          ∧ others_same (mem_ram m) (mem_ram m') pml4 page
      | Err e => (∀ a, 0 ≤ a < 2 ^ 47 → same_at (mem_ram m) (mem_ram m') pml4 a)
          ∧ ~ (slot (mem_ram m) pml4 page = Some 0 ∧ user_parents (mem_ram m) 3 pml4 page = true)
          ∧ map_failure m pml4 page e
      end).
Proof.
  intros Hm Hs Hpg (Hfl & _ & Hb0 & _) Hman Hpl. pose proof (managed_bound _ _ Hman). pose proof (mo_phys _ _ Hm).
  assert (Z.testbit (Z.lor frame fl) 0 = true) as He0 by (by rewrite Z.lor_spec, Hb0, orb_true_r).
  eapply wp_mono; [apply (map_at_ok page (Z.lor frame fl) fl 3); try done|cbv beta].
  - apply (lor_range 64); lia.
  - by intros E; rewrite E in He0.
  - by apply space_tree.
  - intros [res m'] (Hk & Hcost & Hres). destruct (kept_space m m' pml4 Hs Hk) as (? & ? & ? & ? & ? & ? & ?). split_and!; try done.
    destruct res as [u|er]; [|destruct Hres as (Ha & Hn & Hf); split; [intros a _; exact (Ha a)|split; [exact Hn|by destruct er]]].
    destruct Hres as (Hsl & Hu & Ho). split_and!; [exact Hsl| |].
    + intros Hb2. unfold user_accessible. unfold table_slot in Hsl.
      destruct (leaf_table (mem_ram m') 3 pml4 page) as [x|] eqn:El; [|done]. apply (inj Some) in Hsl. cbv beta in Hsl.
      destruct (leaf_walk_slot _ _ _ _ _ El) as [_ ->]. by rewrite Hu, Hsl, He0, Z.lor_spec, Hb2, orb_true_r.
    + intros a Ha Hne. by apply Ho, page_differs.
Qed.

(** The mapper satisfies the specification. *)
Lemma table_mapper_spec : @MapperSpec off HP _ table_mapper.
Proof.
  split.
  - done.
  - intros m pml4 a e _ _ _ He. cbn [table_mapper translate_addr]. by rewrite He.
  - intros m pml4 a _ _ _ He _. cbn [table_mapper translate_addr]. by rewrite He.
  - intros m pml4 a e _ _ _ He Hnz. cbn [table_mapper translate_flags]. rewrite He. cbn [mbind option_bind].
    by rewrite (proj2 (Z.eqb_neq _ _)).
  - intros m pml4 page frame fl Hm Hs Hpg Hfl Hman _ _ Hpl. by apply map_to_ok.
  - intros m pml4 page e Hm Hs Hpg (t1 & El & Ee)%leaf_slot Hb0 _. cbn [table_mapper unmap].
    destruct (put_leaf off m pml4 page t1 0) as (Hm' & Hs' & Hd & Ht & Hup & Hl & He & Hpl & Ho & Hua); try done.
    rewrite El, Ee, Hb0. eexists. split_and!; try done. unfold slot. rewrite Hl. cbn [fmap option_fmap option_map].
    by rewrite He.
  - intros m pml4 page e fl Hm Hs Hpg (t1 & El & Ee)%leaf_slot Hb0 Hfl. cbn [table_mapper update_flags].
    destruct (put_leaf off m pml4 page t1 (Z.lor (Z.land e PHYS_MASK) fl)) as (Hm' & Hs' & Hd & Ht & Hup & Hl & He & Hpl & Ho & Hua);
      try done.
    { apply (lor_range 64); [done| |apply Hfl]. rewrite Z.land_comm. apply (land_range 64); done. }
    rewrite El, Ee, (proj2 (Z.eqb_neq e 0)) by (by intros ->). eexists. split_and!; try done.
    unfold slot. rewrite Hl. cbn [fmap option_fmap option_map]. by rewrite He.
Qed.
End Build.
