(* ===== verification/AddrSpace.v ===== *)
(** * Address spaces over the page-table mapper
    (src/src/mm/memory.rs, src/src/mm/allocator.rs)

    The functions that edit page tables through [OffsetPageTable] of the x86_64
    crate: mapping a zeroed user page into an address space, translation, and the
    resolution of a copy-on-write fault.  The mapper is the class [Mapper]; its
    documented behaviour is [MapperSpec] (see [PageTree]).

    The theorems: mapping a user page gives a fresh zeroed frame that ring 3 can
    reach and leaves every other translation and all data alone, or leaks a frame
    when the mapper fails; resolving a copy-on-write fault of a shared page copies
    the page shifted by the offset of the faulting address. *)

From S2P Require Import Prelude KError X86 FrameAlloc Paging PageTree PageMapper.

#[local] Open Scope list_scope.

(** ** Bytes of physical memory *)

Definition byte_at (r : ram) (p : Z) : outcome Z :=
  match r !! page_of p with Some b => vget b (p mod 4096) | None => Stop OutOfBounds end.

Fixpoint read_phys (r : ram) (p : Z) (n : nat) : outcome (list Z) :=
  match n with
  | O => Ret []
  | S n => b <- byte_at r p;; l <- read_phys r (p + 1) n;; Ret (b :: l)
  end.

(** Overwriting the start of a frame. *)
Definition write_frame (r : ram) (f : Z) (l : list Z) : outcome ram :=
  match r !! f with Some b => Ret (<[f := splice 0 l b]> r) | None => Stop OutOfBounds end.

Section AddrSpace.
Context `{Profile} `{VirtAddrNew} `{PhysAddrNew} `{EntryOps} `{Mapper}.
Context (hhdm : option Z).

(** [VirtAddr::new(hhdm_offset)] and the pointer to the top-level table. *)
Definition mapper_for (pml4 : Z) : outcome Z :=
  off <- hhdm_offset hhdm;;
  off <- virt_new off;;
  _ <- window off pml4;;
  Ret off.

(** [memory::translate_addr] and [translate_in_pml4]. *)
Definition translate_active (cr3 : Z) (r : ram) (a : Z) : outcome (option Z) :=
  _off <- mapper_for cr3;; Ret (translate_addr r cr3 a).
Definition translate_in_pml4 (target_pml4 : Z) (r : ram) (a : Z) : outcome (option Z) :=
  _off <- mapper_for target_pml4;; Ret (translate_addr r target_pml4 a).

Definition allocate_and_map_user_page (target_pml4 virtual_address : Z) (m : mem)
    : outcome (result unit KernelError * mem) :=
  off <- mapper_for target_pml4;;
  let page := page_of virtual_address in
  if translate_page (mem_ram m) target_pml4 page then Ret (Ok tt, m) else
  let* (o, a) := allocate_frame (mem_alloc m) in
  let m := set_alloc m a in
  match o with
  | None => Ret (Err (Memory OutOfFrames), m)
  | Some frame_addr =>
      frame <- phys_new frame_addr;;
      let flags := Z.lor (Z.lor FLAG_PRESENT FLAG_WRITABLE) FLAG_USER in
      let* (res, m) := map_to (system_allocate_frame hhdm) m target_pml4 page frame flags in
      match res with
      | Err _ => Ret (Err (Memory InvalidMapping), m)
      | Ok _ =>
          _ <- window off frame_addr;;
          r <- zero (mem_ram m) frame_addr;;
          Ret (Ok tt, set_ram m r)
      end
  end.

Definition resolve_cow_fault (cr3 fault_addr : Z) (m : mem) : outcome (bool * mem) :=
  off <- mapper_for cr3;;
  let page := page_of fault_addr in
  match translate_addr (mem_ram m) cr3 fault_addr with
  | None => Ret (false, m)
  | Some phys_addr =>
      match translate_flags (mem_ram m) cr3 fault_addr with
      | None => Ret (false, m)
      | Some current_flags =>
          ref_count <- cow_get_ref_count (mem_alloc m) phys_addr;;
          if ref_count =? 0 then Ret (false, m) else
          if ref_count =? 1 then
            match update_flags (mem_ram m) cr3 page (Z.lor current_flags FLAG_WRITABLE) with
            | (Ok _, r) => Ret (true, set_ram m r)
            | (Err _, _) => Stop Panic
            end
          else
          let* (o, a) := allocate_frame (mem_alloc m) in
          let m := set_alloc m a in
          match o with
          | None => Ret (false, m)
          | Some new_frame_addr =>
              new_frame <- phys_new new_frame_addr;;
              _ <- window off phys_addr;;
              _ <- window off new_frame_addr;;
              bytes <- read_phys (mem_ram m) phys_addr 4096;;
              r <- write_frame (mem_ram m) new_frame_addr bytes;;
              match unmap r cr3 page with
              | (Err _, _) => Stop Panic
              | (Ok _, r) =>
                  let* (res, m) := map_to (system_allocate_frame hhdm) (set_ram m r) cr3 page new_frame
                                     (Z.lor current_flags FLAG_WRITABLE) in
                  match res with
                  | Err _ => Stop Panic
                  | Ok _ =>
                      a <- cow_deallocate_frame (mem_alloc m) phys_addr;;
                      Ret (true, set_alloc m a)
                  end
              end
          end
      end
  end.

(** [init_heap]: the pages of the kernel heap, mapped one by one; the heap crate
    then receives the range. *)
Definition HEAP_START : Z := 0x444444440000.
Definition HEAP_SIZE : Z := 1024 * 1024.

Definition map_heap_page (pml4 : Z) (i : Z) (m : mem) : outcome (flow mem (result unit MapToError * mem)) :=
  let* (o, m) := system_allocate_frame hhdm m in
  match o with
  | None => Ret (Done (Err FrameAllocationFailed, m))
  | Some frame =>
      let* (res, m) := map_to (system_allocate_frame hhdm) m pml4 (page_of HEAP_START + i * 4096) frame
                         (Z.lor FLAG_PRESENT FLAG_WRITABLE) in
      match res with
      | Err e => Ret (Done (Err e, m))
      | Ok _ => Ret (Next m)
      end
  end.

Definition init_heap (pml4 : Z) (m : mem) : outcome (result unit MapToError * mem) :=
  start <- virt_new HEAP_START;;
  e1 <- uadd 64 start HEAP_SIZE;;
  e1 <- virt_new e1;;
  e2 <- usub 64 e1 1;;
  heap_end <- virt_new e2;;
  let pages := (page_of heap_end - page_of start) / 4096 + 1 in
  f <- for_range 0 pages (map_heap_page pml4) m;;
  Ret match f with Done x => x | Next m => (Ok tt, m) end.
End AddrSpace.

(** ** Mapping a user page *)

Section MapPage.
Context `{HP : Profile} `{HV : VirtAddrSpec} `{HA : PhysAddrSpec} (off : Z) `{HM : Mapper} `{HMS : !MapperSpec off}.
Implicit Types m : mem.

(** Taking a frame changes its count only. *)
Definition allocated_frame m m1 (f : Z) : Prop :=
  0 ≤ f < total_frames (mem_alloc m) ∧ refs (mem_alloc m) f = 0 ∧ mem_ram m1 = mem_ram m
  ∧ total_frames (mem_alloc m1) = total_frames (mem_alloc m) ∧ mem_ok off m1
  ∧ ∀ g, 0 ≤ g < total_frames (mem_alloc m) →
      refs (mem_alloc m1) g = if decide (g = f) then 1 else refs (mem_alloc m) g.

Lemma allocate_frame_ok m : mem_ok off m →
  wp (allocate_frame (mem_alloc m)) (λ '(o, a),
    match o with
    | None => a = mem_alloc m ∧ ∀ g, 0 ≤ g < total_frames (mem_alloc m) → busy (mem_alloc m) g = true
    | Some p => ∃ f, p = f * FRAME_SIZE ∧ allocated_frame m (set_alloc m a) f
    end).
Proof.
  intros Hm. pose proof (mo_wf off m Hm) as Hwf. pose proof (shape_total _ (wf_shape _ Hwf)) as Ht.
  eapply wp_mono; [by apply allocate_frame_allocated|cbv beta]. intros [o a] [Hwfa Ha].
  unfold allocated in Ha. destruct (lowest_free (mem_alloc m)) as [f|] eqn:El; unfold lowest_free in El.
  - destruct Ha as [-> (s1 & Hu & ->)]. apply first_from_Some in El as (Hf & Hb & _). apply negb_true_iff in Hb.
    exists f. split; [done|]. pose proof (upd_total _ _ _ _ _ Hu) as Htot. split_and!; try lia; try done.
    + apply free_refs; [done|lia|done].
    + by apply (mem_ok_frames off m).
    + intros g Hg. change (refs s1 g = if decide (g = f) then 1 else refs (mem_alloc m) g).
      by rewrite (upd_refs _ _ _ _ _ Hu).
  - destruct Ha as [-> ->]. split; [done|]. intros g Hg.
    pose proof (proj1 (first_from_None _ _ _) El g ltac:(lia)) as Hb. cbv beta in Hb. by apply negb_false_iff in Hb.
Qed.

Lemma allocated_grown m m1 f : allocated_frame m m1 f → grown m m1.
Proof.
  intros (Hf & Hz & _ & Ht & _ & Hr). split; [done|]. intros g Hg. rewrite Hr by done. case_decide; subst; lia.
Qed.

Lemma allocated_free m m1 f : mem_ok off m → allocated_frame m m1 f → nfree m = nfree m1 + 1.
Proof.
  intros Hm (Hf & Hz & _ & Ht & Hm1 & Hr). apply (free_frames_refs _ _ f); try done; [apply (mo_wf _ _ Hm)|apply (mo_wf _ _ Hm1)].
Qed.

Lemma space_wf_grown m m1 pml4 : grown m m1 → mem_ram m1 = mem_ram m → space_wf m pml4 → space_wf m1 pml4.
Proof.
  intros Hg Hram [Hnd Hown Hres]. split; rewrite Hram; try done.
  eapply Forall_impl; [exact Hown|]. intros x [Hx Hp]. by apply (owned_grown m).
Qed.

Lemma fresh_not_table m m1 f pml4 : allocated_frame m m1 f → space_wf m pml4 →
  f * FRAME_SIZE ∉ pt_tables (mem_ram m) 3 pml4.
Proof.
  intros (_ & Hz & _) [_ Hown _] Hin. apply (proj1 (Forall_forall _ _) Hown) in Hin as [_ Hp].
  rewrite Z.div_mul in Hp by done. lia.
Qed.

Lemma mapper_for_ok m pml4 : mem_ok off m → space_wf m pml4 → mapper_for (Some off) pml4 = Ret off.
Proof.
  intros Hm [_ Hown _]. assert (managed m pml4) as Hp.
  { cbn [pt_tables] in Hown. by inversion_clear Hown as [|? ? [H1 _] _]. }
  unfold mapper_for, hhdm_offset. cbn [obind]. rewrite (virt_new_off off m) by done. cbn [obind].
  by rewrite (window_ok off m).
Qed.

Lemma grown_refs m m1 f n : grown m m1 → managed m (f * FRAME_SIZE) → refs (mem_alloc m) f = n → 0 < n →
  refs (mem_alloc m1) f = n.
Proof.
  intros [_ Hr] (g & Hg & Hgt) <- Hn. assert (f = g) as -> by (unfold FRAME_SIZE in Hg; lia).
  by destruct (Hr g Hgt) as [Hk _]; apply Hk.
Qed.

(** All that mapping needs of a fresh frame. *)
Lemma allocated_facts m m1 f pml4 : allocated_frame m m1 f → space_wf m pml4 →
  mem_ok off m1 ∧ space_wf m1 pml4 ∧ managed m1 (f * FRAME_SIZE) ∧ refs (mem_alloc m1) f = 1
  ∧ (f * FRAME_SIZE ∉ pt_tables (mem_ram m) 3 pml4) ∧ phys_new (f * FRAME_SIZE) = Ret (f * FRAME_SIZE).
Proof.
  intros Haf Hs. pose proof Haf as (Hf & Hz & Hram & Htot & Hm1 & Hr1).
  assert (managed m1 (f * FRAME_SIZE)) as Hman by (exists f; by rewrite Htot). split_and!; try done.
  - apply (space_wf_grown m); [by eapply allocated_grown|done|done].
  - rewrite Hr1 by done. by rewrite decide_True.
  - by eapply fresh_not_table.
  - pose proof (managed_bound _ _ Hman). pose proof (mo_phys _ _ Hm1). apply phys_new_ok. lia.
Qed.

(** A page that was mapped: a fresh frame, zeroed, owned once and reachable from
    ring 3. *)
Definition user_page_added m m' (pml4 page f : Z) : Prop :=
  0 ≤ f < total_frames (mem_alloc m) ∧ refs (mem_alloc m) f = 0 ∧ refs (mem_alloc m') f = 1
  ∧ slot (mem_ram m') pml4 page = Some (Z.lor (f * FRAME_SIZE) 7)
  ∧ mem_ram m' !! (f * FRAME_SIZE) = Some zero_frame
  ∧ user_accessible (mem_ram m') pml4 page = true
  ∧ (f * FRAME_SIZE ∉ pt_tables (mem_ram m') 3 pml4)
  ∧ others_same (mem_ram m) (mem_ram m') pml4 page.

Lemma data_same_alloc m m1 m2 f pml4 : allocated_frame m m1 f → data_same m1 m2 pml4 → data_same m m2 pml4.
Proof.
  intros Ha Hd x Hx Hp Hnt. pose proof (allocated_grown _ _ _ Ha) as Hg.
  destruct (owned_grown _ _ _ Hg Hx Hp) as [Hx1 Hp1]. destruct Ha as (_ & _ & Hram & _).
  rewrite Hd by (rewrite ?Hram; done). by rewrite Hram.
Qed.

(** Writing data frames does not disturb a space. *)
Lemma data_write m pml4 p b : mem_ok off m → space_wf m pml4 → p ∉ pt_tables (mem_ram m) 3 pml4 →
  length b = 4096%nat → Forall (λ x, is_byte x) b →
  let r := <[p := b]> (mem_ram m) in
  mem_ok off (set_ram m r) ∧ space_wf (set_ram m r) pml4 ∧ pt_tables r 3 pml4 = pt_tables (mem_ram m) 3 pml4
  ∧ ∀ a, leaf_walk r 3 pml4 a = leaf_walk (mem_ram m) 3 pml4 a ∧ slot r pml4 a = slot (mem_ram m) pml4 a
      ∧ user_accessible r pml4 a = user_accessible (mem_ram m) pml4 a
      ∧ user_parents r 3 pml4 a = user_parents (mem_ram m) 3 pml4 a
      ∧ plain_path r 3 pml4 a = plain_path (mem_ram m) 3 pml4 a.
Proof.
  intros Hm Hs Hp Hl Hb r.
  assert (∀ x, x ∈ pt_tables (mem_ram m) 3 pml4 → r !! x = mem_ram m !! x) as Hx.
  { intros x Hx. unfold r. rewrite lookup_insert_ne; [done|]. by intros ->. }
  destruct (walk_ext _ r 3 pml4 Hx) as [Heq Hw]. split_and!.
  - apply (mem_ok_frames off m); [done|apply (mo_wf _ _ Hm)|done|]. intros x Hxo. unfold r.
    destruct (decide (x = p)) as [->|]; [exists b; by rewrite lookup_insert_eq|].
    apply (frame_ok_eq (mem_ram m)); [by rewrite lookup_insert_ne|done].
  - destruct Hs as [Hnd Hown Hres]. split; cbn [set_ram mem_ram mem_alloc]; rewrite ?Heq; try done.
    intros i Hi. rewrite (entry_of_frame (mem_ram m)); [by apply Hres|]. apply Hx. left.
  - done.
  - intros a. destruct (Hw a) as (Hwa & _ & Hu & Hup & Hpl). split_and!; try done. by apply slot_ext.
Qed.

(** The result of mapping a user page, with all that later steps need. *)
Definition user_page_result pml4 va m (res : result unit KernelError) m' : Prop :=
  match res with
  | Ok _ => if mapped (mem_ram m) pml4 (page_of va) then m' = m
            else ∃ f, user_page_added m m' pml4 (page_of va) f
  | Err e => (∀ a, 0 ≤ a < 2 ^ 47 → same_at (mem_ram m) (mem_ram m') pml4 a)
      ∧ ((e = Memory OutOfFrames ∧ m' = m ∧ ∀ g, 0 ≤ g < total_frames (mem_alloc m) → busy (mem_alloc m) g = true)
         ∨ (e = Memory InvalidMapping ∧ ∃ f, 0 ≤ f < total_frames (mem_alloc m) ∧ refs (mem_alloc m) f = 0
              ∧ refs (mem_alloc m') f = 1 ∧ (f * FRAME_SIZE ∉ pt_tables (mem_ram m') 3 pml4)))
      ∧ nfree m < 4
  end.

Record space_kept pml4 m m' : Prop := {
  sk_ok : mem_ok off m';
  sk_wf : space_wf m' pml4;
  sk_grown : grown m m';
  sk_data : data_same m m' pml4;
  sk_plain : plain_kept (mem_ram m) (mem_ram m') pml4;
  sk_user : user_kept (mem_ram m) (mem_ram m') pml4;
  sk_tables : tables_grown m m' pml4;
}.

Lemma space_kept_refl pml4 m : mem_ok off m → space_wf m pml4 → space_kept pml4 m m.
Proof. intros Hm Hs. split; [done|done|apply grown_refl|by intros ?|by intros ?|by intros ?|intros x Hx; by left]. Qed.

Lemma tables_grown_alloc m m1 m2 f pml4 : allocated_frame m m1 f → tables_grown m1 m2 pml4 → grown m1 m2 → space_wf m2 pml4 →
  tables_grown m m2 pml4.
Proof.
  intros Ha Ht Hg Hs x Hx. pose proof (allocated_grown _ _ _ Ha) as [Htot Hr]. destruct Ha as (_ & _ & Hram & _).
  destruct (Ht x Hx) as [Hin|Hn]; [left; by rewrite <- Hram|right]. intros Hp. apply Hn.
  pose proof (proj1 (Forall_forall _ _) (sw_owned _ _ Hs) x Hx) as [(g & -> & Hgt) _]. rewrite Z.div_mul in * by done.
  destruct Hg as [Hg _]. destruct (Hr g ltac:(lia)) as [Hk _]. by rewrite Hk.
Qed.

Lemma map_user_page_ok pml4 va m : mem_ok off m → space_wf m pml4 → 0 ≤ va < 2 ^ 47 →
  plain_path (mem_ram m) 3 pml4 (page_of va) = true →
  wp (allocate_and_map_user_page (Some off) pml4 va m) (λ '(res, m'),
    space_kept pml4 m m' ∧ nfree m ≤ nfree m' + 4 ∧ user_page_result pml4 va m res m').
Proof.
  intros Hm Hs Hva Hplain. unfold allocate_and_map_user_page. rewrite (mapper_for_ok m) by done. cbn [obind].
  pose proof (page_of_page va Hva) as Hpage. set (page := page_of va) in *.
  pose proof (space_kept_refl pml4 m Hm Hs) as Hrefl. unfold user_page_result. fold page.
  rewrite (translate_page_spec m) by done. fold (mapped (mem_ram m) pml4 page).
  destruct (mapped (mem_ram m) pml4 page) eqn:Emap; [wp_step; split_and!; [done|lia|done]|].
  wp_step. eapply wp_mono; [by apply allocate_frame_ok|cbv beta]. intros [[p|] a] Ho.
  2: { destruct Ho as [-> Hall]. wp_step. assert (set_alloc m (mem_alloc m) = m) as -> by (by destruct m).
       rewrite (free_frames_none _ Hall). split_and!; try done. by left. }
  destruct Ho as (f & -> & Haf). pose proof (allocated_free _ _ _ Hm Haf) as Hfr. pose proof (allocated_facts _ _ _ _ Haf Hs) as (Hm1 & Hs1 & Hman & Hone & Hnt & Hph).
  pose proof Haf as (Hf & Hz & Hram & _). set (m1 := set_alloc m a) in *. rewrite Hph. cbn [obind]. wp_step.
  eapply wp_mono; [apply map_to_spec; rewrite ?Hram, ?Z.div_mul, ?Hone by done; try done; lia|cbv beta].
  intros [res m2] (Hm2 & Hs2 & Hg2 & Hd2 & Htg2 & Hpl2 & Huk2 & Hfr2 & Hres). pose proof (tables_grown_alloc _ _ _ _ _ Haf Htg2 Hg2 Hs2) as Htg.
  rewrite Hram in Huk2. pose proof (data_same_alloc _ _ _ _ _ Haf Hd2) as Hd.
  pose proof (grown_trans _ _ _ (allocated_grown _ _ _ Haf) Hg2) as Hg. rewrite Hram in Hres, Hpl2.
  destruct (owned_grown _ _ _ Hg2 Hman ltac:(rewrite Z.div_mul by done; lia)) as [Hman2 _].
  assert (refs (mem_alloc m2) f = 1) as Hone2 by (by apply (grown_refs m1)).
  assert (f * FRAME_SIZE ∉ pt_tables (mem_ram m2) 3 pml4) as Hnt2.
  { intros Hin. destruct (Htg2 _ Hin) as [Hin1|Hn]; [by rewrite Hram in Hin1|]. rewrite Z.div_mul in Hn by done. lia. }
  destruct res as [[]|e].
  2: { wp_step. destruct Hres as (Hres & _ & Hwhy). split; [by split|]. split; [lia|]. split_and!; [done| |].
       - right. split; [done|]. by exists f.
       - unfold map_failure in Hwhy. rewrite Hram, Emap in Hwhy. destruct e; [lia|done|done]. }
  destruct Hres as (Hslot & Hacc & Hoth).
  rewrite (window_ok off m2) by done. cbn [obind]. wp_step.
  destruct (managed_frame off m2 _ Hm2 Hman2) as (b & Hb2 & _). unfold zero. rewrite Hb2. wp_step. wp_step.
  destruct (data_write m2 pml4 (f * FRAME_SIZE) zero_frame) as (Hm3 & Hs3 & Ht3 & Hw3);
    try done; [apply Forall_replicate; lia|].
  split; [split; try done|split; [cbn [set_ram mem_alloc]; lia|]].
  - intros x Hx Hp Hxt. cbn [set_ram mem_ram]. rewrite lookup_insert_ne; [by apply Hd|].
    intros <-. rewrite Z.div_mul in Hp by done. lia.
  - intros x Hx Hpx. cbn [set_ram mem_ram]. destruct (Hw3 x) as (_ & _ & _ & _ & ->). by apply Hpl2.
  - intros x Hx Hux. cbn [set_ram mem_ram]. destruct (Hw3 x) as (_ & _ & -> & _). by apply Huk2.
  - intros x Hx. cbn [set_ram mem_ram] in Hx. rewrite Ht3 in Hx. by apply Htg.
  - exists f. split_and!; try lia; cbn [set_ram mem_ram mem_alloc]; try done.
    + destruct (Hw3 page) as (_ & -> & _). done.
    + by rewrite lookup_insert_eq.
    + destruct (Hw3 page) as (_ & _ & -> & _). by apply Hacc.
    + by rewrite Ht3.
    + intros x Hx Hne. destruct (Hw3 x) as (Hl & Hsl & _). eapply same_at_trans; [by apply Hoth|by apply same_at_slot].
Qed.

(** C15: mapping a user page.  On a well-formed space [allocate_and_map_user_page]
    returns; the space stays well formed, no frame is released, and all owned
    frames other than the space's tables keep their contents.  If the page was
    mapped nothing changes at all.  Otherwise success means that a frame that was
    free now backs the page: zeroed, owned once, accessible from ring 3, with all
    other translations as before; at most four frames are taken.  [OutOfFrames]
    means no frame was free, and changes nothing.  [InvalidMapping] means that fewer
    than four were free; it changes no translation, but the frame taken for the page
    is not given back: it stays owned although no table has it. *)
Theorem allocate_and_map_user_page_maps pml4 va m : mem_ok off m → space_wf m pml4 → 0 ≤ va < 2 ^ 47 →
  plain_path (mem_ram m) 3 pml4 (page_of va) = true →
  wp (allocate_and_map_user_page (Some off) pml4 va m) (λ '(res, m'),
    mem_ok off m' ∧ space_wf m' pml4 ∧ grown m m' ∧ data_same m m' pml4
    ∧ plain_kept (mem_ram m) (mem_ram m') pml4 ∧ nfree m ≤ nfree m' + 4
    ∧ match res with
      | Ok _ => if mapped (mem_ram m) pml4 (page_of va) then m' = m
                else ∃ f, user_page_added m m' pml4 (page_of va) f
      | Err e => (∀ a, 0 ≤ a < 2 ^ 47 → same_at (mem_ram m) (mem_ram m') pml4 a)
          ∧ ((e = Memory OutOfFrames ∧ m' = m ∧ ∀ g, 0 ≤ g < total_frames (mem_alloc m) → busy (mem_alloc m) g = true)
             ∨ (e = Memory InvalidMapping ∧ ∃ f, 0 ≤ f < total_frames (mem_alloc m) ∧ refs (mem_alloc m) f = 0
                  ∧ refs (mem_alloc m') f = 1 ∧ (f * FRAME_SIZE ∉ pt_tables (mem_ram m') 3 pml4)))
          ∧ nfree m < 4
      end).
Proof.
  intros Hm Hs Hva Hp. eapply wp_mono; [by apply map_user_page_ok|]. by intros [res m'] ([] & Hfr & Hres).
Qed.

(** ** Copy-on-write faults *)

(** Reading bytes from two neighbouring frames. *)
Lemma read_phys_app r n1 : ∀ p n2, read_phys r p (n1 + n2) =
  (l1 <- read_phys r p n1;; l2 <- read_phys r (p + Z.of_nat n1) n2;; Ret (l1 ++ l2)).
Proof.
  induction n1 as [|n1 IH]; intros p n2.
  - cbn [Nat.add read_phys obind]. rewrite Z.add_0_r. by destruct (read_phys r p n2).
  - cbn [Nat.add read_phys]. destruct (byte_at r p); [|done]. cbn [obind]. rewrite IH.
    replace (p + Z.of_nat (S n1)) with (p + 1 + Z.of_nat n1) by lia.
    destruct (read_phys r (p + 1) n1); [|done]. cbn [obind].
    by destruct (read_phys r (p + 1 + Z.of_nat n1) n2).
Qed.

Lemma page_in f k : f mod 4096 = 0 → 0 ≤ k < 4096 → page_of (f + k) = f ∧ (f + k) mod 4096 = k.
Proof. unfold page_of. zlia. Qed.

Lemma read_phys_in r f b n : r !! f = Some b → f mod 4096 = 0 → length b = 4096%nat →
  ∀ k, (k + n ≤ 4096)%nat → read_phys r (f + Z.of_nat k) n = Ret (take n (drop k b)).
Proof.
  intros Hb Hf Hl. induction n as [|n IH]; intros k Hk; [done|]. cbn [read_phys]. unfold byte_at.
  destruct (page_in f (Z.of_nat k) Hf) as [-> ->]; [lia|].
  rewrite Hb. unfold vget. rewrite Nat2Z.id. destruct (lookup_lt_is_Some_2 b k) as [x Hx]; [lia|].
  rewrite Hx. cbn [obind]. replace (f + Z.of_nat k + 1) with (f + Z.of_nat (S k)) by lia.
  rewrite IH by lia. cbn [obind]. by rewrite (drop_S b x k Hx).
Qed.

(** The page read from offset [k]: the rest of its frame and the start of the next. *)
Lemma read_phys_shifted r f b k nb : r !! f = Some b → f mod 4096 = 0 → length b = 4096%nat →
  0 ≤ k < 4096 → (k = 0 ∨ (r !! (f + 4096) = Some nb ∧ length nb = 4096%nat)) →
  read_phys r (f + k) 4096 = Ret (drop (Z.to_nat k) b ++ take (Z.to_nat k) nb).
Proof.
  intros Hb Hf Hl Hk Hnb. destruct (Z_of_nat_complete k) as [j ->]; [lia|]. rewrite Nat2Z.id.
  change 4096%nat with (Z.to_nat 4096). replace (Z.to_nat 4096) with ((4096 - j) + j)%nat by lia.
  rewrite read_phys_app, (read_phys_in _ _ b) by (done || lia). cbn [obind].
  rewrite take_ge by (rewrite length_drop; lia).
  replace (f + Z.of_nat j + Z.of_nat (4096 - j)) with (f + 4096 + Z.of_nat 0) by lia.
  destruct Hnb as [Hz|[Hnb Hln]].
  - assert (j = 0%nat) as -> by lia. cbn [read_phys obind take]. done.
  - rewrite (read_phys_in _ _ nb) by (done || lia || (clear -Hf; zlia)). cbn [obind]. by rewrite drop_0.
Qed.

Lemma splice_full (l b : list Z) : length l = length b → splice 0 l b = l.
Proof.
  intros Hl. unfold splice. cbn [Z.to_nat take app]. rewrite drop_ge; [by rewrite app_nil_r|lia].
Qed.

(** A page whose level-1 table exists has a plain path. *)
Lemma slot_plain r lvl a e : ∀ t, leaf_table r lvl t a = Some e → (lvl ≤ 3)%nat →
  (lvl = 3%nat → ∀ i, 0 ≤ i < 512 → Z.testbit (entry_of r t i) 7 = false) → plain_path r lvl t a = true.
Proof.
  induction lvl as [|l IH]; intros t Hl Hle Hres; [done|]. cbn [leaf_table plain_path] in *.
  destruct (descends _ _) eqn:Hd; [|done]. unfold descends in Hd. apply andb_true_iff in Hd as [Hb0 Hb7].
  rewrite Hb0, (IH _ Hl) by lia. apply orb_true_iff. right. rewrite andb_true_r. cbn [andb].
  destruct (decide (S l = 3%nat)) as [E|].
  - rewrite Hres; [done|done|apply idx_range].
  - rewrite (proj2 (Nat.ltb_lt _ _)) in Hb7 by lia. done.
Qed.

(** The flags of a present page, made writable. *)
Lemma cow_flags e : 0 ≤ e < 2 ^ 64 → Z.testbit e 0 = true → Z.testbit e 7 = false →
  page_flags (Z.lor (Z.ldiff e PHYS_MASK) FLAG_WRITABLE).
Proof.
  intros He Hb0 Hb7. assert (0 ≤ Z.ldiff e PHYS_MASK) as Hn by (apply Z.ldiff_nonneg; lia). repeat apply conj.
  - apply Z.lor_nonneg. by split.
  - apply (lor_range 64); [done| |done]. split; [done|].
    apply bits_bound; [done|done|]. intros i Hi. by rewrite Z.ldiff_spec, (bits_above 64) by lia.
  - apply Z.bits_inj'. intros n Hnn. rewrite Z.land_spec, Z.lor_spec, Z.ldiff_spec, Z.bits_0.
    destruct (Z.testbit PHYS_MASK n) eqn:Eb; [|by rewrite andb_false_r]. rewrite andb_true_r. cbn [negb].
    rewrite andb_false_r. cbn [orb]. destruct (decide (n = 1)) as [->|]; [done|].
    change FLAG_WRITABLE with (2 ^ 1). by rewrite Z.pow2_bits_false by lia.
  - rewrite Z.lor_spec, Z.ldiff_spec, Hb0. done.
  - rewrite Z.lor_spec, Z.ldiff_spec, Hb7. done.
Qed.

(** A present page of the space: its entry [e], in frame [f]. *)
Record present_page m (pml4 a e f : Z) : Prop := {
  pp_slot : slot (mem_ram m) pml4 a = Some e;
  pp_range : 0 ≤ e < 2 ^ 64;
  pp_present : Z.testbit e 0 = true;
  pp_small : Z.testbit e 7 = false;
  pp_frame : Z.land e PHYS_MASK = f * FRAME_SIZE;
  pp_managed : 0 ≤ f < total_frames (mem_alloc m);
}.

Lemma present_nonzero m pml4 a e f : present_page m pml4 a e f → e ≠ 0.
Proof. intros Hp ->. by pose proof (pp_present _ _ _ _ _ Hp). Qed.

Definition frame_at m (f : Z) : list Z := default [] (mem_ram m !! (f * FRAME_SIZE)).

(** The entry of a repaired page. *)
Definition writable_entry (e frame : Z) : Z := Z.lor frame (Z.lor (Z.ldiff e PHYS_MASK) FLAG_WRITABLE).

(** The page was moved to a new frame: what is in it, who owns what. *)
Definition cow_cloned m m' (pml4 page e f0 k : Z) : Prop := ∃ f,
  0 ≤ f < total_frames (mem_alloc m) ∧ refs (mem_alloc m) f = 0 ∧ refs (mem_alloc m') f = 1
  ∧ refs (mem_alloc m') f0 = refs (mem_alloc m) f0 - 1
  ∧ slot (mem_ram m') pml4 page = Some (writable_entry e (f * FRAME_SIZE))
  ∧ others_same (mem_ram m) (mem_ram m') pml4 page
  ∧ frame_at m' f = drop (Z.to_nat k) (frame_at m f0) ++ take (Z.to_nat k) (frame_at m (f0 + 1)).

Lemma frame_at_ok m f : mem_ok off m → 0 ≤ f < total_frames (mem_alloc m) →
  mem_ram m !! (f * FRAME_SIZE) = Some (frame_at m f) ∧ length (frame_at m f) = 4096%nat
  ∧ Forall (λ x, is_byte x) (frame_at m f).
Proof. intros Hm Hf. destruct (mo_ram off m Hm f Hf) as (b & Hb & Hl & Hby). unfold frame_at. by rewrite Hb. Qed.

Lemma ref_count_of m f k : mem_ok off m → 0 ≤ f < total_frames (mem_alloc m) → 0 ≤ k < 4096 →
  cow_get_ref_count (mem_alloc m) (f * FRAME_SIZE + k) = Ret (refs (mem_alloc m) f).
Proof.
  intros Hm Hf Hk. unfold cow_get_ref_count, get_ref_count.
  assert ((f * FRAME_SIZE + k) / FRAME_SIZE = f) as -> by (unfold FRAME_SIZE; zlia).
  rewrite (proj2 (Z.leb_gt _ _)) by lia. unfold vget.
  by destruct (count_lookup _ f (wf_shape _ (mo_wf _ _ Hm)) Hf) as [-> _].
Qed.

Lemma window_at m f k : mem_ok off m → 0 ≤ f < total_frames (mem_alloc m) → 0 ≤ k < 4096 →
  window off (f * FRAME_SIZE + k) = Ret tt.
Proof.
  intros Hm Hf Hk. pose proof (mo_hhdm off m Hm (f * FRAME_SIZE + k) ltac:(unfold FRAME_SIZE; lia)) as Hc.
  unfold window, uadd. rewrite checked_ok by (unfold canonical in Hc; lia). cbn [obind]. by rewrite virt_new_ok.
Qed.

(** The bytes the handler copies. *)
Lemma cow_bytes m f0 k : mem_ok off m → 0 ≤ f0 < total_frames (mem_alloc m) → 0 ≤ k < 4096 →
  (k = 0 ∨ f0 + 1 < total_frames (mem_alloc m)) →
  let bytes := drop (Z.to_nat k) (frame_at m f0) ++ take (Z.to_nat k) (frame_at m (f0 + 1)) in
  read_phys (mem_ram m) (f0 * FRAME_SIZE + k) 4096 = Ret bytes ∧ length bytes = 4096%nat
  ∧ Forall (λ x, is_byte x) bytes.
Proof.
  intros Hm Hf Hk Hn bytes. destruct (frame_at_ok m f0 Hm Hf) as (Hb & Hl & Hby).
  assert (k = 0 ∨ (mem_ram m !! (f0 * FRAME_SIZE + 4096) = Some (frame_at m (f0 + 1))
    ∧ length (frame_at m (f0 + 1)) = 4096%nat ∧ Forall (λ x, is_byte x) (frame_at m (f0 + 1)))) as Hnext.
  { destruct Hn as [?|Hn]; [by left|right]. destruct (frame_at_ok m (f0 + 1) Hm ltac:(lia)) as (Hb' & ?).
    by replace (f0 * FRAME_SIZE + 4096) with ((f0 + 1) * FRAME_SIZE) by (unfold FRAME_SIZE; lia). }
  split_and!.
  - apply read_phys_shifted; try done; [unfold FRAME_SIZE; zlia|]. destruct Hnext as [?|(? & ? & ?)]; [by left|by right].
  - unfold bytes. rewrite length_app, length_drop, length_take, Hl.
    destruct Hnext as [->|(_ & -> & _)]; [done|]. lia.
  - apply Forall_app. split; [by apply Forall_drop|]. destruct Hnext as [->|(_ & _ & ?)]; [done|by apply Forall_take].
Qed.

Lemma cow_sole cr3 a m e f0 : mem_ok off m → space_wf m cr3 → 0 ≤ a < 2 ^ 47 → present_page m cr3 a e f0 →
  ∃ r', update_flags (mem_ram m) cr3 (page_of a) (Z.lor (Z.ldiff e PHYS_MASK) FLAG_WRITABLE) = (Ok tt, r')
    ∧ mem_ok off (set_ram m r') ∧ space_wf (set_ram m r') cr3 ∧ data_same m (set_ram m r') cr3
    ∧ slot r' cr3 (page_of a) = Some (writable_entry e (f0 * FRAME_SIZE))
    ∧ others_same (mem_ram m) r' cr3 (page_of a).
Proof.
  intros Hm Hs Ha Hp. unfold writable_entry. rewrite <- (pp_frame _ _ _ _ _ Hp). destruct Hp.
  apply update_flags_spec; try done; [by apply page_of_page|by rewrite slot_page|by apply cow_flags].
Qed.

(** Installing the clone, once its bytes are in the new frame [f]. *)
Lemma cow_remap cr3 a m e f0 f : mem_ok off m → space_wf m cr3 → 0 ≤ a < 2 ^ 47 → present_page m cr3 a e f0 →
  user_parents (mem_ram m) 3 cr3 (page_of a) = true →
  managed m (f * FRAME_SIZE) → refs (mem_alloc m) f = 1 → f * FRAME_SIZE ∉ pt_tables (mem_ram m) 3 cr3 →
  ∃ r', unmap (mem_ram m) cr3 (page_of a) = (Ok (f0 * FRAME_SIZE), r')
    ∧ wp (map_to (system_allocate_frame (Some off)) (set_ram m r') cr3 (page_of a) (f * FRAME_SIZE)
            (Z.lor (Z.ldiff e PHYS_MASK) FLAG_WRITABLE)) (λ '(res, m'),
        res = Ok tt ∧ mem_ok off m' ∧ space_wf m' cr3 ∧ grown m m' ∧ data_same m m' cr3
        ∧ slot (mem_ram m') cr3 (page_of a) = Some (writable_entry e (f * FRAME_SIZE))
        ∧ others_same (mem_ram m) (mem_ram m') cr3 (page_of a)).
Proof.
  intros Hm Hs Ha Hp Hup Hman Hone Hnt. rewrite <- (pp_frame _ _ _ _ _ Hp). destruct Hp.
  pose proof (page_of_page a Ha) as Hpage.
  destruct (unmap_spec m cr3 (page_of a) e) as (r' & Hu & Hm' & Hs' & Hd' & Ht' & Hup' & Hslot' & Ho');
    try done; [by rewrite slot_page|].
  exists r'. split; [done|]. pose proof Hslot' as Hl. unfold slot in Hl.
  destruct (leaf_table r' 3 cr3 (page_of a)) as [lt|] eqn:El; [|done]. clear Hl.
  eapply wp_mono; [apply map_to_spec; try done; [by apply cow_flags| | |]|cbv beta].
  - cbn [set_ram mem_alloc]. rewrite Z.div_mul, Hone by done. done.
  - cbn [set_ram mem_ram]. by rewrite Ht'.
  - cbn [set_ram mem_ram]. eapply slot_plain; [exact El|done|]. intros _. apply (sw_reserved _ _ Hs').
  - intros [res m'] (Hm2 & Hs2 & Hg2 & Hd2 & _ & _ & _ & _ & Hres). cbn [set_ram mem_ram] in *. destruct res as [[]|x].
    + destruct Hres as (Hslot & _ & Ho). split_and!; try done.
      * intros x Hx Hpx Hxt. rewrite Hd2; cbn [set_ram mem_ram]; [by apply Hd'|done|done|by rewrite Ht'].
      * intros b Hb Hne. eapply same_at_trans; [by apply Ho'|by apply Ho].
    + destruct Hres as (_ & Hno & _). destruct Hno. by rewrite Hup'.
Qed.

(** Giving up one owner of a shared frame, by any address in it. *)
Lemma deallocate_shared s f k : WF s → 0 ≤ f < total_frames s → 0 ≤ k < 4096 → 1 < refs s f →
  wp (cow_deallocate_frame s (f * FRAME_SIZE + k)) (λ s', WF s' ∧ total_frames s' = total_frames s
    ∧ ∀ g, 0 ≤ g < total_frames s → refs s' g = if decide (g = f) then refs s f - 1 else refs s g).
Proof.
  intros Hwf Hf Hk Hr. assert ((f * FRAME_SIZE + k) / FRAME_SIZE = f) as Hd by (unfold FRAME_SIZE; zlia).
  eapply wp_mono; [apply deallocate_frame_deallocated; rewrite ?Hd; try done; unfold FRAME_SIZE; lia|cbv beta].
  intros s' [Hwf' Hde]. rewrite Hd in Hde. unfold deallocated in Hde.
  destruct (Z.eqb_spec (refs s f) 1); [lia|]. split_and!; [done|apply (upd_total _ _ _ _ _ Hde)|].
  intros g Hg. by rewrite (upd_refs _ _ _ _ _ Hde).
Qed.

Lemma space_wf_alloc m s pml4 : space_wf m pml4 → total_frames s = total_frames (mem_alloc m) →
  (∀ g, 0 ≤ g < total_frames s → 0 < refs (mem_alloc m) g → 0 < refs s g) → space_wf (set_alloc m s) pml4.
Proof.
  intros [Hnd Hown Hres] Ht Hr. split; [done| |done]. eapply Forall_impl; [exact Hown|].
  intros x [(f & -> & Hf) Hp]. rewrite Z.div_mul in * by done. split; [exists f; cbn [set_alloc mem_alloc]; by rewrite Ht|].
  apply Hr; [by rewrite Ht|done].
Qed.

(** A frame was cloned into [f] and the page moved: the bookkeeping at the end. *)
Lemma cow_finish cr3 a m m1 m3 e f0 f k : allocated_frame m m1 f → 0 ≤ f0 < total_frames (mem_alloc m) →
  0 ≤ k < 4096 → 1 < refs (mem_alloc m) f0 → grown m1 m3 → mem_ok off m3 → space_wf m3 cr3 →
  slot (mem_ram m3) cr3 (page_of a) = Some (writable_entry e (f * FRAME_SIZE)) →
  others_same (mem_ram m) (mem_ram m3) cr3 (page_of a) →
  frame_at m3 f = drop (Z.to_nat k) (frame_at m f0) ++ take (Z.to_nat k) (frame_at m (f0 + 1)) →
  wp (cow_deallocate_frame (mem_alloc m3) (f0 * FRAME_SIZE + k)) (λ s,
    mem_ok off (set_alloc m3 s) ∧ space_wf (set_alloc m3 s) cr3
    ∧ cow_cloned m (set_alloc m3 s) cr3 (page_of a) e f0 k).
Proof.
  intros Haf Hf0 Hk Hr Hg Hm3 Hs3 Hslot Hoth Hbytes. pose proof (proj1 Hg) as Ht3.
  pose proof Haf as (Hf & Hz & _ & Ht1 & _ & Hr1).
  assert (refs (mem_alloc m1) f0 = refs (mem_alloc m) f0) as Hk1.
  { rewrite Hr1 by done. rewrite decide_False; [done|]. intros ->. lia. }
  assert (refs (mem_alloc m3) f0 = refs (mem_alloc m) f0) as Hk0.
  { apply (grown_refs m1); try done; [exists f0; by rewrite Ht1|lia]. }
  assert (refs (mem_alloc m3) f = 1) as Hone.
  { apply (grown_refs m1); try done; [exists f; by rewrite Ht1|]. rewrite Hr1 by done. by rewrite decide_True. }
  eapply wp_mono; [apply deallocate_shared; [apply (mo_wf _ _ Hm3)|lia|lia|lia]|cbv beta].
  intros s (Hwf & Ht & Hrs). assert (f ≠ f0) as Hne by (intros ->; lia). split_and!.
  - by apply (mem_ok_frames off m3).
  - apply space_wf_alloc; [done|done|]. intros g Hgt Hpos. rewrite Hrs by lia. case_decide; subst; lia.
  - exists f. split_and!; try lia; try done; cbn [set_alloc mem_alloc]; rewrite Hrs by lia.
    + by rewrite decide_False.
    + rewrite decide_True by done. lia.
Qed.

(** Copying the bytes into the fresh frame and moving the page to it. *)
Lemma cow_install cr3 a m1 e f0 f bytes : mem_ok off m1 → space_wf m1 cr3 → 0 ≤ a < 2 ^ 47 →
  present_page m1 cr3 a e f0 → user_parents (mem_ram m1) 3 cr3 (page_of a) = true →
  managed m1 (f * FRAME_SIZE) → refs (mem_alloc m1) f = 1 → f * FRAME_SIZE ∉ pt_tables (mem_ram m1) 3 cr3 →
  length bytes = 4096%nat → Forall (λ x, is_byte x) bytes →
  ∃ r', unmap (<[f * FRAME_SIZE := bytes]> (mem_ram m1)) cr3 (page_of a) = (Ok (f0 * FRAME_SIZE), r')
    ∧ wp (map_to (system_allocate_frame (Some off)) (set_ram m1 r') cr3 (page_of a) (f * FRAME_SIZE)
            (Z.lor (Z.ldiff e PHYS_MASK) FLAG_WRITABLE)) (λ '(res, m'),
        res = Ok tt ∧ mem_ok off m' ∧ space_wf m' cr3 ∧ grown m1 m'
        ∧ slot (mem_ram m') cr3 (page_of a) = Some (writable_entry e (f * FRAME_SIZE))
        ∧ others_same (mem_ram m1) (mem_ram m') cr3 (page_of a) ∧ frame_at m' f = bytes).
Proof.
  intros Hm Hs Ha Hp Hup Hman Hone Hnt Hlen Hby.
  destruct (data_write m1 cr3 (f * FRAME_SIZE) bytes) as (Hm2 & Hs2 & Ht2 & Hw2); try done.
  set (r2 := <[f * FRAME_SIZE := bytes]> (mem_ram m1)) in *.
  assert (f * FRAME_SIZE ∉ pt_tables r2 3 cr3) as Hnt2 by (by rewrite Ht2).
  destruct (cow_remap cr3 a (set_ram m1 r2) e f0 f) as (r' & Hu & Hmap); try done.
  { destruct Hp. split; try done. destruct (Hw2 a) as (_ & Hsl & _). cbn [set_ram mem_ram]. by rewrite Hsl. }
  { destruct (Hw2 (page_of a)) as (_ & _ & _ & Hup2 & _). cbn [set_ram mem_ram]. by rewrite Hup2. }
  exists r'. split; [exact Hu|]. eapply wp_mono; [exact Hmap|cbv beta].
  intros [res m3] (Hres & Hm3 & Hs3 & Hg3 & Hd3 & Hslot & Hoth). split_and!; try done.
  - intros x Hx Hne. destruct (Hw2 x) as (Hl & Hsl & _). eapply same_at_trans; [by apply same_at_slot|by apply Hoth].
  - unfold frame_at. rewrite Hd3; cbn [set_ram mem_ram mem_alloc]; [|done| |done].
    + unfold r2. by rewrite lookup_insert_eq.
    + by rewrite Z.div_mul, Hone.
Qed.

(** C38: repairing a copy-on-write fault.  On a present user page of a well-formed
    space [resolve_cow_fault] returns, and leaves the memory and the space well
    formed.  If the frame has one owner the page becomes writable in place and no
    frame count changes.  Otherwise it fails exactly when no frame is free, changing
    nothing; or it moves the page, writable, to a frame that was free, gives up one
    owner of the old frame and keeps all other translations.  The new frame holds
    the old one from the offset [k] of the faulting address on, followed by the
    first [k] bytes of the frame after it: a copy of the page only for [k = 0]. *)
Theorem resolve_cow_fault_repairs cr3 a m e f0 : mem_ok off m → space_wf m cr3 → 0 ≤ a < 2 ^ 47 →
  present_page m cr3 a e f0 → user_parents (mem_ram m) 3 cr3 (page_of a) = true → 0 < refs (mem_alloc m) f0 →
  (a mod 4096 = 0 ∨ f0 + 1 < total_frames (mem_alloc m)) →
  wp (resolve_cow_fault (Some off) cr3 a m) (λ '(ok, m'), mem_ok off m' ∧ space_wf m' cr3 ∧
    if refs (mem_alloc m) f0 =? 1
    then ok = true ∧ mem_alloc m' = mem_alloc m ∧ data_same m m' cr3
         ∧ slot (mem_ram m') cr3 (page_of a) = Some (writable_entry e (f0 * FRAME_SIZE))
         ∧ others_same (mem_ram m) (mem_ram m') cr3 (page_of a)
    else if ok then cow_cloned m m' cr3 (page_of a) e f0 (a mod 4096)
    else m' = m ∧ ∀ g, 0 ≤ g < total_frames (mem_alloc m) → busy (mem_alloc m) g = true).
Proof.
  intros Hm Hs Ha Hp Hup Hpos Hnext. unfold resolve_cow_fault. rewrite (mapper_for_ok m) by done. cbn [obind].
  pose proof (present_nonzero _ _ _ _ _ Hp) as Hnz. pose proof (pp_managed _ _ _ _ _ Hp) as Hf0.
  assert (0 ≤ a mod 4096 < 4096) as Hk by zlia.
  rewrite (translate_addr_spec m cr3 a e), (translate_flags_spec m cr3 a e) by (done || apply Hp).
  rewrite (proj2 (Z.eqb_neq e 0)), (pp_frame _ _ _ _ _ Hp), ref_count_of by done. cbn [obind].
  set (k := a mod 4096) in *. rewrite (proj2 (Z.eqb_neq _ 0)) by lia. destruct (Z.eqb_spec (refs (mem_alloc m) f0) 1) as [E|E].
  { destruct (cow_sole cr3 a m e f0) as (r' & -> & ?); try done. wp_step. tauto. }
  wp_step. eapply wp_mono; [by apply allocate_frame_ok|cbv beta]. intros [[p|] s] Ho.
  2: { destruct Ho as [-> Hall]. wp_step. assert (set_alloc m (mem_alloc m) = m) as -> by (by destruct m). done. }
  destruct Ho as (f & -> & Haf). pose proof (allocated_facts _ _ _ _ Haf Hs) as (Hm1 & Hs1 & Hman & Hone & Hnt & Hph).
  pose proof Haf as (Hf & Hz & Hram & Ht1 & _). set (m1 := set_alloc m s) in *.
  destruct (cow_bytes m f0 k Hm Hf0 Hk Hnext) as (Hrd & Hlen & Hby). rewrite Hph. cbn [obind].
  rewrite (window_at m), (window_ok off m1), Hram, Hrd by done. cbn [obind].
  unfold write_frame. destruct (frame_at_ok m f Hm Hf) as (Hbf & Hlf & _). rewrite Hbf, splice_full by congruence.
  set (bytes := drop _ _ ++ _) in *. cbn [obind].
  destruct (cow_install cr3 a m1 e f0 f bytes) as (r' & Hu & Hmap); try done; try by rewrite Hram.
  { destruct Hp. split; rewrite ?Hram, ?Ht1; done. }
  rewrite <- Hram, Hu. wp_step. eapply wp_mono; [exact Hmap|cbv beta].
  intros [res m3] (-> & Hm3 & Hs3 & Hg3 & Hslot & Hoth & Hbytes). rewrite Hram in Hoth. wp_step.
  eapply wp_mono; [apply (cow_finish cr3 a m m1 m3 e f0 f k); try done; lia|cbv beta]. intros s3 ?. by wp_step.
Qed.
End MapPage.

(** ** Witnesses *)

Lemma sample_mapper : @MapperSpec Sample.off true masked_phys_new table_mapper.
Proof. exact (@table_mapper_spec true masked_phys_new masked_phys_new_spec Sample.off). Qed.

Module SpaceSample.
(** The memory of [Paging.Sample] with frame 9 owned as the kernel's table, and
    with 38 more free frames. *)
Definition frames : BitmapFrameAllocator :=
  mkAlloc [63; 2; 0; 0; 0; 0] ([1; 1; 1; 1; 1; 2; 0; 0; 0; 1] ++ replicate 38 0) 48 6.
Definition memory : ram :=
  list_to_map (imap (λ i b, (Z.of_nat i * FRAME_SIZE, b)) (Sample.contents ++ replicate 38 zero_frame)).
Definition m : mem := mkMem frames memory.

Lemma space_ok : mem_ok Sample.off m.
Proof.
  split.
  - by apply wf_check_sound.
  - vm_compute. discriminate.
  - right. vm_compute. split; [discriminate|reflexivity].
  - intros p Hp. change (total_frames (mem_alloc m) * FRAME_SIZE) with 196608 in Hp. right. unfold Sample.off. lia.
  - intros f Hf. apply Sample.frame_okb_sound.
    apply (all_below_spec 48 (λ f, Sample.frame_okb memory (f * FRAME_SIZE))); [vm_compute; reflexivity|exact Hf].
Qed.

Lemma pt_tables_eq : pt_tables memory 3 4096 = [0x1000; 0x2000; 0x3000; 0x4000; 0x9000].
Proof. vm_compute. reflexivity. Qed.

Lemma sample_space_wf : space_wf m 4096.
Proof.
  split; cbn [m mem_ram mem_alloc].
  - rewrite pt_tables_eq. apply (bool_decide_unpack _). vm_compute. exact I.
  - rewrite pt_tables_eq. apply Forall_and. split; [|by repeat constructor].
    eapply Forall_impl; [exact (Sample.managedb_sound [0x1000; 0x2000; 0x3000; 0x4000; 0x9000] eq_refl)|].
    intros x (f & -> & Hf). exists f. split; [reflexivity|]. cbn in *. lia.
  - intros i Hi. apply (all_below_spec 512 (λ i, negb (Z.testbit (entry_of memory 4096 i) 7))) in Hi;
      [by apply negb_true_iff|vm_compute; reflexivity].
Qed.

Lemma free_frames_sample : nfree m = 41.
Proof. vm_compute. reflexivity. Qed.
End SpaceSample.

Lemma allocate_and_map_user_page_maps_witness :
  wp (@allocate_and_map_user_page true checked_virt_new masked_phys_new table_mapper (Some Sample.off) 4096 0x6123 SpaceSample.m)
     (λ '(res, m'), res = Ok tt ∧ ∃ f, user_page_added SpaceSample.m m' 4096 0x6000 f).
Proof.
  eapply wp_mono; [apply (@allocate_and_map_user_page_maps true checked_virt_new checked_virt_new_spec masked_phys_new
    masked_phys_new_spec Sample.off table_mapper sample_mapper 4096 0x6123 SpaceSample.m
    SpaceSample.space_ok SpaceSample.sample_space_wf)|].
  - lia.
  - vm_compute. reflexivity.
  - intros [[[]|e] m'] (_ & _ & _ & _ & _ & _ & Hr); [split; [reflexivity|exact Hr]|].
    destruct Hr as (_ & _ & Hf). rewrite SpaceSample.free_frames_sample in Hf. discriminate Hf.
Defined.

Lemma resolve_cow_fault_repairs_witness :
  wp (@resolve_cow_fault true checked_virt_new masked_phys_new table_mapper (Some Sample.off) 4096 0x5123 SpaceSample.m)
     (λ '(ok, m'), if ok then cow_cloned SpaceSample.m m' 4096 0x5000 0x5007 5 0x123 else m' = SpaceSample.m).
Proof.
  eapply wp_mono; [apply (@resolve_cow_fault_repairs true checked_virt_new checked_virt_new_spec masked_phys_new
    masked_phys_new_spec Sample.off table_mapper sample_mapper 4096 0x5123 SpaceSample.m 0x5007 5
    SpaceSample.space_ok SpaceSample.sample_space_wf)|].
  - lia.
  - split; try (vm_compute; reflexivity); vm_compute; split; done.
  - vm_compute. reflexivity.
  - reflexivity.
  - right. reflexivity.
  - intros [[] m'] (_ & _ & Hr); [exact Hr|exact (proj1 Hr)].
Defined.
