(* ===== verification/UserMem.v ===== *)
(** * User memory

    How the kernel reaches the memory of a task: through the pointers of the task,
    translated by the processor's walk of the page tables, or through the direct
    map.  [views m pml4 um] is the abstract view the loader and the system calls
    are proved against: the pages [um] of a space, each with its bytes, each backed
    by a frame of its own that ring 3 can reach.  Mapping a page extends the view
    by a zeroed page, and writing changes the bytes of one page. *)

From S2P Require Import Prelude KError X86 FrameAlloc Paging PageTree PageMapper AddrSpace.

#[local] Open Scope list_scope.

(** ** Memory accesses *)

(** Writing bytes of physical memory. *)
Definition store_phys (r : ram) (p x : Z) : outcome ram :=
  match r !! page_of p with
  | Some b => b <- vset b (p mod 4096) x;; Ret (<[page_of p := b]> r)
  | None => Stop OutOfBounds
  end.

Fixpoint write_phys (r : ram) (p : Z) (l : list Z) : outcome ram :=
  match l with
  | [] => Ret r
  | x :: l => r <- store_phys r p x;; write_phys r (p + 1) l
  end.

(** The physical address of a linear address: the frame of the leaf entry, which
    is larger for a leaf at a higher level. *)
Definition phys_of (r : ram) (cr3 a : Z) : option Z :=
  match leaf_walk r 3 cr3 a with
  | Some (l, e) =>
      let size := 2 ^ (12 + 9 * Z.of_nat l) in
      Some (Z.land e PHYS_MASK / size * size + a mod size)
  | None => None
  end.

(** Dereferencing a pointer in the kernel: an address without a translation is a
    fault.  The user pages the kernel maps are all writable, so that write
    protection plays no role. *)
Definition load_virt (r : ram) (cr3 a : Z) : outcome Z :=
  match phys_of r cr3 a with Some p => byte_at r p | None => Stop OutOfBounds end.
Definition store_virt (r : ram) (cr3 a x : Z) : outcome ram :=
  match phys_of r cr3 a with Some p => store_phys r p x | None => Stop OutOfBounds end.

Fixpoint load_bytes (r : ram) (cr3 a : Z) (n : nat) : outcome (list Z) :=
  match n with
  | O => Ret []
  | S n => x <- load_virt r cr3 a;; l <- load_bytes r cr3 (a + 1) n;; Ret (x :: l)
  end.

Fixpoint store_bytes (r : ram) (cr3 a : Z) (l : list Z) : outcome ram :=
  match l with
  | [] => Ret r
  | x :: l => r <- store_virt r cr3 a x;; store_bytes r cr3 (a + 1) l
  end.

(** ** Bytes of a frame *)

Lemma splice_cons {A} (b l : list A) (x : A) k : (k < length b)%nat →
  splice (Z.of_nat (S k)) l (<[k := x]> b) = splice (Z.of_nat k) (x :: l) b.
Proof.
  intros Hk. unfold splice. rewrite !Nat2Z.id. rewrite (take_S_r _ k x) by (by apply list_lookup_insert_eq).
  rewrite take_insert_ge by lia. rewrite <- app_assoc. cbn [app length]. do 3 f_equal.
  rewrite drop_insert_lt by lia. f_equal. lia.
Qed.

Lemma lookup_splice {A} (l new : list A) o i : 0 ≤ o → o + Z.of_nat (length new) ≤ Z.of_nat (length l) → 0 ≤ i →
  splice o new l !! Z.to_nat i
  = if (o <=? i) && (i <? o + Z.of_nat (length new)) then new !! Z.to_nat (i - o) else l !! Z.to_nat i.
Proof.
  intros Ho Hl Hi. unfold splice. destruct (Z.leb_spec o i); cbn [andb].
  - rewrite lookup_app_r by (rewrite length_take; lia). rewrite length_take.
    destruct (Z.ltb_spec i (o + Z.of_nat (length new))).
    + rewrite lookup_app_l by lia. f_equal. lia.
    + rewrite lookup_app_r by lia. rewrite lookup_drop. f_equal. lia.
  - rewrite lookup_app_l by (rewrite length_take; lia). by rewrite lookup_take_lt by lia.
Qed.

Lemma write_phys_in f : f mod 4096 = 0 → ∀ l r b k, r !! f = Some b → length b = 4096%nat → (k + length l ≤ 4096)%nat →
  write_phys r (f + Z.of_nat k) l = Ret (<[f := splice (Z.of_nat k) l b]> r).
Proof.
  intros Hf. induction l as [|x l IH]; intros r b k Hb Hlen Hk; cbn [write_phys length] in *.
  { unfold splice. cbn [app length]. rewrite Nat.add_0_r, take_drop. by rewrite insert_id. }
  unfold store_phys. destruct (page_in f (Z.of_nat k) Hf) as [-> ->]; [lia|]. rewrite Hb. unfold vset. rewrite Nat2Z.id.
  destruct (lookup_lt_is_Some_2 b k) as [y Hy]; [lia|]. rewrite Hy. cbn [obind].
  replace (f + Z.of_nat k + 1) with (f + Z.of_nat (S k)) by lia.
  rewrite (IH _ (<[k := x]> b)); [|by rewrite lookup_insert_eq|by rewrite length_insert|lia].
  rewrite insert_insert_eq. by rewrite splice_cons by lia.
Qed.

(** ** Pages of a space *)

Lemma entry_frame f fl : 0 ≤ f * FRAME_SIZE < 2 ^ 52 → Z.land fl PHYS_MASK = 0 →
  Z.land (Z.lor (f * FRAME_SIZE) fl) PHYS_MASK = f * FRAME_SIZE.
Proof.
  intros Hf Hfl. rewrite Z.land_lor_distr_l, Hfl, Z.lor_0_r. unfold FRAME_SIZE in *.
  change PHYS_MASK with (Z.shiftl (Z.ones 40) 12). change 4096 with (2 ^ 12) in *.
  rewrite <- Z.shiftl_mul_pow2 by lia. rewrite <- Z.shiftl_land, Z.land_ones by lia. f_equal. apply Z.mod_small. lia.
Qed.

Lemma entry_present f : Z.testbit (Z.lor (f * FRAME_SIZE) 7) 0 = true ∧ Z.lor (f * FRAME_SIZE) 7 ≠ 0.
Proof.
  assert (Z.testbit (Z.lor (f * FRAME_SIZE) 7) 0 = true) as Hb by (rewrite Z.lor_spec; apply orb_true_r).
  split; [done|]. intros E. by rewrite E in Hb.
Qed.

(** A present entry of a level-1 table is the leaf of the walk, and back. *)
Lemma walk_slot r lvl a e : ∀ t, leaf_walk r lvl t a = Some (0%nat, e) →
  (λ x, entry_of r x (idx 0 a)) <$> leaf_table r lvl t a = Some e.
Proof.
  induction lvl as [|l IH]; intros t Hw; cbn [leaf_walk leaf_table] in *.
  { fold (idx 0 a) in Hw. destruct (Z.testbit _ 0); [|done]. by injection Hw as <-. }
  fold (idx (S l) a) in Hw. set (x := entry_of r t (idx (S l) a)) in *. unfold descends.
  destruct (Z.testbit x 0); [|done]. destruct ((S l <? 3)%nat && Z.testbit x 7); [done|]. cbn [andb negb]. by apply IH.
Qed.

Lemma slot_walk r pml4 a e : slot r pml4 a = Some e → Z.testbit e 0 = true → leaf_walk r 3 pml4 a = Some (0%nat, e).
Proof. intros (t & Hl & <-)%leaf_slot Hb. destruct (leaf_walk_slot _ _ _ _ _ Hl) as [-> _]. cbv zeta. by rewrite Hb. Qed.

Section Views.
Context (off : Z).
(** The frames the pages may use. *)
Context (F : Z → Prop).
Implicit Types (m : mem) (um : gmap Z (list Z)).

Record page_at m (pml4 p f : Z) (b : list Z) : Prop := {
  pa_page : is_page p;
  pa_slot : slot (mem_ram m) pml4 p = Some (Z.lor (f * FRAME_SIZE) 7);
  pa_frame : 0 ≤ f < total_frames (mem_alloc m);
  pa_owned : 0 < refs (mem_alloc m) f;
  pa_data : f * FRAME_SIZE ∉ pt_tables (mem_ram m) 3 pml4;
  pa_bytes : mem_ram m !! (f * FRAME_SIZE) = Some b;
  pa_user : user_accessible (mem_ram m) pml4 p = true;
  pa_allowed : F f;
}.

Definition views m (pml4 : Z) um : Prop :=
  ∃ fm : Z → Z, (∀ p b, um !! p = Some b → page_at m pml4 p (fm p) b)
    ∧ ∀ p q, is_Some (um !! p) → is_Some (um !! q) → fm p = fm q → p = q.

Lemma views_empty m pml4 : views m pml4 ∅.
Proof. exists id. split; [by intros p b ?%lookup_empty_Some|]. by intros p q [? ?%lookup_empty_Some]. Qed.

Lemma page_at_bytes m pml4 p f b : mem_ok off m → page_at m pml4 p f b →
  length b = 4096%nat ∧ Forall (λ x, is_byte x) b ∧ 0 ≤ f * FRAME_SIZE < 2 ^ 52.
Proof.
  intros Hm []. destruct (mo_ram _ _ Hm f pa_frame0) as (b' & Hb & Hl & Hby). pose proof (mo_phys _ _ Hm).
  rewrite pa_bytes0 in Hb. injection Hb as <-. split_and!; [done|done|unfold FRAME_SIZE in *; lia..].
Qed.

(** Pages stay as they are when their translation does. *)
Lemma page_at_kept m m' pml4 p f b : space_kept off pml4 m m' → same_at (mem_ram m) (mem_ram m') pml4 p →
  page_at m pml4 p f b → page_at m' pml4 p f b.
Proof.
  intros [Hm' Hs' Hg Hd Hpl Hu Ht] [Hw _] [Hp Hsl Hf Ho Hn Hb Ha HF]. destruct Hg as [Htot Hr].
  assert (managed m (f * FRAME_SIZE)) as Hman by (by exists f).
  split; try done.
  - apply walk_slot. rewrite Hw. apply slot_walk; [done|apply entry_present].
  - by rewrite Htot.
  - destruct (Hr f Hf). lia.
  - intros Hin. destruct (Ht _ Hin) as [|Hz]; [done|]. by rewrite Z.div_mul in Hz.
  - rewrite Hd; try done. by rewrite Z.div_mul.
  - apply Hu; [apply Hp|done].
Qed.

Lemma views_kept m m' pml4 um : space_kept off pml4 m m' →
  (∀ p, is_Some (um !! p) → same_at (mem_ram m) (mem_ram m') pml4 p) → views m pml4 um → views m' pml4 um.
Proof.
  intros Hk Hsame (fm & Hp & Hinj). exists fm. split; [|done]. intros p b Hb.
  apply (page_at_kept m m' pml4 p); [done| |by apply Hp]. apply Hsame. by eexists.
Qed.

(** A page that was added is zeroed. *)
Lemma views_added m m' pml4 p f um : F f → space_kept off pml4 m m' → is_page p → um !! p = None →
  user_page_added m m' pml4 p f → views m pml4 um → views m' pml4 (<[p := zero_frame]> um).
Proof.
  intros HF Hk Hp Hn (Hf & Hz & Hone & Hsl & Hb & Ha & Hnt & Ho) (fm & Hpg & Hinj).
  assert (∀ q, is_Some (um !! q) → p ≠ q) as Hne by (intros q [b Hq] ->; congruence).
  assert (∀ q, is_Some (um !! q) → fm q ≠ f) as Hfne.
  { intros q [b Hq] E. destruct (Hpg q b Hq). subst f. lia. }
  exists (λ q, if decide (q = p) then f else fm q). split.
  - intros q b Hq. destruct (decide (q = p)) as [->|Hqp].
    + rewrite lookup_insert_eq in Hq. injection Hq as <-. pose proof (proj1 (sk_grown _ _ _ _ Hk)) as Htot.
      split; try done; [by rewrite Htot|lia].
    + rewrite lookup_insert_ne in Hq by done. apply (page_at_kept m); [done| |by apply Hpg].
      destruct (Hpg q b Hq) as [[Hq1 Hq2] _ _ _ _ _ _ _]. apply Ho; [done|]. unfold page_of. rewrite Hq2. lia.
  - intros x y [Hx|Hx]%lookup_insert_is_Some' [Hy|Hy]%lookup_insert_is_Some'; subst; try done.
    + rewrite decide_True by done. case_decide; [done|]. intros E. by destruct (Hfne y Hy).
    + rewrite (decide_True (P := y = y)) by done. case_decide; [done|]. intros E. by destruct (Hfne x Hx).
    + rewrite !decide_False by (by apply not_eq_sym, Hne). by apply Hinj.
Qed.

(** Replacing the bytes of a page. *)
Lemma views_data m pml4 um p f b b' : mem_ok off m → space_wf m pml4 → views m pml4 um → um !! p = Some b →
  page_at m pml4 p f b → length b' = 4096%nat → Forall (λ x, is_byte x) b' →
  let m' := set_ram m (<[f * FRAME_SIZE := b']> (mem_ram m)) in
  mem_ok off m' ∧ space_wf m' pml4 ∧ views m' pml4 (<[p := b']> um)
  ∧ pt_tables (mem_ram m') 3 pml4 = pt_tables (mem_ram m) 3 pml4
  ∧ ∀ a, same_at (mem_ram m) (mem_ram m') pml4 a ∧ plain_path (mem_ram m') 3 pml4 a = plain_path (mem_ram m) 3 pml4 a.
Proof.
  intros Hm Hs (fm & Hpg & Hinj) Hb Hp Hl Hby m'. pose proof (Hpg p b Hb) as Hp'.
  assert (fm p = f) as Ef.
  { destruct (page_at_bytes _ _ _ _ _ Hm Hp) as (_ & _ & H1), (page_at_bytes _ _ _ _ _ Hm Hp') as (_ & _ & H2).
    pose proof (pa_slot _ _ _ _ _ Hp) as E. rewrite (pa_slot _ _ _ _ _ Hp') in E. injection E as E.
    apply (f_equal (λ e, Z.land e PHYS_MASK)) in E. rewrite !entry_frame in E by done. unfold FRAME_SIZE in E. lia. }
  destruct (data_write off m pml4 (f * FRAME_SIZE) b') as (Hm2 & Hs2 & Ht2 & Hw2); try done; [apply Hp|].
  split_and!; [done|done| |done|].
  - exists fm. split.
    + intros q x Hq. destruct (decide (q = p)) as [->|Hne].
      * rewrite lookup_insert_eq in Hq. injection Hq as <-. rewrite Ef. destruct Hp. destruct (Hw2 p) as (_ & Hsl & Hu & _).
        split; cbn [m' set_ram mem_ram mem_alloc]; rewrite ?Ht2, ?Hsl, ?Hu; try done. by rewrite lookup_insert_eq.
      * rewrite lookup_insert_ne in Hq by done. destruct (Hpg q x Hq). destruct (Hw2 q) as (_ & Hsl & Hu & _).
        split; cbn [m' set_ram mem_ram mem_alloc]; rewrite ?Ht2, ?Hsl, ?Hu; try done. rewrite lookup_insert_ne; [done|].
        intros E. apply Hne, Hinj; [by eexists|by eexists|]. unfold FRAME_SIZE in E. lia.
    + intros x y Hx Hy. apply Hinj; [apply lookup_insert_is_Some in Hx as [<-|[_ ?]]|apply lookup_insert_is_Some in Hy as [<-|[_ ?]]]; done || by eexists.
  - intros a. destruct (Hw2 a) as (Hlw & Hsl & _ & _ & Hpl). split; [by apply same_at_slot|done].
Qed.

(** The frame of a page, as the processor and the mapper see it. *)
Lemma page_phys m pml4 p f b a : mem_ok off m → page_at m pml4 p f b → page_of a = p →
  phys_of (mem_ram m) pml4 a = Some (f * FRAME_SIZE + a mod 4096).
Proof.
  intros Hm Hp <-. destruct (page_at_bytes _ _ _ _ _ Hm Hp) as (_ & _ & Hf). unfold phys_of.
  rewrite <- (proj1 (proj2 (walk_page _ a 3 _))).
  rewrite (slot_walk _ _ _ _ (pa_slot _ _ _ _ _ Hp) (proj1 (entry_present f))). change (2 ^ (12 + 9 * Z.of_nat 0)) with 4096.
  rewrite entry_frame by done. unfold FRAME_SIZE. by rewrite Z.div_mul.
Qed.

(** Reading a byte of a page. *)
Lemma views_load m pml4 um a b x : mem_ok off m → views m pml4 um → um !! page_of a = Some b →
  b !! Z.to_nat (a mod 4096) = Some x → load_virt (mem_ram m) pml4 a = Ret x.
Proof.
  intros Hm (fm & Hpg & _) Hb Hx. pose proof (Hpg _ _ Hb) as Hp. unfold load_virt. rewrite (page_phys _ _ _ _ _ _ Hm Hp eq_refl).
  unfold byte_at. destruct (page_in (fm (page_of a) * FRAME_SIZE) (a mod 4096)) as [-> ->]; [unfold FRAME_SIZE; zlia|zlia|].
  rewrite (pa_bytes _ _ _ _ _ Hp). unfold vget. by rewrite Hx.
Qed.
End Views.
