(* ===== verification/UserSpace.v ===== *)
(** * The memory of a task

    [uspace m pml4 um] relates an address space to the memory its task sees: the
    pages [um] with their bytes.  Unlike [views], [um] holds all pages of the lower
    half that ring 3 can reach.  Pointers of the task are then reads and writes of
    [um] ([ubytes], [uwrite]), mapping a page adds a zeroed page, and neither
    touches a frame that belongs to somebody else ([isolated]). *)

From S2P Require Import Prelude KError X86 FrameAlloc Paging PageTree PageMapper AddrSpace UserMem.

#[local] Open Scope list_scope.

(** ** Bytes *)

Abbreviation umem := (gmap Z (list Z)).
Implicit Types (m : mem) (um : umem).

Definition ubyte um (a : Z) : option Z := um !! page_of a ≫= λ b, b !! Z.to_nat (a mod 4096).

Definition uput um (a x : Z) : umem :=
  match um !! page_of a with
  | Some b => <[page_of a := <[Z.to_nat (a mod 4096) := x]> b]> um
  | None => um
  end.

Fixpoint uwrite um (a : Z) (l : list Z) : umem :=
  match l with [] => um | x :: l => uwrite (uput um a x) (a + 1) l end.

Fixpoint ubytes um (a : Z) (n : nat) : list Z :=
  match n with O => [] | S n => default 0 (ubyte um a) :: ubytes um (a + 1) n end.

(** All of [[a, a + n)] belongs to the task. *)
Definition user_range um (a n : Z) : Prop := ∀ i, a ≤ i < a + n → is_Some (um !! page_of i).

Definition full_pages um : Prop := ∀ p b, um !! p = Some b → length b = 4096%nat.

Lemma uput_dom um a x p : is_Some (uput um a x !! p) ↔ is_Some (um !! p).
Proof.
  unfold uput. destruct (um !! page_of a) as [b|] eqn:E; [|done]. rewrite lookup_insert_is_Some'. split; [|by right].
  intros [<-|?]; [by eexists|done].
Qed.

Lemma uput_full um a x : full_pages um → full_pages (uput um a x).
Proof.
  intros Hf p b. unfold uput. destruct (um !! page_of a) as [b0|] eqn:E; [|apply Hf].
  intros [[<- <-]|[_ Hb]]%lookup_insert_Some; [|by eapply Hf]. rewrite length_insert. by eapply Hf.
Qed.

Lemma ubyte_uput um a x i : full_pages um → is_Some (um !! page_of a) →
  ubyte (uput um a x) i = if i =? a then Some x else ubyte um i.
Proof.
  intros Hf [b Hb]. unfold ubyte, uput. rewrite Hb. destruct (Z.eqb_spec i a) as [->|Hne].
  - rewrite lookup_insert_eq. cbn [mbind option_bind]. rewrite list_lookup_insert_eq; [done|]. rewrite (Hf _ _ Hb). zlia.
  - destruct (decide (page_of i = page_of a)) as [E|Hp]; [|by rewrite lookup_insert_ne by congruence].
    rewrite E, lookup_insert_eq, Hb. cbn [mbind option_bind]. apply list_lookup_insert_ne. unfold page_of in *. zlia.
Qed.

Lemma uwrite_dom l : ∀ um a p, is_Some (uwrite um a l !! p) ↔ is_Some (um !! p).
Proof. induction l as [|x l IH]; intros um a p; cbn [uwrite]; [done|]. by rewrite IH, uput_dom. Qed.

Lemma user_range_tail um a x n : user_range um a (Z.of_nat (S n)) → user_range (uput um a x) (a + 1) (Z.of_nat n).
Proof. intros Hr i Hi. rewrite uput_dom. apply Hr. lia. Qed.

(** A write changes the bytes of its range and no others. *)
Lemma ubyte_uwrite l : ∀ um a i, full_pages um → user_range um a (Z.of_nat (length l)) →
  ubyte (uwrite um a l) i
  = if (a <=? i) && (i <? a + Z.of_nat (length l)) then l !! Z.to_nat (i - a) else ubyte um i.
Proof.
  induction l as [|x l IH]; intros um a i Hf Hr; cbn [uwrite length] in *.
  { destruct (Z.leb_spec a i), (Z.ltb_spec i (a + Z.of_nat 0)); done || lia. }
  rewrite IH; [|by apply uput_full|by apply user_range_tail]. rewrite ubyte_uput; [|done|apply Hr; lia].
  destruct (Z.eqb_spec i a) as [->|Hne].
  - rewrite (proj2 (Z.leb_gt _ _)) by lia. cbn [andb]. rewrite Z.leb_refl, (proj2 (Z.ltb_lt _ _)) by lia. cbn [andb].
    by rewrite Z.sub_diag.
  - destruct (Z.leb_spec (a + 1) i).
    + rewrite (proj2 (Z.leb_le a i)) by lia. cbn [andb].
      replace (a + 1 + Z.of_nat (length l)) with (a + Z.of_nat (S (length l))) by lia. destruct (_ <? _); [|done].
      replace (Z.to_nat (i - a)) with (S (Z.to_nat (i - (a + 1)))) by lia. done.
    + rewrite (proj2 (Z.leb_gt a i)) by lia. done.
Qed.

Lemma ubytes_lookup n : ∀ um a k, (k < n)%nat → ubytes um a n !! k = Some (default 0 (ubyte um (a + Z.of_nat k))).
Proof.
  induction n as [|n IH]; intros um a [|k] Hk; cbn [ubytes]; try lia; cbn [lookup list_lookup].
  - by rewrite Z.add_0_r.
  - rewrite IH by lia. do 3 f_equal. lia.
Qed.

Lemma length_ubytes n : ∀ um a, length (ubytes um a n) = n.
Proof. induction n as [|n IH]; intros; cbn [ubytes length]; [done|by rewrite IH]. Qed.

(** What was written is read back. *)
Lemma ubytes_uwrite l um a : full_pages um → user_range um a (Z.of_nat (length l)) →
  ubytes (uwrite um a l) a (length l) = l.
Proof.
  intros Hf Hr. apply list_eq_same_length with (n := length l); [done|apply length_ubytes|].
  intros k x y Hk. rewrite ubytes_lookup by done. rewrite ubyte_uwrite by done.
  rewrite (proj2 (Z.leb_le _ _)), (proj2 (Z.ltb_lt _ _)) by lia. cbn [andb].
  replace (Z.to_nat (a + Z.of_nat k - a)) with k by lia. intros [= <-] ->. done.
Qed.

(** ** Spaces *)

Abbreviation page_of_task := (page_at (λ _, True)).

Record uspace (off : Z) m (pml4 : Z) um : Prop := {
  us_ok : mem_ok off m;
  us_wf : space_wf m pml4;
  us_views : views (λ _, True) m pml4 um;
  us_plain a : 0 ≤ a < 2 ^ 47 → plain_path (mem_ram m) 3 pml4 a = true;
  us_complete a l e : 0 ≤ a < 2 ^ 47 → leaf_walk (mem_ram m) 3 pml4 a = Some (l, e) → Z.testbit e 2 = true →
    is_Some (um !! page_of a);
}.

(** The frames of the task, and those of others: owned, no table of the space. *)
Definition user_frame m (pml4 : Z) um (f : Z) : Prop :=
  ∃ p, is_Some (um !! p) ∧ slot (mem_ram m) pml4 p = Some (Z.lor (f * FRAME_SIZE) 7).

Record foreign_frame m (pml4 : Z) um (f : Z) : Prop := {
  ff_range : 0 ≤ f < total_frames (mem_alloc m);
  ff_owned : 0 < refs (mem_alloc m) f;
  ff_table : f * FRAME_SIZE ∉ pt_tables (mem_ram m) 3 pml4;
  ff_user : ¬ user_frame m pml4 um f;
}.

(** The frames of others keep their contents, and stay the frames of others. *)
Definition isolated (pml4 : Z) m um m' um' : Prop := ∀ f, foreign_frame m pml4 um f →
  foreign_frame m' pml4 um' f ∧ mem_ram m' !! (f * FRAME_SIZE) = mem_ram m !! (f * FRAME_SIZE).

Lemma isolated_refl pml4 m um : isolated pml4 m um m um.
Proof. by intros f Hf. Qed.

Lemma isolated_trans pml4 m1 um1 m2 um2 m3 um3 :
  isolated pml4 m1 um1 m2 um2 → isolated pml4 m2 um2 m3 um3 → isolated pml4 m1 um1 m3 um3.
Proof. intros H12 H23 f Hf. destruct (H12 f Hf) as [Hf2 E2], (H23 f (proj1 (H12 f Hf))) as [Hf3 E3]. split; [done|congruence]. Qed.

Section Space.
Context `{HP : Profile} `{HE : EntrySpec} `{HV : VirtAddrSpec} `{HA : PhysAddrSpec} (off : Z) (pml4 : Z).

Lemma uspace_page m um p b : uspace off m pml4 um → um !! p = Some b → ∃ f, page_of_task m pml4 p f b.
Proof. intros Hu Hb. destruct (us_views _ _ _ _ Hu) as (fm & Hpg & _). by exists (fm p); apply Hpg. Qed.

Lemma uspace_full m um : uspace off m pml4 um → full_pages um.
Proof.
  intros Hu p b Hb. destruct (uspace_page _ _ _ _ Hu Hb) as [f Hp].
  destruct (page_at_bytes _ _ _ _ _ _ _ (us_ok _ _ _ _ Hu) Hp) as (Hl & _ & _). exact Hl.
Qed.

Lemma uspace_bytes m um p b : uspace off m pml4 um → um !! p = Some b → Forall (λ x, is_byte x) b.
Proof.
  intros Hu Hb. destruct (uspace_page _ _ _ _ Hu Hb) as [f Hp].
  destruct (page_at_bytes _ _ _ _ _ _ _ (us_ok _ _ _ _ Hu) Hp) as (_ & Hl & _). exact Hl.
Qed.

(** A byte of a page. *)
Lemma uspace_byte m um a : uspace off m pml4 um → is_Some (um !! page_of a) → ∃ x, ubyte um a = Some x ∧ is_byte x.
Proof.
  intros Hu [b Hb]. unfold ubyte. rewrite Hb. cbn [mbind option_bind]. pose proof (uspace_full _ _ Hu _ _ Hb) as Hl.
  destruct (lookup_lt_is_Some_2 b (Z.to_nat (a mod 4096))) as [x Hx]; [rewrite Hl; zlia|]. exists x. split; [done|].
  pose proof (uspace_bytes _ _ _ _ Hu Hb) as Hby. exact (Forall_lookup_1 _ _ _ _ Hby Hx).
Qed.

(** Walks of the tables of a space stay inside physical memory. *)
Lemma space_walk_ok m a : mem_ok off m → space_wf m pml4 → walk_ok off (mem_ram m) 3 pml4 a.
Proof.
  intros Hm [_ Hown _]. revert Hown. generalize 3%nat as lvl, pml4 as t.
  induction lvl as [|l IH]; intros t Hown; cbn [walk_ok]; fold (idx 0 a);
    pose proof (proj1 (proj1 (Forall_forall _ _) Hown t ltac:(left))) as Hman;
    (split; [by apply (managed_frame off)|]); pose proof (managed_bound _ _ Hman);
    assert (off + t + 4096 ≤ 2 ^ 64) by
      (destruct Hman as (f & -> & Hf); pose proof (mo_hhdm _ _ Hm (f * FRAME_SIZE + 4095) ltac:(unfold FRAME_SIZE; lia)) as [?|?]; lia).
  - split; [lia|]. split; [lia|done].
  - split; [lia|]. split; [lia|]. fold (idx (S l) a). intros Hp Hh. apply IH, Forall_forall. intros x Hx.
    apply (proj1 (Forall_forall _ _) Hown). eapply child_tables; [apply idx_range| |exact Hx]. unfold descends. by rewrite Hp, Hh.
Qed.

(** The check of a pointer is exact. *)
Lemma user_page_check m um a : uspace off m pml4 um → 0 ≤ a < 2 ^ 47 →
  is_user_page_mapped (Some off) pml4 (mem_ram m) a = Ret (bool_decide (is_Some (um !! page_of a))).
Proof.
  intros Hu Ha. rewrite user_page_mapped_ok; [| |by apply space_walk_ok; apply Hu].
  2: { pose proof (mo_off _ _ (us_ok _ _ _ _ Hu)) as [?|?]; lia. }
  f_equal. destruct (decide (is_Some (um !! page_of a))) as [[b Hb]|Hn].
  - rewrite bool_decide_true by (by eexists). destruct (uspace_page _ _ _ _ Hu Hb) as [f Hp].
    rewrite <- (proj1 (proj2 (walk_page _ a 3 _))).
    rewrite (slot_walk _ _ _ _ (pa_slot _ _ _ _ _ _ Hp) (proj1 (entry_present f))).
    rewrite Z.lor_spec. apply orb_true_r.
  - rewrite bool_decide_false by done. destruct (leaf_walk _ _ _ _) as [[l e]|] eqn:Hw; [|done].
    destruct (Z.testbit e 2) eqn:Eb; [|done]. destruct Hn. by eapply us_complete.
Qed.

(** ** Pointers of the task *)

Lemma entry_same f g : 0 ≤ f * FRAME_SIZE < 2 ^ 52 → 0 ≤ g * FRAME_SIZE < 2 ^ 52 →
  Z.lor (f * FRAME_SIZE) 7 = Z.lor (g * FRAME_SIZE) 7 → f = g.
Proof.
  intros Hf Hg E. apply (f_equal (λ e, Z.land e PHYS_MASK)) in E. rewrite !entry_frame in E by done. unfold FRAME_SIZE in E. lia.
Qed.

Lemma user_slot_same r r' p f : leaf_walk r' 3 pml4 p = leaf_walk r 3 pml4 p →
  slot r' pml4 p = Some (Z.lor (f * FRAME_SIZE) 7) → slot r pml4 p = Some (Z.lor (f * FRAME_SIZE) 7).
Proof. intros Hw Hs. apply walk_slot. rewrite <- Hw. apply slot_walk; [done|apply entry_present]. Qed.

Lemma uspace_load m um a : uspace off m pml4 um → is_Some (um !! page_of a) →
  load_virt (mem_ram m) pml4 a = Ret (default 0 (ubyte um a)).
Proof.
  intros Hu Hs. destruct (uspace_byte _ _ _ Hu Hs) as (x & Hx & _). rewrite Hx. destruct Hs as [b Hb].
  unfold ubyte in Hx. rewrite Hb in Hx. by eapply views_load; [apply Hu|apply Hu|..].
Qed.

Lemma uspace_loads m um n : uspace off m pml4 um → ∀ a, user_range um a (Z.of_nat n) →
  load_bytes (mem_ram m) pml4 a n = Ret (ubytes um a n).
Proof.
  intros Hu. induction n as [|n IH]; intros a Hr; cbn [load_bytes ubytes]; [done|].
  rewrite (uspace_load m um) by (done || (apply Hr; lia)). cbn [obind]. rewrite IH; [done|]. intros i Hi. apply Hr. lia.
Qed.

(** The bytes of a page are replaced. *)
Lemma uspace_data m um p f b b' : uspace off m pml4 um → um !! p = Some b → page_of_task m pml4 p f b →
  length b' = 4096%nat → Forall (λ x, is_byte x) b' →
  let m' := set_ram m (<[f * FRAME_SIZE := b']> (mem_ram m)) in
  uspace off m' pml4 (<[p := b']> um) ∧ isolated pml4 m um m' (<[p := b']> um)
  ∧ ∀ q, mapped (mem_ram m') pml4 q = mapped (mem_ram m) pml4 q.
Proof.
  intros Hu Hb Hp Hl Hby. cbv zeta. pose proof Hu as [Hm Hs Hv Hpl Hc].
  assert (∀ q, is_Some (<[p := b']> um !! q) ↔ is_Some (um !! q)) as Hdom.
  { intros q. rewrite lookup_insert_is_Some'. split; [intros [<-|?]; [by eexists|done]|by right]. }
  destruct (views_data off (λ _, True) m pml4 um p f b b') as (Hm' & Hs' & Hv' & Ht & Hw); try done.
  split; [|split; [|intros q; apply (Hw q)]].
  - split; try done.
    + intros i Hi. destruct (Hw i) as [_ ->]. by apply Hpl.
    + intros i l e Hi Hle He. destruct (Hw i) as [[Hwi _] _]. rewrite Hwi in Hle. rewrite Hdom. by eapply Hc.
  - intros g [Hg Ho Hn Hug]. split; [split; try done|].
    + by rewrite Ht.
    + intros (q & Hq & Hqs). apply Hug. exists q. rewrite Hdom in Hq. split; [done|]. eapply user_slot_same; [apply (Hw q)|done].
    + cbn [set_ram mem_ram]. rewrite lookup_insert_ne; [done|]. intros E. apply Hug. exists p.
      split; [by eexists|]. rewrite <- E. apply Hp.
Qed.

Lemma uspace_store m um a x : uspace off m pml4 um → is_Some (um !! page_of a) → is_byte x →
  ∃ r, store_virt (mem_ram m) pml4 a x = Ret r
    ∧ uspace off (set_ram m r) pml4 (uput um a x) ∧ isolated pml4 m um (set_ram m r) (uput um a x)
    ∧ ∀ p, mapped r pml4 p = mapped (mem_ram m) pml4 p.
Proof.
  intros Hu [b Hb] Hx. pose proof (uspace_page _ _ _ _ Hu Hb) as [f Hp]. pose proof (us_ok _ _ _ _ Hu) as Hm.
  destruct (page_at_bytes off _ _ _ _ _ _ Hm Hp) as (Hlen & Hby & Hf). unfold store_virt, store_phys.
  rewrite (page_phys off _ _ _ _ _ _ _ Hm Hp eq_refl).
  destruct (page_in (f * FRAME_SIZE) (a mod 4096)) as [-> ->]; [unfold FRAME_SIZE; zlia|zlia|].
  rewrite (pa_bytes _ _ _ _ _ _ Hp). unfold vset.
  destruct (lookup_lt_is_Some_2 b (Z.to_nat (a mod 4096))) as [y Hy]; [rewrite Hlen; zlia|]. rewrite Hy. cbn [obind].
  eexists. split; [done|]. unfold uput. rewrite Hb.
  by apply (uspace_data m um (page_of a) f b); [|..|rewrite length_insert|apply Forall_insert].
Qed.

Lemma uspace_stores l : Forall (λ x, is_byte x) l → ∀ m um a, uspace off m pml4 um → user_range um a (Z.of_nat (length l)) →
  ∃ r, store_bytes (mem_ram m) pml4 a l = Ret r
    ∧ uspace off (set_ram m r) pml4 (uwrite um a l) ∧ isolated pml4 m um (set_ram m r) (uwrite um a l)
    ∧ ∀ p, mapped r pml4 p = mapped (mem_ram m) pml4 p.
Proof.
  induction 1 as [|x l Hx Hl IH]; intros m um a Hu Hr; cbn [store_bytes uwrite].
  { exists (mem_ram m). split; [done|]. destruct m. split; [done|]. split; [apply isolated_refl|done]. }
  destruct (uspace_store m um a x) as (r & -> & Hu1 & Hi1 & Hm1); try done. { apply Hr. cbn [length]. lia. }
  cbn [obind]. destruct (IH _ _ (a + 1) Hu1) as (r' & E' & Hu2 & Hi2 & Hm2); [by apply user_range_tail|].
  exists r'. split; [exact E'|]. split; [exact Hu2|]. split; [by eapply isolated_trans|]. intros p. by rewrite Hm2.
Qed.
End Space.

(** ** Mapping pages *)

Section Map.
Context `{HP : Profile} `{HE : EntrySpec} `{HV : VirtAddrSpec} `{HA : PhysAddrSpec} (off : Z) `{HM : Mapper} `{HMS : !MapperSpec off}.
Context (pml4 : Z).

Lemma isolated_kept m um m' um' : mem_ok off m → space_kept off pml4 m m' →
  (∀ p f, is_Some (um' !! p) → 0 ≤ f < total_frames (mem_alloc m) → slot (mem_ram m') pml4 p = Some (Z.lor (f * FRAME_SIZE) 7) →
     user_frame m pml4 um f ∨ ¬ 0 < refs (mem_alloc m) f) →
  isolated pml4 m um m' um'.
Proof.
  intros Hm [Hm' Hs' [Htot Hr] Hd _ _ Ht] Huf f [Hf Ho Hn Hu].
  split; [split|].
  - by rewrite Htot.
  - destruct (Hr f Hf). lia.
  - intros Hin. destruct (Ht _ Hin) as [|Hz]; [done|]. by rewrite Z.div_mul in Hz.
  - intros (p & Hp & Hsl). by destruct (Huf p f Hp Hf Hsl).
  - apply Hd; [by exists f|by rewrite Z.div_mul|done].
Qed.

Lemma uspace_same m um m' : uspace off m pml4 um → space_kept off pml4 m m' →
  (∀ a, 0 ≤ a < 2 ^ 47 → same_at (mem_ram m) (mem_ram m') pml4 a) → uspace off m' pml4 um ∧ isolated pml4 m um m' um.
Proof.
  intros Hu Hk Hsame. pose proof Hu as [Hm Hs Hv Hpl Hc].
  assert (∀ p, is_Some (um !! p) → 0 ≤ p < 2 ^ 47) as Hrange.
  { intros p [b Hb]. destruct (uspace_page _ _ _ _ _ _ Hu Hb) as [f [[? _] _ _ _ _ _ _ _]]. done. }
  split; [split; [apply Hk|apply Hk| | |]|].
  - eapply views_kept; [done| |done]. intros p Hp. apply Hsame. by apply Hrange.
  - intros a Ha. by apply (sk_plain _ _ _ _ Hk), Hpl.
  - intros a l e Ha Hw. destruct (Hsame a Ha) as [Ew _]. rewrite Ew in Hw. by apply (Hc a l e).
  - apply isolated_kept; [done|done|]. intros p f Hp _ Hsl. left. exists p. split; [done|].
    eapply user_slot_same; [|done]. by apply Hsame, Hrange.
Qed.

Lemma uspace_added m um m' p f : uspace off m pml4 um → space_kept off pml4 m m' → is_page p →
  mapped (mem_ram m) pml4 p = false → user_page_added m m' pml4 p f →
  uspace off m' pml4 (<[p := zero_frame]> um) ∧ isolated pml4 m um m' (<[p := zero_frame]> um).
Proof.
  intros Hu Hk Hp Hnm Hadd. pose proof Hu as [Hm Hs Hv Hpl Hc].
  assert (um !! p = None) as Hn.
  { destruct (um !! p) as [b|] eqn:E; [|done]. destruct (uspace_page _ _ _ _ _ _ Hu E) as [g [_ Hsl _ _ _ _ _ _]].
    unfold mapped in Hnm. rewrite Hsl in Hnm. apply negb_false_iff, Z.eqb_eq in Hnm. by destruct (entry_present g). }
  pose proof Hadd as (Hf & Hz & Hone & Hsl & Hb & Ha & Hnt & Ho).
  split; [split; [apply Hk|apply Hk| | |]|].
  - by eapply (views_added off).
  - intros a Ha'. by apply (sk_plain _ _ _ _ Hk), Hpl.
  - intros a l e Ha' Hw Hbit. apply lookup_insert_is_Some'. destruct (decide (page_of a = p)); [by left|right].
    destruct (Ho a Ha') as [Ew _]; [done|]. rewrite Ew in Hw. by apply (Hc a l e).
  - apply isolated_kept; [done|done|]. intros q g Hq Hg Hsq. apply lookup_insert_is_Some' in Hq.
    destruct (decide (p = q)) as [<-|Hne].
    + right. rewrite Hsl in Hsq. injection Hsq as E. pose proof (mo_phys _ _ Hm).
      apply entry_same in E; [subst g; lia|unfold FRAME_SIZE in *; lia..].
    + left. destruct Hq as [?|Hq]; [done|]. exists q. split; [done|]. eapply user_slot_same; [|done].
      destruct Hq as [b Hq]. destruct (uspace_page _ _ _ _ _ _ Hu Hq) as [h [[Hq1 Hq2] _ _ _ _ _ _ _]].
      apply Ho; [done|]. unfold page_of. rewrite Hq2. lia.
Qed.

(** Mapping a page adds a zeroed page, unless the page has an entry. *)
Lemma uspace_map m um va : uspace off m pml4 um → 0 ≤ va < 2 ^ 47 →
  wp (allocate_and_map_user_page (Some off) pml4 va m) (λ '(res, m'), ∃ um',
    uspace off m' pml4 um' ∧ isolated pml4 m um m' um' ∧ space_kept off pml4 m m'
    ∧ nfree m ≤ nfree m' + 4 ∧ (result_ok res = false → nfree m < 4) ∧ um' = (if result_ok res && negb (mapped (mem_ram m) pml4 (page_of va)) then <[page_of va := zero_frame]> um else um)
    ∧ (∀ p, is_page p → mapped (mem_ram m') pml4 p = mapped (mem_ram m) pml4 p || (result_ok res && (p =? page_of va)))
    ∧ others_same (mem_ram m) (mem_ram m') pml4 (page_of va)).
Proof.
  intros Hu Hva. pose proof (page_of_page va Hva) as Hpage. pose proof Hu as [Hm Hs Hv Hpl Hc].
  eapply wp_mono; [apply (map_user_page_ok off pml4 va m); try done; apply Hpl, Hpage|]. intros [res m'] (Hk & Hfr & Hres).
  unfold user_page_result in Hres. set (page := page_of va) in *. destruct res as [[]|e]; cbn [result_ok andb].
  - destruct (mapped (mem_ram m) pml4 page) eqn:Em; cbn [negb].
    + subst m'. exists um. split_and!; try done. intros p Hp. destruct (Z.eqb_spec p page) as [->|]; [by rewrite Em|by rewrite orb_false_r].
    + destruct Hres as [f Hadd]. exists (<[page := zero_frame]> um).
      destruct (uspace_added m um m' page f) as [Hu' Hi]; try done. split_and!; try done; [|apply Hadd].
      intros p Hp. destruct Hadd as (_ & _ & _ & Hsl & _ & _ & _ & Ho). destruct (Z.eqb_spec p page) as [->|Hne].
      * unfold mapped at 1. rewrite Hsl, orb_true_r. rewrite (proj2 (Z.eqb_neq _ _)); [done|apply entry_present].
      * rewrite orb_false_r. destruct Hp as [Hp1 Hp2]. apply Ho; [done|]. unfold page_of. rewrite Hp2. lia.
  - destruct Hres as (Hsame & _ & Hno). exists um. destruct (uspace_same m um m') as [Hu' Hi]; try done. split_and!; try done; [|intros a Ha _; by apply Hsame].
    intros p [Hp _]. rewrite orb_false_r. by apply Hsame.
Qed.
End Map.

(** ** Deciding what a space holds *)

(** No entry of the tree is unusual. *)
Fixpoint plain_tree (r : ram) (lvl : nat) (t : Z) : bool :=
  match lvl with
  | O => true
  | S l => forallb (λ i, let e := entry_of r t (Z.of_nat i) in
             if e =? 0 then true
             else if Z.testbit e 0 && negb (Z.testbit e 7) then plain_tree r l (Z.land e PHYS_MASK) else false) (seq 0 512)
  end.

(** The pages of a tree with their entries. *)
Fixpoint leaves (r : ram) (lvl : nat) (t base : Z) : list (Z * Z) :=
  flat_map (λ i, let e := entry_of r t (Z.of_nat i) in
    let p := base + Z.of_nat i * 2 ^ (12 + 9 * Z.of_nat lvl) in
    if Z.testbit e 0 then match lvl with O => [(p, e)] | S l => leaves r l (Z.land e PHYS_MASK) p end else [])
    (seq 0 512).

Fixpoint page_part (lvl : nat) (a : Z) : Z :=
  idx lvl a * 2 ^ (12 + 9 * Z.of_nat lvl) + match lvl with O => 0 | S l => page_part l a end.

Lemma idx_seq lvl a : In (Z.to_nat (idx lvl a)) (seq 0 512) ∧ Z.of_nat (Z.to_nat (idx lvl a)) = idx lvl a.
Proof. pose proof (idx_range lvl a). rewrite in_seq. lia. Qed.

Lemma plain_tree_sound r a lvl : ∀ t, plain_tree r lvl t = true → plain_path r lvl t a = true.
Proof.
  induction lvl as [|l IH]; intros t Ht; cbn [plain_tree plain_path] in *; [done|].
  rewrite forallb_forall in Ht. destruct (idx_seq (S l) a) as [Hin E]. specialize (Ht _ Hin). rewrite E in Ht.
  destruct (entry_of r t (idx (S l) a) =? 0); [done|]. cbn [orb].
  destruct (Z.testbit _ 0 && _); [by apply IH|done].
Qed.

Lemma leaves_sound r a l e lvl : ∀ t base, plain_path r lvl t a = true → leaf_walk r lvl t a = Some (l, e) →
  (base + page_part lvl a, e) ∈ leaves r lvl t base.
Proof.
  induction lvl as [|n IH]; intros t base Hp Hw; cbn [leaf_walk leaves page_part plain_path] in *;
    apply list_elem_of_In, in_flat_map.
  - destruct (idx_seq 0 a) as [Hin E]. fold (idx 0 a) in Hw. exists (Z.to_nat (idx 0 a)). split; [done|]. cbv zeta. rewrite E.
    destruct (Z.testbit _ 0); [|done]. injection Hw as _ <-. left. f_equal. lia.
  - destruct (idx_seq (S n) a) as [Hin E]. fold (idx (S n) a) in Hw. exists (Z.to_nat (idx (S n) a)). split; [done|]. cbv zeta. rewrite E.
    set (x := entry_of r t (idx (S n) a)) in *. destruct (Z.testbit x 0) eqn:Eb; [|done].
    destruct (Z.eqb_spec x 0) as [Ex|_]; [by rewrite Ex in Eb|]. cbn [orb andb] in Hp. apply andb_true_iff in Hp as [H7 Hp].
    apply negb_true_iff in H7. rewrite H7, andb_false_r in Hw. apply list_elem_of_In.
    rewrite Z.add_assoc. by apply IH.
Qed.

Lemma page_part_page a : 0 ≤ a < 2 ^ 47 → page_part 3 a = page_of a.
Proof.
  intros Ha. cbn [page_part]. unfold idx, page_of. change 511 with (Z.ones 9). rewrite !Z.land_ones, !Z.shiftr_div_pow2 by lia.
  change (2 ^ (12 + 9 * Z.of_nat 3)) with (2 ^ 39). change (2 ^ (12 + 9 * Z.of_nat 2)) with (2 ^ 30).
  change (2 ^ (12 + 9 * Z.of_nat 1)) with (2 ^ 21). change (2 ^ (12 + 9 * Z.of_nat 0)) with (2 ^ 12). zlia.
Qed.

(** ** A task with one page *)

Module TaskSample.
(** The page at 0x5000 of [SpaceSample], with bytes [b]. *)
Definition memory (b : list Z) : mem := set_ram SpaceSample.m (<[5 * FRAME_SIZE := b]> (mem_ram SpaceSample.m)).
Definition pages (b : list Z) : umem := {[0x5000 := b]}.

Lemma sample_page : page_of_task SpaceSample.m 4096 0x5000 5 zero_frame.
Proof.
  split; [split; [lia|reflexivity]|vm_compute; reflexivity|vm_compute; split; [discriminate|reflexivity]
    |vm_compute; reflexivity| |vm_compute; reflexivity|vm_compute; reflexivity|exact I].
  cbn [SpaceSample.m mem_ram]. rewrite SpaceSample.pt_tables_eq. apply (bool_decide_unpack _). vm_compute. exact I.
Qed.

Lemma sample_uspace_0 : uspace Sample.off SpaceSample.m 4096 {[0x5000 := zero_frame]}.
Proof.
  assert (∀ a, plain_path SpaceSample.memory 3 4096 a = true) as Hplain.
  { intros a. apply plain_tree_sound. vm_compute. reflexivity. }
  split; [apply SpaceSample.space_ok|apply SpaceSample.sample_space_wf| |intros a _; apply Hplain|].
  - exists (λ _, 5). split.
    + intros p b [<- <-]%lookup_singleton_Some. exact sample_page.
    + intros p q [b [<- _]%lookup_singleton_Some] [c [<- _]%lookup_singleton_Some] _. reflexivity.
  - intros a l e Ha Hw _. apply (leaves_sound _ _ _ _ 3 4096 0 (Hplain a)) in Hw. rewrite page_part_page in Hw by done.
    assert (leaves SpaceSample.memory 3 4096 0 = [(0x5000, 0x5007)]) as El by (vm_compute; reflexivity).
    cbn [SpaceSample.m mem_ram] in Hw. rewrite El in Hw. apply list_elem_of_singleton in Hw. injection Hw as Hw _.
    rewrite Z.add_0_l in Hw. rewrite Hw. eexists. apply lookup_singleton_eq.
Qed.

Lemma sample_uspace b : length b = 4096%nat → Forall (λ x, is_byte x) b →
  uspace Sample.off (memory b) 4096 (pages b).
Proof.
  intros Hl Hb. assert (pages b = <[0x5000 := b]> {[0x5000 := zero_frame]}) as -> by (unfold pages; by rewrite insert_singleton_eq).
  apply (uspace_data Sample.off 4096 SpaceSample.m {[0x5000 := zero_frame]} 0x5000 5 zero_frame b);
    [exact sample_uspace_0|apply lookup_singleton_eq|exact sample_page|exact Hl|exact Hb].
Qed.
End TaskSample.
