(* ===== verification/BootMem.v ===== *)
(** * Boot: memory ([init] of src/src/mm/mod.rs, [init_heap] of
    src/src/mm/allocator.rs)

    The memory subsystem is brought up in three steps: the frame allocator from the
    memory map, a top-level table of the kernel's own, and the pages of the kernel
    heap.  The allocator that then manages the heap is the linked_list_allocator
    crate.

    The theorems: [init_heap] gives every heap page a frame of its own, closed to
    ring 3, and leaves all other translations alone; [mm_init] ends with a
    well-formed memory and space in which that holds. *)

From S2P Require Import Prelude KError FrameAlloc X86 Paging PageTree PageMapper AddrSpace UserMem.

#[local] Open Scope list_scope.

(** ** The code *)

Section MmInit.
Context `{Profile} `{VirtAddrNew} `{PhysAddrNew} `{EntryOps} `{Mapper}.

(** [mm::init] from the static allocator [s], the bootloader's responses, its CR3
    and the physical memory. *)
Definition mm_init (hhdm : option Z) (mmap : option (list memmap_entry)) (cr3 : Z) (s : BitmapFrameAllocator) (r : ram)
    : outcome (Z * mem) :=
  match hhdm with
  | None => Stop Panic
  | Some offset =>
      _ <- virt_new offset;;
      a <- init s mmap hhdm;;
      let* (mapper, m) := isolate_and_init_paging hhdm cr3 (mkMem a r) in
      let* (res, m) := init_heap hhdm mapper m in
      match res with Err _ => Stop Panic | Ok _ => Ret (mapper, m) end
  end.
End MmInit.

(** ** The heap *)

Section Heap.
Context `{HP : Profile} `{HV : VirtAddrSpec} `{HA : PhysAddrSpec} (off : Z) `{HM : Mapper} `{HMS : !MapperSpec off}.
Implicit Types m : mem.

Definition HEAP_PAGES : Z := HEAP_SIZE / 4096.
Definition heap_page (j : Z) : Z := HEAP_START + j * 4096.

(** Taking a zeroed frame disturbs no space. *)
Lemma taken_space m m1 p pml4 : taken off m m1 p → space_wf m pml4 →
  mem_ok off m1 ∧ space_wf m1 pml4 ∧ grown m m1 ∧ (p ∉ pt_tables (mem_ram m1) 3 pml4)
  ∧ ∀ a, leaf_walk (mem_ram m1) 3 pml4 a = leaf_walk (mem_ram m) 3 pml4 a ∧ slot (mem_ram m1) pml4 a = slot (mem_ram m) pml4 a
      ∧ plain_path (mem_ram m1) 3 pml4 a = plain_path (mem_ram m) 3 pml4 a.
Proof.
  intros Htk Hs. pose proof (taken_grown _ _ _ _ Htk) as Hg. destruct Htk as (Hm1 & (f & -> & Hf & _ & _ & Hz & Hr) & Ht & Hx).
  assert (f * FRAME_SIZE ∉ pt_tables (mem_ram m) 3 pml4) as Hn.
  { intros Hin. apply (proj1 (Forall_forall _ _) (sw_owned _ _ Hs)) in Hin as [_ Hp]. rewrite Z.div_mul in Hp by done. lia. }
  assert (∀ x, x ∈ pt_tables (mem_ram m) 3 pml4 → mem_ram m1 !! x = mem_ram m !! x) as Hxt by (intros x Hin; apply Hx; by intros ->).
  destruct (walk_ext _ (mem_ram m1) 3 pml4 Hxt) as [Heq Hw].
  split_and!; [done| |done|by rewrite Heq|].
  - destruct Hs as [Hnd Hown Hres]. split; rewrite ?Heq; [done| |].
    + eapply Forall_impl; [exact Hown|]. intros x [Hxm Hxp]. by apply (owned_grown m).
    + intros i Hi. rewrite (entry_of_frame (mem_ram m)); [by apply Hres|]. apply Hxt. left.
  - intros a. destruct (Hw a) as (Hwa & _ & _ & _ & Hpl). split_and!; [done| |done]. by apply slot_ext.
Qed.

(** Page [j] of the heap is in frame [f]: present, writable, not for ring 3. *)
Definition heap_at m (pml4 j f : Z) : Prop :=
  managed m (f * FRAME_SIZE) ∧ refs (mem_alloc m) f = 1
  ∧ leaf_walk (mem_ram m) 3 pml4 (heap_page j) = Some (0%nat, Z.lor (f * FRAME_SIZE) 3).

(** After the first [i] pages. *)
Record heap_mapped m0 (pml4 i : Z) m : Prop := {
  hm_ok : mem_ok off m;
  hm_wf : space_wf m pml4;
  hm_grown : grown m0 m;
  hm_cost : nfree m0 ≤ nfree m + 4 * i;
  hm_later : ∀ j, i ≤ j < HEAP_PAGES → mapped (mem_ram m) pml4 (heap_page j) = mapped (mem_ram m0) pml4 (heap_page j);
  hm_plain : plain_kept (mem_ram m0) (mem_ram m) pml4;
  hm_others : ∀ a, 0 ≤ a < 2 ^ 47 → ¬ (HEAP_START ≤ a < HEAP_START + HEAP_SIZE) → same_at (mem_ram m0) (mem_ram m) pml4 a;
  hm_pages : ∃ fs, Z.of_nat (length fs) = i ∧ NoDup fs
    ∧ ∀ j f, fs !! j = Some f → refs (mem_alloc m0) f = 0 ∧ heap_at m pml4 (Z.of_nat j) f;
}.

Lemma heap_page_page j : 0 ≤ j < HEAP_PAGES → is_page (heap_page j).
Proof. unfold HEAP_PAGES, HEAP_SIZE, is_page, heap_page, HEAP_START. zlia. Qed.

Lemma heap_page_of a : HEAP_START ≤ a < HEAP_START + HEAP_SIZE →
  ∃ j, 0 ≤ j < HEAP_PAGES ∧ page_of a = heap_page j.
Proof.
  unfold HEAP_PAGES, HEAP_SIZE, heap_page, page_of, HEAP_START. intros Ha. exists ((a - 0x444444440000) / 4096). zlia.
Qed.

(** The heap pages that are there stay, and the new one is added. *)
Lemma heap_at_kept m m' pml4 j f : heap_at m pml4 j f → grown m m' →
  leaf_walk (mem_ram m') 3 pml4 (heap_page j) = leaf_walk (mem_ram m) 3 pml4 (heap_page j) → heap_at m' pml4 j f.
Proof.
  intros (Hman & Hr & Hw) Hg Hl. split_and!; [by eapply managed_total, Hman; destruct Hg| |by rewrite Hl].
  by eapply (grown_refs m).
Qed.

Lemma heap_extend m0 m m2 pml4 i f fs : Z.of_nat (length fs) = i → NoDup fs →
  (∀ j f, fs !! j = Some f → refs (mem_alloc m0) f = 0 ∧ heap_at m pml4 (Z.of_nat j) f) →
  refs (mem_alloc m0) f = 0 → refs (mem_alloc m) f = 0 → grown m m2 → heap_at m2 pml4 i f →
  (∀ j, 0 ≤ j < i → leaf_walk (mem_ram m2) 3 pml4 (heap_page j) = leaf_walk (mem_ram m) 3 pml4 (heap_page j)) →
  ∃ fs, Z.of_nat (length fs) = i + 1 ∧ NoDup fs
    ∧ ∀ j f, fs !! j = Some f → refs (mem_alloc m0) f = 0 ∧ heap_at m2 pml4 (Z.of_nat j) f.
Proof.
  intros Hlen Hnd Hfs Hz0 Hz Hg Hat Hw. exists (fs ++ [f]). split_and!.
  - rewrite length_app. cbn [length]. lia.
  - apply NoDup_app. split_and!; [done| |apply NoDup_singleton]. intros x Hx ->%list_elem_of_singleton.
    apply list_elem_of_lookup in Hx as [j Hj]. destruct (Hfs j f Hj) as [_ (_ & Hr & _)]. lia.
  - intros j g [Hj|[Hge Hj]]%lookup_app_Some.
    + destruct (Hfs j g Hj) as [? Hja]. split; [done|]. apply lookup_lt_Some in Hj.
      apply (heap_at_kept m); [done|done|]. apply Hw. lia.
    + apply list_lookup_singleton_Some in Hj as [Hj <-]. split; [done|]. by replace (Z.of_nat j) with i by lia.
Qed.

(** Why the heap cannot be mapped: it needs at most four frames per page, and the
    range must not be in use. *)
Definition heap_blocked m0 (pml4 : Z) : Prop :=
  nfree m0 < 4 * HEAP_PAGES ∨ ∃ j, 0 ≤ j < HEAP_PAGES ∧ mapped (mem_ram m0) pml4 (heap_page j) = true.

Definition heap_failed m0 (pml4 : Z) (res : result unit MapToError) m : Prop :=
  (∃ e, res = Err e) ∧ heap_blocked m0 pml4 ∧ mem_ok off m ∧ space_wf m pml4
  ∧ ∀ a, 0 ≤ a < 2 ^ 47 → ¬ (HEAP_START ≤ a < HEAP_START + HEAP_SIZE) → same_at (mem_ram m0) (mem_ram m) pml4 a.

Lemma map_heap_page_ok m0 pml4 i m : mem_ok off m0 → heap_mapped m0 pml4 i m → 0 ≤ i < HEAP_PAGES →
  plain_path (mem_ram m0) 3 pml4 (heap_page i) = true →
  wp (map_heap_page (Some off) pml4 i m) (λ r, match r with
    | Next m' => heap_mapped m0 pml4 (i + 1) m'
    | Done (res, m') => heap_failed m0 pml4 res m'
    end).
Proof.
  intros Hm0 [Hm Hs Hg Hcost Hlater Hpl Ho (fs & Hlen & Hnd & Hfs)] Hi Hpi. unfold map_heap_page.
  pose proof (heap_page_page i Hi) as Hpage. change (page_of HEAP_START) with HEAP_START. fold (heap_page i).
  wp_step. eapply wp_mono; [by apply system_allocate_frame_ok|cbv beta]. intros [[p|] m1] Hal.
  2: { destruct Hal as [-> Hall]. wp_step. split_and!; try done; [by eexists|left].
       rewrite (free_frames_none _ Hall) in Hcost. lia. }
  destruct Hal as [Htk _]. pose proof (taken_free _ _ _ _ Hm Htk) as Hfr. destruct (taken_space _ _ _ _ Htk Hs) as (Hm1 & Hs1 & Hg1 & Hn1 & Hw1).
  destruct Htk as (_ & (f & -> & Hf & _ & _ & Hz & Hr) & Ht & _).
  assert (refs (mem_alloc m1) f = 1) as Hone by (rewrite Hr by done; by rewrite decide_True).
  assert (managed m1 (f * FRAME_SIZE)) as Hman by (exists f; by rewrite Ht).
  wp_step. eapply wp_mono; [apply (map_to_spec m1); try done|cbv beta].
  { by rewrite Z.div_mul, Hone by done. }
  { destruct (Hw1 (heap_page i)) as (_ & _ & ->). apply Hpl; [apply Hpage|done]. }
  intros [res m2] (Hm2 & Hs2 & Hg2 & _ & _ & Hpl2 & _ & Hfr2 & Hres).
  assert (∀ a, 0 ≤ a < 2 ^ 47 → page_of a ≠ heap_page i ∨ (∃ e, res = Err e) → same_at (mem_ram m) (mem_ram m2) pml4 a) as Hsame.
  { intros a Ha Hor. destruct (Hw1 a) as (Hwa & Hsa & _). eapply same_at_trans; [by apply same_at_slot|].
    destruct res as [[]|e]; [|by apply Hres]. apply Hres; [done|]. by destruct Hor as [|[? ?]]. }
  assert (∀ a, 0 ≤ a < 2 ^ 47 → ¬ (HEAP_START ≤ a < HEAP_START + HEAP_SIZE) → same_at (mem_ram m0) (mem_ram m2) pml4 a) as Ho2.
  { intros a Ha Hout. eapply same_at_trans; [by apply Ho|]. apply Hsame; [done|]. left. intros E. apply Hout.
    unfold HEAP_PAGES, HEAP_SIZE, heap_page, page_of, HEAP_START in *. zlia. }
  destruct res as [[]|e]; wp_step.
  2: { split_and!; try done; [by eexists|]. destruct Hres as (_ & _ & Hwhy). destruct e; cbn [map_failure] in Hwhy; [left; lia|done|].
       right. exists i. split; [done|]. rewrite <- Hlater by lia. unfold mapped in *. destruct (Hw1 (heap_page i)) as (_ & <- & _). done. }
  split; try done.
  - by eapply grown_trans, grown_trans.
  - lia.
  - intros j Hj. rewrite <- Hlater by lia. apply Hsame; [by apply heap_page_page; lia|]. left.
    unfold heap_page, page_of, HEAP_START. zlia.
  - intros a Ha Hp. apply Hpl2; [done|]. destruct (Hw1 a) as (_ & _ & ->). by apply Hpl.
  - apply (heap_extend m0 m m2 pml4 i f fs); try done.
    + destruct Hg as [Ht0 Hg]. destruct (Hg f ltac:(lia)) as [_ Hle].
      destruct (count_lookup _ f (wf_shape _ (mo_wf _ _ Hm0)) ltac:(lia)). lia.
    + by eapply grown_trans.
    + split_and!; [by eapply managed_total, Hman; destruct Hg2|by eapply (grown_refs m1)|].
      apply slot_walk; [apply Hres|]. rewrite Z.lor_spec. by rewrite orb_true_r.
    + intros j Hj. apply Hsame; [by apply heap_page_page; lia|]. left.
      unfold heap_page, page_of, HEAP_START. zlia.
Qed.

(** The entries of the heap pages are the kernel's. *)
Lemma heap_leaf m0 pml4 m a l e : heap_mapped m0 pml4 HEAP_PAGES m → HEAP_START ≤ a < HEAP_START + HEAP_SIZE →
  leaf_walk (mem_ram m) 3 pml4 a = Some (l, e) → Z.testbit e 2 = false.
Proof.
  intros Hh Ha. destruct (heap_page_of a Ha) as (j & Hj & Hp). destruct (hm_pages _ _ _ _ Hh) as (fs & Hlen & _ & Hfs).
  destruct (lookup_lt_is_Some_2 fs (Z.to_nat j) ltac:(lia)) as [f Hf]. destruct (Hfs _ _ Hf) as [_ (_ & _ & Hw)].
  rewrite Z2Nat.id, <- Hp in Hw by lia. rewrite (proj1 (proj2 (walk_page _ a 3 _))) in Hw. rewrite Hw. intros [= _ <-].
  rewrite Z.lor_spec. change FRAME_SIZE with (2 ^ 12). by rewrite Z.mul_pow2_bits_low by lia.
Qed.

Lemma heap_closed m0 pml4 m : heap_mapped m0 pml4 HEAP_PAGES m →
  ∀ a, HEAP_START ≤ a < HEAP_START + HEAP_SIZE → user_accessible (mem_ram m) pml4 a = false.
Proof.
  intros Hh a Ha. apply not_true_is_false. intros (l & e & Hl & Hb)%user_walk_leaf. rewrite (heap_leaf m0 pml4 m a l e Hh Ha Hl) in Hb. done.
Qed.

Lemma init_heap_ok pml4 m : mem_ok off m → space_wf m pml4 →
  (∀ j, 0 ≤ j < HEAP_PAGES → plain_path (mem_ram m) 3 pml4 (heap_page j) = true) →
  wp (init_heap (Some off) pml4 m) (λ '(res, m'), match res with
    | Ok _ => heap_mapped m pml4 HEAP_PAGES m'
        ∧ ∀ a, HEAP_START ≤ a < HEAP_START + HEAP_SIZE → user_accessible (mem_ram m') pml4 a = false
    | Err _ => heap_failed m pml4 res m'
    end).
Proof.
  intros Hm Hs Hpl. unfold init_heap.
  rewrite virt_new_ok by (left; unfold HEAP_START; lia). cbn [obind]. unfold uadd, usub.
  rewrite checked_ok by (unfold HEAP_START, HEAP_SIZE; lia). cbn [obind].
  rewrite virt_new_ok by (left; unfold HEAP_START, HEAP_SIZE; lia). cbn [obind].
  rewrite checked_ok by (unfold HEAP_START, HEAP_SIZE; lia). cbn [obind].
  rewrite virt_new_ok by (left; unfold HEAP_START, HEAP_SIZE; lia). cbn [obind].
  change (_ / 4096 + 1) with HEAP_PAGES. wp_step.
  eapply wp_mono; [apply (wp_for_range (heap_mapped m pml4) (λ '(res, m'), heap_failed m pml4 res m'))|cbv beta].
  - split; [done|done|apply grown_refl|lia|done|by intros ?|done|]. exists []. split_and!; [done|apply NoDup_nil_2|done].
  - intros j st Hj Hst. eapply wp_mono; [by apply map_heap_page_ok, Hpl|cbv beta]. by intros [?|[? ?]] ?.
  - intros [m'|[res m']] Hr; wp_step.
    + rewrite Z.max_r in Hr by done. split; [done|]. by apply (heap_closed m).
    + destruct Hr as [[e ->] Hr]. split; [by eexists|done].
Qed.

(** The kernel heap.  On a well-formed space whose heap range has an ordinary
    path, [init_heap] returns.  If it succeeds, the 256 pages of the heap are
    present and writable, each in a frame of its own that was free and now has one
    owner, and ring 3 can reach no address of the heap.  It fails only if fewer than
    1024 frames are free or a heap page is mapped already.  Success or not, memory
    and space stay well formed, and every translation outside the heap is as
    before. *)
Theorem init_heap_maps pml4 m : mem_ok off m → space_wf m pml4 →
  (∀ j, 0 ≤ j < HEAP_PAGES → plain_path (mem_ram m) 3 pml4 (heap_page j) = true) →
  wp (init_heap (Some off) pml4 m) (λ '(res, m'), match res with
    | Ok _ => heap_mapped m pml4 HEAP_PAGES m'
        ∧ ∀ a, HEAP_START ≤ a < HEAP_START + HEAP_SIZE → user_accessible (mem_ram m') pml4 a = false
    | Err _ => heap_failed m pml4 res m'
    end).
Proof. apply init_heap_ok. Qed.
End Heap.

(** ** The kernel's own table *)

Section Isolate.
Context `{HP : Profile} `{HE : EntrySpec} `{HV : VirtAddrSpec} `{HA : PhysAddrSpec} (off : Z).
Implicit Types m : mem.

Lemma isolate_ok cr3 m : mem_ok off m → managed m cr3 → 0 < refs (mem_alloc m) (cr3 / FRAME_SIZE) →
  panics_or (∀ g, 0 ≤ g < total_frames (mem_alloc m) → busy (mem_alloc m) g = true)
    (isolate_and_init_paging (Some off) cr3 m) (λ '(p, m'), taken off m m' p
      ∧ ∀ j, 0 ≤ j < 512 → entry_of (mem_ram m') p j = entry_of (mem_ram m) cr3 j).
Proof.
  intros Hm Hcr3 Hrefs. unfold isolate_and_init_paging, hhdm_offset. cbn [obind].
  rewrite (virt_new_off off m) by done. cbn [obind]. rewrite (window_ok off m) by done. cbn [obind].
  eapply panics_or_bind; [by apply system_allocate_frame_ok|cbv beta]. intros [o m1] Ho.
  destruct o as [p|]; [|split; [done|apply Ho]]. destruct Ho as [Htk _]. pose proof Htk as (Hok & _ & Htot & Hx).
  rewrite (window_ok off m1) by (done || by eapply taken_managed). cbn [obind].
  assert (cr3 ≠ p) as Hne by (by eapply taken_ne).
  assert (managed m1 cr3) as Hc1 by (by apply (managed_total m)).
  assert (frame_ok (mem_ram m1) p) as Hp by (eapply managed_frame; [done|by eapply taken_managed]).
  eapply panics_or_bind; [by apply zero_ok|cbv beta]. intros r1 (Hk1 & He1 & Hx1).
  assert (frame_ok r1 cr3) as Hcf by (apply Hk1; by eapply managed_frame).
  eapply panics_or_bind; [apply copy_entries_ok; auto; lia|cbv beta]. intros r2 Hc2.
  eapply panics_or_bind; [apply copy_entries_ok; [by apply Hc2|apply Hc2; auto|done|lia|lia]|cbv beta]. intros r3 Hc3.
  assert (r1 !! cr3 = mem_ram m !! cr3) as Hcr by (rewrite Hx1, Hx by done; done).
  pose proof (seeded_intro _ _ _ _ _ _ _ Hne Hcr He1 Hc2 Hc3) as [Hup Hlo].
  destruct Hc2 as (Hk2 & _ & Hx2), Hc3 as (Hk3 & _ & Hx3). split.
  - apply taken_ram; [done|auto|intros x Hxp; by rewrite Hx3, Hx2, Hx1 by done].
  - intros j Hj. cbn [set_ram mem_ram]. destruct (decide (j < 256)); [|apply Hup; lia]. rewrite Hlo by lia.
    rewrite is_unused_spec. by destruct (Z.eqb_spec (entry_of (mem_ram m) cr3 j) 0).
Qed.

Lemma items_copy n item item' r r' t t' : (n ≤ 512)%nat → (∀ j, 0 ≤ j < 512 → entry_of r' t' j = entry_of r t j) →
  (∀ j, 0 ≤ j < 512 → item' (entry_of r t j) = item (entry_of r t j)) → items n item' r' t' = items n item r t.
Proof.
  intros Hn He Hi. induction n as [|n IH]; [done|]. rewrite !items_S, IH by lia. by rewrite He, Hi by lia.
Qed.

Lemma pt_tables_top r t : pt_tables r 3 t
  = t :: items 512 (λ e, if descends 3 e then pt_tables r 2 (Z.land e PHYS_MASK) else []) r t.
Proof. done. Qed.

(** The new table shares all the tables below with the bootloader's. *)
Lemma isolated_space cr3 m p m' : space_wf m cr3 → taken off m m' p →
  (∀ j, 0 ≤ j < 512 → entry_of (mem_ram m') p j = entry_of (mem_ram m) cr3 j) →
  space_wf m' p ∧ ∀ a, plain_path (mem_ram m') 3 p a = plain_path (mem_ram m) 3 cr3 a
    ∧ slot (mem_ram m') p a = slot (mem_ram m) cr3 a ∧ leaf_walk (mem_ram m') 3 p a = leaf_walk (mem_ram m) 3 cr3 a.
Proof.
  intros Hs Htk He. pose proof Htk as (Hm' & (f & -> & Hf & _ & _ & Hz & Hr) & Ht & Hx).
  assert (∀ x, x ∈ pt_tables (mem_ram m) 3 cr3 → x ≠ f * FRAME_SIZE) as Hn.
  { intros x Hin ->. apply (proj1 (Forall_forall _ _) (sw_owned _ _ Hs)) in Hin as [_ Hp]. rewrite Z.div_mul in Hp by done. lia. }
  assert (∀ j, 0 ≤ j < 512 → descends 3 (entry_of (mem_ram m) cr3 j) = true → ∀ x,
    x ∈ pt_tables (mem_ram m) 2 (Z.land (entry_of (mem_ram m) cr3 j) PHYS_MASK) → mem_ram m' !! x = mem_ram m !! x) as Hsub.
  { intros j Hj Hd x Hin. apply Hx, Hn. by eapply child_tables. }
  assert (pt_tables (mem_ram m') 3 (f * FRAME_SIZE) = (f * FRAME_SIZE) :: tail (pt_tables (mem_ram m) 3 cr3)) as Htab.
  { rewrite !pt_tables_top. cbn [tail]. f_equal. apply items_copy; [done|done|]. intros j Hj. destruct (descends 3 _) eqn:Hd; [|done].
    by destruct (walk_ext _ (mem_ram m') 2 _ (Hsub j Hj Hd)) as [-> _]. }
  pose proof Hs as [Hnd Hown Hres]. rewrite pt_tables_top in Hnd, Hown, Hn. rewrite pt_tables_top in Htab. cbn [tail] in Htab.
  rewrite <- pt_tables_top in Htab. apply NoDup_cons in Hnd as [_ Hnd]. apply Forall_cons in Hown as [_ Hown]. split.
  - split.
    + rewrite Htab. constructor; [|done]. intros Hin. by apply (Hn (f * FRAME_SIZE)); [right|].
    + rewrite Htab. constructor; [|eapply Forall_impl; [exact Hown|]].
      * split; [by eapply taken_managed|]. rewrite Z.div_mul, Hr by done. by rewrite decide_True.
      * intros x [Hxm Hxp]. apply (owned_grown m); try done. by eapply taken_grown.
    + intros i Hi. rewrite He by done. by apply Hres.
  - intros a. pose proof (idx_range 3 a) as Hi. unfold slot.
    assert (∀ r t, plain_path r 3 t a = (let e := entry_of r t (idx 3 a) in
      (e =? 0) || (Z.testbit e 0 && negb (Z.testbit e 7) && plain_path r 2 (Z.land e PHYS_MASK) a))
      ∧ leaf_table r 3 t a = (let e := entry_of r t (idx 3 a) in
          if Z.testbit e 0 then leaf_table r 2 (Z.land e PHYS_MASK) a else None)
      ∧ leaf_walk r 3 t a = (let e := entry_of r t (idx 3 a) in
          if Z.testbit e 0 then leaf_walk r 2 (Z.land e PHYS_MASK) a else None)) as Hst.
    { intros r t. split; [done|]. split; [|done]. cbn [leaf_table]. unfold descends. by rewrite andb_true_r. }
    destruct (Hst (mem_ram m) cr3) as (-> & -> & ->). destruct (Hst (mem_ram m') (f * FRAME_SIZE)) as (-> & -> & ->). cbv zeta. rewrite He by done.
    destruct (Z.testbit (entry_of (mem_ram m) cr3 (idx 3 a)) 0) eqn:E0; [|done].
    pose proof (Hsub _ Hi ltac:(unfold descends; by rewrite E0)) as Hc.
    destruct (walk_ext _ (mem_ram m') 2 _ Hc) as [_ Hw]. destruct (Hw a) as (-> & -> & _ & _ & ->). split; [done|]. split; [|done].
    destruct (leaf_table (mem_ram m) 2 _ a) as [x|] eqn:El; [|done]. cbn [fmap option_fmap option_map]. f_equal.
    apply entry_of_frame, Hc. by eapply leaf_table_in.
Qed.
End Isolate.

(** ** Bringing up the memory *)

Section MmProofs.
Context `{HP : Profile} `{HE : EntrySpec} `{HV : VirtAddrSpec} `{HA : PhysAddrSpec} (off : Z) `{HM : Mapper} `{HMS : !MapperSpec off}.

(** What the bootloader hands over: a memory map with room for the metadata, the
    direct map, and page tables in frames that are not usable memory, in which the
    heap range has an ordinary path and is not mapped. *)
Record handover (entries : list memmap_entry) (cr3 : Z) (r : ram) : Prop := {
  ho_entries : Forall entry_ok entries;
  ho_metadata : ∃ region, find (hosts_metadata (total_of entries)) entries = Some region ∧ off + base region < 2 ^ 64;
  ho_off : canonical off ∧ 0 ≤ off;
  ho_phys : total_of entries * FRAME_SIZE ≤ 2 ^ 52;
  ho_hhdm p : 0 ≤ p < total_of entries * FRAME_SIZE → canonical (off + p);
  ho_ram f : 0 ≤ f < total_of entries → frame_ok r (f * FRAME_SIZE);
  ho_tables : NoDup (pt_tables r 3 cr3);
  ho_kept : Forall (λ x, ∃ f, x = f * FRAME_SIZE ∧ 0 ≤ f < total_of entries ∧ usable_frame entries f = false) (pt_tables r 3 cr3);
  ho_reserved i : 0 ≤ i < 512 → Z.testbit (entry_of r cr3 i) 7 = false;
  ho_heap j : 0 ≤ j < HEAP_PAGES → plain_path r 3 cr3 (heap_page j) = true ∧ mapped r cr3 (heap_page j) = false;
}.

(** Fewer frames are free than the kernel's table and the heap may need. *)
Definition few_frames (entries : list memmap_entry) : Prop :=
  ∃ a, init empty (Some entries) (Some off) = Ret a ∧ free_frames a < 1 + 4 * HEAP_PAGES.

Lemma handover_space entries cr3 r a : handover entries cr3 r → WF a → total_frames a = total_of entries →
  (∀ f, 0 ≤ f < total_of entries → busy a f = false → usable_frame entries f = true) →
  mem_ok off (mkMem a r) ∧ space_wf (mkMem a r) cr3.
Proof.
  intros [_ _ Hoff Hph Hhh Hram Hnd Hk Hres _] Hwf Ht Hb. split; split; cbn [mem_alloc mem_ram]; rewrite ?Ht; try done; [apply Hoff|].
  eapply Forall_impl; [exact Hk|]. intros x (f & -> & Hf & Hu). split; [exists f; cbn [mem_alloc]; by rewrite Ht|].
  rewrite Z.div_mul by done. assert (busy a f = true) as Hbf.
  { destruct (busy a f) eqn:E; [done|]. rewrite (Hb f Hf E) in Hu. done. }
  rewrite (wf_sync a Hwf) in Hbf by lia. lia.
Qed.

(** What the memory subsystem hands on: [p] is the kernel's table. *)
Record mm_ready (entries : list memmap_entry) (cr3 : Z) (r : ram) (p : Z) (m : mem) : Prop := {
  mr_ok : mem_ok off m;
  mr_wf : space_wf m p;
  mr_frames : ∃ a, init empty (Some entries) (Some off) = Ret a
    ∧ (∀ f, 0 ≤ f < total_of entries → busy a f = false → usable_frame entries f = true ∧ f ≠ 0)
    ∧ grown (mkMem a r) m ∧ free_frames a ≤ nfree m + (1 + 4 * HEAP_PAGES);
  mr_heap : ∃ m1, heap_mapped off m1 p HEAP_PAGES m ∧ ∀ j, 0 ≤ j < 512 → entry_of (mem_ram m1) p j = entry_of r cr3 j;
  mr_closed : ∀ a, HEAP_START ≤ a < HEAP_START + HEAP_SIZE → user_accessible (mem_ram m) p a = false;
  mr_plain : ∀ a, 0 ≤ a < 2 ^ 47 → plain_path r 3 cr3 a = true → plain_path (mem_ram m) 3 p a = true;
  mr_same : ∀ a, 0 ≤ a < 2 ^ 47 → ¬ (HEAP_START ≤ a < HEAP_START + HEAP_SIZE) →
    leaf_walk (mem_ram m) 3 p a = leaf_walk r 3 cr3 a ∧ mapped (mem_ram m) p a = mapped r cr3 a;
}.

Lemma mm_init_ok entries cr3 r : handover entries cr3 r →
  panics_or (few_frames entries) (mm_init (Some off) (Some entries) cr3 empty r) (λ '(p, m), mm_ready entries cr3 r p m).
Proof.
  intros Hh. destruct (ho_metadata _ _ _ Hh) as (region & Hfind & Hreg). destruct (ho_off _ _ _ Hh) as [Hcan Hoff].
  unfold mm_init. rewrite virt_new_ok by done. cbn [obind].
  pose proof (init_spec entries region off (ho_entries _ _ _ Hh) Hfind Hoff Hreg) as Hi. unfold few_frames.
  destruct (init empty (Some entries) (Some off)) as [a|] eqn:Ei; [|done]. cbn [obind wp] in *. destruct Hi as (Hwf & Ht & Hb & _).
  destruct (handover_space entries cr3 r a Hh Hwf Ht) as [Hm Hs]; [intros f Hf Hbf; by apply Hb in Hbf as [? _]|].
  pose proof (proj1 (Forall_forall _ _) (sw_owned _ _ Hs) cr3 ltac:(left)) as [Hman Hrefs].
  pose proof (isolate_ok off cr3 _ Hm Hman Hrefs) as Hiso.
  destruct (isolate_and_init_paging (Some off) cr3 (mkMem a r)) as [[p m1]|] eqn:Ep; cbn [obind panics_or] in *.
  2: { destruct Hiso as [-> Hall]. split; [done|]. exists a. split; [done|].
       pose proof (free_frames_none _ Hall) as E0. cbn [mem_alloc] in E0. rewrite E0. done. }
  destruct Hiso as [Htk He]. destruct (isolated_space off cr3 _ p m1 Hs Htk He) as [Hs1 Hpl].
  pose proof (taken_free _ _ _ _ Hm Htk) as Hfr. pose proof (init_heap_ok off p m1 (proj1 Htk) Hs1) as Hheap.
  match type of Hheap with ?P → _ => assert P as Hplain end.
  { intros j Hj. destruct (Hpl (heap_page j)) as [-> _]. by apply (ho_heap _ _ _ Hh). }
  specialize (Hheap Hplain). destruct (init_heap (Some off) p m1) as [[res m2]|] eqn:Eh; [|done]. cbn [obind wp] in *.
  destruct res as [[]|e]; cbn [panics_or].
  - destruct Hheap as [Hmap Hcl]. split; [apply Hmap|apply Hmap| |by exists m1|done| |].
    + exists a. split; [done|]. split; [intros f Hf Hbf; by apply Hb in Hbf as (? & _ & ?)|].
      split; [eapply grown_trans; [by eapply taken_grown|apply Hmap]|]. pose proof (hm_cost _ _ _ _ _ Hmap). cbn [mem_alloc] in Hfr. lia.
    + intros x Hx Hp. apply (hm_plain _ _ _ _ _ Hmap x Hx). by destruct (Hpl x) as (-> & _).
    + intros x Hx Hout. destruct (hm_others _ _ _ _ _ Hmap x Hx Hout) as [-> ->]. destruct (Hpl x) as (_ & Hsl & ->). unfold mapped. by rewrite Hsl.
  - split; [done|]. exists a. split; [done|]. destruct Hheap as (_ & [Hfew|(j & Hj & Hbad)] & _); [cbn [mem_alloc] in Hfr; lia|].
    unfold mapped in Hbad. destruct (Hpl (heap_page j)) as (_ & Hsl & _). rewrite Hsl in Hbad.
    destruct (ho_heap _ _ _ Hh j Hj) as [_ Hno]. unfold mapped in Hno. cbn [mem_ram] in Hbad. congruence.
Qed.

(** C9: the memory subsystem comes up.  From what the bootloader hands over, [mm_init]
    returns a kernel table and a memory in which allocator and space are well formed;
    only usable frames other than frame 0 were ever free, and none was released; the
    new table translates as the bootloader's did outside the heap, and the heap is
    mapped to frames of its own and closed to ring 3.  It panics only if fewer than
    1025 frames are free: one for the table, and four per page of the heap. *)
Theorem mm_init_ready entries cr3 r : handover entries cr3 r →
  panics_or (few_frames entries) (mm_init (Some off) (Some entries) cr3 empty r) (λ '(p, m), mm_ready entries cr3 r p m).
Proof. apply mm_init_ok. Qed.
End MmProofs.

(** ** Witnesses *)

Module HeapSample.
(** The tables of [Paging.Sample] in reserved frames, and 1200 usable ones. *)
Definition entries : list memmap_entry :=
  [mkEntry 0 (10 * 4096) MEMMAP_OTHER; mkEntry (10 * 4096) (1200 * 4096) MEMMAP_USABLE].
Definition memory : ram :=
  list_to_map (imap (λ i b, (Z.of_nat i * FRAME_SIZE, b)) (Sample.contents ++ replicate 1200 zero_frame)).

(** A memory given by the list of its frames. *)
Lemma frames_lookup (l : list (list Z)) n b : l !! n = Some b →
  (list_to_map (imap (λ i b, (Z.of_nat i * FRAME_SIZE, b)) l) : ram) !! (Z.of_nat n * FRAME_SIZE) = Some b.
Proof.
  intros Hn. apply elem_of_list_to_map_1.
  - apply NoDup_alt. intros i j x Hi Hj. rewrite list_lookup_fmap, list_lookup_imap in Hi, Hj.
    destruct (l !! i), (l !! j); try done. cbn in Hi, Hj. unfold FRAME_SIZE in *. simplify_eq. lia.
  - apply elem_of_lookup_imap. by exists n, b.
Qed.

Lemma frames_ok (l : list (list Z)) f : Forall (λ b, length b = 4096%nat ∧ Forall (λ x, is_byte x) b) l → 0 ≤ f < Z.of_nat (length l) →
  frame_ok (list_to_map (imap (λ i b, (Z.of_nat i * FRAME_SIZE, b)) l)) (f * FRAME_SIZE).
Proof.
  intros Hl Hf. destruct (lookup_lt_is_Some_2 l (Z.to_nat f)) as [b Hb]; [lia|]. exists b. split.
  - rewrite <- (Z2Nat.id f) by lia. by apply frames_lookup.
  - exact (Forall_lookup_1 _ _ _ _ Hl Hb).
Qed.

Lemma zero_frames n : Forall (λ b, length b = 4096%nat ∧ Forall (λ x, is_byte x) b) (replicate n zero_frame).
Proof. apply Forall_replicate. split; [apply length_replicate|]. apply Forall_replicate. lia. Qed.

Lemma contents_ok : Forall (λ b, length b = 4096%nat ∧ Forall (λ x, is_byte x) b) Sample.contents.
Proof.
  assert (forallb (λ b, (length b =? 4096)%nat && forallb (fits 8) b) Sample.contents = true) as Hb by (vm_compute; reflexivity).
  apply Forall_forall. intros b Hin. rewrite forallb_forall in Hb. specialize (Hb b ltac:(by apply list_elem_of_In)).
  apply andb_true_iff in Hb as [Hlen Hf]. split; [by apply Nat.eqb_eq|]. apply Forall_forall. intros x Hx.
  rewrite forallb_forall in Hf. specialize (Hf x ltac:(by apply list_elem_of_In)). unfold fits in Hf. lia.
Qed.

Lemma heap_plain j : 0 ≤ j < HEAP_PAGES → plain_path memory 3 4096 (heap_page j) = true ∧ mapped memory 4096 (heap_page j) = false.
Proof.
  intros Hj. apply (all_below_spec 256 (λ j, plain_path memory 3 4096 (heap_page j) && negb (mapped memory 4096 (heap_page j)))) in Hj;
    [|vm_compute; reflexivity]. apply andb_true_iff in Hj as [? ?%negb_true_iff]. done.
Qed.

Lemma heap_tables_eq : pt_tables memory 3 4096 = [0x1000; 0x2000; 0x3000; 0x4000; 0x9000].
Proof. vm_compute. reflexivity. Qed.

Lemma tables_reserved : Forall (λ x, ∃ f, x = f * FRAME_SIZE ∧ 0 ≤ f < total_of entries ∧ usable_frame entries f = false)
  (pt_tables memory 3 4096).
Proof.
  rewrite heap_tables_eq. repeat (apply Forall_cons; split); try (apply Forall_nil; exact I).
  - exists 1. vm_compute. intuition discriminate.
  - exists 2. vm_compute. intuition discriminate.
  - exists 3. vm_compute. intuition discriminate.
  - exists 4. vm_compute. intuition discriminate.
  - exists 9. vm_compute. intuition discriminate.
Qed.

Lemma sample_handover : handover Sample.off entries 4096 memory.
Proof.
  split.
  - repeat constructor; vm_compute; congruence.
  - exists (mkEntry (10 * 4096) (1200 * 4096) MEMMAP_USABLE). split; vm_compute; reflexivity.
  - split; [apply (mo_off _ _ Sample.ok)|vm_compute; discriminate].
  - vm_compute. discriminate.
  - intros p Hp. change (total_of entries * FRAME_SIZE) with 4956160 in Hp. right. unfold Sample.off. lia.
  - intros f Hf. apply frames_ok; [apply Forall_app; split; [exact contents_ok|apply zero_frames]|exact Hf].
  - rewrite heap_tables_eq. apply (bool_decide_unpack _). vm_compute. exact I.
  - exact tables_reserved.
  - intros i Hi. apply (all_below_spec 512 (λ i, negb (Z.testbit (entry_of memory 4096 i) 7))) in Hi;
      [by apply negb_true_iff|vm_compute; reflexivity].
  - exact heap_plain.
Qed.

Lemma enough : ~ few_frames (HP := true) Sample.off entries.
Proof.
  intros (a & Ha & Hf). assert (match @init true empty (Some entries) (Some Sample.off) with Ret a => 1025 <=? free_frames a | Stop _ => false end = true)
    as Hc by (vm_compute; reflexivity). rewrite Ha in Hc. apply Z.leb_le in Hc. change (1 + 4 * HEAP_PAGES) with 1025 in Hf. lia.
Qed.
End HeapSample.

Lemma init_heap_maps_witness :
  wp (@init_heap true checked_virt_new masked_phys_new table_mapper (Some Sample.off) 4096 SpaceSample.m) (λ '(res, m'), match res with
    | Ok _ => user_accessible (mem_ram m') 4096 HEAP_START = false
    | Err _ => mem_ok Sample.off m'
    end).
Proof.
  eapply wp_mono.
  - apply (@init_heap_maps true checked_virt_new checked_virt_new_spec masked_phys_new masked_phys_new_spec Sample.off
      table_mapper sample_mapper 4096 SpaceSample.m SpaceSample.space_ok SpaceSample.sample_space_wf).
    intros j Hj. apply (all_below_spec 256 (λ j, plain_path SpaceSample.memory 3 4096 (heap_page j))); [vm_compute; reflexivity|exact Hj].
  - intros [[u|e] m'].
    + intros [_ Hc]. apply Hc. split; [apply Z.le_refl|reflexivity].
    + intros (_ & _ & Hm & _). exact Hm.
Defined.

Lemma mm_init_ready_witness :
  wp (@mm_init true checked_virt_new masked_phys_new x86_entries table_mapper (Some Sample.off) (Some HeapSample.entries) 4096 empty HeapSample.memory)
    (λ '(p, m), mem_ok Sample.off m ∧ user_accessible (mem_ram m) p HEAP_START = false).
Proof.
  pose proof (@mm_init_ready true x86_entries x86_entries_spec checked_virt_new checked_virt_new_spec masked_phys_new masked_phys_new_spec
    Sample.off table_mapper sample_mapper HeapSample.entries 4096 HeapSample.memory HeapSample.sample_handover) as Hr.
  destruct (mm_init _ _ _ _ _) as [[p m]|e].
  - destruct Hr as [Hm _ _ _ Hc _ _]. split; [exact Hm|]. apply Hc. split; [apply Z.le_refl|reflexivity].
  - destruct Hr as [_ Hf]. destruct (HeapSample.enough Hf).
Defined.
