(* ===== verification/Keyboard.v ===== *)
(** * The keyboard driver (src/src/drivers/input/keyboard.rs)

    The ring buffer of decoded characters is written by the keyboard interrupt
    ([push_key]) and read by tasks ([pop_key]).  An interrupt can arrive
    between any two memory accesses of [pop_key], so the model of [pop_key] is a
    step machine, one step per atomic access, with [push_key] interleaved as a
    whole.  The theorem: the ring is a bounded FIFO of 255 characters.

    The scancode decoder is the [pc_keyboard] crate, a parameter of
    [process_scancode]. *)

From S2P Require Import Prelude KError Fd X86 Task TaskManager.

#[local] Open Scope list_scope.

Definition BUF_SIZE : Z := 256.

(** ** The ring buffer *)

Record ring := mkRing { BUFFER : list Z; HEAD : Z; TAIL : Z }.

Definition ring_init : ring := mkRing (replicate 256 0) 0 0.

Section Ring.
Context `{Profile}.

Definition push_key (r : ring) (ch : Z) : outcome ring :=
  let tail := TAIL r in
  t1 <- uadd 64 tail 1;;
  let next_tail := t1 mod BUF_SIZE in
  if negb (next_tail =? HEAD r) then
    b <- vset (BUFFER r) tail ch;;
    Ret (mkRing b (HEAD r) next_tail)
  else Ret r.

(** [pop_key] run without interruption. *)
Definition pop_key (r : ring) : outcome (option Z * ring) :=
  let head := HEAD r in
  if head =? TAIL r then Ret (None, r)
  else
    ch <- vget (BUFFER r) head;;
    h1 <- uadd 64 head 1;;
    Ret (Some ch, mkRing (BUFFER r) (h1 mod BUF_SIZE) (TAIL r)).

(** The points of [pop_key] at which an interrupt can arrive: before it, after
    the load of [HEAD], after the comparison with [TAIL], after the read of the
    slot. *)
Inductive pop_pc :=
| PopIdle
| PopLoaded (head : Z)
| PopNonempty (head : Z)
| PopGot (head ch : Z).

(** Observable events: a key pushed, a [pop_key] returning. *)
Inductive key_label := Tau | Pushed (ch : Z) | Popped (o : option Z).

Inductive key_step : pop_pc * ring → key_label → pop_pc * ring → Prop :=
| key_irq pc r ch r' : push_key r ch = Ret r' → key_step (pc, r) (Pushed ch) (pc, r')
| key_load r : key_step (PopIdle, r) Tau (PopLoaded (HEAD r), r)
| key_empty h r : h = TAIL r → key_step (PopLoaded h, r) (Popped None) (PopIdle, r)
| key_some h r : h ≠ TAIL r → key_step (PopLoaded h, r) Tau (PopNonempty h, r)
| key_read h r ch : vget (BUFFER r) h = Ret ch → key_step (PopNonempty h, r) Tau (PopGot h ch, r)
| key_store h ch r h1 : uadd 64 h 1 = Ret h1 →
    key_step (PopGot h ch, r) (Popped (Some ch)) (PopIdle, mkRing (BUFFER r) (h1 mod BUF_SIZE) (TAIL r)).

Inductive key_run : pop_pc * ring → list key_label → pop_pc * ring → Prop :=
| key_run_nil s : key_run s [] s
| key_run_cons s l s' ls s'' : key_step s l s' → key_run s' ls s'' → key_run s (l :: ls) s''.
End Ring.

(** ** Decoding scancodes *)

Inductive KeyCode := KReturn | KBackspace | KArrowUp | KArrowDown | KArrowRight | KArrowLeft | KOther (n : Z).

Inductive DecodedKey := Unicode (ch : Z) | RawKey (k : KeyCode).

(** What the driver uses of [pc_keyboard::Keyboard]: a decoder state, the byte
    feed and the key-event decoder. *)
Class KeyDecoder := {
  decoder : Type;
  key_event : Type;
  add_byte : decoder → Z → decoder * result (option key_event) unit;
  process_keyevent : decoder → key_event → decoder * option DecodedKey;
}.

Section Scancode.
Context `{Profile} `{KeyDecoder} {V : Type}.

(** The driver's statics and the task manager it may call. *)
Record kbd := mkKbd { KEYBOARD : decoder; buffer : ring; kbd_tm : TaskManager V }.

Definition push_keys (r : ring) (l : list Z) : outcome ring := mfold push_key r l.

(** Ctrl+C ends the current task, unless it is the reaper. *)
Definition ctrl_c (t : TaskManager V) : TaskManager V :=
  match current_task t with
  | Some i => if 1 <? i then exit_current_task t else t
  | None => t
  end.

Definition raw_keys (k : KeyCode) : list Z :=
  match k with
  | KReturn => [10]
  | KBackspace => [8]
  | KArrowUp => [27; 91; 65]
  | KArrowDown => [27; 91; 66]
  | KArrowRight => [27; 91; 67]
  | KArrowLeft => [27; 91; 68]
  | KOther _ => []
  end.

Definition process_scancode (k : kbd) (scancode : Z) : outcome kbd :=
  let '(d, ev) := add_byte (KEYBOARD k) scancode in
  match ev with
  | Ok (Some key_ev) =>
      let '(d, key) := process_keyevent d key_ev in
      match key with
      | Some (Unicode ch) =>
          if ch =? 3 then Ret (mkKbd d (buffer k) (ctrl_c (kbd_tm k)))
          else r <- push_key (buffer k) ch;; Ret (mkKbd d r (kbd_tm k))
      | Some (RawKey key) => r <- push_keys (buffer k) (raw_keys key);; Ret (mkKbd d r (kbd_tm k))
      | None => Ret (mkKbd d (buffer k) (kbd_tm k))
      end
  | _ => Ret (mkKbd d (buffer k) (kbd_tm k))
  end.
End Scancode.

(** ** Specification: a bounded FIFO *)

Definition CAPACITY : nat := 255.

Definition fifo_push (q : list Z) (ch : Z) : list Z :=
  if decide (length q < CAPACITY)%nat then q ++ [ch] else q.

Inductive fifo_step : list Z → key_label → list Z → Prop :=
| fifo_tau q : fifo_step q Tau q
| fifo_pushed q ch : fifo_step q (Pushed ch) (fifo_push q ch)
| fifo_none : fifo_step [] (Popped None) []
| fifo_some ch q : fifo_step (ch :: q) (Popped (Some ch)) q.

Inductive fifo_run : list Z → list key_label → list Z → Prop :=
| fifo_run_nil q : fifo_run q [] q
| fifo_run_cons q l q' ls q'' : fifo_step q l q' → fifo_run q' ls q'' → fifo_run q (l :: ls) q''.

(** ** The ring represents a queue *)

Record ring_rel (r : ring) (q : list Z) : Prop := {
  rr_len : length (BUFFER r) = 256%nat;
  rr_head : 0 ≤ HEAD r < 256;
  rr_tail : TAIL r = (HEAD r + Z.of_nat (length q)) mod 256;
  rr_cap : (length q ≤ CAPACITY)%nat;
  rr_slots : ∀ i ch, q !! i = Some ch →
    BUFFER r !! Z.to_nat ((HEAD r + Z.of_nat i) mod 256) = Some ch;
}.

Section RingProofs.
Context `{Profile}.

Lemma ring_rel_init : ring_rel ring_init [].
Proof. split; simpl; try done. unfold CAPACITY. lia. Qed.

Lemma push_key_spec r q ch : ring_rel r q →
  wp (push_key r ch) (λ r', ring_rel r' (fifo_push q ch) ∧ HEAD r' = HEAD r
    ∧ ((0 < length q)%nat → BUFFER r' !! Z.to_nat (HEAD r) = BUFFER r !! Z.to_nat (HEAD r))).
Proof.
  intros [Hlen Hh Ht Hcap Hs]. unfold push_key, BUF_SIZE, CAPACITY in *.
  wp_step. apply wp_checked; [zlia|]. unfold fifo_push, CAPACITY.
  destruct (Z.eqb_spec ((TAIL r + 1) mod 256) (HEAD r)) as [E|E]; cbn [negb].
  - rewrite decide_False by zlia. wp_step. by split_and!; [split| |].
  - rewrite decide_True by zlia. wp_step. apply wp_vset; [rewrite Hlen; zlia|]. wp_step.
    split_and!; simpl; [|done|].
    + split; simpl; [by rewrite length_insert|done|rewrite length_app; simpl; zlia
        |rewrite length_app; simpl; unfold CAPACITY; zlia|].
      intros i c Hi. apply lookup_app_Some in Hi as [Hi|[Hle Hi]].
      * pose proof (lookup_lt_Some _ _ _ Hi). rewrite list_lookup_insert_ne; [by apply Hs|].
        intros Heq. apply Z2Nat.inj in Heq; zlia.
      * apply list_lookup_singleton_Some in Hi as [Hi <-].
        replace (HEAD r + Z.of_nat i) with (HEAD r + Z.of_nat (length q)) by lia.
        rewrite <- Ht. apply list_lookup_insert_eq. rewrite Hlen. zlia.
    + intros Hq. rewrite list_lookup_insert_ne; [done|]. intros Heq. apply Z2Nat.inj in Heq; zlia.
Qed.

(** Removing the front moves the head. *)
Lemma ring_rel_pop r ch q : ring_rel r (ch :: q) →
  ring_rel (mkRing (BUFFER r) ((HEAD r + 1) mod 256) (TAIL r)) q.
Proof.
  intros [Hlen Hh Ht Hcap Hs]. unfold CAPACITY in *. simpl in *. split; simpl; try done; [zlia|zlia|unfold CAPACITY; lia|].
  intros i c Hi. specialize (Hs (S i) c Hi). rewrite <- Hs. f_equal. f_equal. zlia.
Qed.

(** The local state of [pop_key] agrees with the queue. *)
Definition pc_rel (pc : pop_pc) (r : ring) (q : list Z) : Prop :=
  match pc with
  | PopIdle => True
  | PopLoaded h => h = HEAD r
  | PopNonempty h => h = HEAD r ∧ q ≠ []
  | PopGot h ch => h = HEAD r ∧ head q = Some ch
  end.

Definition key_rel (s : pop_pc * ring) (q : list Z) : Prop := ring_rel s.2 q ∧ pc_rel s.1 s.2 q.

Lemma head_push q ch : q ≠ [] → head (fifo_push q ch) = head q ∧ fifo_push q ch ≠ [].
Proof. intros Hq. unfold fifo_push. destruct q; [done|]. by case_decide. Qed.

Lemma key_step_sim s l s' q : key_rel s q → key_step s l s' →
  ∃ q', fifo_step q l q' ∧ key_rel s' q'.
Proof.
  intros [Hr Hpc] Hstep.
  destruct Hstep as [pc r ch r' Hp|r|h r E|h r E|h r ch Hg|h ch r h1 Ha]; cbn [fst snd] in *.
  - pose proof (push_key_spec r q ch Hr) as Hw. rewrite Hp in Hw. destruct Hw as (Hr' & Hh & _).
    exists (fifo_push q ch). split; [constructor|]. split; [done|].
    destruct pc as [|h|h|h c]; simpl in *; rewrite ?Hh; try done.
    + destruct Hpc as [? Hq]. split; [done|by apply head_push].
    + destruct Hpc as [? Hq]. split; [done|]. rewrite (proj1 (head_push q ch ltac:(by intros ->))). done.
  - exists q. split; [constructor|]. by split.
  - destruct Hr as [Hlen Hh Ht Hcap Hs]. simpl in Hpc. unfold CAPACITY in Hcap.
    assert (q = []) as -> by (apply nil_length_inv; zlia).
    exists []. split; [constructor|]. by split; [split|].
  - exists q. split; [constructor|]. split; [done|]. simpl in *. split; [done|].
    intros ->. destruct Hr as [Hlen Hh Ht Hcap Hs]. simpl in Ht. zlia.
  - exists q. split; [constructor|]. split; [done|]. destruct Hpc as [-> Hq]. split; [done|].
    destruct q as [|c q]; [done|]. destruct Hr as [Hlen Hh Ht Hcap Hs]. specialize (Hs 0%nat c eq_refl).
    rewrite Z.add_0_r, Z.mod_small in Hs by lia. unfold vget in Hg. rewrite Hs in Hg. simpl. congruence.
  - destruct Hpc as [-> Hq]. destruct q as [|c q]; [done|]. simpl in Hq. injection Hq as ->.
    exists q. split; [constructor|]. split; [|done]. cbn [fst snd].
    unfold uadd in Ha. rewrite checked_ok in Ha by (destruct Hr; lia). injection Ha as <-.
    by eapply ring_rel_pop.
Qed.

Lemma pop_progress s q : key_rel s q → ∃ l s', key_step s l s' ∧ ∀ ch, l ≠ Pushed ch.
Proof.
  destruct s as [[|h|h|h ch] r]; intros [Hr Hpc]; cbn [fst snd] in *.
  - eexists _, _. split; [apply key_load|intros ? [=]].
  - destruct (decide (h = TAIL r)); eexists _, _;
      (split; [first [by apply key_empty|by apply key_some]|intros ? [=]]).
  - destruct Hpc as [-> Hq]. destruct (lookup_lt_is_Some_2 (BUFFER r) (Z.to_nat (HEAD r))) as [x Hx].
    { rewrite (rr_len _ _ Hr). pose proof (rr_head _ _ Hr). lia. }
    eexists _, _. split; [apply key_read; unfold vget; by rewrite Hx|intros ? [=]].
  - destruct Hpc as [-> _]. eexists _, _.
    split; [eapply key_store; apply checked_ok; pose proof (rr_head _ _ Hr); lia|intros ? [=]].
Qed.

Lemma push_progress s q ch : key_rel s q → ∃ s', key_step s (Pushed ch) s'.
Proof.
  destruct s as [pc r]. intros [Hr _]. pose proof (push_key_spec r q ch Hr) as Hp.
  apply wp_inv in Hp as (r' & Hp & _). eexists. by constructor.
Qed.

(** C25: the keyboard buffer is a FIFO of capacity 255, even with interrupts in
    the middle of [pop_key].  Every interleaving of key interrupts with the
    memory accesses of [pop_key] has the observable behaviour of the abstract
    queue: characters come out in the order they were pushed, none is lost or
    repeated as long as fewer than 255 are waiting, and [pop_key] answers
    [None] only when the queue is empty.  Neither side ever gets stuck: the
    next access of [pop_key] and the next interrupt can always be taken. *)
Theorem keyboard_ring_refines_fifo s q ls s' :
  key_rel s q → key_run s ls s' →
  ∃ q', fifo_run q ls q' ∧ key_rel s' q'
    ∧ (∃ l s'', key_step s' l s'' ∧ ∀ ch, l ≠ Pushed ch) ∧ ∀ ch, ∃ s'', key_step s' (Pushed ch) s''.
Proof.
  intros Hrel Hrun. revert q Hrel. induction Hrun as [s|s l s1 ls s2 Hstep _ IH]; intros q Hrel.
  - exists q. split; [constructor|]. split; [done|]. split; [by eapply pop_progress|intros ch; by eapply push_progress].
  - destruct (key_step_sim s l s1 q Hrel Hstep) as (q1 & Hq1 & Hrel1).
    destruct (IH q1 Hrel1) as (q2 & Hq2 & Hrel2). exists q2. split; [by econstructor|done].
Qed.

(** [pop_key] without interruption takes the front of the queue. *)
Lemma pop_key_spec r q : ring_rel r q →
  wp (pop_key r) (λ '(o, r'), o = head q ∧ ring_rel r' (tail q)).
Proof.
  intros Hr. unfold pop_key, BUF_SIZE. pose proof Hr as [Hlen Hh Ht Hcap Hs]. unfold CAPACITY in Hcap.
  destruct (Z.eqb_spec (HEAD r) (TAIL r)) as [E|E].
  - assert (q = []) as -> by (apply nil_length_inv; zlia). by wp_step.
  - destruct q as [|ch q]; [simpl in Ht; zlia|]. specialize (Hs 0%nat ch eq_refl).
    rewrite Z.add_0_r, Z.mod_small in Hs by lia. wp_step. apply (wp_vget _ _ _ _ Hs).
    wp_step. apply wp_checked; [lia|]. wp_step. split; [done|]. by apply ring_rel_pop with ch.
Qed.
End RingProofs.

(** ** Scancodes *)

Section ScancodeProofs.
Context `{Profile} `{KeyDecoder} {V : Type}.

(** The key a scancode completes, if any. *)
Definition decoded (d : decoder) (scancode : Z) : option DecodedKey :=
  match add_byte d scancode with
  | (d', Ok (Some ev)) => (process_keyevent d' ev).2
  | _ => None
  end.

(** The characters a key stands for: Ctrl+C is not a character. *)
Definition key_chars (k : option DecodedKey) : list Z :=
  match k with
  | Some (Unicode ch) => if ch =? 3 then [] else [ch]
  | Some (RawKey k) => raw_keys k
  | None => []
  end.

Definition is_ctrl_c (k : option DecodedKey) : bool :=
  match k with Some (Unicode ch) => ch =? 3 | _ => false end.

Lemma push_keys_spec r q l : ring_rel r q →
  wp (push_keys r l) (λ r', ring_rel r' (foldl fifo_push q l)).
Proof.
  unfold push_keys. revert r q. induction l as [|ch l IH]; intros r q Hr; cbn [mfold foldl]; [done|].
  wp_step. eapply wp_mono; [by apply push_key_spec|cbv beta]. intros r' (Hr' & _). by apply IH.
Qed.

(** A keyboard interrupt returns, appends to the buffer exactly the
    characters of the decoded key (an ANSI escape sequence for an arrow), and
    touches the task manager only on Ctrl+C, when it ends the current task;
    the reaper, task 1, is never ended. *)
Theorem process_scancode_effect (k : @kbd _ V) scancode q :
  ring_rel (buffer k) q → tm_inv (kbd_tm k) →
  let key := decoded (KEYBOARD k) scancode in
  wp (process_scancode k scancode) (λ k',
    ring_rel (buffer k') (foldl fifo_push q (key_chars key)) ∧ tm_inv (kbd_tm k')
    ∧ kbd_tm k' =
        (if is_ctrl_c key && match current_task (kbd_tm k) with Some i => 1 <? i | None => false end
         then exit_current_task (kbd_tm k) else kbd_tm k)).
Proof.
  intros Hr Hinv key. unfold process_scancode. unfold key, decoded.
  destruct (add_byte (KEYBOARD k) scancode) as [d [[ev|]|]]; try (wp_step; done).
  destruct (process_keyevent d ev) as [d' [[ch|rk]|]]; cbn [snd key_chars is_ctrl_c].
  - destruct (Z.eqb_spec ch 3) as [->|]; cbn [andb].
    + wp_step. unfold ctrl_c. simpl. split_and!; [done| |].
      * repeat case_match; auto with nwin.
      * by destruct (current_task (kbd_tm k)).
    + wp_step. eapply wp_mono; [by apply push_key_spec|cbv beta]. intros r' (Hr' & _). by wp_step.
  - wp_step. eapply wp_mono; [by apply push_keys_spec|cbv beta]. intros r' Hr'. by wp_step.
  - by wp_step.
Qed.
End ScancodeProofs.

(** A run in which an interrupt lands between the accesses of [pop_key]. *)
Lemma keyboard_ring_refines_fifo_witness :
  ∃ q', fifo_run [] [Pushed 65; Tau; Pushed 66; Tau; Tau; Popped (Some 65)] q'.
Proof.
  destruct (@keyboard_ring_refines_fifo true (PopIdle, ring_init) []
    [Pushed 65; Tau; Pushed 66; Tau; Tau; Popped (Some 65)]
    (PopIdle, mkRing (65 :: 66 :: replicate 254 0) 1 2)) as (q' & Hq & _).
  - split; [apply ring_rel_init|exact I].
  - eapply key_run_cons; [apply key_irq; vm_compute; reflexivity|].
    eapply key_run_cons; [apply key_load|].
    eapply key_run_cons; [apply key_irq; vm_compute; reflexivity|].
    eapply key_run_cons; [apply key_some; vm_compute; discriminate|].
    eapply key_run_cons; [apply key_read; vm_compute; reflexivity|].
    eapply key_run_cons; [eapply key_store; vm_compute; reflexivity|].
    apply key_run_nil.
  - exists q'. exact Hq.
Defined.

(** A decoder that decodes every byte to itself. *)
Definition identity_decoder : KeyDecoder :=
  {| decoder := unit; key_event := Z;
     add_byte := λ d b, (d, Ok (Some b)); process_keyevent := λ d b, (d, Some (Unicode b)) |}.

Lemma process_scancode_effect_witness :
  wp (@process_scancode true identity_decoder unit (@mkKbd identity_decoder unit tt ring_init TaskManager_empty) 97)
     (λ k', ring_rel (buffer k') [97]).
Proof.
  eapply wp_mono.
  - apply (@process_scancode_effect true identity_decoder unit (@mkKbd identity_decoder unit tt ring_init TaskManager_empty) 97 []);
      [apply ring_rel_init|apply tm_inv_empty].
  - intros k' [Hr _]. exact Hr.
Defined.
