(* ===== verification/Faults.v ===== *)
(** * Exceptions and interrupts (src/src/core/idt.rs)

    The interrupt descriptor table and every handler behind it, on the machine
    of Scheduler.v, the page tables of AddrSpace.v and the keyboard driver of
    Keyboard.v.  [interrupt] takes a vector through the table: it runs the
    handler of the gate, or what the processor does when there is none.

    A handler ends in one of three ways: it returns to the interrupted code, the
    processor is on another task, or it waits in the handler for the next
    interrupt.  A panic is a value of [outcome].

    The theorems: a fault of user code ends exactly that task and leaves a sound
    machine that runs the next ready one; an exception without a gate ends the
    kernel; the hardware interrupts keep the machine sound and are acknowledged as
    written; and a user write to a present kernel page is repaired instead of being
    stopped, again and again. *)

From S2P Require Import Prelude KError FrameAlloc Fd X86 Task TaskManager Scheduler Paging PageTree PageMapper AddrSpace Keyboard.

#[local] Open Scope list_scope.

(** ** The table *)

Definition PIC_1_OFFSET : Z := 32.
Definition PIC_2_OFFSET : Z := PIC_1_OFFSET + 8.

Inductive InterruptIndex := Timer | KeyboardIrq | Spurious.

Definition as_u8 (i : InterruptIndex) : Z :=
  match i with
  | Timer => PIC_1_OFFSET
  | KeyboardIrq => PIC_1_OFFSET + 1
  | Spurious => PIC_1_OFFSET + 7
  end.

Inductive handler :=
| breakpoint | page_fault | general_protection_fault | divide_error | invalid_opcode | double_fault
| irq (i : InterruptIndex).

(** The gates, in the order the code sets them.  The vectors of the named fields
    are those of the architecture. *)
Definition IDT : list (Z * handler) :=
  [(3, breakpoint); (14, page_fault); (13, general_protection_fault); (0, divide_error); (6, invalid_opcode);
   (8, double_fault); (as_u8 Timer, irq Timer); (as_u8 KeyboardIrq, irq KeyboardIrq); (as_u8 Spurious, irq Spurious)].

Definition gate (v : Z) : option handler := (list_to_map IDT : gmap Z handler) !! v.

(** What the processor does with a vector: a missing gate is a segment-not-present
    exception (vector 11) of its own, and a second exception while a contributory
    one or a page fault is being delivered is a double fault.  [None] is the reset
    that follows a failed double fault. *)
Definition serial_class (v : Z) : bool := negb (bool_decide (v ∈ [0; 10; 11; 12; 13; 14])).

Definition deliver (v : Z) : option handler :=
  match gate v with
  | Some h => Some h
  | None =>
      if serial_class v then match gate 11 with Some h => Some h | None => gate 8 end
      else gate 8
  end.

(** ** The handlers *)

(** How a handler ends. *)
Inductive trap_end := Iret | Switched | Waiting.

(** What the processor hands to a handler: the code segment of the interrupted
    code, the error code, CR2, and the byte the keyboard controller holds. *)
Record trap := mkTrap { code_segment : Z; error_code : Z; cr2 : Z; port_60 : Z }.

Section Handlers.
Context `{Profile} `{VirtAddrNew} `{PhysAddrNew} `{Mapper} `{KeyDecoder} {V : Type}.
Context (hhdm : option Z) (cell_addr : save_cell → Z) (ret_addr : Z).

(** The kernel as the handlers see it.  [log] lists the errors they print, latest
    first. *)
Record trap_state := mkTrapState {
  ts_machine : machine V;
  ts_cpu : cpu;
  ts_mem : Paging.mem;
  ts_decoder : decoder;
  ts_ring : ring;
  log : list KernelError;
}.
Implicit Types s : trap_state.

Definition set_machine s m c :=
  mkTrapState m c (ts_mem s) (ts_decoder s) (ts_ring s) (log s).
Definition set_memory s mm :=
  mkTrapState (ts_machine s) (ts_cpu s) mm (ts_decoder s) (ts_ring s) (log s).
Definition print_error s e :=
  mkTrapState (ts_machine s) (ts_cpu s) (ts_mem s) (ts_decoder s) (ts_ring s) (e :: log s).

(** Ending the current task and leaving it: the tail of the four fault handlers.
    The loop goes on only if nothing could be scheduled; it then halts with
    interrupts enabled. *)
Definition kill_current s : outcome (trap_end * trap_state) :=
  let m := set_tm (ts_machine s) (exit_current_task (tm (ts_machine s))) in
  let* (m, c) := schedule cell_addr ret_addr m (ts_cpu s) in
  Ret (match current_task (tm m) with Some _ => Switched | None => Waiting end, set_machine s m c).

Definition page_fault_handler (t : trap) s : outcome (trap_end * trap_state) :=
  let fault_addr := cr2 t in
  let is_present := Z.testbit (error_code t) 0 in
  let is_write := Z.testbit (error_code t) 1 in
  let is_user := Z.testbit (error_code t) 2 in
  let* (resolved, s) :=
    (if is_present && is_write then
       let* (ok, mm) := resolve_cow_fault hhdm (cr3 (ts_machine s)) fault_addr (ts_mem s) in
       Ret (ok, set_memory s mm)
     else Ret (false, s)) in
  if resolved : bool then Ret (Iret, s) else
  let pf_error := Memory (PageFault fault_addr (error_code t)) in
  if is_user then kill_current (print_error s pf_error) else Stop Panic.

(** The fault of a handler that tells user code by the pushed code segment. *)
Definition segment_is_user (t : trap) : bool := Z.land (code_segment t) 3 =? 3.

Definition general_protection_fault_handler (t : trap) s : outcome (trap_end * trap_state) :=
  let is_user := segment_is_user t in
  let gp_error := Privilege (GeneralProtectionFault (error_code t) is_user) in
  if is_user then kill_current (print_error s gp_error) else Stop Panic.

Definition divide_error_handler (t : trap) s : outcome (trap_end * trap_state) :=
  let is_user := segment_is_user t in
  let de_error := Privilege (DivideError is_user) in
  if is_user then kill_current (print_error s de_error) else Stop Panic.

Definition invalid_opcode_handler (t : trap) s : outcome (trap_end * trap_state) :=
  let is_user := segment_is_user t in
  let ud_error := Privilege (InvalidOpcode is_user) in
  if is_user then kill_current (print_error s ud_error) else Stop Panic.

Definition double_fault_handler : outcome (trap_end * trap_state) := Stop Panic.

Definition breakpoint_handler s : outcome (trap_end * trap_state) := Ret (Iret, s).

Definition spurious_interrupt_handler s : outcome (trap_end * trap_state) := Ret (Iret, s).

(** A tick that changes the current task leaves the handler on another stack. *)
Definition timer_handler s : outcome (trap_end * trap_state) :=
  let* (m, c) := timer_interrupt_handler cell_addr ret_addr (ts_machine s) (ts_cpu s) in
  Ret (if bool_decide (current_task (tm m) = current_task (tm (ts_machine s))) then Iret else Switched,
       set_machine s m c).

Definition keyboard_interrupt_handler (t : trap) s : outcome (trap_end * trap_state) :=
  let scancode := port_60 t in
  k <- process_scancode (mkKbd (ts_decoder s) (ts_ring s) (tm (ts_machine s))) scancode;;
  let m := notify_eoi (set_tm (ts_machine s) (kbd_tm k)) (as_u8 KeyboardIrq) in
  Ret (Iret, mkTrapState m (ts_cpu s) (ts_mem s) (KEYBOARD k) (buffer k) (log s)).

Definition run_handler (h : handler) (t : trap) s : outcome (trap_end * trap_state) :=
  match h with
  | breakpoint => breakpoint_handler s
  | page_fault => page_fault_handler t s
  | general_protection_fault => general_protection_fault_handler t s
  | divide_error => divide_error_handler t s
  | invalid_opcode => invalid_opcode_handler t s
  | double_fault => double_fault_handler
  | irq Timer => timer_handler s
  | irq KeyboardIrq => keyboard_interrupt_handler t s
  | irq Spurious => spurious_interrupt_handler s
  end.

(** A vector through the table.  A failed double fault resets the machine. *)
Definition interrupt (v : Z) (t : trap) s : outcome (trap_end * trap_state) :=
  match deliver v with
  | Some h => run_handler h t s
  | None => Stop Panic
  end.
End Handlers.
Arguments trap_state {_} _.

(** ** Ending the current task *)

Section Kill.
Context {V : Type}.
Implicit Types (m : machine V) (t : TaskManager V).

Lemma exit_registry t : task_registry (exit_current_task t) = task_registry t.
Proof. unfold exit_current_task. destruct (current_task t); simpl; by rewrite ?registry_set_task_state. Qed.

Lemma exit_current t : current_task (exit_current_task t) = None.
Proof. unfold exit_current_task. by destruct (current_task t) eqn:E. Qed.

Lemma exit_states t : task_states (exit_current_task t) =
  match current_task t with Some i => <[i := Dead]> (task_states t) | None => task_states t end.
Proof. unfold exit_current_task. destruct (current_task t); simpl; by rewrite ?states_set_task_state. Qed.

Lemma exit_parked t i u : parked (exit_current_task t) i u → parked t i u.
Proof.
  intros (Hu & Hd & _). rewrite exit_registry in Hu. rewrite exit_states in Hd. split_and!; [done| |].
  - destruct (current_task t) as [k|]; [|done]. destruct (decide (i = k)) as [->|]; [by rewrite lookup_insert_eq in Hd|].
    by rewrite lookup_insert_ne in Hd by done.
  - intros E. by rewrite E, lookup_insert_eq in Hd.
Qed.

(** The processor stays on the stack of the task that ended, which is no longer
    one of the stacks that matter. *)
Lemma machine_ok_exit m c : machine_ok m c → machine_ok (set_tm m (exit_current_task (tm m))) c.
Proof.
  intros Hok. split; cbn [tm set_tm]; rewrite ?exit_registry, ?exit_current; try done.
  - apply tm_inv_exit, Hok.
  - apply Hok.
  - apply Hok.
  - intros i u Hp%exit_parked. by eapply mo_frames.
  - apply Hok.
  - intros _ i u Hp%exit_parked. by eapply machine_off.
Qed.

Lemma machine_ok_eoi m c v : machine_ok m c → machine_ok (notify_eoi m v) c.
Proof. intros Hok. destruct Hok. by split. Qed.

(** A tick changes neither the tasks there are nor their states. *)
Lemma schedule_tasks `{VirtAddrNew} cell_addr ret_addr m c m' c' :
  tm_inv (tm m) → schedule cell_addr ret_addr m c = Ret (m', c') →
  task_states (tm m') = task_states (tm m) ∧ dom (task_registry (tm m')) = dom (task_registry (tm m)).
Proof.
  intros Hinv. unfold schedule. destruct (select m) as [[[m1 cr] sw]|] eqn:E; [|done]. cbn [obind].
  assert (task_states (tm m1) = task_states (tm m) ∧ task_registry (tm m1) = task_registry (tm m)) as [Hs Hr].
  { revert E. unfold select, load_task. rewrite pick_eq by done.
    repeat (case_match || case_bool_decide); simpl; intros; simplify_eq; try done.
    all: destruct (virt_new _); simpl in *; by simplify_eq. }
  assert (∀ (x : machine V) y, tm (update_cr3 (update_kernel_rsp (notify_eoi x y)) cr) = tm x) as Hu.
  { intros. unfold update_cr3, update_kernel_rsp. by repeat (case_match || case_bool_decide). }
  destruct sw as [[cell v]|]; [|intros; simplify_eq; by rewrite Hu, Hs, Hr].
  destruct (push c ret_addr) as [c1|]; [|done]. cbn [obind].
  destruct (context_switch _ _ _) as [[out c2]|]; [|done]. cbn [obind]. intros; simplify_eq.
  destruct cell as [i|]; cbn [save_rsp set_tm set_boot_rsp tm]; [|by rewrite Hu, Hs, Hr].
  rewrite Hu. unfold set_rsp. rewrite Hr. destruct (task_registry (tm m) !! i) eqn:Ei; [|by rewrite Hs, Hr].
  cbn [set_registry task_states task_registry]. split; [done|]. by apply dom_insert_lookup_L.
Qed.

(** The queue without the task that ended. *)
Definition survivors t : list Z := filter (λ j, current_task t ≠ Some j) (ready_queue t).

Lemma exit_queue t : tm_inv t → round_queue (exit_current_task t) = survivors t.
Proof.
  intros Hinv. unfold round_queue. rewrite exit_current. unfold survivors, exit_current_task.
  destruct (current_task t) as [i|]; cbn [set_current ready_queue].
  - rewrite queue_set_task_state by done. rewrite decide_False by done.
    apply list_filter_iff. intros j. naive_solver.
  - symmetry. by apply filter_all.
Qed.

(** The tasks after [i] was ended and another one taken from the queue: [i] is dead,
    the others are as they were, and the first of the queue runs. *)
Record ended t t' (i : Z) : Prop := {
  en_dead : task_states t' !! i = Some Dead;
  en_others : ∀ j, j ≠ i → task_states t' !! j = task_states t !! j;
  en_tasks : dom (task_registry t') = dom (task_registry t);
  en_current : current_task t' = head (survivors t);
}.

Lemma advance_exit t : tm_inv t → current_task (advance (exit_current_task t)) = head (survivors t).
Proof.
  intros Hinv. rewrite advance_eq by (by apply tm_inv_exit). cbn [set_current current_task].
  rewrite exit_queue, exit_current by done. by destruct (head _).
Qed.

Lemma exit_schedule_spec `{VirtAddrSpec} cell_addr ret_addr m c i :
  (∀ cell, cell_addr cell ≠ 0) → machine_ok m c → current_task (tm m) = Some i →
  wp (schedule cell_addr ret_addr (set_tm m (exit_current_task (tm m))) c) (λ '(m', c'),
    machine_ok m' c' ∧ ended (tm m) (tm m') i ∧ eois m' = TIMER_INTERRUPT :: eois m
    ∧ ∀ n u, head (survivors (tm m)) = Some n → task_registry (tm m) !! n = Some u → resumes u (X86.mem c) c').
Proof.
  intros Hcell Hok Hi. pose proof (machine_ok_exit m c Hok) as Hok1.
  pose proof (schedule_spec cell_addr ret_addr _ c Hcell Hok1) as Hs.
  destruct (schedule _ _ _ c) as [[m' c']|] eqn:E; [|done].
  destruct (schedule_tasks _ _ _ _ _ _ (mo_inv _ _ Hok1) E) as [Hst Hdom]. apply schedule_eois in E.
  cbn [wp] in Hs |- *. cbn [set_tm tm] in Hs, Hst, Hdom. rewrite exit_states, Hi in Hst. rewrite exit_registry in Hdom, Hs.
  rewrite exit_current, advance_exit in Hs by apply Hok. destruct Hs as (Hok' & Hcur & _ & Hres).
  split_and!; [done| |done|].
  - split; [by rewrite Hst, lookup_insert_eq|intros j Hj; by rewrite Hst, lookup_insert_ne|done|done].
  - intros n u Hn Hu. rewrite Hcur, Hn in Hres. by eapply Hres.
Qed.
End Kill.

(** ** What the handlers do *)

Lemma deliver_gap v : 0 ≤ v < 32 → v ∉ [0; 3; 6; 13; 14] → deliver v = Some double_fault.
Proof.
  intros Hv Hn.
  pose proof (all_below_spec 32 (λ v, existsb (Z.eqb v) [0; 3; 6; 13; 14]
    || match deliver v with Some double_fault => true | _ => false end) eq_refl v Hv) as Hb. cbv beta in Hb.
  apply orb_true_iff in Hb as [Hb|Hb]; [|by destruct (deliver v) as [[]|]].
  apply existsb_exists in Hb as (x & Hx%list_elem_of_In & ->%Z.eqb_eq). done.
Qed.

Section HandlerProofs.
Context `{HP : Profile} `{HV : VirtAddrSpec} `{HA : PhysAddrNew} `{HM : Mapper} `{HK : KeyDecoder} {V : Type}.
Context (hhdm : option Z) (cell_addr : save_cell → Z) (ret_addr : Z).
Context (cells : ∀ cell, cell_addr cell ≠ 0).
Implicit Types s : trap_state V.

Definition trap_ok s : Prop := machine_ok (ts_machine s) (ts_cpu s).
Definition tasks s : TaskManager V := tm (ts_machine s).

(** A fault of ring-3 code that no handler repairs, and the memory it leaves. *)
Definition user_fault (v : Z) (t : trap) s (mm : Paging.mem) : Prop :=
  (v ∈ [0; 6; 13] ∧ segment_is_user t = true ∧ mm = ts_mem s)
  ∨ (v = 14 ∧ Z.testbit (error_code t) 2 = true ∧
     if Z.testbit (error_code t) 0 && Z.testbit (error_code t) 1
     then resolve_cow_fault hhdm (cr3 (ts_machine s)) (cr2 t) (ts_mem s) = Ret (false, mm)
     else mm = ts_mem s).

(** The error a fault is reported as. *)
Definition fault_error (v : Z) (t : trap) : KernelError :=
  if v =? 14 then Memory (PageFault (cr2 t) (error_code t))
  else if v =? 13 then Privilege (GeneralProtectionFault (error_code t) true)
  else if v =? 6 then Privilege (InvalidOpcode true) else Privilege (DivideError true).

Lemma user_fault_kills v t s mm : user_fault v t s mm →
  interrupt hhdm cell_addr ret_addr v t s
  = kill_current cell_addr ret_addr (print_error (set_memory s mm) (fault_error v t)).
Proof.
  assert (s = set_memory s (ts_mem s)) as Hself by (by destruct s).
  intros [(Hv & Hu & ->)|(-> & Hu & Hr)].
  - rewrite <- Hself. rewrite !elem_of_cons in Hv. destruct Hv as [->|[->|[->|[]%not_elem_of_nil]]].
    + change (divide_error_handler cell_addr ret_addr t s = kill_current cell_addr ret_addr (print_error s (fault_error 0 t))).
      unfold divide_error_handler. by rewrite Hu.
    + change (invalid_opcode_handler cell_addr ret_addr t s = kill_current cell_addr ret_addr (print_error s (fault_error 6 t))).
      unfold invalid_opcode_handler. by rewrite Hu.
    + change (general_protection_fault_handler cell_addr ret_addr t s
              = kill_current cell_addr ret_addr (print_error s (fault_error 13 t))).
      unfold general_protection_fault_handler. by rewrite Hu.
  - change (page_fault_handler hhdm cell_addr ret_addr t s
            = kill_current cell_addr ret_addr (print_error (set_memory s mm) (fault_error 14 t))).
    unfold page_fault_handler. destruct (_ && _).
    + rewrite Hr. cbn [obind]. by rewrite Hu.
    + cbn [obind]. rewrite Hu. subst mm. by rewrite <- Hself.
Qed.

Lemma kill_current_spec s i : trap_ok s → current_task (tasks s) = Some i →
  wp (kill_current cell_addr ret_addr s) (λ '(e, s'), trap_ok s' ∧ ended (tasks s) (tasks s') i
    ∧ e = match survivors (tasks s) with [] => Waiting | _ => Switched end
    ∧ (∀ n u, head (survivors (tasks s)) = Some n → task_registry (tasks s) !! n = Some u →
         resumes u (X86.mem (ts_cpu s)) (ts_cpu s'))
    ∧ s' = set_machine s (ts_machine s') (ts_cpu s')).
Proof.
  intros Hok Hi. unfold kill_current. wp_step.
  eapply wp_mono; [by apply (exit_schedule_spec cell_addr ret_addr _ _ i)|cbv beta].
  intros [m' c'] (Hok' & Hen & _ & Hres). wp_step. split_and!; try done.
  rewrite (en_current _ _ _ Hen). unfold tasks. by destruct (survivors _).
Qed.

(** C5: faults of user code are contained.  A divide error, an invalid opcode, a
    protection fault or an unrepaired page fault in ring 3 never stops the kernel:
    the task that faulted is dead, no other task changes its state or disappears,
    and the machine is sound.  The task at the front of the ready queue runs, with
    its own saved registers; if there is none the processor waits for an
    interrupt.  The error is printed once, and the keyboard is not touched. *)
Theorem user_fault_contained v t s mm i : trap_ok s → current_task (tasks s) = Some i →
  user_fault v t s mm →
  wp (interrupt hhdm cell_addr ret_addr v t s) (λ '(e, s'), trap_ok s' ∧ ended (tasks s) (tasks s') i
    ∧ e = match survivors (tasks s) with [] => Waiting | _ => Switched end
    ∧ (∀ n u, head (survivors (tasks s)) = Some n → task_registry (tasks s) !! n = Some u →
         resumes u (X86.mem (ts_cpu s)) (ts_cpu s'))
    ∧ s' = mkTrapState (ts_machine s') (ts_cpu s') mm (ts_decoder s) (ts_ring s) (fault_error v t :: log s)).
Proof.
  intros Hok Hi Hf. rewrite (user_fault_kills _ _ _ _ Hf).
  exact (kill_current_spec (print_error (set_memory s mm) (fault_error v t)) i Hok Hi).
Qed.

(** C30: the exceptions the table leaves out.  An exception of user code other than
    a page fault stops the kernel exactly when its vector is not one of the four
    that have a handler: a missing gate becomes a double fault.  User code can
    raise such exceptions: a single step (1), a stack access at a non-canonical
    address (12), a SIMD exception (19). *)
Theorem unhandled_exception_panics v t s i : trap_ok s → current_task (tasks s) = Some i →
  segment_is_user t = true → 0 ≤ v < 32 → v ≠ 14 →
  interrupt hhdm cell_addr ret_addr v t s = Stop Panic ↔ v ∉ [0; 3; 6; 13].
Proof.
  intros Hok Hi Hu Hv H14. split.
  - intros E Hin. destruct (decide (v = 3)) as [->|H3]; [done|].
    assert (user_fault v t s (ts_mem s)) as Hf.
    { left. split; [|done]. rewrite !elem_of_cons in Hin. rewrite !elem_of_cons. tauto. }
    pose proof (kill_current_spec (print_error (set_memory s (ts_mem s)) (fault_error v t)) i Hok Hi) as Hk.
    rewrite <- (user_fault_kills _ _ _ _ Hf), E in Hk. done.
  - intros Hn. unfold interrupt. rewrite deliver_gap; [done|done|]. rewrite !elem_of_cons in Hn. rewrite !elem_of_cons. tauto.
Qed.

(** The hardware interrupts.  They always return, keep the machine sound and
    leave the page tables alone.  A tick is acknowledged twice, a key once and a
    spurious interrupt not at all.  A key appends its characters to the ring; only
    Ctrl+C ends a task, the current one unless it is the reaper. *)
Theorem irq_handled ix t s q : trap_ok s → ring_rel (ts_ring s) q →
  let key := decoded (ts_decoder s) (port_60 t) in
  wp (interrupt hhdm cell_addr ret_addr (as_u8 ix) t s) (λ '(e, s'), trap_ok s'
    ∧ ts_mem s' = ts_mem s ∧ log s' = log s
    ∧ ring_rel (ts_ring s') (if ix is KeyboardIrq then foldl fifo_push q (key_chars key) else q)
    ∧ eois (ts_machine s') =
        match ix with Timer => [32; 32] | KeyboardIrq => [33] | Spurious => [] end ++ eois (ts_machine s)
    ∧ match ix with
      | Timer => current_task (tasks s') = current_task (advance (tasks s)) ∧ task_states (tasks s') = task_states (tasks s)
      | KeyboardIrq => e = Iret ∧ ts_cpu s' = ts_cpu s ∧ tasks s' =
          if is_ctrl_c key && match current_task (tasks s) with Some i => 1 <? i | None => false end
          then exit_current_task (tasks s) else tasks s
      | Spurious => e = Iret ∧ s' = s
      end).
Proof.
  intros Hok Hr key. destruct ix.
  - change (wp (timer_handler cell_addr ret_addr s) (λ '(e, s'), trap_ok s' ∧ ts_mem s' = ts_mem s ∧ log s' = log s
      ∧ ring_rel (ts_ring s') q ∧ eois (ts_machine s') = [32; 32] ++ eois (ts_machine s)
      ∧ current_task (tasks s') = current_task (advance (tasks s)) ∧ task_states (tasks s') = task_states (tasks s))).
    unfold timer_handler, timer_interrupt_handler. pose proof (machine_ok_eoi _ _ TIMER_INTERRUPT Hok) as Hok1.
    pose proof (schedule_spec cell_addr ret_addr _ _ cells Hok1) as Hs.
    destruct (schedule _ _ _ _) as [[m' c']|] eqn:E; [|done].
    destruct (schedule_tasks _ _ _ _ _ _ (mo_inv _ _ Hok1) E) as [Hst _]. apply schedule_eois in E.
    wp_step. destruct Hs as (Hok' & Hcur & _). by split_and!.
  - change (wp (keyboard_interrupt_handler t s) (λ '(e, s'), trap_ok s' ∧ ts_mem s' = ts_mem s ∧ log s' = log s
      ∧ ring_rel (ts_ring s') (foldl fifo_push q (key_chars key)) ∧ eois (ts_machine s') = [33] ++ eois (ts_machine s)
      ∧ e = Iret ∧ ts_cpu s' = ts_cpu s ∧ tasks s' =
          if is_ctrl_c key && match current_task (tasks s) with Some i => 1 <? i | None => false end
          then exit_current_task (tasks s) else tasks s)).
    unfold keyboard_interrupt_handler. wp_step.
    eapply wp_mono; [apply (process_scancode_effect _ _ q); [done|apply Hok]|cbv beta zeta]. intros k (Hr' & _ & Htm).
    wp_step. cbn [kbd_tm KEYBOARD] in Htm. split_and!; try done. apply machine_ok_eoi. rewrite Htm.
    destruct (_ && _); [by apply machine_ok_exit|]. unfold trap_ok in Hok. by destruct (ts_machine s).
  - exact (conj Hok (conj eq_refl (conj eq_refl (conj Hr (conj eq_refl (conj eq_refl eq_refl)))))).
Qed.
End HandlerProofs.

(** ** A user write to a kernel page *)

Lemma user_walk_slot r a : ∀ lvl t t1, leaf_table r lvl t a = Some t1 → Z.testbit (entry_of r t1 (idx 0 a)) 2 = false →
  user_walk r lvl t a = false.
Proof.
  induction lvl as [|l IH]; intros t t1 Hl He; cbn [user_walk leaf_table] in *.
  - injection Hl as ->. unfold idx in He. rewrite He. by rewrite andb_false_r.
  - destruct (descends _ _) eqn:Hd; [|done]. fold (idx (S l) a). set (e := entry_of r t _) in *.
    unfold descends in Hd. apply andb_true_iff in Hd as [_ Hd%negb_true_iff]. rewrite Hd, (IH _ _ Hl He).
    apply andb_false_r.
Qed.

Lemma writable_entry_eq e : 0 ≤ e → writable_entry e (Z.land e PHYS_MASK) = Z.lor e 2.
Proof.
  intros He. apply Z.bits_inj'. intros n Hn. unfold writable_entry. change FLAG_WRITABLE with 2.
  rewrite !Z.lor_spec, Z.ldiff_spec, Z.land_spec. destruct (Z.testbit e n), (Z.testbit PHYS_MASK n); by simpl.
Qed.

(** The page stays closed to ring 3: executing the faulting instruction again raises
    the same fault.  [retry] runs the handler that often, as long as it returns to
    an instruction that faults. *)
Section KernelPage.
Context `{HP : Profile} `{HV : VirtAddrSpec} `{HA : PhysAddrSpec} (off : Z) `{HM : Mapper} `{HMS : !MapperSpec off}.
Context `{HK : KeyDecoder} {V : Type} (cell_addr : save_cell → Z) (ret_addr : Z).
Implicit Types (s : trap_state V) (m : Paging.mem).

Fixpoint retry (n : nat) (t : trap) s : outcome (trap_end * trap_state V) :=
  match n with
  | O => Ret (Iret, s)
  | S n =>
      let* (e, s) := interrupt (Some off) cell_addr ret_addr 14 t s in
      match e with
      | Iret => if user_accessible (mem_ram (ts_mem s)) (cr3 (ts_machine s)) (cr2 t) then Ret (Iret, s)
                else retry n t s
      | _ => Ret (e, s)
      end
  end.

(** A present page of the kernel, in a frame with one owner. *)
Record kernel_page m (pml4 a e f : Z) : Prop := {
  kp_mem : mem_ok off m;
  kp_space : space_wf m pml4;
  kp_page : present_page m pml4 a e f;
  kp_closed : Z.testbit e 2 = false;
  kp_sole : refs (mem_alloc m) f = 1;
}.

Lemma kernel_page_closed m pml4 a e f : kernel_page m pml4 a e f → user_accessible (mem_ram m) pml4 a = false.
Proof.
  intros [_ _ Hp Hc _]. pose proof (pp_slot _ _ _ _ _ Hp) as Hs. unfold slot in Hs.
  destruct (leaf_table _ _ _ _) as [t1|] eqn:El; [|done]. injection Hs as He. subst e.
  by apply (user_walk_slot _ _ _ _ t1).
Qed.

Lemma kernel_page_repaired m pml4 a e f : 0 ≤ a < 2 ^ 47 → kernel_page m pml4 a e f →
  ∃ m', resolve_cow_fault (Some off) pml4 a m = Ret (true, m') ∧ mem_alloc m' = mem_alloc m
    ∧ kernel_page m' pml4 a (Z.lor e 2) f.
Proof.
  intros Ha [Hm Hs Hp Hc Hone]. pose proof (pp_managed _ _ _ _ _ Hp) as Hf. pose proof (pp_range _ _ _ _ _ Hp) as Hr.
  pose proof (present_nonzero _ _ _ _ _ Hp) as Hnz.
  destruct (cow_sole off pml4 a m e f) as (r' & Hu & Hm' & Hs' & _ & Hslot & _); try done.
  rewrite <- (pp_frame _ _ _ _ _ Hp), writable_entry_eq, slot_page in Hslot by lia.
  exists (set_ram m r'). split_and!; [|done|].
  - unfold resolve_cow_fault. rewrite (mapper_for_ok off m) by done. cbn [obind].
    rewrite (translate_addr_spec m pml4 a e), (translate_flags_spec m pml4 a e) by (done || apply Hp).
    rewrite (proj2 (Z.eqb_neq e 0)), (pp_frame _ _ _ _ _ Hp), (ref_count_of off) by (done || zlia).
    cbn [obind]. rewrite Hone. cbn [Z.eqb Pos.eqb]. by rewrite Hu.
  - split; [done|done| |by rewrite Z.lor_spec, Hc|done].
    destruct Hp. split; cbn [set_ram mem_ram mem_alloc]; try done.
    + by apply (lor_range 64).
    + rewrite Z.lor_spec. by rewrite pp_present.
    + rewrite Z.lor_spec. by rewrite pp_small.
    + rewrite Z.land_lor_distr_l. by rewrite pp_frame, Z.lor_0_r.
Qed.

Lemma kernel_page_round t s e f : 0 ≤ cr2 t < 2 ^ 47 →
  Z.testbit (error_code t) 0 = true → Z.testbit (error_code t) 1 = true →
  kernel_page (ts_mem s) (cr3 (ts_machine s)) (cr2 t) e f →
  ∃ m', interrupt (Some off) cell_addr ret_addr 14 t s = Ret (Iret, set_memory s m')
    ∧ kernel_page m' (cr3 (ts_machine s)) (cr2 t) (Z.lor e 2) f.
Proof.
  intros Ha Hb0 Hb1 Hk. destruct (kernel_page_repaired _ _ _ _ _ Ha Hk) as (m' & Hres & _ & Hk').
  exists m'. split; [|done].
  change (page_fault_handler (Some off) cell_addr ret_addr t s = Ret (Iret, set_memory s m')).
  unfold page_fault_handler. rewrite Hb0, Hb1. cbn [andb]. by rewrite Hres.
Qed.

(** C31: a user write to a kernel page in the lower half is not stopped.  If the page
    is present in a frame with one owner, as the kernel heap is, the handler takes
    the fault for copy-on-write: it makes the page writable, returns to the same
    instruction and reports nothing.  The page is still closed to ring 3, so the
    instruction faults again: after any number of rounds the task is still current
    and alive. *)
Theorem user_write_to_kernel_page_loops n t s e f : 0 ≤ cr2 t < 2 ^ 47 →
  Z.testbit (error_code t) 0 = true → Z.testbit (error_code t) 1 = true →
  kernel_page (ts_mem s) (cr3 (ts_machine s)) (cr2 t) e f →
  wp (retry (S n) t s) (λ '(ed, s'), ed = Iret ∧ ts_machine s' = ts_machine s ∧ ts_cpu s' = ts_cpu s ∧ log s' = log s
    ∧ user_accessible (mem_ram (ts_mem s')) (cr3 (ts_machine s)) (cr2 t) = false
    ∧ slot (mem_ram (ts_mem s')) (cr3 (ts_machine s)) (cr2 t) = Some (Z.lor e 2)).
Proof.
  intros Ha Hb0 Hb1. revert s e. induction n as [|n IH]; intros s e Hk.
  all: destruct (kernel_page_round t s e f Ha Hb0 Hb1 Hk) as (m' & Hint & Hk').
  all: pose proof (kernel_page_closed _ _ _ _ _ Hk') as Hcl.
  - cbn [retry]. rewrite Hint. cbn [obind set_memory ts_mem ts_machine]. rewrite Hcl. wp_step. split_and!; try done. apply Hk'.
  - change (retry (S (S n)) t s) with (let* (e, s) := interrupt (Some off) cell_addr ret_addr 14 t s in
      match e with
      | Iret => if user_accessible (mem_ram (ts_mem s)) (cr3 (ts_machine s)) (cr2 t) then Ret (Iret, s)
                else retry (S n) t s
      | _ => Ret (e, s)
      end).
    rewrite Hint. cbn [obind set_memory ts_mem ts_machine]. rewrite Hcl.
    eapply wp_mono; [by apply (IH (set_memory s m') (Z.lor e 2))|cbv beta].
    intros [ed s'] (? & ? & ? & ? & ? & Hsl). rewrite <- Z.lor_assoc, Z.lor_diag in Hsl. by split_and!.
Qed.
End KernelPage.

(** ** A machine with a running user task *)

Module FaultSample.
Definition user_task : Task unit :=
  mkTask unit 2 (Some 1) 0x4ffb8 0x1000 0x40000 0x50000 UserMode
    0x200000000 0x200000000 0x400000000000 FdTable_new.

(** The reaper is ready, the user task runs on its kernel stack. *)
Definition two_tasks : TaskManager unit :=
  advance (advance (register (register TaskManager_empty (sample_task 1 None)) user_task)).

Definition user_machine : machine unit := mkMachine two_tasks 0x50000 0x50000 0x1000 0 [].

Lemma two_tasks_registry i u : task_registry two_tasks !! i = Some u →
  (i = 1 ∧ u = sample_task 1 None) ∨ (i = 2 ∧ u = user_task).
Proof.
  assert (task_registry two_tasks = <[2 := user_task]> (<[1 := sample_task 1 None]> ∅)) as -> by done.
  intros [[<- <-]|[_ [[<- <-]|[_ Hi]]%lookup_insert_Some]]%lookup_insert_Some; [by right|by left|].
  by rewrite lookup_empty in Hi.
Qed.

Lemma user_machine_ok : machine_ok user_machine (sample_cpu 0x4ff80 boot_memory).
Proof.
  split; cbn [tm user_machine].
  - apply tm_inv_advance, tm_inv_advance. auto 10 with nwin.
  - intros i u [[-> ->]|[-> ->]]%two_tasks_registry; vm_compute; intuition discriminate.
  - intros i j u v Hij [[-> ->]|[-> ->]]%two_tasks_registry [[-> ->]|[-> ->]]%two_tasks_registry;
      try done; [left|right]; vm_compute; discriminate.
  - intros i u ([[-> ->]|[-> ->]]%two_tasks_registry & _ & Hc); [|by destruct Hc].
    split_and!; [done|done|done|]. exists 0x202, [0; 0; 0; 0; 0; 0], 0x401000. vm_compute. intuition discriminate.
  - vm_compute. intuition discriminate.
  - intros i u Hc Hu. assert (current_task two_tasks = Some 2) as Hc2 by (vm_compute; reflexivity).
    rewrite Hc2 in Hc. injection Hc as <-. apply two_tasks_registry in Hu as [[Hi _]|[_ ->]]; [discriminate Hi|].
    vm_compute. intuition discriminate.
  - done.
Qed.

(** The kernel page of the sample space: page 5, closed to ring 3, one owner. *)
Definition contents : list (list Z) :=
  [zero_frame; Sample.table [(0, 0x2007); (256, 0x9003)]; Sample.table [(0, 0x3007)]; Sample.table [(0, 0x4007)];
   Sample.table [(5, 0x5001)]] ++ replicate 5 zero_frame.
Definition memory : ram := list_to_map (imap (λ i b, (Z.of_nat i * FRAME_SIZE, b)) contents).
Definition kernel_mem : Paging.mem := mkMem (mkAlloc [63; 2] [1; 1; 1; 1; 1; 1; 0; 0; 0; 1] 10 6) memory.

Definition sample_state (mm : Paging.mem) : @trap_state identity_decoder unit :=
  @mkTrapState identity_decoder unit user_machine (sample_cpu 0x4ff80 boot_memory) mm tt ring_init [].

Lemma kernel_mem_ok : mem_ok Sample.off kernel_mem.
Proof.
  split.
  - by apply wf_check_sound.
  - vm_compute. discriminate.
  - right. vm_compute. split; [discriminate|reflexivity].
  - intros p Hp. change (total_frames (mem_alloc kernel_mem) * FRAME_SIZE) with 40960 in Hp. right. unfold Sample.off. lia.
  - intros f Hf. apply Sample.frame_okb_sound.
    apply (all_below_spec 10 (λ f, Sample.frame_okb memory (f * FRAME_SIZE))); [vm_compute; reflexivity|exact Hf].
Qed.

Lemma kernel_tables_eq : pt_tables memory 3 4096 = [0x1000; 0x2000; 0x3000; 0x4000; 0x9000].
Proof. vm_compute. reflexivity. Qed.

Lemma kernel_space_wf : space_wf kernel_mem 4096.
Proof.
  split; cbn [kernel_mem mem_ram mem_alloc].
  - rewrite kernel_tables_eq. apply (bool_decide_unpack _). vm_compute. exact I.
  - rewrite kernel_tables_eq. apply Forall_and. split; [|by repeat constructor].
    exact (Sample.managedb_sound [0x1000; 0x2000; 0x3000; 0x4000; 0x9000] eq_refl).
  - intros i Hi. apply (all_below_spec 512 (λ i, negb (Z.testbit (entry_of memory 4096 i) 7))) in Hi;
      [by apply negb_true_iff|vm_compute; reflexivity].
Qed.

Lemma kernel_page_ok : kernel_page Sample.off kernel_mem 4096 0x5123 0x5001 5.
Proof.
  split; [apply kernel_mem_ok|apply kernel_space_wf| |reflexivity|reflexivity].
  split; try (vm_compute; reflexivity); vm_compute; split; done.
Qed.
End FaultSample.

(** A division by zero in the user task: the reaper runs next. *)
Lemma user_fault_contained_witness :
  wp (@interrupt true checked_virt_new masked_phys_new table_mapper identity_decoder unit (Some Sample.off)
        (λ _, 0x77) 0x1234 0 (mkTrap 0x23 0 0 0) (FaultSample.sample_state Sample.m))
     (λ '(e, s'), e = Switched ∧ current_task (tm (ts_machine s')) = Some 1
        ∧ log s' = [Privilege (DivideError true)]).
Proof.
  eapply wp_mono.
  - apply (@user_fault_contained true checked_virt_new checked_virt_new_spec masked_phys_new table_mapper identity_decoder unit
      (Some Sample.off) (λ _, 0x77) 0x1234 ltac:(discriminate) 0 (mkTrap 0x23 0 0 0) (FaultSample.sample_state Sample.m)
      Sample.m 2 FaultSample.user_machine_ok).
    + reflexivity.
    + left. split; [left|split; reflexivity].
  - intros [e s'] (_ & Hen & He & _ & Hs). split; [exact He|]. split; [exact (en_current _ _ _ Hen)|].
    rewrite Hs. reflexivity.
Defined.

(** A stack access at a non-canonical address. *)
Lemma unhandled_exception_panics_witness :
  @interrupt true checked_virt_new masked_phys_new table_mapper identity_decoder unit (Some Sample.off)
    (λ _, 0x77) 0x1234 12 (mkTrap 0x23 0 0 0) (FaultSample.sample_state Sample.m) = Stop Panic.
Proof.
  apply (@unhandled_exception_panics true checked_virt_new checked_virt_new_spec masked_phys_new table_mapper identity_decoder
    unit (Some Sample.off) (λ _, 0x77) 0x1234 ltac:(discriminate) 12 (mkTrap 0x23 0 0 0) (FaultSample.sample_state Sample.m)
    2 FaultSample.user_machine_ok).
  - reflexivity.
  - reflexivity.
  - lia.
  - discriminate.
  - apply (bool_decide_unpack _). exact I.
Defined.

Lemma irq_handled_witness :
  wp (@interrupt true checked_virt_new masked_phys_new table_mapper identity_decoder unit (Some Sample.off)
        (λ _, 0x77) 0x1234 (as_u8 KeyboardIrq) (mkTrap 0x23 0 0 97) (FaultSample.sample_state Sample.m))
     (λ '(e, s'), ring_rel (ts_ring s') [97] ∧ eois (ts_machine s') = [33]).
Proof.
  eapply wp_mono.
  - apply (@irq_handled true checked_virt_new checked_virt_new_spec masked_phys_new table_mapper identity_decoder unit
      (Some Sample.off) (λ _, 0x77) 0x1234 ltac:(discriminate) KeyboardIrq (mkTrap 0x23 0 0 97)
      (FaultSample.sample_state Sample.m) [] FaultSample.user_machine_ok ring_rel_init).
  - intros [e s'] (_ & _ & _ & Hr & He & _). split; [exact Hr|exact He].
Defined.

Lemma user_write_to_kernel_page_loops_witness :
  wp (@retry true checked_virt_new masked_phys_new Sample.off table_mapper identity_decoder unit (λ _, 0x77) 0x1234 100
        (mkTrap 0x23 7 0x5123 0) (FaultSample.sample_state FaultSample.kernel_mem))
     (λ '(e, s'), e = Iret ∧ log s' = [] ∧ slot (mem_ram (ts_mem s')) 4096 0x5123 = Some 0x5003).
Proof.
  eapply wp_mono.
  - apply (@user_write_to_kernel_page_loops true checked_virt_new checked_virt_new_spec masked_phys_new
      Sample.off table_mapper sample_mapper identity_decoder unit (λ _, 0x77) 0x1234 99
      (mkTrap 0x23 7 0x5123 0) (FaultSample.sample_state FaultSample.kernel_mem) 0x5001 5).
    + split; reflexivity || discriminate.
    + reflexivity.
    + reflexivity.
    + apply FaultSample.kernel_page_ok.
  - intros [e s'] (He & _ & _ & Hl & _ & Hs). split; [exact He|]. split; [exact Hl|exact Hs].
Defined.
