(* ===== verification/Segments.v ===== *)
(** * Segments, the task state segment and interrupt entry (src/src/core/gdt.rs)

    [gdt::init] loads the descriptor table of SyscallEntry.v, the segment registers
    and the task register; the static [TSS] gives the processor two stacks.  The
    second half of the file is what the processor does with them when a vector is
    raised: the choice of the stack, the frame it pushes, and the double fault that
    follows when the frame cannot be pushed.

    The theorems: [init] does not fault and selects the kernel's descriptors, and a
    second call faults; every vector enters a handler, and the double fault does so
    on a stack of its own, whatever the stack pointer was. *)

From S2P Require Import Prelude KError Fd X86 Task SyscallEntry TaskManager Scheduler Faults.

#[local] Open Scope list_scope.

(** ** The task state segment *)

Record TaskStateSegment := mkTss { privilege_stack_table : list Z; interrupt_stack_table : list Z }.

(** [TaskStateSegment::new] of the x86_64 crate. *)
Definition TaskStateSegment_new : TaskStateSegment := mkTss (replicate 3 0) (replicate 7 0).

Definition DOUBLE_FAULT_IST_INDEX : Z := 0.

(** The size of the two static stacks. *)
Definition TSS_STACK_SIZE : Z := 4096 * 5.

(** The static [TSS]; [RSP0_STACK] and [STACK] are the addresses of the two arrays. *)
Definition TSS `{Profile} `{VirtAddrNew} (RSP0_STACK STACK : Z) : outcome TaskStateSegment :=
  let tss := TaskStateSegment_new in
  stack_start <- virt_new RSP0_STACK;;
  a <- uadd 64 stack_start TSS_STACK_SIZE;;
  stack_end <- virt_new a;;
  let tss := mkTss (<[0%nat := stack_end]> (privilege_stack_table tss)) (interrupt_stack_table tss) in
  stack_start <- virt_new STACK;;
  a <- uadd 64 stack_start TSS_STACK_SIZE;;
  stack_end <- virt_new a;;
  Ret (mkTss (privilege_stack_table tss) (<[Z.to_nat DOUBLE_FAULT_IST_INDEX := stack_end]> (interrupt_stack_table tss))).

(** [set_tss_rsp0] on the segment; Scheduler.v keeps this field of it. *)
Definition tss_set_rsp0 (rsp0 : Z) (tss : TaskStateSegment) : TaskStateSegment :=
  mkTss (<[0%nat := rsp0]> (privilege_stack_table tss)) (interrupt_stack_table tss).

(** ** Loading the registers *)

(** The descriptor in a slot of a table. *)
Class GdtView `{GdtOps} := descr : gdt → Z → option Descriptor.

(** An entry is found in the slot its selector names. *)
Class GdtViewSpec `{GdtView} (used : gdt → Z) : Prop := {
  add_entry_descr g d sel g' i : add_entry g d = Ret (sel, g') →
    descr g' i = if i =? used g then Some d else descr g i;
}.

(** The processor's registers that [init] loads, and the busy bit of the task state
    segment's descriptor. *)
Record segment_state `{GdtOps} := mkSeg { gdtr : option gdt; s_cpu : cpu; tr : Z; tss_busy : bool }.
Arguments segment_state {_}.
Arguments mkSeg {_}.

Section Load.
Context `{GdtView}.
Implicit Types s : segment_state.

Definition selected_descr s (sel : Z) : option Descriptor := g ← gdtr s; descr g (Z.shiftr sel 3).

(** What the processor checks, in ring 0, before it loads a selector into CS, SS, a
    data segment register or the task register; it raises a protection fault
    otherwise.  The privilege level of a descriptor is that of its selectors. *)
Definition cs_allowed (sel : Z) (d : option Descriptor) : bool :=
  match d with Some kernel_code_segment => Z.land sel 3 =? 0 | _ => false end.
Definition ss_allowed (sel : Z) (d : option Descriptor) : bool :=
  match d with Some kernel_data_segment => Z.land sel 3 =? 0 | _ => false end.
Definition data_allowed (sel : Z) (d : option Descriptor) : bool :=
  match d with
  | Some ((kernel_code_segment | kernel_data_segment | user_data_segment | user_code_segment) as d) => Z.land sel 3 <=? entry_rpl d
  | _ => sel <? 4
  end.
Definition tr_allowed (busy : bool) (d : option Descriptor) : bool :=
  match d with Some tss_segment => negb busy | _ => false end.

Definition with_cpu s (c : cpu) : segment_state := mkSeg (gdtr s) c (tr s) (tss_busy s).

Definition set_cs s (sel : Z) : outcome segment_state :=
  if cs_allowed sel (selected_descr s sel)
  then let c := s_cpu s in Ret (with_cpu s (mkCpu (regs c) (rip c) (rflags c) sel (ss c) (segs c) (mem c)))
  else Stop Panic.
Definition set_ss s (sel : Z) : outcome segment_state :=
  if ss_allowed sel (selected_descr s sel)
  then let c := s_cpu s in Ret (with_cpu s (mkCpu (regs c) (rip c) (rflags c) (cs c) sel (segs c) (mem c)))
  else Stop Panic.
Definition set_data (r : dataseg) s (sel : Z) : outcome segment_state :=
  if data_allowed sel (selected_descr s sel)
  then let c := s_cpu s in
       Ret (with_cpu s (mkCpu (regs c) (rip c) (rflags c) (cs c) (ss c) (λ r', if decide (r' = r) then sel else segs c r') (mem c)))
  else Stop Panic.
Definition load_tss s (sel : Z) : outcome segment_state :=
  if tr_allowed (tss_busy s) (selected_descr s sel)
  then Ret (mkSeg (gdtr s) (s_cpu s) sel true) else Stop Panic.

(** [gdt::init], with the value of the static [GDT]. *)
Definition gdt_init (GDT : gdt * Selectors) s : outcome segment_state :=
  let '(table, selectors) := GDT in
  let s := mkSeg (Some table) (s_cpu s) (tr s) (tss_busy s) in
  s <- set_cs s (kernel_code_selector selectors);;
  s <- set_data DS s (kernel_data_selector selectors);;
  s <- set_data ES s (kernel_data_selector selectors);;
  s <- set_ss s (kernel_data_selector selectors);;
  s <- set_data FS s (kernel_data_selector selectors);;
  s <- set_data GS s (kernel_data_selector selectors);;
  load_tss s (tss_selector selectors).
End Load.

(** ** Interrupt entry *)

(** The stack index of a gate: only the double fault has one. *)
Definition stack_index (h : handler) : option Z :=
  match h with double_fault => Some DOUBLE_FAULT_IST_INDEX | _ => None end.

(** The exceptions that push an error code. *)
Definition has_error (v : Z) : bool := bool_decide (v ∈ [8; 10; 11; 12; 13; 14; 17; 21; 29; 30]).

Section Entry.
(** The words that can be written, the error code of an exception, the addresses of
    the handlers and the selector of the gates. *)
Context (writable : Z → bool) (error : Z → Z) (handler_rip : handler → Z) (kernel_cs : Z) (tss : TaskStateSegment).
Implicit Types c : cpu.

Definition from_user c : bool := negb (Z.land (cs c) 3 =? 0).

Definition entry_stack (h : handler) c : Z :=
  match stack_index h with
  | Some i => interrupt_stack_table tss !!! Z.to_nat i
  | None => if from_user c then privilege_stack_table tss !!! 0%nat else regs c RSP
  end.

Definition align16 (sp : Z) : Z := sp - sp mod 16.

(** The frame, in the order it is pushed. *)
Definition trap_frame (v : Z) c : list Z :=
  [ss c; regs c RSP; flags_image (rflags c); cs c; rip c] ++ (if has_error v then [error v] else []).

(** Pushing stops at the first word that cannot be written. *)
Fixpoint push_frame (l : list Z) (sp : Z) (mm : memory) : bool * Z * memory :=
  match l with
  | [] => (true, sp, mm)
  | w :: l => if writable (sp - 8) then push_frame l (sp - 8) (<[sp - 8 := w]> mm) else (false, sp, mm)
  end.

(** The flags after an interrupt gate: TF, IF, NT, RF and VM are clear. *)
Definition entry_flags (fl : Z) : Z := Z.land fl (unot 64 0x34300).

(** One attempt to enter the handler of a vector: the handler and the processor in
    it, or the memory after the failed one. *)
Definition try_enter (v : Z) c : (handler * cpu) + memory :=
  match gate v with
  | None => inr (mem c)
  | Some h =>
      match push_frame (trap_frame v c) (align16 (entry_stack h c)) (mem c) with
      | (true, sp, mm) =>
          inl (h, mkCpu (set_reg (regs c) RSP sp) (handler_rip h) (entry_flags (rflags c)) kernel_cs
                    (if from_user c then 0 else ss c) (segs c) mm)
      | (false, _, mm) => inr mm
      end
  end.

(** A vector raised while [c] runs.  A missing gate raises segment-not-present (11),
    a frame that cannot be written a page fault (14); a second exception after a
    contributory one or a page fault, or a third one, is a double fault.  [None] is
    the reset after a failed double fault. *)
Definition take_vector (v : Z) c : option (handler * cpu) :=
  let double c := match try_enter 8 c with inl r => Some r | inr _ => None end in
  match try_enter v c with
  | inl r => Some r
  | inr mm =>
      let c := with_mem c mm in
      if serial_class v then
        match try_enter (match gate v with None => 11 | Some _ => 14 end) c with
        | inl r => Some r
        | inr mm => double (with_mem c mm)
        end
      else double c
  end.
End Entry.

(** ** The descriptor table is loaded *)

Section Init.
Context `{HP : Profile} `{HG : GdtSpec used} `{HW : !GdtView} `{HS : !GdtViewSpec used} `{HV : VirtAddrSpec}.

(** The entries of the table, by slot. *)
Definition table_entries (g : gdt) : Prop :=
  descr g 1 = Some kernel_code_segment ∧ descr g 2 = Some kernel_data_segment ∧ descr g 3 = Some user_data_segment
  ∧ descr g 4 = Some user_code_segment ∧ descr g 5 = Some tss_segment.

Lemma GDT_entries : wp GDT (λ '(g, sel), sel = mkSelectors 0x08 0x10 0x23 0x1B 0x28 ∧ table_entries g).
Proof.
  destruct GDT_built as (gs & -> & Hgs). cbn [wp]. split; [done|].
  assert (∀ n, (n ≤ 5)%nat → ∀ i, (i < n)%nat → descr (gs n) (Z.of_nat i + 1) = gdt_entries !! i) as Hd.
  { induction n as [|n IH]; intros Hn i Hi; [lia|]. destruct (lookup_lt_is_Some_2 gdt_entries n ltac:(cbn; lia)) as [d Hn'].
    destruct (Hgs n d Hn') as (sel & E & Hu). rewrite (add_entry_descr _ _ _ _ _ E), Hu.
    destruct (Z.eqb_spec (Z.of_nat i + 1) (Z.of_nat n + 1)); [replace i with n by lia; done|apply IH; lia]. }
  split_and!; [apply (Hd 5%nat ltac:(lia) 0%nat)|apply (Hd 5%nat ltac:(lia) 1%nat)|apply (Hd 5%nat ltac:(lia) 2%nat)
    |apply (Hd 5%nat ltac:(lia) 3%nat)|apply (Hd 5%nat ltac:(lia) 4%nat)]; lia.
Qed.

(** The static arrays of the two stacks are in the kernel's address range. *)
Definition stack_array (a : Z) : Prop := 0 < a ∧ a mod 16 = 0 ∧ canonical a ∧ canonical (a + TSS_STACK_SIZE).

Lemma TSS_stacks a b : stack_array a → stack_array b →
  TSS a b = Ret (mkTss [a + TSS_STACK_SIZE; 0; 0] [b + TSS_STACK_SIZE; 0; 0; 0; 0; 0; 0]).
Proof.
  intros (_ & _ & Ha & Ha') (_ & _ & Hb & Hb'). unfold TSS. rewrite !virt_new_ok by done. cbn [obind].
  assert (∀ x, canonical x → canonical (x + TSS_STACK_SIZE) → uadd 64 x TSS_STACK_SIZE = Ret (x + TSS_STACK_SIZE)) as Hadd.
  { unfold canonical. intros x Hx Hx'. apply checked_ok. unfold TSS_STACK_SIZE in *. lia. }
  rewrite !Hadd by done. cbn [obind]. rewrite !virt_new_ok by done. done.
Qed.

(** Loading a register changes the selector, and nothing else of the processor. *)
Definition same_but c c' (cs' ss' : Z) : Prop :=
  regs c' = regs c ∧ rip c' = rip c ∧ rflags c' = rflags c ∧ mem c' = mem c ∧ cs c' = cs' ∧ ss c' = ss'.

Lemma set_data_ok r g c t b : table_entries g →
  ∃ c', set_data r (mkSeg (Some g) c t b) 0x10 = Ret (mkSeg (Some g) c' t b) ∧ same_but c c' (cs c) (ss c)
    ∧ segs c' r = 0x10 ∧ ∀ r', r' ≠ r → segs c' r' = segs c r'.
Proof.
  intros (_ & Hd & _). eexists. split.
  - unfold set_data. change (selected_descr (mkSeg (Some g) c t b) 0x10) with (descr g 2). rewrite Hd. reflexivity.
  - split; [done|]. cbn [segs]. split; [by rewrite decide_True|]. intros r' Hr. by rewrite decide_False.
Qed.

Lemma set_cs_ok g c t b : table_entries g →
  ∃ c', set_cs (mkSeg (Some g) c t b) 0x08 = Ret (mkSeg (Some g) c' t b) ∧ same_but c c' 0x08 (ss c) ∧ segs c' = segs c.
Proof.
  intros (Hd & _). eexists. split.
  - unfold set_cs. change (selected_descr (mkSeg (Some g) c t b) 0x08) with (descr g 1). rewrite Hd. reflexivity.
  - done.
Qed.

Lemma set_ss_ok g c t b : table_entries g →
  ∃ c', set_ss (mkSeg (Some g) c t b) 0x10 = Ret (mkSeg (Some g) c' t b) ∧ same_but c c' (cs c) 0x10 ∧ segs c' = segs c.
Proof.
  intros (_ & Hd & _). eexists. split.
  - unfold set_ss. change (selected_descr (mkSeg (Some g) c t b) 0x10) with (descr g 2). rewrite Hd. reflexivity.
  - done.
Qed.

(** [init] on the table, in closed form. *)
Lemma gdt_init_eq g s : table_entries g →
  ∃ sg, (∀ r, sg r = 0x10) ∧ gdt_init (g, mkSelectors 0x08 0x10 0x23 0x1B 0x28) s =
    if tss_busy s then Stop Panic else
    let c := s_cpu s in Ret (mkSeg (Some g) (mkCpu (regs c) (rip c) (rflags c) 0x08 0x10 sg (mem c)) 0x28 true).
Proof.
  intros Hg. destruct s as [o c t busy]. unfold gdt_init. cbn [kernel_code_selector kernel_data_selector tss_selector s_cpu tr tss_busy].
  destruct (set_cs_ok g c t busy Hg) as (c1 & -> & (E1 & E2 & E3 & E4 & E5 & E6) & _). cbn [obind].
  destruct (set_data_ok DS g c1 t busy Hg) as (c2 & -> & (F1 & F2 & F3 & F4 & F5 & F6) & Hds & _). cbn [obind].
  destruct (set_data_ok ES g c2 t busy Hg) as (c3 & -> & (G1 & G2 & G3 & G4 & G5 & G6) & Hes & Oes). cbn [obind].
  destruct (set_ss_ok g c3 t busy Hg) as (c4 & -> & (I1 & I2 & I3 & I4 & I5 & I6) & Oss). cbn [obind].
  destruct (set_data_ok FS g c4 t busy Hg) as (c5 & -> & (J1 & J2 & J3 & J4 & J5 & J6) & Hfs & Ofs). cbn [obind].
  destruct (set_data_ok GS g c5 t busy Hg) as (c6 & -> & (K1 & K2 & K3 & K4 & K5 & K6) & Hgs & Ogs). cbn [obind].
  exists (segs c6). split.
  - intros []; rewrite ?Hgs, ?Ogs, ?Hfs, ?Ofs, ?Oss, ?Hes, ?Oes by done; done.
  - destruct Hg as (_ & _ & _ & _ & Hd). unfold load_tss. change (selected_descr (mkSeg (Some g) c6 t busy) 0x28) with (descr g 5). rewrite Hd.
    cbn [tr_allowed tss_busy gdtr s_cpu]. destruct busy; [done|]. destruct c6 as [r6 ip6 fl6 cs6 ss6 sg6 m6]. cbn [regs rip rflags mem cs ss segs] in *. cbn [negb]. congruence.
Qed.

(** [init] loads the kernel's selectors; a second call faults, because the task
    state segment is then in use. *)
Theorem gdt_init_loads s : tss_busy s = false →
  wp GDT (λ G, wp (gdt_init G s) (λ s', table_entries G.1 ∧ gdtr s' = Some G.1
    ∧ cs (s_cpu s') = 0x08 ∧ ss (s_cpu s') = 0x10 ∧ (∀ r, segs (s_cpu s') r = 0x10) ∧ tr s' = 0x28 ∧ tss_busy s' = true
    ∧ (regs (s_cpu s') = regs (s_cpu s) ∧ rflags (s_cpu s') = rflags (s_cpu s) ∧ mem (s_cpu s') = mem (s_cpu s))
    ∧ gdt_init G s' = Stop Panic)).
Proof.
  intros Hb. eapply wp_mono; [apply GDT_entries|]. intros [g sel] [-> Ht].
  destruct (gdt_init_eq g s Ht) as (sg & Hsg & ->). rewrite Hb. cbn [wp fst gdtr s_cpu tr tss_busy cs ss segs regs rflags mem]. split_and!; try done.
  match goal with |- gdt_init _ ?s' = _ => destruct (gdt_init_eq g s' Ht) as (? & _ & ->) end. done.
Qed.
End Init.

(** ** Which handler runs, and where *)

Section EntryProofs.
Context (writable : Z → bool) (error : Z → Z) (handler_rip : handler → Z) (kernel_cs : Z) (tss : TaskStateSegment).
Implicit Types c : cpu.

(** The words below [sp] that hold a frame of [n] words. *)
Fixpoint room (n : nat) (sp : Z) : bool :=
  match n with O => true | S n => writable (sp - 8) && room n (sp - 8) end.

Lemma room_mono n n' : ∀ sp, (n ≤ n')%nat → room n' sp = true → room n sp = true.
Proof.
  revert n'. induction n as [|n IH]; intros n' sp Hn; [done|]. destruct n' as [|n']; [lia|]. cbn [room].
  rewrite !andb_true_iff. intros [? ?]. split; [done|]. apply (IH n'); [lia|done].
Qed.

Lemma room_all n : ∀ sp, (∀ a, sp - 8 * Z.of_nat n ≤ a < sp → writable a = true) → room n sp = true.
Proof.
  induction n as [|n IH]; intros sp Hw; cbn [room]; [done|]. rewrite Hw by lia. apply IH. intros a Ha. apply Hw. lia.
Qed.

(** A frame is pushed exactly when there is room, and changes only the words it is
    meant for. *)
Lemma push_frame_spec l : ∀ sp mm, ∃ sp' mm', push_frame writable l sp mm = (room (length l) sp, sp', mm')
  ∧ (∀ a, ¬ sp - 8 * Z.of_nat (length l) ≤ a < sp → mm' !! a = mm !! a)
  ∧ (room (length l) sp = true → sp' = sp - 8 * Z.of_nat (length l) ∧ words mm' sp' (rev l)).
Proof.
  induction l as [|w l IH]; intros sp mm; cbn [push_frame length].
  { exists sp, mm. split_and!; [done|done|]. intros _. cbn. split; [lia|done]. }
  cbn [room]. destruct (writable (sp - 8)); cbn [andb].
  - destruct (IH (sp - 8) (<[sp - 8 := w]> mm)) as (sp' & mm' & -> & Hout & Hin). exists sp', mm'. split; [done|]. split.
    + intros a Ha. rewrite Hout by lia. apply lookup_insert_ne. lia.
    + intros Hr. destruct (Hin Hr) as [-> Hw]. split; [lia|]. cbn [rev]. apply words_app. split; [done|]. rewrite length_rev. cbn [words]. split; [|done].
      replace (sp - 8 - 8 * Z.of_nat (length l) + 8 * Z.of_nat (length l)) with (sp - 8) by lia. rewrite Hout by lia. apply lookup_insert_eq.
  - exists sp, mm. split_and!; done.
Qed.

(** The handler [h] is entered for vector [v] on the stack that ends at [sp]: the
    frame of the interrupted code is below it, interrupts are off, and no word but
    those of [dirty] has changed. *)
Record entered (v : Z) c (h : handler) (sp : Z) (dirty : Z → Prop) (c' : cpu) : Prop := {
  en_rip : rip c' = handler_rip h;
  en_ring : cs c' = kernel_cs;
  en_flags : rflags c' = entry_flags (rflags c);
  en_frame : words (mem c') (regs c' RSP) (rev (trap_frame error v c));
  en_rsp : regs c' RSP = align16 sp - 8 * Z.of_nat (length (trap_frame error v c));
  en_regs : ∀ r, r ≠ RSP → regs c' r = regs c r;
  en_mem : ∀ a, ¬ dirty a → ¬ regs c' RSP ≤ a < align16 sp → mem c' !! a = mem c !! a;
}.

Definition frame_size (v : Z) : nat := if has_error v then 6%nat else 5%nat.

Lemma trap_frame_length v c : length (trap_frame error v c) = frame_size v.
Proof. unfold trap_frame, frame_size. by destruct (has_error v). Qed.

(** One attempt, in the memory [mm] that earlier ones left. *)
Lemma try_enter_spec v c mm (dirty : Z → Prop) : (∀ a, ¬ dirty a → mm !! a = mem c !! a) →
  match gate v with
  | None => try_enter writable error handler_rip kernel_cs tss v (with_mem c mm) = inr mm
  | Some h =>
      let sp := align16 (entry_stack tss h c) in
      if room (frame_size v) sp
      then ∃ c', try_enter writable error handler_rip kernel_cs tss v (with_mem c mm) = inl (h, c') ∧ entered v c h (entry_stack tss h c) dirty c'
      else ∃ mm', try_enter writable error handler_rip kernel_cs tss v (with_mem c mm) = inr mm'
        ∧ ∀ a, ¬ dirty a → ¬ sp - 48 ≤ a < sp → mm' !! a = mem c !! a
  end.
Proof.
  intros Hmm. unfold try_enter. destruct (gate v) as [h|]; [|done]. change (trap_frame error v (with_mem c mm)) with (trap_frame error v c).
  change (entry_stack tss h (with_mem c mm)) with (entry_stack tss h c). cbn [mem with_mem]. set (sp := align16 _). cbv zeta.
  destruct (push_frame_spec (trap_frame error v c) sp mm) as (sp' & mm' & -> & Hout & Hin). rewrite trap_frame_length in *.
  destruct (room (frame_size v) sp) eqn:Er.
  - destruct (Hin eq_refl) as [-> Hw]. eexists. split; [done|]. split; cbn [rip cs rflags regs mem]; rewrite ?set_reg_eq, ?trap_frame_length; try done.
    + intros r Hr. by rewrite set_reg_ne.
    + intros a Hd Ha. rewrite Hout by (subst sp; lia). by apply Hmm.
  - exists mm'. split; [done|]. intros a Hd Ha. rewrite Hout; [by apply Hmm|]. unfold frame_size. destruct (has_error v); lia.
Qed.

(** The double fault has its stack, whatever the interrupted code did to its own. *)
Lemma double_fault_stack (r0' r0 df : Z) c : stack_array df →
  tss = tss_set_rsp0 r0 (mkTss [r0' + TSS_STACK_SIZE; 0; 0] [df + TSS_STACK_SIZE; 0; 0; 0; 0; 0; 0]) →
  entry_stack tss double_fault c = df + TSS_STACK_SIZE ∧ align16 (df + TSS_STACK_SIZE) = df + TSS_STACK_SIZE.
Proof. intros (_ & Hm & _) ->. split; [done|]. unfold align16, TSS_STACK_SIZE. zlia. Qed.

Lemma double_fault_enters (r0' r0 df : Z) c : stack_array df →
  tss = tss_set_rsp0 r0 (mkTss [r0' + TSS_STACK_SIZE; 0; 0] [df + TSS_STACK_SIZE; 0; 0; 0; 0; 0; 0]) →
  (∀ a, df ≤ a < df + TSS_STACK_SIZE → writable a = true) →
  ∀ mm (dirty : Z → Prop), (∀ a, ¬ dirty a → mm !! a = mem c !! a) → ∃ c',
    try_enter writable error handler_rip kernel_cs tss 8 (with_mem c mm) = inl (double_fault, c')
    ∧ entered 8 c double_fault (df + TSS_STACK_SIZE) dirty c' ∧ regs c' RSP = df + TSS_STACK_SIZE - 48.
Proof.
  intros Hdf Htss Hw mm dirty Hmm. destruct (double_fault_stack r0' r0 df c Hdf Htss) as [Hist Hal].
  pose proof (try_enter_spec 8 c mm dirty Hmm) as Ht. change (gate 8) with (Some double_fault) in Ht. change (frame_size 8) with 6%nat in Ht.
  cbv beta iota zeta in Ht. rewrite Hist, Hal, room_all in Ht by (intros a Ha; apply Hw; unfold TSS_STACK_SIZE in *; lia).
  destruct Ht as (c' & -> & Hen). exists c'. split; [done|]. split; [done|]. rewrite (en_rsp _ _ _ _ _ _ Hen), Hal. done.
Qed.

(** C7: every vector enters a handler.  If the vector has a gate and its frame fits on
    the stack the processor chooses (the kernel stack of the task state segment for
    ring 3, the current one for ring 0), that handler is entered there.  In every
    other case - no gate, a stack pointer that overflowed or was never mapped - the
    double fault handler is entered on the stack reserved for it, at the same
    address each time, with the interrupted state in its frame; no word has changed
    but those of that frame and of the failed one. *)
Theorem vector_enters `{HP : Profile} `{HV : VirtAddrSpec} rsp0_stack df tss0 r0 v c :
  stack_array rsp0_stack → stack_array df → TSS rsp0_stack df = Ret tss0 → tss = tss_set_rsp0 r0 tss0 →
  (∀ a, df ≤ a < df + TSS_STACK_SIZE → writable a = true) →
  let sp := match gate v with Some h => entry_stack tss h c | None => 0 end in
  let fits := bool_decide (is_Some (gate v)) && room (frame_size v) (align16 sp) in
  ∃ h c', take_vector writable error handler_rip kernel_cs tss v c = Some (h, c')
    ∧ if fits then gate v = Some h ∧ entered v c h sp (λ _, False) c'
      else h = double_fault ∧ entered 8 c double_fault (df + TSS_STACK_SIZE) (λ a, align16 sp - 48 ≤ a < align16 sp) c'
        ∧ regs c' RSP = df + TSS_STACK_SIZE - 48.
Proof.
  intros Hr0 Hdf Htss0 Htss Hw. rewrite TSS_stacks in Htss0 by done. injection Htss0 as <-.
  destruct (double_fault_stack rsp0_stack r0 df c Hdf Htss) as [Hist Hal]. pose proof (double_fault_enters rsp0_stack r0 df c Hdf Htss Hw) as Hdouble.
  intros sp fits. pose proof (try_enter_spec v c (mem c) (λ _, False) ltac:(done)) as Hv.
  assert (with_mem c (mem c) = c) as Hself by (by destruct c). rewrite Hself in Hv.
  unfold take_vector. destruct (gate v) as [h|] eqn:Eg; subst fits.
  2: { rewrite bool_decide_false by (by intros [? ?]). cbn [andb]. rewrite Hv, Hself.
       assert (try_enter writable error handler_rip kernel_cs tss 11 c = inr (mem c)) as -> by done. rewrite Hself.
       destruct (Hdouble (mem c) (λ a, align16 sp - 48 ≤ a < align16 sp) ltac:(done)) as (c' & Hd & Hen & Hsp). rewrite Hself in Hd.
       exists double_fault, c'. rewrite Hd. by destruct (serial_class v). }
  rewrite bool_decide_true by eauto. cbn [andb]. cbv zeta in Hv. fold sp in Hv. destruct (room (frame_size v) (align16 sp)) eqn:Er.
  { destruct Hv as (c' & -> & Hen). by exists h, c'. }
  destruct Hv as (mm & -> & Hmm). set (dirty := λ a, align16 sp - 48 ≤ a < align16 sp).
  assert (∀ a, ¬ dirty a → mm !! a = mem c !! a) as Hmm' by (intros a Ha; apply Hmm; [tauto|exact Ha]).
  destruct (Hdouble mm dirty Hmm') as (c1 & Hd1 & Hen1 & Hsp1). destruct (serial_class v) eqn:Es.
  2: { exists double_fault, c1. by rewrite Hd1. }
  assert (stack_index h = None) as Hh.
  { destruct h; try done. exfalso. unfold sp in Er. rewrite Hist, Hal, room_all in Er; [done|]. intros a Ha. apply Hw.
    unfold frame_size, TSS_STACK_SIZE in *. destruct (has_error v); lia. }
  assert (entry_stack tss page_fault c = sp) as Hpf by (unfold sp, entry_stack; by rewrite Hh).
  pose proof (try_enter_spec 14 c mm dirty Hmm') as Ht. change (gate 14) with (Some page_fault) in Ht. change (frame_size 14) with 6%nat in Ht.
  cbv beta iota zeta in Ht. rewrite Hpf in Ht. destruct (room 6 (align16 sp)) eqn:E6.
  { rewrite (room_mono (frame_size v) 6 _ ltac:(unfold frame_size; destruct (has_error v); lia) E6) in Er. done. }
  destruct Ht as (mm2 & Ht & Hmm2). rewrite Ht.
  destruct (Hdouble mm2 dirty) as (c2 & Hd2 & Hen2 & Hsp2); [intros a Ha; by apply Hmm2|].
  exists double_fault, c2. change (with_mem (with_mem c mm) mm2) with (with_mem c mm2). by rewrite Hd2.
Qed.
End EntryProofs.

(** ** Witnesses *)

Module SegmentSample.
(** A table of descriptors from slot 1 on; the second slot of a segment is empty. *)
#[global] Instance table : GdtOps := {|
  gdt := list (option Descriptor);
  gdt_new := [];
  add_entry := λ g d, Ret (8 * (Z.of_nat (length g) + 1) + entry_rpl d, g ++ match d with tss_segment => [Some d; None] | _ => [Some d] end);
|}.
Definition used (g : list (option Descriptor)) : Z := Z.of_nat (length g) + 1.
#[global] Instance table_view : GdtView := λ g i, if i <? 1 then None else default None ((g : list (option Descriptor)) !! Z.to_nat (i - 1)).

Lemma segment_table_ok : GdtSpec used.
Proof.
  split; [done|]. intros g d _. eexists. split; [reflexivity|]. unfold used. rewrite length_app. destruct d; cbn; lia.
Qed.

Lemma view_ok : GdtViewSpec used.
Proof.
  split. intros g d sel g' i E. injection E as _ <-. cbn in g. unfold descr, table_view, used.
  destruct (Z.ltb_spec i 1); [by rewrite (proj2 (Z.eqb_neq i _)) by lia|].
  set (tail := match d with tss_segment => _ | _ => _ end). assert (tail !! 0%nat = Some (Some d) ∧ ∀ k, default None (tail !! S k) = None) as [T0 T1].
  { unfold tail. by destruct d; (split; [done|]); intros [|[|k]]. }
  destruct (Z.eqb_spec i (Z.of_nat (length g) + 1)) as [->|Hne].
  { replace (Z.to_nat (Z.of_nat (length g) + 1 - 1)) with (length g) by lia. rewrite lookup_app_r, Nat.sub_diag by lia. by rewrite T0. }
  destruct (decide (i - 1 < Z.of_nat (length g))); [by rewrite lookup_app_l by lia|]. rewrite lookup_app_r, (lookup_ge_None_2 g) by lia.
  replace (Z.to_nat (i - 1) - length g)%nat with (S (Z.to_nat (i - 2) - length g))%nat by lia. apply T1.
Qed.

Definition stack : Z := 0x10000.
(** Ring 0 with a stack pointer at the bottom of a guard page. *)
Definition overflowed : cpu := mkCpu (λ _, 0x7000) 0x1234 0x202 8 16 (λ _, 16) ∅.
Definition writable (a : Z) : bool := 0x10000 <=? a.

Lemma array a : 0 < a < 2 ^ 46 → a mod 16 = 0 → stack_array a.
Proof. intros Ha Hm. unfold stack_array, canonical, TSS_STACK_SIZE. split_and!; lia. Qed.
End SegmentSample.

(** A page fault with the stack pointer in unmapped memory. *)
Lemma vector_enters_witness : ∃ c',
  take_vector SegmentSample.writable (λ _, 0) (λ _, 0x9999) 8
    (tss_set_rsp0 0x5000 (mkTss [0x45000; 0; 0] [0x15000; 0; 0; 0; 0; 0; 0])) 14 SegmentSample.overflowed = Some (double_fault, c')
  ∧ regs c' RSP = 0x15000 - 48.
Proof.
  destruct (@vector_enters SegmentSample.writable (λ _, 0) (λ _, 0x9999) 8 _ true checked_virt_new checked_virt_new_spec
    0x40000 SegmentSample.stack (mkTss [0x45000; 0; 0] [0x15000; 0; 0; 0; 0; 0; 0]) 0x5000 14 SegmentSample.overflowed
    ltac:(by apply SegmentSample.array) ltac:(by apply SegmentSample.array) ltac:(vm_compute; reflexivity) eq_refl
    ltac:(intros a Ha; apply Z.leb_le; unfold SegmentSample.stack in Ha; lia)) as (h & c' & Ht & Hc).
  match type of Hc with if ?b then _ else _ => change b with false in Hc end. cbv iota in Hc.
  destruct Hc as (-> & _ & Hsp). exists c'. split; [exact Ht|exact Hsp].
Defined.
