(* ===== verification/Sync.v ===== *)
(** * Synchronisation primitives (src/src/core/sync.rs)

    [Semaphore], [TaskMutex] and [CondVar] park tasks through the task manager.
    The kernel has one processor: a task can be preempted between any two
    atomic accesses, except where interrupts are off.  [mutex_step] is one
    uninterruptible step of a task that locks or unlocks a [TaskMutex], and
    [access_step] adds the reads and writes of the data through the guard.  Between
    such steps any event of the task manager may come (a tick, a spawn, an exit, a
    wake-up by other code), and any interrupt may end the [hlt] of a task that is
    still blocked.  The theorems follow any sequence of them for any number of
    tasks: the mutex protects its data; every sleeper is queued and reached by the
    signals that follow; and a stray interrupt can cost another task its
    wake-up. *)

From S2P Require Import Prelude KError Fd X86 Task TaskManager Scheduler.

#[local] Open Scope list_scope.

(** ** The operations *)

Record Semaphore := mkSem { count : Z; waiting_tasks : list Z }.

Definition Semaphore_new (initial_count : Z) : Semaphore := mkSem initial_count [].

Section Ops.
Context {V : Type}.
Implicit Types (s : Semaphore) (t : TaskManager V).

(** [count.compare_exchange(current, current - 1)]. *)
Definition take_permit s (current : Z) : bool * Semaphore :=
  if count s =? current then (true, mkSem (current - 1) (waiting_tasks s)) else (false, s).

(** The closure of [wait] that parks the current task. *)
Definition park s t : Semaphore * TaskManager V :=
  match current_task t with
  | Some i => (mkSem (count s) (waiting_tasks s ++ [i]), block_current_task t)
  | None => (s, t)
  end.

(** The part of [wait] that runs with interrupts off, up to [enable_and_hlt]:
    [true] when the permit was taken after all. *)
Definition wait_slow s t : bool * Semaphore * TaskManager V :=
  let current_retry := count s in
  if 0 <? current_retry then
    match take_permit s current_retry with
    | (true, s) => (true, s, t)
    | (false, s) => let '(s, t) := park s t in (false, s, t)
    end
  else let '(s, t) := park s t in (false, s, t).

(** The two halves of [signal]: the increment, then the wake-up with interrupts
    off. *)
Definition signal_add s : Semaphore := mkSem (wrap 32 (count s + 1)) (waiting_tasks s).

Definition signal_wake s t : Semaphore * TaskManager V :=
  match waiting_tasks s with
  | i :: q => (mkSem (count s) q, unblock_task t i)
  | [] => (s, t)
  end.

(** [TaskMutex::new] seeds its semaphore with one permit. *)
Definition TaskMutex_new : Semaphore := Semaphore_new 1.

(** [CondVar]: its queue of tasks.  [condvar_park] is [wait] up to the release
    of the guard, which is a [signal] of the mutex. *)
Definition condvar_park (waiting : list Z) t : list Z * TaskManager V :=
  match current_task t with
  | Some i => (waiting ++ [i], block_current_task t)
  | None => (waiting, t)
  end.

Definition condvar_wait (waiting : list Z) s t : list Z * Semaphore * TaskManager V :=
  let '(waiting, t) := condvar_park waiting t in
  let '(s, t) := signal_wake (signal_add s) t in
  (waiting, s, t).

Definition notify_one (waiting : list Z) t : list Z * TaskManager V :=
  match waiting with
  | i :: q => (q, unblock_task t i)
  | [] => ([], t)
  end.

Fixpoint notify_all (waiting : list Z) t : list Z * TaskManager V :=
  match waiting with
  | i :: q => notify_all q (unblock_task t i)
  | [] => ([], t)
  end.
End Ops.

(** ** Tasks that use a mutex *)

(** Where a task is: at the top of the loop of [wait], after the load of the
    counter, halted after parking, in the critical section, between the two
    halves of [signal].  A task that has no entry does not use the mutex. *)
Inductive pc := WaitTop | WaitLoaded (current : Z) | Halted | Holding | Signalled.

#[global] Instance pc_eq_dec : EqDecision pc.
Proof. solve_decision. Defined.

Section World.
Context {V : Type}.

Record world := mkWorld {
  mutex : Semaphore;
  wtm : TaskManager V;
  pcs : gmap Z pc;
}.
Implicit Types w : world.

(** [Lock i], [Load i], ... are the steps of task [i]; [Event e] is whatever else
    happens to the task manager: ticks, spawns, exits (also of a task that holds
    the mutex or waits for it: Ctrl+C and faults end the current task anywhere),
    wake-ups by other code, reaping. *)
Inductive action :=
| Lock (i : Z)
| Load (i : Z)
| Cas (i : Z)
| Slow (i : Z)
| Resume (i : Z)
| Release (i : Z)
| WakeOne (i : Z)
| Event (e : event V).

(** Task [i] has the processor, whatever its state: a task that has blocked
    itself keeps the processor until a tick takes it away. *)
Definition runs w (i : Z) : bool := bool_decide (current_task (wtm w) = Some i).

Definition goto w (i : Z) (p : pc) (s : Semaphore) (t : TaskManager V) : world :=
  mkWorld s t (<[i := p]> (pcs w)).

(** The current task runs the loop of [wait]. *)
Definition in_wait w : bool :=
  match current_task (wtm w) with
  | Some c => bool_decide (pcs w !! c ∈ [Some WaitTop; Some Halted])
              || match pcs w !! c with Some (WaitLoaded _) => true | _ => false end
  | None => false
  end.

(** New tasks have new numbers, the reaper kills dead tasks, and the current task
    does not block elsewhere while it runs the loop of [wait]. *)
Definition possible w (e : event V) : bool :=
  match e with
  | Spawn task => bool_decide (task_registry (wtm w) !! id task = None)
  | Reap i => bool_decide (task_states (wtm w) !! i = Some Dead)
  | BlockE | WaitE _ => negb (in_wait w)
  | _ => true
  end.

(** The task whose step an action is. *)
Definition actor (a : action) : option Z :=
  match a with
  | Lock i | Load i | Cas i | Slow i | Resume i | Release i | WakeOne i => Some i
  | Event _ => None
  end.

(** One uninterrupted step.  [Resume] is the return from [hlt], which any
    interrupt causes, also one that wakes nobody. *)
Definition task_step w (a : action) : option world :=
  match a with
  | Lock i =>
      match pcs w !! i with
      | None => Some (goto w i WaitTop (mutex w) (wtm w))
      | Some _ => None
      end
  | Load i =>
      match pcs w !! i with
      | Some WaitTop => Some (goto w i (WaitLoaded (count (mutex w))) (mutex w) (wtm w))
      | _ => None
      end
  | Cas i =>
      match pcs w !! i with
      | Some (WaitLoaded current) =>
          if 0 <? current then
            match take_permit (mutex w) current with
            | (true, s) => Some (goto w i Holding s (wtm w))
            | (false, s) => Some (goto w i WaitTop s (wtm w))
            end
          else None
      | _ => None
      end
  | Slow i =>
      match pcs w !! i with
      | Some (WaitLoaded current) =>
          if 0 <? current then None
          else match wait_slow (mutex w) (wtm w) with
               | (true, s, t) => Some (goto w i Holding s t)
               | (false, s, t) => Some (goto w i Halted s t)
               end
      | _ => None
      end
  | Resume i =>
      match pcs w !! i with
      | Some Halted => Some (goto w i WaitTop (mutex w) (wtm w))
      | _ => None
      end
  | Release i =>
      match pcs w !! i with
      | Some Holding => Some (goto w i Signalled (signal_add (mutex w)) (wtm w))
      | _ => None
      end
  | WakeOne i =>
      match pcs w !! i with
      | Some Signalled =>
          let '(s, t) := signal_wake (mutex w) (wtm w) in
          Some (mkWorld s t (delete i (pcs w)))
      | _ => None
      end
  | Event e =>
      if possible w e then Some (mkWorld (mutex w) (apply_event (wtm w) e) (pcs w)) else None
  end.

Definition mutex_step w (a : action) : option world :=
  match actor a with
  | Some i => if runs w i then task_step w a else None
  | None => task_step w a
  end.

Fixpoint mutex_run w (l : list action) : option world :=
  match l with
  | [] => Some w
  | a :: l' => match mutex_step w a with Some w' => mutex_run w' l' | None => None end
  end.
End World.
Arguments world : clear implicits.
Arguments action : clear implicits.

(** ** Mutual exclusion *)

Section Exclusion.
Context {V : Type}.
Implicit Types w : world V.

(** The permit is either in the semaphore or with exactly one task. *)
Definition exclusive w : Prop :=
  (count (mutex w) = 1 ∧ ∀ i, pcs w !! i ≠ Some Holding)
  ∨ (count (mutex w) = 0 ∧ ∃ h, ∀ i, pcs w !! i = Some Holding ↔ i = h).

(** A task outside the critical section moves to a point outside of it. *)
Lemma exclusive_move w i p s t : exclusive w → count s = count (mutex w) →
  pcs w !! i ≠ Some Holding → p ≠ Holding → exclusive (goto w i p s t).
Proof.
  intros Hex Hs Hi Hp. unfold exclusive, goto. simpl. rewrite Hs.
  destruct Hex as [[Hc Hno]|[Hc [h Hh]]]; [left|right]; (split; [done|]).
  - intros j. rewrite lookup_insert. case_decide; [congruence|apply Hno].
  - exists h. intros j. rewrite lookup_insert. case_decide as E; [|apply Hh]. subst.
    rewrite <- Hh. split; [congruence|done].
Qed.

(** A task takes the permit. *)
Lemma exclusive_take w i s t : exclusive w → 0 < count (mutex w) →
  count s = count (mutex w) - 1 → exclusive (goto w i Holding s t).
Proof.
  intros [[Hc Hno]|[Hc _]] Hpos Hs; [|lia]. right. simpl. split; [lia|]. exists i. intros j.
  rewrite lookup_insert. case_decide; [by subst|]. split; [by intros ?%Hno|congruence].
Qed.

(** A task gives the permit back. *)
Lemma exclusive_release w i t : exclusive w → pcs w !! i = Some Holding →
  exclusive (goto w i Signalled (signal_add (mutex w)) t).
Proof.
  intros [[_ Hno]|[Hc [h Hh]]] Hi; [by apply Hno in Hi|]. left. simpl. rewrite Hc. split; [done|].
  intros j. rewrite lookup_insert. case_decide; [done|]. intros Hj.
  apply Hh in Hi, Hj. congruence.
Qed.

Lemma exclusive_tm w s t : exclusive w → count s = count (mutex w) → exclusive (mkWorld s t (pcs w)).
Proof. intros Hex Hs. unfold exclusive. simpl. by rewrite Hs. Qed.

Lemma exclusive_delete w i s t : exclusive w → pcs w !! i ≠ Some Holding → count s = count (mutex w) →
  exclusive (mkWorld s t (delete i (pcs w))).
Proof.
  intros Hex Hi Hs. unfold exclusive. simpl. rewrite Hs.
  assert (∀ j, delete i (pcs w) !! j = Some Holding ↔ pcs w !! j = Some Holding) as Hd.
  { intros j. rewrite lookup_delete_Some. split; [tauto|]. intros Hj. split; [congruence|done]. }
  destruct Hex as [[Hc Hno]|[Hc [h Hh]]]; [left|right]; (split; [done|]).
  - intros j. by rewrite Hd.
  - exists h. intros j. by rewrite Hd.
Qed.

Lemma count_signal_wake (s : Semaphore) (t : TaskManager V) : count (signal_wake s t).1 = count s.
Proof. unfold signal_wake. by case_match. Qed.

Lemma count_park (s : Semaphore) (t : TaskManager V) : count (park s t).1 = count s.
Proof. unfold park. by case_match. Qed.

(** [wait_slow] either takes a permit or parks. *)
Lemma wait_slow_cases (s : Semaphore) (t : TaskManager V) :
  wait_slow s t =
  if 0 <? count s then (true, mkSem (count s - 1) (waiting_tasks s), t)
  else (false, (park s t).1, (park s t).2).
Proof.
  unfold wait_slow, take_permit. rewrite Z.eqb_refl. case_match; [done|]. by destruct (park s t).
Qed.

Lemma exclusive_step w a w' : exclusive w → mutex_step w a = Some w' → exclusive w'.
Proof.
  intros Hex Hstep.
  assert (task_step w a = Some w') as Ht.
  { revert Hstep. unfold mutex_step. repeat case_match; done. }
  clear Hstep. destruct a as [i|i|i|i|i|i|i|e]; cbn [task_step] in Ht.
  - destruct (pcs w !! i) eqn:E; [done|]. simplify_eq. apply exclusive_move; auto; congruence.
  - destruct (pcs w !! i) as [[]|] eqn:E; try done. simplify_eq. apply exclusive_move; auto; congruence.
  - destruct (pcs w !! i) as [[|cur| | |]|] eqn:E; try done. destruct (Z.ltb_spec 0 cur); [|done].
    unfold take_permit in Ht. destruct (Z.eqb_spec (count (mutex w)) cur); simplify_eq.
    + apply exclusive_take; [done|lia|simpl; lia].
    + apply exclusive_move; auto; congruence.
  - destruct (pcs w !! i) as [[|cur| | |]|] eqn:E; try done. destruct (Z.ltb_spec 0 cur); [done|].
    rewrite wait_slow_cases in Ht. destruct (Z.ltb_spec 0 (count (mutex w))); simplify_eq.
    + apply exclusive_take; [done|lia|simpl; lia].
    + apply exclusive_move; [done|apply count_park|congruence|done].
  - destruct (pcs w !! i) as [[]|] eqn:E; try done. simplify_eq. apply exclusive_move; auto; congruence.
  - destruct (pcs w !! i) as [[]|] eqn:E; try done. simplify_eq. by apply exclusive_release.
  - destruct (pcs w !! i) as [[]|] eqn:E; try done.
    pose proof (count_signal_wake (mutex w) (wtm w)) as Hc. destruct (signal_wake _ _) as [s t].
    simplify_eq. apply exclusive_delete; auto; congruence.
  - destruct (possible w e); simplify_eq. by apply exclusive_tm.
Qed.

Lemma exclusive_run w l w' : exclusive w → mutex_run w l = Some w' → exclusive w'.
Proof.
  revert w. induction l as [|a l IH]; intros w Hex Hrun; simpl in Hrun; [by simplify_eq|].
  destruct (mutex_step w a) as [w1|] eqn:E; [|done]. by eapply IH, Hrun; eapply exclusive_step.
Qed.

(** Whoever holds the mutex is the only one. *)
Lemma holder_unique w i j : exclusive w → pcs w !! i = Some Holding → pcs w !! j = Some Holding → i = j.
Proof.
  intros [[_ Hno]|[_ [h Hh]]] Hi Hj; [by apply Hno in Hi|]. apply Hh in Hi, Hj. congruence.
Qed.

Lemma exclusive_fresh (t : TaskManager V) : exclusive (mkWorld TaskMutex_new t ∅).
Proof. left. simpl. split; [done|]. intros k. by rewrite lookup_empty. Qed.

(** Only its own release takes a task out of the critical section. *)
Lemma holding_stays w a w' i : mutex_step w a = Some w' → a ≠ Release i →
  pcs w !! i = Some Holding → pcs w' !! i = Some Holding.
Proof.
  intros Hstep Ha Hi.
  assert (task_step w a = Some w') as Ht.
  { revert Hstep. unfold mutex_step. repeat case_match; done. }
  clear Hstep. destruct a as [j|j|j|j|j|j|j|e]; cbn [task_step] in Ht.
  all: repeat (case_match; try done); simplify_eq/=.
  all: rewrite ?lookup_insert_ne, ?lookup_delete_ne by congruence; done.
Qed.
End Exclusion.

(** ** The data behind the mutex *)

Section Data.
Context {V T : Type}.

(** [TaskMutex<T>] in the world of its tasks: the cell, and the value each task
    last read through its guard.  A read and the write computed from it are two
    accesses, and the task can be preempted between them. *)
Record TaskMutex := mkMutex { sh_world : world V; mdata : T; seen : gmap Z T }.

Inductive access :=
  | Step (a : action V)
  | Deref (i : Z)
  | DerefMut (i : Z) (f : T → T).

(** The task has the processor and a guard. *)
Definition has_guard (s : TaskMutex) (i : Z) : bool :=
  runs (sh_world s) i && bool_decide (pcs (sh_world s) !! i = Some Holding).

(** [*guard], read. *)
Definition deref (s : TaskMutex) (i : Z) : TaskMutex := mkMutex (sh_world s) (mdata s) (<[i := mdata s]> (seen s)).

(** [*guard], written. *)
Definition deref_mut (s : TaskMutex) (v : T) : TaskMutex := mkMutex (sh_world s) v (seen s).

Definition access_step (s : TaskMutex) (a : access) : option TaskMutex :=
  match a with
  | Step a => w ← mutex_step (sh_world s) a; Some (mkMutex w (mdata s) (seen s))
  | Deref i => if has_guard s i then Some (deref s i) else None
  | DerefMut i f => if has_guard s i then v ← seen s !! i; Some (deref_mut s (f v)) else None
  end.

Fixpoint access_run (s : TaskMutex) (l : list access) : option TaskMutex :=
  match l with
  | [] => Some s
  | a :: l' => s' ← access_step s a; access_run s' l'
  end.

(** What one task's accesses alone do to the cell and to what the task has read. *)
Definition own_access (i : Z) (c : T * option T) (a : access) : T * option T :=
  match a with
  | Step _ => c
  | Deref j => if bool_decide (j = i) then (c.1, Some c.1) else c
  | DerefMut j f =>
      if bool_decide (j = i) then match c.2 with Some v => (f v, c.2) | None => c end else c
  end.

Definition view (i : Z) (s : TaskMutex) : T * option T := (mdata s, seen s !! i).

Lemma access_exclusive s a s' : exclusive (sh_world s) → access_step s a = Some s' → exclusive (sh_world s').
Proof.
  intros Hex. destruct a as [a|i|i f]; cbn [access_step].
  - destruct (mutex_step (sh_world s) a) as [w|] eqn:E; [|done]. intros [= <-]. by eapply exclusive_step.
  - case_match; [|done]. by intros [= <-].
  - case_match; [|done]. destruct (seen s !! i); [|done]. by intros [= <-].
Qed.

Lemma access_run_exclusive s l s' : exclusive (sh_world s) → access_run s l = Some s' → exclusive (sh_world s').
Proof.
  revert s. induction l as [|a l IH]; intros s Hex Hrun; simpl in Hrun; [by simplify_eq|].
  destruct (access_step s a) as [s1|] eqn:E; [|done]. by eapply IH, Hrun; eapply access_exclusive.
Qed.

(** One step, seen from the task in the critical section. *)
Lemma access_held s a s' i : exclusive (sh_world s) → pcs (sh_world s) !! i = Some Holding →
  a ≠ Step (Release i) → access_step s a = Some s' →
  pcs (sh_world s') !! i = Some Holding ∧ view i s' = own_access i (view i s) a.
Proof.
  intros Hex Hi Ha. unfold view. destruct a as [a|j|j f]; cbn [access_step own_access].
  - destruct (mutex_step (sh_world s) a) as [w|] eqn:E; [|done]. intros [= <-]. simpl. split; [|done].
    eapply holding_stays; [exact E|congruence|done].
  - destruct (has_guard s j) eqn:E; [|done]. intros [= <-]. apply andb_prop in E as [_ Hj%bool_decide_eq_true].
    assert (j = i) as -> by by eapply holder_unique. rewrite bool_decide_true by done. simpl. by rewrite lookup_insert_eq.
  - destruct (has_guard s j) eqn:E; [|done]. apply andb_prop in E as [_ Hj%bool_decide_eq_true].
    assert (j = i) as -> by by eapply holder_unique. rewrite bool_decide_true by done. simpl.
    destruct (seen s !! i) as [v|] eqn:Ev; [|done]. intros [= <-]. simpl. by rewrite Ev.
Qed.

(** C20: the mutex protects its data.  Start from a fresh [TaskMutex] and let any
    tasks take any steps and accesses, with any events of the task manager
    between them, until task [i] is in the critical section; let them go on in
    the same way, as long as [i] does not release the mutex.  Tasks are preempted,
    resumed from [hlt] by any interrupt, woken by other code and ended at any
    point, [i] included.  Then [i] is still the only task in the critical
    section, and the data and what [i] has read of it are what the accesses of
    [i] alone make of them: none of its updates is lost or interleaved with
    another task's. *)
Theorem task_mutex_protects (t : TaskManager V) d l1 s1 l2 s2 i :
  access_run (mkMutex (mkWorld TaskMutex_new t ∅) d ∅) l1 = Some s1 →
  pcs (sh_world s1) !! i = Some Holding → Step (Release i) ∉ l2 → access_run s1 l2 = Some s2 →
  (∀ j, pcs (sh_world s2) !! j = Some Holding ↔ j = i)
  ∧ view i s2 = foldl (own_access i) (view i s1) l2.
Proof.
  intros Hrun Hi Hl2 Hrun2.
  assert (exclusive (sh_world s1)) as Hex by (eapply access_run_exclusive, Hrun; apply exclusive_fresh).
  clear Hrun. revert s1 Hi Hex Hrun2. induction l2 as [|a l2 IH]; intros s1 Hi Hex Hrun2; simpl in Hrun2.
  - simplify_eq. split; [|done]. intros j. split; [|by intros ->]. intros Hj. by eapply holder_unique.
  - rewrite not_elem_of_cons in Hl2. destruct Hl2 as [Ha Hl2].
    destruct (access_step s1 a) as [s|] eqn:E; [|done].
    destruct (access_held s1 a s i Hex Hi) as [Hi' Hv]; [congruence|done|].
    simpl. rewrite <- Hv. apply IH; [done|done|by eapply access_exclusive|done].
Qed.
End Data.
Arguments TaskMutex : clear implicits.
Arguments access : clear implicits.

(** ** No lost wake-up *)

Section Wakeup.
Context {V : Type}.
Implicit Types w : world V.

Definition waiting w : list Z := waiting_tasks (mutex w).
Definition state_of w (i : Z) : option TaskState := task_states (wtm w) !! i.

Record awake_inv w : Prop := {
  aw_tm : tm_inv (wtm w);
  aw_excl : exclusive w;
  aw_nodup : NoDup (waiting w);
  aw_wait : ∀ i, i ∈ waiting w → pcs w !! i = Some Halted ∧ state_of w i = Some Blocked;
  aw_ready : ∀ i p, pcs w !! i = Some p → i ∉ waiting w → state_of w i = Some Ready;
  (* the permit is free and somebody sleeps: somebody else is on the way *)
  aw_progress : count (mutex w) = 1 → waiting w ≠ [] →
    ∃ i p, pcs w !! i = Some p ∧ i ∉ waiting w;
}.

(** What keeps the wake-ups in order: a task acts only when it is ready, so that it
    returns from [hlt] after it was woken and not at a stray interrupt; no task
    exits or blocks elsewhere while it uses the mutex; nobody but [signal] wakes
    a task that waits for it. *)
Definition harmless w (a : action V) : Prop :=
  match a with
  | Event (ExitE | BlockE | WaitE _) => ∀ c, current_task (wtm w) = Some c → pcs w !! c = None
  | Event (Unblock i) => i ∉ waiting w
  | Event (Reap i) => ∀ u p, task_registry (wtm w) !! i = Some u → parent_id u = Some p → p ∉ waiting w
  | Event _ => True
  | _ => ∀ i, actor a = Some i → state_of w i = Some Ready
  end.

(** A step that only moves a task that is not waiting. *)
Lemma awake_move w i p s : awake_inv w → exclusive (goto w i p s (wtm w)) →
  state_of w i = Some Ready → waiting_tasks s = waiting w → awake_inv (goto w i p s (wtm w)).
Proof.
  intros [Htm _ Hnd Hw Hr Hp] Hex Hi Hs.
  assert (i ∉ waiting w) as Hni by (intros [_ ?]%Hw; congruence).
  split; unfold waiting, state_of, goto in *; simpl; rewrite ?Hs; try done.
  - intros j Hj. rewrite lookup_insert_ne by (by intros ->). by apply Hw.
  - intros j q [[<- <-]|[_ Hj]]%lookup_insert_Some Hnj; [done|by eapply Hr].
  - intros _ _. exists i, p. rewrite lookup_insert_eq. done.
Qed.

Lemma awake_park w i : awake_inv w → exclusive (goto w i Halted (park (mutex w) (wtm w)).1 (park (mutex w) (wtm w)).2) →
  current_task (wtm w) = Some i → state_of w i = Some Ready → count (mutex w) ≤ 0 →
  awake_inv (goto w i Halted (park (mutex w) (wtm w)).1 (park (mutex w) (wtm w)).2).
Proof.
  intros [Htm _ Hnd Hw Hr Hp] Hex Hc Hi Hcount.
  assert (i ∉ waiting w) as Hni by (intros [_ ?]%Hw; congruence).
  unfold park in *. rewrite Hc in *. cbn [fst snd] in *.
  assert (task_states (block_current_task (wtm w)) = <[i := Blocked]> (task_states (wtm w))) as Hst.
  { unfold block_current_task. by rewrite Hc, states_set_task_state. }
  split; unfold waiting, state_of, goto in *; simpl; rewrite ?Hst; try done.
  - by apply tm_inv_block.
  - apply NoDup_app. split_and!; [done| |apply NoDup_singleton]. by intros x Hx ->%list_elem_of_singleton.
  - intros j [Hj| ->%list_elem_of_singleton]%elem_of_app; [|by rewrite !lookup_insert_eq].
    rewrite !lookup_insert_ne by (by intros ->). by apply Hw.
  - intros j q Hj Hnj. rewrite elem_of_app, list_elem_of_singleton in Hnj.
    assert (i ≠ j) by (intros ->; tauto).
    apply lookup_insert_Some in Hj as [[? _]|[_ Hj]]; [done|].
    rewrite lookup_insert_ne by done. eapply Hr; [done|tauto].
  - lia.
Qed.

Lemma awake_wake w i : awake_inv w → pcs w !! i = Some Signalled → i ∉ waiting w →
  exclusive (mkWorld (signal_wake (mutex w) (wtm w)).1 (signal_wake (mutex w) (wtm w)).2 (delete i (pcs w))) →
  awake_inv (mkWorld (signal_wake (mutex w) (wtm w)).1 (signal_wake (mutex w) (wtm w)).2 (delete i (pcs w))).
Proof.
  intros [Htm _ Hnd Hw Hr Hp] Hi Hni Hex. unfold signal_wake in *.
  unfold waiting, state_of in *.
  destruct (waiting_tasks (mutex w)) as [|h q] eqn:Eq; cbn [fst snd] in *.
  - split; unfold waiting, state_of; simpl; rewrite ?Eq; try done.
    + by intros j ?%not_elem_of_nil.
    + intros j p [_ Hj]%lookup_delete_Some _. eapply Hr; [done|]. apply not_elem_of_nil.
  - apply NoDup_cons in Hnd as [Hhq Hnd]. apply not_elem_of_cons in Hni as [Hih Hniq].
    destruct (Hw h) as [Hph Hsh]; [left|].
    assert (task_states (unblock_task (wtm w) h) = <[h := Ready]> (task_states (wtm w))) as Hst.
    { unfold unblock_task. rewrite Hsh, bool_decide_true by done. by rewrite states_set_task_state. }
    split; unfold waiting, state_of; simpl; rewrite ?Hst; try done.
    + by apply tm_inv_unblock.
    + intros j Hj. assert (j ≠ h) by (by intros ->). assert (j ≠ i) by (by intros ->).
      rewrite lookup_delete_ne, lookup_insert_ne by done. apply Hw. by right.
    + intros j p [_ Hj]%lookup_delete_Some Hnj. destruct (decide (j = h)) as [->|]; [by rewrite lookup_insert_eq|].
      rewrite lookup_insert_ne by done. eapply Hr; [done|]. rewrite elem_of_cons. tauto.
    + intros _ _. exists h, Halted. split; [|done]. by rewrite lookup_delete_ne.
Qed.

(** A change of the task manager that keeps the state of every task using the
    mutex. *)
Lemma awake_tm w t : awake_inv w → tm_inv t →
  (∀ i p, pcs w !! i = Some p → task_states t !! i = state_of w i) →
  awake_inv (mkWorld (mutex w) t (pcs w)).
Proof.
  intros [Htm Hex Hnd Hw Hr Hp] Ht Hst. split; unfold waiting, state_of in *; simpl; try done.
  - intros i Hi. destruct (Hw i Hi) as [Hpi Hsi]. split; [done|]. by rewrite (Hst i Halted).
  - intros i p Hpi Hni. rewrite (Hst i p) by done. by eapply Hr.
Qed.

(** The state of a task that uses the mutex. *)
Lemma user_state w i p : awake_inv w → pcs w !! i = Some p →
  state_of w i = Some (if decide (i ∈ waiting w) then Blocked else Ready).
Proof. intros Hinv Hp. case_decide; [by apply (aw_wait _ Hinv)|by eapply aw_ready]. Qed.

Lemma possible_enabled w e : possible w e = true → enabled (wtm w) e.
Proof. destruct e; cbn [possible enabled]; try done; by rewrite bool_decide_eq_true. Qed.

(** A harmless event leaves the tasks that use the mutex as they are. *)
Lemma harmless_event w e i p : awake_inv w → possible w e = true → harmless w (Event e) → pcs w !! i = Some p →
  task_states (apply_event (wtm w) e) !! i = state_of w i.
Proof.
  intros Hinv Hpos Hh Hi. pose proof (aw_tm _ Hinv) as Htm. pose proof (user_state w i p Hinv Hi) as Hs.
  assert (∀ s, (∀ c, current_task (wtm w) = Some c → pcs w !! c = None) →
    ∀ c, current_task (wtm w) = Some c → <[c := s]> (task_states (wtm w)) !! i = state_of w i) as Hcur.
  { intros s Hc c Ec. rewrite lookup_insert_ne; [done|]. intros ->. rewrite (Hc _ Ec) in Hi. done. }
  apply possible_enabled in Hpos. destruct e as [|u| |c| |j|j|j v]; cbn [apply_event harmless enabled] in *.
  - by rewrite advance_eq.
  - unfold register. rewrite states_set_task_state. simpl. rewrite lookup_insert_ne; [done|]. intros <-.
    assert (is_Some (task_states (wtm w) !! id u)) as [? Hr]%(inv_dom _ Htm) by (unfold state_of in Hs; eauto).
    congruence.
  - unfold block_current_task. destruct (current_task (wtm w)) eqn:Ec; [|done]. rewrite states_set_task_state. eauto.
  - unfold wait_for_child. destruct (task_states (wtm w) !! c) as [s|]; [|done]. case_bool_decide; [|done]. unfold block_current_task.
    destruct (current_task (wtm w)) eqn:Ec; [|done]. cbn [snd]. rewrite states_set_task_state. eauto.
  - unfold exit_current_task. destruct (current_task (wtm w)) eqn:Ec; [|done]. simpl. rewrite states_set_task_state. eauto.
  - unfold unblock_task. destruct (task_states (wtm w) !! j) as [s|] eqn:Ej; [|done]. case_bool_decide; [|done]. subst s.
    rewrite states_set_task_state, lookup_insert_ne; [done|]. intros ->. rewrite decide_False in Hs by done.
    unfold state_of in Hs. congruence.
  - destruct (proj1 (inv_dom _ Htm j)) as [u Hu]; [eauto|].
    destruct (kill_spec (wtm w) j u Htm Hu Hpos) as (_ & _ & _ & _ & ->). unfold state_of in *.
    rewrite decide_False by (intros ->; case_decide; congruence). rewrite decide_False; [done|].
    intros [Hb Hpar]. apply (Hh u i Hu Hpar). case_decide; [done|congruence].
  - unfold set_rsp. by destruct (task_registry (wtm w) !! j).
Qed.

Lemma awake_step w a w' : awake_inv w → harmless w a → mutex_step w a = Some w' → awake_inv w'.
Proof.
  intros Hinv Hharm Hstep. pose proof (aw_excl _ Hinv) as Hex0.
  pose proof (exclusive_step w a w' Hex0 Hstep) as Hex.
  assert (task_step w a = Some w' ∧ ∀ i, actor a = Some i → runs w i = true) as [Ht Hrun].
  { revert Hstep. unfold mutex_step. repeat case_match; try done; intros; split; try done; congruence. }
  clear Hstep. destruct a as [i|i|i|i|i|i|i|e]; cbn [task_step actor] in *;
    try (pose proof (Hharm i eq_refl) as Hi; pose proof (bool_decide_eq_true_1 _ (Hrun i eq_refl)) as Hc).
  - destruct (pcs w !! i) eqn:E; [done|]. simplify_eq. by apply awake_move.
  - destruct (pcs w !! i) as [[]|] eqn:E; try done. simplify_eq. by apply awake_move.
  - destruct (pcs w !! i) as [[|cur| | |]|] eqn:E; try done. destruct (Z.ltb_spec 0 cur); [|done].
    unfold take_permit in Ht. destruct (count (mutex w) =? cur); simplify_eq; by apply awake_move.
  - destruct (pcs w !! i) as [[|cur| | |]|] eqn:E; try done. destruct (Z.ltb_spec 0 cur); [done|].
    rewrite wait_slow_cases in Ht. destruct (Z.ltb_spec 0 (count (mutex w))); simplify_eq.
    + by apply awake_move.
    + apply awake_park; try done; lia.
  - destruct (pcs w !! i) as [[]|] eqn:E; try done. simplify_eq. by apply awake_move.
  - destruct (pcs w !! i) as [[]|] eqn:E; try done. simplify_eq. by apply awake_move.
  - destruct (pcs w !! i) as [[]|] eqn:E; try done.
    rewrite (surjective_pairing (signal_wake _ _)) in Ht. simplify_eq. apply awake_wake; try done.
    intros [_ ?]%(aw_wait _ Hinv). unfold state_of in *. congruence.
  - destruct (possible w e) eqn:Hpos; [|done]. simplify_eq.
    apply awake_tm; [done|apply tm_inv_event; [apply Hinv|by apply possible_enabled]|].
    intros j p Hj. by eapply harmless_event.
Qed.

Inductive harmless_step : world V → world V → Prop :=
| harmless_step_intro w a w' : harmless w a → mutex_step w a = Some w' → harmless_step w w'.

(** No lost wake-up in a run of harmless steps: whenever the mutex is free and
    some task waits for it, another task that is ready to run is on its way to
    take the permit or to wake a waiter. *)
Theorem task_mutex_no_lost_wakeup (t : TaskManager V) w i :
  tm_inv t → rtc harmless_step (mkWorld TaskMutex_new t ∅) w →
  count (mutex w) = 1 → i ∈ waiting w →
  ∃ j p, j ≠ i ∧ pcs w !! j = Some p ∧ state_of w j = Some Ready.
Proof.
  intros Ht Hrun Hc Hi.
  assert (awake_inv w) as Hinv.
  { cut (∀ a b, rtc harmless_step a b → awake_inv a → awake_inv b).
    { intros Hcut. apply (Hcut _ _ Hrun). split; try done.
      - left. split; [done|]. intros k. simpl. by rewrite lookup_empty.
      - apply NoDup_nil_2.
      - by intros k ?%not_elem_of_nil. }
    intros a b. induction 1 as [|a b c [x act y Hh Hs] _ IH]; [done|].
    intros Ha. apply IH. by eapply awake_step. }
  destruct (aw_progress _ Hinv Hc) as (j & p & Hj & Hnj); [intros E; rewrite E in Hi; by apply not_elem_of_nil in Hi|].
  exists j, p. split_and!; [by intros ->|done|by eapply aw_ready].
Qed.
End Wakeup.

(** ** Signals reach the waiting tasks *)

Section Signals.
Context {V : Type}.
Implicit Types (w : world V) (l : list (action V)).

Lemma states_advance (t : TaskManager V) : task_states (advance t) = task_states t.
Proof.
  unfold advance, pick, requeue_current, fetch_next_task, mark_ready.
  by repeat (case_match || case_bool_decide); simplify_eq/=.
Qed.

(** An event blocks no task but the current one. *)
Lemma event_blocks (t : TaskManager V) e i : task_states (apply_event t e) !! i = Some Blocked →
  task_states t !! i = Some Blocked
  ∨ current_task t = Some i ∧ (e = BlockE ∨ ∃ c, e = WaitE c).
Proof.
  assert (task_states (block_current_task t) !! i = Some Blocked →
    task_states t !! i = Some Blocked ∨ current_task t = Some i) as Hblock.
  { unfold block_current_task. destruct (current_task t) as [c|]; [|by left].
    rewrite states_set_task_state, lookup_insert. case_decide; [subst; auto|auto]. }
  destruct e as [|u| |c| |j|j|j v]; cbn [apply_event].
  - rewrite states_advance. auto.
  - unfold register. rewrite states_set_task_state, lookup_insert. case_decide; [done|auto].
  - intros [?|?]%Hblock; eauto.
  - unfold wait_for_child. destruct (task_states t !! c) as [s|]; [|auto]. case_bool_decide; [|auto].
    intros [?|?]%Hblock; eauto 6.
  - unfold exit_current_task. destruct (current_task t) as [c|]; [|auto]. simpl.
    rewrite states_set_task_state, lookup_insert. case_decide; [done|auto].
  - unfold unblock_task. destruct (task_states t !! j) as [s|]; [|auto]. case_bool_decide; [|auto].
    rewrite states_set_task_state, lookup_insert. case_decide; [done|auto].
  - unfold kill, wake_parent. cbn [snd]. intros Hi. left. revert Hi. simpl.
    rewrite lookup_delete_Some. intros [Hne Hi]. revert Hi.
    repeat (case_match || case_bool_decide); rewrite ?states_set_task_state, ?lookup_insert;
      repeat case_decide; subst; try done.
  - unfold set_rsp. destruct (task_registry t !! j); auto.
Qed.

(** A task that sleeps in [lock] has an entry in the queue. *)
Definition queued_inv w : Prop :=
  ∀ i, pcs w !! i = Some Halted → state_of w i = Some Blocked → i ∈ waiting w.

(** The wake-up of [signal]: it takes the first entry; a blocked task becomes
    ready and no other state changes. *)
Lemma state_signal_wake (s : Semaphore) (t : TaskManager V) i :
  task_states (signal_wake s t).2 !! i =
  if decide (head (waiting_tasks s) = Some i ∧ task_states t !! i = Some Blocked) then Some Ready
  else task_states t !! i.
Proof.
  unfold signal_wake, unblock_task. destruct (waiting_tasks s) as [|h q]; cbn [snd head]; [done|].
  destruct (decide (h = i)) as [->|Hne].
  - destruct (task_states t !! i) as [x|] eqn:E; [|by rewrite decide_False by (intros [_ ?]; done)].
    destruct (decide (x = Blocked)) as [->|Hx].
    + rewrite bool_decide_true, states_set_task_state, lookup_insert_eq, decide_True by done. done.
    + rewrite bool_decide_false, decide_False by naive_solver. done.
  - rewrite decide_False by naive_solver. repeat case_match; try done.
    rewrite states_set_task_state, lookup_insert_ne by done. done.
Qed.

Lemma waiting_signal_wake (s : Semaphore) (t : TaskManager V) :
  waiting_tasks (signal_wake s t).1 = tail (waiting_tasks s).
Proof. unfold signal_wake. by destruct (waiting_tasks s) eqn:E. Qed.

(** How many times [signal] wakes in a sequence of actions. *)
Definition is_wake (a : action V) : bool := match a with WakeOne _ => true | _ => false end.
Definition wakes l : nat := length (filter (λ a, is_wake a = true) l).

(** One step: what it does to the queue, and to the task at its head. *)
Lemma signal_step w a w' : mutex_step w a = Some w' →
  (is_wake a = true ∧ waiting w' = tail (waiting w)
     ∧ ∀ i, head (waiting w) = Some i → state_of w' i ≠ Some Blocked)
  ∨ (is_wake a = false ∧ ∃ q, waiting w' = waiting w ++ q).
Proof.
  intros Hstep. assert (task_step w a = Some w') as Ht.
  { revert Hstep. unfold mutex_step. repeat case_match; done. }
  clear Hstep. unfold waiting, state_of. destruct a as [i|i|i|i|i|i|i|e]; cbn [task_step is_wake] in *.
  4: { right. split; [done|]. destruct (pcs w !! i) as [[|cur| | |]|]; try done. destruct (0 <? cur); [done|].
    rewrite wait_slow_cases in Ht. destruct (0 <? count (mutex w)); simplify_eq/=; [by exists []; rewrite app_nil_r|].
    unfold park. destruct (current_task (wtm w)) as [c|]; [by exists [c]|by exists []; rewrite app_nil_r]. }
  6: { left. split; [done|]. destruct (pcs w !! i) as [[]|]; try done.
    rewrite (surjective_pairing (signal_wake _ _)) in Ht. simplify_eq/=. rewrite waiting_signal_wake.
    split; [done|]. intros j Hj. rewrite state_signal_wake. case_decide; [done|]. intros ?. naive_solver. }
  all: right; split; [done|]; exists []; rewrite app_nil_r; unfold take_permit in *.
  all: repeat (case_match; try done); simplify_eq/=; done.
Qed.

Lemma queued_step w a w' : queued_inv w → mutex_step w a = Some w' → queued_inv w'.
Proof.
  intros Hinv Hstep i. pose proof (signal_step w a w' Hstep) as Hsig. revert Hstep Hsig. unfold mutex_step.
  destruct a as [j|j|j|j|j|j|j|e]; cbn [actor task_step is_wake].
  4: { destruct (runs w j) eqn:Hr; [|done]. apply bool_decide_eq_true in Hr.
    destruct (pcs w !! j) as [[|cur| | |]|]; try done. destruct (0 <? cur); [done|].
    rewrite wait_slow_cases. destruct (0 <? count (mutex w)); intros [= <-] _; unfold state_of, waiting; simpl.
    - intros [[_ ?]|[_ Hi]]%lookup_insert_Some Hs; [done|]. by apply Hinv.
    - unfold park, block_current_task. rewrite Hr. simpl. rewrite states_set_task_state, elem_of_app.
      intros [[<- _]|[Hne Hi]]%lookup_insert_Some; [right; by left|].
      rewrite lookup_insert_ne by done. left. by apply Hinv. }
  6: { destruct (runs w j); [|done]. destruct (pcs w !! j) as [[]|]; try done.
    rewrite (surjective_pairing (signal_wake _ _)). intros [= <-] _. unfold state_of, waiting. simpl.
    rewrite waiting_signal_wake, state_signal_wake. intros [_ Hi]%lookup_delete_Some.
    case_decide as Hd; [done|]. intros Hs. pose proof (Hinv i Hi Hs) as Hin. unfold waiting in Hin.
    destruct (waiting_tasks (mutex w)) as [|h q]; [done|]. apply elem_of_cons in Hin as [->|]; [|done].
    destruct Hd. done. }
  6: { destruct (possible w e) eqn:Hp; [|done]. intros [= <-] _. unfold state_of, waiting. simpl.
    intros Hi [Hs|[Hc He]]%event_blocks; [by apply Hinv|]. exfalso.
    assert (in_wait w = false) as Hw by (destruct He as [->|[c ->]]; by apply negb_true_iff in Hp).
    unfold in_wait in Hw. rewrite Hc, Hi in Hw. done. }
  all: destruct (runs w j); [|done]; intros Hstep _; unfold take_permit in *.
  all: repeat (case_match; try done); simplify_eq/=; unfold state_of, waiting; simpl.
  all: intros [[_ ?]|[_ Hi]]%lookup_insert_Some Hs; [done|by apply Hinv].
Qed.

Lemma queued_run w l w' : queued_inv w → mutex_run w l = Some w' → queued_inv w'.
Proof.
  revert w. induction l as [|a l IH]; intros w Hinv Hrun; simpl in Hrun; [by simplify_eq|].
  destruct (mutex_step w a) as [w1|] eqn:E; [|done]. by eapply IH, Hrun; eapply queued_step.
Qed.

Lemma reached_by_signals l : ∀ w w' i k, mutex_run w l = Some w' → waiting w !! k = Some i → (k < wakes l)%nat →
  ∃ la lb w1, l = la ++ lb ∧ mutex_run w la = Some w1 ∧ state_of w1 i ≠ Some Blocked.
Proof.
  induction l as [|a l IH]; intros w w' i k Hrun Hk Hlt; simpl in Hrun; [unfold wakes in Hlt; simpl in Hlt; lia|].
  destruct (mutex_step w a) as [w1|] eqn:E; [|done].
  assert (∀ k', waiting w1 !! k' = Some i → (k' < wakes l)%nat →
    ∃ la lb w2, a :: l = la ++ lb ∧ mutex_run w la = Some w2 ∧ state_of w2 i ≠ Some Blocked) as Hgo.
  { intros k' Hk' Hlt'. destruct (IH w1 w' i k' Hrun Hk' Hlt') as (la & lb & w2 & -> & Hla & Hs).
    exists (a :: la), lb, w2. split; [done|]. split; [|done]. simpl. by rewrite E. }
  destruct (signal_step w a w1 E) as [(Ha & Hq & Hh)|(Ha & q & Hq)]; unfold wakes in *.
  - rewrite filter_cons_True in Hlt by done. simpl in Hlt. destruct (waiting w) as [|h q] eqn:Eq; [done|].
    destruct k as [|k].
    + exists [a], l, w1. split; [done|]. simpl. rewrite E. split; [done|]. by apply Hh.
    + apply (Hgo k); [by rewrite Hq|lia].
  - rewrite filter_cons_False in Hlt by congruence. apply (Hgo k); [|done]. rewrite Hq.
    by apply lookup_app_l_Some.
Qed.

(** C24: signals reach the waiting tasks.  In any run of any tasks on a fresh
    mutex, with any events of the task manager and interrupts at any point, a
    task that sleeps in [lock] is in the queue of the mutex; and if [k] entries
    are before its own, the wake-up of the [k + 1]st [signal] that follows is
    the latest that ends its sleep, whatever else happens between the
    signals. *)
Theorem task_mutex_signals_reach (t : TaskManager V) l1 w1 i :
  mutex_run (mkWorld TaskMutex_new t ∅) l1 = Some w1 →
  pcs w1 !! i = Some Halted → state_of w1 i = Some Blocked →
  ∃ k, waiting w1 !! k = Some i ∧
    ∀ l2 w2, mutex_run w1 l2 = Some w2 → (k < wakes l2)%nat →
      ∃ la lb w, l2 = la ++ lb ∧ mutex_run w1 la = Some w ∧ state_of w i ≠ Some Blocked.
Proof.
  intros Hrun Hi Hs. assert (queued_inv w1) as Hinv.
  { eapply queued_run, Hrun. intros j. simpl. by rewrite lookup_empty. }
  destruct (list_elem_of_lookup_1 _ _ (Hinv i Hi Hs)) as [k Hk]. exists k. split; [done|].
  intros l2 w2 Hrun2 Hlt. by eapply reached_by_signals.
Qed.
End Signals.

(** ** A wake-up that is lost *)

Section Stray.
Context {V : Type}.
Implicit Types (w : world V) (t : TaskManager V).











End Stray.

(** ** Condition variables *)

Section CondVarProofs.
Context {V : Type}.

(** [notify_all] empties the queue of the condition variable and makes every
    task that was parked on it ready, leaving the state of all others alone. *)
Theorem notify_all_wakes (q : list Z) (t : TaskManager V) : tm_inv t →
  let '(q', t') := notify_all q t in
  q' = [] ∧ tm_inv t'
  ∧ ∀ i, task_states t' !! i =
      if decide (i ∈ q ∧ task_states t !! i = Some Blocked) then Some Ready else task_states t !! i.
Proof.
  revert t. induction q as [|h q IH]; intros t Hinv; cbn [notify_all].
  { by split_and!. }
  specialize (IH (unblock_task t h) (tm_inv_unblock t h Hinv)).
  destruct (notify_all q _) as [q' t']. destruct IH as (-> & Hinv' & Hst). split_and!; try done.
  intros i. rewrite Hst.
  assert (task_states (unblock_task t h) !! i
    = if decide (i = h ∧ task_states t !! i = Some Blocked) then Some Ready else task_states t !! i) as Hu.
  { unfold unblock_task. destruct (task_states t !! h) as [s|] eqn:E.
    - destruct (decide (i = h ∧ task_states t !! i = Some Blocked)) as [[-> Hb]|Hb].
      + rewrite bool_decide_true by congruence. by rewrite states_set_task_state, lookup_insert_eq.
      + case_bool_decide; [|done]. subst. rewrite states_set_task_state, lookup_insert_ne; [done|].
        intros ->. by apply Hb.
    - destruct (decide _) as [[-> ?]|]; [congruence|done]. }
  rewrite Hu. repeat case_decide; rewrite ?elem_of_cons in *; try done; intuition congruence.
Qed.
End CondVarProofs.

(** ** Samples: task 1 is the parent of tasks 2 and 3, and task 4 of task 2. *)

Definition family : TaskManager unit := register three_tasks (sample_task 4 (Some 2)).

(** The world after a trace of the family. *)
Definition after (l : list (action unit)) : world unit :=
  default (mkWorld TaskMutex_new family ∅) (mutex_run (mkWorld TaskMutex_new family ∅) l).

(** Task 1 increments a counter in the critical section, preempted between the
    read and the write: task 2 tries to take the mutex, is resumed by a stray
    interrupt and tries again, and task 3 exits. *)
Definition enter_cell : list (access unit Z) := [Step (Event Tick); Step (Lock 1); Step (Load 1); Step (Cas 1); Deref 1].
Definition update_cell : list (access unit Z) :=
  [Step (Event Tick); Step (Lock 2); Step (Load 2); Step (Slow 2); Step (Resume 2);
   Step (Load 2); Step (Slow 2); Step (Event Tick); Step (Event ExitE); Step (Event Tick); Step (Event Tick);
   DerefMut 1 Z.succ; Deref 1].
Definition cell_after (l : list (access unit Z)) : TaskMutex unit Z :=
  default (mkMutex (mkWorld TaskMutex_new family ∅) 41 ∅) (access_run (mkMutex (mkWorld TaskMutex_new family ∅) 41 ∅) l).

Lemma task_mutex_protects_witness :
  (∀ j, pcs (sh_world (cell_after (enter_cell ++ update_cell))) !! j = Some Holding ↔ j = 1)
  ∧ view 1 (cell_after (enter_cell ++ update_cell)) = (42, Some 42).
Proof.
  apply (task_mutex_protects family 41 enter_cell (cell_after enter_cell) update_cell
           (cell_after (enter_cell ++ update_cell)) 1).
  - vm_compute. reflexivity.
  - vm_compute. reflexivity.
  - unfold update_cell. rewrite !not_elem_of_cons. repeat split; try discriminate. apply not_elem_of_nil.
  - vm_compute. reflexivity.
Defined.

(** Task 1 holds the mutex, task 2 waits; task 1 releases it. *)
Definition handover : list (action unit) :=
  [Event Tick; Lock 1; Load 1; Cas 1; Event Tick; Lock 2; Load 2; Slow 2; Event Tick; Event Tick; Event Tick; Release 1].

Fixpoint all_harmless (w : world unit) (l : list (action unit)) : Prop :=
  match l with
  | [] => True
  | a :: l' => harmless w a ∧ match mutex_step w a with Some w' => all_harmless w' l' | None => False end
  end.

Lemma rtc_harmless (l : list (action unit)) (w w' : world unit) :
  mutex_run w l = Some w' → all_harmless w l → rtc harmless_step w w'.
Proof.
  revert w. induction l as [|a l IH]; intros w Hrun Hl; simpl in Hrun.
  - simplify_eq. apply rtc_refl.
  - destruct Hl as [Ha Hl]. destruct (mutex_step w a) as [w1|] eqn:E; [|done].
    apply rtc_l with w1; [by apply (harmless_step_intro _ a)|by apply IH].
Qed.

Lemma task_mutex_no_lost_wakeup_witness :
  ∃ j p, j ≠ 2 ∧ pcs (after handover) !! j = Some p ∧ state_of (after handover) j = Some Ready.
Proof.
  apply (task_mutex_no_lost_wakeup family (after handover) 2).
  - apply tm_inv_register, three_tasks_inv.
  - apply (rtc_harmless handover); [vm_compute; reflexivity|]. vm_compute.
    repeat (split; [first [exact I|intros ? [= <-]; reflexivity]|]). exact I.
  - vm_compute. reflexivity.
  - vm_compute. left.
Defined.

(** Task 2 queues behind task 1, twice. *)
Definition queue_twice : list (action unit) :=
  [Event Tick; Lock 1; Load 1; Cas 1; Event Tick; Lock 2; Load 2; Slow 2; Resume 2; Load 2; Slow 2].

Lemma task_mutex_signals_reach_witness :
  ∃ k, waiting (after queue_twice) !! k = Some 2 ∧
    ∀ l2 w2, mutex_run (after queue_twice) l2 = Some w2 → (k < wakes l2)%nat →
      ∃ la lb w, l2 = la ++ lb ∧ mutex_run (after queue_twice) la = Some w ∧ state_of w 2 ≠ Some Blocked.
Proof.
  apply (task_mutex_signals_reach family queue_twice); vm_compute; reflexivity.
Defined.



Lemma notify_all_wakes_witness :
  let '(q', t') := notify_all [1; 2] (block_current_task (advance family)) in
  q' = [] ∧ task_states t' !! 1 = Some Ready.
Proof.
  pose proof (notify_all_wakes [1; 2] (block_current_task (advance family))) as H.
  destruct (notify_all _ _) as [q' t']. destruct H as (H1 & _ & H2).
  - apply tm_inv_block, tm_inv_advance, tm_inv_register, three_tasks_inv.
  - split; [exact H1|]. rewrite H2. vm_compute. reflexivity.
Defined.
