(* ===== verification/Block.v ===== *)
(** * Block devices and the partition table
    (src/src/fs/mod.rs, src/src/fs/partition/mbr.rs)

    [BlockDevice] is the trait the filesystem drivers use; [BlockDeviceSpec]
    states what they may rely on, and [ramdisk] satisfies it.  Module [Mbr]
    parses sector 0.  The disk behind the trait on the machine, [AhciDisk], is in
    Ahci.v. *)

From S2P Require Import Prelude KError FrameAlloc.

#[local] Open Scope list_scope.

(** ** The interface *)

(** The drivers always pass a 512-byte buffer: a read returns the sector. *)
Class BlockDevice (D : Type) := {
  read_block : D → Z → result (list Z) DriverError;
  write_block : D → Z → list Z → result unit DriverError * D;
}.

Definition is_sector (b : list Z) : Prop := length b = 512%nat ∧ Forall (λ x, is_byte x) b.

(** A successful read gives 512 bytes; a successful write of 512 bytes is read
    back, and changes no other sector. *)
Class BlockDeviceSpec (D : Type) `{BlockDevice D} : Prop := {
  read_block_sector d lba b : read_block d lba = Ok b → is_sector b;
  write_block_same d lba b d' : is_sector b → write_block d lba b = (Ok tt, d') →
    read_block d' lba = Ok b;
  write_block_other d lba b d' lba' : write_block d lba b = (Ok tt, d') → lba' ≠ lba →
    read_block d' lba' = read_block d lba';
}.

(** A disk of [n] sectors in memory. *)
Record ramdisk := mkRamdisk { sectors : gmap Z (list Z); capacity : Z }.

Definition zero_sector : list Z := replicate 512 0.

Definition sector_of (d : ramdisk) (lba : Z) : list Z :=
  match sectors d !! lba with
  | Some b => if decide (is_sector b) then b else zero_sector
  | None => zero_sector
  end.

#[export] Instance ramdisk_device : BlockDevice ramdisk := {|
  read_block d lba :=
    if (0 <=? lba) && (lba <? capacity d) then Ok (sector_of d lba) else Err IoFailure;
  write_block d lba b :=
    if (0 <=? lba) && (lba <? capacity d) then (Ok tt, mkRamdisk (<[lba := b]> (sectors d)) (capacity d))
    else (Err IoFailure, d);
|}.

Lemma zeros_sector : is_sector zero_sector.
Proof. split; [apply length_replicate|apply Forall_replicate; lia]. Qed.

#[export] Instance ramdisk_spec : BlockDeviceSpec ramdisk.
Proof.
  split; cbn [read_block write_block ramdisk_device].
  - intros d lba b Hr. destruct (_ && _); [|done]. simplify_eq. unfold sector_of.
    case_match; [case_decide; [done|]|]; apply zeros_sector.
  - intros d lba b d' Hb Hw. destruct (_ && _) eqn:E; simplify_eq. cbn [capacity]. rewrite E. f_equal.
    unfold sector_of. cbn [sectors]. by rewrite lookup_insert_eq, decide_True.
  - intros d lba b d' lba' Hw Hne. destruct (_ && _) eqn:E; simplify_eq. cbn [capacity].
    unfold sector_of. cbn [sectors]. by rewrite lookup_insert_ne.
Qed.

(** ** The master boot record *)

Module Mbr.
Definition PART_TYPE_EMPTY : Z := 0x00.
Definition PART_TYPE_FAT16_CHS : Z := 0x06.
Definition PART_TYPE_FAT32_CHS : Z := 0x0B.
Definition PART_TYPE_FAT32_LBA : Z := 0x0C.
Definition PART_TYPE_FAT16 : Z := 0x0E.
Definition PART_TYPE_LINUX : Z := 0x83.
Definition PART_TYPE_GPT_PROTECTIVE : Z := 0xEE.

Record PartitionEntry := mkEntry {
  bootable : Z;
  start_chs : list Z;
  partition_type : Z;
  end_chs : list Z;
  start_lba : Z;
  total_sectors : Z;
}.

Definition is_empty (p : PartitionEntry) : bool := partition_type p =? PART_TYPE_EMPTY.
Definition is_fat (p : PartitionEntry) : bool :=
  (partition_type p =? PART_TYPE_FAT32_CHS) || (partition_type p =? PART_TYPE_FAT32_LBA)
  || (partition_type p =? PART_TYPE_FAT16_CHS) || (partition_type p =? PART_TYPE_FAT16).
Definition is_linux (p : PartitionEntry) : bool := partition_type p =? PART_TYPE_LINUX.

(** The packed struct at the start of [b]: fields in order, little endian. *)
Definition entry_of_bytes (b : list Z) : PartitionEntry :=
  mkEntry (le (sub 0 1 b)) (sub 1 3 b) (le (sub 4 1 b)) (sub 5 3 b) (le (sub 8 4 b)) (le (sub 12 4 b)).

(** [read_from]: the four entries of sector 0. *)
Definition read_from `{BlockDevice D} (disk : D) : result (list PartitionEntry) FsError :=
  match read_block disk 0 with
  | Err _ => Err BlockRead
  | Ok buffer =>
      let b510 := nth 510 buffer 0 in
      let b511 := nth 511 buffer 0 in
      if negb (b510 =? 0x55) || negb (b511 =? 0xAA) then Err (BadMagic 0xAA55 (le [b510; b511]))
      else Ok (map (λ i, entry_of_bytes (sub (446 + i * 16) 16 buffer)) [0; 1; 2; 3])
  end.

Definition is_gpt_protective (parts : list PartitionEntry) : bool :=
  match parts with
  | p :: _ => negb (is_empty p) && (partition_type p =? PART_TYPE_GPT_PROTECTIVE)
  | [] => false
  end.

(** The on-disk form of an entry and of a boot sector. *)
Definition bytes_of_entry (p : PartitionEntry) : list Z :=
  [bootable p] ++ start_chs p ++ [partition_type p] ++ end_chs p
  ++ le_bytes 4 (start_lba p) ++ le_bytes 4 (total_sectors p).

Definition boot_sector (code : list Z) (parts : list PartitionEntry) : list Z :=
  code ++ concat (map bytes_of_entry parts) ++ [0x55; 0xAA].

Definition entry_wf (p : PartitionEntry) : Prop :=
  is_byte (bootable p) ∧ length (start_chs p) = 3%nat ∧ is_byte (partition_type p)
  ∧ length (end_chs p) = 3%nat ∧ 0 ≤ start_lba p < 2 ^ 32 ∧ 0 ≤ total_sectors p < 2 ^ 32.

Lemma length_bytes_of_entry p : entry_wf p → length (bytes_of_entry p) = 16%nat.
Proof.
  intros (_ & H1 & _ & H2 & _). unfold bytes_of_entry.
  repeat rewrite ?length_app, ?length_le_bytes, ?H1, ?H2. done.
Qed.

Lemma entry_roundtrip p : entry_wf p → entry_of_bytes (bytes_of_entry p) = p.
Proof.
  intros (Hb & H1 & Ht & H2 & Hs & Hn).
  destruct p as [bt sc ty ec sl ts]. simpl in H1, H2, Hs, Hn. unfold bytes_of_entry.
  destruct sc as [|s1 [|s2 [|s3 [|]]]]; try done. destruct ec as [|e1 [|e2 [|e3 [|]]]]; try done.
  cbn [bootable start_chs partition_type end_chs start_lba total_sectors].
  pose proof (le_le_bytes 4 sl ltac:(lia)) as Els. pose proof (length_le_bytes 4 sl) as Lls.
  pose proof (le_le_bytes 4 ts ltac:(lia)) as Elt. pose proof (length_le_bytes 4 ts) as Llt.
  destruct (le_bytes 4 sl) as [|a1 [|a2 [|a3 [|a4 [|]]]]]; try done.
  destruct (le_bytes 4 ts) as [|b1 [|b2 [|b3 [|b4 [|]]]]]; try done.
  rewrite <- Els, <- Elt. unfold entry_of_bytes.
  f_equal; cbn [app sub le take drop Z.to_nat Pos.to_nat Pos.iter_op Nat.add]; unfold sub; simpl; lia.
Qed.

Lemma boot_sector_entry code p1 p2 p3 p4 :
  length code = 446%nat → Forall entry_wf [p1; p2; p3; p4] →
  map (λ i, entry_of_bytes (sub (446 + i * 16) 16 (boot_sector code [p1; p2; p3; p4]))) [0; 1; 2; 3]
  = [p1; p2; p3; p4].
Proof.
  intros Hc Hp. inversion_clear Hp as [|? ? H1 Hp1]. inversion_clear Hp1 as [|? ? H2 Hp2].
  inversion_clear Hp2 as [|? ? H3 Hp3]. inversion_clear Hp3 as [|? ? H4 _].
  pose proof (length_bytes_of_entry p1 H1). pose proof (length_bytes_of_entry p2 H2).
  pose proof (length_bytes_of_entry p3 H3). pose proof (length_bytes_of_entry p4 H4).
  unfold boot_sector. cbn [map concat]. rewrite <- !app_assoc. cbn [app].
  assert (∀ off (l1 l2 p : list Z), length p = 16%nat → off = Z.of_nat (length l1) →
    sub off 16 (l1 ++ p ++ l2) = p) as Hsub.
  { intros off l1 l2 p Hlen ->. rewrite sub_app_r by lia. rewrite Z.sub_diag. apply sub_app_l. lia. }
  rewrite (Hsub (446 + 0 * 16) code _ (bytes_of_entry p1)) by lia.
  rewrite (app_assoc code), (Hsub (446 + 1 * 16) _ _ (bytes_of_entry p2)) by (rewrite ?length_app; lia).
  rewrite (app_assoc (code ++ _)), (Hsub (446 + 2 * 16) _ _ (bytes_of_entry p3)) by (rewrite ?length_app; lia).
  rewrite (app_assoc ((code ++ _) ++ _)), (Hsub (446 + 3 * 16) _ _ (bytes_of_entry p4)) by (rewrite ?length_app; lia).
  by rewrite !entry_roundtrip.
Qed.

(** The partition table is read back as it was written: a sector made of 446
    bytes of boot code, four entries and the signature 55 AA is decoded to
    these four entries.  A sector without the signature is refused with the
    word found in its place, and a read error with [BlockRead]. *)
Theorem read_from_roundtrip `{BlockDevice D} (disk : D) code parts b e :
  length code = 446%nat → length parts = 4%nat → Forall entry_wf parts →
  length b = 512%nat → le (sub 510 2 b) ≠ 0xAA55 →
  (read_block disk 0 = Ok (boot_sector code parts) → read_from disk = Ok parts)
  ∧ (read_block disk 0 = Ok b → Forall (λ x, is_byte x) b →
       read_from disk = Err (BadMagic 0xAA55 (le (sub 510 2 b))))
  ∧ (read_block disk 0 = Err e → read_from disk = Err BlockRead).
Proof.
  intros Hc Hp Hwf Hb Hmagic. unfold read_from. split_and!.
  - intros ->. destruct parts as [|p1 [|p2 [|p3 [|p4 [|]]]]]; try done.
    assert (∀ k, nth (510 + k) (boot_sector code [p1; p2; p3; p4]) 0 = nth k [0x55; 0xAA] 0) as Hn.
    { intros k. unfold boot_sector. cbn [map concat].
      inversion_clear Hwf as [|? ? H1 Hp1]. inversion_clear Hp1 as [|? ? H2 Hp2].
      inversion_clear Hp2 as [|? ? H3 Hp3]. inversion_clear Hp3 as [|? ? H4 _].
      rewrite app_nth2 by lia. rewrite app_nth2;
      rewrite !length_app, !length_bytes_of_entry by done; cbn [length]; [|lia]. f_equal. lia. }
    pose proof (Hn 0%nat) as Hn0. pose proof (Hn 1%nat) as Hn1. cbn [Nat.add nth] in Hn0, Hn1.
    rewrite Hn0, Hn1. cbn [Z.eqb Pos.eqb negb orb]. f_equal. by apply boot_sector_entry.
  - intros -> Hbytes.
    assert (sub 510 2 b = [nth 510 b 0; nth 511 b 0]) as Hs.
    { unfold sub. change (Z.to_nat 2) with 2%nat. change (Z.to_nat 510) with 510%nat.
      rewrite <- (take_drop 510 b) at 2 3. rewrite !app_nth2 by (rewrite length_take; lia).
      rewrite length_take, Hb. change (510 - 510 `min` 512)%nat with 0%nat. change (511 - 510 `min` 512)%nat with 1%nat.
      assert (length (drop 510 b) = 2%nat) as Hl by (rewrite length_drop; lia).
      destruct (drop 510 b) as [|x [|y [|]]]; done. }
    rewrite Hs in Hmagic |- *.
    destruct (Z.eqb_spec (nth 510 b 0) 0x55) as [E1|], (Z.eqb_spec (nth 511 b 0) 0xAA) as [E2|]; try done.
    exfalso. apply Hmagic. rewrite E1, E2. done.
  - by intros ->.
Qed.

Definition sample_entry : PartitionEntry := mkEntry 0x80 [0; 2; 0] PART_TYPE_LINUX [1; 2; 3] 2048 65536.
Definition sample_parts : list PartitionEntry :=
  [sample_entry; mkEntry 0 [0; 0; 0] 0 [0; 0; 0] 0 0; mkEntry 0 [0; 0; 0] 0 [0; 0; 0] 0 0;
   mkEntry 0 [0; 0; 0] 0 [0; 0; 0] 0 0].
Definition sample_disk : ramdisk :=
  mkRamdisk {[0 := boot_sector (replicate 446 0) sample_parts]} 16.

Lemma read_from_roundtrip_witness :
  read_block sample_disk 0 = Ok (boot_sector (replicate 446 0) sample_parts)
  ∧ read_from sample_disk = Ok sample_parts.
Proof.
  assert (read_block sample_disk 0 = Ok (boot_sector (replicate 446 0) sample_parts)) as Hr
    by (vm_compute; reflexivity).
  split; [exact Hr|].
  destruct (read_from_roundtrip sample_disk (replicate 446 0) sample_parts zero_sector IoFailure) as [H _].
  - reflexivity.
  - reflexivity.
  - repeat (constructor; [vm_compute; intuition discriminate|]). constructor.
  - reflexivity.
  - vm_compute. discriminate.
  - exact (H Hr).
Defined.
End Mbr.
