(* ===== verification/Ahci.v ===== *)
(** * The AHCI disk driver
    (src/src/drivers/block/ahci, src/src/drivers/block/mod.rs)

    The controller is a parameter: a state with register reads and writes, each of
    which may also move bytes of memory ([Hba]).  [HbaSpec] states what the AHCI
    and ATA specifications promise of it: what the registers of a port hold, and
    that a command issued in slot 0 ends, after finitely many polls, either with
    the transfer that the command list in memory describes or with the error bit.
    [decode_command] reads that description the way the controller does.

    The definitions build the description byte by byte in physical memory, poll
    the port, and move sectors through a bounce frame of the frame allocator.

    The theorems: the bring-up of a port establishes what the driver relies on;
    [read_block] and [write_block] then return, transfer the sector asked for, and
    leave the rest of memory and the allocator as they were. *)

From S2P Require Import Prelude KError X86 FrameAlloc Paging PageTree PageMapper AddrSpace Block.

#[local] Open Scope list_scope.

(** ** Registers *)

(** The register files, by the names of the fields. *)
Inductive HbaPort :=
| clb | clbu | port_fb | port_fbu | is_ | ie | cmd | tfd | sig | ssts | sctl | serr | sact | ci | sntf | fbs | devslp.

Inductive HbaMemory :=
| host_capability | global_host_control | interrupt_status | ports_implemented | version
| ports (i : Z) (r : HbaPort).

(** A register access: the value read, and the controller and the memory after it. *)
Class Hba (D : Type) := {
  hba_read : D → ram → HbaMemory → Z * D * ram;
  hba_write : D → ram → HbaMemory → Z → D * ram;
}.

Definition AE : Z := Z.shiftl 1 31.
Definition HbaHostCont_all : Z := Z.lor (Z.lor 1 2) (Z.lor 4 AE).

Definition ST : Z := Z.shiftl 1 0.
Definition SUD : Z := Z.shiftl 1 1.
Definition POD : Z := Z.shiftl 1 2.
Definition CLO : Z := Z.shiftl 1 3.
Definition FRE : Z := Z.shiftl 1 4.
Definition FR : Z := Z.shiftl 1 14.
Definition CR : Z := Z.shiftl 1 15.
Definition HbaPortCmd_all : Z := Z.lor (Z.lor (Z.lor ST SUD) (Z.lor POD CLO)) (Z.lor (Z.lor FRE FR) CR).

Inductive AtaCommand := ReadDma | ReadDmaExt | WriteDma | WriteDmaExt | IdentifyDevice.
Definition opcode (c : AtaCommand) : Z :=
  match c with ReadDma => 0xC8 | ReadDmaExt => 0x25 | WriteDma => 0xCA | WriteDmaExt => 0x35 | IdentifyDevice => 0xEC end.

(** ** The driver *)

Section Driver.
Context `{HP : Profile} `{HH : Hba D}.

(** The controller and the memory. *)
Record world := mkWorld { dev : D; wmem : mem }.
Implicit Types w : world.

Definition with_ram w (r : ram) : world := mkWorld (dev w) (set_ram (wmem w) r).
Definition with_alloc w a : world := mkWorld (dev w) (set_alloc (wmem w) a).

(** [Volatile::read] and [Volatile::write] on a register. *)
Definition read_reg w (r : HbaMemory) : Z * world :=
  let '(v, d, m) := hba_read (dev w) (mem_ram (wmem w)) r in (v, mkWorld d (set_ram (wmem w) m)).
Definition write_reg w (r : HbaMemory) (v : Z) : world :=
  let '(d, m) := hba_write (dev w) (mem_ram (wmem w)) r v in mkWorld d (set_ram (wmem w) m).

(** Stores into a structure at a physical address, which lies in one frame. *)
Definition store w (a : Z) (bytes : list Z) : outcome world :=
  match mem_ram (wmem w) !! page_of a with
  | Some b =>
      if a mod 4096 + Z.of_nat (length bytes) <=? 4096
      then Ret (with_ram w (<[page_of a := splice (a mod 4096) bytes b]> (mem_ram (wmem w))))
      else Stop OutOfBounds
  | None => Stop OutOfBounds
  end.

Definition stores w (base : Z) (l : list (Z * list Z)) : outcome world :=
  mfold (λ w x, store w (base + x.1) x.2) w l.

Definition load32 w (a : Z) : outcome Z := l <- read_phys (mem_ram (wmem w)) a 4;; Ret (field 0 4 l).

(** Fields of [HbaCmdHeader]: flags at 0, prdtl at 2, prdbc at 4, ctba at 8, ctbau
    at 12; its size is 32. *)
Definition header_writes (flags : Z) : list (Z * list Z) := [(0, le_bytes 2 flags); (2, le_bytes 2 1); (4, le_bytes 4 0)].

(** [HbaCmdTbl]: the FIS at 0, the region table at 128; its size is 144. *)
Definition table_writes (op lba buffer_phys_addr : Z) : list (Z * list Z) :=
  [ (0, replicate 144 0);
    (128, le_bytes 4 (Z.land buffer_phys_addr 0xFFFFFFFF));
    (132, le_bytes 4 (Z.shiftr buffer_phys_addr 32));
    (140, le_bytes 4 511);
    (0, [0x27]); (1, [0x80]); (2, [op]);
    (4, [Z.land lba 0xFF]); (5, [Z.land (Z.shiftr lba 8) 0xFF]); (6, [Z.land (Z.shiftr lba 16) 0xFF]); (7, [0x40]);
    (8, [Z.land (Z.shiftr lba 24) 0xFF]); (9, [Z.land (Z.shiftr lba 32) 0xFF]); (10, [Z.land (Z.shiftr lba 40) 0xFF]);
    (12, [1]); (13, [0]) ].

(** The wait until the device is not busy, given up after a million rounds. *)
Definition wait_ready w (i : Z) : outcome (bool * world) :=
  loop (Z.to_nat 1000002) (λ '(spin, w),
    let '(v, w) := read_reg w (ports i tfd) in
    if Z.land v (Z.lor 0x80 0x08) =? 0 then Ret (Done (true, w)) else
    let spin := spin + 1 in
    if 1000000 <? spin then Ret (Done (false, w)) else Ret (Next (spin, w))) (0, w).

(** The wait for the end of the command. *)
Definition wait_done (fuel : nat) w (i : Z) : outcome (bool * world) :=
  loop fuel (λ w,
    let '(v, w) := read_reg w (ports i ci) in
    if Z.land v (Z.shiftl 1 0) =? 0 then Ret (Done (true, w)) else
    let '(v, w) := read_reg w (ports i is_) in
    if negb (Z.land v (Z.shiftl 1 30) =? 0) then Ret (Done (false, w)) else Ret (Next w)) w.

(** [read_sector] and [write_sector] differ in the flags of the header and the
    opcode. *)
Definition sector_command (fuel : nat) (flags op : Z) w (i lba buffer_phys_addr hhdm_offset : Z) : outcome (bool * world) :=
  let w := write_reg w (ports i is_) 0xFFFFFFFF in
  let '(hi, w) := read_reg w (ports i clbu) in
  let '(lo, w) := read_reg w (ports i clb) in
  let clb_phys := Z.lor (Z.shiftl hi 32) lo in
  _clb_virt <- uadd 64 clb_phys hhdm_offset;;
  w <- stores w clb_phys (header_writes flags);;
  hi <- load32 w (clb_phys + 12);;
  lo <- load32 w (clb_phys + 8);;
  let ctba_phys := Z.lor (Z.shiftl hi 32) lo in
  _ctba_virt <- uadd 64 ctba_phys hhdm_offset;;
  w <- stores w ctba_phys (table_writes op lba buffer_phys_addr);;
  let* (ready, w) := wait_ready w i in
  if negb ready then Ret (false, w) else
  let w := write_reg w (ports i ci) (Z.shiftl 1 0) in
  wait_done fuel w i.

Definition read_sector fuel w i lba buffer_phys_addr hhdm_offset :=
  sector_command fuel 5 (opcode ReadDmaExt) w i lba buffer_phys_addr hhdm_offset.
Definition write_sector fuel w i lba buffer_phys_addr hhdm_offset :=
  sector_command fuel 0x45 (opcode WriteDmaExt) w i lba buffer_phys_addr hhdm_offset.

Definition stop_cmd (fuel : nat) w (i : Z) : outcome world :=
  let '(v, w) := read_reg w (ports i cmd) in
  let c := Z.ldiff (Z.land v HbaPortCmd_all) (Z.lor ST FRE) in
  let w := write_reg w (ports i cmd) c in
  loop fuel (λ w,
    let '(v, w) := read_reg w (ports i cmd) in
    let current_cmd := Z.land v HbaPortCmd_all in
    if Z.land current_cmd (Z.lor CR FR) =? 0 then Ret (Done w) else Ret (Next w)) w.

Definition start_cmd (fuel : nat) w (i : Z) : outcome world :=
  w <- loop fuel (λ w,
    let '(v, w) := read_reg w (ports i cmd) in
    if negb (Z.land (Z.land v HbaPortCmd_all) CR =? CR) then Ret (Done w) else Ret (Next w)) w;;
  let '(v, w) := read_reg w (ports i cmd) in
  Ret (write_reg w (ports i cmd) (Z.lor (Z.land v HbaPortCmd_all) (Z.lor FRE ST))).

(** One slot of the command list at bring-up. *)
Definition init_slot (dma_frames_phys : Z) (slot : Z) w : outcome world :=
  w <- store w (dma_frames_phys + 32 * slot + 2) (le_bytes 2 8);;
  a <- uadd 64 dma_frames_phys 4096;;
  b <- umul 64 slot 256;;
  command_table_phys <- uadd 64 a b;;
  w <- store w (dma_frames_phys + 32 * slot + 8) (le_bytes 4 (Z.land command_table_phys 0xFFFFFFFF));;
  store w (dma_frames_phys + 32 * slot + 12) (le_bytes 4 (Z.shiftr command_table_phys 32)).

(** The structures of a port in three frames. *)
Definition dma_setup (fuel : nat) w (i dma_frames_phys : Z) : outcome world :=
  r <- mfold (λ r k, zero r (dma_frames_phys + k)) (mem_ram (wmem w)) [0; 4096; 8192];;
  let w := with_ram w r in
  let w := write_reg w (ports i clb) (Z.land dma_frames_phys 0xFFFFFFFF) in
  let w := write_reg w (ports i clbu) (Z.shiftr dma_frames_phys 32) in
  fb_phys <- uadd 64 dma_frames_phys 1024;;
  let w := write_reg w (ports i port_fb) (Z.land fb_phys 0xFFFFFFFF) in
  let w := write_reg w (ports i port_fbu) (Z.shiftr fb_phys 32) in
  w <- each_range 0 32 (init_slot dma_frames_phys) w;;
  start_cmd fuel w i.

(** The DMA set-up of a port with a disk. *)
Definition configure_port (fuel : nat) w (i hhdm_offset : Z) : outcome world :=
  w <- stop_cmd fuel w i;;
  let* (o, a) := allocate_contiguous_frames (mem_alloc (wmem w)) 3 in
  let w := with_alloc w a in
  match o with
  | None => Stop Panic
  | Some dma_frames_phys =>
      _dma_frames_virt <- uadd 64 hhdm_offset dma_frames_phys;;
      dma_setup fuel w i dma_frames_phys
  end.

(** ** Blocks *)

(** [AhciDisk::read_block] of the disk on port [i] into a buffer of [len] bytes. *)
Definition ahci_read_block (fuel : nat) (hhdm : option Z) w (i lba len : Z) : outcome (result (list Z) DriverError * world) :=
  if len <? 512 then Ret (Err BufferTooSmall, w) else
  match hhdm with
  | None => Stop Panic
  | Some hhdm_offset =>
      let* (o, a) := allocate_contiguous_frames (mem_alloc (wmem w)) 1 in
      let w := with_alloc w a in
      match o with
      | None => Ret (Err NoDmaMemory, w)
      | Some frame_phys =>
          _frame_virt <- uadd 64 hhdm_offset frame_phys;;
          if 32 <=? i then Stop Panic else
          let* (success, w) := read_sector fuel w i lba frame_phys hhdm_offset in
          if success then
            buffer <- read_phys (mem_ram (wmem w)) frame_phys (Z.to_nat len);;
            a <- deallocate_frame (mem_alloc (wmem w)) frame_phys;;
            Ret (Ok buffer, with_alloc w a)
          else
            a <- deallocate_frame (mem_alloc (wmem w)) frame_phys;;
            Ret (Err IoFailure, with_alloc w a)
      end
  end.

Definition ahci_write_block (fuel : nat) (hhdm : option Z) w (i lba : Z) (buffer : list Z) : outcome (result unit DriverError * world) :=
  if 4096 <? Z.of_nat (length buffer) then Ret (Err BufferTooLarge, w) else
  match hhdm with
  | None => Stop Panic
  | Some hhdm_offset =>
      let* (o, a) := allocate_contiguous_frames (mem_alloc (wmem w)) 1 in
      let w := with_alloc w a in
      match o with
      | None => Ret (Err NoDmaMemory, w)
      | Some frame_phys =>
          _frame_virt <- uadd 64 hhdm_offset frame_phys;;
          w <- store w frame_phys buffer;;
          if 32 <=? i then Stop Panic else
          let* (success, w) := write_sector fuel w i lba frame_phys hhdm_offset in
          a <- deallocate_frame (mem_alloc (wmem w)) frame_phys;;
          Ret (if success then Ok tt else Err IoFailure, with_alloc w a)
      end
  end.

(** ** Bring-up *)

Section Init.
Context `{VirtAddrNew} `{PhysAddrNew} `{EntryOps} `{Mapper}.
(** [process_disk] of the disk manager, on the disk of a port. *)
Context (process_disk : world → Z → outcome world).

Definition FLAG_WRITE_THROUGH : Z := 8.
Definition FLAG_NO_CACHE : Z := 16.

(** One page of the register window; an error is only reported. *)
Definition map_mmio_page (off cr3 bar5_address virtual_bar5 : Z) (i : Z) w : outcome world :=
  offset <- umul 64 i 4096;;
  v <- uadd 64 virtual_bar5 offset;;
  v <- virt_new v;;
  p <- uadd 64 bar5_address offset;;
  p <- phys_new p;;
  let flags := Z.lor (Z.lor (Z.lor FLAG_PRESENT FLAG_WRITABLE) FLAG_NO_CACHE) FLAG_WRITE_THROUGH in
  let* (_, m) := map_to (system_allocate_frame (Some off)) (wmem w) cr3 (page_of v) (page_of p) flags in
  Ret (mkWorld (dev w) m).

(** One round of the port loop. *)
Definition probe_port (fuel : nat) (hhdm_offset ports_impl : Z) (i : Z) w : outcome world :=
  if Z.land ports_impl (Z.shiftl 1 i) =? 0 then Ret w else
  let '(sata_status, w) := read_reg w (ports i ssts) in
  let device_detection := Z.land sata_status 0x0F in
  let power_management := Z.land (Z.shiftr sata_status 8) 0x0F in
  if (device_detection =? 3) && (power_management =? 1) then
    let '(s, w) := read_reg w (ports i sig) in
    if s =? 0xEB140101 then Ret w
    else if s =? 0x00000101 then
      w <- configure_port fuel w i hhdm_offset;;
      process_disk w i
    else Ret w
  else Ret w.

Definition ahci_init (fuel : nat) (hhdm : option Z) (cr3 : Z) w (bar5_address : Z) : outcome world :=
  off <- hhdm_offset hhdm;;
  off <- virt_new off;;
  v <- uadd 64 bar5_address off;;
  virtual_bar5 <- virt_new v;;
  _ <- window off cr3;;
  w <- each_range 0 2 (map_mmio_page off cr3 bar5_address virtual_bar5) w;;
  let '(v, w) := read_reg w global_host_control in
  let host_ctrl := Z.lor (Z.land v HbaHostCont_all) AE in
  let w := write_reg w global_host_control host_ctrl in
  let '(ports_impl, w) := read_reg w ports_implemented in
  each_range 0 32 (probe_port fuel off ports_impl) w.
End Init.
End Driver.
Arguments world : clear implicits.

(** ** What the controller sees in memory *)

Definition bytes_at (r : ram) (a n : Z) : option (list Z) :=
  b ← r !! page_of a; if a mod 4096 + n <=? 4096 then Some (sub (a mod 4096) n b) else None.

Inductive ata := AtaRead (lba a : Z) | AtaWrite (lba a : Z).

(** A well-formed command for one sector in slot 0: the header says five words of
    FIS and one memory region; the FIS is a host-to-device register FIS with a
    48-bit DMA command in LBA mode for one sector; the region has 512 bytes. *)
Definition fis_ok (h t : list Z) : bool :=
  (Z.land (field 0 2 h) 31 =? 5) && (field 2 2 h =? 1) && (field 0 1 t =? 0x27) && Z.testbit (field 1 1 t) 7
  && Z.testbit (field 7 1 t) 6 && (field 12 2 t =? 1) && (Z.land (field 140 4 t) 0x3FFFFF =? 511).

Definition fis_command (h t : list Z) : option ata :=
  let lba := field 4 3 t + 2 ^ 24 * field 8 3 t in
  let a := field 128 8 t in
  if fis_ok h t then
    if (field 2 1 t =? 0x25) && negb (Z.testbit (field 0 2 h) 6) then Some (AtaRead lba a)
    else if (field 2 1 t =? 0x35) && Z.testbit (field 0 2 h) 6 then Some (AtaWrite lba a)
    else None
  else None.

Definition decode_command (r : ram) (clb : Z) : option ata :=
  h ← bytes_at r clb 4; p ← bytes_at r (clb + 8) 8; t ← bytes_at r (le p) 144; fis_command h t.

(** ** The controller's promises *)

Inductive phase := Stopped | Idle | Issued | Halted.

(** A port: its command list and FIS area, the state of its engine and the disk. *)
Record port_state := mkPort { ps_clb : Z; ps_fb : Z; ps_phase : phase; ps_disk : gmap Z (list Z) }.

Definition set_phase (p : port_state) (x : phase) := mkPort (ps_clb p) (ps_fb p) x (ps_disk p).
Definition set_sector (p : port_state) (lba : Z) (s : list Z) :=
  mkPort (ps_clb p) (ps_fb p) (ps_phase p) (<[lba := s]> (ps_disk p)).

(** Areas of memory. *)
Definition inside (areas : list (Z * Z)) (x : Z) : Prop := Exists (λ '(a, n), a ≤ x < a + n) areas.

Definition ram_byte (r : ram) (x : Z) : option Z := b ← r !! page_of x; b !! Z.to_nat (x mod 4096).

(** Memory changed in the areas only. *)
Record changes (areas : list (Z * Z)) (r r' : ram) : Prop := {
  ch_ok f : frame_ok r f → frame_ok r' f;
  ch_byte x : ¬ inside areas x → ram_byte r' x = ram_byte r x;
}.

(** What a command may write: the area of received FISes, the byte count in the
    header and, for a read, the buffer. *)
Definition dma_areas (p : port_state) (c : ata) : list (Z * Z) :=
  [(ps_fb p, 256); (ps_clb p + 4, 4)] ++ match c with AtaRead _ a => [(a, 512)] | AtaWrite _ _ => [] end.

Definition completed (p : port_state) (c : ata) (r : ram) (p' : port_state) (r' : ram) : Prop :=
  match c with
  | AtaRead lba a => ∃ s, ps_disk p !! lba = Some s ∧ bytes_at r' a 512 = Some s ∧ p' = set_phase p Idle
  | AtaWrite lba a => ∃ s, bytes_at r a 512 = Some s ∧ p' = set_sector (set_phase p Idle) lba s
  end.

Definition failed (p : port_state) (c : ata) (p' : port_state) : Prop :=
  match c with
  | AtaRead _ _ => p' = set_phase p Halted
  | AtaWrite lba _ => p' = set_phase p Halted ∨ ∃ s, is_sector s ∧ p' = set_sector (set_phase p Halted) lba s
  end.

(** The state of the ports behind the registers, and a bound on the polls a wait
    takes. *)
Class HbaView (D : Type) := {
  port_of : D → Z → port_state;
  patience : D → Z → nat;
  max_polls : nat;
}.

Definition keeps `{HbaView D} (d d' : D) : Prop := ∀ j, port_of d' j = port_of d j.
(** Port [i] is now [p], the others are as before. *)
Definition becomes `{HbaView D} (i : Z) (p : port_state) (d d' : D) : Prop := ∀ j, port_of d' j = if j =? i then p else port_of d j.
Definition quiet `{HbaView D} (d : D) : Prop := ∀ j, ps_phase (port_of d j) ≠ Issued.
(** A command runs on port [i] only. *)
Definition busy_port `{HbaView D} (i : Z) (d : D) : Prop := ∀ j, ps_phase (port_of d j) = Issued ↔ j = i.

Class HbaSpec (D : Type) `{Hba D} `{HbaView D} : Prop := {
  (** The addresses are 64-bit words, the disk has sectors. *)
  clb_word d i : 0 ≤ ps_clb (port_of d i) < 2 ^ 64;
  fb_word d i : 0 ≤ ps_fb (port_of d i) < 2 ^ 64;
  disk_sector d i lba s : ps_disk (port_of d i) !! lba = Some s → is_sector s;
  patience_bound d i : (patience d i < max_polls)%nat;
  (** Without a running command a register read has no effect. *)
  read_quiet d r reg v d' r' : quiet d → hba_read d r reg = (v, d', r') → keeps d d' ∧ r' = r;
  read_clb d r i v d' r' : hba_read d r (ports i clb) = (v, d', r') → v = Z.land (ps_clb (port_of d i)) 0xFFFFFFFF;
  read_clbu d r i v d' r' : hba_read d r (ports i clbu) = (v, d', r') → v = Z.shiftr (ps_clb (port_of d i)) 32;
  (** The bits [CR] and [FR] of a stopped port go away. *)
  read_cmd_stopped d r i v d' r' : quiet d → ps_phase (port_of d i) = Stopped → hba_read d r (ports i cmd) = (v, d', r') →
    Z.land v (Z.lor CR FR) ≠ 0 → (patience d' i < patience d i)%nat;
  (** Register writes. *)
  write_is d r i v d' r' : quiet d → hba_write d r (ports i is_) v = (d', r') → keeps d d' ∧ r' = r;
  write_clb d r i v d' r' : quiet d → ps_phase (port_of d i) = Stopped → 0 ≤ v < 2 ^ 32 → hba_write d r (ports i clb) v = (d', r') →
    r' = r ∧ becomes i (mkPort (ps_clb (port_of d i) / 2 ^ 32 * 2 ^ 32 + v) (ps_fb (port_of d i)) Stopped (ps_disk (port_of d i))) d d';
  write_clbu d r i v d' r' : quiet d → ps_phase (port_of d i) = Stopped → 0 ≤ v < 2 ^ 32 → hba_write d r (ports i clbu) v = (d', r') →
    r' = r ∧ becomes i (mkPort (v * 2 ^ 32 + ps_clb (port_of d i) mod 2 ^ 32) (ps_fb (port_of d i)) Stopped (ps_disk (port_of d i))) d d';
  write_fb d r i v d' r' : quiet d → ps_phase (port_of d i) = Stopped → 0 ≤ v < 2 ^ 32 → hba_write d r (ports i port_fb) v = (d', r') →
    r' = r ∧ becomes i (mkPort (ps_clb (port_of d i)) (ps_fb (port_of d i) / 2 ^ 32 * 2 ^ 32 + v) Stopped (ps_disk (port_of d i))) d d';
  write_fbu d r i v d' r' : quiet d → ps_phase (port_of d i) = Stopped → 0 ≤ v < 2 ^ 32 → hba_write d r (ports i port_fbu) v = (d', r') →
    r' = r ∧ becomes i (mkPort (ps_clb (port_of d i)) (v * 2 ^ 32 + ps_fb (port_of d i) mod 2 ^ 32) Stopped (ps_disk (port_of d i))) d d';
  (** Clearing the start bit stops the engine, setting it starts a stopped one. *)
  write_cmd_stop d r i v d' r' : quiet d → Z.testbit v 0 = false → hba_write d r (ports i cmd) v = (d', r') →
    r' = r ∧ becomes i (set_phase (port_of d i) Stopped) d d';
  write_cmd_start d r i v d' r' : quiet d → ps_phase (port_of d i) = Stopped → Z.testbit v 0 = true → Z.testbit v 4 = true →
    hba_write d r (ports i cmd) v = (d', r') → r' = r ∧ becomes i (set_phase (port_of d i) Idle) d d';
  (** A command is issued. *)
  write_ci d r i d' r' : quiet d → ps_phase (port_of d i) = Idle → hba_write d r (ports i ci) 1 = (d', r') →
    r' = r ∧ becomes i (set_phase (port_of d i) Issued) d d';
  (** While it runs, memory changes only where the command writes; when its bit is
      seen clear, it is done; when the error bit is seen, the engine has halted. *)
  poll_ci d r i c v d' r' : busy_port i d → decode_command r (ps_clb (port_of d i)) = Some c → hba_read d r (ports i ci) = (v, d', r') →
    changes (dma_areas (port_of d i) c) r r' ∧ (patience d' i ≤ patience d i)%nat
    ∧ (if Z.testbit v 0 then keeps d d' else ∃ p', becomes i p' d d' ∧ completed (port_of d i) c r p' r');
  poll_is d r i c v d' r' : busy_port i d → decode_command r (ps_clb (port_of d i)) = Some c → hba_read d r (ports i is_) = (v, d', r') →
    changes (dma_areas (port_of d i) c) r r'
    ∧ (if Z.testbit v 30 then ∃ p', becomes i p' d d' ∧ failed (port_of d i) c p' else keeps d d' ∧ (patience d' i < patience d i)%nat);
}.

(** ** Bytes of memory *)

Section Bytes.
Implicit Types r : ram.

Lemma inside_nil x : inside [] x ↔ False.
Proof. apply Exists_nil. Qed.

Lemma inside_cons a n l x : inside ((a, n) :: l) x ↔ a ≤ x < a + n ∨ inside l x.
Proof. apply Exists_cons. Qed.

Lemma changes_refl l r : changes l r r.
Proof. by split. Qed.

Lemma area_changes_trans l r1 r2 r3 : changes l r1 r2 → changes l r2 r3 → changes l r1 r3.
Proof. intros [a b] [c d]. split; [auto|]. intros x Hx. by rewrite d, b. Qed.

Lemma changes_mono l l' r r' : (∀ x, inside l x → inside l' x) → changes l r r' → changes l' r r'.
Proof. intros Hi [a b]. split; [done|]. intros x Hx. apply b. auto. Qed.

Lemma ram_byte_in r f b k : r !! f = Some b → f mod 4096 = 0 → 0 ≤ k < 4096 → ram_byte r (f + k) = b !! Z.to_nat k.
Proof. intros Hb Hf Hk. unfold ram_byte. destruct (page_in f k Hf Hk) as [-> ->]. by rewrite Hb. Qed.

Lemma page_split a : page_of a mod 4096 = 0 ∧ a = page_of a + a mod 4096 ∧ 0 ≤ a mod 4096 < 4096.
Proof. unfold page_of. zlia. Qed.

Lemma bytes_at_eq r a n b : r !! page_of a = Some b → a mod 4096 + n ≤ 4096 → bytes_at r a n = Some (sub (a mod 4096) n b).
Proof. intros Hb Hn. unfold bytes_at. rewrite Hb. cbn. by rewrite (proj2 (Z.leb_le _ _)). Qed.

Lemma bytes_at_inv r a n l : bytes_at r a n = Some l → ∃ b, r !! page_of a = Some b ∧ a mod 4096 + n ≤ 4096 ∧ l = sub (a mod 4096) n b.
Proof.
  unfold bytes_at. destruct (r !! page_of a) as [b|]; [|done]. cbn. destruct (Z.leb_spec (a mod 4096 + n) 4096); [|done].
  intros [= <-]. eauto.
Qed.

(** A range without changes. *)
Lemma bytes_at_changes l r r' a n : changes l r r' → frame_ok r (page_of a) → 0 ≤ n → (∀ x, a ≤ x < a + n → ¬ inside l x) →
  bytes_at r' a n = bytes_at r a n.
Proof.
  intros Hc Hf Hn Hx. pose proof (ch_ok _ _ _ Hc _ Hf) as (b' & Hb' & Hl' & _). destruct Hf as (b & Hb & Hl & _).
  destruct (page_split a) as (Hp & Ha & Hm). destruct (decide (a mod 4096 + n ≤ 4096)) as [Hle|Hgt].
  - rewrite (bytes_at_eq r a n b), (bytes_at_eq r' a n b') by done. f_equal.
    apply list_eq. intros k. destruct (decide (Z.of_nat k < n)) as [Hk|Hk].
    + rewrite <- (Nat2Z.id k), !lookup_sub by lia. rewrite <- (ram_byte_in r (page_of a) b), <- (ram_byte_in r' (page_of a) b') by (done || lia).
      apply Hc. apply Hx. lia.
    + rewrite !lookup_ge_None_2; [done|..]; rewrite length_sub; rewrite ?Hl, ?Hl'; lia.
  - unfold bytes_at. rewrite Hb, Hb'. cbn. by rewrite (proj2 (Z.leb_gt _ _)) by lia.
Qed.

Lemma frame_bytes r f b : r !! f = Some b → length b = 4096%nat → f mod 4096 = 0 → bytes_at r f 4096 = Some b.
Proof.
  intros Hb Hl Hf. assert (page_of f = f) as Hp by (unfold page_of; lia). rewrite (bytes_at_eq r f 4096 b) by (rewrite ?Hp, ?Hf; done || lia).
  rewrite Hf. f_equal. apply sub_all. by rewrite Hl.
Qed.

Lemma frame_changes l r r' f : changes l r r' → frame_ok r f → f mod 4096 = 0 → (∀ x, f ≤ x < f + 4096 → ¬ inside l x) → r' !! f = r !! f.
Proof.
  intros Hc Hf Hm Hx. assert (page_of f = f) as Hp by (unfold page_of; lia). pose proof (bytes_at_changes l r r' f 4096 Hc) as Hb.
  rewrite Hp in Hb. specialize (Hb Hf ltac:(lia) Hx). pose proof (ch_ok _ _ _ Hc _ Hf) as (b' & Hb' & Hl' & _). destruct Hf as (b & Hbb & Hl & _).
  rewrite (frame_bytes r f b), (frame_bytes r' f b') in Hb by done. congruence.
Qed.

Lemma read_phys_bytes r a n l : frame_ok r (page_of a) → bytes_at r a n = Some l → 0 ≤ n → read_phys r a (Z.to_nat n) = Ret l.
Proof.
  intros (b & Hb & Hl & _) (b2 & Hb2 & Hle & ->)%bytes_at_inv Hn. rewrite Hb in Hb2. injection Hb2 as <-. destruct (page_split a) as (Hp & Ha & Hm).
  rewrite Ha at 1. rewrite <- (Z2Nat.id (a mod 4096)) at 1 by lia. by rewrite (read_phys_in r (page_of a) b) by (done || lia).
Qed.

(** A piece of a range. *)
Lemma bytes_at_sub r a n l k m : bytes_at r a n = Some l → 0 ≤ k → 0 < m → k + m ≤ n → bytes_at r (a + k) m = Some (sub k m l).
Proof.
  intros (b & Hb & Hle & ->)%bytes_at_inv Hk Hm Hkm. destruct (page_split a) as (Hp & Ha & Hm0).
  destruct (page_in (page_of a) (a mod 4096 + k) Hp) as [Hq Hr]; [lia|]. rewrite Z.add_assoc, <- Ha in Hq, Hr.
  rewrite (bytes_at_eq _ _ _ b) by (rewrite ?Hq, ?Hr; done || lia). by rewrite Hr, sub_sub by lia.
Qed.

Lemma splice_mid (A c B new : list Z) o : 0 ≤ o → o + Z.of_nat (length new) ≤ Z.of_nat (length c) →
  splice (Z.of_nat (length A) + o) new (A ++ c ++ B) = A ++ splice o new c ++ B.
Proof.
  intros Ho Hl. unfold splice. rewrite Z2Nat.inj_add, Nat2Z.id by lia.
  rewrite take_app_add', take_app_le by lia. rewrite <- !app_assoc. do 3 f_equal.
  rewrite <- Nat.add_assoc, drop_app_add', drop_app_le by lia. done.
Qed.

Lemma lookup_mid (A c c' B : list Z) k : length c' = length c → (k < length A ∨ length A + length c ≤ k)%nat →
  (A ++ c' ++ B) !! k = (A ++ c ++ B) !! k.
Proof.
  intros Hl [Hk|Hk]; [by rewrite !lookup_app_l by lia|]. rewrite !(lookup_app_r A), !lookup_app_r by lia. by rewrite Hl.
Qed.

(** A store into a structure of [n] bytes. *)
Lemma store_struct `{Hba D} (w : world D) base n c o bytes : frame_ok (mem_ram (wmem w)) (page_of base) →
  bytes_at (mem_ram (wmem w)) base n = Some c → 0 ≤ o → (0 < length bytes)%nat → o + Z.of_nat (length bytes) ≤ n → Forall (λ x, is_byte x) bytes →
  ∃ r', store w (base + o) bytes = Ret (with_ram w r') ∧ changes [(base, n)] (mem_ram (wmem w)) r' ∧ bytes_at r' base n = Some (splice o bytes c).
Proof.
  intros (b & Hb & Hl & Hby) (b2 & Hb2 & Hle & Hc)%bytes_at_inv Ho Hpos Hn Hbytes. rewrite Hb in Hb2. injection Hb2 as <-.
  destruct (page_split base) as (Hp & Ha & Hm0). destruct (page_in (page_of base) (base mod 4096 + o) Hp) as [Hq Hr]; [lia|].
  rewrite Z.add_assoc, <- Ha in Hq, Hr. unfold store. rewrite Hq, Hr, Hb, (proj2 (Z.leb_le _ _)) by lia.
  set (A := take (Z.to_nat (base mod 4096)) b). set (B := drop (Z.to_nat (base mod 4096 + n)) b).
  assert (length c = Z.to_nat n) as Hlc by (rewrite Hc, length_sub; rewrite ?Hl; lia).
  assert (length A = Z.to_nat (base mod 4096)) as HlA by (unfold A; rewrite length_take, Hl; lia).
  assert (b = A ++ c ++ B) as Hsplit.
  { rewrite Hc. unfold sub, B. rewrite Z2Nat.inj_add, <- drop_drop, take_drop by lia. unfold A. by rewrite take_drop. }
  assert (splice (base mod 4096 + o) bytes b = A ++ splice o bytes c ++ B) as Hspl.
  { rewrite Hsplit at 1. replace (base mod 4096) with (Z.of_nat (length A)) at 1 by lia. apply splice_mid; lia. }
  assert (length (splice o bytes c) = length c) as Hls by (apply length_splice; lia).
  eexists. split; [done|]. rewrite Hspl. split.
  - split.
    + intros f Hf. destruct (decide (f = page_of base)) as [->|Hne]; [|destruct Hf as (x & Hx & Hxx); exists x; by rewrite lookup_insert_ne].
      exists (A ++ splice o bytes c ++ B). rewrite lookup_insert_eq. split; [done|]. rewrite <- Hspl. split; [rewrite length_splice; rewrite ?Hl; lia|].
      unfold splice. rewrite !Forall_app. split_and!; [by apply Forall_take|done|by apply Forall_drop].
    + intros x Hx. unfold ram_byte. destruct (decide (page_of x = page_of base)) as [He|Hne]; [|by rewrite lookup_insert_ne].
      rewrite He, lookup_insert_eq, Hb. cbn. rewrite Hsplit. apply lookup_mid; [done|]. rewrite inside_cons in Hx. destruct (page_split x) as (_ & Hxs & Hxm).
      destruct (decide (x < base)); [left|right]; rewrite HlA, ?Hlc; [lia|]. destruct (decide (x < base + n)); [exfalso; apply Hx; lia|lia].
  - unfold bytes_at. rewrite lookup_insert_eq. cbn. rewrite (proj2 (Z.leb_le _ _)) by lia. f_equal.
    replace (base mod 4096) with (Z.of_nat (length A)) by lia. rewrite sub_app_r, Z.sub_diag by lia. apply sub_app_l. lia.
Qed.

Lemma stores_struct `{Hba D} base n l : ∀ (w : world D) c, frame_ok (mem_ram (wmem w)) (page_of base) →
  bytes_at (mem_ram (wmem w)) base n = Some c → Forall (λ x, 0 ≤ x.1 ∧ (0 < length x.2)%nat ∧ x.1 + Z.of_nat (length x.2) ≤ n ∧ Forall (λ x, is_byte x) x.2) l →
  ∃ r', stores w base l = Ret (with_ram w r') ∧ changes [(base, n)] (mem_ram (wmem w)) r'
    ∧ bytes_at r' base n = Some (fold_left (λ c x, splice x.1 x.2 c) l c).
Proof.
  induction l as [|[o bytes] l IH]; intros w c Hf Hc Hl.
  - exists (mem_ram (wmem w)). by destruct w as [d []].
  - apply Forall_cons in Hl as [(H1 & H2 & H3 & H4) Hl]. cbn [fst snd] in *.
    destruct (store_struct w base n c o bytes) as (r1 & Hs & Hch & Hb1); [done..|].
    destruct (IH (with_ram w r1) (splice o bytes c)) as (r2 & Hs2 & Hch2 & Hb2); [apply Hch, Hf|done|done|].
    exists r2. unfold stores. cbn [mfold fst snd]. rewrite Hs. cbn [obind]. split; [exact Hs2|]. split; [by eapply area_changes_trans|done].
Qed.
End Bytes.

(** ** The command in memory *)

Section Command.
Context `{HP : Profile}.

(** The bytes of the command table. *)
Lemma table_bytes op lba a c : length c = 144%nat →
  fold_left (λ c x, splice x.1 x.2 c) (table_writes op lba a) c
  = [0x27; 0x80; op; 0; Z.land lba 0xFF; Z.land (Z.shiftr lba 8) 0xFF; Z.land (Z.shiftr lba 16) 0xFF; 0x40;
     Z.land (Z.shiftr lba 24) 0xFF; Z.land (Z.shiftr lba 32) 0xFF; Z.land (Z.shiftr lba 40) 0xFF; 0; 1; 0] ++ replicate 114 0
    ++ le_bytes 4 (Z.land a 0xFFFFFFFF) ++ le_bytes 4 (Z.shiftr a 32) ++ [0; 0; 0; 0] ++ le_bytes 4 511.
Proof.
  intros Hc. cbn [table_writes fold_left fst snd]. rewrite (splice_full _ c) by (by rewrite length_replicate).
  generalize (Z.land lba 0xFF), (Z.land (Z.shiftr lba 8) 0xFF), (Z.land (Z.shiftr lba 16) 0xFF), (Z.land (Z.shiftr lba 24) 0xFF),
    (Z.land (Z.shiftr lba 32) 0xFF), (Z.land (Z.shiftr lba 40) 0xFF). intros l0 l1 l2 l3 l4 l5.
  generalize (Z.land a 0xFFFFFFFF), (Z.shiftr a 32). intros p q. reflexivity.
Qed.

Lemma low_byte x k : 0 ≤ k → Z.land (Z.shiftr x k) 0xFF = x / 2 ^ k mod 256.
Proof. intros Hk. change 0xFF with (Z.ones 8). by rewrite Z.land_ones, Z.shiftr_div_pow2 by lia. Qed.

Lemma lba_bytes lba : 0 ≤ lba < 2 ^ 48 →
  le [Z.land lba 0xFF; Z.land (Z.shiftr lba 8) 0xFF; Z.land (Z.shiftr lba 16) 0xFF]
  + 2 ^ 24 * le [Z.land (Z.shiftr lba 24) 0xFF; Z.land (Z.shiftr lba 32) 0xFF; Z.land (Z.shiftr lba 40) 0xFF] = lba.
Proof.
  intros Hl. rewrite !low_byte by lia. change 0xFF with (Z.ones 8). rewrite Z.land_ones by lia. cbn [le].
  change (2 ^ 8) with 256. change (2 ^ 16) with 65536. change (2 ^ 24) with 16777216. change (2 ^ 32) with 4294967296.
  change (2 ^ 40) with 1099511627776. change (2 ^ 48) with 281474976710656 in Hl. zlia.
Qed.

(** A 64-bit address in two words. *)
Lemma halves a : 0 ≤ a < 2 ^ 64 → Z.land a 0xFFFFFFFF = a mod 2 ^ 32 ∧ Z.shiftr a 32 = a / 2 ^ 32 ∧ 0 ≤ a mod 2 ^ 32 < 2 ^ 32 ∧ 0 ≤ a / 2 ^ 32 < 2 ^ 32.
Proof.
  intros Ha. change 0xFFFFFFFF with (Z.ones 32). rewrite Z.land_ones, Z.shiftr_div_pow2 by lia.
  change (2 ^ 64) with 18446744073709551616 in Ha. change (2 ^ 32) with 4294967296. zlia.
Qed.

Lemma halves_join a : 0 ≤ a < 2 ^ 64 → Z.lor (Z.shiftl (Z.shiftr a 32) 32) (Z.land a 0xFFFFFFFF) = a.
Proof.
  intros Ha. change 0xFFFFFFFF with (Z.ones 32). rewrite Z.lor_comm. apply Z.bits_inj'. intros k Hk.
  rewrite Z.lor_spec, Z.land_spec. destruct (decide (k < 32)).
  - by rewrite Z.shiftl_spec_low, Z.ones_spec_low, andb_true_r, orb_false_r by lia.
  - rewrite Z.shiftl_spec, Z.shiftr_spec, Z.ones_spec_high, andb_false_r by lia. cbn. f_equal. lia.
Qed.

Lemma halves_le a : 0 ≤ a < 2 ^ 64 → le (le_bytes 4 (Z.land a 0xFFFFFFFF) ++ le_bytes 4 (Z.shiftr a 32)) = a.
Proof.
  intros Ha. destruct (halves a Ha) as (-> & -> & Hl & Hh). rewrite le_app, length_le_bytes, !le_le_bytes by (change (256 ^ Z.of_nat 4) with (2 ^ 32); lia).
  change (256 ^ Z.of_nat 4) with (2 ^ 32). rewrite Z.add_comm, <- Z.div_mod; lia.
Qed.

Lemma header_bytes flags (h : list Z) : length h = 8%nat →
  fold_left (λ c x, splice x.1 x.2 c) (header_writes flags) h = (le_bytes 2 flags ++ le_bytes 2 1) ++ le_bytes 4 0.
Proof. intros Hh. do 8 (destruct h as [|? h]; [done|]). destruct h; [reflexivity|done]. Qed.

(** The controller reads the command that the driver wrote. *)
Lemma driver_command flags op lba a c : length c = 144%nat → 0 ≤ lba < 2 ^ 48 → 0 ≤ a < 2 ^ 64 →
  (flags = 5 ∧ op = 0x25) ∨ (flags = 0x45 ∧ op = 0x35) →
  fis_command (le_bytes 2 flags ++ le_bytes 2 1) (fold_left (λ c x, splice x.1 x.2 c) (table_writes op lba a) c)
  = Some (if op =? 0x25 then AtaRead lba a else AtaWrite lba a).
Proof.
  intros Hc Hl Ha Hop. rewrite table_bytes by done. set (t := [_; _; _; _; _; _; _; _; _; _; _; _; _; _] ++ _).
  assert (field 4 3 t + 2 ^ 24 * field 8 3 t = lba) as Hlba by (rewrite <- (lba_bytes lba Hl) at 1; reflexivity).
  assert (field 128 8 t = a) as Hbuf by (rewrite <- (halves_le a Ha) at 1; reflexivity).
  unfold fis_command. rewrite Hlba, Hbuf. destruct Hop as [[-> ->]|[-> ->]]; reflexivity.
Qed.
End Command.

(** ** Polling *)

Section Polls.
Context `{HP : Profile} `{HH : Hba D} `{HV : HbaView D} `{HS : !HbaSpec D}.
Implicit Types w : world D.

Abbreviation ram_of w := (mem_ram (wmem w)).

Lemma ports_keep_refl (d : D) : keeps d d.
Proof. done. Qed.
Lemma ports_keep_trans (d1 d2 d3 : D) : keeps d1 d2 → keeps d2 d3 → keeps d1 d3.
Proof. intros H12 H23 j. by rewrite H23, H12. Qed.
Lemma keeps_quiet (d d' : D) : keeps d d' → quiet d → quiet d'.
Proof. intros Hk Hq j. by rewrite Hk. Qed.
Lemma keeps_busy (d d' : D) i : keeps d d' → busy_port i d → busy_port i d'.
Proof. intros Hk Hq j. by rewrite Hk. Qed.
Lemma becomes_keeps i p (d d1 d2 : D) : keeps d d1 → becomes i p d1 d2 → becomes i p d d2.
Proof. intros Hk Hb j. rewrite Hb. case_match; [done|apply Hk]. Qed.
Lemma becomes_twice i p q (d d1 d2 : D) : becomes i p d d1 → becomes i q d1 d2 → becomes i q d d2.
Proof. intros H1 H2 j. rewrite H2. destruct (j =? i) eqn:E; [done|]. by rewrite H1, E. Qed.
Lemma becomes_same i p (d d' : D) : becomes i p d d' → port_of d' i = p.
Proof. intros Hb. by rewrite Hb, Z.eqb_refl. Qed.

Lemma becomes_quiet i p (d d' : D) : quiet d → ps_phase p ≠ Issued → becomes i p d d' → quiet d'.
Proof. intros Hq Hp Hb j. rewrite Hb. by case_match. Qed.

Lemma same_mem (m : mem) r : mem_ram m = r → set_ram m r = m.
Proof. intros <-. by destruct m. Qed.

(** A register read without a running command. *)
Lemma read_reg_quiet w reg v w' : quiet (dev w) → read_reg w reg = (v, w') → keeps (dev w) (dev w') ∧ wmem w' = wmem w.
Proof.
  unfold read_reg. intros Hq. destruct (hba_read _ _ _) as [[v1 d1] r1] eqn:E. intros [= <- <-]. cbn.
  destruct (read_quiet _ _ _ _ _ _ Hq E) as [Hk ->]. split; [done|by apply same_mem].
Qed.

Lemma wait_ready_ok w i : quiet (dev w) → wp (wait_ready w i) (λ '(_, w'), keeps (dev w) (dev w') ∧ wmem w' = wmem w).
Proof.
  intros Hq. apply (wp_loop (λ '(spin, w'), 0 ≤ spin ≤ 1000000 ∧ keeps (dev w) (dev w') ∧ wmem w' = wmem w) (λ '(spin, _), Z.to_nat (1000001 - spin)));
    [|by repeat split; cbn|lia].
  intros [spin w1] (Hs & Hk & Hm). cbv beta iota. destruct (read_reg w1 (ports i tfd)) as [v w2] eqn:E.
  destruct (read_reg_quiet _ _ _ _ (keeps_quiet _ _ Hk Hq) E) as [Hk2 Hm2].
  assert (keeps (dev w) (dev w2) ∧ wmem w2 = wmem w) as H2 by (split; [by eapply ports_keep_trans|congruence]).
  destruct (_ =? 0); [by wp_step|]. cbv zeta. destruct (Z.ltb_spec 1000000 (spin + 1)); wp_step; [done|]. split; [split; [lia|done]|lia].
Qed.

(** The wait for a command whose description stays readable while it runs. *)
Lemma wait_done_ok w i c : busy_port i (dev w) →
  (∀ r', changes (dma_areas (port_of (dev w) i) c) (ram_of w) r' → decode_command r' (ps_clb (port_of (dev w) i)) = Some c) →
  wp (wait_done max_polls w i) (λ '(ok, w'), mem_alloc (wmem w') = mem_alloc (wmem w)
    ∧ changes (dma_areas (port_of (dev w) i) c) (ram_of w) (ram_of w')
    ∧ ∃ p', becomes i p' (dev w) (dev w')
      ∧ if ok : bool then ∃ r1, changes (dma_areas (port_of (dev w) i) c) (ram_of w) r1 ∧ completed (port_of (dev w) i) c r1 p' (ram_of w')
        else failed (port_of (dev w) i) c p').
Proof.
  intros Hbusy Hdec. set (p := port_of (dev w) i) in *.
  apply (wp_loop (λ w', keeps (dev w) (dev w') ∧ mem_alloc (wmem w') = mem_alloc (wmem w) ∧ changes (dma_areas p c) (ram_of w) (ram_of w'))
    (λ w', patience (dev w') i)); [|by repeat split|apply patience_bound].
  intros w1 (Hk & Ha & Hc). assert (port_of (dev w1) i = p) as Hp by apply Hk. unfold read_reg.
  destruct (hba_read _ _ (ports i ci)) as [[v d2] r2] eqn:E2.
  pose proof (keeps_busy _ _ _ Hk Hbusy) as Hb1. apply poll_ci with (c := c) in E2 as (Hc2 & Hpat & E2); [|done|rewrite Hp; by apply Hdec]. rewrite Hp in *.
  pose proof (area_changes_trans _ _ _ _ Hc Hc2) as Hc02. rewrite mask_test by lia. destruct (Z.testbit v 0); cbn [negb].
  - cbn [dev wmem set_ram mem_ram]. destruct (hba_read d2 r2 (ports i is_)) as [[v3 d3] r3] eqn:E3.
    assert (keeps (dev w) d2) as Hk2 by (by eapply ports_keep_trans). assert (port_of d2 i = p) as Hp2 by apply Hk2.
    apply poll_is with (c := c) in E3 as (Hc3 & E3); [|by eapply keeps_busy|rewrite Hp2; by apply Hdec]. rewrite Hp2 in *.
    pose proof (area_changes_trans _ _ _ _ Hc02 Hc3) as Hc03. rewrite mask_test by lia. destruct (Z.testbit v3 30); cbn [negb]; wp_step.
    + destruct E3 as (p' & Hbe & Hf). split; [done|]. split; [done|]. exists p'. split; [by eapply becomes_keeps|done].
    + destruct E3 as [Hk3 Hpat3]. cbn [dev wmem set_ram mem_ram mem_alloc]. split; [|lia]. split; [by eapply ports_keep_trans|done].
  - destruct E2 as (p' & Hbe & Hco). wp_step. split; [done|]. split; [done|]. exists p'. split; [by eapply becomes_keeps|]. by exists (ram_of w1).
Qed.
End Polls.

(** Membership in areas given as lists. *)
Ltac areas := intros; cbn [app] in *; rewrite ?inside_cons, ?inside_nil in *; unfold FRAME_SIZE in *; lia.

(** ** A sector command *)

Section Sector.
Context `{HP : Profile} `{HH : Hba D} `{HV : HbaView D} `{HS : !HbaSpec D} (off : Z).
Implicit Types w : world D.

Abbreviation ram_of w := (mem_ram (wmem w)).
Abbreviation alloc_of w := (mem_alloc (wmem w)).

Record world_ok w : Prop := {
  wo_mem : mem_ok off (wmem w);
  wo_quiet : quiet (dev w);
}.

(** Port [i] uses the three frames from number [F] on: the command list and the
    FIS area in the first, the command tables in the others. *)
Record port_ready w (i F : Z) : Prop := {
  pr_lo : 0 ≤ F;
  pr_hi : F + 3 ≤ total_frames (alloc_of w);
  pr_owned k : 0 ≤ k < 3 → 0 < refs (alloc_of w) (F + k);
  pr_clb : ps_clb (port_of (dev w) i) = F * FRAME_SIZE;
  pr_fb : ps_fb (port_of (dev w) i) = F * FRAME_SIZE + 1024;
  pr_phase : ps_phase (port_of (dev w) i) = Idle;
  pr_table : ∃ l, bytes_at (ram_of w) (F * FRAME_SIZE + 8) 8 = Some l ∧ le l = F * FRAME_SIZE + 4096;
}.

Lemma frame_page f k : 0 ≤ k < 4096 → page_of (f * FRAME_SIZE + k) = f * FRAME_SIZE ∧ (f * FRAME_SIZE + k) mod 4096 = k.
Proof. intros Hk. apply page_in; [|done]. unfold FRAME_SIZE. apply Z.mod_mul. lia. Qed.

Lemma page_frame w f k : world_ok w → 0 ≤ f < total_frames (alloc_of w) → 0 ≤ k < 4096 → frame_ok (ram_of w) (page_of (f * FRAME_SIZE + k)).
Proof. intros [Hm _] Hf Hk. destruct (frame_page f k Hk) as [-> _]. by apply (mo_ram off). Qed.

Lemma frame_range w f k n : world_ok w → 0 ≤ f < total_frames (alloc_of w) → 0 ≤ k → 0 < n → k + n ≤ 4096 →
  ∃ l, bytes_at (ram_of w) (f * FRAME_SIZE + k) n = Some l ∧ length l = Z.to_nat n.
Proof.
  intros [Hm _] Hf Hk Hn Hkn. destruct (frame_page f k) as [Hp Hr]; [lia|]. destruct (mo_ram off _ Hm f Hf) as (b & Hb & Hl & _).
  eexists. split; [apply (bytes_at_eq _ _ _ b); rewrite ?Hp, ?Hr; done|]. rewrite Hr. rewrite length_sub; rewrite ?Hl; lia.
Qed.

(** Memory with changed bytes is still well formed. *)
Lemma world_ok_changes w d l r : world_ok w → quiet d → changes l (ram_of w) r → world_ok (mkWorld d (set_ram (wmem w) r)).
Proof.
  intros [Hm Hq] Hd Hc. split; [|done]. cbn. apply (mem_ok_frames off (wmem w)); [done|apply Hm|done|]. apply Hc.
Qed.

Lemma mem_ok_like (m m' : mem) : mem_ok off m → WF (mem_alloc m') → total_frames (mem_alloc m') = total_frames (mem_alloc m) →
  (∀ x, frame_ok (mem_ram m) x → frame_ok (mem_ram m') x) → mem_ok off m'.
Proof. destruct m' as [a r]. apply mem_ok_frames. Qed.

(** Where a command of port [i] writes. *)
Definition command_areas (F : Z) (c : ata) : list (Z * Z) :=
  [(F * FRAME_SIZE, 8); (F * FRAME_SIZE + 1024, 256); (F * FRAME_SIZE + 4096, 144)]
  ++ match c with AtaRead _ a => [(a, 512)] | AtaWrite _ _ => [] end.

Definition ata_buffer (c : ata) : Z := match c with AtaRead _ a | AtaWrite _ a => a end.

(** The bounce frame [G] is none of the three. *)
Definition apart (F G : Z) : Prop := G ≠ F ∧ G ≠ F + 1 ∧ G ≠ F + 2.

Lemma dma_in_command p F c : ps_clb p = F * FRAME_SIZE → ps_fb p = F * FRAME_SIZE + 1024 →
  ∀ x, inside (dma_areas p c) x → inside (command_areas F c) x.
Proof.
  intros Hc Hf x. unfold dma_areas, command_areas. rewrite Hc, Hf. destruct c; areas.
Qed.

(** The description of the command is outside of what it writes. *)
Lemma decode_stable p F G c r r' : ps_clb p = F * FRAME_SIZE → ps_fb p = F * FRAME_SIZE + 1024 → apart F G → ata_buffer c = G * FRAME_SIZE →
  frame_ok r (F * FRAME_SIZE) → frame_ok r ((F + 1) * FRAME_SIZE) →
  (∃ l, bytes_at r (F * FRAME_SIZE + 8) 8 = Some l ∧ le l = F * FRAME_SIZE + 4096) →
  changes (dma_areas p c) r r' → decode_command r' (F * FRAME_SIZE) = decode_command r (F * FRAME_SIZE).
Proof.
  intros Hclb Hfb (HG0 & HG1 & HG2) Hbuf Hf0 Hf1 (l & Hl & Hle) Hc.
  assert (∀ x, inside (dma_areas p c) x → inside [(F * FRAME_SIZE + 1024, 256); (F * FRAME_SIZE + 4, 4); (G * FRAME_SIZE, 512)] x) as Hin.
  { intros x. unfold dma_areas. rewrite Hclb, Hfb. destruct c; cbn [ata_buffer] in Hbuf; subst; areas. }
  apply (changes_mono _ _ _ _ Hin) in Hc. unfold decode_command.
  destruct (frame_page F 0) as [P0 _]; [lia|]. destruct (frame_page F 8) as [P8 _]; [lia|]. destruct (frame_page (F + 1) 0) as [P1 _]; [lia|].
  rewrite Z.add_0_r in P0, P1.
  rewrite (bytes_at_changes _ r r' (F * FRAME_SIZE) 4 Hc) by (rewrite ?P0; done || areas).
  rewrite (bytes_at_changes _ r r' (F * FRAME_SIZE + 8) 8 Hc) by (rewrite ?P8; done || areas). rewrite Hl. cbn [option_bind mbind]. rewrite Hle.
  replace (F * FRAME_SIZE + 4096) with ((F + 1) * FRAME_SIZE) by (unfold FRAME_SIZE; lia).
  rewrite (bytes_at_changes _ r r' ((F + 1) * FRAME_SIZE) 144 Hc) by (rewrite ?P1; done || areas). done.
Qed.

Lemma bytes_at_bytes r a n l : frame_ok r (page_of a) → bytes_at r a n = Some l → 0 ≤ n → length l = Z.to_nat n ∧ Forall (λ x, is_byte x) l.
Proof.
  intros (b & Hb & Hl & Hby) (b2 & Hb2 & Hle & ->)%bytes_at_inv Hn. rewrite Hb in Hb2. injection Hb2 as <-.
  destruct (page_split a) as (_ & _ & Hm). split; [rewrite length_sub; rewrite ?Hl; lia|]. apply Forall_take, Forall_drop, Hby.
Qed.

(** The address of the command table, read in two halves. *)
Lemma load_pointer w a l : frame_ok (ram_of w) (page_of a) → bytes_at (ram_of w) a 8 = Some l →
  ∃ hi lo, load32 w (a + 4) = Ret hi ∧ load32 w a = Ret lo ∧ Z.lor (Z.shiftl hi 32) lo = le l.
Proof.
  intros Hf Hl. destruct (bytes_at_bytes _ _ _ _ Hf Hl) as [Hlen Hby]; [lia|].
  pose proof (bytes_at_sub _ _ _ _ 4 4 Hl ltac:(lia) ltac:(lia) ltac:(lia)) as Hhi.
  pose proof (bytes_at_sub _ _ _ _ 0 4 Hl ltac:(lia) ltac:(lia) ltac:(lia)) as Hlo. rewrite Z.add_0_r in Hlo.
  assert (page_of (a + 4) = page_of a) as Hp.
  { apply bytes_at_inv in Hl as (b & _ & Hle & _). destruct (page_split a) as (Hp & Ha & Hm). destruct (page_in (page_of a) (a mod 4096 + 4) Hp) as [Hq _]; [lia|].
    by rewrite Z.add_assoc, <- Ha in Hq. }
  exists (le (sub 4 4 l)), (le (sub 0 4 l)). unfold load32. change 4%nat with (Z.to_nat 4).
  rewrite (read_phys_bytes _ _ 4 _ ltac:(by rewrite Hp) Hhi), (read_phys_bytes _ _ 4 _ Hf Hlo) by lia. cbn [obind]. unfold field.
  do 8 (destruct l as [|? l]; [done|]). destruct l; [|done]. split; [done|]. split; [done|].
  rewrite !Forall_cons in Hby. cbv beta in Hby. rewrite <- (halves_join (le [z; z0; z1; z2; z3; z4; z5; z6])) by (cbn [le]; lia).
  assert (∀ x y, 0 ≤ y < 2 ^ 32 → Z.shiftr (y + 2 ^ 32 * x) 32 = x ∧ Z.land (y + 2 ^ 32 * x) 0xFFFFFFFF = y) as Hxy.
  { intros x y Hy. change 0xFFFFFFFF with (Z.ones 32). rewrite Z.land_ones, Z.shiftr_div_pow2 by lia. clear -Hy. change (2 ^ 32) with 4294967296 in *. zlia. }
  replace (le [z; z0; z1; z2; z3; z4; z5; z6]) with (le [z; z0; z1; z2] + 2 ^ 32 * le [z3; z4; z5; z6]) by (cbn [le]; lia).
  destruct (Hxy (le [z3; z4; z5; z6]) (le [z; z0; z1; z2])) as [-> ->]; [cbn [le]; lia|]. done.
Qed.

(** The writes stay in a structure of [n] bytes. *)
Definition writes_in (n : Z) (l : list (Z * list Z)) : Prop :=
  Forall (λ x, 0 ≤ x.1 ∧ (0 < length x.2)%nat ∧ x.1 + Z.of_nat (length x.2) ≤ n ∧ Forall (λ x, is_byte x) x.2) l.

Lemma land_byte x : is_byte (Z.land x 0xFF).
Proof. change 0xFF with (Z.ones 8). rewrite Z.land_ones by lia. apply Z.mod_pos_bound. lia. Qed.

Lemma writes_in_cons n o bytes l : 0 ≤ o → (0 < length bytes)%nat → o + Z.of_nat (length bytes) ≤ n → Forall (λ x, is_byte x) bytes →
  writes_in n l → writes_in n ((o, bytes) :: l).
Proof. intros. by apply Forall_cons. Qed.

Lemma header_writes_in flags : writes_in 8 (header_writes flags).
Proof. unfold header_writes. repeat (apply writes_in_cons; [lia|rewrite length_le_bytes; lia..|apply le_bytes_range|]). apply Forall_nil_2. Qed.

Lemma table_writes_in op lba a : is_byte op → writes_in 144 (table_writes op lba a).
Proof.
  intros Hop. unfold table_writes. apply writes_in_cons; [lia|rewrite length_replicate; lia..|apply Forall_replicate; lia|].
  do 3 (apply writes_in_cons; [lia|rewrite length_le_bytes; lia..|apply le_bytes_range|]).
  repeat (apply writes_in_cons; [lia|cbn; lia..|apply Forall_singleton; first [apply land_byte|lia]|]). apply Forall_nil_2.
Qed.

(** The driver writes the description of its command. *)
Lemma describe_command w i F G flags op lba : world_ok w → port_ready w i F → 0 ≤ G < total_frames (alloc_of w) → 0 ≤ lba < 2 ^ 48 →
  (flags = 5 ∧ op = 0x25) ∨ (flags = 0x45 ∧ op = 0x35) →
  ∃ r1 r2 hi lo, stores w (F * FRAME_SIZE) (header_writes flags) = Ret (with_ram w r1)
    ∧ load32 (with_ram w r1) (F * FRAME_SIZE + 12) = Ret hi ∧ load32 (with_ram w r1) (F * FRAME_SIZE + 8) = Ret lo
    ∧ Z.lor (Z.shiftl hi 32) lo = F * FRAME_SIZE + 4096
    ∧ stores (with_ram w r1) (F * FRAME_SIZE + 4096) (table_writes op lba (G * FRAME_SIZE)) = Ret (with_ram w r2)
    ∧ changes [(F * FRAME_SIZE, 8); (F * FRAME_SIZE + 4096, 144)] (ram_of w) r2
    ∧ decode_command r2 (F * FRAME_SIZE) = Some (if op =? 0x25 then AtaRead lba (G * FRAME_SIZE) else AtaWrite lba (G * FRAME_SIZE)).
Proof.
  intros Hok [] HG Hlba Hop. destruct pr_table0 as (l & Hl & Hle). pose proof (mo_phys off _ (wo_mem _ Hok)) as Hphys.
  destruct (frame_range w F 0 8 Hok) as (h & Hh & Hlh); [lia..|]. rewrite Z.add_0_r in Hh.
  pose proof (page_frame w F 0 Hok ltac:(lia) ltac:(lia)) as Hf0. rewrite Z.add_0_r in Hf0. pose proof (page_frame w F 8 Hok ltac:(lia) ltac:(lia)) as Hf8.
  destruct (stores_struct (F * FRAME_SIZE) 8 (header_writes flags) w h Hf0 Hh (header_writes_in flags)) as (r1 & Hs1 & Hc1 & Hb1).
  rewrite header_bytes in Hb1 by done.
  assert (bytes_at r1 (F * FRAME_SIZE + 8) 8 = Some l) as Hl1 by (rewrite (bytes_at_changes _ _ _ _ _ Hc1 Hf8); [done|lia|areas]).
  destruct (load_pointer (with_ram w r1) (F * FRAME_SIZE + 8) l) as (hi & lo & Hhi & Hlo & Hlor); [apply Hc1, Hf8|done|]. rewrite <- Z.add_assoc in Hhi.
  replace (F * FRAME_SIZE + 4096) with ((F + 1) * FRAME_SIZE) in * by (unfold FRAME_SIZE; lia).
  destruct (frame_range w (F + 1) 0 144 Hok) as (t & Ht & Hlt); [lia..|]. rewrite Z.add_0_r in Ht.
  pose proof (page_frame w (F + 1) 0 Hok ltac:(lia) ltac:(lia)) as Hf1. rewrite Z.add_0_r in Hf1.
  assert (bytes_at r1 ((F + 1) * FRAME_SIZE) 144 = Some t) as Ht1 by (rewrite (bytes_at_changes _ _ _ _ _ Hc1 Hf1); [done|lia|areas]).
  destruct (stores_struct ((F + 1) * FRAME_SIZE) 144 (table_writes op lba (G * FRAME_SIZE)) (with_ram w r1) t) as (r2 & Hs2 & Hc2 & Hb2);
    [apply Hc1, Hf1|done|apply table_writes_in; lia|]. cbn [with_ram wmem set_ram mem_ram] in Hc2.
  exists r1, r2, hi, lo. split; [done|]. split; [done|]. split; [done|]. split; [by rewrite Hlor|]. split; [done|]. split.
  - eapply area_changes_trans; (eapply changes_mono; [|eassumption]); areas.
  - unfold decode_command. rewrite (bytes_at_changes _ _ _ (F * FRAME_SIZE) 4 Hc2) by (apply Hc1, Hf0 || areas).
    pose proof (bytes_at_sub _ _ _ _ 0 4 Hb1 ltac:(lia) ltac:(lia) ltac:(lia)) as Hb1'. rewrite Z.add_0_r, (sub_app_l _ _ 4) in Hb1' by done.
    rewrite Hb1', (bytes_at_changes _ _ _ (F * FRAME_SIZE + 8) 8 Hc2) by (apply Hc1, Hf8 || areas). rewrite Hl1. cbn [option_bind mbind].
    rewrite Hle, Hb2. cbn [option_bind mbind]. apply driver_command; [by rewrite Hlt|done|unfold FRAME_SIZE in *; lia|done].
Qed.

Definition driver_ata (op lba G : Z) : ata := if op =? 0x25 then AtaRead lba (G * FRAME_SIZE) else AtaWrite lba (G * FRAME_SIZE).

(** A successful command, from the idle state [p] to the idle state [p']. *)
Definition done_with (p : port_state) (c : ata) (r : ram) (p' : port_state) (r' : ram) : Prop :=
  match c with
  | AtaRead lba a => ∃ s, ps_disk p !! lba = Some s ∧ bytes_at r' a 512 = Some s ∧ p' = p
  | AtaWrite lba a => ∃ s, bytes_at r a 512 = Some s ∧ p' = set_sector p lba s
  end.

Lemma completed_done p F G op lba r r1 p' r' : ps_phase p = Idle → apart F G →
  frame_ok r (page_of (G * FRAME_SIZE)) → changes (command_areas F (driver_ata op lba G)) r r1 →
  completed (set_phase p Issued) (driver_ata op lba G) r1 p' r' → done_with p (driver_ata op lba G) r p' r'.
Proof.
  intros Hph (HG0 & HG1 & HG2) Hf Hc. unfold completed, done_with, driver_ata in *. destruct (op =? 0x25).
  - intros (s & Hs & Hb & ->). exists s. split; [done|]. split; [done|]. destruct p. cbn in *. by subst.
  - intros (s & Hs & ->). exists s. split; [|destruct p; cbn in *; by subst]. rewrite <- Hs. symmetry. apply (bytes_at_changes _ _ _ _ _ Hc Hf); [lia|].
    unfold command_areas. areas.
Qed.

Lemma write_is_ok w i v : quiet (dev w) → keeps (dev w) (dev (write_reg w (ports i is_) v)) ∧ wmem (write_reg w (ports i is_) v) = wmem w.
Proof.
  intros Hq. unfold write_reg. destruct (hba_write _ _ _ _) as [d r] eqn:E. destruct (write_is _ _ _ _ _ _ Hq E) as [Hk ->].
  split; [done|]. by apply same_mem.
Qed.

(** The base of the command list, read after the status was cleared. *)
Lemma read_base w i : quiet (dev w) → ∃ w1 hi lo w2 w3, write_reg w (ports i is_) 0xFFFFFFFF = w1
  ∧ read_reg w1 (ports i clbu) = (hi, w2) ∧ read_reg w2 (ports i clb) = (lo, w3)
  ∧ Z.lor (Z.shiftl hi 32) lo = ps_clb (port_of (dev w) i) ∧ keeps (dev w) (dev w3) ∧ wmem w3 = wmem w.
Proof.
  intros Hq. destruct (write_is_ok w i 0xFFFFFFFF Hq) as [Hk1 Hm1]. set (w1 := write_reg _ _ _) in *. exists w1.
  destruct (read_reg w1 (ports i clbu)) as [hi w2] eqn:E2. destruct (read_reg w2 (ports i clb)) as [lo w3] eqn:E3.
  destruct (read_reg_quiet _ _ _ _ (keeps_quiet _ _ Hk1 Hq) E2) as [Hk2 Hm2]. pose proof (ports_keep_trans _ _ _ Hk1 Hk2) as Hk02.
  destruct (read_reg_quiet _ _ _ _ (keeps_quiet _ _ Hk02 Hq) E3) as [Hk3 Hm3].
  exists hi, lo, w2, w3. split; [done|]. split; [done|]. split; [done|]. split; [|split; [by eapply ports_keep_trans|congruence]].
  unfold read_reg in E2, E3. destruct (hba_read (dev w1) _ _) as [[? ?] ?] eqn:R2. destruct (hba_read (dev w2) _ _) as [[? ?] ?] eqn:R3.
  apply read_clbu in R2. apply read_clb in R3. simplify_eq. rewrite (Hk02 i), (Hk1 i). apply halves_join, clb_word.
Qed.

Lemma write_ci_ok w i : quiet (dev w) → ps_phase (port_of (dev w) i) = Idle →
  becomes i (set_phase (port_of (dev w) i) Issued) (dev w) (dev (write_reg w (ports i ci) 1)) ∧ wmem (write_reg w (ports i ci) 1) = wmem w.
Proof.
  intros Hq Hp. unfold write_reg. destruct (hba_write _ _ _ _) as [d r] eqn:E. destruct (write_ci _ _ _ _ _ Hq Hp E) as [-> Hb].
  split; [done|]. by apply same_mem.
Qed.

Lemma issued_busy i p (d d' : D) : quiet d → ps_phase p = Issued → becomes i p d d' → busy_port i d'.
Proof.
  intros Hq Hp Hb j. rewrite Hb. destruct (Z.eqb_spec j i); [by subst|]. split; [|done]. intros Hj. by destruct (Hq j).
Qed.

Lemma hhdm_add w f k : world_ok w → 0 ≤ f < total_frames (alloc_of w) → 0 ≤ k < 4096 →
  uadd 64 (f * FRAME_SIZE + k) off = Ret (f * FRAME_SIZE + k + off) ∧ uadd 64 off (f * FRAME_SIZE + k) = Ret (off + (f * FRAME_SIZE + k)).
Proof.
  intros [Hm _] Hf Hk. pose proof (mo_hhdm off _ Hm (f * FRAME_SIZE + k) ltac:(unfold FRAME_SIZE; lia)) as Hc. pose proof (mo_off off _ Hm) as Hof.
  unfold canonical in *. unfold uadd. rewrite !checked_ok by lia. done.
Qed.

(** What a command did, whether it succeeded or not. *)
Record commanded w (i F : Z) (c : ata) (ok : bool) w' : Prop := {
  cm_alloc : alloc_of w' = alloc_of w;
  cm_ram : changes (command_areas F c) (ram_of w) (ram_of w');
  cm_port : if ok then ∃ p', becomes i p' (dev w) (dev w') ∧ done_with (port_of (dev w) i) c (ram_of w) p' (ram_of w')
            else keeps (dev w) (dev w') ∨ ∃ p', becomes i p' (dev w) (dev w') ∧ failed (set_phase (port_of (dev w) i) Issued) c p';
}.

(** The command runs once its description is in memory. *)
Lemma run_command w w4 i F G op lba : world_ok w → port_ready w i F → 0 ≤ G < total_frames (alloc_of w) → apart F G →
  keeps (dev w) (dev w4) → alloc_of w4 = alloc_of w →
  changes [(F * FRAME_SIZE, 8); (F * FRAME_SIZE + 4096, 144)] (ram_of w) (ram_of w4) →
  decode_command (ram_of w4) (F * FRAME_SIZE) = Some (driver_ata op lba G) →
  wp (wait_done max_polls (write_reg w4 (ports i ci) 1) i) (λ '(ok, w'), commanded w i F (driver_ata op lba G) ok w').
Proof.
  intros Hok Hpr HG Hap Hk Hal Hc Hdec. pose proof Hpr as [plo phi _ pclb pfb pph ptab]. pose proof (wo_quiet _ Hok) as Hq.
  pose proof (keeps_quiet _ _ Hk Hq) as Hq4. destruct (write_ci_ok w4 i) as [Hb5 Hm5]; [done|by rewrite Hk|].
  set (w5 := write_reg w4 (ports i ci) 1) in *. rewrite (Hk i) in Hb5. set (p := port_of (dev w) i) in *. set (c := driver_ata op lba G) in *.
  assert (port_of (dev w5) i = set_phase p Issued) as Hp5 by (by eapply becomes_same).
  assert (ata_buffer c = G * FRAME_SIZE) as Hbuf by (unfold c, driver_ata; by case_match).
  assert (∀ k, 0 ≤ k < 3 → frame_ok (ram_of w4) ((F + k) * FRAME_SIZE)) as Hfr by (intros k Hk3; apply Hc, (mo_ram off _ (wo_mem _ Hok)); lia).
  assert (changes (command_areas F c) (ram_of w) (ram_of w4)) as Hc4 by (eapply changes_mono; [|exact Hc]; unfold command_areas; areas).
  eapply wp_mono; [apply (wait_done_ok w5 i c)|].
  - by eapply (issued_busy i (set_phase p Issued) (dev w4)).
  - rewrite Hp5. cbn [set_phase ps_clb]. rewrite Hm5, pclb. intros r' Hr'. rewrite (decode_stable (set_phase p Issued) F G c (ram_of w4) r'); try done.
    + replace (F * FRAME_SIZE) with ((F + 0) * FRAME_SIZE) by (unfold FRAME_SIZE; lia). apply Hfr. lia.
    + apply Hfr. lia.
    + destruct ptab as (x & Hx & Hle). exists x. split; [|done]. rewrite <- Hx. apply (bytes_at_changes _ _ _ _ _ Hc); [|lia|areas].
      apply page_frame; [done|lia|lia].
  - rewrite Hp5. intros [ok w6] (Hal6 & Hc6 & p' & Hb6 & Hend). rewrite Hm5 in Hal6, Hc6, Hend.
    pose proof (becomes_keeps _ _ _ _ _ Hk (becomes_twice _ _ _ _ _ _ Hb5 Hb6)) as Hb06.
    assert (∀ r', changes (dma_areas (set_phase p Issued) c) (ram_of w4) r' → changes (command_areas F c) (ram_of w) r') as Hcc.
    { intros r' Hr'. eapply area_changes_trans; [exact Hc4|]. eapply changes_mono; [|exact Hr']. by apply dma_in_command. }
    split; [congruence|by apply Hcc|]. destruct ok; [|right; by exists p']. exists p'. split; [done|]. destruct Hend as (r3 & Hc3 & Hco).
    eapply (completed_done p F G); [done|done| |by apply Hcc|done]. rewrite <- (Z.add_0_r (G * FRAME_SIZE)). apply page_frame; [done|done|lia].
Qed.

Lemma sector_command_ok w i F G flags op lba : world_ok w → port_ready w i F → 0 ≤ G < total_frames (alloc_of w) → apart F G →
  0 ≤ lba < 2 ^ 48 → (flags = 5 ∧ op = 0x25) ∨ (flags = 0x45 ∧ op = 0x35) →
  wp (sector_command max_polls flags op w i lba (G * FRAME_SIZE) off) (λ '(ok, w'), commanded w i F (driver_ata op lba G) ok w').
Proof.
  intros Hok Hpr HG Hap Hlba Hop. pose proof Hpr as [plo phi _ pclb _ _ _]. pose proof (wo_quiet _ Hok) as Hq. unfold sector_command.
  destruct (read_base w i Hq) as (w1 & hi & lo & w2 & w3 & -> & -> & -> & Hbase & Hk3 & Hm3). cbv beta iota zeta. rewrite Hbase, pclb.
  destruct (hhdm_add w F 0 Hok) as [Ha0 _]; [lia..|]. rewrite Z.add_0_r in Ha0. rewrite Ha0. cbn [obind].
  assert (world_ok w3) as Hok3 by (split; [by rewrite Hm3; apply Hok|by eapply keeps_quiet]).
  assert (port_ready w3 i F) as Hpr3 by (destruct Hpr; split; rewrite ?Hm3, ?(Hk3 i); done).
  destruct (describe_command w3 i F G flags op lba Hok3 Hpr3) as (r1 & r2 & h & l & Hs1 & Hhi & Hlo & Hlor & Hs2 & Hc2 & Hdec); [by rewrite Hm3|done..|].
  fold (driver_ata op lba G) in Hdec. rewrite Hs1. cbn [obind]. rewrite Hhi, Hlo. cbn [obind]. rewrite Hlor.
  destruct (hhdm_add w (F + 1) 0 Hok) as [Ha1 _]; [lia..|]. replace ((F + 1) * FRAME_SIZE + 0) with (F * FRAME_SIZE + 4096) in Ha1 by (unfold FRAME_SIZE; lia).
  rewrite Ha1. cbn [obind]. rewrite Hs2. cbn [obind]. wp_step. eapply wp_mono; [apply wait_ready_ok, Hok3|]. intros [ready w4] [Hk4 Hm4].
  cbn [with_ram dev wmem] in Hk4, Hm4. rewrite Hm3 in Hm4, Hc2. cbv beta iota. pose proof (ports_keep_trans _ _ _ Hk3 Hk4) as Hk04.
  destruct ready; cbn [negb].
  - apply run_command; try done; by rewrite Hm4.
  - wp_step. split; rewrite ?Hm4; [done| |by left]. eapply changes_mono; [|exact Hc2]. unfold command_areas. areas.
Qed.

(** ** The bounce frame *)

(** The allocator gives out the same frames before and after. *)
Record same_frames (a a' : BitmapFrameAllocator) : Prop := {
  sm_total : total_frames a' = total_frames a;
  sm_busy g : 0 ≤ g < total_frames a → busy a' g = busy a g;
  sm_refs g : 0 ≤ g < total_frames a → refs a' g = refs a g;
}.

(** A frame that was free, owned once now, and whose release restores the
    allocator. *)
Record bounce (a a1 : BitmapFrameAllocator) (G : Z) : Prop := {
  bo_range : 0 ≤ G < total_frames a;
  bo_free : refs a G = 0;
  bo_wf : WF a1;
  bo_total : total_frames a1 = total_frames a;
  bo_refs g : 0 ≤ g < total_frames a → g ≠ G → refs a1 g = refs a g;
  bo_back : wp (deallocate_frame a1 (G * FRAME_SIZE)) (λ a2, WF a2 ∧ same_frames a a2);
}.

Lemma bounce_frame a : WF a →
  wp (allocate_contiguous_frames a 1) (λ '(fr, a1),
    match fr with
    | None => a1 = a ∧ ∀ g, 0 ≤ g < total_frames a → busy a g = true
    | Some f => ∃ G, f = G * FRAME_SIZE ∧ bounce a a1 G
    end).
Proof.
  intros Hwf. eapply wp_mono; [apply allocate_contiguous_frames_contiguous; [done|lia]|cbv beta].
  intros [fr a1] [Hwf1 Hc]. unfold contiguous, first_fit in Hc. pose proof (shape_total a (wf_shape a Hwf)).
  destruct (first_from _ _ _) as [i|] eqn:E.
  - destruct Hc as [-> Hu]. apply first_from_Some in E as (Hi & Hrun & _).
    apply run_freeb_spec in Hrun; [|lia]. destruct (Hrun i ltac:(lia)) as [Hlt Hb].
    assert (refs a i = 0) as Hz by (apply free_refs; [done|lia|done]).
    assert (i * FRAME_SIZE / FRAME_SIZE = i) as Hdiv by (apply Z.div_mul; done).
    pose proof (updr_total _ _ _ _ Hu) as Ht. exists i. split; [done|].
    assert (refs a1 i = 1) as Hone by (rewrite (updr_refs _ _ _ _ Hu), decide_True by lia; done).
    split; try done; try lia; [intros g Hg Hne; rewrite (updr_refs _ _ _ _ Hu), decide_False by lia; done|].
    eapply wp_mono; [apply deallocate_frame_deallocated|cbv beta]; rewrite ?Hdiv; try lia; [done|unfold FRAME_SIZE; lia|].
    intros a2 [Hwf2 Hd]. split; [done|]. unfold deallocated in Hd. rewrite Hone in Hd.
    cbn [Z.eqb Pos.eqb] in Hd. destruct Hd as (a3 & Hu3 & ->).
    split; [simpl; rewrite (upd_total _ _ _ _ _ Hu3); done|..]; intros g Hg.
    + change (busy (set_hint a3 ?h) g) with (busy a3 g). rewrite (upd_busy _ _ _ _ _ Hu3), (updr_busy _ _ _ _ Hu) by lia. repeat case_decide; subst; try done; lia.
    + change (refs (set_hint a3 ?h) g) with (refs a3 g). rewrite (upd_refs _ _ _ _ _ Hu3), (updr_refs _ _ _ _ Hu) by lia. repeat case_decide; subst; try done; lia.
  - destruct Hc as [-> ->]. split; [done|]. intros g Hg. pose proof (proj1 (first_from_None _ _ _) E g ltac:(lia)) as Hn. cbv beta in Hn.
    apply not_false_is_true. intros Hb.
    assert (run_freeb a g 1 = true) by (apply run_freeb_spec; [lia|]; intros j Hj; replace j with g by lia; split; [lia|done]).
    congruence.
Qed.

(** ** Blocks *)

(** What a block operation on port [i] leaves alone: the allocator, the other
    ports and all memory in use but the frames of the command. *)
Record served w (i F : Z) w' : Prop := {
  sv_ok : world_ok w';
  sv_alloc : same_frames (alloc_of w) (alloc_of w');
  sv_ram f : 0 ≤ f < total_frames (alloc_of w) → 0 < refs (alloc_of w) f → f ≠ F → f ≠ F + 1 →
    ram_of w' !! (f * FRAME_SIZE) = ram_of w !! (f * FRAME_SIZE);
  sv_ports j : j ≠ i → port_of (dev w') j = port_of (dev w) j;
  sv_list : bytes_at (ram_of w') (F * FRAME_SIZE + 8) 8 = bytes_at (ram_of w) (F * FRAME_SIZE + 8) 8;
}.

Lemma served_ready w i F w' : served w i F w' → port_ready w i F →
  ps_clb (port_of (dev w') i) = ps_clb (port_of (dev w) i) → ps_fb (port_of (dev w') i) = ps_fb (port_of (dev w) i) →
  ps_phase (port_of (dev w') i) = Idle → port_ready w' i F.
Proof.
  intros [_ [Ht _ Hr] _ _ Hl] [] Hclb Hfb Hph. split; rewrite ?Ht, ?Hclb, ?Hfb, ?Hl; try done.
  intros k Hk. rewrite Hr by lia. by apply pr_owned0.
Qed.

(** A borrowed frame is none of those in use. *)
Lemma bounce_apart w i F a1 G : port_ready w i F → bounce (alloc_of w) a1 G → apart F G.
Proof.
  intros [] [_ Hz _ _ _ _]. pose proof (pr_owned0 0 ltac:(lia)) as H0'. pose proof (pr_owned0 1 ltac:(lia)). pose proof (pr_owned0 2 ltac:(lia)).
  rewrite Z.add_0_r in H0'. split_and!; intros ->; lia.
Qed.

Lemma bounce_world w a1 G d r : world_ok w → bounce (alloc_of w) a1 G → quiet d → (∀ f, frame_ok (ram_of w) f → frame_ok r f) →
  world_ok (mkWorld d (mkMem a1 r)).
Proof. intros [Hm _] [] Hd Hr. split; [|done]. by apply (mem_ok_frames off (wmem w)). Qed.

Lemma bounce_ready w i F a1 G : port_ready w i F → bounce (alloc_of w) a1 G → port_ready (with_alloc w a1) i F.
Proof.
  intros Hpr Hb. destruct (bounce_apart _ _ _ _ _ Hpr Hb) as (H0' & H1' & H2'). destruct Hpr, Hb. split; cbn; rewrite ?bo_total0; try done.
  intros k Hk. rewrite bo_refs0 by lia. by apply pr_owned0.
Qed.

Lemma commanded_ports w i F c ok w' : quiet (dev w) → commanded w i F c ok w' → quiet (dev w') ∧ ∀ j, j ≠ i → port_of (dev w') j = port_of (dev w) j.
Proof.
  intros Hq [_ _ Hp]. assert (∀ p', ps_phase p' ≠ Issued → becomes i p' (dev w) (dev w') → quiet (dev w') ∧ ∀ j, j ≠ i → port_of (dev w') j = port_of (dev w) j) as Hb.
  { intros p' Hph Hb. split; [by eapply becomes_quiet|]. intros j Hj. rewrite Hb. by rewrite (proj2 (Z.eqb_neq j i)). }
  destruct ok.
  - destruct Hp as (p' & Hbe & Hd). apply (Hb p'); [|done]. unfold done_with in Hd. destruct c; destruct Hd as (s & _ & Hd); [destruct Hd as [_ ->]|subst]; apply Hq.
  - destruct Hp as [Hk|(p' & Hbe & Hf)]; [split; [by eapply keeps_quiet|auto]|]. apply (Hb p'); [|done].
    unfold failed in Hf. destruct c; [by subst|]. destruct Hf as [->|(s & _ & ->)]; done.
Qed.

(** The frames a block operation may write. *)
Definition block_areas (F G : Z) : list (Z * Z) :=
  [(F * FRAME_SIZE, 8); (F * FRAME_SIZE + 1024, 256); (F * FRAME_SIZE + 4096, 144); (G * FRAME_SIZE, 4096)].

Lemma command_in_block F G op lba x : inside (command_areas F (driver_ata op lba G)) x → inside (block_areas F G) x.
Proof. unfold command_areas, block_areas, driver_ata. destruct (op =? 0x25); areas. Qed.

Lemma serve_finish w i F G a1 w' a2 : world_ok w → port_ready w i F → bounce (alloc_of w) a1 G → WF a2 → same_frames (alloc_of w) a2 →
  changes (block_areas F G) (ram_of w) (ram_of w') → quiet (dev w') → (∀ j, j ≠ i → port_of (dev w') j = port_of (dev w) j) →
  served w i F (with_alloc w' a2).
Proof.
  intros Hok Hpr Hb Hwf Hs Hc Hq Hj. pose proof (bounce_apart _ _ _ _ _ Hpr Hb) as (H0' & H1' & H2'). destruct Hpr, Hb. split; cbn.
  - split; [|done]. cbn. apply (mem_ok_frames off (wmem w)); [apply Hok|done|apply Hs|apply Hc].
  - done.
  - intros f Hf Hpos Hne0 Hne1. assert (f ≠ G) as HneG by (intros ->; lia). apply (frame_changes _ _ _ _ Hc).
    + by apply (mo_ram off _ (wo_mem _ Hok)).
    + unfold FRAME_SIZE. apply Z.mod_mul. lia.
    + unfold block_areas. areas.
  - done.
  - apply (bytes_at_changes _ _ _ _ _ Hc); [apply page_frame; [done|lia|lia]|lia|]. unfold block_areas. areas.
Qed.

(** The start of the frame that was filled. *)
Lemma read_frame w f n s : world_ok w → 0 ≤ f < total_frames (alloc_of w) → bytes_at (ram_of w) (f * FRAME_SIZE) 512 = Some s → 512 ≤ n ≤ 4096 →
  ∃ l, read_phys (ram_of w) (f * FRAME_SIZE) (Z.to_nat n) = Ret l ∧ take 512 l = s ∧ Z.of_nat (length l) = n.
Proof.
  intros Hok Hf Hs Hn. destruct (frame_range w f 0 n Hok Hf) as (l & Hl & Hlen); [lia..|]. rewrite Z.add_0_r in Hl.
  pose proof (page_frame w f 0 Hok Hf ltac:(lia)) as Hp. rewrite Z.add_0_r in Hp. exists l.
  split; [apply read_phys_bytes; [done|done|lia]|]. split; [|lia].
  pose proof (bytes_at_sub _ _ _ _ 0 512 Hl ltac:(lia) ltac:(lia) ltac:(lia)) as Hsub. rewrite Z.add_0_r, Hs in Hsub. injection Hsub as ->.
  unfold sub. cbn [Z.to_nat]. by rewrite drop_0.
Qed.

(** C35: On a ready port, [AhciDisk::read_block] of a sector below 2^48 into a buffer
    of 512 to 4096 bytes returns.  On success the buffer starts with the sector of the disk with that
    number and the port is ready again; it fails with [IoFailure], or with
    [NoDmaMemory] when every frame is in use.  In each case no frame is leaked,
    no other port is affected, and memory in use is unchanged but for the frames
    of the command list and table. *)
Theorem ahci_read_block_reads w i F lba len : world_ok w → port_ready w i F → 0 ≤ i < 32 → 0 ≤ lba < 2 ^ 48 → 512 ≤ len ≤ 4096 →
  wp (ahci_read_block max_polls (Some off) w i lba len) (λ '(res, w'), served w i F w'
    ∧ match res with
      | Ok buffer => ps_disk (port_of (dev w) i) !! lba = Some (take 512 buffer) ∧ Z.of_nat (length buffer) = len
          ∧ keeps (dev w) (dev w') ∧ port_ready w' i F
      | Err IoFailure => True
      | Err NoDmaMemory => ∀ g, 0 ≤ g < total_frames (alloc_of w) → busy (alloc_of w) g = true
      | Err _ => False
      end).
Proof.
  intros Hok Hpr Hi Hlba Hlen. unfold ahci_read_block. rewrite (proj2 (Z.ltb_ge _ _)) by lia. wp_step.
  eapply wp_mono; [apply bounce_frame, Hok|]. intros [[f|] a1]; cbv beta iota.
  - intros (G & -> & Hb). pose proof (bo_range _ _ _ Hb) as HG. pose proof (bo_total _ _ _ Hb) as Ht. pose proof (bounce_apart _ _ _ _ _ Hpr Hb) as Hap.
    destruct (hhdm_add w G 0 Hok HG) as [_ Hadd]; [lia|]. rewrite Z.add_0_r in Hadd. rewrite Hadd. cbn [obind]. rewrite (proj2 (Z.leb_gt _ _)) by lia.
    assert (world_ok (with_alloc w a1)) as Hok1 by (eapply bounce_world; [done|done|apply Hok|done]).
    wp_step. eapply wp_mono; [apply (sector_command_ok _ i F G); [done|by eapply bounce_ready|by cbn; rewrite Ht|done|done|by left]|].
    intros [ok w'] Hcm. cbv beta iota. pose proof Hcm as [Ha Hc Hp]. cbn [with_alloc wmem set_alloc mem_alloc mem_ram dev] in Ha, Hc, Hp.
    destruct (commanded_ports _ _ _ _ _ _ (wo_quiet _ Hok1) Hcm) as [Hq' Hj]. rewrite Ha.
    assert (∀ a2, WF a2 ∧ same_frames (alloc_of w) a2 → served w i F (with_alloc w' a2)) as Hfin.
    { intros a2 [Hwf2 Hs2]. eapply serve_finish; try done. eapply changes_mono; [|exact Hc]. apply command_in_block. }
    destruct ok.
    + destruct Hp as (p' & Hbe & s & Hs & Hbytes & ->).
      assert (world_ok w') as Hok' by (split; [|done]; apply (mem_ok_like (wmem w)); [apply Hok|by rewrite Ha; apply Hb|by rewrite Ha|apply Hc]).
      destruct (read_frame w' G len s Hok') as (l & Hl & Htake & Hll); [by rewrite Ha, Ht|done|done|]. rewrite Hl. cbn [obind]. wp_step.
      eapply wp_mono; [apply Hb|]. intros a2 Ha2. wp_step. pose proof (Hfin a2 Ha2) as Hsv. split; [done|]. rewrite Htake. split; [done|]. split; [done|].
      assert (keeps (dev w) (dev w')) as Hk by (intros j; rewrite Hbe; case_match eqn:Ej; [apply Z.eqb_eq in Ej; by subst|done]).
      split; [done|]. apply (served_ready w); try done; cbn; rewrite (Hk i); [done..|apply Hpr].
    + wp_step. eapply wp_mono; [apply Hb|]. intros a2 Ha2. wp_step. split; [by apply Hfin|done].
  - intros [-> Hall]. wp_step. split; [|done]. split; try done. split; [|apply Hok]. apply (mem_ok_frames off (wmem w)); try done; apply Hok.
Qed.

(** The buffer is copied to the start of the bounce frame. *)
Lemma fill_frame w f buffer : world_ok w → 0 ≤ f < total_frames (alloc_of w) → (0 < length buffer)%nat → Z.of_nat (length buffer) ≤ 4096 →
  Forall (λ x, is_byte x) buffer →
  ∃ r' rest, store w (f * FRAME_SIZE) buffer = Ret (with_ram w r') ∧ changes [(f * FRAME_SIZE, 4096)] (ram_of w) r'
    ∧ bytes_at r' (f * FRAME_SIZE) 512 = Some (take 512 (buffer ++ rest)).
Proof.
  intros Hok Hf Hpos Hlen Hby. destruct (frame_range w f 0 4096 Hok Hf) as (c & Hc & Hlc); [lia..|].
  pose proof (page_frame w f 0 Hok Hf ltac:(lia)) as Hp. rewrite Z.add_0_r in Hc, Hp.
  destruct (store_struct w (f * FRAME_SIZE) 4096 c 0 buffer) as (r' & Hs & Hch & Hb); [done|done|lia|done|lia|done|]. rewrite Z.add_0_r in Hs.
  exists r', (drop (length buffer) c). split; [done|]. split; [done|].
  pose proof (bytes_at_sub _ _ _ _ 0 512 Hb ltac:(lia) ltac:(lia) ltac:(lia)) as Hsub. rewrite Z.add_0_r in Hsub. rewrite Hsub. f_equal.
Qed.

(** C36: On a ready port, [AhciDisk::write_block] of a buffer of 1 to 4096 bytes to a
    sector below 2^48 returns.  On success the disk holds, in the sector with that number and in no
    other, the first 512 bytes of the buffer (the rest of a longer one is not stored,
    and a shorter one is completed by what the bounce frame held before), and the port is ready again.  In each
    case no frame is leaked, no other port is affected, and memory in use is
    unchanged but for the frames of the command list and table. *)
Theorem ahci_write_block_writes w i F lba buffer : world_ok w → port_ready w i F → 0 ≤ i < 32 → 0 ≤ lba < 2 ^ 48 →
  (0 < length buffer)%nat → Z.of_nat (length buffer) ≤ 4096 → Forall (λ x, is_byte x) buffer →
  wp (ahci_write_block max_polls (Some off) w i lba buffer) (λ '(res, w'), served w i F w'
    ∧ match res with
      | Ok _ => ∃ rest, port_of (dev w') i = set_sector (port_of (dev w) i) lba (take 512 (buffer ++ rest)) ∧ port_ready w' i F
      | Err IoFailure => True
      | Err NoDmaMemory => ∀ g, 0 ≤ g < total_frames (alloc_of w) → busy (alloc_of w) g = true
      | Err _ => False
      end).
Proof.
  intros Hok Hpr Hi Hlba Hpos Hlen Hby. unfold ahci_write_block. rewrite (proj2 (Z.ltb_ge _ _)) by lia. wp_step.
  eapply wp_mono; [apply bounce_frame, Hok|]. intros [[f|] a1]; cbv beta iota.
  - intros (G & -> & Hb). pose proof (bo_range _ _ _ Hb) as HG. pose proof (bo_total _ _ _ Hb) as Ht. pose proof (bounce_apart _ _ _ _ _ Hpr Hb) as Hap.
    destruct (hhdm_add w G 0 Hok HG) as [_ Hadd]; [lia|]. rewrite Z.add_0_r in Hadd. rewrite Hadd. cbn [obind].
    assert (world_ok (with_alloc w a1)) as Hok1 by (eapply bounce_world; [done|done|apply Hok|done]).
    destruct (fill_frame (with_alloc w a1) G buffer Hok1) as (r1 & rest & Hs & Hc1 & Hb1); [by cbn; rewrite Ht|done..|]. rewrite Hs. cbn [obind].
    cbn [with_alloc wmem set_alloc mem_ram] in Hc1. rewrite (proj2 (Z.leb_gt _ _)) by lia.
    assert (world_ok (with_ram (with_alloc w a1) r1)) as Hok2 by (eapply world_ok_changes; [done|apply Hok|exact Hc1]).
    assert (port_ready (with_ram (with_alloc w a1) r1) i F) as Hpr2.
    { pose proof Hap as (H0' & H1' & H2'). pose proof (pr_hi _ _ _ Hpr). destruct (bounce_ready _ _ _ _ _ Hpr Hb). split; try done. cbn.
      rewrite (bytes_at_changes _ _ _ _ _ Hc1); [done|apply page_frame; [done|lia|lia]|lia|areas]. }
    wp_step. eapply wp_mono; [apply (sector_command_ok _ i F G); [done|done|by cbn; rewrite Ht|done|done|by right]|].
    intros [ok w'] Hcm. cbv beta iota. pose proof Hcm as [Ha Hc Hp]. cbn [with_alloc with_ram wmem set_ram set_alloc mem_alloc mem_ram dev] in Ha, Hc, Hp.
    destruct (commanded_ports _ _ _ _ _ _ (wo_quiet _ Hok2) Hcm) as [Hq' Hj]. rewrite Ha. wp_step. eapply wp_mono; [apply Hb|]. intros a2 [Hwf2 Hs2]. wp_step.
    assert (served w i F (with_alloc w' a2)) as Hfin.
    { eapply serve_finish; try done. eapply area_changes_trans; (eapply changes_mono; [|eassumption]); [unfold block_areas; areas|apply command_in_block]. }
    split; [done|]. destruct ok; [|done]. destruct Hp as (p' & Hbe & s & Hsec & ->). exists rest. apply becomes_same in Hbe. rewrite Hb1 in Hsec. injection Hsec as <-.
    split; [done|]. apply (served_ready w); try done; cbn; rewrite Hbe; [done..|apply Hpr].
  - intros [-> Hall]. wp_step. split; [|done]. split; try done. split; [|apply Hok]. apply (mem_ok_frames off (wmem w)); try done; apply Hok.
Qed.
End Sector.
