(* ===== verification/AhciInit.v ===== *)
(** * Bring-up of an AHCI port (src/src/drivers/block/ahci/mod.rs)

    The set-up of a port with a disk ends in the state that [read_block] and
    [write_block] of [Ahci] start from, and changes no memory in use.  A concrete
    controller with one disk satisfies the promises of [HbaSpec]. *)

From S2P Require Import Prelude KError X86 FrameAlloc Paging PageTree PageMapper AddrSpace Block Ahci.

#[local] Open Scope list_scope.

Section Engine.
Context `{HP : Profile} `{HH : Hba D} `{HV : HbaView D} `{HS : !HbaSpec D}.
Implicit Types w : world D.

(** Port [i] is now [p]; memory is as before. *)
Definition now w (i : Z) (p : port_state) w' : Prop := becomes i p (dev w) (dev w') ∧ wmem w' = wmem w.

Lemma now_trans w1 i p w2 q w3 : now w1 i p w2 → now w2 i q w3 → now w1 i q w3.
Proof. intros [b1 m1] [b2 m2]. split; [by eapply becomes_twice|congruence]. Qed.

Lemma now_keeps w1 i p w2 w3 : now w1 i p w2 → keeps (dev w2) (dev w3) → wmem w3 = wmem w2 → now w1 i p w3.
Proof. intros [b1 m1] Hk Hm. split; [|congruence]. intros j. rewrite (Hk j). apply b1. Qed.

(** A register write that sets the state of the port and nothing else. *)
Lemma now_write w i reg v p : (∀ d' r', hba_write (dev w) (mem_ram (wmem w)) (ports i reg) v = (d', r') → r' = mem_ram (wmem w) ∧ becomes i p (dev w) d') →
  now w i p (write_reg w (ports i reg) v).
Proof.
  intros Hw. unfold write_reg, now. destruct (hba_write _ _ _ _) as [d r] eqn:E. destruct (Hw d r eq_refl) as [-> Hb]. cbn. split; [done|by apply same_mem].
Qed.

(** The loops on the command register of a stopped port. *)
Lemma poll_cmd (stop : Z → bool) w i : quiet (dev w) → ps_phase (port_of (dev w) i) = Stopped → (∀ v, stop v = false → Z.land v (Z.lor CR FR) ≠ 0) →
  wp (loop max_polls (λ w, let '(v, w) := read_reg w (ports i cmd) in if stop v then Ret (Done w) else Ret (Next w)) w)
    (λ w', keeps (dev w) (dev w') ∧ wmem w' = wmem w).
Proof.
  intros Hq Hp Hs. apply (wp_loop (λ w', keeps (dev w) (dev w') ∧ wmem w' = wmem w) (λ w', patience (dev w') i)); [|done|apply patience_bound].
  intros w1 [Hk Hm]. pose proof (keeps_quiet _ _ Hk Hq) as Hq1. destruct (read_reg w1 (ports i cmd)) as [v w2] eqn:E.
  destruct (read_reg_quiet _ _ _ _ Hq1 E) as [Hk2 Hm2].
  assert (keeps (dev w) (dev w2) ∧ wmem w2 = wmem w) as H02 by (split; [by eapply ports_keep_trans|congruence]).
  destruct (stop v) eqn:Ev; wp_step; [done|]. split; [done|]. unfold read_reg in E. destruct (hba_read _ _ _) as [[v3 d3] r3] eqn:R. simplify_eq. cbn.
  eapply read_cmd_stopped; [done|by rewrite (Hk i)|done|by apply Hs].
Qed.

Lemma land_le_bits x y z : Z.land (Z.land x y) z ≠ 0 → Z.land x z ≠ 0.
Proof. intros Hn Hz. apply Hn. rewrite <- Z.land_assoc, (Z.land_comm y), Z.land_assoc, Hz. apply Z.land_0_l. Qed.

Lemma stop_cmd_ok w i : quiet (dev w) → wp (stop_cmd max_polls w i) (λ w', now w i (set_phase (port_of (dev w) i) Stopped) w').
Proof.
  intros Hq. unfold stop_cmd. destruct (read_reg w (ports i cmd)) as [v w1] eqn:E. destruct (read_reg_quiet _ _ _ _ Hq E) as [Hk1 Hm1].
  set (c := Z.ldiff _ _). assert (Z.testbit c 0 = false) as Hc by (unfold c; by rewrite Z.ldiff_spec, andb_false_r).
  pose proof (keeps_quiet _ _ Hk1 Hq) as Hq1.
  assert (now w1 i (set_phase (port_of (dev w1) i) Stopped) (write_reg w1 (ports i cmd) c)) as Hn by (apply now_write; intros d' r'; by apply write_cmd_stop).
  set (w2 := write_reg _ _ _) in *. rewrite (Hk1 i) in Hn.
  assert (now w i (set_phase (port_of (dev w) i) Stopped) w2) as Hn2 by (destruct Hn; split; [by eapply becomes_keeps|congruence]).
  eapply wp_mono; [apply (poll_cmd (λ v, Z.land (Z.land v HbaPortCmd_all) (Z.lor CR FR) =? 0) w2 i)|].
  - eapply becomes_quiet; [exact Hq| |apply Hn2]. done.
  - by rewrite (becomes_same _ _ _ _ (proj1 Hn2)).
  - intros u Hu. apply Z.eqb_neq in Hu. by eapply land_le_bits.
  - intros w3 [Hk3 Hm3]. by eapply now_keeps.
Qed.

Lemma start_cmd_ok w i : quiet (dev w) → ps_phase (port_of (dev w) i) = Stopped →
  wp (start_cmd max_polls w i) (λ w', now w i (set_phase (port_of (dev w) i) Idle) w').
Proof.
  intros Hq Hp. unfold start_cmd. wp_step.
  eapply wp_mono; [apply (poll_cmd (λ v, negb (Z.land (Z.land v HbaPortCmd_all) CR =? CR)) w i Hq Hp)|].
  - intros v Hv. apply negb_false_iff, Z.eqb_eq in Hv. intros Hz.
    assert (Z.testbit v 15 = true) as Hb.
    { apply (f_equal (λ x, Z.testbit x 15)) in Hv. rewrite !Z.land_spec in Hv. destruct (Z.testbit v 15); done. }
    apply (f_equal (λ x, Z.testbit x 15)) in Hz. rewrite Z.land_spec, Hb in Hz. done.
  - intros w1 [Hk1 Hm1]. pose proof (keeps_quiet _ _ Hk1 Hq) as Hq1. destruct (read_reg w1 (ports i cmd)) as [v w2] eqn:E.
    destruct (read_reg_quiet _ _ _ _ Hq1 E) as [Hk2 Hm2]. pose proof (ports_keep_trans _ _ _ Hk1 Hk2) as Hk02. wp_step.
    set (c := Z.lor _ _). assert (Z.testbit c 0 = true ∧ Z.testbit c 4 = true) as [Hc0 Hc4] by (unfold c; rewrite !Z.lor_spec; cbn; by rewrite !orb_true_r).
    assert (now w2 i (set_phase (port_of (dev w2) i) Idle) (write_reg w2 (ports i cmd) c)) as Hn.
    { apply now_write. intros d' r'. apply write_cmd_start; [by eapply keeps_quiet|by rewrite (Hk02 i)|done|done]. }
    rewrite (Hk02 i) in Hn. destruct Hn. split; [by eapply becomes_keeps|congruence].
Qed.

(** A 64-bit pointer register pair. *)
Lemma join_low x v : 0 ≤ v < 2 ^ 64 → 0 ≤ x → Z.shiftr v 32 * 2 ^ 32 + (x / 2 ^ 32 * 2 ^ 32 + Z.land v 0xFFFFFFFF) mod 2 ^ 32 = v.
Proof.
  intros Hv Hx. destruct (halves v Hv) as (-> & -> & _ & _). clear Hv. change (2 ^ 32) with 4294967296. zlia.
Qed.

Lemma set_list_ok w i a fb : quiet (dev w) → ps_phase (port_of (dev w) i) = Stopped → 0 ≤ a < 2 ^ 64 → 0 ≤ fb < 2 ^ 64 →
  now w i (mkPort a fb Stopped (ps_disk (port_of (dev w) i)))
    (write_reg (write_reg (write_reg (write_reg w (ports i clb) (Z.land a 0xFFFFFFFF)) (ports i clbu) (Z.shiftr a 32))
      (ports i port_fb) (Z.land fb 0xFFFFFFFF)) (ports i port_fbu) (Z.shiftr fb 32)).
Proof.
  intros Hq Hp Ha Hfb. destruct (halves a Ha) as (Ea & Ea' & Hal & Hah). destruct (halves fb Hfb) as (Ef & Ef' & Hfl & Hfh).
  assert (∀ w1 p, now w i p w1 → ps_phase p = Stopped → quiet (dev w1) ∧ port_of (dev w1) i = p) as Hst.
  { intros w1 p [Hb _] Hs. split; [|by eapply becomes_same]. eapply becomes_quiet; [exact Hq| |exact Hb]. by rewrite Hs. }
  pose proof (clb_word (dev w) i) as Hcw. pose proof (fb_word (dev w) i) as Hfw.
  set (v1 := Z.land a _) in *. set (v2 := Z.shiftr a 32) in *. set (v3 := Z.land fb _) in *. set (v4 := Z.shiftr fb 32) in *.
  assert (0 ≤ v1 < 2 ^ 32 ∧ 0 ≤ v2 < 2 ^ 32 ∧ 0 ≤ v3 < 2 ^ 32 ∧ 0 ≤ v4 < 2 ^ 32) as (R1 & R2 & R3 & R4) by lia.
  epose proof (now_write w i clb v1 _ (λ d' r', write_clb _ _ _ v1 d' r' Hq Hp R1)) as H1.
  destruct (Hst _ _ H1 eq_refl) as [Hq1 Hp1]. set (w1 := write_reg w _ _) in *.
  epose proof (now_write w1 i clbu v2 _ (λ d' r', write_clbu _ _ _ v2 d' r' Hq1 ltac:(by rewrite Hp1) R2)) as H2. rewrite Hp1 in H2. cbn in H2.
  pose proof (now_trans _ _ _ _ _ _ H1 H2) as H12. destruct (Hst _ _ H12 eq_refl) as [Hq2 Hp2]. set (w2 := write_reg w1 _ _) in *.
  epose proof (now_write w2 i port_fb v3 _ (λ d' r', write_fb _ _ _ v3 d' r' Hq2 ltac:(by rewrite Hp2) R3)) as H3. rewrite Hp2 in H3. cbn in H3.
  pose proof (now_trans _ _ _ _ _ _ H12 H3) as H13. destruct (Hst _ _ H13 eq_refl) as [Hq3 Hp3]. set (w3 := write_reg w2 _ _) in *.
  epose proof (now_write w3 i port_fbu v4 _ (λ d' r', write_fbu _ _ _ v4 d' r' Hq3 ltac:(by rewrite Hp3) R4)) as H4. rewrite Hp3 in H4. cbn in H4.
  pose proof (now_trans _ _ _ _ _ _ H13 H4) as H14. subst v1 v2 v3 v4.
  rewrite !join_low in H14 by (done || lia). exact H14.
Qed.
End Engine.

Section BringUp.
Context `{HP : Profile} `{HH : Hba D} `{HV : HbaView D} `{HS : !HbaSpec D} (off : Z).
Implicit Types w : world D.

Abbreviation ram_of w := (mem_ram (wmem w)).
Abbreviation alloc_of w := (mem_alloc (wmem w)).

Lemma with_ram_twice w r r' : with_ram (with_ram w r) r' = with_ram w r'.
Proof. done. Qed.

(** Three stores into the header of a slot. *)
Lemma header_slot (c lo hi : list Z) : length c = 32%nat → length lo = 4%nat → length hi = 4%nat →
  sub 8 8 (splice 12 hi (splice 8 lo (splice 2 (le_bytes 2 8) c))) = lo ++ hi.
Proof.
  intros Hc Hlo Hhi. do 32 (destruct c as [|? c]; [done|]). destruct c; [|done].
  do 4 (destruct lo as [|? lo]; [done|]). destruct lo; [|done]. do 4 (destruct hi as [|? hi]; [done|]). destruct hi; [|done]. reflexivity.
Qed.

Lemma init_slot_ok F k w : world_ok off w → 0 ≤ F → F + 3 ≤ total_frames (alloc_of w) → 0 ≤ k < 32 →
  wp (init_slot (F * FRAME_SIZE) k w) (λ w', ∃ r' l, w' = with_ram w r' ∧ changes [(F * FRAME_SIZE + 32 * k, 32)] (ram_of w) r'
    ∧ bytes_at r' (F * FRAME_SIZE + 32 * k + 8) 8 = Some l ∧ le l = F * FRAME_SIZE + 4096 + 256 * k).
Proof.
  intros Hok HF Ht Hk. pose proof (mo_phys off _ (wo_mem off _ Hok)) as Hphys. unfold init_slot. set (base := F * FRAME_SIZE + 32 * k).
  destruct (frame_range off w F (32 * k) 32 Hok) as (c & Hc & Hlc); [lia..|]. fold base in Hc.
  pose proof (page_frame off w F (32 * k) Hok ltac:(lia) ltac:(lia)) as Hf. fold base in Hf.
  destruct (store_struct w base 32 c 2 (le_bytes 2 8) Hf Hc) as (r1 & Hs1 & Hc1 & Hb1); [lia|rewrite length_le_bytes; lia..|apply le_bytes_range|].
  rewrite Hs1. cbn [obind]. unfold FRAME_SIZE in Hphys.
  assert (0 ≤ F * FRAME_SIZE ∧ F * FRAME_SIZE + 12288 ≤ 2 ^ 52) as [Hlo Hhi] by (unfold FRAME_SIZE; lia). unfold uadd, umul.
  rewrite checked_ok by lia. cbn [obind]. rewrite checked_ok by lia. cbn [obind]. rewrite checked_ok by lia. cbn [obind].
  set (t := F * FRAME_SIZE + 4096 + k * 256).
  destruct (store_struct (with_ram w r1) base 32 _ 8 (le_bytes 4 (Z.land t 0xFFFFFFFF)) (ch_ok _ _ _ Hc1 _ Hf) Hb1) as (r2 & Hs2 & Hc2 & Hb2);
    [lia|rewrite length_le_bytes; lia..|apply le_bytes_range|]. rewrite Hs2. cbn [obind]. rewrite with_ram_twice.
  destruct (store_struct (with_ram w r2) base 32 _ 12 (le_bytes 4 (Z.shiftr t 32)) (ch_ok _ _ _ Hc2 _ (ch_ok _ _ _ Hc1 _ Hf)) Hb2) as (r3 & Hs3 & Hc3 & Hb3);
    [lia|rewrite length_le_bytes; lia..|apply le_bytes_range|]. rewrite Hs3. wp_step. rewrite with_ram_twice.
  exists r3, (le_bytes 4 (Z.land t 0xFFFFFFFF) ++ le_bytes 4 (Z.shiftr t 32)). split; [done|]. split; [|split].
  - eapply area_changes_trans; [|exact Hc3]. by eapply area_changes_trans.
  - rewrite (bytes_at_sub _ _ _ _ 8 8 Hb3) by lia. by rewrite header_slot by (rewrite ?length_le_bytes; done).
  - rewrite halves_le by (unfold t; lia). unfold t. lia.
Qed.

Lemma init_slots_ok F w : world_ok off w → 0 ≤ F → F + 3 ≤ total_frames (alloc_of w) →
  wp (each_range 0 32 (init_slot (F * FRAME_SIZE)) w) (λ w', ∃ r' l, w' = with_ram w r' ∧ changes [(F * FRAME_SIZE, 1024)] (ram_of w) r'
    ∧ bytes_at r' (F * FRAME_SIZE + 8) 8 = Some l ∧ le l = F * FRAME_SIZE + 4096).
Proof.
  intros Hok HF Ht. eapply wp_mono; [apply (wp_each_range (λ k w', ∃ r', w' = with_ram w r' ∧ changes [(F * FRAME_SIZE, 1024)] (ram_of w) r'
    ∧ (0 < k → ∃ l, bytes_at r' (F * FRAME_SIZE + 8) 8 = Some l ∧ le l = F * FRAME_SIZE + 4096)))|].
  - exists (ram_of w). split; [by destruct w as [d []]|]. split; [apply changes_refl|lia].
  - intros k w' Hk (r' & -> & Hc & Hl). assert (world_ok off (with_ram w r')) as Hok' by (eapply world_ok_changes; [done|apply Hok|done]).
    eapply wp_mono; [by apply (init_slot_ok F k)|]. intros w2 (r2 & l & -> & Hc2 & Hb & Hle). rewrite with_ram_twice. cbn [with_ram wmem set_ram mem_ram] in Hc2.
    exists r2. split; [done|]. split; [eapply area_changes_trans; [done|]; eapply changes_mono; [|exact Hc2]; areas|]. intros _.
    destruct (decide (k = 0)) as [->|Hne]; [exists l; rewrite Z.mul_0_r, !Z.add_0_r in *; done|].
    destruct Hl as (l0 & Hl0 & Hle0); [lia|]. exists l0. split; [|done]. rewrite <- Hl0. apply (bytes_at_changes _ _ _ _ _ Hc2); [|lia|areas].
    change r' with (ram_of (with_ram w r')). apply (page_frame off); [done|cbn; lia|lia].
  - cbv beta. intros w' (r' & -> & Hc & Hl). destruct Hl as (l & Hb & Hle); [lia|]. by exists r', l.
Qed.

(** The three frames are cleared. *)
Lemma zero_changes r f : frame_ok r (f * FRAME_SIZE) → ∃ r', zero r (f * FRAME_SIZE) = Ret r' ∧ changes [(f * FRAME_SIZE, 4096)] r r'.
Proof.
  intros (b & Hb & _). unfold zero. rewrite Hb. eexists. split; [done|]. split.
  - intros g Hg. destruct (decide (g = f * FRAME_SIZE)) as [->|Hne]; [|destruct Hg as (x & Hx & Hxx); exists x; by rewrite lookup_insert_ne].
    exists zero_frame. rewrite lookup_insert_eq. split; [done|]. split; [apply length_replicate|apply Forall_replicate; lia].
  - intros x Hx. unfold ram_byte. rewrite lookup_insert_ne; [done|]. intros He. rewrite inside_cons in Hx. destruct (page_split x) as (_ & Hxs & Hxm).
    apply Hx. left. lia.
Qed.

Lemma zero_three w F : world_ok off w → 0 ≤ F → F + 3 ≤ total_frames (alloc_of w) →
  wp (mfold (λ r k, zero r (F * FRAME_SIZE + k)) (ram_of w) [0; 4096; 8192]) (changes [(F * FRAME_SIZE, 12288)] (ram_of w)).
Proof.
  intros Hok HF Ht. assert (∀ k, 0 ≤ k < 3 → frame_ok (ram_of w) ((F + k) * FRAME_SIZE)) as Hfr by (intros k Hk; apply (mo_ram off _ (wo_mem off _ Hok)); lia).
  cbn [mfold]. replace (F * FRAME_SIZE + 0) with ((F + 0) * FRAME_SIZE) by (unfold FRAME_SIZE; lia).
  replace (F * FRAME_SIZE + 4096) with ((F + 1) * FRAME_SIZE) by (unfold FRAME_SIZE; lia). replace (F * FRAME_SIZE + 8192) with ((F + 2) * FRAME_SIZE) by (unfold FRAME_SIZE; lia).
  destruct (zero_changes (ram_of w) (F + 0)) as (r1 & -> & Hc1); [by apply Hfr|]. cbn [obind].
  destruct (zero_changes r1 (F + 1)) as (r2 & -> & Hc2); [by apply Hc1, Hfr|]. cbn [obind].
  destruct (zero_changes r2 (F + 2)) as (r3 & -> & Hc3); [by apply Hc2, Hc1, Hfr|]. cbn [obind]. wp_step.
  eapply area_changes_trans; [eapply area_changes_trans|]; (eapply changes_mono; [|eassumption]); areas.
Qed.

(** The frames found for the port. *)
Lemma first_fit_free a F : WF a → first_fit a 3 = Some F → 0 ≤ F ∧ F + 3 ≤ total_frames a ∧ ∀ k, 0 ≤ k < 3 → refs a (F + k) = 0.
Proof.
  intros Hwf Hff. unfold first_fit in Hff. apply first_from_Some in Hff as (HF & Hrun & _). apply run_freeb_spec in Hrun; [|lia].
  pose proof (run_free_bound a F 3 ltac:(lia) Hrun). split; [lia|]. split; [done|]. intros k Hk. apply free_refs; [done|lia|]. apply Hrun. lia.
Qed.

Lemma dma_setup_ok w i F : world_ok off w → ps_phase (port_of (dev w) i) = Stopped → 0 ≤ F → F + 3 ≤ total_frames (alloc_of w) →
  wp (dma_setup max_polls w i (F * FRAME_SIZE)) (λ w', alloc_of w' = alloc_of w ∧ changes [(F * FRAME_SIZE, 12288)] (ram_of w) (ram_of w')
    ∧ becomes i (mkPort (F * FRAME_SIZE) (F * FRAME_SIZE + 1024) Idle (ps_disk (port_of (dev w) i))) (dev w) (dev w')
    ∧ ∃ l, bytes_at (ram_of w') (F * FRAME_SIZE + 8) 8 = Some l ∧ le l = F * FRAME_SIZE + 4096).
Proof.
  intros Hok Hst HF Ht. pose proof (mo_phys off _ (wo_mem off _ Hok)) as Hphys. unfold dma_setup. wp_step. eapply wp_mono; [by apply zero_three|]. intros r1 Hc1.
  assert (world_ok off (with_ram w r1)) as Hok1 by (eapply world_ok_changes; [done|apply Hok|done]).
  assert (0 ≤ F * FRAME_SIZE ∧ F * FRAME_SIZE + 12288 ≤ 2 ^ 52) as [Hlo Hhi] by (unfold FRAME_SIZE in *; lia).
  unfold uadd. rewrite checked_ok by lia. cbn [obind].
  pose proof (set_list_ok (with_ram w r1) i (F * FRAME_SIZE) (F * FRAME_SIZE + 1024) (wo_quiet off _ Hok1) Hst ltac:(lia) ltac:(lia)) as [Hb2 Hm2].
  set (w2 := write_reg _ (ports i port_fbu) _) in *. cbn [with_ram dev wmem] in Hb2, Hm2.
  assert (world_ok off w2) as Hok2 by (split; [rewrite Hm2; apply Hok1|eapply becomes_quiet; [apply Hok| |exact Hb2]; done]).
  wp_step. eapply wp_mono; [apply init_slots_ok; [done|done|by rewrite Hm2]|]. intros w3 (r3 & l & -> & Hc3 & Hl & Hle).
  eapply wp_mono; [apply start_cmd_ok; [apply Hok2|cbn [with_ram dev]; by rewrite (becomes_same _ _ _ _ Hb2)]|]. intros w4 [Hb4 Hm4].
  cbn [with_ram dev wmem] in Hb4, Hm4. rewrite (becomes_same _ _ _ _ Hb2) in Hb4. rewrite Hm2 in Hm4, Hc3. rewrite Hm4. split; [done|]. cbn in *.
  split; [eapply area_changes_trans; (eapply changes_mono; [|eassumption]); areas|]. split; [by eapply becomes_twice|by exists l].
Qed.

(** The set-up of a port with a disk: when the allocator has no three free
    frames in a row it panics; otherwise it returns, the port is ready on the
    first such frames with its disk unchanged, no other port is affected, and the
    memory outside these frames, which were free, is unchanged. *)
Theorem configure_port_ready w i : world_ok off w →
  match first_fit (alloc_of w) 3 with
  | None => configure_port max_polls w i off = Stop Panic
  | Some F => wp (configure_port max_polls w i off) (λ w', world_ok off w' ∧ port_ready w' i F
      ∧ ps_disk (port_of (dev w') i) = ps_disk (port_of (dev w) i) ∧ (∀ j, j ≠ i → port_of (dev w') j = port_of (dev w) j)
      ∧ (∀ k, 0 ≤ k < 3 → refs (alloc_of w) (F + k) = 0) ∧ upd_range (alloc_of w) (alloc_of w') F (F + 3)
      ∧ ∀ f, 0 ≤ f < total_frames (alloc_of w) → ¬ F ≤ f < F + 3 → ram_of w' !! (f * FRAME_SIZE) = ram_of w !! (f * FRAME_SIZE))
  end.
Proof.
  intros Hok. unfold configure_port. pose proof (wo_mem off _ Hok) as Hm. pose proof (mo_wf off _ Hm) as Hwf.
  pose proof (stop_cmd_ok w i (wo_quiet off _ Hok)) as Hstop. destruct (stop_cmd max_polls w i) as [w1|]; [|done]. cbn [wp obind] in *.
  destruct Hstop as [Hb1 Hm1]. rewrite Hm1.
  pose proof (allocate_contiguous_frames_contiguous (alloc_of w) 3 Hwf ltac:(lia)) as Hal.
  destruct (allocate_contiguous_frames (alloc_of w) 3) as [[o a]|]; [|done]. cbn [wp obind] in *. destruct Hal as [Hwfa Hcon]. unfold contiguous in Hcon.
  destruct (first_fit (alloc_of w) 3) as [F|] eqn:Eff; destruct Hcon as [-> Hu]; [|done].
  destruct (first_fit_free _ _ Hwf Eff) as (HF & Ht & Hz). destruct (hhdm_add off w F 0 Hok) as [_ Hadd]; [lia..|]. rewrite Z.add_0_r in Hadd. rewrite Hadd. cbn [obind].
  pose proof (updr_total _ _ _ _ Hu) as Hta.
  assert (quiet (dev w1)) as Hq1 by (eapply becomes_quiet; [apply Hok| |exact Hb1]; done).
  assert (world_ok off (with_alloc w1 a)) as Hok1 by (split; [|done]; cbn; rewrite Hm1; by apply (mem_ok_frames off (wmem w))).
  eapply wp_mono; [apply (dma_setup_ok (with_alloc w1 a) i F Hok1); [cbn; by rewrite (becomes_same _ _ _ _ Hb1)|done|by cbn; rewrite Hta]|].
  cbn [with_alloc dev wmem set_alloc mem_alloc mem_ram]. rewrite Hm1, (becomes_same _ _ _ _ Hb1). intros w' (Ha' & Hc' & Hb' & Htab). rewrite Ha'.
  pose proof (becomes_twice _ _ _ _ _ _ Hb1 Hb') as Hbe. pose proof (becomes_same _ _ _ _ Hbe) as Hp'. split_and!; try done.
  - split; [|eapply becomes_quiet; [apply Hok| |exact Hbe]; done]. apply (mem_ok_like off (wmem w)); rewrite ?Ha'; try done. apply Hc'.
  - split; rewrite ?Ha', ?Hp'; cbn; try done; [by rewrite Hta|]. intros k Hk. rewrite (updr_refs _ _ _ _ Hu), decide_True by lia. lia.
  - by rewrite Hp'.
  - intros j Hj. rewrite Hbe. by rewrite (proj2 (Z.eqb_neq j i)).
  - intros f Hf Hne. apply (frame_changes _ _ _ _ Hc'); [by apply (mo_ram off _ Hm)|unfold FRAME_SIZE; apply Z.mod_mul; lia|areas].
Qed.
End BringUp.

(** ** A controller *)
Module AhciSample.

Definition port_wf (p : port_state) : Prop := 0 ≤ ps_clb p < 2 ^ 64 ∧ 0 ≤ ps_fb p < 2 ^ 64 ∧ map_Forall (λ _ s, is_sector s) (ps_disk p).
#[local] Instance is_sector_dec s : Decision (is_sector s).
Proof. unfold is_sector. apply _. Defined.
#[local] Instance port_wf_dec p : Decision (port_wf p).
Proof. unfold port_wf. apply _. Defined.

(** The ports, and whether the command of a port needs another round. *)
Record sdev := mkDev { sp : Z → port_state; slow : Z → bool; sp_wf : ∀ i, port_wf (sp i) }.

Lemma update_wf (d : sdev) i p : port_wf p → ∀ j, port_wf (if j =? i then p else sp d j).
Proof. intros Hp j. case_match; [done|apply sp_wf]. Qed.

Definition put (d : sdev) (i : Z) (p : port_state) (b : bool) : sdev :=
  match decide (port_wf p) with
  | left Hp => mkDev (λ j, if j =? i then p else sp d j) (λ j, if j =? i then b else slow d j) (update_wf d i p Hp)
  | right _ => d
  end.

(** The transfer of a sector to memory. *)
Definition dma_write (r : ram) (a : Z) (s : list Z) : option ram :=
  b ← r !! page_of a;
  if decide ((Z.of_nat (length b) = 4096 ∧ Forall (λ x, is_byte x) b) ∧ a mod 4096 + 512 ≤ 4096)
  then Some (<[page_of a := splice (a mod 4096) s b]> r) else None.

Definition run_ata (d : sdev) (r : ram) (i : Z) : option (sdev * ram) :=
  c ← decode_command r (ps_clb (sp d i));
  match c with
  | AtaRead lba a => s ← ps_disk (sp d i) !! lba; r' ← dma_write r a s; Some (put d i (set_phase (sp d i) Idle) false, r')
  | AtaWrite lba a => s ← bytes_at r a 512;
      if decide (is_sector s) then Some (put d i (set_sector (set_phase (sp d i) Idle) lba s) false, r) else None
  end.

Definition issued (d : sdev) (i : Z) : bool := match ps_phase (sp d i) with Issued => true | _ => false end.

Definition sample_read (d : sdev) (r : ram) (reg : HbaMemory) : Z * sdev * ram :=
  match reg with
  | ports_implemented => (1, d, r)
  | ports i clb => (Z.land (ps_clb (sp d i)) 0xFFFFFFFF, d, r)
  | ports i clbu => (Z.shiftr (ps_clb (sp d i)) 32, d, r)
  | ports i ssts => (0x103, d, r)
  | ports i sig => (0x101, d, r)
  | ports i ci =>
      if issued d i then
        if slow d i then (1, d, r)
        else match run_ata d r i with Some (d', r') => (0, d', r') | None => (1, d, r) end
      else (0, d, r)
  | ports i is_ =>
      if issued d i then
        if slow d i then (0, put d i (sp d i) false, r)
        else (2 ^ 30, put d i (set_phase (sp d i) Halted) false, r)
      else (0, d, r)
  | _ => (0, d, r)
  end.

Definition sample_write (d : sdev) (r : ram) (reg : HbaMemory) (v : Z) : sdev * ram :=
  match reg with
  | ports i x =>
      let p := sp d i in
      let put_when (ok : bool) q := if ok then (put d i q true, r) else (d, r) in
      let stopped := match ps_phase p with Stopped => true | _ => false end in
      match x with
      | clb => put_when stopped (mkPort (ps_clb p / 2 ^ 32 * 2 ^ 32 + v) (ps_fb p) Stopped (ps_disk p))
      | clbu => put_when stopped (mkPort (v * 2 ^ 32 + ps_clb p mod 2 ^ 32) (ps_fb p) Stopped (ps_disk p))
      | port_fb => put_when stopped (mkPort (ps_clb p) (ps_fb p / 2 ^ 32 * 2 ^ 32 + v) Stopped (ps_disk p))
      | port_fbu => put_when stopped (mkPort (ps_clb p) (v * 2 ^ 32 + ps_fb p mod 2 ^ 32) Stopped (ps_disk p))
      | cmd => if Z.testbit v 0 then put_when stopped (set_phase p Idle) else (put d i (set_phase p Stopped) true, r)
      | ci => put_when (match ps_phase p with Idle => true | _ => false end) (set_phase p Issued)
      | _ => (d, r)
      end
  | _ => (d, r)
  end.

#[local] Instance sample_hba : Hba sdev := {| hba_read := sample_read; hba_write := sample_write |}.
#[local] Instance sample_view : HbaView sdev := {|
  port_of := sp; patience d i := if slow d i then 1%nat else 0%nat; max_polls := 2%nat |}.

Lemma put_becomes d i p b : port_wf p → becomes i p d (put d i p b).
Proof. intros Hp j. unfold put. by destruct (decide (port_wf p)). Qed.

Lemma put_keeps d i b : keeps d (put d i (sp d i) b).
Proof. intros j. rewrite (put_becomes d i _ b (sp_wf d i)). by destruct (Z.eqb_spec j i) as [->|]. Qed.

Lemma put_slow d i p b : port_wf p → slow (put d i p b) i = b.
Proof. intros Hp. unfold put. destruct (decide (port_wf p)); [|done]. cbn. by rewrite Z.eqb_refl. Qed.

Lemma set_phase_wf d i x : port_wf (set_phase (sp d i) x).
Proof. apply (sp_wf d i). Qed.

Lemma dma_write_ok r a s r' : is_sector s → dma_write r a s = Some r' → changes [(a, 512)] r r' ∧ bytes_at r' a 512 = Some s.
Proof.
  intros [Hl Hby] Hd. unfold dma_write in Hd. destruct (r !! page_of a) as [b|] eqn:Eb; [|done]. cbn in Hd.
  destruct (decide _) as [[[Hlb Hbb] Hle]|]; [|done]. injection Hd as <-.
  pose proof (bytes_at_eq r a 512 b Eb Hle) as Hc. set (w := mkWorld (D := unit) tt (mkMem FrameAlloc.sample r)).
  destruct (store_struct (H := Build_Hba unit (λ _ r _, (0, tt, r)) (λ _ r _ _, (tt, r))) w a 512 _ 0 s ltac:(exists b; split_and!; [done|lia|done]) Hc) as (r' & Hs & Hch & Hb');
    [lia|rewrite Hl; lia|by rewrite Hl|done|].
  unfold store in Hs. cbn [w wmem mem_ram] in Hs. rewrite Z.add_0_r, Eb, Hl, (proj2 (Z.leb_le _ _)) in Hs by lia. injection Hs as <-.
  split; [done|]. rewrite Hb'. f_equal. apply splice_full. rewrite Hl, length_sub; [done|..]; destruct (page_split a); rewrite ?Hlb; lia.
Qed.

Lemma run_ata_ok d r i c d' r' : ps_phase (sp d i) = Issued → decode_command r (ps_clb (sp d i)) = Some c → run_ata d r i = Some (d', r') →
  changes (dma_areas (sp d i) c) r r' ∧ slow d' i = false ∧ ∃ p', becomes i p' d d' ∧ completed (sp d i) c r p' r'.
Proof.
  intros Hp Hdec. unfold run_ata. rewrite Hdec. cbn. destruct c as [lba a|lba a].
  - destruct (ps_disk (sp d i) !! lba) as [s|] eqn:Es; [|done]. cbn. destruct (dma_write r a s) as [r1|] eqn:Ew; [|done]. cbn. intros [= <- <-].
    destruct (dma_write_ok r a s r1) as [Hc Hb]; [by eapply (proj2 (proj2 (sp_wf d i)))|done|].
    split; [eapply changes_mono; [|exact Hc]; unfold dma_areas; areas|]. split; [apply put_slow, set_phase_wf|].
    eexists. split; [apply put_becomes, set_phase_wf|]. by exists s.
  - destruct (bytes_at r a 512) as [s|] eqn:Es; [|done]. cbn. destruct (decide (is_sector s)) as [Hs|]; [|done]. intros [= <- <-].
    assert (port_wf (set_sector (set_phase (sp d i) Idle) lba s)) as Hwf.
    { destruct (sp_wf d i) as (H1 & H2 & H3). split; [done|]. split; [done|]. by apply map_Forall_insert_2. }
    split; [apply changes_refl|]. split; [by apply put_slow|]. eexists. split; [by apply put_becomes|]. by exists s.
Qed.

Lemma issued_phase d i : issued d i = true ↔ ps_phase (sp d i) = Issued.
Proof. unfold issued. by destruct (ps_phase (sp d i)). Qed.

Lemma quiet_issued d i : quiet d → issued d i = false.
Proof. intros Hq. apply not_true_iff_false. rewrite issued_phase. apply Hq. Qed.

Lemma word_low x v : 0 ≤ x < 2 ^ 64 → 0 ≤ v < 2 ^ 32 → 0 ≤ x / 2 ^ 32 * 2 ^ 32 + v < 2 ^ 64.
Proof. change (2 ^ 64) with 18446744073709551616. change (2 ^ 32) with 4294967296. zlia. Qed.

Lemma word_high x v : 0 ≤ x < 2 ^ 64 → 0 ≤ v < 2 ^ 32 → 0 ≤ v * 2 ^ 32 + x mod 2 ^ 32 < 2 ^ 64.
Proof. change (2 ^ 64) with 18446744073709551616. change (2 ^ 32) with 4294967296. zlia. Qed.

(** A write that replaces the state of the port. *)
Lemma put_write (d : sdev) (r : ram) i p d' r' : port_wf p → (put d i p true, r) = (d', r') → r' = r ∧ becomes i p d d'.
Proof. intros Hp [= <- <-]. split; [done|by apply put_becomes]. Qed.

Lemma busy_issued d i : busy_port i d → issued d i = true.
Proof. intros Hb. apply issued_phase. by apply Hb. Qed.

#[local] Instance sample_spec : HbaSpec sdev.
Proof.
  split.
  - intros d i. apply (sp_wf d i).
  - intros d i. apply (sp_wf d i).
  - intros d i lba s Hs. by eapply (proj2 (proj2 (sp_wf d i))).
  - intros d i. cbn. case_match; lia.
  - intros d r reg v d' r' Hq Hr. cbn in Hr. destruct reg as [| | | | |i x]; cbn in Hr; try (by simplify_eq).
    destruct x; cbn in Hr; rewrite ?(quiet_issued d i Hq) in Hr; by simplify_eq.
  - intros d r i v d' r' [= <- _ _]. done.
  - intros d r i v d' r' [= <- _ _]. done.
  - intros d r i v d' r' _ _ [= <- _ _] Hv. done.
  - intros d r i v d' r' _ [= <- <-]. done.
  - intros d r i v d' r' _ Hp Hv. cbn in *. rewrite Hp. destruct (sp_wf d i) as (H1 & H2 & H3). apply put_write. split; [by apply word_low|done].
  - intros d r i v d' r' _ Hp Hv. cbn in *. rewrite Hp. destruct (sp_wf d i) as (H1 & H2 & H3). apply put_write. split; [by apply word_high|done].
  - intros d r i v d' r' _ Hp Hv. cbn in *. rewrite Hp. destruct (sp_wf d i) as (H1 & H2 & H3). apply put_write. split; [done|]. split; [by apply word_low|done].
  - intros d r i v d' r' _ Hp Hv. cbn in *. rewrite Hp. destruct (sp_wf d i) as (H1 & H2 & H3). apply put_write. split; [done|]. split; [by apply word_high|done].
  - intros d r i v d' r' _ Hv. cbn in *. rewrite Hv. apply put_write, set_phase_wf.
  - intros d r i v d' r' _ Hp Hv _. cbn in *. rewrite Hp, Hv. apply put_write, set_phase_wf.
  - intros d r i d' r' _ Hp. cbn in *. rewrite Hp. apply put_write, set_phase_wf.
  - intros d r i c v d' r' Hb Hdec Hr. cbn in Hr. rewrite (busy_issued d i Hb) in Hr.
    destruct (slow d i) eqn:Es; [simplify_eq; split; [apply changes_refl|]; split; [lia|done]|].
    destruct (run_ata d r i) as [[d1 r1]|] eqn:Er; simplify_eq; [|split; [apply changes_refl|]; split; [lia|done]].
    destruct (run_ata_ok d r i c d' r') as (Hc & Hs & Hcomp); [by apply Hb|done|done|]. split; [done|]. cbn. rewrite Hs. split; [lia|done].
  - intros d r i c v d' r' Hb Hdec Hr. cbn in Hr. rewrite (busy_issued d i Hb) in Hr.
    destruct (slow d i) eqn:Es; simplify_eq; (split; [apply changes_refl|]).
    + change (Z.testbit 0 30) with false. split; [apply put_keeps|]. cbn. rewrite Es, put_slow by apply sp_wf. lia.
    + change (Z.testbit (2 ^ 30) 30) with true. eexists. split; [apply put_becomes, set_phase_wf|]. destruct c; [done|by left].
Qed.

#[local] Instance sample_profile : Profile := true.

Definition ones : list Z := replicate 512 1.
Definition disk : gmap Z (list Z) := {[ 5 := ones ]}.

Lemma ones_sector : is_sector ones.
Proof. split; [apply length_replicate|apply Forall_replicate; lia]. Qed.

Lemma sample_port_wf a fb x i : 0 ≤ a < 2 ^ 64 → 0 ≤ fb < 2 ^ 64 → port_wf (if i =? 0 then mkPort a fb x disk else mkPort 0 0 Stopped ∅).
Proof.
  intros Ha Hfb. case_match; (split; [done|]; split; [done|]); [|apply map_Forall_empty].
  apply map_Forall_singleton, ones_sector.
Qed.

(** One disk, on a port that is running from before. *)
Definition boot_dev : sdev := mkDev (λ i, if i =? 0 then mkPort 4096 8192 Idle disk else mkPort 0 0 Stopped ∅) (λ _, true)
  (λ i, sample_port_wf 4096 8192 Idle i ltac:(done) ltac:(done)).
Definition boot_world : world sdev := mkWorld boot_dev Sample.m.

Lemma boot_world_ok : world_ok Sample.off boot_world.
Proof. split; [apply Sample.ok|]. intros j. cbn. by case_match. Qed.

Lemma configure_port_ready_witness :
  wp (configure_port max_polls boot_world 0 Sample.off) (λ w', port_ready w' 0 6 ∧ ps_disk (sp (dev w') 0) !! 5 = Some ones).
Proof.
  pose proof (configure_port_ready Sample.off boot_world 0 boot_world_ok) as Hc.
  assert (first_fit (mem_alloc (wmem boot_world)) 3 = Some 6) as E by (vm_compute; reflexivity). rewrite E in Hc.
  eapply wp_mono; [exact Hc|]. intros w' (_ & Hp & Hd & _). split; [exact Hp|]. cbn in Hd. rewrite Hd. done.
Defined.

(** The state after the set-up. *)
Definition ready_frames : BitmapFrameAllocator := mkAlloc [255; 1] [1; 1; 1; 1; 1; 2; 1; 1; 1; 0] 10 9.
Definition ready_ram : ram := <[24576 := splice 8 (le_bytes 8 28672) zero_frame]> Sample.memory.
Definition ready_dev : sdev := mkDev (λ i, if i =? 0 then mkPort 24576 25600 Idle disk else mkPort 0 0 Stopped ∅) (λ _, true)
  (λ i, sample_port_wf 24576 25600 Idle i ltac:(done) ltac:(done)).
Definition ready_world : world sdev := mkWorld ready_dev (mkMem ready_frames ready_ram).

Lemma ready_world_ok : world_ok Sample.off ready_world.
Proof.
  split; [|intros j; cbn; by case_match]. apply (mem_ok_frames Sample.off Sample.m); [apply Sample.ok|by apply wf_check_sound|done|].
  intros x (b & Hb & Hbb). unfold ready_ram. destruct (decide (x = 24576)) as [->|Hne]; [|exists b; by rewrite lookup_insert_ne].
  apply Sample.frame_okb_sound. vm_compute. reflexivity.
Qed.

Lemma ready_port : port_ready ready_world 0 6.
Proof.
  split; try done.
  - intros k Hk. assert (k = 0 ∨ k = 1 ∨ k = 2) as [-> |[-> | ->]] by lia; done.
  - exists (le_bytes 8 28672). split; [vm_compute; reflexivity|done].
Qed.

Lemma ahci_read_block_reads_witness :
  wp (ahci_read_block max_polls (Some Sample.off) ready_world 0 5 512) (λ '(res, w'), match res with Ok b => take 512 b = ones | Err e => e = IoFailure end).
Proof.
  eapply wp_mono; [apply (ahci_read_block_reads Sample.off ready_world 0 6 5 512); [apply ready_world_ok|apply ready_port|lia|lia|lia]|].
  intros [res w'] [_ Hres]. destruct res as [b|[]]; try done.
  - destruct Hres as (Hd & _). cbn in Hd. injection Hd as Hd. by rewrite <- Hd.
  - specialize (Hres 9 ltac:(vm_compute; split; congruence)). vm_compute in Hres. done.
Defined.

Lemma ahci_write_block_writes_witness :
  wp (ahci_write_block max_polls (Some Sample.off) ready_world 0 6 ones)
    (λ '(res, w'), match res with Ok _ => ps_disk (sp (dev w') 0) !! 6 = Some ones | Err e => e = IoFailure end).
Proof.
  eapply wp_mono; [apply (ahci_write_block_writes Sample.off ready_world 0 6 6 ones); [apply ready_world_ok|apply ready_port|lia|lia| | |apply ones_sector]|];
    [vm_compute; lia|vm_compute; congruence|].
  intros [res w'] [_ Hres]. destruct res as [b|[]]; try done.
  - destruct Hres as (rest & Hd & _). cbn in Hd. rewrite Hd. cbn. rewrite lookup_insert_eq. f_equal.
  - specialize (Hres 9 ltac:(vm_compute; split; congruence)). vm_compute in Hres. done.
Defined.
End AhciSample.
