(* ===== verification/Pci.v ===== *)
(** * The PCI bus (src/src/drivers/bus/pci.rs)

    The configuration space is reached through two I/O ports: the address port
    latches which 32-bit word of which function the data port serves.  The words
    themselves are hardware, the class [PciConfig].

    The theorems: the address that the driver composes selects the function and
    word it names; the scan finds exactly the functions that are present, in bus
    order; the bring-up takes the first SATA controller, writes to its command
    register only, and hands its register base to the AHCI driver. *)

From S2P Require Import Prelude.

#[local] Open Scope list_scope.

(** ** Ports *)

(** The configuration word of a (bus, device, function) at a byte offset. *)
Class PciConfig (C : Type) := {
  config_read : C → Z → Z → Z → Z → Z;
  config_write : C → Z → Z → Z → Z → Z → C;
}.

Definition PCI_CONFIG_ADDRESS_PORT : Z := 0xCF8.
Definition PCI_CONFIG_DATA_PORT : Z := 0xCFC.

Inductive Vendor := Intel | Amd | Nvidia | Qemu | UnknownVendor (id : Z).
#[export] Instance Vendor_eq_dec : EqDecision Vendor.
Proof. solve_decision. Defined.

Definition Vendor_new (id : Z) : Vendor :=
  if id =? 0x8086 then Intel
  else if id =? 0x1022 then Amd
  else if id =? 0x10DE then Nvidia
  else if id =? 0x1234 then Qemu
  else UnknownVendor id.

Definition is_valid (v : Vendor) : bool := match v with UnknownVendor id => negb (id =? 0xFFFF) | _ => true end.

Inductive DeviceType :=
| SataController | IdeController | EthernetController | VgaCompatibleController | HostBridge | IsaBridge
| UnknownDevice (base_class sub_class : Z).
#[export] Instance DeviceType_eq_dec : EqDecision DeviceType.
Proof. solve_decision. Defined.

Definition DeviceType_new (base_class sub_class : Z) : DeviceType :=
  match base_class, sub_class with
  | 0x01, 0x01 => IdeController
  | 0x01, 0x06 => SataController
  | 0x02, 0x00 => EthernetController
  | 0x03, 0x00 => VgaCompatibleController
  | 0x06, 0x00 => HostBridge
  | 0x06, 0x01 => IsaBridge
  | _, _ => UnknownDevice base_class sub_class
  end.

Record PciDevice := mkPci { bus : Z; device : Z; function : Z; vendor : Vendor; device_type : DeviceType }.

Section Driver.
Context `{HC : PciConfig C}.

(** The latch of the address port and the devices. *)
Record pci_io := mkIo { latch : Z; config : C }.
Implicit Types io : pci_io.

(** The host bridge: bit 31 enables the access; bits 23-16 select the bus, 15-11
    the device, 10-8 the function and 7-2 the word. *)
Definition selected (a : Z) : option (Z * Z * Z * Z) :=
  if Z.testbit a 31 then
    Some (Z.land (Z.shiftr a 16) 0xFF, Z.land (Z.shiftr a 11) 0x1F, Z.land (Z.shiftr a 8) 0x7, Z.land a 0xFC)
  else None.

Definition out32 io (port v : Z) : pci_io :=
  if port =? PCI_CONFIG_ADDRESS_PORT then mkIo v (config io)
  else if port =? PCI_CONFIG_DATA_PORT then
    match selected (latch io) with
    | Some (b, d, f, o) => mkIo (latch io) (config_write (config io) b d f o v)
    | None => io
    end
  else io.

Definition in32 io (port : Z) : Z :=
  if port =? PCI_CONFIG_ADDRESS_PORT then latch io
  else if port =? PCI_CONFIG_DATA_PORT then
    match selected (latch io) with Some (b, d, f, o) => config_read (config io) b d f o | None => 0xFFFFFFFF end
  else 0xFFFFFFFF.

(** ** The driver *)

Definition config_address (bus device func offset : Z) : Z :=
  Z.lor (Z.lor (Z.lor (Z.lor (Z.shiftl bus 16) (Z.shiftl device 11)) (Z.shiftl func 8)) (Z.land offset 0xFC)) 0x80000000.

Definition write_u32 io (bus device func offset value : Z) : pci_io :=
  let address := config_address bus device func offset in
  let io := out32 io PCI_CONFIG_ADDRESS_PORT address in
  out32 io PCI_CONFIG_DATA_PORT value.

Definition read_u32 io (bus device func offset : Z) : Z * pci_io :=
  let address := config_address bus device func offset in
  let io := out32 io PCI_CONFIG_ADDRESS_PORT address in
  (in32 io PCI_CONFIG_DATA_PORT, io).

Definition enable_mmio io (dev : PciDevice) : pci_io :=
  let '(command, io) := read_u32 io (bus dev) (device dev) (function dev) 0x04 in
  write_u32 io (bus dev) (device dev) (function dev) 0x04 (Z.lor command (Z.shiftl 1 1)).

Definition enable_bus_mastering io (dev : PciDevice) : pci_io :=
  let '(command, io) := read_u32 io (bus dev) (device dev) (function dev) 0x04 in
  write_u32 io (bus dev) (device dev) (function dev) 0x04 (Z.lor command (Z.shiftl 1 2)).

Definition get_bar5 io (dev : PciDevice) : Z * pci_io :=
  let '(bar_value, io) := read_u32 io (bus dev) (device dev) (function dev) 0x24 in
  (Z.land bar_value 0xFFFFFFF0, io).

Definition PciDevice_new io (bus device function : Z) : option PciDevice * pci_io :=
  let '(v, io) := read_u32 io bus device function 0x00 in
  let vendor_id := Z.land v 0xFFFF in
  let vendor := Vendor_new vendor_id in
  if negb (is_valid vendor) then (None, io) else
  let '(class_info, io) := read_u32 io bus device function 0x08 in
  let base_class := Z.land (Z.shiftr class_info 24) 0xFF in
  let sub_class := Z.land (Z.shiftr class_info 16) 0xFF in
  (Some (mkPci bus device function vendor (DeviceType_new base_class sub_class)), io).

Definition has_multiple_functions io (bus device : Z) : bool * pci_io :=
  let '(v, io) := read_u32 io bus device 0 0x0C in
  let header_type := Z.land (Z.shiftr v 16) 0xFF in
  (negb (Z.land header_type 0x80 =? 0), io).

(** The functions of one device. *)
Definition scan_function (bus device : Z) (function : Z) (st : list PciDevice * pci_io) : outcome (list PciDevice * pci_io) :=
  let '(devices, io) := st in
  let '(o, io) := PciDevice_new io bus device function in
  Ret (match o with Some func_dev => devices ++ [func_dev] | None => devices end, io).

Definition scan_device (bus : Z) (device : Z) (st : list PciDevice * pci_io) : outcome (list PciDevice * pci_io) :=
  let '(devices, io) := st in
  let '(o, io) := PciDevice_new io bus device 0 in
  match o with
  | None => Ret (devices, io)
  | Some _ =>
      let '(multiple_functions, io) := has_multiple_functions io bus device in
      let functions_to_check := if multiple_functions then 8 else 1 in
      each_range 0 functions_to_check (scan_function bus device) (devices, io)
  end.

Definition scan_pci_bus io : outcome (list PciDevice * pci_io) :=
  each_range 0 256 (λ bus st, each_range 0 32 (scan_device bus) st) ([], io).

(** [init]: [ahci_init] is the bring-up of the controller on the rest of the state. *)
Definition pci_init {S} (ahci_init : S → Z → outcome S) io (s : S) : outcome (option Z * pci_io * S) :=
  let* (pci_devices, io) := scan_pci_bus io in
  match find (λ dev, bool_decide (device_type dev = SataController)) pci_devices with
  | Some dev =>
      let '(bar5, io) := get_bar5 io dev in
      let io := enable_mmio io dev in
      let io := enable_bus_mastering io dev in
      s <- ahci_init s bar5;;
      Ret (Some bar5, io, s)
  | None => Ret (None, io, s)
  end.
End Driver.
Arguments pci_io : clear implicits.

(** ** Addresses *)

Section Addresses.
Lemma lor_low y n x : 0 ≤ n → 0 ≤ x < 2 ^ n → Z.lor (Z.shiftl y n) x = y * 2 ^ n + x.
Proof.
  intros Hn Hx. rewrite <- Z.lxor_lor; [rewrite <- Z.add_nocarry_lxor|]; rewrite ?Z.shiftl_mul_pow2 by done; try done;
    (apply Z.bits_inj'; intros k Hk; rewrite Z.land_spec, Z.bits_0; destruct (decide (k < n));
     [rewrite Z.mul_pow2_bits_low by lia; done|rewrite (bits_above n x) by lia; apply andb_false_r]).
Qed.

Lemma land_ldiff_r x y z : Z.land x (Z.ldiff y z) = Z.ldiff (Z.land x y) z.
Proof. apply Z.bits_inj'. intros k Hk. by rewrite Z.land_spec, !Z.ldiff_spec, Z.land_spec, andb_assoc by lia. Qed.

Lemma low_word o : 0 ≤ o < 256 → 0 ≤ Z.land o 0xFC < 256 ∧ Z.land o 0xFC mod 4 = 0.
Proof.
  intros Ho. assert (Z.land o 0xFC = o / 4 * 4) as ->; [|zlia]. change 0xFC with (Z.ldiff (Z.ones 8) 3).
  rewrite land_ldiff_r, Z.land_ones by lia. rewrite (Z.mod_small o) by lia. change 3 with (Z.ones 2). rewrite Z.ldiff_ones_r by lia.
  rewrite Z.shiftl_mul_pow2, Z.shiftr_div_pow2 by lia. done.
Qed.

Lemma config_address_sum b d f o : 0 ≤ b < 256 → 0 ≤ d < 32 → 0 ≤ f < 8 → 0 ≤ o < 256 →
  config_address b d f o = 2 ^ 31 + b * 2 ^ 16 + d * 2 ^ 11 + f * 2 ^ 8 + Z.land o 0xFC.
Proof.
  intros Hb Hd Hf Ho. destruct (low_word o Ho) as [Hw _]. unfold config_address.
  rewrite (lor_low b 16) by (rewrite ?Z.shiftl_mul_pow2; lia). rewrite Z.shiftl_mul_pow2 by lia.
  replace (b * 2 ^ 16 + d * 2 ^ 11) with ((b * 32 + d) * 2 ^ 11) by lia. rewrite <- Z.shiftl_mul_pow2 by lia.
  rewrite (lor_low (b * 32 + d) 11) by (rewrite ?Z.shiftl_mul_pow2; lia). rewrite Z.shiftl_mul_pow2 by lia.
  replace ((b * 32 + d) * 2 ^ 11 + f * 2 ^ 8) with (((b * 32 + d) * 8 + f) * 2 ^ 8) by lia. rewrite <- Z.shiftl_mul_pow2 by lia.
  rewrite (lor_low _ 8) by lia. rewrite Z.lor_comm. change 0x80000000 with (Z.shiftl 1 31). rewrite lor_low by lia. lia.
Qed.

(** The host bridge selects what the driver names. *)
Lemma selected_address b d f o : 0 ≤ b < 256 → 0 ≤ d < 32 → 0 ≤ f < 8 → 0 ≤ o < 256 →
  selected (config_address b d f o) = Some (b, d, f, Z.land o 0xFC).
Proof.
  intros Hb Hd Hf Ho. destruct (low_word o Ho) as [Hw Hw4]. rewrite config_address_sum by done. set (w := Z.land o 0xFC) in *. unfold selected.
  set (a := 2 ^ 31 + b * 2 ^ 16 + d * 2 ^ 11 + f * 2 ^ 8 + w).
  assert (Z.testbit a 31 = true) as ->.
  { rewrite Z.testbit_true by lia. unfold a. clear -Hb Hd Hf Hw. change (2 ^ 31) with 2147483648. change (2 ^ 16) with 65536.
    change (2 ^ 11) with 2048. change (2 ^ 8) with 256. zlia. }
  change 0xFF with (Z.ones 8). change 0x1F with (Z.ones 5). change 0x7 with (Z.ones 3). change 0xFC with (Z.ldiff (Z.ones 8) (Z.ones 2)).
  rewrite land_ldiff_r, !Z.land_ones, Z.ldiff_ones_r, Z.shiftl_mul_pow2, !Z.shiftr_div_pow2 by lia. unfold a. clear a. clearbody w.
  change (2 ^ 31) with 2147483648. change (2 ^ 16) with 65536. change (2 ^ 11) with 2048. change (2 ^ 8) with 256. change (2 ^ 5) with 32. change (2 ^ 3) with 8. change (2 ^ 2) with 4.
  f_equal. repeat f_equal; zlia.
Qed.
End Addresses.

Section Reads.
Context `{HC : PciConfig C}.
Implicit Types io : pci_io C.

Lemma read_u32_eq io b d f o : 0 ≤ b < 256 → 0 ≤ d < 32 → 0 ≤ f < 8 → 0 ≤ o < 256 →
  ∃ a, read_u32 io b d f o = (config_read (config io) b d f (Z.land o 0xFC), mkIo a (config io)).
Proof. intros Hb Hd Hf Ho. exists (config_address b d f o). unfold read_u32, in32, out32. cbn. by rewrite selected_address. Qed.

Lemma write_u32_eq io b d f o v : 0 ≤ b < 256 → 0 ≤ d < 32 → 0 ≤ f < 8 → 0 ≤ o < 256 →
  ∃ a, write_u32 io b d f o v = mkIo a (config_write (config io) b d f (Z.land o 0xFC) v).
Proof. intros Hb Hd Hf Ho. exists (config_address b d f o). unfold write_u32, out32. cbn. by rewrite selected_address. Qed.

(** ** What is on the bus *)

(** The function at an address, from its identification words. *)
Definition function_at (c : C) (b d f : Z) : option PciDevice :=
  if negb (is_valid (Vendor_new (Z.land (config_read c b d f 0) 0xFFFF))) then None else
  Some (mkPci b d f (Vendor_new (Z.land (config_read c b d f 0) 0xFFFF))
    (DeviceType_new (Z.land (Z.shiftr (config_read c b d f 8) 24) 0xFF) (Z.land (Z.shiftr (config_read c b d f 8) 16) 0xFF))).

Definition multifunction (c : C) (b d : Z) : bool := Z.testbit (config_read c b d 0 0x0C) 23.

(** A function exists when function 0 of its device does, and it is function 0 or
    the device says that it has several. *)
Definition functions_of (c : C) (b d : Z) : list PciDevice :=
  match function_at c b d 0 with
  | None => []
  | Some _ => omap (function_at c b d) (seqZ 0 (if multifunction c b d then 8 else 1))
  end.

Definition functions_on (c : C) : list PciDevice :=
  concat (map (λ b, concat (map (functions_of c b) (seqZ 0 32))) (seqZ 0 256)).

Lemma PciDevice_new_eq io b d f : 0 ≤ b < 256 → 0 ≤ d < 32 → 0 ≤ f < 8 →
  ∃ a, PciDevice_new io b d f = (function_at (config io) b d f, mkIo a (config io)).
Proof.
  intros Hb Hd Hf. unfold PciDevice_new, function_at. destruct (read_u32_eq io b d f 0) as [a1 E1]; [done|done|done|lia|]. rewrite E1.
  change (Z.land 0 0xFC) with 0. case_match; [by eexists|]. destruct (read_u32_eq (mkIo a1 (config io)) b d f 8) as [a2 E2]; [done|done|done|lia|].
  rewrite E2. change (Z.land 8 0xFC) with 8. by eexists.
Qed.

Lemma has_multiple_functions_eq io b d : 0 ≤ b < 256 → 0 ≤ d < 32 →
  ∃ a, has_multiple_functions io b d = (multifunction (config io) b d, mkIo a (config io)).
Proof.
  intros Hb Hd. unfold has_multiple_functions, multifunction. destruct (read_u32_eq io b d 0 0x0C) as [a E]; [done|done|lia|lia|]. rewrite E.
  exists a. f_equal. change (Z.land 12 0xFC) with 12. set (v := config_read _ _ _ _ _). change 0x80 with (Z.shiftl 1 7).
  rewrite mask_test by lia. rewrite negb_involutive, Z.land_spec, Z.shiftr_spec by lia. apply andb_true_r.
Qed.

(** A loop that appends what it finds. *)
Lemma scan_loop {A} (n : Z) (found : Z → list A) (body : Z → list A * pci_io C → outcome (list A * pci_io C)) l io : 0 ≤ n →
  (∀ i st, 0 ≤ i < n → config st.2 = config io → wp (body i st) (λ st', st'.1 = st.1 ++ found i ∧ config st'.2 = config io)) →
  wp (each_range 0 n body (l, io)) (λ st', st'.1 = l ++ concat (map found (seqZ 0 n)) ∧ config st'.2 = config io).
Proof.
  intros Hn Hb. eapply wp_mono; [apply (wp_each_range (λ i st, st.1 = l ++ concat (map found (seqZ 0 i)) ∧ config st.2 = config io))|].
  - cbn. by rewrite app_nil_r.
  - intros i st Hi [Hl Hc]. eapply wp_mono; [by apply Hb|]. intros st' [Hl' Hc']. split; [|done].
    rewrite Hl', Hl, <- app_assoc. f_equal. rewrite seqZ_app, map_app, concat_app by lia.
    f_equal. assert (seqZ (0 + i) 1 = [i]) as -> by (unfold seqZ; cbn; f_equal; lia). cbn. by rewrite app_nil_r.
  - cbv beta. intros st'. by rewrite Z.max_r by lia.
Qed.

Lemma scan_device_finds b d st : 0 ≤ b < 256 → 0 ≤ d < 32 →
  wp (scan_device b d st) (λ st', st'.1 = st.1 ++ functions_of (config st.2) b d ∧ config st'.2 = config st.2).
Proof.
  intros Hb Hd. destruct st as [l io]. cbn [fst snd]. unfold scan_device, functions_of.
  destruct (PciDevice_new_eq io b d 0) as [a E]; [done|done|lia|]. rewrite E. destruct (function_at (config io) b d 0); [|wp_step; by rewrite app_nil_r].
  destruct (has_multiple_functions_eq (mkIo a (config io)) b d) as [a2 E2]; [done|done|]. rewrite E2. cbn [config].
  set (n := if multifunction (config io) b d then 8 else 1). assert (0 ≤ n ≤ 8) as Hn by (unfold n; case_match; lia).
  eapply wp_mono; [apply (scan_loop n (λ f, option_list (function_at (config io) b d f)) (scan_function b d)); [lia|]|].
  - intros f [l' io'] Hf Hc. cbn [snd config] in Hc. unfold scan_function. destruct (PciDevice_new_eq io' b d f) as [a3 E3]; [done|done|lia|]. rewrite E3, Hc.
    wp_step. cbn. split; [|done]. destruct (function_at (config io) b d f); [done|by rewrite app_nil_r].
  - intros st' [Hl Hc]. cbn [config] in Hc. split; [|done]. rewrite Hl. f_equal. generalize (seqZ 0 n). induction l0 as [|f fs IH]; [done|].
    cbn. destruct (function_at (config io) b d f); cbn; by rewrite IH.
Qed.

Lemma scan_finds io : wp (scan_pci_bus io) (λ '(devices, io'), devices = functions_on (config io) ∧ config io' = config io).
Proof.
  eapply wp_mono; [apply (scan_loop 256 (λ b, concat (map (functions_of (config io) b) (seqZ 0 32)))); [lia|]|].
  - intros b [l io1] Hb Hc. cbn [snd] in Hc. eapply wp_mono; [apply (scan_loop 32 (functions_of (config io) b)); [lia|]|].
    + intros d st Hd Hc2. eapply wp_mono; [by apply scan_device_finds|]. intros st' [H1 H2]. rewrite H2, H1, Hc2, Hc. done.
    + intros st' [H1 H2]. by rewrite H2.
  - intros [l io'] [H1 H2]. rewrite app_nil_l in H1. unfold functions_on. split; assumption.
Qed.

(** The functions that answer, by address. *)
Definition answers (c : C) (b d f : Z) (x : PciDevice) : Prop :=
  (0 ≤ b < 256 ∧ 0 ≤ d < 32 ∧ 0 ≤ f < 8) ∧ function_at c b d f = Some x ∧ is_Some (function_at c b d 0)
  ∧ (f = 0 ∨ multifunction c b d = true).

Lemma elem_of_functions_of c b d x : x ∈ functions_of c b d ↔ ∃ f, 0 ≤ f < 8 ∧ function_at c b d f = Some x ∧ is_Some (function_at c b d 0)
  ∧ (f = 0 ∨ multifunction c b d = true).
Proof.
  unfold functions_of. destruct (function_at c b d 0) as [y|] eqn:E0.
  - rewrite list_elem_of_omap. setoid_rewrite elem_of_seqZ. split.
    + intros (f & Hf & Hx). exists f. split; [case_match; lia|]. split; [done|]. split; [done|]. destruct (multifunction c b d); [by right|left; lia].
    + intros (f & Hf & Hx & _ & Hm). exists f. split; [|done]. destruct Hm as [->|Hm]; [case_match; lia|rewrite Hm; lia].
  - split; [intros Hx; by apply elem_of_nil in Hx|]. intros (f & _ & _ & [? ?] & _). done.
Qed.

Lemma elem_of_functions_on c x : x ∈ functions_on c ↔ ∃ b d f, answers c b d f x.
Proof.
  unfold functions_on, answers. rewrite list_elem_of_In, in_concat. split.
  - intros (l & (b & <- & Hb)%in_map_iff & (l2 & (d & <- & Hd)%in_map_iff & Hx)%in_concat).
    apply list_elem_of_In, elem_of_seqZ in Hb, Hd. apply list_elem_of_In, elem_of_functions_of in Hx as (f & Hf & Hx). exists b, d, f. split; [lia|done].
  - intros (b & d & f & (Hb & Hd & Hf) & Hx). eexists. split; [apply in_map_iff; exists b; split; [done|apply list_elem_of_In, elem_of_seqZ; lia]|].
    apply in_concat. eexists. split; [apply in_map_iff; exists d; split; [done|apply list_elem_of_In, elem_of_seqZ; lia]|].
    apply list_elem_of_In, elem_of_functions_of. by exists f.
Qed.

(** The scan of the bus returns, changes nothing in the configuration space, and
    finds exactly the functions that answer: those whose vendor word is not all
    ones, with function 0 present, and of functions other than 0 only those of
    devices that declare several; they are listed by bus, device and function. *)
Theorem scan_pci_bus_exact io :
  wp (scan_pci_bus io) (λ '(devices, io'), config io' = config io ∧ devices = functions_on (config io)
    ∧ ∀ x, x ∈ devices ↔ ∃ b d f, answers (config io) b d f x).
Proof.
  eapply wp_mono; [apply scan_finds|]. intros [devices io'] [-> Hc]. split; [done|]. split; [done|]. apply elem_of_functions_on.
Qed.

(** The command register of a function with more bits set. *)
Definition set_command (c : C) (dev : PciDevice) (bits : Z) : C :=
  config_write c (bus dev) (device dev) (function dev) 4 (Z.lor (config_read c (bus dev) (device dev) (function dev) 4) bits).

Definition sata_of (c : C) : option PciDevice := find (λ dev, bool_decide (device_type dev = SataController)) (functions_on c).

Lemma function_at_fields c b d f x : function_at c b d f = Some x → bus x = b ∧ device x = d ∧ function x = f.
Proof.
  unfold function_at. destruct (negb _); [done|]. intros Hx.
  pose proof (f_equal (from_option bus 0) Hx). pose proof (f_equal (from_option device 0) Hx). pose proof (f_equal (from_option function 0) Hx). auto.
Qed.

Lemma sata_address c dev : sata_of c = Some dev → 0 ≤ bus dev < 256 ∧ 0 ≤ device dev < 32 ∧ 0 ≤ function dev < 8.
Proof.
  unfold sata_of. intros [Hin _]%find_some. apply list_elem_of_In, elem_of_functions_on in Hin as (b & d & f & Hr & Hx & _).
  by apply function_at_fields in Hx as (-> & -> & ->).
Qed.

Lemma set_command_eq io dev bits : 0 ≤ bus dev < 256 → 0 ≤ device dev < 32 → 0 ≤ function dev < 8 →
  ∃ a, (let '(command, io) := read_u32 io (bus dev) (device dev) (function dev) 4 in
        write_u32 io (bus dev) (device dev) (function dev) 4 (Z.lor command bits)) = mkIo a (set_command (config io) dev bits).
Proof.
  intros Hb Hd Hf. destruct (read_u32_eq io (bus dev) (device dev) (function dev) 4) as [a1 ->]; [done|done|done|lia|].
  destruct (write_u32_eq (mkIo a1 (config io)) (bus dev) (device dev) (function dev) 4
    (Z.lor (config_read (config io) (bus dev) (device dev) (function dev) (Z.land 4 0xFC)) bits)) as [a2 ->]; [done|done|done|lia|]. by exists a2.
Qed.

(** The bring-up of the bus: without a SATA controller nothing is written.
    Otherwise the first one in bus order gets its memory space and then its bus
    mastering enabled, by setting these two bits of its command register, no other
    register is written, and only then is the AHCI driver started, with the address
    in BAR5 without its four flag bits, which is also the result. *)
Theorem pci_init_starts {S} (ahci_init : S → Z → outcome S) io s :
  match sata_of (config io) with
  | None => ∃ a, pci_init ahci_init io s = Ret (None, mkIo a (config io), s)
  | Some dev =>
      let bar5 := Z.land (config_read (config io) (bus dev) (device dev) (function dev) 0x24) 0xFFFFFFF0 in
      ∃ a, pci_init ahci_init io s
        = (s' <- ahci_init s bar5;; Ret (Some bar5, mkIo a (set_command (set_command (config io) dev 2) dev 4), s'))
  end.
Proof.
  unfold pci_init. pose proof (scan_finds io) as Hs. destruct (scan_pci_bus io) as [[devices io1]|]; [|done]. cbn [wp obind] in *. destruct Hs as [-> Hc].
  fold (sata_of (config io)). destruct (sata_of (config io)) as [dev|] eqn:E; [|exists (latch io1); destruct io1; cbn in *; by subst].
  destruct (sata_address _ _ E) as (Hb & Hd & Hf). unfold get_bar5. destruct (read_u32_eq io1 (bus dev) (device dev) (function dev) 0x24) as [a1 ->]; [done|done|done|lia|].
  rewrite Hc. unfold enable_mmio, enable_bus_mastering. change (Z.shiftl 1 1) with 2. change (Z.shiftl 1 2) with 4.
  destruct (set_command_eq (mkIo a1 (config io)) dev 2 Hb Hd Hf) as [a2 ->]. cbn [config].
  destruct (set_command_eq (mkIo a2 (set_command (config io) dev 2)) dev 4 Hb Hd Hf) as [a3 ->]. by exists a3.
Qed.
End Reads.
