(* ===== verification/Str.v ===== *)
(** * Strings as the kernel uses them

    A Rust [&str] is a sequence of Unicode scalar values, here a list of their
    code points.  The file models the parts of the standard library the
    filesystem code calls: [core::str::from_utf8], [str::trim],
    [usize::from_str_radix] in base 8, [str::split], [trim_start_matches],
    [eq_ignore_ascii_case], [char::encode_utf8] and [str::as_bytes]. *)

From S2P Require Import Prelude.

#[local] Open Scope list_scope.

Abbreviation str := (list Z).

(** ** UTF-8 *)

Definition in_range (lo hi b : Z) : bool := (lo <=? b) && (b <=? hi).
Definition cont (b : Z) : bool := in_range 0x80 0xBF b.

(** The second byte a three- or four-byte sequence allows after its first. *)
Definition second3 (b0 b1 : Z) : bool :=
  if b0 =? 0xE0 then in_range 0xA0 0xBF b1
  else if b0 =? 0xED then in_range 0x80 0x9F b1 else cont b1.
Definition second4 (b0 b1 : Z) : bool :=
  if b0 =? 0xF0 then in_range 0x90 0xBF b1
  else if b0 =? 0xF4 then in_range 0x80 0x8F b1 else cont b1.

(** [core::str::from_utf8], as the decoded code points. *)
Fixpoint from_utf8 (l : list Z) : option str :=
  match l with
  | [] => Some []
  | b0 :: t =>
      if b0 <? 0x80 then cons b0 <$> from_utf8 t
      else
        match t with
        | [] => None
        | b1 :: t1 =>
            if in_range 0xC2 0xDF b0 then
              if cont b1 then cons ((b0 - 0xC0) * 64 + (b1 - 0x80)) <$> from_utf8 t1 else None
            else
              match t1 with
              | [] => None
              | b2 :: t2 =>
                  if in_range 0xE0 0xEF b0 then
                    if second3 b0 b1 && cont b2
                    then cons (((b0 - 0xE0) * 64 + (b1 - 0x80)) * 64 + (b2 - 0x80)) <$> from_utf8 t2
                    else None
                  else
                    match t2 with
                    | [] => None
                    | b3 :: t3 =>
                        if in_range 0xF0 0xF4 b0 && second4 b0 b1 && cont b2 && cont b3
                        then cons ((((b0 - 0xF0) * 64 + (b1 - 0x80)) * 64 + (b2 - 0x80)) * 64 + (b3 - 0x80))
                               <$> from_utf8 t3
                        else None
                    end
              end
        end
  end.

(** [char::encode_utf8] and [str::as_bytes]. *)
Definition encode_utf8 (c : Z) : list Z :=
  if c <? 0x80 then [c]
  else if c <? 0x800 then [0xC0 + c / 64; 0x80 + c mod 64]
  else if c <? 0x10000 then [0xE0 + c / 4096; 0x80 + c / 64 mod 64; 0x80 + c mod 64]
  else [0xF0 + c / 262144; 0x80 + c / 4096 mod 64; 0x80 + c / 64 mod 64; 0x80 + c mod 64].

Definition as_bytes (s : str) : list Z := concat (map encode_utf8 s).

(** A string literal. *)
Fixpoint lit (s : string) : str :=
  match s with
  | EmptyString => []
  | String c s => Z.of_N (Ascii.N_of_ascii c) :: lit s
  end.

(** ** Trimming *)

(** [char::is_whitespace]. *)
Definition is_whitespace (c : Z) : bool :=
  in_range 9 13 c || (c =? 32) || (c =? 0x85) || (c =? 0xA0) || (c =? 0x1680)
  || in_range 0x2000 0x200A c || (c =? 0x2028) || (c =? 0x2029) || (c =? 0x202F)
  || (c =? 0x205F) || (c =? 0x3000).

Fixpoint trim_start_with (p : Z → bool) (s : str) : str :=
  match s with
  | c :: t => if p c then trim_start_with p t else s
  | [] => []
  end.

Definition trim (s : str) : str :=
  rev (trim_start_with is_whitespace (rev (trim_start_with is_whitespace s))).

Definition SLASH : Z := 47.
Definition trim_start_slashes (s : str) : str := trim_start_with (λ c, c =? SLASH) s.

(** ** Octal numbers *)

(** The value of the digits, [None] on a non-digit or an overflow of 64 bits. *)
Fixpoint octal_digits (s : str) (acc : Z) : option Z :=
  match s with
  | [] => Some acc
  | c :: t =>
      if in_range 48 55 c then
        let acc := acc * 8 + (c - 48) in
        if acc <? 2 ^ 64 then octal_digits t acc else None
      else None
  end.

(** [usize::from_str_radix(s, 8).ok()]: an optional [+], then at least one
    digit. *)
Definition from_str_radix_8 (s : str) : option Z :=
  match s with
  | [] => None
  | c :: t =>
      if c =? 43 then match t with [] => None | _ => octal_digits t 0 end
      else octal_digits s 0
  end.

(** ** Splitting *)

(** [s.split('/')]. *)
Fixpoint split_slash (s : str) : list str :=
  match s with
  | [] => [[]]
  | c :: t =>
      if c =? SLASH then [] :: split_slash t
      else match split_slash t with
           | p :: ps => (c :: p) :: ps
           | [] => [[c]]
           end
  end.

(** [path.split('/').filter(|p| !p.is_empty())]. *)
Definition components (s : str) : list str :=
  filter (λ p, p ≠ []) (split_slash s).

(** ** Case *)

Definition to_ascii_lowercase (c : Z) : Z := if in_range 65 90 c then c + 32 else c.
Definition eq_ignore_ascii_case (s1 s2 : str) : bool :=
  bool_decide (map to_ascii_lowercase s1 = map to_ascii_lowercase s2).

(** ** Lemmas *)

Definition is_ascii (c : Z) : Prop := 0 ≤ c < 0x80.

Lemma from_utf8_ascii s : Forall is_ascii s → from_utf8 s = Some s.
Proof.
  induction 1 as [|c s Hc _ IH]; [done|]. unfold is_ascii in Hc. cbn [from_utf8].
  rewrite (proj2 (Z.ltb_lt _ _)) by lia. by rewrite IH.
Qed.

Lemma as_bytes_ascii s : Forall is_ascii s → as_bytes s = s.
Proof.
  induction 1 as [|c s Hc _ IH]; [done|]. unfold is_ascii in Hc. unfold as_bytes in *. cbn [map concat].
  rewrite IH. unfold encode_utf8. by rewrite (proj2 (Z.ltb_lt _ _)) by lia.
Qed.

(** A Unicode scalar value. *)
Definition scalar (c : Z) : Prop := 0 ≤ c < 0xD800 ∨ 0xE000 ≤ c < 0x110000.

Lemma in_range_true lo hi b : lo ≤ b ≤ hi → in_range lo hi b = true.
Proof. unfold in_range. intros. apply andb_true_iff. split; apply Z.leb_le; lia. Qed.

Lemma in_range_false lo hi b : b < lo ∨ hi < b → in_range lo hi b = false.
Proof. unfold in_range. intros. apply andb_false_iff. destruct H; [left|right]; apply Z.leb_gt; lia. Qed.

Lemma decode_encode c l : scalar c → from_utf8 (encode_utf8 c ++ l) = cons c <$> from_utf8 l.
Proof.
  unfold scalar, encode_utf8. intros Hc. destruct (Z.ltb_spec c 0x80); [|destruct (Z.ltb_spec c 0x800)].
  - cbn [app from_utf8]. by rewrite (proj2 (Z.ltb_lt c 0x80)).
  - cbn [app from_utf8]. rewrite (proj2 (Z.ltb_ge _ 0x80)) by zlia. unfold cont.
    rewrite !in_range_true by zlia. do 2 f_equal. zlia.
  - destruct (Z.ltb_spec c 0x10000); cbn [app from_utf8]; rewrite (proj2 (Z.ltb_ge _ 0x80)) by zlia.
    + rewrite (in_range_false 0xC2), (in_range_true 0xE0) by zlia. unfold second3, cont.
      rewrite (in_range_true 0x80 0xBF (0x80 + c mod 64)) by zlia.
      destruct (Z.eqb_spec (0xE0 + c / 4096) 0xE0); [|destruct (Z.eqb_spec (0xE0 + c / 4096) 0xED)];
        rewrite in_range_true by zlia; cbn [andb]; do 2 f_equal; zlia.
    + rewrite (in_range_false 0xC2), (in_range_false 0xE0), (in_range_true 0xF0) by zlia. unfold second4, cont.
      rewrite (in_range_true 0x80 0xBF (0x80 + c mod 64)), (in_range_true 0x80 0xBF (0x80 + c / 64 mod 64)) by zlia.
      destruct (Z.eqb_spec (0xF0 + c / 262144) 0xF0); [|destruct (Z.eqb_spec (0xF0 + c / 262144) 0xF4)];
        rewrite in_range_true by zlia; cbn [andb]; do 2 f_equal; zlia.
Qed.

Lemma from_utf8_as_bytes s : Forall scalar s → from_utf8 (as_bytes s) = Some s.
Proof.
  induction 1 as [|c s Hc _ IH]; [done|]. unfold as_bytes in *. cbn [map concat]. by rewrite decode_encode, IH.
Qed.

(** Decoding loses nothing. *)
Lemma as_bytes_from_utf8 n : ∀ l s, (length l ≤ n)%nat → from_utf8 l = Some s → as_bytes s = l.
Proof.
  induction n as [|n IH]; intros l s Hl; (destruct l as [|b0 t]; [by intros [= <-]|]); cbn [length] in Hl; [lia|].
  assert (∀ c bs t, (length t ≤ n)%nat → encode_utf8 c = bs → cons c <$> from_utf8 t = Some s → as_bytes s = bs ++ t) as Hgo.
  { intros c bs u Hu <- E. destruct (from_utf8 u) as [s'|] eqn:Eu; [|done]. cbn in E. injection E as <-.
    unfold as_bytes. cbn [map concat]. f_equal. by apply (IH u). }
  assert (∀ b, cont b = true ↔ 0x80 ≤ b ≤ 0xBF) as Hcont by (intros b; unfold cont, in_range; lia).
  cbn [from_utf8]. destruct (Z.ltb_spec b0 0x80).
  { apply (Hgo b0 [b0] t); [lia|]. unfold encode_utf8. by rewrite (proj2 (Z.ltb_lt _ _)). }
  destruct t as [|b1 t1]; [done|]. cbn [length] in Hl. destruct (in_range 0xC2 0xDF b0) eqn:E2.
  { destruct (cont b1) eqn:Ec1; [|done]. apply Hcont in Ec1. apply (Hgo _ [b0; b1] t1); [lia|]. unfold in_range in E2.
    unfold encode_utf8. rewrite (proj2 (Z.ltb_ge _ _)), (proj2 (Z.ltb_lt _ _)) by lia. repeat f_equal; zlia. }
  destruct t1 as [|b2 t2]; [done|]. cbn [length] in Hl. destruct (in_range 0xE0 0xEF b0) eqn:E3.
  { destruct (second3 b0 b1) eqn:Es; [|done]. destruct (cont b2) eqn:Ec2; [|done]. apply Hcont in Ec2.
    cbn [andb]. apply (Hgo _ [b0; b1; b2] t2); [lia|].
    assert (0x80 ≤ b1 ≤ 0xBF ∧ (b0 = 0xE0 → 0xA0 ≤ b1)) as [Hb1 Hb0].
    { unfold second3, cont, in_range in *. destruct (Z.eqb_spec b0 0xE0); [lia|]. destruct (Z.eqb_spec b0 0xED); lia. }
    unfold in_range in E3. unfold encode_utf8. rewrite (proj2 (Z.ltb_ge _ _)), (proj2 (Z.ltb_ge _ _)), (proj2 (Z.ltb_lt _ _)) by lia.
    repeat f_equal; zlia. }
  destruct t2 as [|b3 t3]; [done|]. cbn [length] in Hl. destruct (in_range 0xF0 0xF4 b0) eqn:E4; [|done].
  destruct (second4 b0 b1) eqn:Es; [|done]. destruct (cont b2) eqn:Ec2; [|done]. destruct (cont b3) eqn:Ec3; [|done].
  apply Hcont in Ec2, Ec3. cbn [andb]. apply (Hgo _ [b0; b1; b2; b3] t3); [lia|].
  assert (0x80 ≤ b1 ≤ 0xBF ∧ (b0 = 0xF0 → 0x90 ≤ b1)) as [Hb1 Hb0].
  { unfold second4, cont, in_range in *. destruct (Z.eqb_spec b0 0xF0); [lia|]. destruct (Z.eqb_spec b0 0xF4); lia. }
  unfold in_range in E4. unfold encode_utf8. rewrite !(proj2 (Z.ltb_ge _ _)) by lia. repeat f_equal; zlia.
Qed.

Lemma trim_start_with_none p s : (∀ c, c ∈ s → p c = false) → trim_start_with p s = s.
Proof. intros Hp. destruct s as [|c s]; [done|]. simpl. by rewrite (Hp c) by left. Qed.

Lemma trim_none s : (∀ c, c ∈ s → is_whitespace c = false) → trim s = s.
Proof.
  intros Hp. unfold trim. rewrite (trim_start_with_none _ s) by done.
  rewrite trim_start_with_none; [apply rev_involutive|].
  intros c Hc. apply Hp. apply list_elem_of_In. apply in_rev. by apply list_elem_of_In.
Qed.

(** The [n] octal digits of [x], most significant first. *)
Fixpoint octal (n : nat) (x : Z) : str :=
  match n with
  | O => []
  | S n' => octal n' (x / 8) ++ [48 + x mod 8]
  end.

Lemma length_octal n x : length (octal n x) = n.
Proof. revert x. induction n; intros x; simpl; [done|]. rewrite length_app, IHn. simpl. lia. Qed.

Lemma octal_range n x : Forall (λ c, 48 ≤ c ≤ 55) (octal n x).
Proof.
  revert x. induction n as [|n IH]; intros x; simpl; [constructor|].
  apply Forall_app. split; [done|]. constructor; [zlia|constructor].
Qed.

Lemma octal_digits_app s1 s2 acc : octal_digits (s1 ++ s2) acc =
  match octal_digits s1 acc with Some a => octal_digits s2 a | None => None end.
Proof.
  revert acc. induction s1 as [|c s1 IH]; intros acc; simpl; [done|].
  destruct (in_range 48 55 c); [|done]. destruct (_ <? _); [apply IH|done].
Qed.

Lemma octal_digits_octal n x : 0 ≤ x < 8 ^ Z.of_nat n → x < 2 ^ 64 → octal_digits (octal n x) 0 = Some x.
Proof.
  revert x. induction n as [|n IH]; intros x Hx Hm.
  { change (8 ^ Z.of_nat 0) with 1 in Hx. simpl. f_equal. lia. }
  replace (Z.of_nat (S n)) with (Z.of_nat n + 1) in Hx by lia. rewrite Z.pow_add_r in Hx by lia.
  cbn [octal]. rewrite octal_digits_app, IH by zlia. cbn [octal_digits].
  unfold in_range. rewrite (proj2 (Z.leb_le _ _)), (proj2 (Z.leb_le _ _)) by zlia. cbn [andb].
  rewrite (proj2 (Z.ltb_lt _ _)) by zlia. f_equal. zlia.
Qed.

(** The size field of a TAR header. *)
Lemma from_str_radix_octal n x : (0 < n)%nat → 0 ≤ x < 8 ^ Z.of_nat n → x < 2 ^ 64 →
  from_str_radix_8 (octal n x) = Some x.
Proof.
  intros Hn Hx Hm. unfold from_str_radix_8. pose proof (length_octal n x) as Hl.
  pose proof (octal_range n x) as Hr. pose proof (octal_digits_octal n x Hx Hm) as Hd.
  destruct (octal n x) as [|c s]; [simpl in Hl; lia|]. inversion_clear Hr.
  by rewrite (proj2 (Z.eqb_neq _ _)) by lia.
Qed.

Lemma trim_octal n x : trim (octal n x) = octal n x.
Proof.
  apply trim_none. intros c Hc. pose proof (proj1 (Forall_forall _ _) (octal_range n x) c Hc) as Hr.
  cbv beta in Hr. unfold is_whitespace, in_range. lia.
Qed.

(** Splitting a name that has no slash. *)
Lemma split_slash_none s : SLASH ∉ s → split_slash s = [s].
Proof.
  induction s as [|c s IH]; intros Hs; [done|]. apply not_elem_of_cons in Hs as [Hc Hs]. simpl.
  rewrite (proj2 (Z.eqb_neq _ _)) by congruence. by rewrite IH.
Qed.

Lemma split_slash_no_slash s : Forall (λ p, SLASH ∉ p) (split_slash s).
Proof.
  induction s as [|c s IH]; simpl; [constructor; [apply not_elem_of_nil|constructor]|].
  destruct (Z.eqb_spec c SLASH); [constructor; [apply not_elem_of_nil|done]|].
  inversion IH as [|p ps Hp Hps Heq]; subst; constructor; try done; apply not_elem_of_cons; split; auto.
  apply not_elem_of_nil.
Qed.

Lemma split_slash_app s1 s2 :
  split_slash (s1 ++ SLASH :: s2) = split_slash s1 ++ split_slash s2.
Proof.
  induction s1 as [|c s1 IH]; simpl; [done|]. rewrite IH.
  destruct (c =? SLASH); [done|]. destruct (split_slash s1) eqn:E; [|done].
  exfalso. by destruct s1; simpl in E; repeat case_match.
Qed.

(** The components of a path built from two paths. *)
Lemma components_app s1 s2 : components (s1 ++ SLASH :: s2) = components s1 ++ components s2.
Proof. unfold components. by rewrite split_slash_app, filter_app. Qed.

Lemma components_no_slash s : Forall (λ p, (SLASH ∉ p) ∧ p ≠ []) (components s).
Proof.
  apply Forall_forall. intros p [Hne Hp]%list_elem_of_filter. split; [|done].
  exact (proj1 (Forall_forall _ _) (split_slash_no_slash s) p Hp).
Qed.

Lemma components_name s : SLASH ∉ s → s ≠ [] → components s = [s].
Proof. intros Hs Hne. unfold components. rewrite split_slash_none by done. by rewrite filter_cons_True. Qed.

(** Bounds on what a fixed number of bytes can parse to. *)
Lemma length_from_utf8 n : ∀ l s, (length l ≤ n)%nat → from_utf8 l = Some s → (length s ≤ length l)%nat.
Proof.
  induction n as [|n IH]; intros l s Hl Hs; (destruct l as [|b0 t]; simpl in Hl; [by simplify_eq/=|]); [lia|].
  assert (∀ c u r, (length u ≤ n)%nat → cons c <$> from_utf8 u = Some r → (length r ≤ S (length u))%nat) as Hc.
  { intros c u r Hu Hr. destruct (from_utf8 u) as [w|] eqn:E; simplify_eq/=. apply IH in E; lia. }
  cbn [from_utf8] in Hs. repeat case_match; try done; subst; simpl in *;
    apply Hc in Hs; lia.
Qed.

Lemma length_trim_start_with p s : (length (trim_start_with p s) ≤ length s)%nat.
Proof. induction s as [|c s IH]; simpl; [done|]. case_match; simpl; lia. Qed.

Lemma length_trim s : (length (trim s) ≤ length s)%nat.
Proof.
  unfold trim. rewrite length_rev.
  etransitivity; [apply length_trim_start_with|]. rewrite length_rev. apply length_trim_start_with.
Qed.

Lemma octal_digits_bound s : ∀ acc x, 0 ≤ acc → octal_digits s acc = Some x →
  0 ≤ x < (acc + 1) * 8 ^ Z.of_nat (length s).
Proof.
  induction s as [|c s IH]; intros acc x Ha Hx; simpl in Hx; [simplify_eq; simpl; lia|].
  destruct (in_range 48 55 c) eqn:Hc; [|done]. destruct (_ <? _); [|done]. unfold in_range in Hc.
  apply IH in Hx; [|lia]. cbn [length]. rewrite Nat2Z.inj_succ, Z.pow_succ_r by lia.
  assert (0 < 8 ^ Z.of_nat (length s)) by (apply Z.pow_pos_nonneg; lia). nia.
Qed.

Lemma from_str_radix_8_bound s x : from_str_radix_8 s = Some x → 0 ≤ x < 8 ^ Z.of_nat (length s).
Proof.
  unfold from_str_radix_8. destruct s as [|c t]; [done|]. intros Hx.
  destruct (c =? 43); [destruct t as [|c' t]; [done|]|]; apply octal_digits_bound in Hx; try lia.
  cbn [length] in *. rewrite (Nat2Z.inj_succ (S _)), Z.pow_succ_r by lia. lia.
Qed.
