(* ===== verification/Serial.v ===== *)
(** * The serial port, the panic report and the timer chip
    (src/src/drivers/char/serial.rs, src/src/core/panic.rs,
    src/src/drivers/timer/pit.rs, [init] of src/src/core/idt.rs)

    The kernel reaches these chips through I/O ports.  The devices behind the ports
    are the class [PortIo]; what the drivers rely on of a 16550 serial port and of
    an 8254 timer is stated by [UartSpec] and [PitSpec], on a view of the device.

    The theorems: after the lazy initialisation the line runs at 38400 baud, and
    every byte printed is sent once, in order, with a carriage return before each
    line feed; the panic report is sent in full even if the lock of the port is
    held; both timer set-ups program 100 Hz. *)

From S2P Require Import Prelude KError Str.

#[local] Open Scope list_scope.

(** [Port::<u8>::read] and [write]. *)
Class PortIo (D : Type) := {
  inb : D → Z → Z * D;
  outb : D → Z → Z → D;
}.

(** ** The driver *)

Record SerialPort := mkSerial {
  data : Z; int_en : Z; fifo_ctrl : Z; line_ctrl : Z; modem_ctrl : Z; line_sts : Z;
}.

Definition SerialPort_new `{Profile} (port_base : Z) : outcome SerialPort :=
  p1 <- uadd 16 port_base 1;;
  p2 <- uadd 16 port_base 2;;
  p3 <- uadd 16 port_base 3;;
  p4 <- uadd 16 port_base 4;;
  p5 <- uadd 16 port_base 5;;
  Ret (mkSerial port_base p1 p2 p3 p4 p5).

Section Driver.
Context `{HP : Profile} `{HD : PortIo D}.
Implicit Types (d : D) (p : SerialPort).

Definition SerialPort_init p d : D :=
  let d := outb d (int_en p) 0x00 in
  let d := outb d (line_ctrl p) 0x80 in
  let d := outb d (data p) 0x03 in
  let d := outb d (int_en p) 0x00 in
  let d := outb d (line_ctrl p) 0x03 in
  let d := outb d (fifo_ctrl p) 0xC7 in
  outb d (modem_ctrl p) 0x0B.

Definition wait_for_tx_empty (fuel : nat) p d : outcome D :=
  loop fuel (λ d,
    let '(v, d) := inb d (line_sts p) in
    if Z.land v 0x20 =? 0 then Ret (Next d) else Ret (Done d)) d.

Definition send (fuel : nat) p d (b : Z) : outcome D :=
  if b =? 10 then
    d <- wait_for_tx_empty fuel p d;;
    let d := outb d (data p) 13 in
    d <- wait_for_tx_empty fuel p d;;
    Ret (outb d (data p) 10)
  else
    d <- wait_for_tx_empty fuel p d;;
    Ret (outb d (data p) b).

Definition write_str (fuel : nat) p d (s : str) : outcome D := mfold (send fuel p) d (as_bytes s).

(** ** The global port *)

(** [SERIAL1]: the port once it is initialised, and whether its lock is held. *)
Record serial := mkSerial1 { device : D; SERIAL1 : option SerialPort; locked : bool }.
Implicit Types s : serial.

(** The first dereference of the [lazy_static]. *)
Definition force_serial s : outcome (SerialPort * serial) :=
  match SERIAL1 s with
  | Some p => Ret (p, s)
  | None =>
      p <- SerialPort_new 0x3F8;;
      Ret (p, mkSerial1 (SerialPort_init p (device s)) (Some p) (locked s))
  end.

(** [_print] with the pieces [write_fmt] hands to [write_str].  With interrupts off
    nothing releases a lock that is held: the spin loop runs out of fuel. *)
Definition _print (fuel : nat) s (pieces : list str) : outcome serial :=
  let* (p, s) := force_serial s in
  if locked s then Stop OutOfFuel else
  d <- mfold (write_str fuel p) (device s) pieces;;
  Ret (mkSerial1 d (SERIAL1 s) false).

Definition serial_println (fuel : nat) s (pieces : list str) : outcome serial :=
  _print fuel s (pieces ++ [[10]]).

(** ** The panic handler *)

Definition force_unlock s : outcome serial :=
  let* (_, s) := force_serial s in Ret (mkSerial1 (device s) (SERIAL1 s) false).

(** What the handler reads of [PanicInfo]: the displayed location, the payload if it
    is a kernel error, the displayed message. *)
Record PanicInfo := mkPanicInfo { location : option str; payload : option KernelError; message : str }.

Definition banner : str := lit "==================================================".

(** The lines of the report, each as the pieces of one [serial_println]. *)
Definition panic_lines (info : PanicInfo) : list (list str) :=
  [[[10] ++ banner]; [lit "              !!! KERNEL PANIC !!!                "]; [banner];
   match location info with
   | Some l => [lit "Location: "; l]
   | None => [lit "Location: <unknown>"]
   end;
   match payload info with
   | Some err => [lit "KernelError Payload: "; lit (KernelError_fmt err)]
   | None => [lit "Message: "; message info]
   end;
   [banner]; [lit "System halted."]].

(** The handler up to its final [hlt] loop. *)
Definition panic (fuel : nat) (info : PanicInfo) s : outcome serial :=
  s <- force_unlock s;;
  mfold (serial_println fuel) s (panic_lines info).

(** ** The timer and the interrupt controllers *)

(** [initialize] and [write_masks] of the pic8259 crate are parameters. *)
Definition pit_init d : D :=
  let d := outb d 0x43 0x36 in
  let divisor := 11931 in
  let d := outb d 0x40 (Z.land divisor 0xFF) in
  outb d 0x40 (Z.shiftr divisor 8).

Definition io_wait d : D := outb d 0x80 0.

Definition idt_init (initialize : D → D) (write_masks : D → Z → Z → D) d : D :=
  let d := io_wait (outb d 0x43 0x36) in
  let d := io_wait (outb d 0x40 0x9B) in
  let d := io_wait (outb d 0x40 0x2E) in
  let d := io_wait (initialize d) in
  io_wait (write_masks d 0xFC 0xFF).
End Driver.
Arguments serial : clear implicits.

(** ** The devices *)

(** The registers of a 16550, the bytes its transmitter accepted and the number of
    status reads for which it is still busy. *)
Record uart := mkUart {
  sent : list Z; ier : Z; fcr : Z; lcr : Z; mcr : Z; dll : Z; dlm : Z; tx_wait : nat;
}.

Definition set_wait (u : uart) (k : nat) : uart :=
  mkUart (sent u) (ier u) (fcr u) (lcr u) (mcr u) (dll u) (dlm u) k.

(** Bit 7 of the line control register turns the first two registers into the
    divisor latch. *)
Definition dlab (u : uart) : bool := Z.testbit (lcr u) 7.

Definition uart_write (u : uart) (r v : Z) : uart :=
  let '(mkUart s i f l m lo hi k) := u in
  if r =? 0 then if dlab u then mkUart s i f l m v hi k else mkUart (s ++ [v]) i f l m lo hi k
  else if r =? 1 then if dlab u then mkUart s i f l m lo v k else mkUart s v f l m lo hi k
  else if r =? 2 then mkUart s i v l m lo hi k
  else if r =? 3 then mkUart s i f v m lo hi k
  else mkUart s i f l v lo hi k.

(** A 16550 at port [base].  A byte written while the transmitter is busy may be
    lost, so nothing is said about it. *)
Class UartSpec (base : Z) `{PortIo D} (view : D → uart) (max_wait : nat) : Prop := {
  uart_status d : ∃ v d', inb d (base + 5) = (v, d') ∧ Z.testbit v 5 = (tx_wait (view d) =? 0)%nat
    ∧ view d' = set_wait (view d) (pred (tx_wait (view d)));
  uart_out d r v : 0 ≤ r < 5 → 0 ≤ v < 256 → (r = 0 → dlab (view d) = false → tx_wait (view d) = 0%nat) →
    ∃ k, (k ≤ max_wait)%nat ∧ view (outb d (base + r) v) = set_wait (uart_write (view d) r v) k;
}.

(** Channel 0 of an 8254: the control word, the low byte it already got, the reload
    value; and the masks of the two interrupt controllers. *)
Record pit := mkPit { control : Z; half : option Z; reload : Z; masks : Z * Z }.

Definition pit_write (t : pit) (port v : Z) : pit :=
  if port =? 0x43 then mkPit v None (reload t) (masks t)
  else if port =? 0x40 then
    match half t with
    | None => mkPit (control t) (Some v) (reload t) (masks t)
    | Some lo => mkPit (control t) None (lo + 256 * v) (masks t)
    end
  else t.

(** The timer decodes these ports with the low-then-high access of channel 0; the
    controllers keep to their own ports. *)
Class PitSpec `{PortIo D} (tview : D → pit) (initialize : D → D) (write_masks : D → Z → Z → D) : Prop := {
  pit_out d port v : port ∈ [0x40; 0x43; 0x80] → 0 ≤ v < 256 → (port = 0x43 → v = 0x36) →
    tview (outb d port v) = pit_write (tview d) port v;
  pic_initialize d : let t := tview d in let t' := tview (initialize d) in
    control t' = control t ∧ half t' = half t ∧ reload t' = reload t;
  pic_masks d a b : tview (write_masks d a b) = mkPit (control (tview d)) (half (tview d)) (reload (tview d)) (a, b);
}.

(** The rate of the timer, in ticks a second. *)
Definition PIT_HZ : Z := 1193182.

(** IRQ line [i] of the pair is enabled. *)
Definition line_enabled (t : pit) (i : Z) : bool :=
  negb (if i <? 8 then Z.testbit (fst (masks t)) i else Z.testbit (snd (masks t)) (i - 8)).

Section Timer.
Context `{HPS : PitSpec D tview initialize write_masks}.

Lemma pit_reset d : tview (outb d 0x43 0x36) = mkPit 0x36 None (reload (tview d)) (masks (tview d)).
Proof. etransitivity; [apply pit_out; [rewrite !elem_of_cons; auto|lia|done]|done]. Qed.
Lemma pit_byte d v : 0 ≤ v < 256 → tview (outb d 0x40 v) = pit_write (tview d) 0x40 v.
Proof. intros. apply pit_out; [rewrite !elem_of_cons; auto|lia|done]. Qed.
Lemma pit_wait d : tview (io_wait d) = tview d.
Proof. etransitivity; [apply pit_out; [rewrite !elem_of_cons; auto|lia|done]|done]. Qed.

Lemma idt_init_timer d : tview (idt_init initialize write_masks d) = mkPit 0x36 None 11931 (0xFC, 0xFF).
Proof.
  unfold idt_init. rewrite pit_wait, pic_masks, pit_wait.
  destruct (pic_initialize (io_wait (outb (io_wait (outb (io_wait (outb d 0x43 0x36)) 0x40 0x9B)) 0x40 0x2E))) as (-> & -> & ->).
  rewrite pit_wait, pit_byte, pit_wait, pit_byte, pit_wait, pit_reset by lia. done.
Qed.

Lemma pit_init_timer d : tview (pit_init d) = mkPit 0x36 None 11931 (masks (tview d)).
Proof. unfold pit_init. rewrite pit_byte, pit_byte, pit_reset by (vm_compute; intuition discriminate). done. Qed.

(** The tick.  Loading the interrupt table and the later set-up of the timer
    both leave channel 0 as a square wave with reload value 11931, that is 100 ticks
    a second, and exactly the timer and the keyboard line are enabled. *)
Theorem timer_programmed d :
  let t := tview (idt_init initialize write_masks d) in let t' := tview (pit_init (idt_init initialize write_masks d)) in
  (control t = 0x36 ∧ reload t = 11931 ∧ half t = None) ∧ t' = t ∧ PIT_HZ / reload t = 100
  ∧ ∀ i, 0 ≤ i < 16 → line_enabled t i = true ↔ i = 0 ∨ i = 1.
Proof.
  intros t t'. assert (t' = t) as ->.
  { unfold t', t. by rewrite pit_init_timer, idt_init_timer. }
  unfold t. rewrite idt_init_timer. split_and!; try done. intros i Hi.
  destruct (Z_of_nat_complete i) as [n ->]; [lia|].
  do 16 (destruct n as [|n]; [vm_compute; intuition discriminate|]). lia.
Qed.
End Timer.

(** ** Sending *)

(** What a terminal gets for a byte. *)
Definition crlf (bs : list Z) : list Z := concat (map (λ b, if b =? 10 then [13; 10] else [b]) bs).

Lemma crlf_app a b : crlf (a ++ b) = crlf a ++ crlf b.
Proof. unfold crlf. by rewrite map_app, concat_app. Qed.

Lemma as_bytes_app a b : as_bytes (a ++ b) = as_bytes a ++ as_bytes b.
Proof. unfold as_bytes. by rewrite map_app, concat_app. Qed.

Lemma as_bytes_byte t : Forall scalar t → Forall (λ b, 0 ≤ b < 256) (as_bytes t).
Proof.
  induction 1 as [|c t Hc _ IH]; [constructor|]. change (c :: t) with ([c] ++ t). rewrite as_bytes_app.
  apply Forall_app. split; [|done]. unfold as_bytes. cbn [map concat]. rewrite app_nil_r. unfold scalar, encode_utf8 in *.
  repeat case_match; rewrite ?Z.ltb_lt, ?Z.ltb_ge in *; repeat constructor; zlia.
Qed.

(** The characters of a literal. *)
Lemma lit_scalar t : Forall scalar (lit t).
Proof.
  induction t as [|a t IH]; cbn [lit]; constructor; [|done]. left. pose proof (Ascii.N_ascii_bounded a). lia.
Qed.

Section Uart.
Context `{HP : Profile} `{HU : UartSpec 0x3F8 D view max_wait} (fuel : nat) (Hfuel : (max_wait < fuel)%nat).
Implicit Types (d : D) (s : serial D).

Definition COM1 : SerialPort := mkSerial 0x3F8 0x3F9 0x3FA 0x3FB 0x3FC 0x3FD.

(** 38400 baud, 8 data bits, no parity, one stop bit: a 16550 divides 115200 by the
    latch.  (The first write of [init] disables the interrupts only if the latch was
    not selected before.) *)
Record line_up (u : uart) : Prop := {
  lu_wait : (tx_wait u ≤ max_wait)%nat;
  lu_baud : 115200 / (dll u + 256 * dlm u) = 38400;
  lu_lcr : lcr u = 3;
}.

Lemma wait_for_tx_empty_ok d : line_up (view d) →
  wp (wait_for_tx_empty fuel COM1 d) (λ d', view d' = set_wait (view d) 0).
Proof.
  intros Hl. apply (wp_loop (λ d', ∃ k, view d' = set_wait (view d) k ∧ (k ≤ max_wait)%nat) (λ d', tx_wait (view d'))).
  - intros d1 (k & Hk & Hle). destruct (uart_status d1) as (v & d2 & Hin & Hb & Hv).
    change (line_sts COM1) with (0x3F8 + 5). rewrite Hin. change 0x20 with (Z.shiftl 1 5). rewrite mask_test, Hb, Hk by lia.
    rewrite Hk in Hv. destruct k as [|k]; cbn [tx_wait set_wait Nat.eqb negb pred] in *; wp_step; [done|].
    rewrite Hv. cbn [tx_wait set_wait]. split; [|lia]. exists k. split; [done|lia].
  - exists (tx_wait (view d)). split; [by destruct (view d)|apply Hl].
  - pose proof (lu_wait _ Hl). lia.
Qed.

(** The bytes [bs] were sent, and the line is still up. *)
Definition sends d d' (bs : list Z) : Prop := line_up (view d') ∧ sent (view d') = sent (view d) ++ bs.

Lemma sends_trans d1 d2 d3 a b : sends d1 d2 a → sends d2 d3 b → sends d1 d3 (a ++ b).
Proof. intros [_ H1'] [? H2']. split; [done|]. by rewrite H2', H1', app_assoc. Qed.

Lemma send_byte d b : line_up (view d) → 0 ≤ b < 256 →
  wp (wait_for_tx_empty fuel COM1 d) (λ d', sends d (outb d' 0x3F8 b) [b]).
Proof.
  intros Hl Hb. eapply wp_mono; [by apply wait_for_tx_empty_ok|cbv beta]. intros d' Hv.
  destruct (uart_out d' 0 b) as (k & Hk & Hv'); [lia|done|by rewrite Hv|]. change (0x3F8 + 0) with 0x3F8 in Hv'.
  destruct Hl as [_ Hbaud Hlcr]. rewrite Hv in Hv'. unfold sends. destruct (view d) as [? ? ? l]. cbn in *. subst l. unfold dlab in Hv'. cbn in Hv'.
  split; rewrite Hv'; [by split|done].
Qed.

Lemma send_ok d b : line_up (view d) → 0 ≤ b < 256 → wp (send fuel COM1 d b) (λ d', sends d d' (crlf [b])).
Proof.
  intros Hl Hb. unfold send, crlf. cbn [map concat]. destruct (Z.eqb_spec b 10) as [->|].
  - wp_step. eapply wp_mono; [by apply (send_byte d 13)|cbv beta]. intros d1 Hs1. wp_step.
    eapply wp_mono; [apply (send_byte _ 10); [apply Hs1|lia]|cbv beta]. intros d2 Hs2. wp_step. by eapply (sends_trans _ _ _ [13]).
  - wp_step. eapply wp_mono; [by apply (send_byte d b)|cbv beta]. intros d1 Hs1. by wp_step.
Qed.

Lemma write_str_ok d t : line_up (view d) → Forall scalar t →
  wp (write_str fuel COM1 d t) (λ d', sends d d' (crlf (as_bytes t))).
Proof.
  intros Hl Ht%as_bytes_byte. unfold write_str.
  apply (wp_mfold (λ bs d', sends d d' (crlf bs)) (send fuel COM1) (as_bytes t) []).
  - split; [done|]. by rewrite app_nil_r.
  - intros bs b d' Hs Hb. rewrite Forall_forall in Ht.
    eapply wp_mono; [apply send_ok; [apply Hs|by apply Ht]|cbv beta]. intros d'' Hs'. rewrite crlf_app. by eapply sends_trans.
Qed.

Lemma pieces_ok d ts : line_up (view d) → Forall (Forall scalar) ts →
  wp (mfold (write_str fuel COM1) d ts) (λ d', sends d d' (crlf (as_bytes (concat ts)))).
Proof.
  intros Hl Hts. apply (wp_mfold (λ ts d', sends d d' (crlf (as_bytes (concat ts)))) (write_str fuel COM1) ts []).
  - split; [done|]. by rewrite app_nil_r.
  - intros us t d' Hs Ht. rewrite Forall_forall in Hts.
    eapply wp_mono; [apply write_str_ok; [apply Hs|by apply Hts]|cbv beta]. intros d'' Hs'.
    rewrite concat_app. cbn [concat]. rewrite app_nil_r, as_bytes_app, crlf_app. by eapply sends_trans.
Qed.

(** The port before or after its first use. *)
Definition port_ready s : Prop :=
  (tx_wait (view (device s)) ≤ max_wait)%nat
  ∧ match SERIAL1 s with None => True | Some p => p = COM1 ∧ line_up (view (device s)) end.

Definition printed s s' (bs : list Z) : Prop :=
  SERIAL1 s' = Some COM1 ∧ locked s' = false ∧ line_up (view (device s'))
  ∧ sent (view (device s')) = sent (view (device s)) ++ bs.

(** Writing a register other than the transmitter. *)
Definition holds (u : uart) d : Prop := ∃ k, (k ≤ max_wait)%nat ∧ view d = set_wait u k.

Lemma holds_out u d r v : holds u d → 0 ≤ r < 5 → 0 ≤ v < 256 → (r = 0 → dlab u = true) →
  holds (uart_write u r v) (outb d (0x3F8 + r) v).
Proof.
  intros (k & _ & Hv) Hr Hv0 Hd. destruct (uart_out d r v Hr Hv0) as (k' & Hk' & Hv').
  { intros -> Hf. rewrite Hv in Hf. change (dlab (set_wait u k)) with (dlab u) in Hf. by rewrite (Hd eq_refl) in Hf. }
  exists k'. split; [done|]. rewrite Hv', Hv. destruct u. unfold uart_write, set_wait, dlab. cbn. by repeat case_match.
Qed.

Lemma init_line_up d : (tx_wait (view d) ≤ max_wait)%nat →
  line_up (view (SerialPort_init COM1 d)) ∧ sent (view (SerialPort_init COM1 d)) = sent (view d).
Proof.
  intros Hw. assert (holds (view d) d) as Hh0 by (exists (tx_wait (view d)); split; [done|by destruct (view d)]).
  pose proof (holds_out _ _ 1 0x00 Hh0 ltac:(lia) ltac:(lia) ltac:(done)) as Hh1.
  assert (sent (uart_write (view d) 1 0) = sent (view d)) as <- by (destruct (view d); unfold uart_write; cbn; by case_match).
  destruct (uart_write (view d) 1 0) as [st i f l mc lo hi w]. change (0x3F8 + 1) with (int_en COM1) in Hh1.
  apply (holds_out _ _ 3 0x80) in Hh1; [|lia|lia|done]. apply (holds_out _ _ 0 0x03) in Hh1; [|lia|lia|done].
  apply (holds_out _ _ 1 0x00) in Hh1; [|lia|lia|done]. apply (holds_out _ _ 3 0x03) in Hh1; [|lia|lia|done].
  apply (holds_out _ _ 2 0xC7) in Hh1; [|lia|lia|done]. apply (holds_out _ _ 4 0x0B) in Hh1; [|lia|lia|done].
  destruct Hh1 as (k & Hk & Hv). lazymatch type of Hv with _ = ?x =>
    change (view (SerialPort_init COM1 d) = x) in Hv end. rewrite Hv.
  split; [split; [exact Hk|reflexivity..]|reflexivity].
Qed.

Lemma force_serial_ok s : port_ready s →
  wp (force_serial s) (λ '(p, s'), p = COM1 ∧ SERIAL1 s' = Some COM1 ∧ locked s' = locked s ∧ line_up (view (device s'))
    ∧ sent (view (device s')) = sent (view (device s))).
Proof.
  intros [Hw Hp]. unfold force_serial. destruct (SERIAL1 s) as [p|] eqn:E.
  { destruct Hp as [-> Hl]. by wp_step. }
  assert (SerialPort_new 0x3F8 = Ret COM1) as -> by (unfold SerialPort_new, uadd; by rewrite !checked_ok by lia).
  destruct (init_line_up (device s) Hw). wp_step. by split_and!.
Qed.

Lemma print_ok s ts : port_ready s → locked s = false → Forall (Forall scalar) ts →
  wp (_print fuel s ts) (λ s', printed s s' (crlf (as_bytes (concat ts)))).
Proof.
  intros Hp Hlk Hts. unfold _print. wp_step. eapply wp_mono; [by apply force_serial_ok|cbv beta].
  intros [p s1] (-> & Hs1 & Hl1 & Hup & Hst). rewrite Hl1, Hlk. wp_step.
  eapply wp_mono; [by apply pieces_ok|cbv beta]. intros d' [Hup' Hst']. wp_step. split_and!; try done. by rewrite <- Hst.
Qed.

Lemma printed_ready s s' bs : printed s s' bs → port_ready s' ∧ locked s' = false.
Proof. intros (E & ? & Hl & _). unfold port_ready. rewrite E. split_and!; try done. apply Hl. Qed.

Lemma prints_ok (f : serial D → list str → outcome (serial D)) (out : list str → str) s l :
  (∀ s ts, port_ready s → locked s = false → ts ∈ l → wp (f s ts) (λ s', printed s s' (crlf (as_bytes (out ts))))) →
  port_ready s → locked s = false → l ≠ [] →
  wp (mfold f s l) (λ s', printed s s' (crlf (as_bytes (concat (map out l))))).
Proof.
  intros Hf Hp Hlk Hne. destruct l as [|ts l]; [done|]. cbn [mfold map concat]. wp_step.
  eapply wp_mono; [apply Hf; [done|done|left]|cbv beta]. intros s1 Hs1.
  apply (wp_mfold (λ us s', printed s s' (crlf (as_bytes (out ts ++ concat (map out us))))) f l []).
  { cbn [map concat]. by rewrite app_nil_r. }
  intros us u s2 Hs2 Hu. destruct (printed_ready _ _ _ Hs2) as [Hp2 Hl2].
  eapply wp_mono; [apply Hf; [done|done|by right]|cbv beta]. intros s3 (? & ? & ? & Hst3). split_and!; try done.
  destruct Hs2 as (_ & _ & _ & Hst2). rewrite Hst3, Hst2, map_app, concat_app. cbn [map concat].
  by rewrite app_nil_r, app_assoc, (as_bytes_app (_ ++ _)), crlf_app, <- app_assoc.
Qed.

(** The driver uses no port but its own. *)
Section Keeps.
Context (P : D → Prop) (Hkeep : ∀ d r v, 0 ≤ r < 8 → P d → P (outb d (0x3F8 + r) v) ∧ P (inb d (0x3F8 + r)).2).

Lemma wait_keeps n d d' : wait_for_tx_empty n COM1 d = Ret d' → P d → P d'.
Proof.
  unfold wait_for_tx_empty. revert d. induction n as [|n IH]; intros d; cbn [loop]; [done|]. change (line_sts COM1) with (0x3F8 + 5).
  intros E Hd. destruct (Hkeep d 5 0 ltac:(lia) Hd) as [_ Hi]. destruct (inb d (0x3F8 + 5)) as [v d1]. cbn [snd] in Hi.
  destruct (_ =? 0); cbn [obind] in E; [by eapply IH|congruence].
Qed.

Lemma mfold_keeps {A} (f : D → A → outcome D) l : (∀ d a d', f d a = Ret d' → P d → P d') → ∀ d d', mfold f d l = Ret d' → P d → P d'.
Proof.
  intros Hf. induction l as [|a l IH]; intros d d'; cbn [mfold]; [by intros [= ->]|]. destruct (f d a) as [d1|] eqn:E; [|done]. cbn [obind].
  intros E' Hd. by eapply IH, Hf.
Qed.

Lemma send_keeps n d b d' : send n COM1 d b = Ret d' → P d → P d'.
Proof.
  assert (∀ d v, P d → P (outb d (data COM1) v)) as Hout by (intros x v Hx; apply (Hkeep x 0 v); [lia|done]).
  unfold send. destruct (b =? 10).
  - destruct (wait_for_tx_empty n COM1 d) as [d1|] eqn:E1; [|done]. cbn [obind].
    destruct (wait_for_tx_empty n COM1 (outb d1 (data COM1) 13)) as [d2|] eqn:E2; [|done]. cbn [obind]. intros E Hd. injection E as <-.
    by eapply Hout, wait_keeps, Hout, wait_keeps.
  - destruct (wait_for_tx_empty n COM1 d) as [d1|] eqn:E1; [|done]. cbn [obind]. intros E Hd. injection E as <-. by eapply Hout, wait_keeps.
Qed.

Lemma print_keeps n s ts s' : SERIAL1 s = Some COM1 → _print n s ts = Ret s' → P (device s) → P (device s').
Proof.
  intros E. unfold _print, force_serial. rewrite E. cbn [obind]. destruct (locked s); [done|].
  destruct (mfold _ (device s) ts) as [d|] eqn:Ed; [|done]. cbn [obind]. intros Es Hd. injection Es as <-. cbn [device].
  refine (mfold_keeps (write_str n COM1) ts _ _ _ Ed Hd). intros d1 a d2. apply mfold_keeps. apply send_keeps.
Qed.
End Keeps.

(** The log reaches the line.  Whatever the firmware left in the port, the first
    print sets it to 38400 baud, 8N1; every print returns, and the bytes of all
    texts go out once and in order, each line feed preceded by a carriage return.
    The fuel is enough if it exceeds the longest time the transmitter stays busy. *)
Theorem serial_print_sends s texts : port_ready s → locked s = false → texts ≠ [] → Forall (Forall (Forall scalar)) texts →
  wp (mfold (_print fuel) s texts) (λ s',
    printed s s' (crlf (as_bytes (concat (map (λ pieces, concat pieces) texts))))).
Proof.
  intros Hp Hlk Hne Hts. apply prints_ok; try done. intros s1 ts Hp1 Hl1 Hin. rewrite Forall_forall in Hts.
  apply print_ok; auto.
Qed.

(** The text of the report. *)
Definition panic_text (info : PanicInfo) : str := concat (map (λ pieces, concat pieces ++ [10]) (panic_lines info)).

Lemma panic_lines_scalar info : Forall scalar (default [] (location info)) → Forall scalar (message info) →
  Forall (Forall (Forall scalar)) (panic_lines info).
Proof.
  intros Hl Hm. destruct info as [[l|] [p|] msg]; unfold panic_lines; cbn [location payload message default] in *.
  all: repeat first [apply lit_scalar|assumption|apply Forall_nil; exact I|apply Forall_cons; split]; left; lia.
Qed.

(** C29: the panic report is not lost.  The handler sends the whole report and
    reaches its halt loop from any state of the port: before its first use, or with
    its lock held by the code that panicked, where any other print would spin
    forever. *)
Theorem panic_reports info s : port_ready s → Forall scalar (default [] (location info)) → Forall scalar (message info) →
  wp (panic fuel info s) (λ s', printed s s' (crlf (as_bytes (panic_text info))))
  ∧ ∀ p ts, SERIAL1 s = Some p → locked s = true → _print fuel s ts = Stop OutOfFuel.
Proof.
  intros Hp Hl Hm. split.
  - unfold panic, force_unlock. wp_step. wp_step. eapply wp_mono; [by apply force_serial_ok|cbv beta].
    intros [p s1] (_ & Hs1 & _ & Hup & Hst). wp_step. pose proof (panic_lines_scalar info Hl Hm) as Hsc.
    eapply wp_mono; [apply (prints_ok (serial_println fuel) (λ pieces, concat pieces ++ [10]))|cbv beta].
    + intros s2 ts Hp2 Hl2 Hin. unfold serial_println. rewrite Forall_forall in Hsc.
      replace (concat ts ++ [10]) with (concat (ts ++ [[10]])) by (by rewrite concat_app).
      apply print_ok; [done|done|]. apply Forall_app. split; [auto|]. repeat constructor. lia.
    + split; [apply Hup|]. cbn [SERIAL1]. by rewrite Hs1.
    + done.
    + done.
    + intros s' (? & ? & ? & Hst'). split_and!; try done. rewrite Hst'. cbn [device]. by rewrite Hst.
  - intros p ts Hs Hlk. unfold _print, force_serial. rewrite Hs. cbn [obind]. by rewrite Hlk.
Qed.
End Uart.

(** A serial port and a timer that answer at once. *)
Module SerialSample.
Record chips := mkChips { chip_uart : uart; chip_pit : pit }.

Definition chips_out (d : chips) (port v : Z) : chips :=
  if (0x3F8 <=? port) && (port <=? 0x3FC)
  then mkChips (set_wait (uart_write (chip_uart d) (port - 0x3F8) v) 2) (chip_pit d)
  else mkChips (chip_uart d) (pit_write (chip_pit d) port v).

Definition chips_in (d : chips) (port : Z) : Z * chips :=
  (if (tx_wait (chip_uart d) =? 0)%nat then 0x20 else 0,
   mkChips (set_wait (chip_uart d) (pred (tx_wait (chip_uart d)))) (chip_pit d)).

#[global] Instance chips_io : PortIo chips := {| inb := chips_in; outb := chips_out |}.

Lemma chips_uart : UartSpec 0x3F8 chip_uart 2.
Proof.
  split.
  - intros d. exists (chips_in d 0x3FD).1, (chips_in d 0x3FD).2. split; [done|]. cbn. by destruct (_ =? 0)%nat.
  - intros d r v Hr _ _. exists 2%nat. split; [done|]. unfold outb, chips_io, chips_out.
    rewrite (proj2 (Z.leb_le _ _)), (proj2 (Z.leb_le _ _)) by lia. cbn [andb chip_uart].
    by replace (0x3F8 + r - 0x3F8) with r by lia.
Qed.

Definition chips_masks (d : chips) (a b : Z) : chips :=
  mkChips (chip_uart d) (mkPit (control (chip_pit d)) (half (chip_pit d)) (reload (chip_pit d)) (a, b)).

Lemma chips_timer : PitSpec chip_pit (λ d, d) chips_masks.
Proof.
  split; [|done|done]. intros d port v Hp _ _. unfold outb, chips_io, chips_out.
  by rewrite !elem_of_cons in Hp; destruct Hp as [->|[->|[->|[]%not_elem_of_nil]]].
Qed.

Definition cold : chips := mkChips (mkUart [] 0 0 0 0 0 0 1) (mkPit 0 None 0 (0, 0)).
End SerialSample.

Lemma timer_programmed_witness :
  reload (SerialSample.chip_pit (idt_init (λ d, d) SerialSample.chips_masks SerialSample.cold)) = 11931.
Proof.
  destruct (@timer_programmed SerialSample.chips SerialSample.chips_io SerialSample.chip_pit (λ d, d)
    SerialSample.chips_masks SerialSample.chips_timer SerialSample.cold) as ((_ & Hr & _) & _).
  exact Hr.
Defined.

Lemma serial_print_sends_witness :
  wp (mfold (@_print true SerialSample.chips SerialSample.chips_io 3) (mkSerial1 SerialSample.cold None false)
        [[lit "a"; [10]]; [lit "b"]])
     (λ s', sent (SerialSample.chip_uart (device s')) = [97; 13; 10; 98]).
Proof.
  eapply wp_mono.
  - apply (@serial_print_sends true SerialSample.chips SerialSample.chips_io SerialSample.chip_uart 2 SerialSample.chips_uart 3
      ltac:(lia) (mkSerial1 SerialSample.cold None false) [[lit "a"; [10]]; [lit "b"]]).
    + split; [cbn; lia|exact I].
    + reflexivity.
    + discriminate.
    + repeat first [apply Forall_nil; exact I|apply Forall_cons; split]; left; cbn; lia.
  - intros s' (_ & _ & _ & Hs). exact Hs.
Defined.

Lemma panic_reports_witness :
  wp (@panic true SerialSample.chips SerialSample.chips_io 3 (mkPanicInfo None (Some (Memory OutOfFrames)) [])
        (mkSerial1 SerialSample.cold None true))
     (λ s', sent (SerialSample.chip_uart (device s'))
        = crlf (as_bytes (panic_text (mkPanicInfo None (Some (Memory OutOfFrames)) [])))).
Proof.
  eapply wp_mono.
  - refine (proj1 (@panic_reports true SerialSample.chips SerialSample.chips_io SerialSample.chip_uart 2 SerialSample.chips_uart 3
      ltac:(lia) (mkPanicInfo None (Some (Memory OutOfFrames)) []) (mkSerial1 SerialSample.cold None true) _ _ _)).
    + split; [cbn; lia|exact I].
    + apply Forall_nil. exact I.
    + apply Forall_nil. exact I.
  - intros s' (_ & _ & _ & Hs). refine (eq_trans Hs _). exact (app_nil_l _).
Defined.
