(* ===== verification/Vfs.v ===== *)
(** * The virtual file system (src/src/fs/vfs.rs)

    The initramfs is a TAR image in memory: [find_file] searches it directly,
    [build_vfs_tree_from_tar] registers its members under the in-memory root,
    and [resolve_path] walks the components of a path through the mount table
    and the directories.  A node is the in-memory root, a TAR member, or a node
    of a disk driver, which is a type [V] with the operations of the [VNode]
    trait.

    The theorems: an archive, with any bytes in the parts of the headers that are
    not read, is searched as the association list it was made from; path resolution depends on the components of the path only and
    respects mounts; and TAR members whose name contains a slash cannot be
    reached through a path. *)

From S2P Require Import Prelude Str.

#[local] Open Scope list_scope.

(** The trait, as the disk drivers implement it; a read returns the bytes
    copied into a buffer of the given length. *)
Class VNode (V : Type) := {
  vn_read : V → Z → Z → outcome (list Z);
  vn_get_size : V → Z;
  vn_is_dir : V → bool;
  vn_lookup : V → str → outcome (option V);
}.

Section Vfs.
Context `{Profile} {V : Type} `{VNode V}.

Inductive node :=
| RootDir                      (* the [DirVNode] of [VFS_ROOT] *)
| TarVNode (data : list Z)
| DiskNode (n : V).

(** The statics: the image, the mount table, the children of [VFS_ROOT]. *)
Record vfs := mkVfs {
  INITRAMFS : option (list Z);
  mounts : gmap str node;
  children : gmap str node;
}.
Implicit Types v : vfs.

Definition vfs_init v (tar : list Z) : vfs := mkVfs (Some tar) (mounts v) (children v).
Definition add v (name : str) (n : node) : vfs :=
  mkVfs (INITRAMFS v) (mounts v) (<[name := n]> (children v)).
Definition mount v (path : str) (n : node) : vfs :=
  mkVfs (INITRAMFS v) (<[path := n]> (mounts v)) (children v).
Definition get_mount v (path : str) : option node := mounts v !! path.
Definition unmount v (path : str) : bool * vfs :=
  match mounts v !! path with
  | Some _ => (true, mkVfs (INITRAMFS v) (delete path (mounts v)) (children v))
  | None => (false, v)
  end.

(** ** TAR headers *)

(** [header[0..100]] up to the first NUL. *)
Fixpoint until_nul (l : list Z) : list Z :=
  match l with
  | [] => []
  | b :: t => if b =? 0 then [] else b :: until_nul t
  end.

Definition tar_name (header : list Z) : str := default [] (from_utf8 (until_nul (sub 0 100 header))).

Definition tar_size (header : list Z) : Z :=
  let size_str := trim (default [48] (from_utf8 (sub 124 11 header))) in
  default 0 (from_str_radix_8 size_str).

(** [offset + 512 + ((file_size + 511) / 512) * 512] *)
Definition next_offset (offset file_size : Z) : outcome Z :=
  a <- uadd 64 file_size 511;;
  d <- umul 64 (a / 512) 512;;
  d <- uadd 64 512 d;;
  uadd 64 offset d.

(** [from_raw_parts(ptr.add(start), n)] on the image. *)
Definition raw_slice (img : list Z) (start n : Z) : outcome (list Z) :=
  if start + n <=? Z.of_nat (length img) then Ret (sub start n img) else Stop OutOfBounds.

(** One round of a loop over the members: stop at the end of the image or at a
    header that starts with NUL, otherwise [visit] the member. *)
Definition tar_round {S R} (img : list Z) (visit : str → Z → Z → S → outcome (flow S R))
    (st : Z * S) : outcome (flow (Z * S) (S + R)) :=
  let '(offset, s) := st in
  data_start <- uadd 64 offset 512;;
  if negb (data_start <=? Z.of_nat (length img)) then Ret (Done (inl s)) else
  let header := sub offset 512 img in
  first <- vget header 0;;
  if first =? 0 then Ret (Done (inl s)) else
  let file_size := tar_size header in
  r <- visit (tar_name header) data_start file_size s;;
  match r with
  | Done x => Ret (Done (inr x))
  | Next s => offset' <- next_offset offset file_size;; Ret (Next (offset', s))
  end.

(** Every round advances by at least 512 bytes. *)
Definition tar_fuel (img : list Z) : nat := S (S (length img / 512)).

Definition find_file v (filename : str) : outcome (option (list Z)) :=
  match INITRAMFS v with
  | None => Ret None
  | Some img =>
      r <- loop (tar_fuel img) (tar_round img (λ name data_start file_size (_ : unit),
             if decide (name = filename) then
               d <- raw_slice img data_start file_size;; Ret (Done d)
             else Ret (Next tt))) (0, tt);;
      Ret match r with inl _ => None | inr d => Some d end
  end.

Definition build_vfs_tree_from_tar v : outcome vfs :=
  match INITRAMFS v with
  | None => Ret v
  | Some img =>
      r <- loop (tar_fuel img) (tar_round img (λ name data_start file_size v,
             if (0 <? file_size) && negb (bool_decide (name = [])) then
               d <- raw_slice img data_start file_size;;
               Ret (Next (add v (trim_start_slashes name) (TarVNode d)))
             else @Ret (flow vfs Empty_set) (Next v))) (0, v);;
      Ret match r with inl v => v | inr e => match e with end end
  end.

(** ** Nodes *)

Definition node_is_dir (n : node) : bool :=
  match n with
  | RootDir => true
  | TarVNode _ => false
  | DiskNode d => vn_is_dir d
  end.

Definition node_get_size (n : node) : Z :=
  match n with
  | RootDir => 0
  | TarVNode data => Z.of_nat (length data)
  | DiskNode d => vn_get_size d
  end.

Definition node_lookup v (n : node) (name : str) : outcome (option node) :=
  match n with
  | RootDir => Ret (children v !! name)
  | TarVNode _ => Ret None
  | DiskNode d => r <- vn_lookup d name;; Ret (DiskNode <$> r)
  end.

(** [TarVNode::read] of [len] bytes at [offset]. *)
Definition tar_read (data : list Z) (offset len : Z) : list Z :=
  if Z.of_nat (length data) <=? offset then []
  else sub offset (Z.min len (Z.of_nat (length data) - offset)) data.

Definition node_read (n : node) (offset len : Z) : outcome (list Z) :=
  match n with
  | RootDir => Ret []
  | TarVNode data => Ret (tar_read data offset len)
  | DiskNode d => vn_read d offset len
  end.

(** ** Path resolution *)

(** The loop over the components: [current_path] is the path so far. *)
Fixpoint walk v (current : node) (current_path : str) (parts : list str) : outcome (option node) :=
  match parts with
  | [] => Ret (Some current)
  | part :: parts' =>
      if negb (node_is_dir current) then Ret None else
      let current_path := current_path ++ SLASH :: part in
      match get_mount v current_path with
      | Some mounted_node => walk v mounted_node current_path parts'
      | None =>
          r <- node_lookup v current part;;
          match r with
          | Some next_node => walk v next_node current_path parts'
          | None => Ret None
          end
      end
  end.

Definition resolve_path v (path : str) : outcome (option node) :=
  let current := default RootDir (get_mount v [SLASH]) in
  walk v current [] (components path).

Definition open_vnode v (path : str) : outcome (option node) := resolve_path v path.
End Vfs.
Arguments node : clear implicits.
Arguments vfs : clear implicits.

(** ** Archives *)

(** A member of an archive, and its on-disk form: the header with the name, the
    size in eleven octal digits, and the data padded to a block.  [m_meta] and
    [m_rest] are the bytes of the header the kernel does not read: the mode and
    the owners before the size (offsets 100 to 123); the terminator of the size,
    the time, the checksum, the type and the rest after it (135 to 511). *)
Record member := mkMember { m_name : str; m_data : list Z; m_meta : list Z; m_rest : list Z }.

Definition pad (n : nat) (l : list Z) : list Z := l ++ replicate (n - length l) 0.

Definition tar_header (m : member) : list Z :=
  pad 100 (m_name m) ++ m_meta m ++ octal 11 (Z.of_nat (length (m_data m))) ++ m_rest m.

Definition blocks (n : nat) : nat := (n + 511) / 512.

Definition member_bytes (m : member) : list Z :=
  tar_header m ++ pad (blocks (length (m_data m)) * 512) (m_data m).

(** The members, the two zero blocks that end the archive, and whatever follows
    them in the image ([trail]: the padding to the record size). *)
Definition archive (ms : list member) (trail : list Z) : list Z :=
  concat (map member_bytes ms) ++ replicate 1024 0 ++ trail.

Definition member_wf (m : member) : Prop :=
  m_name m ≠ [] ∧ (length (m_name m) ≤ 100)%nat ∧ Forall (λ c, 0 < c < 0x80) (m_name m)
  ∧ Z.of_nat (length (m_data m)) < 8 ^ 11 ∧ length (m_meta m) = 24%nat ∧ length (m_rest m) = 377%nat.

(** The fields GNU tar writes for a file of mode 0777 of user and group 1000: the
    mode and the owners; the modification time, the checksum, the type, the magic
    "ustar  " and the owner's name. *)
Definition gnu_meta : list Z := lit "0000777" ++ [0] ++ lit "0001750" ++ [0] ++ lit "0001750" ++ [0].
Definition gnu_rest : list Z :=
  [0] ++ lit "15060000000" ++ [0] ++ lit "012345" ++ [0; 32] ++ lit "0" ++ replicate 100 0
  ++ lit "ustar  " ++ [0] ++ pad 32 (lit "user") ++ pad 215 (lit "user").
Definition gnu_member (name : str) (data : list Z) : member := mkMember name data gnu_meta gnu_rest.

Section Archives.
Context `{Profile}.

Lemma length_pad n l : (length l ≤ n)%nat → length (pad n l) = n.
Proof. intros Hl. unfold pad. rewrite length_app, length_replicate. lia. Qed.

Lemma length_tar_header m : member_wf m → length (tar_header m) = 512%nat.
Proof.
  intros (_ & Hn & _ & _ & Hmeta & Hrest). unfold tar_header.
  rewrite !length_app, length_octal, length_pad by lia. lia.
Qed.

Lemma blocks_bound n : (n ≤ blocks n * 512)%nat.
Proof. unfold blocks. pose proof (Nat.div_mod (n + 511) 512). pose proof (Nat.mod_upper_bound (n + 511) 512). lia. Qed.

Lemma length_member m : member_wf m →
  length (member_bytes m) = (512 + blocks (length (m_data m)) * 512)%nat.
Proof.
  intros Hm. unfold member_bytes. rewrite length_app, length_tar_header, length_pad by (done || apply blocks_bound).
  done.
Qed.

Lemma until_nul_name name k : Forall (λ c, 0 < c < 0x80) name →
  until_nul (name ++ replicate k 0) = name.
Proof.
  induction 1 as [|c name Hc _ IH]; [by destruct k|]. simpl.
  rewrite (proj2 (Z.eqb_neq _ _)) by lia. by rewrite IH.
Qed.

(** The header of a member, read back. *)
Lemma tar_name_header m rest : member_wf m → tar_name (tar_header m ++ rest) = m_name m.
Proof.
  intros (Hne & Hlen & Hc & _). unfold tar_name, tar_header. rewrite <- !app_assoc.
  rewrite sub_app_l by (rewrite length_pad by lia; done). unfold pad.
  rewrite until_nul_name by done. rewrite from_utf8_ascii; [done|].
  eapply Forall_impl; [exact Hc|]. unfold is_ascii. simpl. lia.
Qed.

Lemma tar_size_header m rest : member_wf m →
  tar_size (tar_header m ++ rest) = Z.of_nat (length (m_data m)).
Proof.
  intros (Hne & Hlen & _ & Hsz & Hmeta & _). unfold tar_size, tar_header. rewrite <- !app_assoc.
  rewrite sub_app_r by (rewrite length_pad by lia; done). rewrite length_pad by lia.
  rewrite sub_app_r by (rewrite Hmeta; lia). rewrite Hmeta.
  change (124 - Z.of_nat 100 - Z.of_nat 24) with 0. rewrite sub_app_l by (by rewrite length_octal).
  rewrite from_utf8_ascii.
  - cbn [default from_option id]. rewrite trim_octal, from_str_radix_octal; [done|lia|lia|lia].
  - eapply Forall_impl; [apply octal_range|]. unfold is_ascii. simpl. lia.
Qed.

Lemma next_offset_member off m : member_wf m → 0 ≤ off < 2 ^ 63 →
  next_offset off (Z.of_nat (length (m_data m))) = Ret (off + Z.of_nat (length (member_bytes m))).
Proof.
  intros Hm Hoff. pose proof Hm as (_ & _ & _ & Hsz & _). change (8 ^ 11) with 8589934592 in Hsz.
  unfold next_offset, uadd, umul.
  assert (Z.of_nat (length (member_bytes m)) = 512 + (Z.of_nat (length (m_data m)) + 511) / 512 * 512) as Hl.
  { rewrite length_member by done. unfold blocks.
    rewrite Nat2Z.inj_add, Nat2Z.inj_mul, Nat2Z.inj_div, Nat2Z.inj_add. lia. }
  rewrite Hl. set (n := Z.of_nat (length (m_data m))) in *. assert (0 ≤ n) by lia.
  rewrite checked_ok by lia. cbn [obind]. rewrite checked_ok by zlia. cbn [obind].
  rewrite checked_ok by zlia. cbn [obind]. rewrite checked_ok by zlia. done.
Qed.

(** What a loop over the members of an archive does. *)
Fixpoint visit_all {S R} (visit : str → Z → Z → S → outcome (flow S R)) (off : Z)
    (ms : list member) (s : S) : outcome (S + R) :=
  match ms with
  | [] => Ret (inl s)
  | m :: ms' =>
      r <- visit (m_name m) (off + 512) (Z.of_nat (length (m_data m))) s;;
      match r with
      | Done x => Ret (inr x)
      | Next s => visit_all visit (off + Z.of_nat (length (member_bytes m))) ms' s
      end
  end.

(** One round at the start of a member. *)
Lemma tar_round_member {S R} (visit : str → Z → Z → S → outcome (flow S R)) pre m rest s img :
  img = pre ++ member_bytes m ++ rest → member_wf m → Z.of_nat (length img) < 2 ^ 63 →
  tar_round img visit (Z.of_nat (length pre), s) =
  (r <- visit (m_name m) (Z.of_nat (length pre) + 512) (Z.of_nat (length (m_data m))) s;;
   match r with
   | Done x => Ret (Done (inr x))
   | Next s => Ret (Next (Z.of_nat (length pre) + Z.of_nat (length (member_bytes m)), s))
   end).
Proof.
  intros -> Hm Hlen. rewrite !length_app in Hlen. pose proof (length_member m Hm) as Hlm.
  pose proof (length_tar_header m Hm) as Hlh. unfold tar_round, uadd at 1.
  rewrite checked_ok by lia. cbn [obind].
  rewrite (proj2 (Z.leb_le _ _)) by (rewrite !length_app; lia). cbn [negb].
  assert (sub (Z.of_nat (length pre)) 512 (pre ++ member_bytes m ++ rest) = tar_header m) as Hh.
  { rewrite sub_app_r, Z.sub_diag by lia. unfold member_bytes. rewrite <- app_assoc.
    apply sub_app_l. by rewrite Hlh. }
  rewrite Hh. pose proof (tar_name_header m [] Hm) as Hn. pose proof (tar_size_header m [] Hm) as Hs.
  rewrite app_nil_r in Hn, Hs. rewrite Hn, Hs.
  assert (∃ c, vget (tar_header m) 0 = Ret c ∧ (c =? 0) = false) as (c & Hv & Hc).
  { destruct Hm as (Hne & _ & Hcs & _). unfold tar_header, pad, vget.
    destruct (m_name m) as [|c name]; [done|]. inversion_clear Hcs. exists c. split; [done|]. lia. }
  rewrite Hv. cbn [obind]. rewrite Hc.
  destruct (visit _ _ _ s) as [[s'|x]|]; cbn [obind]; try done.
  rewrite next_offset_member by (done || lia). done.
Qed.

Lemma archive_cons m ms trail : archive (m :: ms) trail = member_bytes m ++ archive ms trail.
Proof. unfold archive. cbn [map concat]. by rewrite <- app_assoc. Qed.

Lemma tar_loop {S R} (visit : str → Z → Z → S → outcome (flow S R)) ms trail : ∀ pre s fuel img,
  img = pre ++ archive ms trail → Forall member_wf ms → Z.of_nat (length img) < 2 ^ 63 →
  (length ms < fuel)%nat →
  loop fuel (tar_round img visit) (Z.of_nat (length pre), s) = visit_all visit (Z.of_nat (length pre)) ms s.
Proof.
  induction ms as [|m ms IH]; intros pre s fuel img Himg Hwf Hlen Hf; (destruct fuel as [|fuel]; [simpl in Hf; lia|]).
  - cbn [loop]. unfold tar_round at 1, uadd. subst img. unfold archive in *. cbn [map concat app] in *.
    rewrite !length_app, length_replicate in *. rewrite checked_ok by lia. cbn [obind].
    rewrite (proj2 (Z.leb_le _ _)) by lia. cbn [negb].
    rewrite sub_app_r, Z.sub_diag by lia. done.
  - inversion_clear Hwf as [|? ? Hm Hms]. cbn [loop visit_all].
    rewrite archive_cons in Himg. erewrite tar_round_member by done.
    destruct (visit _ _ _ s) as [[s'|x]|]; cbn [obind]; try done.
    rewrite <- Nat2Z.inj_add, <- length_app. apply IH; try done; [|simpl in Hf; lia].
    by rewrite Himg, app_assoc.
Qed.
End Archives.

(** ** Theorems *)

Section VfsTheorems.
Context `{Profile} {V : Type} `{VNode V}.
Implicit Types v : vfs V.

(** The data of the first member with a name. *)
Fixpoint assoc (name : str) (ms : list member) : option (list Z) :=
  match ms with
  | [] => None
  | m :: ms' => if decide (m_name m = name) then Some (m_data m) else assoc name ms'
  end.

Lemma raw_slice_member pre m rest : member_wf m →
  raw_slice (pre ++ member_bytes m ++ rest) (Z.of_nat (length pre) + 512) (Z.of_nat (length (m_data m)))
  = Ret (m_data m).
Proof.
  intros Hm. unfold raw_slice. pose proof (length_member m Hm) as Hlm.
  pose proof (blocks_bound (length (m_data m))). pose proof (length_tar_header m Hm) as Hlh.
  rewrite (proj2 (Z.leb_le _ _)) by (rewrite !length_app; lia). f_equal.
  rewrite sub_app_r by lia. unfold member_bytes, pad. rewrite <- !app_assoc.
  rewrite sub_app_r by lia. rewrite Hlh. replace (_ + 512 - _ - _) with 0 by lia. by apply sub_app_l.
Qed.

Lemma length_archive ms trail : Forall member_wf ms → (length ms * 512 + 1024 ≤ length (archive ms trail))%nat.
Proof.
  intros Hwf. unfold archive. rewrite !length_app, length_replicate.
  induction Hwf as [|m ms Hm _ IH]; simpl; [lia|]. rewrite length_app, length_member by done. lia.
Qed.

Lemma tar_fuel_enough ms trail : Forall member_wf ms → (length ms < tar_fuel (archive ms trail))%nat.
Proof.
  intros Hwf. unfold tar_fuel. pose proof (length_archive ms trail Hwf).
  assert (length ms ≤ length (archive ms trail) / 512)%nat; [|lia].
  apply Nat.div_le_lower_bound; lia.
Qed.

(** A visit of the members of [ms] in the image [pre ++ archive ms trail], for a
    visitor that looks at the data of each member. *)
Lemma visit_members {S R} (visit : str → Z → Z → S → outcome (flow S R))
    (spec : member → S → flow S R) ms trail : ∀ pre s, Forall member_wf ms →
  (∀ p m rest st, pre ++ archive ms trail = p ++ member_bytes m ++ rest → member_wf m →
     visit (m_name m) (Z.of_nat (length p) + 512) (Z.of_nat (length (m_data m))) st = Ret (spec m st)) →
  visit_all visit (Z.of_nat (length pre)) ms s =
  Ret ((fix go ms s := match ms with
        | [] => inl s
        | m :: ms' => match spec m s with Done x => inr x | Next s => go ms' s end
        end) ms s).
Proof.
  induction ms as [|m ms IH]; intros pre s Hwf Hv; [done|]. inversion_clear Hwf as [|? ? Hm Hms].
  pose proof (archive_cons m ms trail) as Ha.
  cbn [visit_all]. rewrite (Hv pre m (archive ms trail)) by (rewrite ?Ha; done). cbn [obind].
  destruct (spec m s); [|done].
  rewrite <- Nat2Z.inj_add, <- length_app. apply IH; [done|].
  intros p m' rest st Heq Hm'. eapply Hv; [|done]. by rewrite Ha, app_assoc.
Qed.

(** The children of the root after the members of [ms] have been added. *)
Definition add_member v (m : member) : vfs V :=
  if decide (m_data m = []) then v else add v (trim_start_slashes (m_name m)) (TarVNode (m_data m)).

Lemma build_vfs_tree_spec v ms trail : INITRAMFS v = Some (archive ms trail) → Forall member_wf ms →
  Z.of_nat (length (archive ms trail)) < 2 ^ 63 →
  build_vfs_tree_from_tar v = Ret (foldl add_member v ms).
Proof.
  intros Hi Hwf Hlen. unfold build_vfs_tree_from_tar. rewrite Hi.
  change (0, v) with (Z.of_nat (length (@nil Z)), v).
  erewrite (tar_loop _ ms trail [] v) by (done || by apply tar_fuel_enough).
  rewrite (visit_members _ (λ m st, Next (add_member st m)) ms trail); [|done|].
  - cbn [obind]. f_equal. clear. revert v. induction ms as [|m ms IH]; intros v; [done|]. apply IH.
  - intros p m rest st Heq Hm. simpl in Heq. unfold add_member.
    rewrite bool_decide_false by apply Hm. cbn [negb]. rewrite andb_true_r.
    case_decide as E.
    + rewrite E. done.
    + destruct (m_data m) as [|b d] eqn:Ed; [done|].
      rewrite (proj2 (Z.ltb_lt _ _)) by (simpl; lia). rewrite <- Ed. rewrite Heq, raw_slice_member by done. done.
Qed.

(** Searching the initramfs.  On the image of any archive of well-formed
    members, [find_file] terminates and returns the data of the first member
    with the requested name, byte for byte, or [None] if there is none; header
    parsing, octal sizes and block padding included. *)
Theorem find_file_archive v ms trail name : INITRAMFS v = Some (archive ms trail) → Forall member_wf ms →
  Z.of_nat (length (archive ms trail)) < 2 ^ 63 → find_file v name = Ret (assoc name ms).
Proof.
  intros Hi Hwf Hlen. unfold find_file. rewrite Hi.
  change (0, tt) with (Z.of_nat (length (@nil Z)), tt).
  erewrite (tar_loop _ ms trail [] tt) by (done || by apply tar_fuel_enough).
  rewrite (visit_members _ (λ m _, if decide (m_name m = name) then Done (m_data m) else Next tt) ms trail); [|done|].
  - cbn [obind]. f_equal. clear. induction ms as [|m ms IH]; [done|]. simpl. by case_decide.
  - intros p m rest st Heq Hm. simpl in Heq. case_decide; [|done].
    rewrite Heq, raw_slice_member by done. done.
Qed.

Lemma children_fold v ms k : children (foldl add_member v ms) !! k =
  match last (filter (λ m, trim_start_slashes (m_name m) = k ∧ m_data m ≠ []) ms) with
  | Some m => Some (TarVNode (m_data m))
  | None => children v !! k
  end.
Proof.
  revert v. induction ms as [|m ms IH]; intros v; simpl; [done|]. rewrite IH, filter_cons.
  unfold add_member, add. destruct (decide (m_data m = [])) as [E|E].
  - rewrite decide_False by tauto. done.
  - destruct (decide (trim_start_slashes (m_name m) = k)) as [Ek|Ek].
    + rewrite decide_True by done. cbn [children].
      destruct (filter _ ms) as [|x l] eqn:Ef; simpl.
      * rewrite Ek. by rewrite lookup_insert_eq.
      * destruct (last (x :: l)) eqn:El; [done|]. by apply last_None in El.
    + rewrite decide_False by tauto. cbn [children]. by rewrite lookup_insert_ne.
Qed.

Lemma fields_fold v ms :
  INITRAMFS (foldl add_member v ms) = INITRAMFS v ∧ mounts (foldl add_member v ms) = mounts v.
Proof.
  revert v. induction ms as [|m ms IH]; intros v; simpl; [done|]. destruct (IH (add_member v m)) as [-> ->].
  unfold add_member. by case_decide.
Qed.

(** C22: booting from an initramfs.  After [init] and [build_vfs_tree_from_tar],
    the path of every non-empty member with an ASCII name without slashes that no
    later member overrides resolves to a node that holds the member's data; reading that
    node from any offset gives the corresponding bytes. *)
Theorem boot_tree_resolves v ms1 m ms2 trail offset len :
  let ms := ms1 ++ m :: ms2 in
  Forall member_wf ms → Z.of_nat (length (archive ms trail)) < 2 ^ 63 → mounts v = ∅ →
  m_data m ≠ [] → SLASH ∉ m_name m →
  Forall (λ m', trim_start_slashes (m_name m') ≠ m_name m) ms2 → 0 ≤ offset → 0 ≤ len →
  wp (build_vfs_tree_from_tar (vfs_init v (archive ms trail))) (λ v',
    wp (resolve_path v' (SLASH :: m_name m)) (λ o,
      ∃ n, o = Some n ∧ node_get_size n = Z.of_nat (length (m_data m))
        ∧ node_read n offset len = Ret (take (Z.to_nat len) (drop (Z.to_nat offset) (m_data m))))).
Proof.
  intros ms Hwf Hlen Hmt Hd Hs Hlast Hoff Hl. rewrite (build_vfs_tree_spec _ ms trail) by done. apply wp_ret.
  assert (m_name m ≠ []) as Hne.
  { apply Forall_app in Hwf as [_ Hwf]. inversion_clear Hwf as [|? ? Hm _]. apply Hm. }
  unfold resolve_path, get_mount. destruct (fields_fold (vfs_init v (archive ms trail)) ms) as [_ Hmounts].
  rewrite Hmounts. simpl mounts. rewrite Hmt, lookup_empty.
  change (SLASH :: m_name m) with ([] ++ SLASH :: m_name m).
  rewrite components_app, (components_name (m_name m)) by done. change (components []) with (@nil str).
  cbn [app walk default from_option node_is_dir negb]. unfold get_mount. rewrite Hmounts. simpl mounts.
  rewrite Hmt, lookup_empty. cbn [node_lookup]. rewrite children_fold.
  assert (trim_start_slashes (m_name m) = m_name m) as Ht.
  { apply trim_start_with_none. intros c Hc. apply Z.eqb_neq. intros ->. done. }
  unfold ms. rewrite filter_app, last_app, filter_cons_True by done.
  assert (filter (λ m', trim_start_slashes (m_name m') = m_name m ∧ m_data m' ≠ []) ms2 = []) as ->.
  { clear -Hlast. induction Hlast as [|x l Hx _ IH]; [done|]. rewrite filter_cons_False by tauto. done. }
  simpl. eexists. split_and!; [done|done|]. simpl. f_equal. unfold tar_read.
  destruct (Z.leb_spec (Z.of_nat (length (m_data m))) offset).
  - rewrite drop_ge by lia. by rewrite take_nil.
  - unfold sub. destruct (decide (len ≤ Z.of_nat (length (m_data m)) - offset)).
    + by rewrite Z.min_l by lia.
    + rewrite Z.min_r by lia. rewrite !take_ge; [done|rewrite length_drop; lia..].
Qed.

(** The directory tree without the entries whose name has a slash. *)
Lemma walk_plain v1 v2 parts : mounts v1 = mounts v2 →
  (∀ k, SLASH ∉ k → children v1 !! k = children v2 !! k) → Forall (λ p, SLASH ∉ p) parts →
  ∀ cur path, walk v1 cur path parts = walk v2 cur path parts.
Proof.
  intros Hm Hc Hp. induction Hp as [|p parts Hp _ IH]; intros cur path; [done|]. cbn [walk].
  destruct (negb (node_is_dir cur)); [done|]. unfold get_mount. rewrite Hm.
  destruct (mounts v2 !! _); [apply IH|].
  assert (node_lookup v1 cur p = node_lookup v2 cur p) as ->.
  { destruct cur; simpl; [by rewrite Hc|done..]. }
  destruct (node_lookup v2 cur p) as [[n|]|]; simpl; [apply IH|done..].
Qed.

(** Members in subdirectories are unreachable.  [build_vfs_tree_from_tar]
    stores a member under its whole name and [resolve_path] looks up one
    component at a time, so the members whose name contains a slash after the
    leading ones have no effect on any path: the tree of an archive resolves
    every path as the tree of its plain members does. *)
Theorem slash_members_unreachable v ms trail path :
  let plain := filter (λ m, SLASH ∉ trim_start_slashes (m_name m)) ms in
  Forall member_wf ms → Z.of_nat (length (archive ms trail)) < 2 ^ 63 →
  Z.of_nat (length (archive plain trail)) < 2 ^ 63 →
  wp (build_vfs_tree_from_tar (vfs_init v (archive ms trail))) (λ v1,
    wp (build_vfs_tree_from_tar (vfs_init v (archive plain trail))) (λ v2,
      resolve_path v1 path = resolve_path v2 path)).
Proof.
  intros plain Hwf Hlen Hlen'. rewrite (build_vfs_tree_spec _ ms trail) by done. apply wp_ret.
  assert (Forall member_wf plain) as Hwf'.
  { apply Forall_forall. intros m [_ Hm]%list_elem_of_filter. by eapply Forall_forall in Hwf. }
  rewrite (build_vfs_tree_spec _ plain trail) by done. apply wp_ret.
  destruct (fields_fold (vfs_init v (archive ms trail)) ms) as [_ Hm1].
  destruct (fields_fold (vfs_init v (archive plain trail)) plain) as [_ Hm2].
  unfold resolve_path, get_mount. rewrite Hm1, Hm2. apply walk_plain; [by rewrite Hm1, Hm2| |].
  - intros k Hk. rewrite !children_fold. unfold plain. rewrite list_filter_filter.
    erewrite (list_filter_iff (λ m, trim_start_slashes (m_name m) = k ∧ m_data m ≠ [])); [reflexivity|].
    intros m. split; [|tauto]. intros [<- Hd]. done.
  - eapply Forall_impl; [apply components_no_slash|]. intros p [Hp _]. exact Hp.
Qed.

(** ** Mounts *)

(** The path the walk has rebuilt after the components [l]. *)
Definition canonical_path (l : list str) : str := concat (map (cons SLASH) l).

Lemma walk_app v l1 l2 : ∀ cur path, walk v cur path (l1 ++ l2) =
  (o <- walk v cur path l1;;
   match o with Some n => walk v n (path ++ canonical_path l1) l2 | None => Ret None end).
Proof.
  induction l1 as [|p l1 IH]; intros cur path; [unfold canonical_path; simpl; by rewrite app_nil_r|].
  cbn [app walk]. destruct (negb (node_is_dir cur)); [done|].
  assert (path ++ canonical_path (p :: l1) = (path ++ SLASH :: p) ++ canonical_path l1) as ->
    by (unfold canonical_path; simpl; by rewrite <- app_assoc).
  destruct (get_mount v _); [apply IH|].
  destruct (node_lookup v cur p) as [[n|]|]; simpl; [apply IH|done..].
Qed.

(** A mount does not affect the walk to a shorter path. *)
Lemma walk_mount v mp n l : ∀ cur path, (length (path ++ canonical_path l) < length mp)%nat →
  walk (mount v mp n) cur path l = walk v cur path l.
Proof.
  induction l as [|p l IH]; intros cur path Hlen; [done|]. cbn [walk].
  unfold canonical_path in Hlen. cbn [map concat] in Hlen. fold (canonical_path l) in Hlen. rewrite app_assoc in Hlen.
  destruct (negb (node_is_dir cur)); [done|]. unfold get_mount. cbn [mount mounts].
  rewrite lookup_insert_ne by (intros ->; rewrite length_app in Hlen; lia).
  destruct (mounts v !! _); [by apply IH|].
  assert (node_lookup (mount v mp n) cur p = node_lookup v cur p) as -> by (by destruct cur).
  destruct (node_lookup v cur p) as [[n'|]|]; simpl; [by apply IH|done..].
Qed.

(** Mounting.  When a path resolves to a directory, mounting a node on an
    entry of it makes the entry's path resolve to the node (whether or not the
    directory has such an entry), every longer path continue inside the mounted
    node, and leaves the directory's own path as it was; unmounting restores the
    table. *)
Theorem mount_visible v path name (d n : node V) q :
  let mp := canonical_path (components path) ++ SLASH :: name in
  let v' := mount v mp n in
  resolve_path v path = Ret (Some d) → node_is_dir d = true → name ≠ [] → SLASH ∉ name →
  mounts v !! mp = None →
  resolve_path v' path = Ret (Some d)
  ∧ resolve_path v' (path ++ SLASH :: name) = Ret (Some n)
  ∧ resolve_path v' ((path ++ SLASH :: name) ++ SLASH :: q) = walk v' n mp (components q)
  ∧ unmount v' mp = (true, v).
Proof.
  intros mp v' Hp Hd Hne Hs Hmp.
  assert (get_mount v' [SLASH] = get_mount v [SLASH]) as Hroot.
  { unfold get_mount, v'. cbn [mount mounts]. rewrite lookup_insert_ne; [done|]. unfold mp. intros Heq.
    apply (f_equal length) in Heq. rewrite length_app in Heq. destruct name; [done|]. simpl in Heq. lia. }
  assert (resolve_path v' path = Ret (Some d)) as Hp'.
  { rewrite <- Hp. unfold resolve_path. rewrite Hroot. apply walk_mount. unfold mp.
    rewrite app_nil_l, length_app. simpl. lia. }
  assert (resolve_path v' (path ++ SLASH :: name) = Ret (Some n)) as Hn.
  { unfold resolve_path in *. rewrite components_app, (components_name name), walk_app, Hp' by done.
    cbn [obind app walk]. rewrite Hd. cbn [negb]. unfold get_mount, v'. cbn [mount mounts].
    fold mp. by rewrite lookup_insert_eq. }
  split_and!; [done|done| |].
  - unfold resolve_path in *. rewrite components_app, walk_app, Hn. cbn [obind app]. f_equal.
    rewrite components_app, (components_name name) by done. unfold canonical_path, mp.
    rewrite map_app, concat_app. cbn [map concat]. by rewrite app_nil_r.
  - unfold unmount, v'. cbn [mount mounts]. rewrite lookup_insert_eq. f_equal.
    destruct v. cbn [mounts INITRAMFS children] in *. by rewrite delete_insert_id.
Qed.

(** ** Arbitrary images *)

(** The run does not panic and does not run out of fuel; the only way not to
    return is a slice that leaves the image. *)
Definition in_bounds_or {A} (m : outcome A) (Q : A → Prop) : Prop :=
  match m with Ret a => Q a | Stop OutOfBounds => True | Stop _ => False end.

Lemma tar_size_bound h : 0 ≤ tar_size h < 8 ^ 11.
Proof.
  unfold tar_size. destruct (from_str_radix_8 _) as [x|] eqn:E; [|done]. apply from_str_radix_8_bound in E.
  cbn [default from_option]. unfold id. split; [lia|]. eapply Z.lt_le_trans; [apply E|]. apply Z.pow_le_mono_r; [lia|].
  pose proof (length_trim (default [48] (from_utf8 (sub 124 11 h)))) as Ht.
  destruct (from_utf8 (sub 124 11 h)) as [s|] eqn:Es; cbn [default from_option] in *; [|by vm_compute].
  apply (length_from_utf8 (length (sub 124 11 h))) in Es; [|done].
  unfold sub in Es. rewrite length_take in Es. unfold id in *. lia.
Qed.

Lemma tar_loop_bounded {S R} (visit : str → Z → Z → S → outcome (flow S R)) (Q : R → Prop) img :
  Z.of_nat (length img) < 2 ^ 63 →
  (∀ name start size s, 0 ≤ start → 0 ≤ size →
     in_bounds_or (visit name start size s) (λ r, match r with Done x => Q x | Next _ => True end)) →
  ∀ fuel off s, 0 ≤ off < 2 ^ 63 + 2 ^ 34 → Z.of_nat (length img) - off < 512 * Z.of_nat fuel → (0 < fuel)%nat →
  in_bounds_or (loop fuel (tar_round img visit) (off, s)) (λ r, match r with inr x => Q x | inl _ => True end).
Proof.
  intros Hlen Hv. induction fuel as [|fuel IH]; intros off s Hoff Hf Hpos; [lia|]. cbn [loop].
  unfold tar_round, uadd at 1. rewrite checked_ok by lia. cbn [obind].
  destruct (Z.leb_spec (off + 512) (Z.of_nat (length img))) as [Hle|]; [|done]. cbn [negb].
  destruct (sub off 512 img) as [|b hd] eqn:Eh.
  { apply (f_equal length) in Eh. rewrite length_sub in Eh by lia. done. }
  rewrite <- Eh. assert (vget (sub off 512 img) 0 = Ret b) as -> by (unfold vget; by rewrite Eh). cbn [obind].
  destruct (b =? 0); [done|]. pose proof (tar_size_bound (sub off 512 img)) as Hs.
  change (8 ^ 11) with 8589934592 in Hs.
  pose proof (Hv (tar_name (sub off 512 img)) (off + 512) (tar_size (sub off 512 img)) s ltac:(lia) ltac:(lia)) as Hvis.
  destruct (visit _ _ _ s) as [[s'|x]|r]; cbn [obind]; [|done|by destruct r].
  unfold next_offset, uadd, umul.
  rewrite checked_ok by lia. cbn [obind]. rewrite checked_ok by zlia. cbn [obind].
  rewrite checked_ok by zlia. cbn [obind]. rewrite checked_ok by zlia. cbn [obind].
  apply IH; [zlia..|]. destruct fuel; [|lia]. zlia.
Qed.

(** Scanning an arbitrary image.  Whatever bytes the initramfs holds, both
    scans terminate without a panic in either profile: offsets cannot overflow
    and every round advances.  A file returned by [find_file] is a range of the
    image.  The one thing that can go wrong is a header whose size field runs
    past the end of the image, for which the code still builds the slice. *)
Theorem tar_scan_bounded v img name : INITRAMFS v = Some img → Z.of_nat (length img) < 2 ^ 63 →
  in_bounds_or (find_file v name) (λ o,
    match o with Some d => ∃ start, 0 ≤ start ∧ d = sub start (Z.of_nat (length d)) img | None => True end)
  ∧ in_bounds_or (build_vfs_tree_from_tar v) (λ v', mounts v' = mounts v).
Proof.
  intros Hi Hlen. unfold find_file, build_vfs_tree_from_tar. rewrite Hi.
  assert (Z.of_nat (length img) - 0 < 512 * Z.of_nat (tar_fuel img)) as Hf.
  { unfold tar_fuel. rewrite !Nat2Z.inj_succ, Nat2Z.inj_div. zlia. }
  split.
  - pose proof (tar_loop_bounded (λ nm start size (_ : unit),
      if decide (nm = name) then d <- raw_slice img start size;; Ret (Done d) else Ret (Next tt))
      (λ d, ∃ start, 0 ≤ start ∧ d = sub start (Z.of_nat (length d)) img) img Hlen) as HL.
    specialize (HL ltac:(intros nm start size s Hs Hz; cbv beta; case_decide; [|done]; unfold raw_slice;
      destruct (Z.leb_spec (start + size) (Z.of_nat (length img))); [|done]; exists start; split; [done|];
      rewrite length_sub by lia; f_equal; lia) (tar_fuel img) 0 tt ltac:(lia) Hf ltac:(unfold tar_fuel; lia)).
    destruct (loop _ _ _) as [[u|d]|r]; [done|exact HL|exact HL].
  - set (visit := λ (nm : str) (start size : Z) w, _).
    assert (∀ fuel off w, mounts w = mounts v → in_bounds_or (loop fuel (tar_round img visit) (off, w)) (λ _, True) →
      in_bounds_or (loop fuel (tar_round img visit) (off, w))
        (λ r, match r with inl w' => mounts w' = mounts v | inr e => match e with end end)) as Hm.
    { induction fuel as [|fuel IH]; intros off w Hw HB; [done|]. cbn [loop] in *. unfold tar_round in *.
      destruct (uadd 64 off 512) as [st|]; [|done]. cbn [obind] in *.
      destruct (negb _); [done|]. destruct (vget _ 0) as [b|]; [|done]. cbn [obind] in *.
      destruct (b =? 0); [done|]. unfold visit in *.
      destruct (_ && _); [destruct (raw_slice _ _ _); [|done]|]; cbn [obind] in *;
        (destruct (next_offset _ _); [|done]); cbn [obind] in *; by apply IH. }
    pose proof (tar_loop_bounded visit (λ _, True) img Hlen) as HL.
    specialize (HL ltac:(intros nm start size s Hs Hz; unfold visit; destruct (_ && _); [|done]; unfold raw_slice;
      by destruct (_ <=? _)) (tar_fuel img) 0 v ltac:(lia) Hf ltac:(unfold tar_fuel; lia)).
    specialize (Hm (tar_fuel img) 0 v eq_refl).
    destruct (loop _ _ _) as [[w|e]|r]; [apply Hm, HL|done|exact HL].
Qed.
End VfsTheorems.

(** ** Witnesses *)

(** A disk driver whose only node is an empty directory. *)
#[local] Instance unit_vnode : VNode unit := {|
  vn_read := λ _ _ _, Ret [];
  vn_get_size := λ _, 0;
  vn_is_dir := λ _, true;
  vn_lookup := λ _ _, Ret None |}.

Definition shell_name : str := [115; 104; 101; 108; 108].
Definition sample_members : list member :=
  [gnu_member shell_name [127; 69; 76; 70]; gnu_member [98; 105; 110; 47; 97] [1; 2; 3]].
Definition empty_vfs : vfs unit := mkVfs None ∅ ∅.
Definition booted_vfs : vfs unit := vfs_init empty_vfs (archive sample_members (replicate 3 0)).

Lemma sample_members_wf : Forall member_wf sample_members.
Proof.
  repeat (apply Forall_cons; split); try apply Forall_nil; try done;
    (split; [done|]; split; [simpl; lia|]; split; [|split; [done|split; reflexivity]]; repeat constructor; simpl; lia).
Qed.

Lemma find_file_archive_witness :
  @find_file true unit booted_vfs shell_name = Ret (Some [127; 69; 76; 70]).
Proof.
  exact (@find_file_archive true unit booted_vfs sample_members (replicate 3 0) shell_name eq_refl sample_members_wf eq_refl).
Defined.

Lemma boot_tree_resolves_witness :
  wp (@build_vfs_tree_from_tar true unit booted_vfs) (λ v',
    wp (@resolve_path unit _ v' (SLASH :: shell_name)) (λ o,
      ∃ n, o = Some n ∧ node_get_size n = 4 ∧ node_read n 1 2 = Ret [69; 76])).
Proof.
  apply (@boot_tree_resolves true unit _ empty_vfs [] (gnu_member shell_name [127; 69; 76; 70])
    [gnu_member [98; 105; 110; 47; 97] [1; 2; 3]] (replicate 3 0) 1 2); try reflexivity; try discriminate.
  - exact sample_members_wf.
  - vm_compute. intros Hin. repeat (apply elem_of_cons in Hin as [Hin|Hin]; [discriminate|]).
    by apply elem_of_nil in Hin.
  - repeat constructor. discriminate.
Defined.

Lemma slash_members_unreachable_witness :
  wp (@build_vfs_tree_from_tar true unit booted_vfs) (λ v1,
    wp (@build_vfs_tree_from_tar true unit (vfs_init empty_vfs
          (archive (filter (λ m, SLASH ∉ trim_start_slashes (m_name m)) sample_members) (replicate 3 0)))) (λ v2,
      @resolve_path unit _ v1 [47; 98; 105; 110; 47; 97] = @resolve_path unit _ v2 [47; 98; 105; 110; 47; 97])).
Proof.
  apply (@slash_members_unreachable true unit _ empty_vfs sample_members (replicate 3 0)).
  - exact sample_members_wf.
  - reflexivity.
  - vm_compute. reflexivity.
Defined.

Lemma mount_visible_witness :
  @resolve_path unit _ (mount empty_vfs [47; 109] (DiskNode tt)) [47; 109] = Ret (Some (DiskNode tt)).
Proof.
  destruct (@mount_visible unit _ empty_vfs [] [109] RootDir (DiskNode tt) []) as (_ & H & _); try done.
  intros Hin. apply elem_of_cons in Hin as [Hin|Hin]; [discriminate|by apply elem_of_nil in Hin].
Defined.

Lemma tar_scan_bounded_witness :
  @in_bounds_or (option (list Z)) (@find_file true unit booted_vfs [120]) (λ o,
    match o with Some d => ∃ start, 0 ≤ start ∧ d = sub start (Z.of_nat (length d)) (archive sample_members (replicate 3 0)) | None => True end).
Proof. exact (proj1 (@tar_scan_bounded true unit booted_vfs (archive sample_members (replicate 3 0)) [120] eq_refl eq_refl)). Defined.
