(* ===== verification/Elf.v ===== *)
(** * The ELF loader (src/src/task/elf.rs)

    [load_elf] maps every [PT_LOAD] segment of an in-memory executable into a
    given address space and copies its bytes through the direct map.  The reads of
    the image go through raw pointers: one that leaves the image is [OutOfBounds].

    The theorems: a well-formed executable is loaded so that ring 3 sees the bytes
    of its segments at their addresses, followed by zeros up to the memory size,
    and no frame that was in use before is changed; or the loader reports
    [MemoryMappingFailed]; and a segment on a page that is mapped already, of the
    kernel for instance, is written over what it holds. *)

From S2P Require Import Prelude KError X86 FrameAlloc Paging PageTree PageMapper AddrSpace UserMem Vfs.

#[local] Open Scope list_scope.

Section Elf.
Context `{Profile} `{VirtAddrNew} `{PhysAddrNew} `{Mapper}.
Context (hhdm : option Z).
Implicit Types (img : list Z) (m : mem).

(** [read_unaligned(elf_ptr.add(off) as *const _)]. *)
Definition elf_read img (off n : Z) : outcome Z := b <- raw_slice img off n;; Ret (le b).

(** [while current_page < end_page]: the pages of a segment. *)
Definition map_round (target_pml4 end_page : Z) (st : mem * bool * Z)
    : outcome (flow (mem * bool * Z) (mem * bool)) :=
  let '(m, mapping_success, current_page) := st in
  if negb (current_page <? end_page) then Ret (Done (m, mapping_success)) else
  page_addr <- virt_new current_page;;
  let* (res, m) := allocate_and_map_user_page hhdm target_pml4 page_addr m in
  let mapping_success := match res with Ok _ => mapping_success | Err _ => false end in
  current_page <- uadd 64 current_page 0x1000;;
  Ret (Next (m, mapping_success, current_page)).

(** [while remaining > 0]: the bytes of a segment, page by page. *)
Definition copy_round img (target_pml4 hhdm_offset : Z) (st : mem * bool * Z * Z * Z)
    : outcome (flow (mem * bool * Z * Z * Z) (mem * bool)) :=
  let '(m, mapping_success, remaining, file_offset, current_vaddr) := st in
  if negb (0 <? remaining) then Ret (Done (m, mapping_success)) else
  let page_base := Z.land current_vaddr (unot 64 0xFFF) in
  let offset_in_page := current_vaddr mod 0x1000 in
  let bytes_to_copy := Z.min remaining (0x1000 - offset_in_page) in
  page <- virt_new page_base;;
  phys <- translate_in_pml4 hhdm target_pml4 (mem_ram m) page;;
  let* (m, mapping_success) :=
    match phys with
    | Some phys_addr =>
        p <- uadd 64 hhdm_offset phys_addr;;
        _hhdm_ptr <- uadd 64 p offset_in_page;;
        bytes <- raw_slice img file_offset bytes_to_copy;;
        r <- write_phys (mem_ram m) (phys_addr + offset_in_page) bytes;;
        Ret (set_ram m r, mapping_success)
    | None => Ret (m, false)
    end in
  current_vaddr <- uadd 64 current_vaddr bytes_to_copy;;
  file_offset <- uadd 64 file_offset bytes_to_copy;;
  remaining <- usub 64 remaining bytes_to_copy;;
  Ret (Next (m, mapping_success, remaining, file_offset, current_vaddr)).

(** One program header. *)
Definition load_header img (target_pml4 ph_offset ph_entry_size i : Z) (st : mem * bool) : outcome (mem * bool) :=
  let '(m, mapping_success) := st in
  step <- umul 16 i ph_entry_size;;
  ph <- uadd 64 ph_offset step;;
  p_type <- elf_read img ph 4;;
  if negb (p_type =? 1) then Ret st else
  p_offset <- elf_read img (ph + 0x08) 8;;
  p_vaddr <- elf_read img (ph + 0x10) 8;;
  p_filesz <- elf_read img (ph + 0x20) 8;;
  p_memsz <- elf_read img (ph + 0x28) 8;;
  if p_memsz =? 0 then Ret st else
  let start_page := Z.land p_vaddr (unot 64 0xFFF) in
  e <- uadd 64 p_vaddr p_memsz;;
  e <- uadd 64 e 0xFFF;;
  let end_page := Z.land e (unot 64 0xFFF) in
  let* (m, mapping_success) :=
    loop (S (Z.to_nat ((end_page - start_page) / 0x1000))) (map_round target_pml4 end_page)
      (m, mapping_success, start_page) in
  if (0 <? p_filesz) && negb (p_vaddr =? 0) then
    off <- hhdm_offset hhdm;;
    loop (Z.to_nat (p_filesz / 0x1000 + 3)) (copy_round img target_pml4 off)
      (m, mapping_success, p_filesz, p_offset, p_vaddr)
  else Ret (m, mapping_success).

Definition load_elf img (target_pml4 : Z) m : outcome (result Z ElfError * mem) :=
  if Z.of_nat (length img) <? 64 then Ret (Err TooSmall, m) else
  if negb (bool_decide (sub 0 4 img = [0x7F; 0x45; 0x4C; 0x46])) then Ret (Err InvalidMagicNumber, m) else
  class <- vget img 4;;
  if negb (class =? 2) then Ret (Err Not64Bit, m) else
  entry_point <- elf_read img 0x18 8;;
  ph_offset <- elf_read img 0x20 8;;
  ph_entries <- elf_read img 0x38 2;;
  ph_entry_size <- elf_read img 0x36 2;;
  let* (m, mapping_success) :=
    each_range 0 ph_entries (load_header img target_pml4 ph_offset ph_entry_size) (m, true) in
  Ret (if mapping_success then Ok entry_point else Err MemoryMappingFailed, m).
End Elf.

(** ** Executables *)

Definition e_entry (img : list Z) : Z := field 0x18 8 img.
Definition e_phoff (img : list Z) : Z := field 0x20 8 img.
Definition e_phentsize (img : list Z) : Z := field 0x36 2 img.
Definition e_phnum (img : list Z) : Z := field 0x38 2 img.

Section Headers.
Context (img : list Z).

(** Program header [i]. *)
Definition ph_at (i : Z) : Z := e_phoff img + i * e_phentsize img.
Definition ph_offset (i : Z) : Z := field (ph_at i + 0x08) 8 img.
Definition ph_vaddr (i : Z) : Z := field (ph_at i + 0x10) 8 img.
Definition ph_filesz (i : Z) : Z := field (ph_at i + 0x20) 8 img.
Definition ph_memsz (i : Z) : Z := field (ph_at i + 0x28) 8 img.

(** It is a segment to load. *)
Definition ph_loads (i : Z) : bool := (field (ph_at i) 4 img =? 1) && negb (ph_memsz i =? 0).

(** The bytes of the segment in the file. *)
Definition ph_bytes (i : Z) : list Z := sub (ph_offset i) (ph_filesz i) img.

Record elf_wf : Prop := {
  ew_len : 64 ≤ Z.of_nat (length img) < 2 ^ 63;
  ew_bytes : Forall (λ x, is_byte x) img;
  ew_magic : sub 0 4 img = [0x7F; 0x45; 0x4C; 0x46];
  ew_class : img !! 4%nat = Some 2;
  ew_table i : 0 ≤ i < e_phnum img → i * e_phentsize img < 2 ^ 16 ∧ ph_at i + 56 ≤ Z.of_nat (length img);
  ew_segment i : 0 ≤ i < e_phnum img → ph_loads i = true →
    0 < ph_vaddr i ∧ ph_vaddr i + ph_memsz i ≤ 2 ^ 47 ∧ ph_filesz i ≤ ph_memsz i
    ∧ ph_offset i + ph_filesz i ≤ Z.of_nat (length img);
  ew_disjoint i j : 0 ≤ i < e_phnum img → 0 ≤ j < e_phnum img → ph_loads i = true → ph_loads j = true → i ≠ j →
    ph_vaddr i + ph_memsz i ≤ ph_vaddr j ∨ ph_vaddr j + ph_memsz j ≤ ph_vaddr i;
}.

(** A page of segment [i], and of some segment. *)
Definition page_in_segment (i p : Z) : Prop := is_page p ∧ page_of (ph_vaddr i) ≤ p < ph_vaddr i + ph_memsz i.
Definition segment_page (p : Z) : Prop := ∃ i, 0 ≤ i < e_phnum img ∧ ph_loads i = true ∧ page_in_segment i p.

(** The loader's writes, newest first. *)
Fixpoint writes (n : nat) : list (Z * list Z) :=
  match n with
  | O => []
  | S n => let i := Z.of_nat n in
           if ph_loads i && (0 <? ph_filesz i) then (ph_vaddr i, ph_bytes i) :: writes n else writes n
  end.
End Headers.

(** The byte at [a] after some writes to zeroed memory. *)
Fixpoint want (w : list (Z * list Z)) (a : Z) : Z :=
  match w with
  | [] => 0
  | (va, l) :: w => if (va <=? a) && (a <? va + Z.of_nat (length l)) then nth (Z.to_nat (a - va)) l 0 else want w a
  end.

(** The pages hold what was written, and all of it was written to the pages. *)
Definition contents (um : gmap Z (list Z)) (w : list (Z * list Z)) : Prop :=
  (∀ a b, um !! page_of a = Some b → b !! Z.to_nat (a mod 4096) = Some (want w a))
  ∧ ∀ va l a, (va, l) ∈ w → va ≤ a < va + Z.of_nat (length l) → is_Some (um !! page_of a).

Lemma want_uncovered w a : (∀ va l, (va, l) ∈ w → ¬ (va ≤ a < va + Z.of_nat (length l))) → want w a = 0.
Proof.
  induction w as [|[va l] w IH]; intros Hn; cbn [want]; [done|].
  destruct (Z.leb_spec va a), (Z.ltb_spec a (va + Z.of_nat (length l))); cbn [andb]; try (apply IH; intros; apply Hn; by right).
  destruct (Hn va l); [left|lia].
Qed.

Lemma contents_map um w p : is_page p → um !! p = None → contents um w → contents (<[p := zero_frame]> um) w.
Proof.
  intros [Hp Hal] Hn [Hc Hw]. split.
  - intros a b. destruct (decide (page_of a = p)) as [E|Hne].
    + rewrite E, lookup_insert_eq. intros [= <-]. unfold zero_frame. rewrite lookup_replicate_2 by zlia. f_equal. symmetry.
      apply want_uncovered. intros va l Hin Ha. destruct (Hw va l a Hin Ha) as [x Hx]. rewrite E in Hx. congruence.
    + rewrite lookup_insert_ne by done. apply Hc.
  - intros va l a Hin Ha. destruct (Hw va l a Hin Ha) as [x Hx]. rewrite lookup_insert_ne; [by eexists|]. intros ->. congruence.
Qed.

Lemma nth_sub (l : list Z) o n k : 0 ≤ o → 0 ≤ k < n → o + n ≤ Z.of_nat (length l) →
  nth (Z.to_nat k) (sub o n l) 0 = nth (Z.to_nat (o + k)) l 0.
Proof.
  intros Ho Hk Hl. unfold sub. rewrite !nth_lookup, lookup_take_lt by lia. rewrite lookup_drop. do 2 f_equal. lia.
Qed.

(** Longer prefixes of a segment differ only in the bytes added. *)
Lemma want_extend w va o c n img a : 0 ≤ o → 0 ≤ c → 0 ≤ n → o + c + n ≤ Z.of_nat (length img) →
  ¬ (va + c ≤ a < va + c + n) → want ((va, sub o (c + n) img) :: w) a = want ((va, sub o c img) :: w) a.
Proof.
  intros Ho Hc Hn Hl Ha. cbn [want]. rewrite !length_sub, !Z2Nat.id by lia.
  destruct (Z.leb_spec va a); cbn [andb]; [|done]. destruct (Z.ltb_spec a (va + c)).
  - rewrite (proj2 (Z.ltb_lt _ _)) by lia. rewrite !nth_sub by lia. done.
  - by rewrite (proj2 (Z.ltb_ge _ _)) by lia.
Qed.

(** A chunk is written behind the first [c] bytes of a segment. *)
Lemma contents_copy um w p b va o c n img : um !! p = Some b → length b = 4096%nat →
  0 ≤ va → 0 ≤ o → 0 ≤ c → 0 < n → o + c + n ≤ Z.of_nat (length img) →
  page_of (va + c) = p → (va + c) mod 4096 + n ≤ 4096 → contents um ((va, sub o c img) :: w) →
  contents (<[p := splice ((va + c) mod 4096) (sub (o + c) n img) b]> um) ((va, sub o (c + n) img) :: w).
Proof.
  intros Hb Hlb Hva Ho Hc Hn Hl Hp Hpn [Hcont Hcov]. assert (0 ≤ (va + c) mod 4096) as Hk by zlia. split.
  - intros a x. destruct (decide (page_of a = p)) as [E|Hne].
    + rewrite E, lookup_insert_eq. intros [= <-]. rewrite lookup_splice; rewrite ?length_sub by lia; [|lia..|zlia].
      unfold page_of in *. destruct (Z.leb_spec ((va + c) mod 4096) (a mod 4096)),
        (Z.ltb_spec (a mod 4096) ((va + c) mod 4096 + Z.of_nat (Z.to_nat n))); cbn [andb].
      2-4: rewrite want_extend by lia; apply Hcont; unfold page_of; by rewrite E.
      cbn [want]. rewrite length_sub, Z2Nat.id by lia. rewrite (proj2 (Z.leb_le _ _)), (proj2 (Z.ltb_lt _ _)) by lia. cbn [andb].
      rewrite nth_sub, lookup_sub, nth_lookup by lia.
      replace (o + c + (a mod 4096 - (va + c) mod 4096)) with (o + (a - va)) by lia.
      destruct (lookup_lt_is_Some_2 img (Z.to_nat (o + (a - va)))) as [y ->]; [lia|done].
    + rewrite lookup_insert_ne by done. intros Hx. rewrite want_extend; [by apply Hcont|lia..|]. intros Ha. apply Hne.
      rewrite <- Hp. unfold page_of. zlia.
  - intros va' l a Hin Ha. apply lookup_insert_is_Some'. apply elem_of_cons in Hin as [[= -> ->]|Hin].
    + rewrite length_sub, Z2Nat.id in Ha by lia. destruct (decide (a < va + c)).
      * right. apply (Hcov va (sub o c img)); [left|]. rewrite length_sub, Z2Nat.id by lia. lia.
      * left. rewrite <- Hp. unfold page_of. zlia.
    + right. apply (Hcov va' l); [by right|done].
Qed.

(** The pages of a segment, and of all segments before [n]. *)
Definition seg_pages (img : list Z) (i : Z) : Z :=
  (page_of (ph_vaddr img i + ph_memsz img i + 0xFFF) - page_of (ph_vaddr img i)) / 0x1000.
Fixpoint pages_before (img : list Z) (n : nat) : Z :=
  match n with
  | O => 0
  | S n => pages_before img n + if ph_loads img (Z.of_nat n) then seg_pages img (Z.of_nat n) else 0
  end.
Definition elf_pages (img : list Z) : Z := pages_before img (Z.to_nat (e_phnum img)).

(** ** Loading *)

Section Load.
Context `{HP : Profile} `{HV : VirtAddrSpec} `{HA : PhysAddrSpec} (off : Z) `{HM : Mapper} `{HMS : !MapperSpec off}.
Context (img : list Z) (Helf : elf_wf img) (m0 : mem) (pml4 : Z).
Implicit Types (m : mem) (um : gmap Z (list Z)).

(** Frames that were free at the start. *)
Definition fresh (f : Z) : Prop := ¬ 0 < refs (mem_alloc m0) f.

Record loading m um : Prop := {
  ld_ok : mem_ok off m;
  ld_wf : space_wf m pml4;
  ld_grown : grown m0 m;
  ld_data : data_same m0 m pml4;
  ld_tables : tables_grown m0 m pml4;
  ld_views : views fresh m pml4 um;
  ld_plain p : segment_page img p → plain_path (mem_ram m) 3 pml4 p = true;
  ld_unmapped p : segment_page img p → um !! p = None → mapped (mem_ram m) pml4 p = false;
  ld_kept : plain_kept (mem_ram m0) (mem_ram m) pml4;
  ld_same a : 0 ≤ a < 2 ^ 47 → um !! page_of a = None → same_at (mem_ram m0) (mem_ram m) pml4 a;
  ld_pages p : is_Some (um !! p) → segment_page img p;
}.

Lemma data_same_trans m1 m2 : grown m0 m1 → data_same m0 m1 pml4 → tables_grown m0 m1 pml4 → data_same m1 m2 pml4 →
  data_same m0 m2 pml4.
Proof.
  intros Hg Hd Ht Hd2 x Hx Hp Hn. destruct (owned_grown _ _ _ Hg Hx Hp) as [Hx1 Hp1].
  rewrite Hd2; [by apply Hd|done|done|]. intros Hin. by destruct (Ht x Hin).
Qed.

Lemma tables_grown_trans m1 m2 : grown m0 m1 → space_wf m2 pml4 → total_frames (mem_alloc m2) = total_frames (mem_alloc m1) →
  tables_grown m0 m1 pml4 → tables_grown m1 m2 pml4 → tables_grown m0 m2 pml4.
Proof.
  intros Hg Hs Htot Ht1 Ht2 x Hx. destruct (Ht2 x Hx) as [Hin|Hn]; [by apply Ht1|]. right. intros Hp. apply Hn.
  pose proof (proj1 (Forall_forall _ _) (sw_owned _ _ Hs) x Hx) as [(f & -> & Hf) _].
  eapply owned_grown; [done| |done]. exists f. split; [done|]. destruct Hg as [Ht _]. lia.
Qed.

(** A page of a segment is mapped. *)
Lemma load_map m um p : loading m um → segment_page img p →
  wp (allocate_and_map_user_page (Some off) pml4 p m) (λ '(res, m'), ∃ um', loading m' um'
    ∧ nfree m ≤ nfree m' + 4 ∧ (result_ok res = false → nfree m < 4)
    ∧ um' = match res, um !! p with Ok _, None => <[p := zero_frame]> um | _, _ => um end).
Proof.
  intros Hld Hsp. pose proof Hsp as (i & Hi & Hl & [Hp Hal] & _). destruct Hld as [Hm Hs Hg Hd Ht Hv Hpl Hun Hkp Hsm Hpgs].
  assert (page_of p = p) as Ep by (unfold page_of; lia).
  eapply wp_mono; [apply (map_user_page_ok off pml4 p m); try done; rewrite Ep; by apply Hpl|]. intros [res m'] (Hk & Hfr & Hres).
  unfold user_page_result in Hres. rewrite Ep in Hres. eexists.
  split; [|split; [exact Hfr|split; [|reflexivity]]].
  2: { destruct res as [?|?]; [discriminate|]. intros _. by destruct Hres as (_ & _ & Hno). }
  assert (∀ um', views fresh m' pml4 um' → (∀ q, segment_page img q → um' !! q = None → mapped (mem_ram m') pml4 q = false) →
    (∀ a, 0 ≤ a < 2 ^ 47 → um' !! page_of a = None → um !! page_of a = None ∧ same_at (mem_ram m) (mem_ram m') pml4 a) →
    (∀ q, is_Some (um' !! q) → segment_page img q) → loading m' um') as Hfin.
  { intros um' Hv' Hun' Hsm' Hpgs'. pose proof Hk as [Hm' Hs' Hg' Hd' Hpl' _ Ht']. split; try done.
    - by eapply grown_trans.
    - by apply (data_same_trans m).
    - apply (tables_grown_trans m); try done. apply Hg'.
    - intros q Hq. apply Hpl'; [|by apply Hpl]. destruct Hq as (j & _ & _ & [Hq _] & _). done.
    - intros a Ha Hp0. by apply Hpl', Hkp.
    - intros a Ha Hn. destruct (Hsm' a Ha Hn) as [Hn0 Hs0]. eapply same_at_trans; [by apply Hsm|done]. }
  assert (∀ q, segment_page img q → 0 ≤ q < 2 ^ 47) as Hrange by (by intros q (j & _ & _ & [? _] & _)).
  destruct res as [[]|e].
  - destruct (um !! p) as [b|] eqn:Eb.
    + destruct (mapped (mem_ram m) pml4 p) eqn:Em; [subst m'; apply Hfin; done|].
      exfalso. destruct Hv as (fm & Hpg & _). destruct (Hpg p b Eb). unfold mapped in Em. rewrite pa_slot in Em.
      apply negb_false_iff, Z.eqb_eq in Em. by apply (entry_present (fm p)).
    + rewrite (Hun p Hsp Eb) in Hres. destruct Hres as (f & Hadd). pose proof Hadd as (_ & Hz & _ & _ & _ & _ & _ & Ho). apply Hfin.
      * eapply (views_added off); try done. unfold fresh. destruct Hg as [Htot Hr]. destruct Hadd as [Hf _].
        destruct (Hr f ltac:(lia)). lia.
      * intros q Hq Hn. destruct (decide (q = p)) as [->|Hne]; [by rewrite lookup_insert_eq in Hn|].
        rewrite lookup_insert_ne in Hn by done. destruct (Ho q (Hrange q Hq)) as [_ ->]; [|by apply Hun].
        destruct Hq as (j & _ & _ & [_ Hq] & _). unfold page_of. rewrite Hq. lia.
      * intros a Ha [Hn Hne]%lookup_insert_None. split; [done|]. apply Ho; [done|congruence].
      * intros q [<-|[_ Hq]]%lookup_insert_is_Some; [done|by apply Hpgs].
  - destruct Hres as [Hsame _]. apply Hfin; [| |intros a Ha Hn; split; [done|by apply Hsame]|done].
    + eapply (views_kept off); [done| |done]. intros q [b Hb]. apply Hsame. destruct Hv as (fm & Hpg & _).
      destruct (Hpg q b Hb) as [[? _] _ _ _ _ _ _ _]. done.
    + intros q Hq Hn. destruct (Hsame q (Hrange q Hq)) as [_ ->]. by apply Hun.
Qed.

(** Bytes are written to a page that was mapped; a page that was not mapped has no
    translation. *)
Lemma load_translate m um p : loading m um → segment_page img p →
  ∃ phys, translate_in_pml4 (Some off) pml4 (mem_ram m) p = Ret phys ∧
  match um !! p with
  | None => phys = None
  | Some b => ∃ f, phys = Some (f * FRAME_SIZE) ∧ page_at fresh m pml4 p f b
  end.
Proof.
  intros [Hm Hs _ _ _ Hv Hpl Hun _ _ _] Hsp. pose proof Hsp as (i & _ & _ & [Hp Hal] & _). unfold translate_in_pml4.
  rewrite (mapper_for_ok off m) by done. cbn [obind]. eexists. split; [done|]. destruct (um !! p) as [b|] eqn:Eb.
  - destruct Hv as (fm & Hpg & _). pose proof (Hpg p b Eb) as Hpa. exists (fm p). split; [|done].
    destruct (page_at_bytes off _ _ _ _ _ _ Hm Hpa) as (_ & _ & Hf).
    rewrite (translate_addr_spec m pml4 p _ Hm Hs Hp (pa_slot _ _ _ _ _ _ Hpa)).
    rewrite (proj2 (Z.eqb_neq _ _)) by apply entry_present. rewrite entry_frame by done. f_equal. lia.
  - pose proof (Hun p Hsp Eb) as Hn. unfold mapped in Hn. destruct (slot (mem_ram m) pml4 p) as [e|] eqn:Es.
    + rewrite (translate_addr_spec m pml4 p e) by done. apply negb_false_iff in Hn. by rewrite Hn.
    + apply translate_addr_unmapped; try done. by apply Hpl.
Qed.

Lemma load_write m um p b f k l : loading m um → segment_page img p → um !! p = Some b → page_at fresh m pml4 p f b →
  0 ≤ k → k + Z.of_nat (length l) ≤ 4096 → Forall (λ x, is_byte x) l →
  ∃ r, write_phys (mem_ram m) (f * FRAME_SIZE + k) l = Ret r ∧ loading (set_ram m r) (<[p := splice k l b]> um).
Proof.
  intros [Hm Hs Hg Hd Ht Hv Hpl Hun Hkp Hsm Hpgs] Hsp Hb Hpa Hk Hl Hby. destruct (page_at_bytes off _ _ _ _ _ _ Hm Hpa) as (Hlb & Hbb & _).
  replace (f * FRAME_SIZE + k) with (f * FRAME_SIZE + Z.of_nat (Z.to_nat k)) by lia. rewrite (write_phys_in (f * FRAME_SIZE) (Z_mod_mult f 4096) l _ b); [|apply Hpa|done|lia].
  rewrite Z2Nat.id by done. eexists. split; [done|].
  destruct (views_data off fresh m pml4 um p f b (splice k l b)) as (Hm' & Hs' & Hv' & Ht' & Hw'); try done.
  { rewrite length_splice; [done|lia|lia]. }
  { unfold splice. repeat apply Forall_app_2; [by apply Forall_take|done|by apply Forall_drop]. }
  split; try done.
  - intros x Hx Hp Hn. cbn [set_ram mem_ram]. rewrite lookup_insert_ne; [by apply Hd|]. intros <-.
    rewrite Z.div_mul in Hp by done. by apply (pa_allowed _ _ _ _ _ _ Hpa).
  - intros x Hx. apply Ht. by rewrite Ht' in Hx.
  - intros q Hq. destruct (Hw' q) as [_ ->]. by apply Hpl.
  - intros q Hq Hn. destruct (Hw' q) as [[_ ->] _]. apply Hun; [done|]. by apply lookup_insert_None in Hn as [? _].
  - intros a Ha Hp0. destruct (Hw' a) as [_ ->]. by apply Hkp.
  - intros a Ha [Hn _]%lookup_insert_None. eapply same_at_trans; [by apply Hsm|]. apply Hw'.
  - intros q [<-|[_ Hq]]%lookup_insert_is_Some; [done|by apply Hpgs].
Qed.

Lemma page_mask a : 0 ≤ a < 2 ^ 64 → Z.land a (unot 64 0xFFF) = page_of a.
Proof. intros Ha. change 0xFFF with (Z.ones 12). rewrite land_unot_ones by lia. unfold page_of. change (2 ^ 12) with 4096. zlia. Qed.

Lemma seg_range i : 0 ≤ ph_offset img i < 2 ^ 64 ∧ 0 ≤ ph_vaddr img i < 2 ^ 64 ∧ 0 ≤ ph_filesz img i < 2 ^ 64
  ∧ 0 ≤ ph_memsz img i < 2 ^ 64.
Proof. change (2 ^ 64) with (256 ^ 8). repeat split; apply field_range; done || apply Helf. Qed.

(** The progress of the loader: while all went well the pages hold the writes. *)
Definition progress um (ok : bool) w um' (ok' : bool) (done : Z → Prop) : Prop :=
  (∀ p, is_Some (um !! p) → is_Some (um' !! p))
  ∧ (ok' = true → ok = true ∧ contents um' w ∧ ∀ p, done p → is_Some (um' !! p)).

(** What the loader takes for [n] pages; with that many frames nothing fails. *)
Definition afforded m (ok : bool) m' (ok' : bool) (n : Z) : Prop :=
  nfree m ≤ nfree m' + 4 * n ∧ (ok = true → 4 * n ≤ nfree m → ok' = true).

Lemma map_loop m um (ok : bool) i w : 0 ≤ i < e_phnum img → ph_loads img i = true → loading m um → (ok = true → contents um w) →
  let s := page_of (ph_vaddr img i) in
  let e := page_of (ph_vaddr img i + ph_memsz img i + 0xFFF) in
  wp (loop (S (Z.to_nat ((e - s) / 0x1000))) (map_round (Some off) pml4 e) (m, ok, s)) (λ '(m', ok'),
    ∃ um', loading m' um' ∧ progress um ok w um' ok' (page_in_segment img i) ∧ afforded m ok m' ok' (seg_pages img i)).
Proof.
  intros Hi Hl Hld Hc s e. destruct (ew_segment _ Helf i Hi Hl) as (Hva & Hend & _).
  pose proof (seg_range i) as (_ & _ & _ & Hmz).
  eapply (wp_loop (λ '(m', ok', pg), ∃ um', loading m' um' ∧ pg mod 4096 = 0 ∧ s ≤ pg ≤ e
    ∧ progress um ok w um' ok' (λ p, is_page p ∧ s ≤ p < pg) ∧ afforded m ok m' ok' ((pg - s) / 4096)) (λ '(_, _, pg), Z.to_nat ((e - pg) / 4096))).
  2: { exists um. split; [done|]. split; [unfold s, page_of; zlia|]. split; [unfold s, e, page_of; zlia|].
       split; [|rewrite Z.sub_diag; split; [change (0 / 4096) with 0; lia|done]]. split; [done|].
       intros Hok. split_and!; [done|by apply Hc|]. intros p [_ ?]. lia. }
  2: lia.
  intros [[m' ok'] pg] (um' & Hld' & Hal & Hpg & [Hdom Hok'] & Hcost & Hgood). unfold map_round.
  assert (0 ≤ s ∧ e ≤ 2 ^ 47) as [Hs0 He] by (unfold s, e, page_of; zlia).
  destruct (Z.ltb_spec pg e) as [Hlt|Hge]; cbn [negb].
  2: { wp_step. exists um'. split; [done|]. assert (pg = e) as -> by lia. split; [|done]. split; [done|]. intros Hok. destruct (Hok' Hok) as (? & ? & Hd). split_and!; try done.
       intros p [Hp Hr]. apply Hd. split; [done|]. destruct Hp. unfold s, e, page_of in *. zlia. }
  rewrite virt_new_ok by (left; lia). wp_step. wp_step. cbv beta.
  assert (page_in_segment img i pg) as Hpis.
  { split; [split; [lia|done]|]. unfold s, e, page_of in *. zlia. }
  apply wp_bind. eapply wp_mono; [apply (load_map m' um' pg Hld'); by exists i|]. intros [res m2] (um2 & Hld2 & Hfr & Hfail & Eum2).
  wp_step. wp_step. wp_step. split; [|unfold e, page_of in *; zlia].
  assert (∀ p, is_Some (um' !! p) → is_Some (um2 !! p)) as Hdom2.
  { intros p Hp. subst um2. destruct res; [|done]. destruct (um' !! pg); [done|]. apply lookup_insert_is_Some'. by right. }
  assert ((pg + 0x1000 - s) / 4096 = (pg - s) / 4096 + 1) as Hnext by (clear; zlia).
  exists um2. split; [done|]. split; [zlia|]. split; [unfold e, page_of in *; zlia|]. split.
  2: { rewrite Hnext. split; [lia|]. intros Hok Hen. destruct res; [apply Hgood; [done|lia]|]. specialize (Hfail eq_refl). lia. }
  split; [auto|]. intros Hok. destruct res as [[]|]; [|done]. destruct (Hok' Hok) as (Hok0 & Hcont & Hd). split_and!; [done| |].
  - subst um2. destruct (um' !! pg) eqn:Ep; [done|]. apply contents_map; try done. apply Hpis.
  - intros p [Hp Hr]. destruct (decide (p = pg)) as [->|Hne].
    + subst um2. destruct (um' !! pg) eqn:Ep; [by rewrite Ep|]. rewrite lookup_insert_eq. by eexists.
    + apply Hdom2, Hd. split; [done|]. destruct Hp as [_ Hp]. zlia.
Qed.

(** The direct map covers the byte. *)
Lemma hhdm_ok m um p b f k : loading m um → page_at fresh m pml4 p f b → 0 ≤ k < 4096 →
  0 ≤ off + f * FRAME_SIZE < 2 ^ 64 ∧ 0 ≤ off + f * FRAME_SIZE + k < 2 ^ 64.
Proof.
  intros Hld Hpa Hk. pose proof (pa_frame _ _ _ _ _ _ Hpa) as Hf. pose proof (ld_ok _ _ Hld) as Hm.
  assert (∀ x, 0 ≤ x < 4096 → 0 ≤ off + (f * FRAME_SIZE + x) < 2 ^ 64) as Hx.
  { intros x Hx. destruct (mo_hhdm _ _ Hm (f * FRAME_SIZE + x)); unfold FRAME_SIZE in *; lia. }
  pose proof (Hx 0 ltac:(lia)). pose proof (Hx k Hk). lia.
Qed.

Lemma contents_start um w va : contents um w → contents um ((va, []) :: w).
Proof.
  intros [Hc Hw]. split.
  - intros a b Hb. cbn [want length]. rewrite (Hc a b Hb). f_equal.
    destruct (Z.leb_spec va a); cbn [andb]; [|done]. by rewrite (proj2 (Z.ltb_ge _ _)) by lia.
  - intros va' l a [[= -> ->]|Hin]%elem_of_cons; [cbn; lia|]. by apply (Hw va' l).
Qed.

Lemma segment_byte_page i c : 0 ≤ i < e_phnum img → ph_loads img i = true → 0 ≤ c < ph_filesz img i →
  page_in_segment img i (page_of (ph_vaddr img i + c)).
Proof.
  intros Hi Hl Hc. destruct (ew_segment _ Helf i Hi Hl) as (Hva & Hend & Hfz & _). set (va := ph_vaddr img i + c).
  split; [apply page_of_page; unfold va; lia|]. assert (ph_vaddr img i ≤ va < ph_vaddr img i + ph_memsz img i) as Hr by (unfold va; lia).
  clearbody va. clear - Hr. unfold page_of. zlia.
Qed.

(** One chunk of a segment; [c] bytes of it are in place. *)
Lemma copy_step m um (ok : bool) i w c : 0 ≤ i < e_phnum img → ph_loads img i = true → loading m um →
  0 ≤ c < ph_filesz img i → (ok = true → contents um ((ph_vaddr img i, sub (ph_offset img i) c img) :: w)) →
  wp (copy_round (Some off) img pml4 off (m, ok, ph_filesz img i - c, ph_offset img i + c, ph_vaddr img i + c)) (λ r,
    ∃ n m' um' ok', r = Next (m', ok', ph_filesz img i - (c + n), ph_offset img i + (c + n), ph_vaddr img i + (c + n))
      ∧ n = Z.min (ph_filesz img i - c) (4096 - (ph_vaddr img i + c) mod 4096)
      ∧ mem_alloc m' = mem_alloc m ∧ (is_Some (um !! page_of (ph_vaddr img i + c)) → ok' = ok)
      ∧ loading m' um' ∧ progress um ok ((ph_vaddr img i, sub (ph_offset img i) (c + n) img) :: w) um' ok' (λ _, False)).
Proof.
  intros Hi Hl Hld Hc Hcont. destruct (ew_segment _ Helf i Hi Hl) as (Hva & Hend & Hfz & Hof).
  pose proof (seg_range i) as (Ho & _ & _ & Hmz). pose proof (ew_len _ Helf) as Hlen.
  set (va := ph_vaddr img i + c) in *. set (n := Z.min _ (4096 - va mod 4096)).
  assert (0 < n ∧ va mod 4096 + n ≤ 4096 ∧ c + n ≤ ph_filesz img i) as (Hn & Hnp & Hcn) by (unfold n; zlia).
  unfold copy_round. rewrite (proj2 (Z.ltb_lt 0 _)) by lia. cbn [negb]. rewrite page_mask by (unfold va; lia).
  change 0x1000 with 4096. fold n. set (p := page_of va) in *.
  assert (page_in_segment img i p) as Hpis by (by apply segment_byte_page).
  assert (segment_page img p) as Hsp by (by exists i).
  rewrite virt_new_ok by (left; apply Hpis). wp_step. wp_step. cbv beta.
  destruct (load_translate m um p Hld Hsp) as (phys & -> & Hph). cbn [obind]. wp_step.
  destruct (um !! p) as [b|] eqn:Eb.
  - destruct Hph as (f & -> & Hpa). destruct (hhdm_ok m um p b f (va mod 4096) Hld Hpa ltac:(zlia)) as [H1 H2].
    destruct (load_write m um p b f (va mod 4096) (sub (ph_offset img i + c) n img)) as (r & Hw & Hld'); try done; [zlia| | |].
    { rewrite length_sub by lia. lia. }
    { apply Forall_take, Forall_drop, Helf. }
    wp_step. wp_step. wp_step. wp_step. unfold raw_slice. rewrite (proj2 (Z.leb_le _ _)) by lia. wp_step. wp_step. wp_step.
    rewrite Hw. wp_step. wp_step. cbv beta iota. repeat (wp_step; [..|cbv beta]). 
    exists n, (set_ram m r), (<[p := splice (va mod 4096) (sub (ph_offset img i + c) n img) b]> um), ok.
    split; [unfold va; by rewrite !Z.add_assoc, Z.sub_add_distr|]. do 4 (split; [done|]). split.
    + intros q Hq. apply lookup_insert_is_Some'. by right.
    + intros Hok. split_and!; [done| |done]. destruct (page_at_bytes off _ _ _ _ _ _ (ld_ok _ _ Hld) Hpa) as [Hlb _].
      apply contents_copy; try done; lia || auto.
  - subst phys. wp_step. cbv beta iota. repeat (wp_step; [..|cbv beta]).
    exists n, m, um, false. split; [unfold va; by rewrite !Z.add_assoc, Z.sub_add_distr|]. do 2 (split; [done|]).
    split; [intros [b Hb]; fold va p in Hb; congruence|]. by split.
Qed.

Lemma progress_trans um1 um2 um3 (ok1 ok2 ok3 : bool) w w' P Q : progress um1 ok1 w um2 ok2 P → progress um2 ok2 w' um3 ok3 Q →
  progress um1 ok1 w' um3 ok3 (λ p, P p ∨ Q p).
Proof.
  intros [D1 O1] [D2 O2]. split; [auto|]. intros Hok. destruct (O2 Hok) as (Hok2 & Hc & HQd). destruct (O1 Hok2) as (Hok1 & _ & HPd).
  split_and!; try done. intros p [Hp|Hp]; auto.
Qed.

Lemma progress_weaken um um' (ok ok' : bool) w (P Q : Z → Prop) : (∀ p, Q p → P p) → progress um ok w um' ok' P → progress um ok w um' ok' Q.
Proof. intros HQ [Hd Ho]. split; [done|]. intros Hok. destruct (Ho Hok) as (? & ? & ?). auto. Qed.

Lemma copy_loop m um (ok : bool) i w : 0 ≤ i < e_phnum img → ph_loads img i = true → loading m um → (ok = true → contents um w) →
  wp (loop (Z.to_nat (ph_filesz img i / 0x1000 + 3)) (copy_round (Some off) img pml4 off)
        (m, ok, ph_filesz img i, ph_offset img i, ph_vaddr img i)) (λ '(m', ok'),
    ∃ um', loading m' um' ∧ progress um ok ((ph_vaddr img i, ph_bytes img i) :: w) um' ok' (λ _, False)
      ∧ mem_alloc m' = mem_alloc m ∧ ((∀ p, page_in_segment img i p → is_Some (um !! p)) → ok' = ok)).
Proof.
  intros Hi Hl Hld Hc. destruct (ew_segment _ Helf i Hi Hl) as (Hva & _ & _ & Hof). pose proof (seg_range i) as (Ho & _ & Hfz & _).
  set (z := ph_filesz img i) in *. set (va := ph_vaddr img i) in *. set (o := ph_offset img i) in *.
  eapply (wp_loop (λ '(m', ok', rem, fo, v), ∃ c um', rem = z - c ∧ fo = o + c ∧ v = va + c ∧ 0 ≤ c ≤ z ∧ loading m' um'
    ∧ progress um ok ((va, sub o c img) :: w) um' ok' (λ _, False)
    ∧ mem_alloc m' = mem_alloc m ∧ ((∀ p, page_in_segment img i p → is_Some (um !! p)) → ok' = ok))
    (λ '(_, _, rem, _, v), if rem =? 0 then 0%nat else Z.to_nat ((v mod 4096 + rem + 4095) / 4096))).
  - intros [[[[m' ok'] rem] fo] v] (c & um' & -> & -> & -> & Hcz & Hld' & Hpr & Hal & Hgood). destruct (Z.eqb_spec (z - c) 0) as [E|E].
    { unfold copy_round. rewrite (proj2 (Z.ltb_ge 0 _)) by lia. cbn [negb]. wp_step. exists um'. split; [done|].
      replace c with z in Hpr by lia. done. }
    assert (page_in_segment img i (page_of (va + c))) as Hpis by (apply segment_byte_page; try done; fold z; lia).
    eapply wp_mono; [apply (copy_step m' um' ok' i w c); try done; [lia|by apply Hpr]|].
    intros r (n & m2 & um2 & ok2 & -> & En & Hal2 & Hgood2 & Hld2 & Hpr2). fold z va o in En, Hgood2 |- *. cbv beta iota.
    assert (0 < n ∧ c + n ≤ z) as [Hn Hcn] by zlia. split.
    + exists (c + n), um2. do 3 (split; [done|]). split; [lia|]. split; [done|].
      split; [eapply progress_weaken; [|by eapply progress_trans]; by intros p []|]. split; [by rewrite Hal2|].
      intros Hall. rewrite Hgood2; [by apply Hgood|]. apply (proj1 Hpr). by apply Hall.
    + destruct (Z.eqb_spec (z - (c + n)) 0); [zlia|]. zlia.
  - exists 0, um. rewrite Z.sub_0_r, !Z.add_0_r. do 3 (split; [done|]). split; [lia|]. split; [done|]. split.
    2: done. split; [done|]. intros Hok. split_and!; [done| |done].
    change (sub o 0 img) with (@nil Z). apply contents_start. auto.
  - destruct (Z.eqb_spec z 0); zlia.
Qed.

Lemma elf_read_ok o n : 0 ≤ o → o + n ≤ Z.of_nat (length img) → elf_read img o n = Ret (field o n img).
Proof. intros Ho Hn. unfold elf_read, raw_slice. by rewrite (proj2 (Z.leb_le _ _)). Qed.

(** The state before program header [i]. *)
Definition loaded_before (i : Z) (st : mem * bool) : Prop :=
  ∃ um, loading st.1 um ∧ afforded m0 true st.1 st.2 (pages_before img (Z.to_nat i)) ∧ (st.2 = true → contents um (writes img (Z.to_nat i))
    ∧ ∀ j p, 0 ≤ j < i → ph_loads img j = true → page_in_segment img j p → is_Some (um !! p)).

Lemma seg_pages_nonneg i : 0 ≤ i < e_phnum img → ph_loads img i = true → 0 ≤ seg_pages img i.
Proof.
  intros Hi Hl. destruct (ew_segment _ Helf i Hi Hl) as (Hva & _). pose proof (seg_range i) as (_ & _ & _ & Hz).
  unfold seg_pages, page_of. zlia.
Qed.

Lemma pages_before_nonneg n : Z.of_nat n ≤ e_phnum img → 0 ≤ pages_before img n.
Proof.
  induction n as [|n IH]; intros Hn; cbn [pages_before]; [lia|]. specialize (IH ltac:(lia)).
  destruct (ph_loads img (Z.of_nat n)) eqn:El; [|lia]. pose proof (seg_pages_nonneg (Z.of_nat n) ltac:(lia) El). lia.
Qed.

Lemma elf_pages_nonneg : 0 ≤ elf_pages img.
Proof.
  assert (0 ≤ e_phnum img) by (apply field_range; done || apply Helf). apply pages_before_nonneg. lia.
Qed.

Lemma afforded_trans m1 m2 (ok1 ok2 : bool) n1 n2 : 0 ≤ n2 → afforded m0 true m1 ok1 n1 → afforded m1 ok1 m2 ok2 n2 →
  afforded m0 true m2 ok2 (n1 + n2).
Proof. intros Hn [Hc1 Hg1] [Hc2 Hg2]. split; [lia|]. intros Hok Hen. apply Hg2; [apply Hg1; [done|lia]|lia]. Qed.

Lemma loaded_next i m um m' um' (ok ok' : bool) w : 0 ≤ i < e_phnum img → ph_loads img i = true → loading m um →
  afforded m0 true m ok (pages_before img (Z.to_nat i)) → afforded m ok m' ok' (seg_pages img i) →
  (ok = true → contents um (writes img (Z.to_nat i))
    ∧ ∀ j p, 0 ≤ j < i → ph_loads img j = true → page_in_segment img j p → is_Some (um !! p)) →
  loading m' um' → progress um ok w um' ok' (page_in_segment img i) → w = writes img (S (Z.to_nat i)) →
  loaded_before (i + 1) (m', ok').
Proof.
  intros Hi Hli Hld Ha Ha' Hb Hld' [Hdom Hok] ->. exists um'. cbn [fst snd]. rewrite Z2Nat.inj_add by lia. rewrite Nat.add_1_r.
  split; [done|]. split.
  { cbn [pages_before]. rewrite Z2Nat.id, Hli by lia. by eapply afforded_trans; [apply seg_pages_nonneg|..]. }
  intros Hok'. destruct (Hok Hok') as (Hok0 & Hc & Hp).
  destruct (Hb Hok0) as [_ Hj]. split; [done|]. intros j p Hr Hl Hin.
  destruct (decide (j = i)) as [->|]; [by apply Hp|]. apply Hdom, (Hj j); done || lia.
Qed.

Lemma loaded_skip i m ok : 0 ≤ i → ph_loads img i = false → loaded_before i (m, ok) → loaded_before (i + 1) (m, ok).
Proof.
  intros Hi Hn (um & Hld & Ha & Hb). exists um. cbn [fst snd] in *. rewrite Z2Nat.inj_add by lia. rewrite Nat.add_1_r.
  cbn [writes pages_before]. rewrite Z2Nat.id, Hn by lia. cbn [andb]. rewrite Z.add_0_r. split; [done|]. split; [done|].
  intros Hok. destruct (Hb Hok) as [Hc Hj]. split; [done|]. intros j p Hr Hl.
  destruct (decide (j = i)) as [->|]; [congruence|]. apply (Hj j); done || lia.
Qed.

Lemma load_header_ok i st : 0 ≤ i < e_phnum img → loaded_before i st →
  wp (load_header (Some off) img pml4 (e_phoff img) (e_phentsize img) i st) (loaded_before (i + 1)).
Proof.
  destruct st as [m ok]. intros Hi Hbef. pose proof Hbef as (um & Hld & Ha & Hb). cbn [fst snd] in *. destruct (ew_table _ Helf i Hi) as [Hstep Hin].
  pose proof (ew_len _ Helf) as Hlen. pose proof (seg_range i) as (Ho & Hv & Hf & Hz).
  assert (0 ≤ e_phoff img ∧ 0 ≤ e_phentsize img) as [Hpo Hps] by (split; apply field_range; done || apply Helf).
  assert (0 ≤ i * e_phentsize img) as Hst by nia. unfold ph_at in Hin. unfold load_header. do 4 wp_step.
  fold (ph_at img i) in Hin |- *. assert (0 ≤ ph_at img i) as Hph by (unfold ph_at; lia). rewrite !elf_read_ok by lia.
  cbn [obind]. fold (ph_offset img i) (ph_vaddr img i) (ph_filesz img i) (ph_memsz img i).
  assert (ph_loads img i = false → loaded_before (i + 1) (m, ok)) as Hskip by (intros Hn; apply loaded_skip; [lia|done|done]).
  unfold ph_loads in Hskip. destruct (Z.eqb_spec (field (ph_at img i) 4 img) 1) as [Et|]; cbn [negb andb] in *; [|wp_step; by apply Hskip].
  destruct (Z.eqb_spec (ph_memsz img i) 0) as [Em|Em]; cbn [negb andb] in *; [wp_step; by apply Hskip|].
  assert (ph_loads img i = true) as Hl by (unfold ph_loads; rewrite Et; by rewrite (proj2 (Z.eqb_neq _ 0))).
  destruct (ew_segment _ Helf i Hi Hl) as (Hva & Hend & _). do 4 wp_step. rewrite !page_mask by lia.
  apply wp_bind. eapply wp_mono; [apply (map_loop m um ok i (writes img (Z.to_nat i)) Hi Hl Hld); intros Hok; by apply Hb|].
  intros [m1 ok1] (um1 & Hld1 & Hpr1 & Ha1). rewrite (proj2 (Z.eqb_neq (ph_vaddr img i) 0)) by lia. cbn [negb]. rewrite andb_true_r.
  assert (writes img (S (Z.to_nat i)) = if 0 <? ph_filesz img i then (ph_vaddr img i, ph_bytes img i) :: writes img (Z.to_nat i)
    else writes img (Z.to_nat i)) as Ew by (cbn [writes]; rewrite Z2Nat.id, Hl by lia; done).
  destruct (0 <? ph_filesz img i).
  - cbn [hhdm_offset obind]. eapply wp_mono; [apply (copy_loop m1 um1 ok1 i (writes img (Z.to_nat i)) Hi Hl Hld1); by apply Hpr1|].
    intros [m2 ok2] (um2 & Hld2 & Hpr2 & Hal & Hgood). apply (loaded_next i m um m2 um2 ok ok2 (writes img (S (Z.to_nat i)))); try done.
    + destruct Ha1 as [Hc1 Hg1]. split; [by rewrite Hal|]. intros Hok Hen. specialize (Hg1 Hok Hen). rewrite Hgood; [done|].
      by apply Hpr1.
    + rewrite Ew. eapply progress_weaken; [|exact (progress_trans _ _ _ _ _ _ _ _ _ _ Hpr1 Hpr2)]. by left.
  - wp_step. by apply (loaded_next i m um m1 um1 ok ok1 (writes img (Z.to_nat i))).
Qed.

(** The writes of the segments before [n]. *)
Lemma writes_elem n va l : Z.of_nat n ≤ e_phnum img → (va, l) ∈ writes img n →
  ∃ j, 0 ≤ j < Z.of_nat n ∧ ph_loads img j = true ∧ va = ph_vaddr img j ∧ Z.of_nat (length l) = ph_filesz img j.
Proof.
  induction n as [|n IH]; cbn [writes]; intros Hn Hin; [by apply elem_of_nil in Hin|].
  assert ((va, l) ∈ writes img n → ∃ j, 0 ≤ j < Z.of_nat (S n) ∧ ph_loads img j = true ∧ va = ph_vaddr img j
    ∧ Z.of_nat (length l) = ph_filesz img j) as Hrec.
  { intros H1. destruct (IH ltac:(lia) H1) as (j & Hj & ?). exists j. split; [lia|done]. }
  destruct (ph_loads img (Z.of_nat n)) eqn:El; cbn [andb] in Hin; [|auto].
  destruct (0 <? ph_filesz img (Z.of_nat n)); [|auto]. apply elem_of_cons in Hin as [[= -> ->]|Hin]; [|auto].
  exists (Z.of_nat n). destruct (ew_segment _ Helf (Z.of_nat n) ltac:(lia) El) as (_ & _ & _ & Hof).
  pose proof (seg_range (Z.of_nat n)) as (Ho & _ & Hf & _). split_and!; try done; try lia.
  unfold ph_bytes. rewrite length_sub by lia. lia.
Qed.

Lemma want_segment n i k : (Z.of_nat n ≤ e_phnum img) → 0 ≤ i < Z.of_nat n → ph_loads img i = true → 0 ≤ k < ph_memsz img i →
  want (writes img n) (ph_vaddr img i + k) = if k <? ph_filesz img i then nth (Z.to_nat k) (ph_bytes img i) 0 else 0.
Proof.
  intros Hn Hi Hl Hk. destruct (ew_segment _ Helf i ltac:(lia) Hl) as (_ & _ & _ & Hof).
  pose proof (seg_range i) as (Ho & _ & Hf & _).
  assert (∀ j, 0 ≤ j < e_phnum img → ph_loads img j = true → j ≠ i →
    ¬ (ph_vaddr img j ≤ ph_vaddr img i + k < ph_vaddr img j + ph_filesz img j)) as Hdis.
  { intros j Hj Hlj Hne. destruct (ew_segment _ Helf j Hj Hlj) as (_ & _ & Hfz & _).
    destruct (ew_disjoint _ Helf j i Hj ltac:(lia) Hlj Hl Hne); lia. }
  induction n as [|n IH]; [lia|]. cbn [writes]. destruct (decide (i = Z.of_nat n)) as [->|Hne].
  - assert (want (writes img n) (ph_vaddr img (Z.of_nat n) + k) = 0) as Hrest.
    { apply want_uncovered. intros va l Hin. apply writes_elem in Hin as (j & Hj & Hlj & -> & Hlen); [|lia].
      rewrite Hlen. apply Hdis; [lia|done|lia]. }
    rewrite Hl. cbn [andb]. destruct (Z.ltb_spec 0 (ph_filesz img (Z.of_nat n))).
    + cbn [want]. unfold ph_bytes at 1. rewrite length_sub, Z2Nat.id by lia. rewrite (proj2 (Z.leb_le _ _)) by lia. cbn [andb].
      replace (ph_vaddr img (Z.of_nat n) + k - ph_vaddr img (Z.of_nat n)) with k by lia.
      destruct (Z.ltb_spec k (ph_filesz img (Z.of_nat n))).
      * by rewrite (proj2 (Z.ltb_lt _ _)) by lia.
      * by rewrite (proj2 (Z.ltb_ge _ _)) by lia.
    + rewrite Hrest. by rewrite (proj2 (Z.ltb_ge _ _)) by lia.
  - destruct (ph_loads img (Z.of_nat n)) eqn:El; cbn [andb]; [|apply IH; lia].
    destruct (0 <? ph_filesz img (Z.of_nat n)); [|apply IH; lia]. cbn [want].
    pose proof (Hdis (Z.of_nat n) ltac:(lia) El ltac:(lia)) as Hd. pose proof (seg_range (Z.of_nat n)) as (Ho' & _ & Hf' & _).
    destruct (ew_segment _ Helf (Z.of_nat n) ltac:(lia) El) as (_ & _ & _ & Hof').
    unfold ph_bytes at 1. rewrite length_sub, Z2Nat.id by lia.
    destruct (Z.leb_spec (ph_vaddr img (Z.of_nat n)) (ph_vaddr img i + k)),
      (Z.ltb_spec (ph_vaddr img i + k) (ph_vaddr img (Z.of_nat n) + ph_filesz img (Z.of_nat n))); cbn [andb]; try (apply IH; lia). lia.
Qed.

Lemma load_elf_unfold m : load_elf (Some off) img pml4 m =
  (let* (m, ok) := each_range 0 (e_phnum img) (load_header (Some off) img pml4 (e_phoff img) (e_phentsize img)) (m, true) in
   Ret (if ok then Ok (e_entry img) else Err MemoryMappingFailed, m)).
Proof.
  pose proof (ew_len _ Helf). unfold load_elf. rewrite (proj2 (Z.ltb_ge _ _)) by lia.
  rewrite bool_decide_true by apply Helf. cbn [negb]. unfold vget. change (Z.to_nat 4) with 4%nat. rewrite (ew_class _ Helf). cbn [obind].
  change (negb (2 =? 2)) with false. cbv iota. rewrite !elf_read_ok by lia. done.
Qed.
End Load.

(** A space the executable can be loaded into: no page of a segment is mapped, and
    the way to each is free of huge pages. *)
Record load_ready (off : Z) (img : list Z) (pml4 : Z) (m : mem) : Prop := {
  lr_ok : mem_ok off m;
  lr_wf : space_wf m pml4;
  lr_plain p : segment_page img p → plain_path (mem_ram m) 3 pml4 p = true;
  lr_unmapped p : segment_page img p → mapped (mem_ram m) pml4 p = false;
}.

(** What loading leaves behind, as a view of the space. *)
Definition elf_loaded (off : Z) (img : list Z) (m : mem) (pml4 : Z) (res : result Z ElfError) (m' : mem) (um : gmap Z (list Z)) : Prop :=
  loading off img m pml4 m' um ∧
  match res with
  | Ok entry => entry = e_entry img ∧ ∀ i k, 0 ≤ i < e_phnum img → ph_loads img i = true → 0 ≤ k < ph_memsz img i →
      ∃ b, um !! page_of (ph_vaddr img i + k) = Some b
        ∧ b !! Z.to_nat ((ph_vaddr img i + k) mod 4096)
          = Some (if k <? ph_filesz img i then nth (Z.to_nat k) (ph_bytes img i) 0 else 0)
  | Err e => e = MemoryMappingFailed
  end
  ∧ nfree m ≤ nfree m' + 4 * elf_pages img ∧ (result_ok res = false → nfree m < 4 * elf_pages img).

Lemma load_elf_view `{HP : Profile} `{HV : VirtAddrSpec} `{HA : PhysAddrSpec} (off : Z) `{HM : Mapper}
    `{HMS : !MapperSpec off} (img : list Z) (pml4 : Z) (m : mem) : elf_wf img → load_ready off img pml4 m →
  wp (load_elf (Some off) img pml4 m) (λ '(res, m'), ∃ um, elf_loaded off img m pml4 res m' um).
Proof.
  intros Helf [Hm Hs Hpl Hun]. rewrite (load_elf_unfold off img Helf). apply wp_bind.
  assert (0 ≤ e_phnum img) as Hnum by (apply field_range; done || apply Helf).
  eapply wp_mono; [apply (wp_each_range (loaded_before off img m pml4)); [|intros; by apply load_header_ok]|].
  { exists ∅. split; [|split; [split; [change (pages_before img (Z.to_nat 0)) with 0; cbn [fst]; lia|done]|
      intros _; split; [split; [by intros a b ?%lookup_empty_Some|by intros va l a ?%elem_of_nil]|lia]]].
    cbn [fst]. split; [done|done|apply grown_refl|by intros ?|intros x Hx; by left|apply views_empty|done|auto|by intros ?|by intros ?|by intros q [? ?%lookup_empty_Some]]. }
  rewrite Z.max_r by lia. intros [m' ok] (um & Hld & [Hcost Hgood] & Hc). cbn [fst snd] in *. wp_step. exists um. split; [done|].
  split; [|split; [done|]]. 2: { destruct ok; [done|]. intros _. apply Z.nle_gt. intros Hen. discriminate (Hgood eq_refl Hen). }
  destruct ok; [|done]. split; [done|]. intros i k Hi Hl Hk. destruct (Hc eq_refl) as [[Hcont _] Hseg].
  destruct (ew_segment _ Helf i Hi Hl) as (Hva & Hend & _). set (a := ph_vaddr img i + k).
  destruct (Hseg i (page_of a) Hi Hl) as [b Hb].
  { split; [apply page_of_page; unfold a; lia|]. unfold a, page_of. zlia. }
  exists b. split; [done|]. rewrite (Hcont a b Hb). f_equal. unfold a.
  rewrite <- (want_segment img Helf (Z.to_nat (e_phnum img))); try done; lia.
Qed.

(** Loading an executable.  For a well-formed image and a space that is ready
    for it, [load_elf] returns.  On success it returns the entry point, and ring 3
    can reach every byte of every loadable segment and sees there the bytes of the
    file, followed by zeros up to the memory size.  The only failure is
    [MemoryMappingFailed], and it means that fewer frames were free than four per
    page of the segments.  In both cases the space stays well formed, no frame is
    released, and no frame that was in use is changed apart from the tables of the
    space. *)
Theorem load_elf_loads `{HP : Profile} `{HV : VirtAddrSpec} `{HA : PhysAddrSpec} (off : Z) `{HM : Mapper}
    `{HMS : !MapperSpec off} (img : list Z) (pml4 : Z) (m : mem) : elf_wf img → load_ready off img pml4 m →
  wp (load_elf (Some off) img pml4 m) (λ '(res, m'),
    mem_ok off m' ∧ space_wf m' pml4 ∧ grown m m' ∧ data_same m m' pml4
    ∧ match res with
      | Ok entry => entry = e_entry img ∧ ∀ i k, 0 ≤ i < e_phnum img → ph_loads img i = true → 0 ≤ k < ph_memsz img i →
          user_accessible (mem_ram m') pml4 (ph_vaddr img i + k) = true
          ∧ load_virt (mem_ram m') pml4 (ph_vaddr img i + k)
            = Ret (if k <? ph_filesz img i then nth (Z.to_nat k) (ph_bytes img i) 0 else 0)
      | Err e => e = MemoryMappingFailed ∧ nfree m < 4 * elf_pages img
      end).
Proof.
  intros Helf Hr. eapply wp_mono; [by apply load_elf_view|].
  intros [res m'] (um & [Hm' Hs' Hg Hd _ Hv _ _ _ _] & Hres & _ & Hfew). split_and!; try done.
  destruct res as [entry|e]; [|split; [done|by apply Hfew]]. destruct Hres as [-> Hseg]. split; [done|]. intros i k Hi Hl Hk.
  destruct (Hseg i k Hi Hl Hk) as (b & Hb & Hx). set (a := ph_vaddr img i + k) in *. split.
  - destruct Hv as (fm & Hpg & _). unfold user_accessible. rewrite <- (proj1 (walk_page _ a 3 _)). apply (pa_user _ _ _ _ _ _ (Hpg _ _ Hb)).
  - by apply (views_load off _ _ _ _ _ _ _ Hm' Hv Hb).
Qed.

(** ** Segments on mapped pages *)

Section Overwrite.
Context `{HP : Profile} `{HV : VirtAddrSpec} `{HA : PhysAddrSpec} (off : Z) `{HM : Mapper} `{HMS : !MapperSpec off}.
Context (img : list Z) (pml4 : Z) (m : mem) (e f : Z) (b : list Z).
Context (Helf : elf_wf img) (Hnum : e_phnum img = 1) (Hl : ph_loads img 0 = true).
Context (Hfz : 0 < ph_filesz img 0) (Hone : ph_vaddr img 0 mod 4096 + ph_memsz img 0 ≤ 4096).
Context (Hm : mem_ok off m) (Hs : space_wf m pml4).
Context (Hpl : plain_path (mem_ram m) 3 pml4 (page_of (ph_vaddr img 0)) = true).
Context (Hsl : slot (mem_ram m) pml4 (page_of (ph_vaddr img 0)) = Some e) (He : e ≠ 0).
Context (Hfr : Z.land e PHYS_MASK = f * FRAME_SIZE) (Hf : 0 ≤ f < total_frames (mem_alloc m)).
Context (Hb : mem_ram m !! (f * FRAME_SIZE) = Some b).

(** The frame with the segment in it. *)
Definition overwritten : mem :=
  set_ram m (<[f * FRAME_SIZE := splice (ph_vaddr img 0 mod 4096) (ph_bytes img 0) b]> (mem_ram m)).

Lemma seg_facts : 0 < ph_vaddr img 0 ∧ ph_vaddr img 0 + ph_memsz img 0 ≤ 2 ^ 47 ∧ ph_filesz img 0 ≤ ph_memsz img 0
  ∧ 0 ≤ ph_offset img 0 ∧ ph_offset img 0 + ph_filesz img 0 ≤ Z.of_nat (length img) ∧ Z.of_nat (length img) < 2 ^ 63.
Proof.
  destruct (ew_segment _ Helf 0 ltac:(lia) Hl) as (? & ? & ? & ?). pose proof (seg_range img Helf 0) as (? & _). pose proof (ew_len _ Helf). lia.
Qed.

(** The page is taken as it is. *)
Lemma overwrite_map : loop (S (Z.to_nat ((page_of (ph_vaddr img 0 + ph_memsz img 0 + 0xFFF) - page_of (ph_vaddr img 0)) / 0x1000)))
  (map_round (Some off) pml4 (page_of (ph_vaddr img 0 + ph_memsz img 0 + 0xFFF))) (m, true, page_of (ph_vaddr img 0)) = Ret (m, true).
Proof.
  destruct seg_facts as (Hva & Hend & Hfm & _). set (p := page_of (ph_vaddr img 0)) in *.
  assert (page_of (ph_vaddr img 0 + ph_memsz img 0 + 0xFFF) = p + 4096) as -> by (unfold p, page_of; zlia).
  assert (0 ≤ p ∧ p + 4096 ≤ 2 ^ 47 ∧ page_of p = p) as (Hp0 & Hp1 & Epp) by (unfold p, page_of; zlia).
  replace ((p + 4096 - p) / 0x1000) with 1 by zlia. change (S (Z.to_nat 1)) with 2%nat. cbn [loop]. unfold map_round at 1.
  rewrite (proj2 (Z.ltb_lt _ _)) by lia. cbn [negb]. rewrite virt_new_ok by (left; lia). cbn [obind].
  assert (allocate_and_map_user_page (Some off) pml4 p m = Ret (Ok tt, m)) as ->.
  { unfold allocate_and_map_user_page. rewrite (mapper_for_ok off m) by done. cbn [obind].
    assert (is_page p) as Hpage by (rewrite <- Epp; apply page_of_page; lia). rewrite Epp, (translate_page_spec m) by done.
    fold (mapped (mem_ram m) pml4 p). assert (mapped (mem_ram m) pml4 p = true) as ->; [|done].
    unfold mapped. rewrite Hsl. by rewrite (proj2 (Z.eqb_neq _ _)). }
  cbn [obind]. unfold uadd. rewrite checked_ok by lia. cbn [obind]. unfold map_round. by rewrite Z.ltb_irrefl.
Qed.

(** The bytes go to the frame of the page. *)
Lemma overwrite_copy : loop (Z.to_nat (ph_filesz img 0 / 0x1000 + 3)) (copy_round (Some off) img pml4 off)
  (m, true, ph_filesz img 0, ph_offset img 0, ph_vaddr img 0) = Ret (overwritten, true).
Proof.
  destruct seg_facts as (Hva & Hend & Hfm & Ho & Hin & Hlen).
  destruct (mo_ram _ _ Hm f Hf) as (b' & Hb' & Hlb & _). rewrite Hb in Hb'. injection Hb' as <-.
  assert (∃ n, Z.to_nat (ph_filesz img 0 / 0x1000 + 3) = S (S n)) as [n ->] by (exists (Z.to_nat (ph_filesz img 0 / 0x1000 + 1)); zlia).
  cbn [loop]. unfold copy_round at 1. rewrite (proj2 (Z.ltb_lt 0 _)) by lia. cbn [negb]. rewrite page_mask by lia.
  change 0x1000 with 4096. set (va := ph_vaddr img 0) in *. assert (0 ≤ va mod 4096 < 4096) as Hmod by zlia. rewrite Z.min_l by lia.
  assert (is_page (page_of va)) as Hpage by (apply page_of_page; lia).
  rewrite virt_new_ok by (left; apply Hpage). cbn [obind]. unfold translate_in_pml4. rewrite (mapper_for_ok off m) by done. cbn [obind].
  rewrite (translate_addr_spec m pml4 (page_of va) e Hm Hs (proj1 Hpage) Hsl), (proj2 (Z.eqb_neq _ _)), Hfr by done.
  replace (f * FRAME_SIZE + page_of va mod 4096) with (f * FRAME_SIZE) by (destruct Hpage as [_ ->]; lia).
  assert (∀ x, 0 ≤ x < 4096 → 0 ≤ off + (f * FRAME_SIZE + x) < 2 ^ 64) as Hx.
  { intros x Hx. destruct (mo_hhdm _ _ Hm (f * FRAME_SIZE + x)); unfold FRAME_SIZE in *; lia. }
  pose proof (Hx 0 ltac:(lia)). pose proof (Hx (va mod 4096) ltac:(lia)). unfold uadd, usub.
  rewrite !checked_ok by lia. cbn [obind]. rewrite checked_ok by lia. cbn [obind].
  unfold raw_slice. rewrite (proj2 (Z.leb_le _ _)) by lia. cbn [obind]. fold (ph_bytes img 0).
  replace (f * FRAME_SIZE + va mod 4096) with (f * FRAME_SIZE + Z.of_nat (Z.to_nat (va mod 4096))) by lia.
  rewrite (write_phys_in (f * FRAME_SIZE) (Z_mod_mult f 4096) (ph_bytes img 0) _ b);
    [|done|done|unfold ph_bytes; rewrite length_sub by lia; lia].
  rewrite Z2Nat.id by lia. cbn [obind]. unfold copy_round. rewrite Z.sub_diag. done.
Qed.

(** The loader writes wherever the space has a page.  An executable with a segment
    within a page that is mapped in the target space, whatever the bits of its entry, is
    loaded with success and its bytes are in the frame of that page: the page is taken as
    it is and the copy goes through the direct map.  The pages of the kernel that the
    space shares in the lower half, its heap, are such pages. *)
Theorem load_elf_overwrites_mapped : load_elf (Some off) img pml4 m = Ret (Ok (e_entry img), overwritten).
Proof.
  destruct seg_facts as (Hva & Hend & Hfm & Ho & Hin & Hlen). rewrite (load_elf_unfold off img Helf). rewrite Hnum.
  unfold each_range. change (Z.to_nat (1 - 0)) with 1%nat. cbn [each_n].
  destruct (ew_table _ Helf 0 ltac:(lia)) as [_ Htab]. unfold load_header. unfold umul, uadd.
  assert (0 ≤ e_phoff img ∧ 0 ≤ e_phentsize img) as [Hpo Hps] by (split; apply field_range; done || apply Helf).
  assert (ph_at img 0 = e_phoff img) as Eat by (unfold ph_at; lia). rewrite Eat in Htab.
  rewrite !checked_ok by lia. cbn [obind]. rewrite checked_ok by lia. cbn [obind]. rewrite Z.mul_0_l, Z.add_0_r, <- Eat.
  rewrite !(elf_read_ok img) by lia. cbn [obind].
  fold (ph_offset img 0) (ph_vaddr img 0) (ph_filesz img 0) (ph_memsz img 0).
  pose proof Hl as Hl'. unfold ph_loads in Hl'. apply andb_true_iff in Hl' as [-> Hz%negb_true_iff]. rewrite Hz. cbn [negb].
  rewrite checked_ok by lia. cbn [obind]. rewrite checked_ok by lia. cbn [obind]. rewrite !page_mask by lia.
  rewrite overwrite_map. cbn [obind]. rewrite (proj2 (Z.ltb_lt 0 _)), (proj2 (Z.eqb_neq (ph_vaddr img 0) 0)) by lia. cbn [negb andb hhdm_offset obind].
  rewrite overwrite_copy. done.
Qed.
End Overwrite.

(** ** A small executable *)

Module ElfSample.
(** One segment of four bytes at 0x6010, sixteen in memory. *)
Definition img : list Z :=
  [0x7F; 0x45; 0x4C; 0x46; 2] ++ replicate 19 0 ++ le_bytes 8 0x6010 ++ le_bytes 8 64 ++ replicate 14 0
  ++ le_bytes 2 56 ++ le_bytes 2 1 ++ replicate 6 0
  ++ le_bytes 4 1 ++ le_bytes 4 5 ++ le_bytes 8 120 ++ le_bytes 8 0x6010 ++ le_bytes 8 0x6010
  ++ le_bytes 8 4 ++ le_bytes 8 16 ++ le_bytes 8 0x1000 ++ [0x90; 0x90; 0x0F; 0x05].

Lemma header_0 : e_phnum img = 1 ∧ e_phentsize img = 56 ∧ e_phoff img = 64 ∧ ph_vaddr img 0 = 0x6010 ∧ ph_memsz img 0 = 16
  ∧ ph_filesz img 0 = 4 ∧ ph_offset img 0 = 120 ∧ Z.of_nat (length img) = 124.
Proof. vm_compute. done. Qed.

Lemma img_wf : elf_wf img.
Proof.
  destruct header_0 as (Hn & Hs & Ho & Hv & Hm & Hf & Hof & Hl). split; [lia| |done|done| | |].
  - apply Forall_forall. intros x Hx. assert (forallb (λ x, (0 <=? x) && (x <? 256)) img = true) as Hb by (vm_compute; done).
    rewrite forallb_forall in Hb. specialize (Hb x ltac:(by apply list_elem_of_In)). lia.
  - intros i Hi. unfold ph_at. lia.
  - intros i Hi _. assert (i = 0) as -> by lia. lia.
  - intros i j Hi Hj. lia.
Qed.

Lemma only_page p : segment_page img p → p = 0x6000.
Proof.
  destruct header_0 as (Hn & _ & _ & Hv & Hm & _). intros (i & Hi & _ & [_ Hal] & Hr). assert (i = 0) as -> by lia.
  rewrite Hv, Hm in Hr. change (page_of 0x6010) with 0x6000 in Hr. zlia.
Qed.

Lemma ready : load_ready Sample.off img 4096 SpaceSample.m.
Proof.
  split; [apply SpaceSample.space_ok|apply SpaceSample.sample_space_wf| |]; intros p ->%only_page; vm_compute; done.
Qed.

(** The space of [Sample] with a kernel page at 0x6000, which is frame 7. *)
Definition kernel_frames : BitmapFrameAllocator := mkAlloc [191; 2] [1; 1; 1; 1; 1; 2; 0; 1; 0; 1] 10 6.
Definition kernel_ram : ram :=
  list_to_map (imap (λ i b, (Z.of_nat i * FRAME_SIZE, b))
    ([zero_frame; Sample.table [(0, 0x2007); (256, 0x9003)]; Sample.table [(0, 0x3007)]; Sample.table [(0, 0x4007)];
      Sample.table [(5, 0x5007); (6, 0x7003)]] ++ replicate 5 zero_frame)).
Definition kernel_mem : mem := mkMem kernel_frames kernel_ram.

Lemma overwrite_mem_ok : mem_ok Sample.off kernel_mem.
Proof.
  split.
  - by apply wf_check_sound.
  - vm_compute. discriminate.
  - right. vm_compute. split; [discriminate|reflexivity].
  - intros p Hp. change (total_frames (mem_alloc kernel_mem) * FRAME_SIZE) with 40960 in Hp. right. unfold Sample.off. lia.
  - intros f Hf. apply Sample.frame_okb_sound.
    apply (all_below_spec 10 (λ f, Sample.frame_okb kernel_ram (f * FRAME_SIZE))); [vm_compute; reflexivity|exact Hf].
Qed.

Lemma overwrite_space_wf : space_wf kernel_mem 4096.
Proof.
  assert (pt_tables kernel_ram 3 4096 = [0x1000; 0x2000; 0x3000; 0x4000; 0x9000]) as E by (vm_compute; reflexivity).
  split; cbn [kernel_mem mem_ram mem_alloc]; rewrite ?E.
  - apply (bool_decide_unpack _). vm_compute. exact I.
  - apply Forall_and. split; [|by repeat constructor].
    eapply Forall_impl; [exact (Sample.managedb_sound [0x1000; 0x2000; 0x3000; 0x4000; 0x9000] eq_refl)|].
    intros x (f & -> & Hf). exists f. split; [reflexivity|exact Hf].
  - intros i Hi. apply (all_below_spec 512 (λ i, negb (Z.testbit (entry_of kernel_ram 4096 i) 7))) in Hi;
      [by apply negb_true_iff|vm_compute; reflexivity].
Qed.
End ElfSample.

Lemma load_elf_loads_witness :
  wp (@load_elf true checked_virt_new masked_phys_new table_mapper (Some Sample.off) ElfSample.img 4096 SpaceSample.m)
     (λ '(res, m'), grown SpaceSample.m m' ∧ res = Ok 0x6010
        ∧ load_virt (mem_ram m') 4096 0x6012 = Ret 0x0F ∧ load_virt (mem_ram m') 4096 0x601F = Ret 0).
Proof.
  eapply wp_mono; [apply (@load_elf_loads true checked_virt_new checked_virt_new_spec masked_phys_new masked_phys_new_spec
    Sample.off table_mapper sample_mapper ElfSample.img 4096 SpaceSample.m ElfSample.img_wf ElfSample.ready)|].
  intros [[entry|e] m'] (_ & _ & Hg & _ & Hr); (split; [exact Hg|]).
  2: { destruct Hr as [_ Hf]. rewrite SpaceSample.free_frames_sample in Hf. vm_compute in Hf. discriminate Hf. }
  destruct Hr as [-> Hb]. destruct ElfSample.header_0 as (Hn & _ & _ & Hv & Hm & Hf & _).
  pose proof (Hb 0 2 ltac:(lia) eq_refl ltac:(lia)) as [_ H2]. pose proof (Hb 0 15 ltac:(lia) eq_refl ltac:(lia)) as [_ H15].
  rewrite Hv, Hf in H2, H15. split_and!; [reflexivity|exact H2|exact H15].
Defined.

Lemma load_elf_overwrites_mapped_witness :
  user_accessible ElfSample.kernel_ram 4096 0x6010 = false
  ∧ @load_elf true checked_virt_new masked_phys_new table_mapper (Some Sample.off) ElfSample.img 4096 ElfSample.kernel_mem
    = Ret (Ok 0x6010, set_ram ElfSample.kernel_mem
        (<[0x7000 := splice 0x10 [0x90; 0x90; 0x0F; 0x05] zero_frame]> ElfSample.kernel_ram)).
Proof.
  split; [vm_compute; reflexivity|]. destruct ElfSample.header_0 as (Hn & _ & _ & Hv & Hm & Hf & _).
  pose proof (@load_elf_overwrites_mapped true checked_virt_new checked_virt_new_spec masked_phys_new Sample.off table_mapper sample_mapper ElfSample.img 4096 ElfSample.kernel_mem 0x7003 7 zero_frame ElfSample.img_wf Hn eq_refl) as H.
  rewrite Hv, Hm, Hf in H. apply H; try lia.
  all: first [apply ElfSample.overwrite_mem_ok|apply ElfSample.overwrite_space_wf|vm_compute; reflexivity|cbn; lia].
Defined.
