(* ===== verification/Syscall.v ===== *)
(** * System calls (src/src/core/syscall.rs)

    [handle_syscall_rust] with the state it works on: the task manager with the
    descriptor tables, physical memory with the page tables, the keyboard ring,
    the file tree and the console.  User pointers are dereferenced through the
    current address space ([load_bytes], [store_bytes]); the check before it is
    [is_valid_user_memory].  Where [execve] switches to the new space, the pages of the
    kernel heap must be mapped there as before ([switch_cr3]).  A call returns a value for
    [rax], or waits: for a key, for the scheduler, or forever. *)

From S2P Require Import Prelude KError FrameAlloc Fd X86 Task TaskManager Paging PageTree PageMapper AddrSpace UserMem Keyboard Str Vfs Elf.

#[local] Open Scope list_scope.

(** The registers of the caller. *)
Record SyscallRegisters := mkRegs { rax : Z; rdi : Z; rsi : Z; rdx : Z; r10 : Z; r8 : Z; r9 : Z }.

(** [(-n)i64 as u64], and [to_errno() as u64]. *)
Definition neg (n : Z) : Z := 2 ^ 64 - n.
Definition errno_rax (e : KernelError) : Z := wrap 64 (KernelError_to_errno e).

(** The highest user address. *)
Definition USER_LIMIT : Z := 0x00007FFFFFFFFFFF.
Definition ISIZE_MAX : Z := 2 ^ 63 - 1.

(** How a call ends: with a value; with [hlt] and another attempt once a key may
    have arrived; with a call of the scheduler and then a value; never. *)
Inductive sys_end := SysReturn (v : Z) | SysWaitKey | SysSchedule (v : Z) | SysHalt | SysPowerOff (writes : list (Z * Z * Z)).

Inductive console_op := Print (text : str) | ClearScreen.

Section Syscall.
Context `{HP : Profile} `{HV : VirtAddrNew} `{HA : PhysAddrNew} `{HE : EntryOps} `{HM : Mapper} {V : Type} `{HN : VNode V}.
(** The direct map, the selectors, the trampoline of new tasks, and the heap's
    answer to a request for a kernel stack. *)
Context (hhdm : option Z) (sel : Selectors) (tramp : Z) (stack : option Z).

Record kernel := mkKernel {
  k_tm : TaskManager (node V);
  k_mem : mem;
  k_cr3 : Z;
  k_keys : ring;
  k_vfs : vfs V;
  k_next_id : Z;
  k_stacks : memory;
  k_console : list console_op;
}.
Implicit Types k : kernel.

Definition set_k_tm k t := mkKernel t (k_mem k) (k_cr3 k) (k_keys k) (k_vfs k) (k_next_id k) (k_stacks k) (k_console k).
Definition set_k_mem k m := mkKernel (k_tm k) m (k_cr3 k) (k_keys k) (k_vfs k) (k_next_id k) (k_stacks k) (k_console k).
Definition set_k_ram k r := set_k_mem k (set_ram (k_mem k) r).
Definition set_k_keys k q := mkKernel (k_tm k) (k_mem k) (k_cr3 k) q (k_vfs k) (k_next_id k) (k_stacks k) (k_console k).
Definition print k (s : str) :=
  mkKernel (k_tm k) (k_mem k) (k_cr3 k) (k_keys k) (k_vfs k) (k_next_id k) (k_stacks k) (k_console k ++ [Print s]).
Definition clear_screen k :=
  mkKernel (k_tm k) (k_mem k) (k_cr3 k) (k_keys k) (k_vfs k) (k_next_id k) (k_stacks k) (k_console k ++ [ClearScreen]).

(** ** User pointers *)

Definition page_round (cr3 : Z) (r : ram) (end_page current_page : Z) : outcome (flow Z bool) :=
  if negb (current_page <=? end_page) then Ret (Done true) else
  page <- virt_new current_page;;
  ok <- is_user_page_mapped hhdm cr3 r page;;
  if negb ok then Ret (Done false) else
  current_page <- uadd 64 current_page 4096;;
  Ret (Next current_page).

Definition is_valid_user_memory k (ptr len : Z) : outcome bool :=
  if ptr =? 0 then Ret false else
  if ISIZE_MAX <? len then Ret false else
  if len =? 0 then Ret true else
  let end_ := sat_add 64 ptr len in
  if USER_LIMIT <? end_ then Ret false else
  let start_page := Z.land ptr (unot 64 0xFFF) in
  e <- usub 64 end_ 1;;
  let end_page := Z.land e (unot 64 0xFFF) in
  loop (S (S (Z.to_nat ((end_page - start_page) / 4096)))) (page_round (k_cr3 k) (mem_ram (k_mem k)) end_page) start_page.

(** [while len < n { let byte = *ptr.add(len); if byte == 0 { break; } .. }]. *)
Fixpoint read_cstr (r : ram) (cr3 ptr : Z) (n : nat) : outcome (list Z) :=
  match n with
  | O => Ret []
  | S n =>
      x <- load_virt r cr3 ptr;;
      if x =? 0 then Ret [] else
      l <- read_cstr r cr3 (ptr + 1) n;; Ret (x :: l)
  end.

Definition user_name k (ptr : Z) (n : nat) : outcome str :=
  l <- read_cstr (mem_ram (k_mem k)) (k_cr3 k) ptr n;; Ret (default [] (from_utf8 l)).

(** [with_task_manager(|tm| if let Some(task_id) = tm.current_task { if let
    Some(task) = .. { .. } })]: the answers when there is no current task, and when
    it is not registered. *)
Definition on_current {A} k (no_current no_task : A)
    (f : kernel → Task (node V) → outcome (A * Task (node V) * kernel)) : outcome (A * kernel) :=
  match current_task (k_tm k) with
  | None => Ret (no_current, k)
  | Some i =>
      match task_registry (k_tm k) !! i with
      | None => Ret (no_task, k)
      | Some t =>
          let* (a, t, k) := f k t in
          Ret (a, set_k_tm k (set_registry (k_tm k) (<[i := t]> (task_registry (k_tm k)))))
      end
  end.

Definition with_fds (t : Task (node V)) (fds : FdTable (node V)) : Task (node V) :=
  mkTask _ (id t) (parent_id t) (rsp t) (pml4_frame t) (stack_start t) (stack_end t) (privilege t)
    (heap_start t) (program_break t) (mmap_base t) fds.
Definition with_break (t : Task (node V)) (b : Z) : Task (node V) :=
  mkTask _ (id t) (parent_id t) (rsp t) (pml4_frame t) (stack_start t) (stack_end t) (privilege t)
    (heap_start t) b (mmap_base t) (fd_table t).
Definition with_mmap_base (t : Task (node V)) (b : Z) : Task (node V) :=
  mkTask _ (id t) (parent_id t) (rsp t) (pml4_frame t) (stack_start t) (stack_end t) (privilege t)
    (heap_start t) (program_break t) b (fd_table t).

(** ** Files *)

Inductive read_kind := ReadBytes (n : Z) | ReadStdin | ReadError (e : Z).

(** The closure of [sys_read]. *)
Definition read_fd (fd buffer_ptr length : Z) k (t : Task (node V)) : outcome (read_kind * Task (node V) * kernel) :=
  match get_fd (fd_table t) fd with
  | None => Ret (ReadError 9, t, k)
  | Some Stdin => Ret (ReadStdin, t, k)
  | Some Stdout | Some Stderr => Ret (ReadError 9, t, k)
  | Some (RegularFile vnode offset) =>
      bytes <- node_read vnode offset length;;
      let read_bytes := Z.of_nat (List.length bytes) in
      r <- store_bytes (mem_ram (k_mem k)) (k_cr3 k) buffer_ptr bytes;;
      let k := set_k_ram k r in
      if 0 <? read_bytes then
        offset <- uadd 64 offset read_bytes;;
        Ret (ReadBytes read_bytes, with_fds t (put_fd (fd_table t) fd (RegularFile vnode offset)), k)
      else Ret (ReadBytes 0, t, k)
  end.

Definition sys_read k (fd buffer_ptr length : Z) : outcome (sys_end * kernel) :=
  valid <- is_valid_user_memory k buffer_ptr length;;
  if negb valid then Ret (SysReturn (neg 14), k) else
  let* (kind, k) := on_current k (ReadBytes 0) (ReadBytes 0) (read_fd fd buffer_ptr length) in
  match kind with
  | ReadError e => Ret (SysReturn (neg e), k)
  | ReadBytes n => Ret (SysReturn n, k)
  | ReadStdin =>
      if 0 <? length then
        let* (o, keys) := pop_key (k_keys k) in
        match o with
        | Some c =>
            let encoded := encode_utf8 c in
            let bytes_to_copy := Z.min (Z.of_nat (List.length encoded)) length in
            r <- store_bytes (mem_ram (k_mem k)) (k_cr3 k) buffer_ptr (take (Z.to_nat bytes_to_copy) encoded);;
            Ret (SysReturn bytes_to_copy, set_k_ram (set_k_keys k keys) r)
        | None => Ret (SysWaitKey, set_k_keys k keys)
        end
      else Ret (SysReturn 0, k)
  end.

(** The closure of [sys_write]: the bytes written or an error. *)
Definition write_fd (fd buffer_ptr length : Z) k (t : Task (node V)) : outcome (read_kind * Task (node V) * kernel) :=
  let emit (before after : str) :=
    slice <- load_bytes (mem_ram (k_mem k)) (k_cr3 k) buffer_ptr (Z.to_nat length);;
    match from_utf8 slice with
    | Some text => Ret (ReadBytes length, t, print k (before ++ text ++ after))
    | None => Ret (ReadBytes 0, t, k)
    end in
  match get_fd (fd_table t) fd with
  | None => Ret (ReadError 9, t, k)
  | Some Stdout => emit [] []
  | Some Stderr => emit (0x1b :: lit "[31m") (0x1b :: lit "[0m")
  | Some Stdin | Some (RegularFile _ _) => Ret (ReadError 9, t, k)
  end.

Definition sys_write k (fd buffer_ptr length : Z) : outcome (sys_end * kernel) :=
  valid <- is_valid_user_memory k buffer_ptr length;;
  if negb valid then Ret (SysReturn (neg 14), k) else
  let* (kind, k) := on_current k (ReadBytes 0) (ReadError 9) (write_fd fd buffer_ptr length) in
  Ret (SysReturn match kind with ReadError e => neg e | ReadBytes n => n | ReadStdin => 0 end, k).

Definition sys_open k (filename_ptr : Z) : outcome (sys_end * kernel) :=
  valid <- is_valid_user_memory k filename_ptr 256;;
  if negb valid then Ret (SysReturn (neg 14), k) else
  filename <- user_name k filename_ptr 256;;
  o <- open_vnode (k_vfs k) filename;;
  match o with
  | None => Ret (SysReturn (neg 2), k)
  | Some file_vnode =>
      let* (new_fd, k) := on_current k 0 0 (λ k t,
        let* (fd, fds) := fd_insert (fd_table t) (RegularFile file_vnode 0) in
        Ret (fd, with_fds t fds, k)) in
      Ret (SysReturn (if 0 <? new_fd then new_fd else neg 24), k)
  end.

Definition sys_close k (fd : Z) : outcome (sys_end * kernel) :=
  let* (ok, k) := on_current k false false (λ k t,
    let (closed, fds) := fd_close (fd_table t) fd in
    Ret (closed, with_fds t fds, k)) in
  Ret (SysReturn (if ok : bool then 0 else neg 9), k).
(** ** Memory *)

(** A round of [for i in 0..pages { .. allocate_and_map_user_page(..) .. }]. *)
Definition map_pages_round (target_pml4 start_addr i : Z) (m : mem) : outcome (flow mem (KernelError * mem)) :=
  d <- umul 64 i 4096;;
  a <- uadd 64 start_addr d;;
  virt_addr <- virt_new a;;
  let* (res, m) := allocate_and_map_user_page hhdm target_pml4 virt_addr m in
  Ret match res with Ok _ => Next m | Err e => Done (e, m) end.

(** The closure of [sys_mmap].  The errno the closure stores on a failed mapping is
    overwritten by the initial [ret_val] after it. *)
Definition mmap_task (addr length : Z) k (t : Task (node V)) : outcome (Z * Task (node V) * kernel) :=
  l <- uadd 64 length 0xFFF;;
  let alloc_size := Z.land l (unot 64 0xFFF) in
  let start_addr := if negb (addr =? 0) then addr else mmap_base t in
  if (0x1000 <=? start_addr) && (sat_add 64 start_addr alloc_size <=? USER_LIMIT) then
    let pages := alloc_size / 4096 in
    f <- for_range 0 pages (map_pages_round (pml4_frame t) start_addr) (k_mem k);;
    match f with
    | Done (_, m) => Ret (neg 12, t, set_k_mem k m)
    | Next m =>
        base <- (if addr =? 0 then uadd 64 (mmap_base t) alloc_size else Ret (mmap_base t));;
        Ret (start_addr, with_mmap_base t base, set_k_mem k m)
    end
  else Ret (neg 12, t, k).

Definition sys_mmap k (addr length flags : Z) : outcome (sys_end * kernel) :=
  if Z.land flags 0x20 =? 0 then Ret (SysReturn (neg 22), k) else
  let* (ret_val, k) := on_current k (neg 12) (neg 12) (mmap_task addr length) in
  Ret (SysReturn ret_val, k).

(** The body of [sys_brk] on the current task. *)
Definition brk_task (requested_brk : Z) k (t : Task (node V)) : outcome (Z * Task (node V) * kernel) :=
  if requested_brk =? 0 then Ret (program_break t, t, k) else
  if (requested_brk <? heap_start t) || (0x700000000000 <=? requested_brk) then Ret (program_break t, t, k) else
  c <- uadd 64 (program_break t) 0xFFF;;
  let current_page_end := Z.land c (unot 64 0xFFF) in
  n <- uadd 64 requested_brk 0xFFF;;
  let new_page_end := Z.land n (unot 64 0xFFF) in
  if current_page_end <? new_page_end then
    d <- usub 64 new_page_end current_page_end;;
    let pages_to_allocate := d / 0x1000 in
    f <- for_range 0 pages_to_allocate (map_pages_round (pml4_frame t) current_page_end) (k_mem k);;
    Ret match f with
        | Next m => (requested_brk, with_break t requested_brk, set_k_mem k m)
        | Done (_, m) => (program_break t, t, set_k_mem k m)
        end
  else Ret (requested_brk, with_break t requested_brk, k).

Definition sys_brk k (requested_brk : Z) : outcome (sys_end * kernel) :=
  let* (v, k) := on_current k 0 0 (brk_task requested_brk) in
  Ret (SysReturn v, k).

(** ** Tasks *)

(** The start of each argument: the bytes between zeros. *)
Fixpoint argv_pointers (args : list Z) (current_ptr : Z) (is_new_arg : bool) : list Z :=
  match args with
  | [] => []
  | x :: args =>
      if x =? 0 then argv_pointers args (current_ptr + 1) true
      else if is_new_arg then current_ptr :: argv_pointers args (current_ptr + 1) false
      else argv_pointers args (current_ptr + 1) is_new_arg
  end.

(** [user_stack_top -= 8; *(user_stack_top as *mut u64) = v]. *)
Definition push_user (cr3 : Z) (s : Z * ram) (v : Z) : outcome (Z * ram) :=
  let (user_stack_top, r) := s in
  user_stack_top <- usub 64 user_stack_top 8;;
  r <- store_bytes r cr3 user_stack_top (le_bytes 8 v);;
  Ret (user_stack_top, r).

(** The strings, the null pointers, the argument pointers and their number. *)
Definition build_user_stack (r : ram) (target_pml4 user_stack_top : Z) (args : list Z) : outcome (Z * ram) :=
  strings_base <- usub 64 user_stack_top (Z.of_nat (length args));;
  r <- store_bytes r target_pml4 strings_base args;;
  let argv := argv_pointers args strings_base true in
  let argc := Z.of_nat (length argv) in
  s <- push_user target_pml4 (Z.land strings_base (unot 64 0xF), r) 0;;
  s <- push_user target_pml4 s 0;;
  s <- mfold (push_user target_pml4) s (rev argv);;
  push_user target_pml4 s argc.

Definition USER_STACK_BASE : Z := 0x7FFFF0000000.

(** The pages of the kernel heap, and whether the space [pml4] translates them as the
    space [cr3] did in the memory [r0]. *)
Definition heap_pages : list Z := map (λ i, HEAP_START + Z.of_nat i * 4096) (seq 0 (Z.to_nat (HEAP_SIZE / 4096))).
Definition heap_reached (r0 : ram) (cr3 : Z) (r : ram) (pml4 : Z) : bool :=
  forallb (λ a, match leaf_walk r0 3 cr3 a with
                | Some e => bool_decide (leaf_walk r 3 pml4 a = Some e)
                | None => false
                end) heap_pages.

(** [Cr3::write(target_pml4)] in the middle of a system call.  The stack the kernel runs
    on and the buffer of the arguments are on the heap, in the lower half: in a space
    that does not have the heap the next access faults, and so does its handler. *)
Definition switch_cr3 (r0 : ram) (cr3 : Z) (r : ram) (target_pml4 : Z) : outcome unit :=
  if heap_reached r0 cr3 r target_pml4 then Ret tt else Stop OutOfBounds.

Definition sys_execve k (filename_ptr args_ptr args_len : Z) : outcome (sys_end * kernel) :=
  let r0 := mem_ram (k_mem k) in
  valid <- is_valid_user_memory k filename_ptr 64;;
  if negb valid then Ret (SysReturn (neg 14), k) else
  valid <- (if 0 <? args_len then is_valid_user_memory k args_ptr args_len else Ret true);;
  if negb valid then Ret (SysReturn (neg 14), k) else
  filename <- user_name k filename_ptr 64;;
  args_buf <- (if (0 <? args_len) && (args_len <? 4096)
               then load_bytes (mem_ram (k_mem k)) (k_cr3 k) args_ptr (Z.to_nat args_len)
               else Ret (as_bytes filename ++ [0]));;
  o <- find_file (k_vfs k) filename;;
  match o with
  | None => Ret (SysReturn (neg 2), k)
  | Some elf_slice =>
      let* (o, m) := create_isolated_pml4 hhdm (k_cr3 k) (k_mem k) in
      match o with
      | None => Ret (SysReturn (neg 12), set_k_mem k m)
      | Some target_pml4 =>
          let* (load_result, m) := load_elf hhdm elf_slice target_pml4 m in
          stack_page <- virt_new USER_STACK_BASE;;
          let* (res, m) := allocate_and_map_user_page hhdm target_pml4 stack_page m in
          let k := set_k_mem k m in
          match res with
          | Err kernel_err => Ret (SysReturn (errno_rax kernel_err), k)
          | Ok _ =>
              _ <- switch_cr3 r0 (k_cr3 k) (mem_ram m) target_pml4;;
              let* (user_stack_top, r) := build_user_stack (mem_ram m) target_pml4 (USER_STACK_BASE + 0x1000) args_buf in
              let k := set_k_ram k r in
              match load_result with
              | Err e => Ret (SysReturn (errno_rax (KernelError_from_ElfError e)), k)
              | Ok entry_point =>
                  let* (next, stacks, tm, res) :=
                    spawn_dynamic sel tramp entry_point target_pml4 user_stack_top stack (k_next_id k) (k_stacks k) (k_tm k) in
                  let k := mkKernel tm (k_mem k) (k_cr3 k) (k_keys k) (k_vfs k) next stacks (k_console k) in
                  Ret (SysReturn match res with Ok i => i | Err kernel_err => errno_rax kernel_err end, k)
              end
          end
      end
  end.

Definition sys_wait4 k (pid : Z) : sys_end * kernel :=
  let (will_block, tm) := wait_for_child (k_tm k) pid in
  (if will_block : bool then SysSchedule pid else SysReturn (neg 10), set_k_tm k tm).

(** [sys_exit] does not return: the dead task halts until it is switched away. *)
Definition sys_exit k : sys_end * kernel := (SysHalt, set_k_tm k (exit_current_task (k_tm k))).

(** The port writes of the power-off call, as (port, width in bits, value);
    the task then halts for ever. *)
Definition sys_poweroff k : sys_end * kernel := (SysPowerOff [(0xf4, 32, 0x10); (0x604, 16, 0x2000)], k).

Definition sys_clear k : sys_end * kernel := (SysReturn 0, clear_screen k).

Definition handle_syscall_rust k (regs : SyscallRegisters) : outcome (sys_end * kernel) :=
  match rax regs with
  | 0 => sys_read k (rdi regs) (rsi regs) (rdx regs)
  | 1 => sys_write k (rdi regs) (rsi regs) (rdx regs)
  | 2 => sys_open k (rdi regs)
  | 3 => sys_close k (rdi regs)
  | 9 => sys_mmap k (rdi regs) (rsi regs) (r10 regs)
  | 12 => sys_brk k (rdi regs)
  | 59 => sys_execve k (rdi regs) (rsi regs) (rdx regs)
  | 61 => Ret (sys_wait4 k (rdi regs))
  | 60 => Ret (sys_exit k)
  | 88 => Ret (sys_poweroff k)
  | 500 => Ret (sys_clear k)
  | _ => Ret (SysReturn (neg 38), k)
  end.
End Syscall.
