(* ===== verification/SyscallFacts.v ===== *)
(** * What the system calls promise

    The check of user pointers is exact, calls with any arguments return, and they
    change no memory but the task's own.  Then what each call does: reading a file
    moves its bytes into the buffer, [mmap] and [brk] add zeroed pages, the stack
    of a new program holds its arguments. *)

From S2P Require Import Prelude KError FrameAlloc Fd X86 Task TaskManager Paging PageTree PageMapper AddrSpace UserMem UserSpace Keyboard Str Vfs Elf Syscall.

#[local] Open Scope list_scope.

Section Pointers.
Context `{HP : Profile} `{HE : EntrySpec} `{HV : VirtAddrSpec} (off : Z).
Context {V : Type}.
Implicit Types (k : kernel (V := V)) (um : umem).

(** The loop over the pages of a range. *)
Lemma page_loop m cr3 um first last : uspace off m cr3 um → is_page first → is_page last →
  wp (loop (S (S (Z.to_nat ((last - first) / 4096)))) (page_round (Some off) cr3 (mem_ram m) last) first)
    (λ v, v = true ↔ ∀ p, is_page p → first ≤ p ≤ last → is_Some (um !! p)).
Proof.
  intros Hu [Hf Hf0] [Hl Hl0].
  apply (wp_loop (λ c, first ≤ c ∧ (c = first ∨ c ≤ last + 4096) ∧ c mod 4096 = 0 ∧ ∀ p, is_page p → first ≤ p < c → is_Some (um !! p))
           (λ c, Z.to_nat ((last + 4096 - c) / 4096))).
  2: { split; [lia|]. split; [by left|]. split; [done|]. intros p _ Hp. lia. }
  2: { zlia. }
  intros c (Hc1 & Hc2 & Hc0 & Hall). unfold page_round. destruct (Z.leb_spec c last); cbn [negb].
  2: { wp_step. split; [|done]. intros _ p Hp Hr. apply Hall; [done|lia]. }
  rewrite virt_new_ok by (left; lia). cbn [obind]. rewrite (user_page_check off _ _ um) by (done || lia). cbn [obind].
  assert (page_of c = c) as -> by (unfold page_of; lia). destruct (decide (is_Some (um !! c))) as [Hs|Hn].
  - rewrite bool_decide_true by done. cbn [negb]. unfold uadd. rewrite checked_ok by lia. cbn [obind]. wp_step. split; [|zlia].
    split; [lia|]. split; [right; lia|]. split; [zlia|]. intros p [Hp Hp0] Hr. destruct (decide (p = c)) as [->|]; [done|]. apply Hall; [done|zlia].
  - rewrite bool_decide_false by done. cbn [negb]. wp_step. split; [done|]. intros Hx. destruct Hn. apply Hx; [split|]; lia.
Qed.

(** What the check means. *)
Definition valid_range um (ptr len : Z) : Prop :=
  ptr ≠ 0 ∧ (len = 0 ∨ (ptr + len ≤ USER_LIMIT ∧ user_range um ptr len)).

Lemma range_pages um ptr len : 0 ≤ ptr → 0 < len → ptr + len ≤ USER_LIMIT →
  user_range um ptr len ↔ ∀ p, is_page p → page_of ptr ≤ p ≤ page_of (ptr + len - 1) → is_Some (um !! p).
Proof.
  intros Hp Hl Hlim. unfold USER_LIMIT in Hlim. split.
  - intros Hr p [Hp1 Hp2] Hrange. destruct (decide (p < ptr)) as [Hlt|].
    + assert (p = page_of ptr) as -> by (unfold page_of in *; zlia). apply Hr. lia.
    + assert (p = page_of p) as -> by (unfold page_of; lia). apply Hr. unfold page_of in *. zlia.
  - intros Hall i Hi. apply Hall; [apply page_of_page; lia|]. unfold page_of. zlia.
Qed.

Lemma valid_memory k um ptr len : uspace off (k_mem k) (k_cr3 k) um → 0 ≤ ptr < 2 ^ 64 → 0 ≤ len < 2 ^ 64 →
  wp (is_valid_user_memory (Some off) k ptr len) (λ v, v = true ↔ valid_range um ptr len).
Proof.
  intros Hu Hp Hl. unfold is_valid_user_memory, valid_range. destruct (Z.eqb_spec ptr 0); [wp_step; split; [done|tauto]|].
  unfold ISIZE_MAX. destruct (Z.ltb_spec (2 ^ 63 - 1) len).
  { wp_step. split; [done|]. intros [_ [?|[? _]]]; unfold USER_LIMIT in *; lia. }
  destruct (Z.eqb_spec len 0); [wp_step; split; [by auto|done]|]. unfold sat_add.
  destruct (Z.ltb_spec USER_LIMIT (Z.min (ptr + len) (2 ^ 64 - 1))).
  { wp_step. split; [done|]. intros [_ [?|[? _]]]; unfold USER_LIMIT in *; lia. }
  assert (ptr + len ≤ USER_LIMIT) as Hlim by (unfold USER_LIMIT in *; lia).
  assert (Z.min (ptr + len) (2 ^ 64 - 1) = ptr + len) as -> by (unfold USER_LIMIT in *; lia).
  unfold usub. rewrite checked_ok by (unfold USER_LIMIT in *; lia). cbn [obind]. rewrite !page_mask by (unfold USER_LIMIT in *; lia).
  eapply wp_mono; [apply (page_loop _ _ um); [done|apply page_of_page; unfold USER_LIMIT in *; lia..]|]. cbv beta.
  intros v ->. rewrite <- (range_pages um ptr len) by lia. tauto.
Qed.

(** the check of user pointers.  On every pointer and length,
    [is_valid_user_memory] returns, and it accepts exactly the ranges that are empty
    at a pointer other than null, or that end in the lower half and consist of pages
    ring 3 can reach. *)
Theorem is_valid_user_memory_exact k um ptr len : uspace off (k_mem k) (k_cr3 k) um → 0 ≤ ptr < 2 ^ 64 → 0 ≤ len < 2 ^ 64 →
  ∃ v, is_valid_user_memory (Some off) k ptr len = Ret v ∧ (v = true ↔ valid_range um ptr len).
Proof.
  intros Hu Hp Hl. pose proof (valid_memory k um ptr len Hu Hp Hl) as Hv.
  destruct (is_valid_user_memory (Some off) k ptr len) as [v|]; [by exists v|done].
Qed.
End Pointers.

(** ** Calls with any arguments *)

(** A conjunction of facts at hand. *)
Ltac facts := repeat first [assumption | reflexivity | apply conj].

(** A character encodes to bytes. *)
Definition is_char (c : Z) : Prop := 0 ≤ c < 0x110000.

Lemma encode_utf8_bytes c : is_char c → Forall (λ x, is_byte x) (encode_utf8 c) ∧ (1 ≤ length (encode_utf8 c) ≤ 4)%nat.
Proof.
  unfold is_char, encode_utf8. intros Hc.
  destruct (Z.ltb_spec c 0x80); [|destruct (Z.ltb_spec c 0x800); [|destruct (Z.ltb_spec c 0x10000)]];
    (split; [repeat constructor; zlia|cbn [length]; lia]).
Qed.

Lemma pop_key_ok `{HP : Profile} r q : ring_rel r q →
  wp (pop_key r) (λ '(o, r'), o = head q ∧ ring_rel r' (tail q)).
Proof.
  intros Hr. pose proof Hr as [Hlen Hh Ht Hcap Hs]. unfold pop_key, CAPACITY in *. destruct (Z.eqb_spec (HEAD r) (TAIL r)) as [E|Hne].
  - wp_step. assert (q = []) as -> by (apply nil_length_inv; zlia). done.
  - destruct q as [|c q]; [cbn [length] in Ht; zlia|]. specialize (Hs 0%nat c eq_refl). rewrite Z.add_0_r, Z.mod_small in Hs by lia.
    unfold vget. rewrite Hs. cbn [obind]. unfold uadd. rewrite checked_ok by lia. cbn [obind]. wp_step. split; [done|]. by eapply ring_rel_pop.
Qed.

Section Calls.
Context `{HP : Profile} `{HE : EntrySpec} `{HV : VirtAddrSpec} `{HA : PhysAddrSpec} (off : Z) `{HM : Mapper} `{HMS : !MapperSpec off}.
Context {V : Type} `{HN : VNode V}.
Context (sel : Selectors) (tramp : Z) (stack : option Z).
Implicit Types (k : kernel (V := V)) (um : umem) (t : Task (node V)).

(** What [read] of a node promises: at most the bytes asked for, and a cursor that
    stays a [usize]. *)
Definition node_ok (n : node V) : Prop := ∀ o len, 0 ≤ o < 2 ^ 64 → 0 ≤ len < 2 ^ 64 →
  wp (node_read n o len) (λ l, Z.of_nat (length l) ≤ len ∧ Forall (λ x, is_byte x) l ∧ o + Z.of_nat (length l) < 2 ^ 64).

Record task_ok (bound : Z) t : Prop := {
  tk_fds : fd_wf (fd_table t);
  tk_next : next_fd (fd_table t) ≤ bound;
  tk_files fd n o : descriptors (fd_table t) !! fd = Some (RegularFile n o) → node_ok n ∧ 0 ≤ o < 2 ^ 64;
  tk_break : 0 ≤ heap_start t ≤ program_break t ∧ program_break t < 0x700000000000;
  tk_mmap : 0 ≤ mmap_base t ≤ USER_LIMIT;
}.

(** [um] is the memory of the current task; [bound] limits the descriptors that
    were handed out. *)
Record kernel_ok (bound : Z) k um : Prop := {
  ko_space : uspace off (k_mem k) (k_cr3 k) um;
  ko_keys : ∃ q, ring_rel (k_keys k) q ∧ Forall is_char q;
  ko_files path : wp (open_vnode (k_vfs k) path) (λ o, ∀ n, o = Some n → node_ok n);
  ko_tasks i t : task_registry (k_tm k) !! i = Some t → task_ok bound t;
  ko_current i t : current_task (k_tm k) = Some i → task_registry (k_tm k) !! i = Some t → pml4_frame t = k_cr3 k;
}.

(** A call ended: the kernel is in order again, and the frames of others were not
    touched. *)
Record safe_end (bound : Z) k um k' um' : Prop := {
  se_ok : kernel_ok bound k' um';
  se_cr3 : k_cr3 k' = k_cr3 k;
  se_isolated : isolated (k_cr3 k) (k_mem k) um (k_mem k') um';
}.

Lemma task_ok_mono b b' t : b ≤ b' → task_ok b t → task_ok b' t.
Proof. intros Hb []. split; try done. lia. Qed.

Lemma kernel_ok_mono b b' k um : b ≤ b' → kernel_ok b k um → kernel_ok b' k um.
Proof. intros Hb []. split; try done. intros i t Ht. by eapply task_ok_mono, ko_tasks0. Qed.

Lemma safe_end_refl b b' k um : b ≤ b' → kernel_ok b k um → safe_end b' k um k um.
Proof. intros Hb Hk. split; [by eapply kernel_ok_mono|done|apply isolated_refl]. Qed.

Lemma safe_end_trans b b' k1 um1 k2 um2 k3 um3 : safe_end b k1 um1 k2 um2 → safe_end b' k2 um2 k3 um3 → safe_end b' k1 um1 k3 um3.
Proof.
  intros [_ E1 I1] [K2 E2 I2]. split; [done|congruence|]. rewrite E1 in I2. by eapply isolated_trans.
Qed.

(** The memory changed. *)
Lemma safe_end_mem b k um m um' : kernel_ok b k um → uspace off m (k_cr3 k) um' → isolated (k_cr3 k) (k_mem k) um m um' →
  safe_end b k um (set_k_mem k m) um'.
Proof. intros [] Hu Hi. split; [by split|done|done]. Qed.

(** The current task changed. *)
Lemma safe_end_task b b' k um k' um' i t : b ≤ b' → safe_end b k um k' um' → current_task (k_tm k') = Some i →
  task_ok b' t → pml4_frame t = k_cr3 k →
  safe_end b' k um (set_k_tm k' (set_registry (k_tm k') (<[i := t]> (task_registry (k_tm k'))))) um'.
Proof.
  intros Hb [Hk Hc Hi] Hcur Ht Hp. split; [|done|done]. destruct Hk. split; try done; cbn.
  - intros j u [[_ <-]|[_ Hu]]%lookup_insert_Some; [done|]. by eapply task_ok_mono, ko_tasks0.
  - intros j u Hj [[_ <-]|[_ Hu]]%lookup_insert_Some; [congruence|]. by eapply ko_current0.
Qed.

Lemma on_current_ok {A} b b' k um (a0 a1 : A) f (Q : A → umem → Prop) : b ≤ b' → kernel_ok b k um → Q a0 um → Q a1 um →
  (∀ t, task_ok b t → pml4_frame t = k_cr3 k → wp (f k t) (λ '(a, t', k'), ∃ um',
     safe_end b k um k' um' ∧ k_tm k' = k_tm k ∧ task_ok b' t' ∧ pml4_frame t' = k_cr3 k ∧ Q a um')) →
  wp (on_current k a0 a1 f) (λ '(a, k'), ∃ um', safe_end b' k um k' um' ∧ Q a um').
Proof.
  intros Hb Hk Ha0 Ha1 Hf. unfold on_current. pose proof (safe_end_refl b b' k um Hb Hk) as Hrefl.
  destruct (current_task (k_tm k)) as [i|] eqn:Ei; [|wp_step; by exists um].
  destruct (task_registry (k_tm k) !! i) as [t|] eqn:Et; [|wp_step; by exists um].
  wp_step. eapply wp_mono; [apply Hf; [by eapply ko_tasks|by eapply ko_current]|]. intros [[a t'] k'] (um' & Hs & Etm & Ht & Hp & HQ).
  wp_step. exists um'. split; [|done]. eapply safe_end_task; try done. by rewrite Etm.
Qed.

(** *** Files *)

Definition same_pages um um' : Prop := ∀ p, is_Some (um' !! p) ↔ is_Some (um !! p).

Lemma valid_range_user um ptr len n : valid_range um ptr len → n ≤ len → user_range um ptr n.
Proof. intros [_ [->|[_ Hr]]] Hn i Hi; [lia|]. apply Hr. lia. Qed.

Lemma valid_range_same um um' ptr len : same_pages um um' → valid_range um ptr len → valid_range um' ptr len.
Proof. intros Hs [Hp [?|[Hl Hr]]]; (split; [done|]); [by left|right]. split; [done|]. intros i Hi. by apply Hs, Hr. Qed.

(** The kernel copies bytes to the task. *)
Lemma copy_out b k um ptr l : kernel_ok b k um → user_range um ptr (Z.of_nat (length l)) → Forall (λ x, is_byte x) l →
  wp (store_bytes (mem_ram (k_mem k)) (k_cr3 k) ptr l) (λ r, safe_end b k um (set_k_ram k r) (uwrite um ptr l)).
Proof.
  intros Hk Hr Hl. destruct (uspace_stores off (k_cr3 k) l Hl (k_mem k) um ptr (ko_space _ _ _ Hk) Hr) as (r & -> & Hu & Hi & _).
  wp_step. by apply safe_end_mem.
Qed.

Lemma task_ok_fds b b' t fds : task_ok b t → fd_wf fds → next_fd fds ≤ b' →
  (∀ fd n o, descriptors fds !! fd = Some (RegularFile n o) → node_ok n ∧ 0 ≤ o < 2 ^ 64) → task_ok b' (with_fds t fds).
Proof. intros [] Hf Hn Hd. by split. Qed.

Lemma task_ok_seek b t fd n o o' : task_ok b t → get_fd (fd_table t) fd = Some (RegularFile n o) → 0 ≤ o' < 2 ^ 64 →
  task_ok b (with_fds t (put_fd (fd_table t) fd (RegularFile n o'))).
Proof.
  intros Ht Hg Ho. pose proof (fd_wf_seek (fd_table t) fd o' (tk_fds _ _ Ht)) as Hwf. pose proof (tk_next _ _ Ht) as Hn.
  unfold seek in Hwf. rewrite Hg in Hwf. unfold put_fd in *. rewrite Hg in *. eapply task_ok_fds; try done.
  intros fd' n' x. cbn [descriptors]. intros [[<- [= <- <-]]|[_ Hx]]%lookup_insert_Some; [|by eapply tk_files]. split; [|done]. by eapply tk_files.
Qed.

Lemma read_fd_ok b k um fd ptr len t : kernel_ok b k um → valid_range um ptr len → 0 ≤ len < 2 ^ 64 → task_ok b t →
  wp (read_fd fd ptr len k t) (λ '(_, t', k'), ∃ um',
    safe_end b k um k' um' ∧ k_tm k' = k_tm k ∧ task_ok b t' ∧ pml4_frame t' = pml4_frame t ∧ same_pages um um').
Proof.
  intros Hk Hv Hlen Ht. pose proof (safe_end_refl b b k um ltac:(lia) Hk) as Hrefl. unfold read_fd.
  assert (same_pages um um) as Hsame by done.
  destruct (get_fd (fd_table t) fd) as [[| | |n o]|] eqn:Hg; [wp_step; exists um; facts..| |wp_step; exists um; facts].
  destruct (tk_files _ _ Ht fd n o Hg) as [Hn Ho]. wp_step. eapply wp_mono; [by apply Hn|]. intros l (Hl & Hb & Hol).
  wp_step. eapply wp_mono; [apply copy_out; [done|by eapply valid_range_user|done]|]. intros r Hs.
  assert (same_pages um (uwrite um ptr l)) as Hp by (intros p; apply uwrite_dom).
  destruct (Z.ltb_spec 0 (Z.of_nat (length l))); [|wp_step; exists (uwrite um ptr l); facts]. unfold uadd. rewrite checked_ok by lia. wp_step.
  exists (uwrite um ptr l). split; [exact Hs|]. split; [done|]. split; [|by split]. eapply task_ok_seek; [done|done|lia].
Qed.

Lemma sys_read_safe b k um fd ptr len : kernel_ok b k um → 0 ≤ ptr < 2 ^ 64 → 0 ≤ len < 2 ^ 64 →
  wp (sys_read (Some off) k fd ptr len) (λ '(_, k'), ∃ um', safe_end b k um k' um').
Proof.
  intros Hk Hp Hlen. unfold sys_read. wp_step. eapply wp_mono; [apply (valid_memory off k um); [apply Hk|done..]|].
  intros [] Hv; cbn [negb]; [|wp_step; exists um; by apply (safe_end_refl b b)]. apply proj1 in Hv. specialize (Hv eq_refl).
  wp_step. eapply wp_mono; [apply (on_current_ok b b k um _ _ _ (λ _ um', same_pages um um')); try done|].
  { intros t Ht Hc. eapply wp_mono; [by apply read_fd_ok|]. intros [[a t'] k'] (um' & ? & ? & ? & E & ?). exists um'. rewrite E. facts. }
  intros [kind k1] (um1 & Hs & Hsame). destruct kind as [n| |e]; [wp_step; by exists um1| |wp_step; by exists um1].
  destruct (Z.ltb_spec 0 len); [|wp_step; by exists um1]. destruct Hs as [Hk1 Hc1 Hi1].
  destruct (ko_keys _ _ _ Hk1) as (q & Hq & Hch). wp_step. eapply wp_mono; [by apply pop_key_ok|]. intros [o keys] [-> Hkeys].
  assert (kernel_ok b (set_k_keys k1 keys) um1) as Hk2.
  { destruct Hk1. split; try done. exists (tail q). split; [done|]. destruct q; [done|by inversion Hch]. }
  assert (safe_end b k um (set_k_keys k1 keys) um1) as Hs2 by done.
  destruct q as [|c q]; cbn [head]; [wp_step; by exists um1|]. apply Forall_cons in Hch as [Hc _].
  destruct (encode_utf8_bytes c Hc) as [Hb Hl4]. wp_step.
  eapply wp_mono; [apply (copy_out b (set_k_keys k1 keys) um1 ptr); [done| |by apply Forall_take]|].
  { eapply valid_range_user; [by eapply valid_range_same|]. rewrite length_take. lia. }
  intros r Hr. wp_step. eexists. eapply safe_end_trans; [exact Hs2|exact Hr].
Qed.

Lemma safe_end_print b k um text : kernel_ok b k um → safe_end b k um (print k text) um.
Proof. intros []. split; [by split|done|apply isolated_refl]. Qed.

Lemma copy_in b k um ptr len n : kernel_ok b k um → valid_range um ptr len → Z.of_nat n ≤ len →
  load_bytes (mem_ram (k_mem k)) (k_cr3 k) ptr n = Ret (ubytes um ptr n).
Proof. intros Hk Hv Hn. eapply uspace_loads; [apply Hk|]. by eapply valid_range_user. Qed.

Lemma write_fd_ok b k um fd ptr len t : kernel_ok b k um → valid_range um ptr len → 0 ≤ len < 2 ^ 64 → task_ok b t →
  wp (write_fd fd ptr len k t) (λ '(_, t', k'), ∃ um',
    safe_end b k um k' um' ∧ k_tm k' = k_tm k ∧ task_ok b t' ∧ pml4_frame t' = pml4_frame t ∧ same_pages um um').
Proof.
  intros Hk Hv Hlen Ht. pose proof (safe_end_refl b b k um ltac:(lia) Hk) as Hrefl. unfold write_fd.
  assert (same_pages um um) as Hsame by done. rewrite (copy_in b k um ptr len) by (done || lia). cbn [obind].
  destruct (get_fd (fd_table t) fd) as [[| | |n o]|] eqn:Hg; try (wp_step; exists um; facts);
    (destruct (from_utf8 _) as [text|]; wp_step; exists um; (split; [by apply safe_end_print|facts]) || facts).
Qed.

Lemma sys_write_safe b k um fd ptr len : kernel_ok b k um → 0 ≤ ptr < 2 ^ 64 → 0 ≤ len < 2 ^ 64 →
  wp (sys_write (Some off) k fd ptr len) (λ '(_, k'), ∃ um', safe_end b k um k' um').
Proof.
  intros Hk Hp Hlen. unfold sys_write. wp_step. eapply wp_mono; [apply (valid_memory off k um); [apply Hk|done..]|].
  intros [] Hv; cbn [negb]; [|wp_step; exists um; by apply (safe_end_refl b b)]. apply proj1 in Hv. specialize (Hv eq_refl).
  wp_step. eapply wp_mono; [apply (on_current_ok b b k um _ _ _ (λ _ um', same_pages um um')); try done|].
  { intros t Ht Hc. eapply wp_mono; [by apply write_fd_ok|]. intros [[a t'] k'] (um' & ? & ? & ? & E & ?). exists um'. rewrite E. facts. }
  intros [kind k1] (um1 & Hs & _). wp_step. by exists um1.
Qed.

Lemma user_range_next um a n : user_range um a (Z.of_nat (S n)) → user_range um (a + 1) (Z.of_nat n).
Proof. intros Hr i Hi. apply Hr. lia. Qed.

Lemma read_cstr_ok b k um n : kernel_ok b k um → ∀ ptr, user_range um ptr (Z.of_nat n) →
  read_cstr (mem_ram (k_mem k)) (k_cr3 k) ptr n = Ret (until_nul (ubytes um ptr n)).
Proof.
  intros Hk. induction n as [|n IH]; intros ptr Hr; cbn [read_cstr ubytes until_nul]; [done|].
  rewrite (uspace_load off _ (k_mem k) um) by (apply Hk || (apply Hr; lia)). cbn [obind].
  destruct (_ =? 0); [done|]. by rewrite IH by (by apply user_range_next).
Qed.

Lemma user_name_ok b k um ptr len n : kernel_ok b k um → valid_range um ptr len → Z.of_nat n ≤ len →
  user_name k ptr n = Ret (default [] (from_utf8 (until_nul (ubytes um ptr n)))).
Proof. intros Hk Hv Hn. unfold user_name. erewrite read_cstr_ok; [done|done|]. by eapply valid_range_user. Qed.

Lemma task_ok_insert b t n : task_ok b t → b + 1 < 2 ^ 64 → node_ok n →
  wp (fd_insert (fd_table t) (RegularFile n 0)) (λ '(fd, fds), fd = next_fd (fd_table t) ∧ task_ok (b + 1) (with_fds t fds)
    ∧ descriptors fds = <[fd := RegularFile n 0]> (descriptors (fd_table t))).
Proof.
  intros Ht Hb Hn. pose proof (tk_next _ _ Ht) as Hnext. pose proof (fd_wf_insert (fd_table t) (RegularFile n 0) (tk_fds _ _ Ht) ltac:(lia)) as Hi.
  unfold fd_insert, uadd in *. rewrite checked_ok in * by (destruct (tk_fds _ _ Ht); lia). cbn [obind wp] in *.
  destruct Hi as (_ & Hwf & _). split; [done|]. split; [|done]. eapply task_ok_fds; try done; cbn [next_fd descriptors]; [lia|].
  intros fd m o [[<- [= <- <-]]|[_ Hx]]%lookup_insert_Some; [by split|]. by eapply tk_files.
Qed.

Lemma sys_open_safe b k um ptr : kernel_ok b k um → b + 1 < 2 ^ 64 → 0 ≤ ptr < 2 ^ 64 →
  wp (sys_open (Some off) k ptr) (λ '(_, k'), ∃ um', safe_end (b + 1) k um k' um').
Proof.
  intros Hk Hb Hp. pose proof (safe_end_refl b (b + 1) k um ltac:(lia) Hk) as Hrefl. unfold sys_open. wp_step.
  eapply wp_mono; [apply (valid_memory off k um); [apply Hk|done..]|].
  intros [] Hv; cbn [negb]; [|wp_step; by exists um]. apply proj1 in Hv. specialize (Hv eq_refl).
  rewrite (user_name_ok b k um ptr 256) by (done || lia). cbn [obind]. wp_step. eapply wp_mono; [apply Hk|]. intros [n|] Hn; [|wp_step; by exists um].
  wp_step. eapply wp_mono; [apply (on_current_ok b (b + 1) k um _ _ _ (λ _ _, True)); try done; [lia|]|].
  - intros t Ht Hc. wp_step. eapply wp_mono; [apply task_ok_insert; [done|done|by apply Hn]|]. intros [fd fds] (_ & Ht' & _). wp_step.
    exists um. pose proof (safe_end_refl b b k um ltac:(lia) Hk). facts.
  - intros [fd k'] (um' & Hs & _). wp_step. by exists um'.
Qed.

Lemma sys_close_safe b k um fd : kernel_ok b k um → wp (sys_close k fd) (λ '(_, k'), ∃ um', safe_end b k um k' um').
Proof.
  intros Hk. pose proof (safe_end_refl b b k um ltac:(lia) Hk) as Hrefl. unfold sys_close. wp_step.
  eapply wp_mono; [apply (on_current_ok b b k um _ _ _ (λ _ _, True)); try done|].
  - intros t Ht Hc. pose proof (fd_wf_close (fd_table t) fd (tk_fds _ _ Ht)) as Hwf. pose proof (tk_next _ _ Ht).
    destruct (fd_close (fd_table t) fd) as [c fds] eqn:Ec. wp_step. exists um.
    assert (task_ok b (with_fds t fds)); [|facts]. unfold fd_close in Ec. cbn [snd] in Hwf. destruct (fd <? 3).
    { injection Ec as _ <-. eapply task_ok_fds; try done. by apply Ht. }
    destruct (descriptors (fd_table t) !! fd); injection Ec as _ <-; (eapply task_ok_fds; [done|done|done|]); [|by apply Ht].
    cbn [descriptors]. intros fd' n o [_ Hx]%lookup_delete_Some. by eapply tk_files.
  - intros [ok k'] (um' & Hs & _). wp_step. by exists um'.
Qed.

(** *** Memory *)

(** [n] pages were added from the page of [start] on: those without an entry are
    zeroed pages now, the others are as before. *)
Definition in_pages (start n p : Z) : bool := (page_of start <=? p) && (p <? page_of start + n * 4096).

Lemma in_pages_0 start p : in_pages start 0 p = false.
Proof. unfold in_pages. destruct (Z.leb_spec (page_of start) p), (Z.ltb_spec p (page_of start + 0 * 4096)); done || lia. Qed.

Lemma in_pages_next start i p : 0 ≤ i → is_page p → in_pages start (i + 1) p = in_pages start i p || (p =? page_of start + i * 4096).
Proof.
  intros Hi [_ Hp0]. unfold in_pages. destruct (Z.eqb_spec p (page_of start + i * 4096)) as [->|].
  - rewrite (proj2 (Z.leb_le _ _)), (proj2 (Z.ltb_lt _ _)) by lia. by rewrite orb_true_r.
  - rewrite orb_false_r. f_equal. unfold page_of in *.
    destruct (Z.ltb_spec p (start - start mod 4096 + (i + 1) * 4096)), (Z.ltb_spec p (start - start mod 4096 + i * 4096)); zlia.
Qed.

Record pages_added (pml4 start n : Z) m um m' um' : Prop := {
  pg_space : uspace off m' pml4 um';
  pg_isolated : isolated pml4 m um m' um';
  pg_pages p : is_page p →
    um' !! p = if in_pages start n p && negb (mapped (mem_ram m) pml4 p) then Some zero_frame else um !! p;
  pg_mapped p : is_page p → mapped (mem_ram m') pml4 p = mapped (mem_ram m) pml4 p || in_pages start n p;
}.

Lemma map_pages pml4 m um start n : uspace off m pml4 um → 0 ≤ start → 0 ≤ n → start + n * 4096 ≤ 2 ^ 47 →
  wp (for_range 0 n (map_pages_round (Some off) pml4 start) m) (λ r, match r with
    | Next m' => nfree m ≤ nfree m' + 4 * n ∧ ∃ um', pages_added pml4 start n m um m' um'
    | Done (_, m') => nfree m < 4 * n ∧ ∃ i um', 0 ≤ i < n ∧ pages_added pml4 start i m um m' um'
    end).
Proof.
  intros Hu Hs Hn Hlim.
  eapply wp_mono; [apply (wp_for_range (λ i m', nfree m ≤ nfree m' + 4 * i ∧ ∃ um', pages_added pml4 start i m um m' um')
    (λ '(_, m'), nfree m < 4 * n ∧ ∃ i um', 0 ≤ i < n ∧ pages_added pml4 start i m um m' um'))|].
  - pose proof (in_pages_0 start) as Hz.
    split; [lia|]. exists um. split; [done|apply isolated_refl|intros p _; by rewrite Hz|intros p _; by rewrite Hz, orb_false_r].
  - intros i m1 Hi (Hc1 & um1 & [Hu1 Hi1 Hp1 Hm1]). unfold map_pages_round, umul, uadd. rewrite !checked_ok by lia. cbn [obind].
    rewrite checked_ok by lia. cbn [obind]. rewrite virt_new_ok by (left; lia). cbn [obind]. wp_step.
    eapply wp_mono; [apply (uspace_map off pml4 m1 um1); [done|lia]|]. intros [res m2] (um2 & Hu2 & Hi2 & _ & Hfr & Hfew & Eum & Hm2 & _). wp_step.
    assert (page_of (start + i * 4096) = page_of start + i * 4096) as Ep by (unfold page_of; zlia). rewrite Ep in Eum, Hm2.
    pose proof (in_pages_next start i) as Hin.
    destruct res as [[]|e]; cbn [result_ok andb] in *.
    + split; [lia|]. exists um2. split; [done|by eapply isolated_trans| |].
      * intros p Hp. rewrite Hin by (done || lia). rewrite Eum, (Hm1 (page_of start + i * 4096)).
        2: { rewrite <- Ep. apply page_of_page. lia. }
        assert (in_pages start i (page_of start + i * 4096) = false) as ->
          by (unfold in_pages; rewrite (proj2 (Z.ltb_ge _ _)) by lia; apply andb_false_r).
        rewrite orb_false_r. destruct (Z.eqb_spec p (page_of start + i * 4096)) as [->|Hne].
        -- rewrite orb_true_r. destruct (mapped (mem_ram m) pml4 (page_of start + i * 4096)) eqn:E; cbn [negb andb].
           ++ by rewrite Hp1, E, andb_false_r by done.
           ++ by rewrite lookup_insert_eq.
        -- rewrite orb_false_r. destruct (mapped (mem_ram m) pml4 (page_of start + i * 4096)); cbn [negb]; [|rewrite lookup_insert_ne by congruence]; by apply Hp1.
      * intros p Hp. rewrite Hin, Hm2, Hm1 by (done || lia). by rewrite orb_assoc.
    + specialize (Hfew eq_refl). split; [lia|]. exists i, um1. split; [lia|]. subst um2. split; [done|by eapply isolated_trans|done|].
      intros p Hp. rewrite Hm2, orb_false_r by done. by apply Hm1.
  - intros [m'|[e m']]; [|done]. by rewrite Z.max_r by lia.
Qed.

Lemma pages_added_end b k um start n m um' : kernel_ok b k um → pages_added (k_cr3 k) start n (k_mem k) um m um' →
  safe_end b k um (set_k_mem k m) um'.
Proof. intros Hk []. by apply safe_end_mem. Qed.

(** A request that does not fit leaves everything as it is. *)
Ltac rejected um :=
  wp_step; exists um; repeat (apply conj; [facts|]); right; split; [done|]; split; [done|left]; split; [lia|done].

(** What [mmap] does for a task: the new pages, or an error with some of them. *)
Definition mmap_result (addr len pml4 : Z) m um t (v : Z) t' m' um' : Prop :=
  let start := if addr =? 0 then mmap_base t else addr in
  let n := (len + 4095) / 4096 in
  let fits := 0x1000 ≤ start ∧ start + n * 4096 ≤ USER_LIMIT in
  (v = start ∧ fits ∧ pages_added pml4 start n m um m' um'
     ∧ t' = with_mmap_base t (if addr =? 0 then start + n * 4096 else mmap_base t))
  ∨ (v = neg 12 ∧ t' = t ∧ ((¬ fits ∧ m' = m ∧ um' = um)
     ∨ (fits ∧ nfree m < 4 * n ∧ ∃ i, 0 ≤ i < n ∧ pages_added pml4 start i m um m' um'))).

Lemma mmap_task_ok b k um addr len t : kernel_ok b k um → task_ok b t → pml4_frame t = k_cr3 k →
  0 ≤ addr < 2 ^ 64 → 0 ≤ len → len + 0xFFF < 2 ^ 64 →
  wp (mmap_task (Some off) addr len k t) (λ '(v, t', k'), ∃ um',
    safe_end b k um k' um' ∧ k_tm k' = k_tm k ∧ task_ok b t' ∧ pml4_frame t' = k_cr3 k ∧ mmap_result addr len (k_cr3 k) (k_mem k) um t v t' (k_mem k') um').
Proof.
  intros Hk Ht Hpml Ha Hl Hlen. pose proof (tk_mmap _ _ Ht) as Hbase.
  pose proof (safe_end_refl b b k um ltac:(lia) Hk) as Hrefl. unfold mmap_task, mmap_result, uadd.
  rewrite checked_ok by lia. cbn [obind]. rewrite page_mask by lia.
  assert (page_of (len + 0xFFF) = (len + 4095) / 4096 * 4096) as -> by (unfold page_of; zlia). rewrite Z.div_mul by done.
  assert ((if negb (addr =? 0) then addr else mmap_base t) = (if addr =? 0 then mmap_base t else addr)) as -> by (by destruct (addr =? 0)).
  set (n := (len + 4095) / 4096). set (start := if addr =? 0 then mmap_base t else addr).
  assert (0 ≤ n) as Hn by (unfold n; zlia). assert (0 ≤ start < 2 ^ 64) as Hs by (unfold start, USER_LIMIT in *; destruct (addr =? 0); lia).
  unfold sat_add. destruct (Z.leb_spec 0x1000 start); cbn [andb].
  2: { rejected um. }
  destruct (Z.leb_spec (Z.min (start + n * 4096) (2 ^ 64 - 1)) USER_LIMIT).
  2: { rejected um. }
  assert (start + n * 4096 ≤ USER_LIMIT) as Hlim by (unfold USER_LIMIT in *; lia).
  wp_step. rewrite Hpml. eapply wp_mono; [apply (map_pages (k_cr3 k) (k_mem k) um start n); [apply Hk|unfold USER_LIMIT in *; lia..]|].
  intros [m|[e m]].
  - intros (_ & um' & Hadd). pose proof (pages_added_end _ _ _ _ _ _ _ Hk Hadd) as Hend.
    assert ((if addr =? 0 then checked 64 (mmap_base t + n * 4096) else Ret (mmap_base t))
            = Ret (if addr =? 0 then start + n * 4096 else mmap_base t)) as ->.
    { unfold start in *. destruct (addr =? 0); [|done]. unfold USER_LIMIT in *. by rewrite checked_ok by lia. }
    cbn [obind]. wp_step. exists um'. split; [exact Hend|]. split; [done|]. split; [|split; [done|]].
    + destruct Ht. split; try done. cbn [mmap_base with_mmap_base]. destruct (addr =? 0); [|done]. lia.
    + left. split; [done|]. split; [done|]. split; [exact Hadd|done].
  - intros (Hfew & i & um' & Hi & Hadd). wp_step. exists um'. pose proof (pages_added_end _ _ _ _ _ _ _ Hk Hadd).
    repeat (apply conj; [facts|]). right. split; [done|]. split; [done|right]. split; [done|]. split; [exact Hfew|]. exists i. by split.
Qed.

(** What [brk] does for a task.  Nothing is given back when the break moves down. *)
Definition brk_result (req pml4 : Z) m um t (v : Z) t' m' um' : Prop :=
  let cur := page_of (program_break t + 4095) in
  let n := (page_of (req + 4095) - cur) / 4096 in
  let fits := heap_start t ≤ req < 0x700000000000 ∧ req ≠ 0 in
  (v = req ∧ fits ∧ t' = with_break t req
     ∧ ((n ≤ 0 ∧ m' = m ∧ um' = um) ∨ (0 < n ∧ nfree m ≤ nfree m' + 4 * n ∧ pages_added pml4 cur n m um m' um')))
  ∨ (v = program_break t ∧ t' = t ∧ ((¬ fits ∧ m' = m ∧ um' = um)
     ∨ (fits ∧ nfree m < 4 * n ∧ ∃ i, 0 ≤ i < n ∧ pages_added pml4 cur i m um m' um'))).

Lemma brk_task_ok b k um req t : kernel_ok b k um → task_ok b t → pml4_frame t = k_cr3 k → 0 ≤ req < 2 ^ 64 →
  wp (brk_task (Some off) req k t) (λ '(v, t', k'), ∃ um',
    safe_end b k um k' um' ∧ k_tm k' = k_tm k ∧ task_ok b t' ∧ pml4_frame t' = k_cr3 k ∧ brk_result req (k_cr3 k) (k_mem k) um t v t' (k_mem k') um').
Proof.
  intros Hk Ht Hpml Hr. pose proof (tk_break _ _ Ht) as [Hb1 Hb2]. unfold brk_task, brk_result, uadd, usub.
  pose proof (safe_end_refl b b k um ltac:(lia) Hk) as Hrefl.
  destruct (Z.eqb_spec req 0).
  { rejected um. }
  destruct (Z.ltb_spec req (heap_start t)); cbn [orb].
  { rejected um. }
  destruct (Z.leb_spec 0x700000000000 req).
  { rejected um. }
  rewrite !checked_ok by lia. cbn [obind]. rewrite !page_mask by lia.
  change 0xFFF with 4095. set (cur := page_of (program_break t + 4095)). set (new := page_of (req + 4095)).
  assert (cur mod 4096 = 0 ∧ 0 ≤ cur ≤ 0x700000000000) as [Hc0 Hc] by (unfold cur, page_of; zlia).
  assert (new mod 4096 = 0 ∧ 0 ≤ new ≤ 0x700000000000) as [Hn0 Hn] by (unfold new, page_of; zlia).
  assert (task_ok b (with_break t req)) as Ht' by (destruct Ht; split; try done; cbn [program_break heap_start with_break]; lia).
  destruct (Z.ltb_spec cur new).
  2: { wp_step. exists um. repeat (apply conj; [facts|]). left. split; [done|]. split; [lia|]. split; [done|left]. split; [zlia|done]. }
  rewrite checked_ok by lia. cbn [obind]. wp_step. rewrite Hpml.
  eapply wp_mono; [apply (map_pages (k_cr3 k) (k_mem k) um cur ((new - cur) / 4096)); [apply Hk|zlia..]|].
  intros [m|[e m]].
  - intros (Hfr & um' & Hadd). wp_step. exists um'. pose proof (pages_added_end _ _ _ _ _ _ _ Hk Hadd).
    repeat (apply conj; [facts|]). left. split; [done|]. split; [lia|]. split; [done|right]. split; [zlia|]. split; [exact Hfr|exact Hadd].
  - intros (Hfew & i & um' & Hi & Hadd). wp_step. exists um'. pose proof (pages_added_end _ _ _ _ _ _ _ Hk Hadd).
    repeat (apply conj; [facts|]). right. split; [done|]. split; [done|right]. split; [lia|]. split; [exact Hfew|]. exists i. by split.
Qed.

(** *** The dispatcher *)

Lemma sys_mmap_safe b k um addr len flags : kernel_ok b k um → 0 ≤ addr < 2 ^ 64 → 0 ≤ len → len + 0xFFF < 2 ^ 64 →
  wp (sys_mmap (Some off) k addr len flags) (λ '(_, k'), ∃ um', safe_end b k um k' um').
Proof.
  intros Hk Ha Hl Hlen. pose proof (safe_end_refl b b k um ltac:(lia) Hk) as Hrefl. unfold sys_mmap.
  destruct (_ =? 0); [wp_step; by exists um|]. wp_step.
  eapply wp_mono; [apply (on_current_ok b b k um _ _ _ (λ _ _, True)); try done|].
  - intros t Ht Hc. eapply wp_mono; [by apply (mmap_task_ok b k um)|]. intros [[v t'] k'] (um' & ? & ? & ? & ? & _). exists um'. facts.
  - intros [v k'] (um' & Hs & _). wp_step. by exists um'.
Qed.

Lemma sys_brk_safe b k um req : kernel_ok b k um → 0 ≤ req < 2 ^ 64 →
  wp (sys_brk (Some off) k req) (λ '(_, k'), ∃ um', safe_end b k um k' um').
Proof.
  intros Hk Hr. unfold sys_brk. wp_step.
  eapply wp_mono; [apply (on_current_ok b b k um _ _ _ (λ _ _, True)); try done|].
  - intros t Ht Hc. eapply wp_mono; [by apply (brk_task_ok b k um)|]. intros [[v t'] k'] (um' & ? & ? & ? & ? & _). exists um'. facts.
  - intros [v k'] (um' & Hs & _). wp_step. by exists um'.
Qed.

Definition regs_ok (regs : SyscallRegisters) : Prop :=
  Forall (λ x, 0 ≤ x < 2 ^ 64) [rax regs; rdi regs; rsi regs; rdx regs; r10 regs; r8 regs; r9 regs].

(** Calls other than [execve]; the length of a mapping does not overflow when it is
    rounded up. *)
Definition plain_call (regs : SyscallRegisters) : Prop :=
  regs_ok regs ∧ rax regs ≠ 59 ∧ (rax regs = 9 → rsi regs + 0xFFF < 2 ^ 64).

(** The tasks and their memory are as they were. *)
Lemma safe_end_tm b b' k um tm : b ≤ b' → kernel_ok b k um → task_registry tm = task_registry (k_tm k) →
  current_task tm = current_task (k_tm k) ∨ current_task tm = None → safe_end b' k um (set_k_tm k tm) um.
Proof.
  intros Hb Hk Hr Hc. eapply (kernel_ok_mono b b') in Hk; [|done]. split; [|done|apply isolated_refl].
  destruct Hk. split; try done; cbn; rewrite Hr; [done|]. intros i t Hi. destruct Hc as [Hc|Hc]; [|congruence]. apply ko_current0. congruence.
Qed.

Lemma set_task_state_fields tm i st :
  task_registry (set_task_state (V := node V) tm i st) = task_registry tm ∧ current_task (set_task_state tm i st) = current_task tm.
Proof. unfold set_task_state. by repeat case_bool_decide. Qed.

Lemma wait_for_child_fields (tm : TaskManager (node V)) pid :
  task_registry (wait_for_child tm pid).2 = task_registry tm ∧ current_task (wait_for_child tm pid).2 = current_task tm.
Proof.
  unfold wait_for_child, block_current_task. destruct (task_states tm !! pid); [|done]. case_bool_decide; [|done].
  cbn [snd]. destruct (current_task tm) as [i|] eqn:E; [|done]. rewrite <- E. apply set_task_state_fields.
Qed.

Lemma sys_wait4_safe b k um pid : kernel_ok b k um → wp (Ret (sys_wait4 k pid)) (λ '(_, k'), ∃ um', safe_end b k um k' um').
Proof.
  intros Hk. unfold sys_wait4. destruct (wait_for_child_fields (k_tm k) pid) as [Hr Hc].
  destruct (wait_for_child (k_tm k) pid) as [w tm]. wp_step. exists um. apply (safe_end_tm b b); [done|done|exact Hr|left; exact Hc].
Qed.

Lemma sys_exit_safe b k um : kernel_ok b k um → wp (Ret (sys_exit k)) (λ '(_, k'), ∃ um', safe_end b k um k' um').
Proof.
  intros Hk. wp_step. exists um. unfold exit_current_task. destruct (current_task (k_tm k)) as [i|] eqn:E.
  - apply (safe_end_tm b b); [done|done| |by right]. apply (set_task_state_fields (k_tm k) i Dead).
  - apply (safe_end_tm b b); [done|done|done|by left].
Qed.

Lemma handle_syscall_safe b k um regs : kernel_ok b k um → b + 1 < 2 ^ 64 → plain_call regs →
  wp (handle_syscall_rust (Some off) sel tramp stack k regs) (λ '(_, k'), ∃ um', safe_end (b + 1) k um k' um').
Proof.
  intros Hk Hb (Hregs & Hex & Hmm). unfold regs_ok in Hregs. rewrite !Forall_cons in Hregs. destruct Hregs as (_ & Hdi & Hsi & Hdx & _).
  pose proof (safe_end_refl b (b + 1) k um ltac:(lia) Hk) as Hrefl.
  assert (∀ (o : outcome (sys_end * kernel)), wp o (λ '(_, k'), ∃ um', safe_end b k um k' um') →
    wp o (λ '(_, k'), ∃ um', safe_end (b + 1) k um k' um')) as Hmono.
  { intros o Ho. eapply wp_mono; [exact Ho|]. intros [e k'] (um' & [Hk' Hc Hi]). exists um'. split; try done. eapply kernel_ok_mono; [|done]. lia. }
  assert (wp (Ret (SysReturn (neg 38), k)) (λ '(_, k'), ∃ um', safe_end (b + 1) k um k' um')) as Hdef by (wp_step; by exists um).
  unfold handle_syscall_rust. destruct (rax regs) as [|p|p]; [by apply Hmono, sys_read_safe| |done].
  do 9 (try (destruct p as [p|p|]; try done)).
  all: first [by apply Hmono, sys_write_safe|by apply sys_open_safe|by apply Hmono, sys_close_safe
             |apply Hmono, sys_mmap_safe; [done|done|lia|by apply Hmm]|by apply Hmono, sys_brk_safe
             |by apply Hmono, sys_wait4_safe|by apply Hmono, sys_exit_safe|by wp_step; exists um|wp_step; exists um; by destruct Hrefl as [[] ? ?]].
Qed.

(** Calls in a row, up to one that does not return at once. *)
Fixpoint run_calls k (calls : list SyscallRegisters) : outcome kernel :=
  match calls with
  | [] => Ret k
  | regs :: calls =>
      let* (e, k) := handle_syscall_rust (Some off) sel tramp stack k regs in
      match e with SysReturn _ => run_calls k calls | _ => Ret k end
  end.

(** C4: system calls are safe whatever their arguments.  From a kernel in order,
    every sequence of calls other than [execve], with any registers (the length of
    a mapping must not overflow when it is rounded up), runs without a fault or a
    panic and leaves the kernel in order; and every owned frame that is neither a
    table of the current space nor a page of the current task, that is the kernel's
    memory and that of the other tasks, keeps its contents. *)
Theorem syscalls_isolated b k um calls : kernel_ok b k um → b + Z.of_nat (length calls) < 2 ^ 64 → Forall plain_call calls →
  wp (run_calls k calls) (λ k', ∃ um', kernel_ok (b + Z.of_nat (length calls)) k' um' ∧ k_cr3 k' = k_cr3 k
    ∧ isolated (k_cr3 k) (k_mem k) um (k_mem k') um').
Proof.
  intros Hk Hb Hc. enough (wp (run_calls k calls) (λ k', ∃ um', safe_end (b + Z.of_nat (length calls)) k um k' um')) as Hw.
  { eapply wp_mono; [exact Hw|]. by intros k' (um' & []); exists um'. }
  revert b k um Hk Hb. induction Hc as [|regs calls Hr Hc IH]; intros b k um Hk Hb; cbn [run_calls length].
  { wp_step. exists um. apply (safe_end_refl b); [lia|done]. }
  cbn [length] in Hb. wp_step. eapply wp_mono; [apply (handle_syscall_safe b k um); [done|lia|done]|]. intros [e k1] (um1 & Hs1).
  replace (b + Z.of_nat (S (length calls))) with (b + 1 + Z.of_nat (length calls)) by lia.
  destruct e; [|wp_step; exists um1; destruct Hs1; split; try done; by eapply kernel_ok_mono; [|done]; lia..].
  eapply wp_mono; [apply (IH (b + 1) k1 um1); [apply Hs1|lia]|]. intros k' (um' & Hs'). exists um'. by eapply safe_end_trans.
Qed.

(** ** Reading a file *)

(** [read] on a file: the bytes are in the buffer and the cursor has moved. *)
Lemma sys_read_regular b k um i t fd ptr len n o : kernel_ok b k um → current_task (k_tm k) = Some i →
  task_registry (k_tm k) !! i = Some t → get_fd (fd_table t) fd = Some (RegularFile n o) →
  0 ≤ ptr < 2 ^ 64 → 0 ≤ len < 2 ^ 64 → valid_range um ptr len →
  wp (sys_read (Some off) k fd ptr len) (λ '(e, k'), ∃ l t', node_read n o len = Ret l ∧ Z.of_nat (length l) ≤ len
    ∧ e = SysReturn (Z.of_nat (length l))
    ∧ kernel_ok b k' (uwrite um ptr l) ∧ current_task (k_tm k') = Some i ∧ task_registry (k_tm k') !! i = Some t'
    ∧ get_fd (fd_table t') fd = Some (RegularFile n (o + Z.of_nat (length l)))).
Proof.
  intros Hk Hi Ht Hg Hp Hlen Hv. unfold sys_read. wp_step. eapply wp_mono; [apply (valid_memory off k um); [apply Hk|done..]|].
  intros v Hv'. assert (v = true) as -> by (by apply Hv'). cbn [negb]. unfold on_current. rewrite Hi, Ht.
  pose proof (ko_tasks _ _ _ Hk i t Ht) as Hok. destruct (tk_files _ _ Hok fd n o Hg) as [Hn Ho]. unfold read_fd. rewrite Hg.
  pose proof (Hn o len Ho Hlen) as Hread. destruct (node_read n o len) as [l|] eqn:El; [|done]. destruct Hread as (Hl & Hby & Hol).
  pose proof (copy_out b k um ptr l Hk (valid_range_user _ _ _ _ Hv Hl) Hby) as Hs. cbn [obind].
  destruct (store_bytes _ _ _ _) as [r|]; [|done]. cbn [obind wp] in *.
  unfold uadd. rewrite checked_ok by lia. destruct (Z.ltb_spec 0 (Z.of_nat (length l))); cbn [obind wp]; exists l.
  - exists (with_fds t (put_fd (fd_table t) fd (RegularFile n (o + Z.of_nat (length l))))).
    do 3 (split; [done|]). split; [|split; [done|split]].
    + eapply se_ok, (safe_end_task b b k um _ _ i); [lia|exact Hs|done| |exact (ko_current _ _ _ Hk i t Hi Ht)].
      eapply task_ok_seek; [done|done|lia].
    + cbn. by rewrite lookup_insert_eq.
    + cbn. unfold put_fd. rewrite Hg. unfold get_fd. cbn [descriptors]. by rewrite lookup_insert_eq.
  - assert (length l = 0%nat) as E0 by lia. rewrite E0, Z.add_0_r. exists t. split; [done|]. split; [lia|]. split; [done|].
    split; [|split; [done|split; [|done]]].
    + eapply se_ok, (safe_end_task b b k um _ _ i); [lia|exact Hs|done|done|exact (ko_current _ _ _ Hk i t Hi Ht)].
    + cbn. by rewrite lookup_insert_eq.
Qed.

(** [open] on a file: a new descriptor with its cursor at the start. *)
Lemma sys_open_regular b k um i t ptr n : kernel_ok b k um → b + 1 < 2 ^ 64 → current_task (k_tm k) = Some i →
  task_registry (k_tm k) !! i = Some t → 0 ≤ ptr < 2 ^ 64 → valid_range um ptr 256 →
  open_vnode (k_vfs k) (default [] (from_utf8 (until_nul (ubytes um ptr 256)))) = Ret (Some n) →
  wp (sys_open (Some off) k ptr) (λ '(e, k'), ∃ t', e = SysReturn (next_fd (fd_table t))
    ∧ kernel_ok (b + 1) k' um ∧ current_task (k_tm k') = Some i ∧ task_registry (k_tm k') !! i = Some t'
    ∧ get_fd (fd_table t') (next_fd (fd_table t)) = Some (RegularFile n 0)).
Proof.
  intros Hk Hb Hi Ht Hp Hv Hopen. unfold sys_open. wp_step. eapply wp_mono; [apply (valid_memory off k um); [apply Hk|done..]|].
  intros v Hv'. assert (v = true) as -> by (by apply Hv'). cbn [negb]. rewrite (user_name_ok b k um ptr 256) by (done || lia). cbn [obind].
  pose proof (ko_files _ _ _ Hk (default [] (from_utf8 (until_nul (ubytes um ptr 256))))) as Hn. rewrite Hopen in *. cbn [obind wp] in *.
  unfold on_current. rewrite Hi, Ht. pose proof (ko_tasks _ _ _ Hk i t Ht) as Hok.
  pose proof (task_ok_insert b t n Hok Hb (Hn n eq_refl)) as Hins. destruct (fd_insert _ _) as [[fd fds]|]; [|done].
  destruct Hins as (-> & Hok' & Hd). cbn [obind wp]. exists (with_fds t fds). split; [|split; [|split; [done|split]]].
  - rewrite (proj2 (Z.ltb_lt _ _)); [done|]. destruct (tk_fds _ _ Hok). lia.
  - eapply se_ok, (safe_end_task b (b + 1) k um k um i); [lia|by apply (safe_end_refl b b)|done|done|exact (ko_current _ _ _ Hk i t Hi Ht)].
  - cbn. by rewrite lookup_insert_eq.
  - cbn. unfold get_fd. rewrite Hd. by rewrite lookup_insert_eq.
Qed.

(** A program that opens a file and reads it in pieces, taking the bytes from its
    buffer after each call. *)
Fixpoint read_chunks k (fd buf : Z) (lens : list Z) : outcome (list Z * kernel) :=
  match lens with
  | [] => Ret ([], k)
  | len :: lens =>
      let* (e, k) := handle_syscall_rust (Some off) sel tramp stack k (mkRegs 0 fd buf len 0 0 0) in
      match e with
      | SysReturn n =>
          l <- load_bytes (mem_ram (k_mem k)) (k_cr3 k) buf (Z.to_nat n);;
          let* (rest, k) := read_chunks k fd buf lens in Ret (l ++ rest, k)
      | _ => Ret ([], k)
      end
  end.

Definition open_and_read k (name buf : Z) (lens : list Z) : outcome (list Z * kernel) :=
  let* (e, k) := handle_syscall_rust (Some off) sel tramp stack k (mkRegs 2 name 0 0 0 0 0) in
  match e with SysReturn fd => read_chunks k fd buf lens | _ => Ret ([], k) end.

Definition total (lens : list Z) : Z := foldr Z.add 0 lens.

Lemma tar_read_take data o len : 0 ≤ o → 0 ≤ len → tar_read data o len = take (Z.to_nat len) (drop (Z.to_nat o) data).
Proof.
  intros Ho Hl. unfold tar_read. destruct (Z.leb_spec (Z.of_nat (length data)) o).
  - rewrite drop_ge by lia. by rewrite take_nil.
  - unfold sub. destruct (Z.leb_spec len (Z.of_nat (length data) - o)).
    + by rewrite Z.min_l by lia.
    + rewrite Z.min_r by lia. rewrite !take_ge; rewrite ?length_drop; [done|lia..].
Qed.

Lemma read_chunks_ok b i fd buf data lens : 0 ≤ buf < 2 ^ 64 → ∀ k um t o,
  kernel_ok b k um → current_task (k_tm k) = Some i → task_registry (k_tm k) !! i = Some t →
  get_fd (fd_table t) fd = Some (RegularFile (TarVNode data) o) →
  Forall (λ len, 0 ≤ len < 2 ^ 64 ∧ valid_range um buf len) lens →
  wp (read_chunks k fd buf lens) (λ '(l, _), l = take (Z.to_nat (total lens)) (drop (Z.to_nat o) data)).
Proof.
  intros Hbuf. induction lens as [|len lens IH]; intros k um t o Hk Hi Ht Hg Hl; cbn [read_chunks total foldr]; [done|].
  apply Forall_cons in Hl as [[Hlen Hv] Hl]. fold (total lens). assert (0 ≤ total lens) as Htot.
  { clear -Hl. unfold total. induction Hl as [|x l [? _] _ IH]; cbn [foldr]; lia. }
  destruct (tk_files _ _ (ko_tasks _ _ _ Hk i t Ht) fd _ o Hg) as [_ Ho].
  change (handle_syscall_rust (Some off) sel tramp stack k (mkRegs 0 fd buf len 0 0 0)) with (sys_read (Some off) k fd buf len). wp_step. eapply wp_mono; [by apply (sys_read_regular b k um i t fd buf len (TarVNode data) o)|].
  intros [e k'] (l & t' & Hr & Hll & -> & Hk' & Hi' & Ht' & Hg'). injection Hr as Hr. rewrite tar_read_take in Hr by lia.
  rewrite Nat2Z.id. pose proof (valid_range_user _ _ _ _ Hv Hll) as Hur.
  rewrite (uspace_loads off (k_cr3 k') (k_mem k') (uwrite um buf l)); [|apply Hk'|intros j Hj; rewrite uwrite_dom; by apply Hur].
  rewrite ubytes_uwrite; [|eapply uspace_full, Hk|done]. cbn [obind]. wp_step.
  eapply wp_mono; [eapply IH; [exact Hk'|done|done|exact Hg'|]|].
  { eapply Forall_impl; [exact Hl|]. intros x [? ?]. split; [done|]. eapply valid_range_same; [|done]. intros p. apply uwrite_dom. }
  intros [rest k2] ->. wp_step. subst l. rewrite (Z2Nat.inj_add len) by lia. rewrite <- take_take_drop. f_equal.
  rewrite drop_drop, length_take, length_drop. destruct (decide (Z.to_nat len ≤ length data - Z.to_nat o)%nat).
  - do 2 f_equal. lia.
  - rewrite !drop_ge by lia. done.
Qed.

(** C16: reading a file through system calls.  When the path at [name] in the task's
    memory resolves to a file of the boot archive, [open] and a sequence of [read]s
    into the task's buffer deliver, piece by piece, the bytes of the file from its
    start, as many as were asked for or as it has. *)
Theorem open_and_read_file b k um i t name buf lens data : kernel_ok b k um → b + 1 < 2 ^ 64 →
  current_task (k_tm k) = Some i → task_registry (k_tm k) !! i = Some t →
  0 ≤ name < 2 ^ 64 → valid_range um name 256 →
  open_vnode (k_vfs k) (default [] (from_utf8 (until_nul (ubytes um name 256)))) = Ret (Some (TarVNode data)) →
  0 ≤ buf < 2 ^ 64 → Forall (λ len, 0 ≤ len < 2 ^ 64 ∧ valid_range um buf len) lens →
  wp (open_and_read k name buf lens) (λ '(l, _), l = take (Z.to_nat (total lens)) data).
Proof.
  intros Hk Hb Hi Ht Hn Hv Ho Hbuf Hl. unfold open_and_read.
  change (handle_syscall_rust (Some off) sel tramp stack k (mkRegs 2 name 0 0 0 0 0)) with (sys_open (Some off) k name). wp_step.
  eapply wp_mono; [by apply (sys_open_regular b k um i t name (TarVNode data))|].
  intros [e k'] (t' & -> & Hk' & Hi' & Ht' & Hg'). eapply wp_mono; [by eapply (read_chunks_ok (b + 1) i)|]. by intros [l k2] ->.
Qed.

(** ** Growing a task *)

(** A call that works on the current task. *)
Lemma on_current_at {A} k i t (a0 a1 : A) f : current_task (k_tm k) = Some i → task_registry (k_tm k) !! i = Some t →
  on_current k a0 a1 f = (let* (a, t, k) := f k t in
    Ret (a, set_k_tm k (set_registry (k_tm k) (<[i := t]> (task_registry (k_tm k)))))).
Proof. intros Hi Ht. unfold on_current. by rewrite Hi, Ht. Qed.

(** The task's memory after pages were added: what it had is as before, and the
    pages that had no entry hold zeros. *)
Record memory_grown (pml4 start n : Z) m um um' : Prop := {
  mg_kept a x : ubyte um a = Some x → ubyte um' a = Some x;
  mg_zero a : page_of start ≤ a < page_of start + n * 4096 → 0 ≤ a < 2 ^ 47 →
    mapped (mem_ram m) pml4 (page_of a) = false → ubyte um' a = Some 0;
  mg_only p : is_page p → in_pages start n p = false → um' !! p = um !! p;
}.

Lemma memory_grown_refl pml4 start m um : memory_grown pml4 start 0 m um um.
Proof. split; [done| |done]. intros a Ha. lia. Qed.

Lemma pages_added_memory pml4 start n m um m' um' : uspace off m pml4 um → pages_added pml4 start n m um m' um' →
  memory_grown pml4 start n m um um'.
Proof.
  intros Hu [_ _ Hp _]. split.
  - intros a x. unfold ubyte. destruct (um !! page_of a) as [b|] eqn:E; [|done].
    destruct (uspace_page _ _ _ _ _ _ Hu E) as [f Hf]. rewrite (Hp (page_of a) (pa_page _ _ _ _ _ _ Hf)).
    assert (mapped (mem_ram m) pml4 (page_of a) = true) as ->.
    { unfold mapped. rewrite (pa_slot _ _ _ _ _ _ Hf). rewrite (proj2 (Z.eqb_neq _ _)); [done|apply entry_present]. }
    by rewrite andb_false_r, E.
  - intros a Ha Hr Hn. unfold ubyte. rewrite Hp, Hn by (by apply page_of_page). unfold in_pages.
    rewrite (proj2 (Z.leb_le _ _)), (proj2 (Z.ltb_lt _ _)) by (unfold page_of in *; zlia). cbn [andb negb mbind option_bind].
    unfold zero_frame. apply lookup_replicate_2. zlia.
  - intros p Hpage Hout. rewrite Hp by done. by rewrite Hout.
Qed.

(** [mmap] of a length that can be rounded up. *)
Lemma sys_mmap_small b k um i t addr len flags : kernel_ok b k um → current_task (k_tm k) = Some i →
  task_registry (k_tm k) !! i = Some t → 0 ≤ addr < 2 ^ 64 → 0 ≤ len → len + 0xFFF < 2 ^ 64 → Z.land flags 0x20 ≠ 0 →
  let start := if addr =? 0 then mmap_base t else addr in
  let n := (len + 4095) / 4096 in
  wp (sys_mmap (Some off) k addr len flags) (λ '(e, k'), ∃ v um' t', e = SysReturn v ∧ kernel_ok b k' um'
    ∧ task_registry (k_tm k') = <[i := t']> (task_registry (k_tm k))
    ∧ ((v = start ∧ 0x1000 ≤ start ∧ start + n * 4096 ≤ USER_LIMIT
        ∧ memory_grown (k_cr3 k) start n (k_mem k) um um'
        ∧ t' = with_mmap_base t (if addr =? 0 then start + n * 4096 else mmap_base t))
       ∨ (v = neg 12 ∧ t' = t ∧ (¬ (0x1000 ≤ start ∧ start + n * 4096 ≤ USER_LIMIT) ∨ nfree (k_mem k) < 4 * n)
          ∧ ∃ j, 0 ≤ j < Z.max 1 n ∧ memory_grown (k_cr3 k) start j (k_mem k) um um'))).
Proof.
  intros Hk Hi Ht Ha Hl Hlen Hf start n. pose proof (ko_tasks _ _ _ Hk i t Ht) as Hok.
  pose proof (ko_current _ _ _ Hk i t Hi Ht) as Hcr. pose proof (ko_space _ _ _ Hk) as Hu. unfold sys_mmap.
  rewrite (proj2 (Z.eqb_neq _ _)) by done. rewrite (on_current_at k i t) by done.
  pose proof (mmap_task_ok b k um addr len t Hk Hok Hcr Ha Hl Hlen) as Hw. destruct (mmap_task _ _ _ _ _) as [[[v t'] k']|]; [|done].
  destruct Hw as (um' & Hs & Etm & Hok' & Hp & Hres). cbn [obind wp]. exists v, um', t'. split; [done|]. split; [|split].
  - eapply se_ok, (safe_end_task b b k um _ _ i); [lia|exact Hs|by rewrite Etm|done|done].
  - cbn. by rewrite Etm.
  - destruct Hres as [(-> & [Hlo Hhi] & Hadd & ->)|(-> & -> & [(Hbad & _ & ->)|(_ & Hfew & j & Hj & Hadd)])].
    + left. split; [done|]. split; [done|]. split; [done|]. split; [by eapply pages_added_memory|done].
    + right. split; [done|]. split; [done|]. split; [by left|]. exists 0. split; [lia|apply memory_grown_refl].
    + right. split; [done|]. split; [done|]. split; [by right|]. exists j. split; [lia|]. by eapply pages_added_memory.
Qed.

(** A length that cannot be rounded up: a panic, or the same as a length of zero. *)
Lemma mmap_task_wraps k addr len t : 2 ^ 64 ≤ len + 0xFFF → len < 2 ^ 64 →
  mmap_task (Some off) addr len k t = if overflow_checks then Stop Panic else mmap_task (Some off) addr 0 k t.
Proof.
  intros Hlo Hhi. unfold mmap_task at 1, uadd at 1, checked.
  assert (fits 64 (len + 0xFFF) = false) as -> by (unfold fits; rewrite (proj2 (Z.ltb_ge _ _)) by lia; apply andb_false_r).
  destruct overflow_checks eqn:E; [done|]. cbn [obind].
  assert (Z.land (wrap 64 (len + 0xFFF)) (unot 64 0xFFF) = Z.land 0xFFF (unot 64 0xFFF)) as ->.
  { unfold wrap. rewrite page_mask by (apply Z.mod_pos_bound; lia). change (Z.land 0xFFF (unot 64 0xFFF)) with 0. unfold page_of. zlia. }
  unfold mmap_task, uadd. rewrite (checked_ok 64 (0 + 0xFFF)) by lia. done.
Qed.

(** C39: [mmap] of anonymous memory, for any address and length.  It returns the address
    asked for (or the task's next free address), when the range lies in the lower half
    above the first page, and then every page of the range that had no entry is a page of
    zeros of the task.  It returns [-ENOMEM] only if the range does not fit or fewer
    frames are free than four per page.  The bytes the task had are as before and no page
    outside the range is added.  The number of pages is computed modulo 2^64: a length
    within 4095 of it is taken for zero pages, or panics in a build with overflow
    checks. *)
Theorem sys_mmap_maps b k um i t addr len flags : kernel_ok b k um → current_task (k_tm k) = Some i →
  task_registry (k_tm k) !! i = Some t → 0 ≤ addr < 2 ^ 64 → 0 ≤ len < 2 ^ 64 → Z.land flags 0x20 ≠ 0 →
  let start := if addr =? 0 then mmap_base t else addr in
  let n := wrap 64 (len + 4095) / 4096 in
  panics_or (overflow_checks = true ∧ 2 ^ 64 ≤ len + 0xFFF) (sys_mmap (Some off) k addr len flags) (λ '(e, k'), ∃ v um' t', e = SysReturn v ∧ kernel_ok b k' um'
    ∧ task_registry (k_tm k') = <[i := t']> (task_registry (k_tm k))
    ∧ ((v = start ∧ 0x1000 ≤ start ∧ start + n * 4096 ≤ USER_LIMIT
        ∧ memory_grown (k_cr3 k) start n (k_mem k) um um'
        ∧ t' = with_mmap_base t (if addr =? 0 then start + n * 4096 else mmap_base t))
       ∨ (v = neg 12 ∧ t' = t ∧ (¬ (0x1000 ≤ start ∧ start + n * 4096 ≤ USER_LIMIT) ∨ nfree (k_mem k) < 4 * n)
          ∧ ∃ j, 0 ≤ j < Z.max 1 n ∧ memory_grown (k_cr3 k) start j (k_mem k) um um'))).
Proof.
  intros Hk Hi Ht Ha Hl Hf start n. destruct (decide (len + 0xFFF < 2 ^ 64)) as [Hs|Hs].
  - assert (n = (len + 4095) / 4096) as -> by (unfold n, wrap; rewrite Z.mod_small by lia; done).
    pose proof (sys_mmap_small b k um i t addr len flags Hk Hi Ht Ha ltac:(lia) Hs Hf) as Hw.
    destruct (sys_mmap _ k addr len flags) as [[e k']|]; [exact Hw|done].
  - assert (n = 0) as -> by (unfold n, wrap; zlia).
    pose proof (sys_mmap_small b k um i t addr 0 flags Hk Hi Ht Ha ltac:(lia) ltac:(lia) Hf) as Hw. revert Hw. unfold sys_mmap.
    rewrite (proj2 (Z.eqb_neq _ _)) by done. rewrite !(on_current_at k i t) by done. rewrite (mmap_task_wraps k addr len t) by lia.
    destruct overflow_checks; [intros _; cbn [obind panics_or]; split; [done|split; [done|lia]]|]. change ((0 + 4095) / 4096) with 0.
    destruct (mmap_task _ addr 0 k t) as [[[v t'] k']|]; [|done]. intros Hw. exact Hw.
Qed.

(** [brk].  A request of zero, below the heap or beyond its limit returns the
    current break and changes nothing.  Otherwise the break moves to the request and
    the pages up to it that had no entry are pages of zeros of the task; or, when
    fewer frames are free than four per page, it stays where it was and is returned.  The bytes the task had
    are as before, and moving the break down gives no page back. *)
Theorem sys_brk_grows b k um i t req : kernel_ok b k um → current_task (k_tm k) = Some i →
  task_registry (k_tm k) !! i = Some t → 0 ≤ req < 2 ^ 64 →
  let cur := page_of (program_break t + 4095) in
  let n := Z.max 0 ((page_of (req + 4095) - cur) / 4096) in
  let fits := heap_start t ≤ req < 0x700000000000 ∧ req ≠ 0 in
  wp (sys_brk (Some off) k req) (λ '(e, k'), ∃ v um' t', e = SysReturn v ∧ kernel_ok b k' um'
    ∧ task_registry (k_tm k') = <[i := t']> (task_registry (k_tm k)) ∧ v = program_break t'
    ∧ ((fits ∧ t' = with_break t req ∧ memory_grown (k_cr3 k) cur n (k_mem k) um um')
       ∨ (t' = t ∧ ((¬ fits ∧ um' = um) ∨ (fits ∧ nfree (k_mem k) < 4 * n
            ∧ ∃ j, 0 ≤ j < n ∧ memory_grown (k_cr3 k) cur j (k_mem k) um um'))))).
Proof.
  intros Hk Hi Ht Hr cur n fits. pose proof (ko_tasks _ _ _ Hk i t Ht) as Hok.
  pose proof (ko_current _ _ _ Hk i t Hi Ht) as Hcr. pose proof (ko_space _ _ _ Hk) as Hu. unfold sys_brk.
  rewrite (on_current_at k i t) by done.
  pose proof (brk_task_ok b k um req t Hk Hok Hcr Hr) as Hw. destruct (brk_task _ _ _ _) as [[[v t'] k']|]; [|done].
  destruct Hw as (um' & Hs & Etm & Hok' & Hp & Hres). cbn [obind wp]. exists v, um', t'. split; [done|]. split; [|split].
  - eapply se_ok, (safe_end_task b b k um _ _ i); [lia|exact Hs|by rewrite Etm|done|done].
  - cbn. by rewrite Etm.
  - destruct Hres as [(-> & Hfit & -> & [(Hn & _ & ->)|(Hn & _ & Hadd)])|(-> & -> & [(Hfit & _ & ->)|(Hfit & Hfew & j & Hj & Hadd)])];
      (split; [done|]).
    + left. split; [done|]. split; [done|]. unfold n. rewrite Z.max_l by exact Hn. apply memory_grown_refl.
    + left. split; [done|]. split; [done|]. unfold n. rewrite Z.max_r by (apply Z.lt_le_incl; exact Hn). by eapply pages_added_memory.
    + right. split; [done|]. by left.
    + right. split; [done|]. right. split; [done|]. unfold n, cur. split; [lia|]. exists j. split; [lia|]. by eapply pages_added_memory.
Qed.
End Calls.

(** The rounding of a length can overflow.  For a length within 4095 of
    [u64::MAX], [mmap] panics in a build with overflow checks; without them the
    rounded length wraps to zero, and the call returns an address as if it had
    succeeded although no page was mapped. *)
Theorem sys_mmap_length_overflow `{HV : VirtAddrNew} `{HA : PhysAddrNew} `{HM : Mapper} {V : Type} hhdm (k : kernel (V := V)) i t addr len flags :
  current_task (k_tm k) = Some i → task_registry (k_tm k) !! i = Some t → Z.land flags 0x20 ≠ 0 →
  0x1000 ≤ addr ≤ USER_LIMIT → 2 ^ 64 - 0xFFF ≤ len < 2 ^ 64 →
  @sys_mmap true HV HA HM V hhdm k addr len flags = Stop Panic
  ∧ ∃ k', @sys_mmap false HV HA HM V hhdm k addr len flags = Ret (SysReturn addr, k') ∧ k_mem k' = k_mem k.
Proof.
  intros Hi Ht Hf Ha Hl. unfold sys_mmap. rewrite (proj2 (Z.eqb_neq _ _)) by done. rewrite !(on_current_at k i t) by done.
  unfold mmap_task, uadd, checked. assert (fits 64 (len + 0xFFF) = false) as ->.
  { unfold fits. rewrite (proj2 (Z.ltb_ge _ _)) by lia. apply andb_false_r. }
  split; [done|]. change (@overflow_checks false) with false. cbv iota. cbn [obind].
  assert (Z.land (wrap 64 (len + 0xFFF)) (unot 64 0xFFF) = 0) as ->.
  { unfold wrap. rewrite page_mask by (apply Z.mod_pos_bound; lia). unfold page_of. zlia. }
  rewrite (proj2 (Z.eqb_neq addr 0)) by lia. cbn [negb]. rewrite (proj2 (Z.leb_le _ _)) by lia.
  unfold sat_add. rewrite (proj2 (Z.leb_le _ _)) by (unfold USER_LIMIT in *; lia). cbn [andb].
  change (0 / 4096) with 0. unfold for_range. cbn [Z.sub Z.to_nat for_n obind]. eexists. split; [done|]. done.
Qed.

(** ** The stack of a new program *)

(** The bytes at [p] start an argument. *)
Definition starts_arg (args : list Z) (i : nat) : Prop :=
  (∃ x, args !! i = Some x ∧ x ≠ 0) ∧ (i = 0%nat ∨ args !! Nat.pred i = Some 0).

(** The pointers are those of the arguments, in order. *)
Lemma argv_pointers_elem args : ∀ base fresh p, p ∈ argv_pointers args base fresh ↔
  ∃ i, p = base + Z.of_nat i ∧ (∃ x, args !! i = Some x ∧ x ≠ 0) ∧ ((i = 0%nat ∧ fresh = true) ∨ ((0 < i)%nat ∧ args !! Nat.pred i = Some 0)).
Proof.
  induction args as [|x args IH]; intros base fresh p; cbn [argv_pointers].
  { rewrite elem_of_nil. split; [done|]. intros (i & _ & (y & Hy & _) & _). by rewrite lookup_nil in Hy. }
  assert (∀ f, (∃ i, p = base + 1 + Z.of_nat i ∧ (∃ y, args !! i = Some y ∧ y ≠ 0)
      ∧ ((i = 0%nat ∧ f = true) ∨ ((0 < i)%nat ∧ args !! Nat.pred i = Some 0)))
    ↔ ∃ i, (0 < i)%nat ∧ p = base + Z.of_nat i ∧ (∃ y, (x :: args) !! i = Some y ∧ y ≠ 0)
      ∧ ((i = 1%nat ∧ f = true) ∨ ((1 < i)%nat ∧ (x :: args) !! Nat.pred i = Some 0))) as Hshift.
  { intros f. split.
    - intros (i & -> & Hy & Hi). exists (S i). split; [lia|]. split; [lia|]. split; [done|].
      destruct Hi as [[-> ->]|[Hi Hz]]; [by left|right]. split; [lia|]. by destruct i; [lia|].
    - intros ([|i] & Hi0 & -> & Hy & Hi); [lia|]. exists i. split; [lia|]. split; [done|].
      destruct Hi as [[[= ->] ->]|[Hi Hz]]; [by left|right]. split; [lia|]. by destruct i; [lia|]. }
  destruct (Z.eqb_spec x 0) as [->|Hx].
  - rewrite IH, Hshift. split.
    + intros (i & Hi0 & -> & Hy & Hi). exists i. split; [done|]. split; [done|right]. split; [done|]. by destruct Hi as [[-> _]|[_ ?]].
    + intros ([|i] & -> & Hy & Hi); [destruct Hy as (y & [= <-] & ?); done|]. exists (S i). split; [lia|]. split; [done|]. split; [done|].
      destruct Hi as [[? _]|[_ Hz]]; [done|]. destruct i; [by left|right]. split; [lia|done].
  - assert (∀ i, (0 < i)%nat → (x :: args) !! Nat.pred i = Some 0 → (1 < i)%nat) as Hone
      by (intros [|[|i]] Hi Hz; [lia|by injection Hz|lia]).
    destruct fresh; [rewrite elem_of_cons|]; rewrite IH, Hshift; split.
    + intros [->|(i & Hi0 & -> & Hy & Hi)]; [exists 0%nat; rewrite Z.add_0_r; eauto 8|]. exists i. split; [done|]. split; [done|right].
      destruct Hi as [[_ ?]|[? ?]]; [done|]. by split.
    + intros (i & -> & Hy & [[-> _]|[Hi Hz]]); [left; lia|right]. exists i. split; [done|]. split; [done|]. split; [done|right]. eauto.
    + intros (i & Hi0 & -> & Hy & Hi). exists i. split; [done|]. split; [done|right]. destruct Hi as [[_ ?]|[? ?]]; [done|]. by split.
    + intros (i & -> & Hy & [[_ ?]|[Hi Hz]]); [done|]. exists i. split; [done|]. split; [done|]. split; [done|right]. eauto.
Qed.

Lemma argv_pointers_sorted args : ∀ base fresh, StronglySorted Z.lt (argv_pointers args base fresh).
Proof.
  assert (∀ base fresh p, p ∈ argv_pointers args base fresh → base ≤ p) as Hge.
  { intros base fresh p (i & -> & _)%argv_pointers_elem. lia. }
  induction args as [|x args IH]; intros base fresh; cbn [argv_pointers]; [constructor|].
  assert (∀ base fresh, StronglySorted Z.lt (argv_pointers args base fresh)) as IH'.
  { apply IH. intros b f p (i & -> & _)%argv_pointers_elem. lia. }
  destruct (x =? 0); [apply IH'|]. destruct fresh; [|apply IH']. constructor; [apply IH'|].
  apply Forall_forall. intros p (i & -> & _)%argv_pointers_elem. lia.
Qed.

Section Stack.
Context `{HP : Profile} `{HE : EntrySpec} `{HV : VirtAddrSpec} `{HA : PhysAddrSpec} (off : Z) (pml4 : Z).

(** The words at [a]. *)
Definition words_at um (a : Z) (ws : list Z) : Prop :=
  ∀ i v, ws !! i = Some v → ubytes um (a + 8 * Z.of_nat i) 8 = le_bytes 8 v.

Lemma ubytes_ext um um' n : ∀ a, (∀ i, a ≤ i < a + Z.of_nat n → ubyte um' i = ubyte um i) → ubytes um' a n = ubytes um a n.
Proof.
  induction n as [|n IH]; intros a Hb; cbn [ubytes]; [done|]. rewrite Hb by lia. f_equal. apply IH. intros i Hi. apply Hb. lia.
Qed.

(** Words were pushed from [top] down to [sp]. *)
Record pushed m um (top sp : Z) (ws : list Z) (r : ram) um' : Prop := {
  pu_space : uspace off (set_ram m r) pml4 um';
  pu_isolated : isolated pml4 m um (set_ram m r) um';
  pu_sp : sp = top - 8 * Z.of_nat (length ws);
  pu_words : words_at um' sp ws;
  pu_others a : a < sp ∨ top ≤ a → ubyte um' a = ubyte um a;
  pu_pages p : is_Some (um' !! p) ↔ is_Some (um !! p);
}.

Lemma push_user_ok m um top sp ws r um1 v lo : pushed m um top sp ws r um1 → 0 ≤ lo ≤ sp - 8 → top < 2 ^ 64 → user_range um lo (top - lo) →
  wp (push_user pml4 (sp, r) v) (λ '(sp', r'), ∃ um', pushed m um top sp' (v :: ws) r' um').
Proof.
  intros [Hu Hi Hsp Hw Ho Hp] Hlo Htop Hr. unfold push_user, usub. rewrite checked_ok by lia. cbn [obind].
  destruct (uspace_stores off pml4 (le_bytes 8 v) (le_bytes_range 8 v) (set_ram m r) um1 (sp - 8) Hu) as (r' & E & Hu' & Hi' & _).
  { rewrite length_le_bytes. intros i Hi'. apply Hp, Hr. lia. }
  cbn [set_ram mem_ram] in E. rewrite E. wp_step. exists (uwrite um1 (sp - 8) (le_bytes 8 v)).
  assert (user_range um1 (sp - 8) (Z.of_nat (length (le_bytes 8 v)))) as Hur by (rewrite length_le_bytes; intros i Hi2; apply Hp, Hr; lia).
  pose proof (uspace_full _ _ _ _ Hu) as Hfull.
  assert (∀ a, a < sp - 8 ∨ sp ≤ a → ubyte (uwrite um1 (sp - 8) (le_bytes 8 v)) a = ubyte um1 a) as Hout.
  { intros a Ha. rewrite ubyte_uwrite by done. rewrite length_le_bytes.
    destruct (Z.leb_spec (sp - 8) a), (Z.ltb_spec a (sp - 8 + Z.of_nat 8)); cbn [andb]; done || lia. }
  split; [done|by eapply isolated_trans|cbn [length]; lia| |intros a Ha; rewrite Hout by lia; apply Ho; lia|intros p; by rewrite uwrite_dom].
  intros [|i] x Hx; cbn [lookup list_lookup] in Hx.
  - injection Hx as <-. rewrite Z.mul_0_r, Z.add_0_r. pose proof (ubytes_uwrite _ _ _ Hfull Hur) as E8. by rewrite length_le_bytes in E8.
  - rewrite <- (Hw i x Hx). replace (sp - 8 + 8 * Z.of_nat (S i)) with (sp + 8 * Z.of_nat i) by lia. apply ubytes_ext.
    intros a Ha. apply Hout. lia.
Qed.

Lemma push_users_ok m um top lo l : 0 ≤ lo → top < 2 ^ 64 → user_range um lo (top - lo) → ∀ sp ws r um1,
  pushed m um top sp ws r um1 → lo + 8 * Z.of_nat (length l) ≤ sp →
  wp (mfold (push_user pml4) (sp, r) l) (λ '(sp', r'), ∃ um', pushed m um top sp' (rev l ++ ws) r' um').
Proof.
  intros Hlo Htop Hr. induction l as [|x l IH]; intros sp ws r um1 Hp Hsp; cbn [mfold rev length app] in *.
  { wp_step. by exists um1. }
  wp_step. eapply wp_mono; [by eapply (push_user_ok _ _ top sp _ _ _ x lo); [done|lia|..]|]. intros [sp' r'] (um' & Hp').
  rewrite <- app_assoc. eapply IH; [exact Hp'|]. destruct Hp, Hp'. cbn [length] in *. lia.
Qed.

(** Where the strings and the stack pointer of a new program are. *)
Definition strings_at (top : Z) (args : list Z) : Z := top - Z.of_nat (length args).
Definition argv_of (top : Z) (args : list Z) : list Z := argv_pointers args (strings_at top args) true.
Definition stack_at (top : Z) (args : list Z) : Z :=
  strings_at top args - strings_at top args mod 16 - 8 * (Z.of_nat (length (argv_of top args)) + 3).

Lemma build_stack_ok m um top args : uspace off m pml4 um → Forall (λ x, is_byte x) args → 0 ≤ stack_at top args → top < 2 ^ 64 →
  user_range um (stack_at top args) (top - stack_at top args) →
  wp (build_user_stack (mem_ram m) pml4 top args) (λ '(sp, r), ∃ um', sp = stack_at top args
    ∧ uspace off (set_ram m r) pml4 um' ∧ isolated pml4 m um (set_ram m r) um'
    ∧ ubytes um' (strings_at top args) (length args) = args
    ∧ words_at um' sp (Z.of_nat (length (argv_of top args)) :: argv_of top args ++ [0; 0])
    ∧ ∀ a, a < sp ∨ top ≤ a → ubyte um' a = ubyte um a).
Proof.
  intros Hu Hby Hsp Htop Hr. unfold build_user_stack, usub. fold (strings_at top args).
  set (lo := stack_at top args) in *. set (base := strings_at top args) in *. set (argv := argv_of top args).
  assert (lo = base - base mod 16 - 8 * (Z.of_nat (length argv) + 3)) as Elo by done.
  assert (base = top - Z.of_nat (length args)) as Ebase by done.
  assert (argv_pointers args base true = argv) as Eargv by done. clearbody lo base argv. pose proof (Z.mod_pos_bound base 16 ltac:(lia)) as Hmod.
  rewrite checked_ok by lia. cbn [obind]. rewrite Eargv.
  destruct (uspace_stores off pml4 args Hby m um base Hu) as (r0 & -> & Hu0 & Hi0 & _).
  { intros i Hi. apply Hr. lia. }
  cbn [obind]. set (um0 := uwrite um base args) in *.
  assert (Z.land base (unot 64 0xF) = base - base mod 16) as ->.
  { change 0xF with (Z.ones 4). rewrite land_unot_ones by lia. change (2 ^ 4) with 16. zlia. }
  set (sp0 := base - base mod 16) in *.
  assert (user_range um0 lo (sp0 - lo)) as Hr0 by (intros i Hi; unfold um0; rewrite uwrite_dom; apply Hr; zlia).
  assert (pushed (set_ram m r0) um0 sp0 sp0 [] r0 um0) as Hp0.
  { split; [done|apply isolated_refl|cbn [length]; lia|intros i v Hv; by rewrite lookup_nil in Hv|done|done]. }
  wp_step. eapply wp_mono; [apply (push_user_ok _ um0 sp0 sp0 [] r0 um0 0 lo Hp0); lia || done|]. intros [sp1 r1] (um1 & Hp1).
  pose proof (pu_sp _ _ _ _ _ _ _ Hp1) as E1. cbn [length] in E1.
  wp_step. eapply wp_mono; [apply (push_user_ok _ um0 sp0 sp1 [0] r1 um1 0 lo Hp1); lia || done|]. intros [sp2 r2] (um2 & Hp2).
  pose proof (pu_sp _ _ _ _ _ _ _ Hp2) as E2. cbn [length] in E2.
  wp_step. eapply wp_mono; [apply (push_users_ok _ um0 sp0 lo (rev argv) ltac:(lia) ltac:(zlia) Hr0 sp2 [0; 0] r2 um2 Hp2); rewrite length_rev; lia|].
  intros [sp3 r3] (um3 & Hp3). rewrite rev_involutive in Hp3. pose proof (pu_sp _ _ _ _ _ _ _ Hp3) as E3. rewrite length_app in E3. cbn [length] in E3.
  eapply wp_mono; [apply (push_user_ok _ um0 sp0 sp3 _ r3 um3 _ lo Hp3); lia || zlia || done|]. intros [sp4 r4] (um4 & [Hu4 Hi4 Esp Hw4 Ho4 _]).
  cbn [length] in Esp. rewrite length_app in Esp. cbn [length] in Esp. exists um4. split; [lia|]. split; [exact Hu4|].
  pose proof (uspace_full _ _ _ _ Hu) as Hfull.
  assert (user_range um base (Z.of_nat (length args))) as Hur by (intros i Hi; apply Hr; lia).
  split; [by eapply isolated_trans|]. split; [|split; [exact Hw4|]].
  - rewrite <- (ubytes_uwrite args um base Hfull Hur) at 2. apply ubytes_ext. intros i Hi. apply Ho4. zlia.
  - intros a Ha. rewrite Ho4 by zlia. unfold um0. rewrite ubyte_uwrite by done.
    destruct (Z.leb_spec base a), (Z.ltb_spec a (base + Z.of_nat (length args))); cbn [andb]; done || lia.
Qed.

(** The stack of a new program.  When the arguments and their pointers fit the
    mapped stack, [execve] leaves at the stack pointer the number of arguments, then
    a pointer for each in order, then two null words, with the strings above them:
    the pointers are exactly the positions at which an argument starts.  Nothing
    else of the program's memory and nothing of others changes. *)
Theorem build_user_stack_layout m um top args : uspace off m pml4 um → Forall (λ x, is_byte x) args → 0 ≤ stack_at top args →
  top < 2 ^ 64 → user_range um (stack_at top args) (top - stack_at top args) →
  wp (build_user_stack (mem_ram m) pml4 top args) (λ '(sp, r), ∃ um', sp = stack_at top args
    ∧ uspace off (set_ram m r) pml4 um' ∧ isolated pml4 m um (set_ram m r) um'
    ∧ ubytes um' (strings_at top args) (length args) = args
    ∧ words_at um' sp (Z.of_nat (length (argv_of top args)) :: argv_of top args ++ [0; 0])
    ∧ StronglySorted Z.lt (argv_of top args)
    ∧ (∀ p, p ∈ argv_of top args ↔ ∃ i, p = strings_at top args + Z.of_nat i ∧ starts_arg args i)
    ∧ ∀ a, a < sp ∨ top ≤ a → ubyte um' a = ubyte um a).
Proof.
  intros Hu Hby Hsp Htop Hr. eapply wp_mono; [by apply (build_stack_ok m um)|].
  intros [sp r] (um' & Esp & Hu' & Hi & Hs & Hw & Ho). exists um'. split; [done|]. split; [done|]. split; [done|].
  split; [done|]. split; [done|]. split; [apply argv_pointers_sorted|]. split; [|done].
  intros p. unfold argv_of. rewrite argv_pointers_elem. unfold starts_arg. split; intros (i & -> & Hx & Hz); exists i; (split; [done|]); (split; [done|]).
  - destruct Hz as [[-> _]|[_ ?]]; auto.
  - destruct i as [|i]; [by left|right]. destruct Hz as [?|?]; [done|]. split; [lia|done].
Qed.
End Stack.

(** ** A kernel with one task *)

Module SysSample.
(** The task's page at 0x5000 has a file name at 0x5100 and arguments at 0x5200. *)
Definition app : str := [97; 112; 112].
Definition page : list Z := splice 0x200 [97; 0; 98; 99; 0] (splice 0x100 app zero_frame).
Definition pages : umem := TaskSample.pages page.
Definition files : vfs unit := mkVfs (Some (archive [gnu_member app ElfSample.img] [])) ∅ {[app := TarVNode ElfSample.img]}.
Definition task : Task (node unit) :=
  mkTask _ 1 None 0 4096 0 0 UserMode 0x200000000 0x200000000 0x400000000000 FdTable_new.
Definition tasks : TaskManager (node unit) := mkTM [] {[1 := task]} {[1 := Running]} (Some 1) 0.
Definition k : kernel := mkKernel tasks (TaskSample.memory page) 4096 ring_init files 2 ∅ [].

Lemma page_space : uspace Sample.off (k_mem k) 4096 pages.
Proof.
  apply TaskSample.sample_uspace; [vm_compute; reflexivity|]. apply Forall_forall. intros x Hx.
  assert (forallb (λ x, (0 <=? x) && (x <? 256)) page = true) as Hb by (vm_compute; reflexivity).
  rewrite forallb_forall in Hb. specialize (Hb x ltac:(by apply list_elem_of_In)). lia.
Qed.

Lemma node_ok_img : @node_ok unit unit_vnode (TarVNode ElfSample.img).
Proof.
  intros o len Ho Hl. cbn [node_read wp]. rewrite tar_read_take by lia. rewrite length_take, length_drop.
  assert (Z.of_nat (length ElfSample.img) = 124) by (vm_compute; reflexivity). split; [lia|]. split; [|lia].
  apply Forall_take, Forall_drop, ElfSample.img_wf.
Qed.

Lemma node_ok_root : @node_ok unit unit_vnode RootDir.
Proof. intros o len Ho Hl. cbn [node_read wp length]. split; [lia|]. split; [constructor|lia]. Qed.

Lemma files_ok path : wp (@open_vnode unit unit_vnode files path) (λ o, ∀ n, o = Some n → @node_ok unit unit_vnode n).
Proof.
  unfold open_vnode, resolve_path. change (default RootDir (get_mount files [SLASH])) with (@RootDir unit).
  assert (∀ parts cur p, @node_ok unit unit_vnode cur → (cur = RootDir ∨ node_is_dir (H0 := unit_vnode) cur = false) →
    wp (@walk unit unit_vnode files cur p parts) (λ o, ∀ n, o = Some n → @node_ok unit unit_vnode n)) as Hw.
  2: { apply Hw; [apply node_ok_root|by left]. }
  induction parts as [|part parts IH]; intros cur p Hc Hd; cbn [walk]; [wp_step; by intros n [= <-]|].
  destruct Hd as [-> | ->]; cbn [negb]; [|wp_step; done]. change (negb (node_is_dir RootDir)) with false. cbv iota.
  change (get_mount files _) with (@None (node unit)). cbn [node_lookup obind files children].
  destruct ({[app := TarVNode ElfSample.img]} !! part) as [n|] eqn:E; [|by wp_step].
  apply lookup_singleton_Some in E as [_ <-]. apply IH; [apply node_ok_img|by right].
Qed.

Lemma task_fine : @task_ok unit unit_vnode 3 task.
Proof.
  split; [apply fd_wf_new|cbn; lia| |cbn; lia|cbn; unfold USER_LIMIT; lia].
  intros fd n o Hd. exfalso. cbn in Hd. repeat (apply lookup_insert_Some in Hd as [[_ Hd]|[_ Hd]]; [done|]). by rewrite lookup_empty in Hd.
Qed.

Lemma kernel_fine : @kernel_ok Sample.off unit unit_vnode 3 k pages.
Proof.
  split; [apply page_space|exists []; split; [apply ring_rel_init|constructor]|apply files_ok| |].
  - intros i t Ht. apply (lookup_singleton_Some 1 i task t) in Ht as [_ <-]. apply task_fine.
  - intros i t _ Ht. apply (lookup_singleton_Some 1 i task t) in Ht as [_ <-]. reflexivity.
Qed.

Lemma page_range a n : 0x5000 ≤ a → a + n ≤ 0x6000 → user_range pages a n.
Proof.
  intros Ha Hn i Hi. assert (page_of i = 0x5000) as -> by (unfold page_of; zlia). exists page. apply lookup_singleton_eq.
Qed.

Lemma page_valid a n : 0x5000 ≤ a → a + n ≤ 0x6000 → valid_range pages a n.
Proof. intros Ha Hn. split; [lia|right]. split; [unfold USER_LIMIT; lia|by apply page_range]. Qed.
End SysSample.

(** ** Witnesses *)

Lemma is_valid_user_memory_exact_witness :
  ∃ v, @is_valid_user_memory true checked_virt_new x86_entries unit (Some Sample.off) SysSample.k 0x5100 256 = Ret v
    ∧ (v = true ↔ valid_range SysSample.pages 0x5100 256).
Proof.
  apply (@is_valid_user_memory_exact true x86_entries x86_entries_spec checked_virt_new checked_virt_new_spec Sample.off unit
    SysSample.k SysSample.pages 0x5100 256); [exact SysSample.page_space|lia|lia].
Defined.

(** A write to the console, a mapping, an unknown call. *)
Definition sample_calls : list SyscallRegisters :=
  [mkRegs 1 1 0x5100 3 0 0 0; mkRegs 9 0 8192 3 0x22 0 0; mkRegs 7777 0 0 0 0 0 0].

Lemma syscalls_isolated_witness :
  wp (@run_calls true x86_entries checked_virt_new masked_phys_new Sample.off table_mapper unit unit_vnode Task.sample_selectors 0x5000 None
        SysSample.k sample_calls)
     (λ k', ∃ um', @kernel_ok Sample.off unit unit_vnode 6 k' um').
Proof.
  eapply wp_mono; [apply (@syscalls_isolated true x86_entries x86_entries_spec checked_virt_new checked_virt_new_spec masked_phys_new
    masked_phys_new_spec Sample.off table_mapper sample_mapper unit unit_vnode Task.sample_selectors 0x5000 None
    3 SysSample.k SysSample.pages sample_calls SysSample.kernel_fine)|].
  - cbn. lia.
  - repeat constructor; cbn; lia || discriminate.
  - intros k' (um' & Hk & _). exists um'. exact Hk.
Defined.

Lemma open_and_read_file_witness :
  wp (@open_and_read true x86_entries checked_virt_new masked_phys_new Sample.off table_mapper unit unit_vnode Task.sample_selectors 0x5000 None
        SysSample.k 0x5100 0x5400 [3; 100; 50])
     (λ '(l, _), l = ElfSample.img).
Proof.
  eapply wp_mono; [apply (@open_and_read_file true x86_entries x86_entries_spec checked_virt_new checked_virt_new_spec masked_phys_new
    Sample.off table_mapper unit unit_vnode Task.sample_selectors 0x5000 None
    3 SysSample.k SysSample.pages 1 SysSample.task 0x5100 0x5400 [3; 100; 50] ElfSample.img SysSample.kernel_fine)|].
  - lia.
  - reflexivity.
  - reflexivity.
  - lia.
  - apply SysSample.page_valid; lia.
  - vm_compute. reflexivity.
  - lia.
  - repeat (constructor; [split; [lia|apply SysSample.page_valid; lia]|]). constructor.
  - intros [l k'] ->. vm_compute. reflexivity.
Defined.

Lemma sys_mmap_maps_witness :
  wp (@sys_mmap true checked_virt_new masked_phys_new table_mapper unit (Some Sample.off) SysSample.k 0 8192 0x22)
     (λ '(e, k'), e = SysReturn 0x400000000000).
Proof.
  pose proof (@sys_mmap_maps true checked_virt_new checked_virt_new_spec masked_phys_new
    masked_phys_new_spec Sample.off table_mapper sample_mapper unit unit_vnode
    3 SysSample.k SysSample.pages 1 SysSample.task 0 8192 0x22 SysSample.kernel_fine eq_refl eq_refl
    ltac:(lia) ltac:(lia) ltac:(discriminate)) as H.
  cbv zeta in H. destruct (sys_mmap _ _ _ _ _) as [[e k']|]; [|destruct H as (_ & _ & H); exfalso; lia].
  destruct H as (v & um' & t' & -> & _ & _ & [(-> & _)|(_ & _ & [Hbad|Hfew] & _)]); [reflexivity| |].
  - destruct Hbad. vm_compute. split; discriminate.
  - vm_compute in Hfew. discriminate Hfew.
Defined.

Lemma sys_brk_grows_witness :
  wp (@sys_brk true checked_virt_new masked_phys_new table_mapper unit (Some Sample.off) SysSample.k 0x200001000)
     (λ '(e, k'), e = SysReturn 0x200001000).
Proof.
  eapply wp_mono; [apply (@sys_brk_grows true checked_virt_new checked_virt_new_spec masked_phys_new
    masked_phys_new_spec Sample.off table_mapper sample_mapper unit unit_vnode
    3 SysSample.k SysSample.pages 1 SysSample.task 0x200001000 SysSample.kernel_fine)|].
  - reflexivity.
  - reflexivity.
  - lia.
  - intros [e k'] (v & um' & t' & -> & _ & _ & -> & [(_ & -> & _)|(-> & [[Hbad _]|(_ & Hfew & _)])]); [reflexivity| |].
    + destruct Hbad. vm_compute. intuition discriminate.
    + vm_compute in Hfew. discriminate Hfew.
Defined.

(** Two arguments on the page of the sample. *)
Lemma build_user_stack_layout_witness :
  wp (@build_user_stack true (mem_ram (k_mem SysSample.k)) 4096 0x6000 [97; 0; 98; 99; 0])
     (λ '(sp, r), sp = 0x5FC8 ∧ ∃ um', words_at um' sp [2; 0x5FFB; 0x5FFD; 0; 0]).
Proof.
  eapply wp_mono; [apply (@build_user_stack_layout true Sample.off 4096
    (k_mem SysSample.k) SysSample.pages 0x6000 [97; 0; 98; 99; 0] SysSample.page_space)|].
  - repeat constructor; lia.
  - vm_compute. discriminate.
  - lia.
  - apply SysSample.page_range; vm_compute; discriminate.
  - intros [sp r] (um' & -> & _ & _ & _ & Hw & _). split; [reflexivity|]. exists um'. exact Hw.
Defined.

Lemma sys_mmap_length_overflow_witness :
  @sys_mmap true checked_virt_new masked_phys_new table_mapper unit (Some Sample.off) SysSample.k 0x7000 (2 ^ 64 - 1) 0x22 = Stop Panic.
Proof.
  apply (@sys_mmap_length_overflow checked_virt_new masked_phys_new table_mapper unit (Some Sample.off) SysSample.k 1 SysSample.task);
    [reflexivity|reflexivity|discriminate|unfold USER_LIMIT; lia|lia].
Defined.
