(* ===== verification/SyscallTypes.v ===== *)
(** * The results of the system calls

    What each call may put into RAX: the type of its result.  A byte count is at most
    the length asked for, a descriptor, an address or a break is in its range, and an
    error is one of the numbers the call can fail with.  The dispatcher of Syscall.v
    respects these types on every branch. *)

From S2P Require Import Prelude KError FrameAlloc Fd X86 Task TaskManager Scheduler Paging PageTree PageMapper AddrSpace UserMem UserSpace Keyboard Str Vfs Elf Syscall SyscallFacts.

#[local] Open Scope list_scope.

Section Types.
Context `{HP : Profile} `{HE : EntrySpec} `{HV : VirtAddrSpec} `{HA : PhysAddrSpec} (off : Z) `{HM : Mapper} `{HMS : !MapperSpec off}.
Context {V : Type} `{HN : VNode V}.
Context (sel : Selectors) (tramp : Z) (stack : option Z).
Implicit Types (k : kernel (V := V)) (t : Task (node V)) (e : sys_end).

(** An error result: the number [n], negated. *)
Definition errs (l : list Z) (v : Z) : Prop := ∃ n, n ∈ l ∧ v = neg n.

(** The type of the result of a call; [b] bounds the descriptors handed out so far. *)
Definition result_type (b : Z) (regs : SyscallRegisters) e : Prop :=
  match rax regs, e with
  | 0, SysReturn v => 0 ≤ v ≤ rdx regs ∨ errs [9; 14] v
  | 0, SysWaitKey => 0 < rdx regs
  | 1, SysReturn v => v = 0 ∨ v = rdx regs ∨ errs [9; 14] v
  | 2, SysReturn v => 3 ≤ v ≤ b ∨ errs [2; 14; 24] v
  | 3, SysReturn v => v = 0 ∨ errs [9] v
  | 9, SysReturn v => 0x1000 ≤ v ≤ USER_LIMIT ∨ errs [12; 22] v
  | 12, SysReturn v => 0 ≤ v < 0x700000000000
  | 60, SysHalt | 88, SysPowerOff _ => True
  | 61, SysSchedule v => v = rdi regs
  | 61, SysReturn v => errs [10] v
  | 500, SysReturn v => v = 0
  | (0 | 1 | 2 | 3 | 9 | 12 | 60 | 61 | 88 | 500), _ => False
  | _, SysReturn v => errs [38] v
  | _, _ => False
  end.

Lemma errs_in l n : n ∈ l → errs l (neg n).
Proof. by exists n. Qed.

Ltac err := apply errs_in; rewrite !elem_of_cons; tauto.

Lemma on_current_inv {A} k (a b : A) f r k' : on_current k a b f = Ret (r, k') →
  r = a ∨ r = b ∨ ∃ i t t' k1, task_registry (k_tm k) !! i = Some t ∧ f k t = Ret (r, t', k1).
Proof.
  unfold on_current. destruct (current_task (k_tm k)) as [i|]; [|intros [= <- _]; by left].
  destruct (task_registry (k_tm k) !! i) as [t|] eqn:Et; [|intros [= <- _]; right; by left].
  destruct (f k t) as [[[r1 t1] k1]|] eqn:Ef; [|done]. cbn [obind]. intros [= <- _]. right. right. by exists i, t, t1, k1.
Qed.

Lemma read_typed b k um fd ptr len e k' : kernel_ok off b k um → 0 ≤ len < 2 ^ 64 → sys_read (Some off) k fd ptr len = Ret (e, k') →
  match e with SysReturn v => 0 ≤ v ≤ len ∨ errs [9; 14] v | SysWaitKey => 0 < len | _ => False end.
Proof.
  intros Hk Hlen. unfold sys_read. destruct (is_valid_user_memory _ k ptr len) as [valid|]; [|done]. cbn [obind].
  destruct valid; cbn [negb]; [|intros [= <- _]; right; err].
  destruct (on_current _ _ _ _) as [[kind k1]|] eqn:Ec; [|done]. cbn [obind]. destruct kind as [n| |n].
  - intros [= <- _]. apply on_current_inv in Ec as [[= ->]|[[= ->]|(i & t & t' & k2 & Ht & Hf)]]; [left; lia|left; lia|].
    unfold read_fd in Hf. destruct (get_fd (fd_table t) fd) as [[| | |node o]|] eqn:Eg; try done.
    destruct (tk_files _ _ (ko_tasks _ _ _ _ Hk i t Ht) fd node o ltac:(exact Eg)) as [Hn Ho].
    pose proof (Hn o len Ho Hlen) as Hread. destruct (node_read node o len) as [l|]; [|done]. cbn [obind wp] in *.
    destruct (store_bytes _ _ _ _); [|done]. cbn [obind] in Hf. left. destruct (0 <? Z.of_nat (length l)).
    + destruct (uadd 64 o _); [|done]. injection Hf as <- _ _. lia.
    + injection Hf as <- _ _. lia.
  - destruct (Z.ltb_spec 0 len); [|intros [= <- _]; left; lia]. destruct (pop_key _) as [[o keys]|]; [|done]. cbn [obind].
    destruct o as [c|]; [|by intros [= <- _]]. destruct (store_bytes _ _ _ _); [|done]. cbn [obind]. intros [= <- _]. left. lia.
  - intros [= <- _]. right. apply on_current_inv in Ec as [[=]|[[=]|(i & t & t' & k2 & Ht & Hf)]].
    unfold read_fd in Hf. destruct (get_fd (fd_table t) fd) as [[| | |node o]|]; try (injection Hf as <- _ _; err); try discriminate Hf.
    destruct (node_read node o len); [|done]. cbn [obind] in Hf. destruct (store_bytes _ _ _ _); [|done]. cbn [obind] in Hf.
    destruct (0 <? _); [destruct (uadd 64 o _); [|done]|]; discriminate Hf.
Qed.

Lemma write_typed k fd ptr len e k' : sys_write (Some off) k fd ptr len = Ret (e, k') →
  match e with SysReturn v => v = 0 ∨ v = len ∨ errs [9; 14] v | _ => False end.
Proof.
  unfold sys_write. destruct (is_valid_user_memory _ k ptr len) as [valid|]; [|done]. cbn [obind].
  destruct valid; cbn [negb]; [|intros [= <- _]; right; right; err].
  destruct (on_current _ _ _ _) as [[kind k1]|] eqn:Ec; [|done]. cbn [obind]. intros [= <- _].
  apply on_current_inv in Ec as [-> |[-> |(i & t & t' & k2 & _ & Hf)]]; [by left|right; right; err|].
  unfold write_fd in Hf. destruct (get_fd (fd_table t) fd) as [[| | |node o]|]; try (injection Hf as <- _ _; right; right; err).
  all: destruct (load_bytes _ _ _ _) as [l|]; [|done]; cbn [obind] in Hf; destruct (from_utf8 l); injection Hf as <- _ _; [right; by left|by left].
Qed.

Lemma open_typed b k um ptr e k' : kernel_ok off b k um → sys_open (Some off) k ptr = Ret (e, k') →
  match e with SysReturn v => 3 ≤ v ≤ b ∨ errs [2; 14; 24] v | _ => False end.
Proof.
  intros Hk. unfold sys_open. destruct (is_valid_user_memory _ k ptr 256) as [valid|]; [|done]. cbn [obind].
  destruct valid; cbn [negb]; [|intros [= <- _]; right; err]. destruct (user_name k ptr 256) as [name|]; [|done]. cbn [obind].
  destruct (open_vnode _ name) as [[file|]|]; [|intros [= <- _]; right; err|done]. cbn [obind].
  destruct (on_current _ _ _ _) as [[fd k1]|] eqn:Ec; [|done]. cbn [obind]. intros [= <- _].
  apply on_current_inv in Ec as [-> |[-> |(i & t & t' & k2 & Ht & Hf)]]; [right; err|right; err|].
  unfold fd_insert in Hf. destruct (uadd 64 _ 1); [|done]. cbn [obind] in Hf. injection Hf as <- _ _.
  pose proof (ko_tasks _ _ _ _ Hk i t Ht) as Htk. pose proof (fd_next _ (tk_fds _ _ Htk)). pose proof (tk_next _ _ Htk).
  rewrite (proj2 (Z.ltb_lt 0 _)) by lia. left. lia.
Qed.

Lemma mmap_typed b k um addr len flags e k' : kernel_ok off b k um → 0 ≤ len < 2 ^ 64 → 0 ≤ addr →
  sys_mmap (Some off) k addr len flags = Ret (e, k') →
  match e with SysReturn v => 0x1000 ≤ v ≤ USER_LIMIT ∨ errs [12; 22] v | _ => False end.
Proof.
  intros Hk Hlen Haddr. unfold sys_mmap. destruct (_ =? 0); [intros [= <- _]; right; err|].
  destruct (on_current _ _ _ _) as [[v k1]|] eqn:Ec; [|done]. cbn [obind]. intros [= <- _].
  apply on_current_inv in Ec as [-> |[-> |(i & t & t' & k2 & Ht & Hf)]]; [right; err|right; err|].
  unfold mmap_task in Hf. destruct (uadd 64 len 0xFFF) as [l|]; [|done]. cbn [obind] in Hf. set (size := Z.land l _) in *.
  destruct (_ && _) eqn:Eb; [|injection Hf as <- _ _; right; err]. apply andb_true_iff in Eb as [Hlo%Z.leb_le Hhi%Z.leb_le].
  destruct (for_range _ _ _ _) as [[m|[er m]]|]; [| |done]; cbn [obind] in Hf; [|injection Hf as <- _ _; right; err].
  destruct (if addr =? 0 then _ else _); [|done]. cbn [obind] in Hf. injection Hf as <- _ _. left.
  assert (0 ≤ size) by (apply Z.land_nonneg; right; done). unfold sat_add in Hhi. unfold USER_LIMIT in *. lia.
Qed.

Lemma brk_typed b k um req e k' : kernel_ok off b k um → sys_brk (Some off) k req = Ret (e, k') →
  match e with SysReturn v => 0 ≤ v < 0x700000000000 | _ => False end.
Proof.
  intros Hk. unfold sys_brk. destruct (on_current _ _ _ _) as [[v k1]|] eqn:Ec; [|done]. cbn [obind]. intros [= <- _].
  apply on_current_inv in Ec as [-> |[-> |(i & t & t' & k2 & Ht & Hf)]]; [done|done|].
  pose proof (tk_break _ _ (ko_tasks _ _ _ _ Hk i t Ht)) as Hbk. unfold brk_task in Hf.
  destruct (req =? 0); [injection Hf as <- _ _; lia|]. destruct (_ || _) eqn:Eb; [injection Hf as <- _ _; lia|].
  apply orb_false_iff in Eb as [Hlo%Z.ltb_ge Hhi%Z.leb_gt]. destruct (uadd 64 _ _) as [c|]; [|done]. cbn [obind] in Hf.
  destruct (uadd 64 req _) as [n|]; [|done]. cbn [obind] in Hf. destruct (_ <? _); [|injection Hf as <- _ _; lia].
  destruct (usub 64 _ _) as [d|]; [|done]. cbn [obind] in Hf. destruct (for_range _ _ _ _) as [[m|[er m]]|]; [| |done]; injection Hf as <- _ _; lia.
Qed.

Lemma close_typed k fd e k' : sys_close k fd = Ret (e, k') → match e with SysReturn v => v = 0 ∨ errs [9] v | _ => False end.
Proof.
  unfold sys_close. destruct (on_current _ _ _ _) as [[[] k1]|]; [| |done]; intros [= <- _]; [by left|right; err].
Qed.

Lemma wait4_typed k pid e k' : Ret (sys_wait4 k pid) = Ret (e, k') →
  match e with SysSchedule v => v = pid | SysReturn v => errs [10] v | _ => False end.
Proof. unfold sys_wait4. destruct (wait_for_child _ pid) as [[] tm]; intros [= <- _]; [done|err]. Qed.

(** [mmap] ends, unless the length overflows in a build with overflow checks. *)
Lemma mmap_ends k addr len flags : 2 ^ 64 ≤ len + 0xFFF → len < 2 ^ 64 →
  (∃ x, sys_mmap (Some off) k addr len flags = Ret x) ∨ (sys_mmap (Some off) k addr len flags = Stop Panic ∧ overflow_checks = true)
  ∨ sys_mmap (Some off) k addr len flags = sys_mmap (Some off) k addr 0 flags.
Proof.
  intros Hlo Hhi. unfold sys_mmap, on_current. destruct (_ =? 0); [left; by eexists|].
  destruct (current_task (k_tm k)) as [i|]; [|left; by eexists].
  destruct (task_registry (k_tm k) !! i) as [t|]; [|left; by eexists]. right. rewrite mmap_task_wraps by done.
  destruct overflow_checks; [by left|by right].
Qed.

(** C17: every call returns a value of its type.  Whatever the registers, a call other
    than [execve] ends in one of the ways that belong to its number: [read] and
    [write] with at most the length asked for, [open] with a descriptor that was
    handed out, [mmap] with an address of the user half, [brk] with a break below its
    limit, each of them or with one of its own error numbers; an unknown number gives
    ENOSYS.  The one exception is a panic, in a build with overflow checks, of [mmap] with
    a length within 4095 of 2^64. *)
Theorem syscall_result_typed b k um regs : kernel_ok off b k um → b + 1 < 2 ^ 64 → regs_ok regs → rax regs ≠ 59 →
  panics_or (overflow_checks = true ∧ rax regs = 9 ∧ 2 ^ 64 ≤ rsi regs + 0xFFF)
    (handle_syscall_rust (Some off) sel tramp stack k regs) (λ '(e, _), result_type b regs e).
Proof.
  intros Hk Hb Hregs Hex. assert (0 ≤ rdi regs < 2 ^ 64 ∧ 0 ≤ rsi regs < 2 ^ 64 ∧ 0 ≤ rdx regs < 2 ^ 64) as (Hdi & Hsi & Hdx).
  { unfold regs_ok in Hregs. rewrite !Forall_cons in Hregs. tauto. }
  assert (panics_or (overflow_checks = true ∧ rax regs = 9 ∧ 2 ^ 64 ≤ rsi regs + 0xFFF)
    (handle_syscall_rust (Some off) sel tramp stack k regs) (λ _, True)) as Hw.
  { destruct (decide (rax regs = 9 → rsi regs + 0xFFF < 2 ^ 64)) as [Hs|Hs].
    - pose proof (handle_syscall_safe off sel tramp stack b k um regs Hk Hb (conj Hregs (conj Hex Hs))) as Hw.
      by destruct (handle_syscall_rust _ _ _ _ k regs).
    - assert (rax regs = 9 ∧ 2 ^ 64 ≤ rsi regs + 0xFFF) as [E9 Hov] by (destruct (decide (rax regs = 9)); lia).
      unfold handle_syscall_rust. rewrite E9.
      destruct (mmap_ends k (rdi regs) (rsi regs) (r10 regs) Hov ltac:(lia)) as [[x ->]|[[-> Hc]| ->]]; [done|done|].
      destruct (wp_inv _ _ (sys_mmap_safe off b k um (rdi regs) 0 (r10 regs) Hk ltac:(lia) ltac:(lia) ltac:(lia))) as (x & -> & _). done. }
  destruct (handle_syscall_rust (Some off) sel tramp stack k regs) as [[e k']|] eqn:E; [|exact Hw]. cbn [panics_or]. clear Hw.
  unfold handle_syscall_rust in E. unfold result_type.
  destruct (rax regs) as [|p|p]; [exact (read_typed b k um _ _ _ e k' Hk Hdx E)| |injection E as <- _; err].
  do 9 (try (destruct p as [p|p|]; try (injection E as <- _; err))).
  all: lazymatch type of E with
    | sys_write _ _ _ _ _ = _ => exact (write_typed k _ _ _ e k' E)
    | sys_open _ _ _ = _ => exact (open_typed b k um _ e k' Hk E)
    | sys_close _ _ = _ => exact (close_typed k _ e k' E)
    | sys_mmap _ _ _ _ _ = _ => exact (mmap_typed b k um _ _ _ e k' Hk Hsi (proj1 Hdi) E)
    | sys_brk _ _ _ = _ => exact (brk_typed b k um _ e k' Hk E)
    | Ret (sys_wait4 _ _) = _ => exact (wait4_typed k _ e k' E)
    | sys_execve _ _ _ _ _ _ _ _ = _ => done
    | _ => injection E as <- _; done
    end.
Qed.
End Types.

(** Two pages at an address of the kernel's choice. *)
Lemma syscall_result_typed_witness :
  wp (@handle_syscall_rust true checked_virt_new masked_phys_new x86_entries table_mapper unit unit_vnode (Some Sample.off) Task.sample_selectors 0x5000 None
        SysSample.k (mkRegs 9 0 8192 3 0x22 0 0))
     (λ '(e, _), ∃ v, e = SysReturn v ∧ (0x1000 ≤ v ≤ USER_LIMIT ∨ errs [12; 22] v)).
Proof.
  pose proof (@syscall_result_typed true x86_entries x86_entries_spec checked_virt_new checked_virt_new_spec masked_phys_new
    masked_phys_new_spec Sample.off table_mapper sample_mapper unit unit_vnode Task.sample_selectors 0x5000 None
    3 SysSample.k SysSample.pages (mkRegs 9 0 8192 3 0x22 0 0) SysSample.kernel_fine ltac:(lia)
    ltac:(repeat constructor; cbn; lia) ltac:(discriminate)) as H.
  destruct (handle_syscall_rust _ _ _ _ _ _) as [[[v| | | |] k']|]; [|destruct H..|destruct H as (_ & _ & _ & H); cbn in H; exfalso; lia].
  exists v. split; [reflexivity|exact H].
Defined.
