(* ===== verification/TestMem.v ===== *)
(** * The memory test of user space (src/userspace/test_mem.rs)

    A program of ring 3 that asks for memory with [brk] and [mmap], writes to it,
    reads it back and reports over [write].  It runs on [handle_syscall_rust]; its own
    loads and stores go through the page tables with the checks of the processor.
    The theorem puts the two sides of the system-call interface together: on a sound
    kernel with eight free frames every check of the program succeeds. *)

From S2P Require Import Prelude KError FrameAlloc Fd X86 Task TaskManager Paging PageTree PageMapper AddrSpace UserMem UserSpace Keyboard Str Vfs Elf Syscall SyscallFacts.

#[local] Open Scope list_scope.

(** ** The texts *)

(** A coloured tag and the rest of the line. *)
Definition tagged (colour tag rest : string) : str :=
  (0x1b :: lit colour) ++ lit tag ++ (0x1b :: lit "[0m") ++ lit rest ++ [10].

Definition START : str := tagged "[1;36m" "[TEST 3.1]" " Starting dynamic memory allocation suite...".
Definition BRK_INFO : str := tagged "[1;33m" "[INFO]" " Testing sys_brk (Syscall 12)...".
Definition BRK_ZERO : str := tagged "[1;31m" "[FAIL]" " sys_brk returned 0.".
Definition BRK_REFUSED : str := tagged "[1;31m" "[FAIL]" " sys_brk refused memory expansion.".
Definition BRK_PASS : str := tagged "[1;32m" "[PASS]" " sys_brk successfully mapped physical pages.".
Definition BRK_CORRUPT : str := tagged "[1;31m" "[FAIL]" " sys_brk memory corruption detected.".
Definition MMAP_INFO : str := tagged "[1;33m" "[INFO]" " Testing sys_mmap (Syscall 9)...".
Definition MMAP_REJECTED : str := tagged "[1;31m" "[FAIL]" " sys_mmap rejected the mapping.".
Definition ADDRESS : str := lit "       Address granted by kernel: 0x".
Definition NEWLINE : str := [10].
Definition MMAP_PASS : str := tagged "[1;32m" "[PASS]" " sys_mmap successfully mapped anonymous pages.".
Definition MMAP_CORRUPT : str := tagged "[1;31m" "[FAIL]" " sys_mmap memory corruption detected.".
Definition SUCCESS : str := tagged "[1;32m" "[SUCCESS]" " Phase 3.1 memory tests completed without faults.".
Definition PANIC : str := tagged "[1;31m" "[PANIC]" " Test suite crashed unexpectedly.".

(** The digits of [print_hex], filled from the last place on: after [i] more rounds. *)
Definition hex_chars : list Z := lit "0123456789ABCDEF".
Fixpoint hex_loop (i : nat) (temp : Z) (buf : list Z) : outcome (list Z) :=
  match i with
  | O => Ret buf
  | S i =>
      c <- vget hex_chars (Z.land temp 0xF);;
      buf <- vset buf (Z.of_nat i) c;;
      hex_loop i (Z.shiftr temp 4) buf
  end.

(** ** The program *)

Section Program.
Context `{HP : Profile} `{HV : VirtAddrNew} `{HA : PhysAddrNew} `{HE : EntryOps} `{HM : Mapper} {V : Type} `{HN : VNode V}.
Context (hhdm : option Z) (sel : Selectors) (tramp : Z) (stack : option Z).
(** Where the literals and the buffer of [print_hex] lie. *)
Context (rodata : str → Z) (hex_buf : Z).
#[local] Abbreviation state := (kernel (V := V)).
Implicit Types k : state.

(** A [syscall] instruction that comes back; registers that are not set hold zero. *)
Definition user_call k (regs : SyscallRegisters) : outcome (Z * state) :=
  let* (e, k) := handle_syscall_rust hhdm sel tramp stack k regs in
  match e with SysReturn v => Ret (v, k) | _ => Stop OutOfFuel end.

Definition user_write k (fd buf count : Z) := user_call k (mkRegs 1 fd buf count 0 0 0).
Definition user_mmap k (addr length prot flags fd offset : Z) := user_call k (mkRegs 9 addr length prot flags fd offset).
Definition user_brk k (addr : Z) := user_call k (mkRegs 12 addr 0 0 0 0 0).
Definition user_exit k (code : Z) : outcome state :=
  let* (_, k) := handle_syscall_rust hhdm sel tramp stack k (mkRegs 60 code 0 0 0 0 0) in Ret k.

(** What the processor allows: the page is open to ring 3 and, for a store, its entry
    is writable.  The write bits of the upper levels, which [map_to] sets together
    with the user bits, are not looked at. *)
Definition ring3_page (write : bool) (r : ram) (cr3 a : Z) : bool :=
  user_accessible r cr3 a && (negb write || match leaf_walk r 3 cr3 a with Some (_, e) => Z.testbit e 1 | None => false end).
Definition ring3_range (write : bool) k (a : Z) (n : nat) : bool :=
  forallb (λ j, ring3_page write (mem_ram (k_mem k)) (k_cr3 k) (a + Z.of_nat j)) (seq 0 n).

(** A fault of the program is [OutOfBounds]. *)
Definition user_store k (a : Z) (l : list Z) : outcome state :=
  if ring3_range true k a (length l) then r <- store_bytes (mem_ram (k_mem k)) (k_cr3 k) a l;; Ret (set_k_ram k r)
  else Stop OutOfBounds.
Definition user_load k (a : Z) (n : nat) : outcome (list Z) :=
  if ring3_range false k a n then load_bytes (mem_ram (k_mem k)) (k_cr3 k) a n else Stop OutOfBounds.

Definition user_print k (s : str) : outcome state :=
  let* (_, k) := user_write k 1 (rodata s) (Z.of_nat (length (as_bytes s))) in Ret k.

Definition user_print_hex k (val : Z) : outcome state :=
  buf <- hex_loop 16 val (replicate 16 48);;
  k <- user_store k hex_buf buf;;
  let* (_, k) := user_write k 1 hex_buf 16 in Ret k.

(** [Done]: the program has exited. *)
Definition fail k (text : str) : outcome (flow state state) :=
  k <- user_print k text;; k <- user_exit k 1;; Ret (Done k).

(** The panic handler. *)
Definition user_panic k : outcome (flow state state) := fail k PANIC.

Definition brk_test k : outcome (flow state state) :=
  let* (initial_brk, k) := user_brk k 0 in
  if initial_brk =? 0 then fail k BRK_ZERO else
  match uadd 64 initial_brk 4096 with
  | Stop _ => user_panic k
  | Ret requested_brk =>
      let* (new_brk, k) := user_brk k requested_brk in
      if negb (new_brk =? requested_brk) then fail k BRK_REFUSED else
      k <- user_store k initial_brk (le_bytes 8 0xDEADBEEFCAFEBABE);;
      v <- user_load k initial_brk 8;;
      if le v =? 0xDEADBEEFCAFEBABE then k <- user_print k BRK_PASS;; Ret (Next k) else fail k BRK_CORRUPT
  end.

Definition mmap_test k : outcome (flow state state) :=
  let* (mmap_addr, k) := user_mmap k 0 4096 0x3 0x22 (2 ^ 64 - 1) 0 in
  if (mmap_addr =? 0) || (2 ^ 63 <=? mmap_addr) then fail k MMAP_REJECTED else
  k <- user_print k ADDRESS;;
  k <- user_print_hex k mmap_addr;;
  k <- user_print k NEWLINE;;
  k <- user_store k mmap_addr (le_bytes 8 0x1234567890ABCDEF);;
  v <- user_load k mmap_addr 8;;
  if le v =? 0x1234567890ABCDEF then k <- user_print k MMAP_PASS;; Ret (Next k) else fail k MMAP_CORRUPT.

(** [_start]; the kernel after the program has exited. *)
Definition user_start k : outcome state :=
  k <- user_print k START;;
  k <- user_print k BRK_INFO;;
  f <- brk_test k;;
  match f with
  | Done k => Ret k
  | Next k =>
      k <- user_print k MMAP_INFO;;
      f <- mmap_test k;;
      match f with
      | Done k => Ret k
      | Next k => k <- user_print k SUCCESS;; user_exit k 0
      end
  end.
End Program.

(** ** What the program shows *)

Definition texts : list str :=
  [START; BRK_INFO; BRK_ZERO; BRK_REFUSED; BRK_PASS; BRK_CORRUPT; MMAP_INFO; MMAP_REJECTED; ADDRESS; NEWLINE; MMAP_PASS;
   MMAP_CORRUPT; SUCCESS; PANIC].

(** The sixteen digits of a word, the most significant first. *)
Definition hex_digit (d : Z) : Z := if d <? 10 then 48 + d else 55 + d.
Definition hex (v : Z) : str := map (λ j, hex_digit (v / 16 ^ (15 - Z.of_nat j) mod 16)) (seq 0 16).

Definition passed (mmap_addr : Z) : list str :=
  [START; BRK_INFO; BRK_PASS; MMAP_INFO; ADDRESS; hex mmap_addr; NEWLINE; MMAP_PASS; SUCCESS].
Definition refused : list (list str) :=
  [[START; BRK_INFO; BRK_REFUSED]; [START; BRK_INFO; BRK_PASS; MMAP_INFO; MMAP_REJECTED]].

Lemma texts_ascii s : s ∈ texts → Forall is_ascii s ∧ 0 < Z.of_nat (length s) < 2 ^ 32.
Proof.
  revert s. apply Forall_forall. assert (forallb (λ s, forallb (λ c, (0 <=? c) && (c <? 128)) s && (0 <? Z.of_nat (length s)) && (Z.of_nat (length s) <? 2 ^ 32)) texts = true) as Hb
    by (vm_compute; reflexivity).
  apply Forall_forall. intros s Hs. rewrite forallb_forall in Hb. specialize (Hb s ltac:(by apply list_elem_of_In)).
  apply andb_prop in Hb as [[Hb Hlo]%andb_prop Hhi]. split; [|lia]. apply Forall_forall. intros c Hc.
  rewrite forallb_forall in Hb. specialize (Hb c ltac:(by apply list_elem_of_In)). unfold is_ascii. lia.
Qed.

Lemma hex_char t : 0 ≤ t → vget hex_chars (Z.land t 0xF) = Ret (hex_digit (t mod 16)).
Proof.
  intros Ht. change 0xF with (Z.ones 4). rewrite Z.land_ones by lia. change (2 ^ 4) with 16.
  assert (0 ≤ t mod 16 < 16) as Hr by zlia. revert Hr. generalize (t mod 16) as d. intros d Hd.
  assert (∀ n, (n < 16)%nat → vget hex_chars (Z.of_nat n) = Ret (hex_digit (Z.of_nat n))) as Hn.
  { intros n Hn. do 16 (destruct n as [|n]; [reflexivity|]). lia. }
  rewrite <- (Z2Nat.id d) by lia. apply Hn. lia.
Qed.

Lemma hex_loop_fills i : ∀ t l1 l2, length l1 = i → 0 ≤ t →
  hex_loop i t (l1 ++ l2) = Ret (map (λ j, hex_digit (t / 16 ^ (Z.of_nat i - 1 - Z.of_nat j) mod 16)) (seq 0 i) ++ l2).
Proof.
  induction i as [|i IH]; intros t l1 l2 Hl Ht; cbn [hex_loop]; [by destruct l1|].
  rewrite hex_char by done. cbn [obind]. destruct l1 as [|x l _] using rev_ind; [done|].
  rewrite length_app in Hl. cbn [length] in Hl. assert (length l = i) as Hi by lia. unfold vset.
  rewrite <- app_assoc, Nat2Z.id. cbn [app]. rewrite list_lookup_middle, insert_app_r_alt by lia. rewrite Hi, Nat.sub_diag. cbn [obind].
  change (<[0%nat := hex_digit (t mod 16)]> (x :: l2)) with (hex_digit (t mod 16) :: l2).
  rewrite IH by (done || by apply Z.shiftr_nonneg). f_equal. rewrite seq_S, map_app, <- app_assoc. cbn [map app]. f_equal.
  - apply map_ext_in. intros j [_ Hj]%in_seq. rewrite Z.shiftr_div_pow2, Z.div_div by lia. do 3 f_equal.
    change (2 ^ 4) with (16 ^ 1). rewrite <- Z.pow_add_r by lia. f_equal. lia.
  - do 2 f_equal. replace (Z.of_nat (S i) - 1 - Z.of_nat (0 + i)) with 0 by lia. by rewrite Z.div_1_r.
Qed.

Lemma hex_loop_ok v : 0 ≤ v → hex_loop 16 v (replicate 16 48) = Ret (hex v).
Proof. intros Hv. rewrite <- (app_nil_r (replicate 16 48)), hex_loop_fills by done. by rewrite app_nil_r. Qed.

(** ** The run *)

Section Run.
Context `{HP : Profile} `{HE : EntrySpec} `{HV : VirtAddrSpec} `{HA : PhysAddrSpec} (off : Z) `{HM : Mapper} `{HMS : !MapperSpec off}.
Context {V : Type} `{HN : VNode V}.
Context (sel : Selectors) (tramp : Z) (stack : option Z) (rodata : str → Z) (hex_buf : Z).
Implicit Types (k : kernel (V := V)) (um : umem) (t : Task (node V)).

Definition apart (a n : Z) : Prop := ∀ s, s ∈ texts → a + n ≤ rodata s ∨ rodata s + Z.of_nat (length s) ≤ a.

(** The program is the current task [i]; its literals and the buffer are in its
    memory, and its standard output is open. *)
Record loaded b k um i t : Prop := {
  ld_kernel : kernel_ok off b k um;
  ld_current : current_task (k_tm k) = Some i;
  ld_task : task_registry (k_tm k) !! i = Some t;
  ld_stdout : get_fd (fd_table t) 1 = Some Stdout;
  ld_texts s : s ∈ texts → 0 < rodata s < 2 ^ 47 ∧ valid_range um (rodata s) (Z.of_nat (length s)) ∧ ubytes um (rodata s) (length s) = s;
  ld_buffer : 0 < hex_buf < 2 ^ 47 ∧ valid_range um hex_buf 16 ∧ apart hex_buf 16;
}.

Lemma registry_same k i t : task_registry (k_tm k) !! i = Some t →
  set_registry (k_tm k) (<[i := t]> (task_registry (k_tm k))) = k_tm k.
Proof. intros Ht. rewrite insert_id by done. by destruct (k_tm k). Qed.

Lemma loaded_print b k um i t s : loaded b k um i t → loaded b (print k s) um i t.
Proof. intros [Hk Hc Ht Ho Hx Hb]. split; try done. by eapply se_ok, safe_end_print. Qed.

(** [write] of text in the memory of the program shows it. *)
Lemma write_text b k um i t p s : loaded b k um i t → 0 < p < 2 ^ 47 → valid_range um p (Z.of_nat (length s)) →
  ubytes um p (length s) = s → Forall is_ascii s → Z.of_nat (length s) < 2 ^ 32 →
  user_write (Some off) sel tramp stack k 1 p (Z.of_nat (length s)) = Ret (Z.of_nat (length s), print k s).
Proof.
  intros [Hk Hc Ht Ho _ _] Hp Hv Hs Ha Hl. unfold user_write, user_call.
  change (handle_syscall_rust (Some off) sel tramp stack k (mkRegs 1 1 p (Z.of_nat (length s)) 0 0 0))
    with (sys_write (Some off) k 1 p (Z.of_nat (length s))). unfold sys_write.
  pose proof (valid_memory off k um p (Z.of_nat (length s)) (ko_space _ _ _ _ Hk) ltac:(lia) ltac:(lia)) as Hw.
  destruct (is_valid_user_memory _ _ _ _) as [v|]; [|done]. cbn [wp] in Hw. apply proj2 in Hw. rewrite (Hw Hv). cbn [obind negb].
  rewrite (on_current_at k i t) by done. unfold write_fd. rewrite Ho. rewrite (copy_in off b k um p (Z.of_nat (length s))) by (done || lia).
  rewrite Nat2Z.id, Hs. cbn [obind]. rewrite from_utf8_ascii by done. cbn [obind app]. rewrite app_nil_r.
  change (k_tm (print k s)) with (k_tm k). by rewrite registry_same.
Qed.

Lemma print_text b k um i t s : loaded b k um i t → s ∈ texts →
  user_print (Some off) sel tramp stack rodata k s = Ret (print k s).
Proof.
  intros Hld Hs. destruct (texts_ascii s Hs) as [Ha Hl]. destruct (ld_texts _ _ _ _ _ Hld s Hs) as (Hp & Hv & Hb).
  unfold user_print. rewrite as_bytes_ascii by done. rewrite (write_text b k um i t) by (done || lia). done.
Qed.

(** ** Loads and stores of the program *)

Lemma ring3_page_ok m pml4 um w a : uspace off m pml4 um → is_Some (um !! page_of a) → ring3_page w (mem_ram m) pml4 a = true.
Proof.
  intros Hu [b Hb]. destruct (uspace_page _ _ _ _ _ _ Hu Hb) as [f Hp]. unfold ring3_page, user_accessible.
  destruct (walk_page (mem_ram m) a 3 pml4) as (<- & <- & _). pose proof (pa_user _ _ _ _ _ _ Hp) as Hua. unfold user_accessible in Hua. rewrite Hua.
  rewrite (slot_walk _ _ _ _ (pa_slot _ _ _ _ _ _ Hp) (proj1 (entry_present f))). rewrite Z.lor_spec.
  change (Z.testbit 7 1) with true. by rewrite orb_true_r, orb_true_r.
Qed.

Lemma ring3_range_ok k um w a n : uspace off (k_mem k) (k_cr3 k) um → user_range um a (Z.of_nat n) → ring3_range w k a n = true.
Proof.
  intros Hu Hr. unfold ring3_range. apply forallb_forall. intros j [_ Hj]%in_seq. apply (ring3_page_ok _ _ um); [done|]. apply Hr. lia.
Qed.

Lemma load_at b k um i t a n : loaded b k um i t → user_range um a (Z.of_nat n) → user_load k a n = Ret (ubytes um a n).
Proof.
  intros Hld Hr. pose proof (ko_space _ _ _ _ (ld_kernel _ _ _ _ _ Hld)) as Hu. unfold user_load. rewrite (ring3_range_ok k um) by done.
  by apply (uspace_loads off).
Qed.

Lemma store_at b k um i t a l : loaded b k um i t → user_range um a (Z.of_nat (length l)) → Forall (λ x, is_byte x) l →
  apart a (Z.of_nat (length l)) →
  ∃ k', user_store k a l = Ret k' ∧ loaded b k' (uwrite um a l) i t ∧ k_console k' = k_console k ∧ k_cr3 k' = k_cr3 k
    ∧ nfree (k_mem k') = nfree (k_mem k) ∧ ∀ p, mapped (mem_ram (k_mem k')) (k_cr3 k') p = mapped (mem_ram (k_mem k)) (k_cr3 k) p.
Proof.
  intros Hld Hr Hl Hap. destruct Hld as [Hk Hc Ht Ho Hx Hb]. pose proof (ko_space _ _ _ _ Hk) as Hu. unfold user_store.
  rewrite (ring3_range_ok k um) by done. destruct (uspace_stores off (k_cr3 k) l Hl (k_mem k) um a Hu Hr) as (r & -> & Hu' & Hi & Hm).
  exists (set_k_ram k r). split; [done|]. split; [|done].
  assert (same_pages um (uwrite um a l)) as Hsame by (intros p; apply uwrite_dom).
  split; [by eapply se_ok, safe_end_mem|done|done|done| |].
  - intros s Hs. destruct (Hx s Hs) as (Hp & Hv & Hby). split; [done|]. split; [by eapply valid_range_same|]. rewrite <- Hby at 3.
    apply ubytes_ext. intros j Hj. rewrite ubyte_uwrite; [|by eapply uspace_full|done].
    destruct (Hap s Hs), (Z.leb_spec a j), (Z.ltb_spec j (a + Z.of_nat (length l))); done || lia.
  - destruct Hb as (Hp & Hv & Hba). split; [done|]. split; [by eapply valid_range_same|done].
Qed.

(** Writing a word and reading it back. *)
Lemma word_at b k um i t a v : loaded b k um i t → user_range um a 8 → apart a 8 → 0 ≤ v < 2 ^ 64 →
  ∃ k' um', user_store k a (le_bytes 8 v) = Ret k' ∧ loaded b k' um' i t ∧ k_console k' = k_console k ∧ k_cr3 k' = k_cr3 k
    ∧ nfree (k_mem k') = nfree (k_mem k) ∧ (∀ p, mapped (mem_ram (k_mem k')) (k_cr3 k') p = mapped (mem_ram (k_mem k)) (k_cr3 k) p)
    ∧ user_load k' a 8 = Ret (le_bytes 8 v).
Proof.
  intros Hld Hr Hap Hv. destruct (store_at b k um i t a (le_bytes 8 v)) as (k' & E & Hld' & Hc & Hcr & Hf & Hm); try done.
  { apply le_bytes_range. }
  exists k', (uwrite um a (le_bytes 8 v)). split_and!; try done. rewrite (load_at b k' (uwrite um a (le_bytes 8 v)) i t).
  - f_equal. apply (ubytes_uwrite (le_bytes 8 v)); [|done]. eapply (uspace_full off (k_cr3 k)), (ko_space _ _ _ _ (ld_kernel _ _ _ _ _ Hld)).
  - done.
  - intros j Hj. rewrite uwrite_dom. by apply Hr.
Qed.

(** ** More memory *)

(** A page without an entry is no page of the program. *)
Lemma unmapped_none m pml4 um p : uspace off m pml4 um → mapped (mem_ram m) pml4 p = false → um !! p = None.
Proof.
  intros Hu Hm. destruct (um !! p) as [b|] eqn:E; [|done]. destruct (uspace_page _ _ _ _ _ _ Hu E) as [f Hp].
  unfold mapped in Hm. rewrite (pa_slot _ _ _ _ _ _ Hp) in Hm. apply negb_false_iff, Z.eqb_eq in Hm. by destruct (entry_present f).
Qed.

Lemma fresh_apart b k um i t p : loaded b k um i t → um !! p = None → is_page p → apart p 8.
Proof.
  intros Hld Hn [Hp Hp0] s Hs. destruct (texts_ascii s Hs) as [_ Hl]. destruct (ld_texts _ _ _ _ _ Hld s Hs) as (Hr & Hv & _).
  destruct (decide (p + 8 ≤ rodata s ∨ rodata s + Z.of_nat (length s) ≤ p)) as [|Hno]; [done|]. exfalso.
  destruct (valid_range_user _ _ _ (Z.of_nat (length s)) Hv ltac:(lia) (Z.max p (rodata s)) ltac:(lia)) as [x Hx].
  replace (page_of (Z.max p (rodata s))) with p in Hx by (unfold page_of; zlia). congruence.
Qed.

Lemma loaded_grown b k um i t k' um' t' start n : loaded b k um i t → kernel_ok off b k' um' → current_task (k_tm k') = Some i →
  task_registry (k_tm k') !! i = Some t' → fd_table t' = fd_table t → memory_grown (k_cr3 k) start n (k_mem k) um um' →
  loaded b k' um' i t'.
Proof.
  intros [Hk Hc Ht Ho Hx Hb] Hk' Hc' Ht' Hfd [Hkept _ _]. pose proof (ko_space _ _ _ _ Hk) as Hu.
  assert (∀ a, is_Some (um !! page_of a) → ubyte um' a = ubyte um a ∧ is_Some (um' !! page_of a)) as Hold.
  { intros a Ha. destruct (uspace_byte _ _ _ _ _ Hu Ha) as (x & E & _). pose proof (Hkept a x E) as E'. split; [congruence|].
    unfold ubyte in E'. destruct (um' !! page_of a); [by eexists|done]. }
  assert (∀ p l, valid_range um p l → valid_range um' p l) as Hvalid.
  { intros p l [Hne [?|[Hlim Hr]]]; (split; [done|]); [by left|right]. split; [done|]. intros a Ha. by apply Hold, Hr. }
  split; try done.
  - by rewrite Hfd.
  - intros s Hs. destruct (Hx s Hs) as (Hp & Hv & Hby). split; [done|]. split; [by apply Hvalid|]. rewrite <- Hby at 3.
    apply ubytes_ext. intros a Ha. apply Hold. by eapply valid_range_user.
  - destruct Hb as (? & ? & ?). split; [done|]. split; [by apply Hvalid|done].
Qed.

(** [brk] without a request. *)
Lemma brk_query b k um i t : loaded b k um i t → user_brk (Some off) sel tramp stack k 0 = Ret (program_break t, k).
Proof.
  intros [Hk Hc Ht _ _ _]. unfold user_brk, user_call.
  change (handle_syscall_rust (Some off) sel tramp stack k (mkRegs 12 0 0 0 0 0 0)) with (sys_brk (Some off) k 0).
  unfold sys_brk. rewrite (on_current_at k i t) by done. unfold brk_task. cbn [Z.eqb obind]. rewrite registry_same by done. by destruct k.
Qed.

(** The result of a request for one page at [p]: granted, or refused for lack of frames. *)
Definition one_page b k i t (p : Z) (granted : Z → Task (node V) → mem → Prop) (rejected : Z → Prop) : Z * kernel (V := V) → Prop := λ '(v, k'),
  k_console k' = k_console k ∧ k_cr3 k' = k_cr3 k ∧ ∃ um' t', loaded b k' um' i t' ∧
  ((granted v t' (k_mem k') ∧ um' !! p = Some zero_frame
    ∧ ∀ q, is_page q → q ≠ p → mapped (mem_ram (k_mem k')) (k_cr3 k') q = mapped (mem_ram (k_mem k)) (k_cr3 k) q)
   ∨ (rejected v ∧ nfree (k_mem k) < 4)).

Lemma brk_console hhdm req k t v t' k' : brk_task hhdm req k t = Ret (v, t', k') → k_console k' = k_console k.
Proof.
  unfold brk_task. repeat (case_match; [by intros [= _ _ <-]|]).
  destruct (uadd 64 (program_break t) _); [|done]. cbn [obind]. destruct (uadd 64 req _); [|done]. cbn [obind].
  case_match; [|by intros [= _ _ <-]]. destruct (usub 64 _ _); [|done]. cbn [obind].
  destruct (for_range _ _ _ _) as [[m|[e m]]|]; [..|done]; cbn [obind]; by intros [= _ _ <-].
Qed.

Lemma mmap_console hhdm addr len k t v t' k' : mmap_task hhdm addr len k t = Ret (v, t', k') → k_console k' = k_console k.
Proof.
  unfold mmap_task. destruct (uadd 64 len _); [|done]. cbn [obind]. case_match; [|by intros [= _ _ <-]].
  destruct (for_range _ _ _ _) as [[m|[e m]]|]; [| |done]; cbn [obind]; [|by intros [= _ _ <-]].
  destruct (if addr =? 0 then _ else _) as [base|]; [|done]. by intros [= _ _ <-].
Qed.

Lemma in_one_page p q : is_page p → is_page q → in_pages p 1 q = (q =? p).
Proof. intros [? ?] [? ?]. unfold in_pages, page_of. destruct (Z.eqb_spec q p), (Z.leb_spec (p - p mod 4096) q), (Z.ltb_spec q (p - p mod 4096 + 1 * 4096)); cbn; zlia. Qed.

(** The task after a call that mapped [n] pages from [p] on. *)
Lemma loaded_added b k um i t k' um' t' p n : loaded b k um i t → safe_end off b k um k' um' → k_tm k' = k_tm k → task_ok b t' →
  pml4_frame t' = k_cr3 k → fd_table t' = fd_table t → pages_added off (k_cr3 k) p n (k_mem k) um (k_mem k') um' →
  loaded b (set_k_tm k' (set_registry (k_tm k') (<[i := t']> (task_registry (k_tm k'))))) um' i t'.
Proof.
  intros Hld Hs Etm Hok Hp Hfd Hadd. pose proof Hld as [Hk Hc _ _ _ _]. eapply loaded_grown; [exact Hld| | |apply lookup_insert_eq|exact Hfd|].
  - eapply se_ok, (safe_end_task off b b k um _ _ i); [lia|exact Hs|by rewrite Etm|done|done].
  - by rewrite <- Hc, <- Etm.
  - eapply pages_added_memory; [apply Hk|exact Hadd].
Qed.

Lemma page_added k um m' um' p : pages_added off (k_cr3 k) p 1 (k_mem k) um m' um' → is_page p → mapped (mem_ram (k_mem k)) (k_cr3 k) p = false →
  um' !! p = Some zero_frame ∧ ∀ q, is_page q → q ≠ p → mapped (mem_ram m') (k_cr3 k) q = mapped (mem_ram (k_mem k)) (k_cr3 k) q.
Proof.
  intros [_ _ Hpg Hmp] Hp Hn. split.
  - by rewrite Hpg, Hn, in_one_page, Z.eqb_refl.
  - intros q Hq Hne. rewrite Hmp, in_one_page by done. rewrite (proj2 (Z.eqb_neq q p)) by done. apply orb_false_r.
Qed.

Lemma brk_page b k um i t : loaded b k um i t → let p := program_break t in is_page p → 0 < p → p + 4096 < 0x700000000000 →
  mapped (mem_ram (k_mem k)) (k_cr3 k) p = false →
  wp (user_brk (Some off) sel tramp stack k (p + 4096))
    (one_page b k i t p (λ v t' m', v = p + 4096 ∧ mmap_base t' = mmap_base t ∧ nfree (k_mem k) ≤ nfree m' + 4) (λ v, v = p)).
Proof.
  intros Hld p Hpage Hp Hlim Hun. pose proof Hld as [Hk Hc Ht Ho _ _].
  pose proof (ko_tasks _ _ _ _ Hk i t Ht) as Hok. pose proof (ko_current _ _ _ _ Hk i t Hc Ht) as Hcr. pose proof (tk_break _ _ Hok) as Hbk.
  unfold user_brk, user_call. change (handle_syscall_rust (Some off) sel tramp stack k (mkRegs 12 (p + 4096) 0 0 0 0 0)) with (sys_brk (Some off) k (p + 4096)).
  unfold sys_brk. rewrite (on_current_at k i t) by done.
  pose proof (brk_task_ok off b k um (p + 4096) t Hk Hok Hcr ltac:(lia)) as Hw.
  destruct (brk_task (Some off) (p + 4096) k t) as [[[v t'] k']|] eqn:E; [|done]. apply brk_console in E.
  destruct Hw as (um' & Hs & Etm & Hok' & Hp' & Hres). cbn [obind wp one_page]. split; [done|]. split; [apply Hs|]. exists um', t'.
  assert (page_of (p + 4095) = p ∧ page_of (p + 4096 + 4095) = p + 4096) as [Ec En] by (destruct Hpage; unfold page_of; zlia).
  unfold brk_result in Hres. fold p in Hres, Hbk. rewrite Ec, En in Hres. replace ((p + 4096 - p) / 4096) with 1 in Hres by zlia.
  cbn [k_mem k_cr3 set_k_tm]. rewrite (se_cr3 _ _ _ _ _ _ Hs).
  destruct Hres as [(-> & _ & -> & [(? & _)|(_ & Hfr & Hadd)])|(-> & -> & [(Hno & _)|(_ & Hfew & j & Hj & Hadd)])]; [lia| |exfalso; apply Hno; lia|].
  - split; [by eapply loaded_added|]. left. split; [done|]. by eapply page_added.
  - split; [by eapply loaded_added|]. right. split; [done|lia].
Qed.

Lemma mmap_page b k um i t : loaded b k um i t → let p := mmap_base t in is_page p → 0x1000 ≤ p → p + 4096 ≤ USER_LIMIT →
  mapped (mem_ram (k_mem k)) (k_cr3 k) p = false →
  wp (user_mmap (Some off) sel tramp stack k 0 4096 0x3 0x22 (2 ^ 64 - 1) 0) (one_page b k i t p (λ v _ _, v = p) (λ v, v = neg 12)).
Proof.
  intros Hld p Hpage Hp Hlim Hun. pose proof Hld as [Hk Hc Ht Ho _ _].
  pose proof (ko_tasks _ _ _ _ Hk i t Ht) as Hok. pose proof (ko_current _ _ _ _ Hk i t Hc Ht) as Hcr.
  unfold user_mmap, user_call.
  change (handle_syscall_rust (Some off) sel tramp stack k (mkRegs 9 0 4096 0x3 0x22 (2 ^ 64 - 1) 0)) with (sys_mmap (Some off) k 0 4096 0x22).
  unfold sys_mmap. change (Z.land 0x22 0x20 =? 0) with false. cbv iota. rewrite (on_current_at k i t) by done.
  pose proof (mmap_task_ok off b k um 0 4096 t Hk Hok Hcr ltac:(lia) ltac:(lia) ltac:(lia)) as Hw.
  destruct (mmap_task (Some off) 0 4096 k t) as [[[v t'] k']|] eqn:E; [|done]. apply mmap_console in E.
  destruct Hw as (um' & Hs & Etm & Hok' & Hp' & Hres). cbn [obind wp one_page]. split; [done|]. split; [apply Hs|]. exists um', t'.
  unfold mmap_result in Hres. cbn [Z.eqb] in Hres. fold p in Hres. change ((4096 + 4095) / 4096) with 1 in Hres.
  cbn [k_mem k_cr3 set_k_tm]. rewrite (se_cr3 _ _ _ _ _ _ Hs).
  destruct Hres as [(-> & _ & Hadd & ->)|(-> & -> & [(Hno & _)|(_ & Hfew & j & Hj & Hadd)])]; [|exfalso; apply Hno; lia|].
  - split; [by eapply loaded_added|]. left. split; [done|]. by eapply page_added.
  - split; [by eapply loaded_added|]. right. split; [done|lia].
Qed.

(** ** The end *)

Definition exited b k i : Prop :=
  (∃ um, kernel_ok off b k um) ∧ task_states (k_tm k) !! i = Some Dead ∧ current_task (k_tm k) = None.

Lemma exit_ok b k um i t code : loaded b k um i t →
  ∃ k', user_exit (Some off) sel tramp stack k code = Ret k' ∧ exited b k' i ∧ k_console k' = k_console k.
Proof.
  intros [Hk Hc Ht _ _ _]. eexists. split; [reflexivity|]. split; [|done].
  pose proof (sys_exit_safe off b k um Hk) as [um' Hs]. split; [exists um'; apply Hs|].
  cbn [sys_exit snd k_tm set_k_tm]. unfold exit_current_task. rewrite Hc. split; [|done]. cbn [set_current task_states].
  unfold set_task_state. repeat case_bool_decide; apply lookup_insert_eq.
Qed.

Lemma fail_ok b k um i t s : loaded b k um i t → s ∈ texts →
  ∃ k', fail (Some off) sel tramp stack rodata k s = Ret (Done k') ∧ exited b k' i ∧ k_console k' = k_console k ++ [Print s].
Proof.
  intros Hld Hs. unfold fail. rewrite (print_text b k um i t) by done. cbn [obind].
  destruct (exit_ok b (print k s) um i t 1) as (k' & E & Hex & Hcon); [by apply loaded_print|]. rewrite E. by exists k'.
Qed.

Ltac text := apply (bool_decide_unpack _); vm_compute; exact I.

(** The first test; [p] is a page that it leaves alone. *)
Lemma brk_test_ok b k um i t : loaded b k um i t → is_page (program_break t) → 0 < program_break t → program_break t + 4096 < 0x700000000000 →
  mapped (mem_ram (k_mem k)) (k_cr3 k) (program_break t) = false →
  wp (brk_test (Some off) sel tramp stack rodata k) (λ f, match f with
    | Next k' => (∃ um' t', loaded b k' um' i t' ∧ mmap_base t' = mmap_base t) ∧ nfree (k_mem k) ≤ nfree (k_mem k') + 4
        ∧ k_console k' = k_console k ++ [Print BRK_PASS]
        ∧ ∀ q, is_page q → q ≠ program_break t → mapped (mem_ram (k_mem k')) (k_cr3 k') q = mapped (mem_ram (k_mem k)) (k_cr3 k) q
    | Done k' => nfree (k_mem k) < 4 ∧ exited b k' i ∧ k_console k' = k_console k ++ [Print BRK_REFUSED]
    end).
Proof.
  intros Hld Hpage Hp Hlim Hun. unfold brk_test. rewrite (brk_query b k um i t) by done. cbn [obind].
  rewrite (proj2 (Z.eqb_neq (program_break t) 0)) by lia. unfold uadd. rewrite checked_ok by lia. wp_step.
  eapply wp_mono; [by apply (brk_page b k um i t)|]. intros [v k1] (Hcon & Hcr & um1 & t1 & Hld1 & Hres).
  destruct Hres as [((-> & Hmm & Hfr) & Hz & Hmap)|(-> & Hfew)].
  2: { rewrite (proj2 (Z.eqb_neq (program_break t) (program_break t + 4096))) by lia. cbn [negb].
       destruct (fail_ok b k1 um1 i t1 BRK_REFUSED Hld1) as (k' & E & Hex & Hk'); [text|]. rewrite E. cbn [wp]. by rewrite Hk', Hcon. }
  rewrite Z.eqb_refl. cbn [negb]. assert (user_range um1 (program_break t) 8) as Hr.
  { intros j Hj. replace (page_of j) with (program_break t) by (destruct Hpage; unfold page_of; zlia). by eexists. }
  assert (apart (program_break t) 8) as Hap.
  { eapply fresh_apart; [exact Hld| |exact Hpage]. eapply unmapped_none; [apply Hld|exact Hun]. }
  destruct (word_at b k1 um1 i t1 (program_break t) 0xDEADBEEFCAFEBABE Hld1 Hr Hap ltac:(lia)) as (k2 & um2 & E & Hld2 & Hcon2 & Hcr2 & Hfr2 & Hm2 & El).
  rewrite E. cbn [obind]. rewrite El. cbn [obind]. rewrite le_le_bytes by (cbn; lia). rewrite Z.eqb_refl.
  rewrite (print_text b k2 um2 i t1) by (done || text). cbn [obind wp]. split_and!.
  - exists um2, t1. split; [by apply loaded_print|done].
  - change (k_mem (print k2 BRK_PASS)) with (k_mem k2). by rewrite Hfr2.
  - cbn [print k_console]. by rewrite Hcon2, Hcon.
  - intros q Hq Hne. cbn [print k_mem k_cr3]. rewrite Hm2. by apply Hmap.
Qed.

Lemma hex_ascii v : length (hex v) = 16%nat ∧ Forall is_ascii (hex v).
Proof.
  split; [done|]. apply Forall_forall. intros c Hc. apply list_elem_of_In, in_map_iff in Hc as (j & <- & _).
  unfold hex_digit, is_ascii. destruct (Z.ltb_spec (v / 16 ^ (15 - Z.of_nat j) mod 16) 10); zlia.
Qed.

Lemma print_hex_ok b k um i t v : loaded b k um i t → 0 ≤ v →
  ∃ k', user_print_hex (Some off) sel tramp stack hex_buf k v = Ret k' ∧ loaded b k' (uwrite um hex_buf (hex v)) i t
    ∧ k_console k' = k_console k ++ [Print (hex v)].
Proof.
  intros Hld Hv. destruct (hex_ascii v) as [Hl Ha]. pose proof (ld_buffer _ _ _ _ _ Hld) as (Hb & Hvr & Hap).
  unfold user_print_hex. rewrite hex_loop_ok by done. cbn [obind].
  assert (user_range um hex_buf 16) as Hr by (by eapply valid_range_user).
  destruct (store_at b k um i t hex_buf (hex v)) as (k1 & E & Hld1 & Hcon & _); try (rewrite ?Hl; done).
  { eapply Forall_impl; [exact Ha|]. intros c. unfold is_ascii. lia. }
  rewrite E. cbn [obind]. change 16 with (Z.of_nat (length (hex v))).
  rewrite (write_text b k1 (uwrite um hex_buf (hex v)) i t); [|done|done| | |done|by rewrite Hl].
  - cbn [obind]. eexists. split; [done|]. split; [by apply loaded_print|]. cbn [print k_console]. by rewrite Hcon.
  - rewrite Hl. eapply valid_range_same; [|exact Hvr]. intros p. apply uwrite_dom.
  - apply ubytes_uwrite; [|by rewrite Hl]. eapply (uspace_full off (k_cr3 k)), (ko_space _ _ _ _ (ld_kernel _ _ _ _ _ Hld)).
Qed.

Lemma mmap_test_ok b k um i t : loaded b k um i t → is_page (mmap_base t) → 0x1000 ≤ mmap_base t → mmap_base t + 4096 ≤ USER_LIMIT →
  mapped (mem_ram (k_mem k)) (k_cr3 k) (mmap_base t) = false →
  wp (mmap_test (Some off) sel tramp stack rodata hex_buf k) (λ f, match f with
    | Next k' => (∃ um' t', loaded b k' um' i t')
        ∧ k_console k' = k_console k ++ map Print [ADDRESS; hex (mmap_base t); NEWLINE; MMAP_PASS]
    | Done k' => nfree (k_mem k) < 4 ∧ exited b k' i ∧ k_console k' = k_console k ++ [Print MMAP_REJECTED]
    end).
Proof.
  intros Hld Hpage Hp Hlim Hun. unfold mmap_test. wp_step.
  eapply wp_mono; [by apply (mmap_page b k um i t)|]. intros [v k1] (Hcon & Hcr & um1 & t1 & Hld1 & Hres).
  destruct Hres as [(-> & Hz & Hmap)|(-> & Hfew)].
  2: { change ((neg 12 =? 0) || (2 ^ 63 <=? neg 12)) with true. cbv iota.
       destruct (fail_ok b k1 um1 i t1 MMAP_REJECTED Hld1) as (k' & E & Hex & Hk'); [text|]. rewrite E. cbn [wp]. by rewrite Hk', Hcon. }
  rewrite (proj2 (Z.eqb_neq (mmap_base t) 0)), (proj2 (Z.leb_gt (2 ^ 63) (mmap_base t))) by (unfold USER_LIMIT in *; lia). cbn [orb].
  rewrite (print_text b k1 um1 i t1) by (done || text). cbn [obind].
  destruct (print_hex_ok b (print k1 ADDRESS) um1 i t1 (mmap_base t)) as (k2 & E2 & Hld2 & Hcon2); [by apply loaded_print|lia|].
  rewrite E2. cbn [obind]. rewrite (print_text b k2 _ i t1 _ Hld2) by text. cbn [obind]. apply (loaded_print _ _ _ _ _ NEWLINE) in Hld2.
  assert (user_range (uwrite um1 hex_buf (hex (mmap_base t))) (mmap_base t) 8) as Hr.
  { intros j Hj. rewrite uwrite_dom. replace (page_of j) with (mmap_base t) by (destruct Hpage; unfold page_of; zlia). by eexists. }
  assert (apart (mmap_base t) 8) as Hap.
  { eapply fresh_apart; [exact Hld| |exact Hpage]. eapply unmapped_none; [apply Hld|exact Hun]. }
  destruct (word_at b _ _ i t1 (mmap_base t) 0x1234567890ABCDEF Hld2 Hr Hap ltac:(lia)) as (k3 & um3 & E3 & Hld3 & Hcon3 & _ & _ & _ & El).
  rewrite E3. cbn [obind]. rewrite El. cbn [obind]. rewrite le_le_bytes by (cbn; lia). rewrite Z.eqb_refl.
  rewrite (print_text b k3 um3 i t1) by (done || text). cbn [obind wp]. split.
  - exists um3, t1. by apply loaded_print.
  - cbn [print k_console map] in *. rewrite Hcon3, Hcon2, Hcon. by rewrite <- !app_assoc.
Qed.

(** C18: the memory test of user space passes.  For a task in a sound kernel, with the
    program's data in its memory and its break and mapping area page-aligned and not
    in use, every call of the program returns, no load or store of it faults, and it
    exits: with eight free frames after printing that all tests passed, the address
    granted by [mmap] in hexadecimal included; with fewer it may instead report that
    [brk] or [mmap] was refused, and nothing else. *)
Theorem memory_test_passes b k um i t : loaded b k um i t →
  is_page (program_break t) ∧ 0 < program_break t ∧ program_break t + 4096 < 0x700000000000 →
  is_page (mmap_base t) ∧ 0x1000 ≤ mmap_base t ∧ mmap_base t + 4096 ≤ USER_LIMIT ∧ mmap_base t ≠ program_break t →
  mapped (mem_ram (k_mem k)) (k_cr3 k) (program_break t) = false → mapped (mem_ram (k_mem k)) (k_cr3 k) (mmap_base t) = false →
  wp (user_start (Some off) sel tramp stack rodata hex_buf k) (λ k', exited b k' i ∧ ∃ shown,
    k_console k' = k_console k ++ map Print shown ∧ (shown = passed (mmap_base t) ∨ (nfree (k_mem k) < 8 ∧ shown ∈ refused))).
Proof.
  intros Hld (Hp1 & Hp2 & Hp3) (Hm1 & Hm2 & Hm3 & Hne) Hun1 Hun2. unfold user_start.
  rewrite (print_text b k um i t) by (done || text). cbn [obind]. apply (loaded_print _ _ _ _ _ START) in Hld.
  rewrite (print_text b _ um i t _ Hld) by text. cbn [obind]. apply (loaded_print _ _ _ _ _ BRK_INFO) in Hld. wp_step.
  eapply wp_mono; [by apply (brk_test_ok b _ um i t)|]. cbn [print k_mem k_console k_cr3]. intros [k1|k1].
  2: { intros (Hfew & Hex & Hcon). cbn [wp]. split; [done|]. exists [START; BRK_INFO; BRK_REFUSED]. rewrite Hcon, <- !app_assoc.
       split; [done|]. right. split; [lia|]. text. }
  intros ((um1 & t1 & Hld1 & Hmm) & Hfr & Hcon1 & Hmap). rewrite (print_text b k1 um1 i t1) by (done || text). cbn [obind].
  apply (loaded_print _ _ _ _ _ MMAP_INFO) in Hld1. wp_step.
  eapply wp_mono; [apply (mmap_test_ok b _ um1 i t1); rewrite ?Hmm; try done; by rewrite <- Hun2; apply Hmap|].
  cbn [print k_mem k_console]. rewrite Hmm. intros [k2|k2].
  2: { intros (Hfew & Hex & Hcon). cbn [wp]. split; [done|]. exists [START; BRK_INFO; BRK_PASS; MMAP_INFO; MMAP_REJECTED].
       rewrite Hcon, Hcon1, <- !app_assoc. split; [done|]. right. split; [lia|]. text. }
  intros ((um2 & t2 & Hld2) & Hcon2). rewrite (print_text b k2 um2 i t2) by (done || text). cbn [obind].
  destruct (exit_ok b (print k2 SUCCESS) um2 i t2 0) as (k3 & E & Hex & Hcon3); [by apply loaded_print|]. rewrite E. cbn [wp].
  split; [done|]. exists (passed (mmap_base t)). split; [|by left]. rewrite Hcon3. cbn [print k_console]. rewrite Hcon2, Hcon1, <- !app_assoc. done.
Qed.
End Run.

(** ** Witness *)

(** The task of [SysSample] with the literals one after the other at 0x5100 and the
    buffer at 0x5F00. *)
Module TestSample.
Fixpoint offset (l : list str) (s : str) : Z :=
  match l with [] => 0 | x :: l => if bool_decide (x = s) then 0 else Z.of_nat (length x) + offset l s end.
Definition rodata (s : str) : Z := 0x5100 + offset texts s.
Definition page : list Z := splice 0x100 (concat texts) zero_frame.
Definition k : kernel := mkKernel SysSample.tasks (TaskSample.memory page) 4096 ring_init SysSample.files 2 ∅ [].

Lemma test_space : uspace Sample.off (k_mem k) 4096 (TaskSample.pages page).
Proof.
  apply TaskSample.sample_uspace; [vm_compute; reflexivity|]. apply Forall_forall. intros x Hx.
  assert (forallb (λ x, (0 <=? x) && (x <? 256)) page = true) as Hb by (vm_compute; reflexivity).
  rewrite forallb_forall in Hb. specialize (Hb x ltac:(by apply list_elem_of_In)). lia.
Qed.

Lemma test_kernel : @kernel_ok Sample.off unit unit_vnode 3 k (TaskSample.pages page).
Proof. destruct SysSample.kernel_fine as [_ Hq Hf Ht Hc]. split; [exact test_space|exact Hq|exact Hf|exact Ht|exact Hc]. Qed.

Lemma test_valid a n : 0x5000 ≤ a → a + n ≤ 0x6000 → valid_range (TaskSample.pages page) a n.
Proof.
  intros Ha Hn. split; [lia|right]. split; [unfold USER_LIMIT; lia|]. intros i Hi.
  assert (page_of i = 0x5000) as -> by (unfold page_of; zlia). exists page. apply lookup_singleton_eq.
Qed.

Definition placed (s : str) : bool :=
  (0x5000 <=? rodata s) && (rodata s + Z.of_nat (length s) <=? 0x5F00)
  && bool_decide (ubytes (TaskSample.pages page) (rodata s) (length s) = s).

Lemma all_placed s : s ∈ texts → placed s = true.
Proof.
  assert (forallb placed texts = true) as Hb by (vm_compute; reflexivity). intros Hs. rewrite forallb_forall in Hb.
  apply Hb. by apply list_elem_of_In.
Qed.

Lemma test_loaded : @loaded Sample.off unit unit_vnode rodata 0x5F00 3 k (TaskSample.pages page) 1 SysSample.task.
Proof.
  split; [exact test_kernel|reflexivity|apply lookup_singleton_eq|reflexivity| |].
  - intros s Hs. apply all_placed, andb_prop in Hs as [[Hlo%Z.leb_le Hhi%Z.leb_le]%andb_prop Hb%bool_decide_eq_true].
    split; [lia|]. split; [apply test_valid; lia|exact Hb].
  - split; [lia|]. split; [apply test_valid; lia|]. intros s Hs. apply all_placed, andb_prop in Hs as [[_ Hhi%Z.leb_le]%andb_prop _]. right. lia.
Qed.
End TestSample.

Lemma memory_test_passes_witness :
  wp (@user_start true checked_virt_new masked_phys_new x86_entries table_mapper unit unit_vnode (Some Sample.off) Task.sample_selectors 0x5000 None
        TestSample.rodata 0x5F00 TestSample.k)
     (λ k', task_states (k_tm k') !! 1 = Some Dead ∧ k_console k' = map Print (passed 0x400000000000)).
Proof.
  eapply wp_mono; [apply (@memory_test_passes true x86_entries x86_entries_spec checked_virt_new checked_virt_new_spec masked_phys_new
    masked_phys_new_spec Sample.off table_mapper sample_mapper unit unit_vnode Task.sample_selectors 0x5000 None
    TestSample.rodata 0x5F00 3 TestSample.k (TaskSample.pages TestSample.page) 1 SysSample.task TestSample.test_loaded)|].
  - vm_compute. intuition discriminate.
  - vm_compute. intuition discriminate.
  - vm_compute. reflexivity.
  - vm_compute. reflexivity.
  - intros k' [(_ & Hd & _) (shown & Hs & [-> |[Hf _]])]; [split; [exact Hd|exact Hs]|].
    change (nfree (k_mem TestSample.k)) with (nfree SpaceSample.m) in Hf. rewrite SpaceSample.free_frames_sample in Hf. discriminate Hf.
Defined.
