(* ===== verification/Execve.v ===== *)
(** * Starting a program

    [execve] from the file to the new task: the space made by
    [create_isolated_pml4], the segments of the executable, the stack with the
    arguments, and the task that will run it.  This file puts the theorems of the
    parts together.  The kernel runs on a stack of its heap: [execve] works if the new
    space has the heap, and loses its stack if the entry above the heap was opened to
    ring 3 before. *)

From S2P Require Import Prelude KError FrameAlloc Fd X86 Task TaskManager Paging PageTree PageMapper AddrSpace UserMem UserSpace Keyboard Str Vfs Elf Syscall SyscallFacts.

#[local] Open Scope list_scope.

(** ** The new space *)

Section NewSpace.
Context `{HP : Profile} `{HE : EntrySpec} `{HV : VirtAddrSpec} `{HA : PhysAddrSpec} (off : Z).
Context (m : mem) (um : umem) (cr3 : Z) (m' : mem) (p : Z).
Context (Hu : uspace off m cr3 um) (Ht : taken off m m' p).
Context (Hsd : seeded (λ e, negb (e =? 0) && negb (Z.testbit e 2)) (mem_ram m) (mem_ram m') cr3 p).

Lemma new_not_table : p ∉ pt_tables (mem_ram m) 3 cr3.
Proof.
  intros Hin. destruct Ht as (_ & (f & -> & Hf & _ & _ & Hz & _) & _).
  pose proof (proj1 (Forall_forall _ _) (sw_owned _ _ (us_wf _ _ _ _ Hu)) _ Hin) as [_ Ho]. rewrite Z.div_mul in Ho by done. lia.
Qed.

Lemma old_frames x : x ∈ pt_tables (mem_ram m) 3 cr3 → mem_ram m' !! x = mem_ram m !! x.
Proof. intros Hx. destruct Ht as (_ & _ & _ & Hr). apply Hr. intros ->. by apply new_not_table. Qed.

(** An entry was copied or left out. *)
Lemma new_entry j : 0 ≤ j < 512 →
  entry_of (mem_ram m') p j = 0
  ∨ (entry_of (mem_ram m') p j = entry_of (mem_ram m) cr3 j ∧ (j < 256 → Z.testbit (entry_of (mem_ram m) cr3 j) 2 = false)).
Proof.
  intros Hj. destruct Hsd as [Hup Hlo]. destruct (decide (j < 256)).
  - rewrite Hlo by lia. destruct (_ =? 0); cbn [negb andb]; [by left|]. destruct (Z.testbit _ 2) eqn:E; cbn [negb]; [by left|right]. done.
  - right. rewrite Hup by lia. split; [done|lia].
Qed.

Lemma new_items n : (n ≤ 512)%nat →
  items n (λ e, if descends 3 e then pt_tables (mem_ram m') 2 (Z.land e PHYS_MASK) else []) (mem_ram m') p
  `sublist_of` items n (λ e, if descends 3 e then pt_tables (mem_ram m) 2 (Z.land e PHYS_MASK) else []) (mem_ram m) cr3.
Proof.
  induction n as [|n IH]; intros Hn; [done|]. rewrite !items_S. apply sublist_app; [apply IH; lia|].
  destruct (new_entry (Z.of_nat n) ltac:(lia)) as [->|[-> _]]; [apply sublist_nil_l|].
  destruct (descends 3 (entry_of (mem_ram m) cr3 (Z.of_nat n))) eqn:Hd; [|done].
  rewrite (proj1 (walk_ext (mem_ram m) (mem_ram m') 2 _ ltac:(intros x Hx; apply old_frames; by eapply child_tables; [|exact Hd|exact Hx]; lia))). done.
Qed.

Lemma new_tables : ∃ l, pt_tables (mem_ram m') 3 p = p :: l ∧ l `sublist_of` pt_tables (mem_ram m) 3 cr3.
Proof. eexists. split; [reflexivity|]. apply sublist_cons. by apply new_items. Qed.

Lemma idx_lower a : 0 ≤ a < 2 ^ 47 → idx 3 a < 256.
Proof.
  intros Ha. unfold idx. change 511 with (Z.ones 9). rewrite Z.land_ones, Z.shiftr_div_pow2 by lia.
  change (2 ^ (12 + 9 * Z.of_nat 3)) with (2 ^ 39). zlia.
Qed.

(** A path of the new space is a path of the old one through a kernel entry. *)
Lemma new_path a : 0 ≤ a < 2 ^ 47 → let e := entry_of (mem_ram m') p (idx 3 a) in
  e = 0 ∨ (e = entry_of (mem_ram m) cr3 (idx 3 a) ∧ Z.testbit e 2 = false ∧ (Z.testbit e 0 = true →
    leaf_walk (mem_ram m') 2 (Z.land e PHYS_MASK) a = leaf_walk (mem_ram m) 2 (Z.land e PHYS_MASK) a
    ∧ plain_path (mem_ram m') 2 (Z.land e PHYS_MASK) a = plain_path (mem_ram m) 2 (Z.land e PHYS_MASK) a)).
Proof.
  intros Ha e. pose proof (idx_range 3 a) as Hi.
  pose proof (idx_lower a Ha) as H256.
  destruct (new_entry (idx 3 a) Hi) as [|[Ee Hb]]; [by left|right]. split; [done|]. unfold e. rewrite Ee. split; [by apply Hb|].
  intros Hp. assert (descends 3 (entry_of (mem_ram m) cr3 (idx 3 a)) = true) as Hd by (unfold descends; by rewrite Hp).
  destruct (walk_ext (mem_ram m) (mem_ram m') 2 (Z.land (entry_of (mem_ram m) cr3 (idx 3 a)) PHYS_MASK)) as [_ Hw].
  { intros x Hx. apply old_frames. by eapply child_tables; [|exact Hd|exact Hx]. }
  destruct (Hw a) as (? & _ & _ & _ & ?). done.
Qed.

(** What the pages below an entry lead to in the new space: below a kernel entry the
    same as in the old one, below a user entry nothing. *)
Lemma new_walk a : 0 ≤ a < 2 ^ 47 → leaf_walk (mem_ram m') 3 p a =
  if Z.testbit (entry_of (mem_ram m) cr3 (idx 3 a)) 2 then None else leaf_walk (mem_ram m) 3 cr3 a.
Proof.
  intros Ha. assert (∀ r t, leaf_walk r 3 t a = let e := entry_of r t (idx 3 a) in
    if Z.testbit e 0 then leaf_walk r 2 (Z.land e PHYS_MASK) a else None) as Hst by done.
  rewrite !Hst. cbv zeta. pose proof (idx_range 3 a) as Hi. pose proof (idx_lower a Ha) as H256.
  pose proof (new_path a Ha) as Hn. pose proof (proj2 Hsd (idx 3 a) ltac:(lia)) as He. cbv zeta in Hn. rewrite He in Hn |- *.
  destruct (Z.eqb_spec (entry_of (mem_ram m) cr3 (idx 3 a)) 0) as [E|E]; cbn [negb andb] in *.
  { rewrite E. change (Z.testbit 0 2) with false. done. }
  destruct (Z.testbit (entry_of (mem_ram m) cr3 (idx 3 a)) 2); cbn [negb] in *; [done|].
  destruct Hn as [?|(_ & _ & Hw)]; [done|]. destruct (Z.testbit _ 0); [|done]. by destruct (Hw eq_refl).
Qed.

Lemma new_space_wf : space_wf m' p.
Proof.
  destruct new_tables as (l & El & Hsub). pose proof (us_wf _ _ _ _ Hu) as [Hnd Hown Hres]. pose proof Ht as (_ & (f & Ep & Hf & _ & _ & Hz & Hr) & Htot & _).
  split.
  - rewrite El. constructor; [|by eapply sublist_NoDup]. intros Hin. apply new_not_table. by eapply elem_of_sublist.
  - rewrite El. constructor.
    + split; [exists f; split; [done|lia]|]. rewrite Ep, Z.div_mul by done. rewrite Hr by done. by rewrite decide_True.
    + apply Forall_forall. intros x Hx. pose proof (proj1 (Forall_forall _ _) Hown x ltac:(by eapply elem_of_sublist)) as [(g & -> & Hg) Ho].
      split; [exists g; split; [done|lia]|]. rewrite Z.div_mul in * by done. rewrite Hr by done. case_decide; [lia|done].
  - intros i Hi. destruct (new_entry i Hi) as [->|[-> _]]; [done|by apply Hres].
Qed.

(** The new space has no page of a task. *)
Lemma new_uspace : uspace off m' p ∅.
Proof.
  split; [apply Ht|apply new_space_wf|apply views_empty| |].
  - intros a Ha. pose proof (us_plain _ _ _ _ Hu a Ha) as Hpl.
    assert (∀ r t, plain_path r 3 t a = let e := entry_of r t (idx 3 a) in
      (e =? 0) || (Z.testbit e 0 && negb (Z.testbit e 7) && plain_path r 2 (Z.land e PHYS_MASK) a)) as Hst by done.
    rewrite Hst in *. cbv zeta in *.
    destruct (new_path a Ha) as [->|(Ee & _ & Hw)]; [done|]. destruct (Z.testbit (entry_of (mem_ram m') p (idx 3 a)) 0) eqn:E0.
    + destruct (Hw eq_refl) as [_ ->]. rewrite Ee in E0 |- *. by rewrite E0 in *.
    + rewrite Ee in E0 |- *. by rewrite E0 in *.
  - intros a l e Ha Hl Hb. exfalso.
    assert (∀ r t, leaf_walk r 3 t a = let e := entry_of r t (idx 3 a) in
      if Z.testbit e 0 then leaf_walk r 2 (Z.land e PHYS_MASK) a else None) as Hst by done.
    rewrite Hst in Hl. cbv zeta in Hl.
    destruct (new_path a Ha) as [E|(Ee & Hk & Hw)]; [by rewrite E in Hl|].
    destruct (Z.testbit (entry_of (mem_ram m') p (idx 3 a)) 0) eqn:E0; [|done]. destruct (Hw eq_refl) as [Elw _]. rewrite Elw, Ee in Hl.
    assert (leaf_walk (mem_ram m) 3 cr3 a = Some (l, e)) as Hold by (rewrite Hst; cbv zeta; rewrite <- Ee at 1; by rewrite E0).
    destruct (us_complete _ _ _ _ Hu a l e Ha Hold Hb) as [b Hpg]. destruct (uspace_page _ _ _ _ _ _ Hu Hpg) as [f [_ _ _ _ _ _ Hua _]].
    unfold user_accessible in Hua. rewrite (proj1 (walk_page _ a 3 _)) in Hua. cbn [user_walk] in Hua. fold (idx 3 a) in Hua.
    rewrite <- Ee, Hk, andb_false_r in Hua. done.
Qed.

(** Pages that are not below a kernel entry have none. *)
Lemma new_unmapped a : 0 ≤ a < 2 ^ 47 → mapped (mem_ram m) cr3 a = false ∨ Z.testbit (entry_of (mem_ram m) cr3 (idx 3 a)) 2 = true →
  mapped (mem_ram m') p a = false.
Proof.
  intros Ha Hk. assert (∀ r t, slot r t a = let e := entry_of r t (idx 3 a) in
    if descends 3 e then (λ x, entry_of r x (idx 0 a)) <$> leaf_table r 2 (Z.land e PHYS_MASK) a else None) as Hst.
  { intros r t. unfold slot. cbn [leaf_table]. cbv zeta. fold (idx 3 a). by destruct (descends 3 _). }
  unfold mapped in *. rewrite Hst in *. cbv zeta in *.
  destruct (new_path a Ha) as [->|(Ee & Hb & _)]; [done|]. rewrite Ee in Hb |- *. destruct Hk as [Hk|Hk]; [|congruence].
  destruct (descends 3 (entry_of (mem_ram m) cr3 (idx 3 a))) eqn:Hd; [|done]. pose proof (idx_range 3 a) as Hi.
  assert (∀ x, x ∈ pt_tables (mem_ram m) 2 (Z.land (entry_of (mem_ram m) cr3 (idx 3 a)) PHYS_MASK) → mem_ram m' !! x = mem_ram m !! x) as Hx
    by (intros x Hx; apply old_frames; by eapply child_tables; [|exact Hd|exact Hx]).
  destruct (walk_ext _ (mem_ram m') 2 _ Hx) as [_ Hw]. destruct (Hw a) as (_ & -> & _).
  destruct (leaf_table (mem_ram m) 2 _ a) as [x|] eqn:El; [|done]. cbn [fmap option_fmap option_map] in *.
  by rewrite (entry_of_frame (mem_ram m)) by (by eapply Hx, leaf_table_in).
Qed.
End NewSpace.

(** ** The program *)

Section Exec.
Context `{HP : Profile} `{HE : EntrySpec} `{HV : VirtAddrSpec} `{HA : PhysAddrSpec} (off : Z) `{HM : Mapper} `{HMS : !MapperSpec off}.
Context {V : Type} `{HN : VNode V}.
Context (sel : Selectors) (tramp : Z) (stack : option Z).
Implicit Types (k : kernel (V := V)) (um : umem).

(** The memory of a space that was loaded. *)
Lemma loading_uspace img m p m1 um1 : loading off img m p m1 um1 → uspace off m p ∅ → uspace off m1 p um1.
Proof.
  intros [Hm Hs _ _ _ (fm & Hpg & Hinj) _ _ Hkp Hsm _] Hu. split; [done|done| | |].
  - exists fm. split; [|done]. intros q b Hq. by destruct (Hpg q b Hq).
  - intros a Ha. apply Hkp; [done|]. by apply Hu.
  - intros a l e Ha Hl Hb. destruct (um1 !! page_of a) as [b|] eqn:E; [by eexists|]. destruct (Hsm a Ha E) as [Ew _]. rewrite Ew in Hl.
    destruct (us_complete _ _ _ _ Hu a l e Ha Hl Hb) as [x Hx]. by rewrite lookup_empty in Hx.
Qed.

Lemma ubytes_bytes m pml4 um n : uspace off m pml4 um → ∀ a, user_range um a (Z.of_nat n) → Forall (λ x, is_byte x) (ubytes um a n).
Proof.
  intros Hu. induction n as [|n IH]; intros a Hr; cbn [ubytes]; constructor.
  - destruct (uspace_byte _ _ _ _ _ Hu (Hr a ltac:(lia))) as (x & -> & Hx). exact Hx.
  - apply IH. intros i Hi. apply Hr. lia.
Qed.

(** The segments are in memory. *)
Definition segments_at img um : Prop := ∀ i j, 0 ≤ i < e_phnum img → ph_loads img i = true → 0 ≤ j < ph_memsz img i →
  ubyte um (ph_vaddr img i + j) = Some (if j <? ph_filesz img i then nth (Z.to_nat j) (ph_bytes img i) 0 else 0).

(** No page of the program is mapped below a kernel entry of the top-level table,
    and no segment is on the stack page. *)
Definition room_for img m (cr3 : Z) : Prop := ¬ segment_page img USER_STACK_BASE
  ∧ ∀ a, segment_page img a ∨ a = USER_STACK_BASE →
    mapped (mem_ram m) cr3 a = false ∨ Z.testbit (entry_of (mem_ram m) cr3 (idx 3 a)) 2 = true.

(** The pages that are neither of a segment nor the stack page [base] are translated as
    before. *)
Definition elsewhere_same img (base : Z) m m' (p : Z) : Prop := ∀ a, 0 ≤ a < 2 ^ 47 → ¬ segment_page img (page_of a) →
  page_of a ≠ base → leaf_walk (mem_ram m') 3 p a = leaf_walk (mem_ram m) 3 p a.

(** Loading into the new space and mapping the stack page [base]. *)
Lemma load_with_stack base img m p : is_page base → elf_wf img → ¬ segment_page img base → uspace off m p ∅ →
  (∀ a, segment_page img a ∨ a = base → mapped (mem_ram m) p a = false) →
  wp (let* (load_result, m) := load_elf (Some off) img p m in
      stack_page <- virt_new base;;
      let* (res, m) := allocate_and_map_user_page (Some off) p stack_page m in Ret (load_result, res, m))
    (λ '(load_result, res, m'), ∃ um, uspace off m' p um
      ∧ (result_ok res = true → is_Some (um !! base))
      ∧ (result_ok load_result && result_ok res = false → nfree m < 4 * (elf_pages img + 1))
      ∧ match load_result with Ok entry => entry = e_entry img ∧ segments_at img um | Err e => e = MemoryMappingFailed end
      ∧ elsewhere_same img base m m' p).
Proof.
  intros Hsp Helf Hnst Hu Hun.
  assert (load_ready off img p m) as Hready.
  { split; [apply Hu|apply Hu| |intros q Hq; apply Hun; by left]. intros q (i & _ & _ & [Hq _] & _). by apply Hu. }
  wp_step. eapply wp_mono; [by apply load_elf_view|]. intros [load_result m1] (um1 & Hld & Hres & Hcost & Hfew).
  pose proof (loading_uspace _ _ _ _ _ Hld Hu) as Hu1. rewrite virt_new_ok by (left; apply Hsp). cbn [obind]. wp_step.
  eapply wp_mono; [apply (uspace_map off p m1 um1); [done|apply Hsp]|]. intros [res m2] (um2 & Hu2 & _ & _ & _ & Hfew2 & Eum & _ & Hoth). wp_step.
  exists um2. assert (page_of base = base) as Ep by (unfold page_of; by rewrite (proj2 Hsp), Z.sub_0_r).
  rewrite Ep in Eum, Hoth. split; [done|]. split.
  - intros Hok. rewrite Eum, Hok. cbn [andb]. destruct (mapped (mem_ram m1) p base) eqn:Em; cbn [negb].
    + destruct (um1 !! base) eqn:E; [by eexists|]. destruct (ld_same _ _ _ _ _ _ Hld base) as [_ Es]; [apply Hsp|by rewrite Ep|].
      rewrite Es, Hun in Em by (by right). done.
    + rewrite lookup_insert_eq. by eexists.
  - split.
    { destruct (result_ok load_result); [|specialize (Hfew eq_refl); lia]. cbn [andb]. intros Hr. specialize (Hfew2 Hr). lia. }
    split.
    2: { intros a Ha Hns Hnb. destruct (Hoth a Ha Hnb) as [-> _]. apply (ld_same _ _ _ _ _ _ Hld a Ha).
         destruct (um1 !! page_of a) eqn:E; [|done]. destruct Hns. apply (ld_pages _ _ _ _ _ _ Hld). by eexists. }
    destruct load_result as [entry|e]; [|done]. destruct Hres as [-> Hseg]. split; [done|]. intros i j Hi Hl Hj.
    destruct (Hseg i j Hi Hl Hj) as (b & Hb & Hx). unfold ubyte. destruct (ew_segment _ Helf i Hi Hl) as (Hva & Hend & _).
    assert (page_of (ph_vaddr img i + j) ≠ base) as Hne.
    { intros E. apply Hnst. rewrite <- E. exists i. split; [done|]. split; [done|]. split; [apply page_of_page; lia|]. unfold page_of. zlia. }
    rewrite Eum. destruct (result_ok res && _); [rewrite lookup_insert_ne by congruence|]; by rewrite Hb.
Qed.

Lemma load_with_stack_then {B} base img m p (K : result Z ElfError → result unit KernelError → mem → outcome B) (Q : outcome B → Prop) :
  is_page base → elf_wf img → ¬ segment_page img base → uspace off m p ∅ →
  (∀ a, segment_page img a ∨ a = base → mapped (mem_ram m) p a = false) →
  (∀ load_result res m' um, uspace off m' p um → (result_ok res = true → is_Some (um !! base)) →
     (result_ok load_result && result_ok res = false → nfree m < 4 * (elf_pages img + 1)) →
     match load_result with Ok entry => entry = e_entry img ∧ segments_at img um | Err e => e = MemoryMappingFailed end →
     elsewhere_same img base m m' p → Q (K load_result res m')) →
  Q (let* (load_result, m) := load_elf (Some off) img p m in
     stack_page <- virt_new base;;
     let* (res, m) := allocate_and_map_user_page (Some off) p stack_page m in K load_result res m).
Proof.
  intros Hsp Helf Hnst Hu Hun HK. pose proof (load_with_stack base img m p Hsp Helf Hnst Hu Hun) as Hw.
  destruct (load_elf (Some off) img p m) as [[lr m1]|]; [|done]. cbn [obind] in *.
  destruct (virt_new base) as [sp|]; [|done]. cbn [obind] in *.
  destruct (allocate_and_map_user_page (Some off) p sp m1) as [[res m2]|]; [|done]. cbn [obind] in *.
  destruct Hw as (um & ? & ? & ? & ? & ?). by apply (HK lr res m2 um).
Qed.

Definition is_error (v : Z) : Prop := 2 ^ 64 - 4096 < v < 2 ^ 64.

Lemma errno_is_error e : is_error (errno_rax e).
Proof. destruct (KernelError_to_errno_range e) as (_ & _ & Hr). unfold is_error. change (errno_rax e) with (as_u64 (KernelError_to_errno e)). lia. Qed.

Definition STACK_TOP : Z := USER_STACK_BASE + 0x1000.

Lemma stack_page a : USER_STACK_BASE ≤ a < STACK_TOP → page_of a = USER_STACK_BASE.
Proof. unfold STACK_TOP, USER_STACK_BASE, page_of. zlia. Qed.

(** The program is set up: the task runs [img] in the space [p] with the memory
    [um]. *)
Record program_ready img (args : list Z) k k' (p : Z) um (tid : Z) : Prop := {
  pr_space : uspace off (k_mem k') p um;
  pr_segments : segments_at img um;
  pr_strings : ubytes um (strings_at STACK_TOP args) (length args) = args;
  pr_stack : words_at um (stack_at STACK_TOP args)
    (Z.of_nat (length (argv_of STACK_TOP args)) :: argv_of STACK_TOP args ++ [0; 0]);
  pr_task : spawn_dynamic sel tramp (e_entry img) p (stack_at STACK_TOP args) stack (k_next_id k) (k_stacks k) (k_tm k)
    = Ret (k_next_id k', k_stacks k', k_tm k', Ok tid);
}.

Lemma spawn_returns entry p sp next st (tm : TaskManager (node V)) :
  match stack with Some start => 0 ≤ start ∧ start + STACK_SIZE < 2 ^ 64 | None => True end →
  wp (spawn_dynamic sel tramp entry p sp stack next st tm)
     (λ '(_, _, tm', res), match res with Ok _ => True | Err _ => tm' = tm ∧ stack = None end).
Proof.
  intros Hs. unfold spawn_dynamic, spawn_with. destruct stack as [start|]; [|by wp_step]. destruct Hs as [Hs1 Hs2].
  wp_step. eapply wp_mono; [by apply Task_new_spec|]. intros [[next' m'] r] (t & -> & _). by wp_step.
Qed.

(** What [execve] does once the file is found. *)
Lemma exec_finish (no_room : Prop) img m k k0 p um args (load_result : result Z ElfError) : k_tm k0 = k_tm k → k_next_id k0 = k_next_id k → k_stacks k0 = k_stacks k →
  k_mem k0 = m → uspace off m p um → is_Some (um !! USER_STACK_BASE) → Forall (λ x, is_byte x) args →
  USER_STACK_BASE ≤ stack_at STACK_TOP args → elf_wf img → ¬ segment_page img USER_STACK_BASE →
  match load_result with Ok entry => entry = e_entry img ∧ segments_at img um | Err e => e = MemoryMappingFailed end →
  (result_ok load_result = false → no_room) →
  match stack with Some start => 0 ≤ start ∧ start + STACK_SIZE < 2 ^ 64 | None => True end →
  wp (let* (user_stack_top, r) := build_user_stack (mem_ram m) p (USER_STACK_BASE + 0x1000) args in
      let k := set_k_ram k0 r in
      match load_result with
      | Err e => Ret (SysReturn (errno_rax (KernelError_from_ElfError e)), k)
      | Ok entry_point =>
          let* (next, stacks, tm, res) :=
            spawn_dynamic sel tramp entry_point p user_stack_top stack (k_next_id k) (k_stacks k) (k_tm k) in
          let k := mkKernel tm (k_mem k) (k_cr3 k) (k_keys k) (k_vfs k) next stacks (k_console k) in
          Ret (SysReturn match res with Ok i => i | Err kernel_err => errno_rax kernel_err end, k)
      end) (λ '(e, k'), ∃ v, e = SysReturn v ∧ ((is_error v ∧ k_tm k' = k_tm k ∧ (no_room ∨ stack = None)) ∨ ∃ um', program_ready img args k k' p um' v)).
Proof.
  intros Etm Enx Est Em Hu Hst Hby Hfit Helf Hnst Hload Hroom Hstack. wp_step.
  assert (user_range um (stack_at STACK_TOP args) (STACK_TOP - stack_at STACK_TOP args)) as Hr.
  { intros i Hi. by rewrite (stack_page i) by lia. }
  eapply wp_mono; [apply (build_stack_ok off p m um STACK_TOP args); [done|done|unfold USER_STACK_BASE in *; lia|unfold STACK_TOP, USER_STACK_BASE; lia|done]|].
  intros [sp r] (um' & -> & Hu' & _ & Hs & Hw & Ho). cbn [set_k_ram set_k_mem k_next_id k_stacks k_tm]. rewrite Etm, Enx, Est.
  destruct load_result as [entry|e]; [|wp_step; eexists; split; [done|left]; split_and!; [apply errno_is_error|done|left; by apply Hroom]].
  destruct Hload as [-> Hseg].
  pose proof (spawn_returns (e_entry img) p (stack_at STACK_TOP args) (k_next_id k) (k_stacks k) (k_tm k) Hstack) as Hspawn.
  destruct (spawn_dynamic _ _ _ _ _ _ _ _ _) as [[[[next stacks] tm] res]|] eqn:Esp; [|done]. cbn [obind wp] in *. eexists. split; [done|].
  destruct res as [tid|e]; [right|left; split_and!; [apply errno_is_error|apply Hspawn|right; apply Hspawn]]. exists um'. split; [cbn; by rewrite Em| |done|done|done].
  intros i j Hi Hl Hj. rewrite <- (Hseg i j Hi Hl Hj). apply Ho. destruct (ew_segment _ Helf i Hi Hl) as (Hva & Hend & _).
  set (a := ph_vaddr img i + j) in *. assert (¬ (USER_STACK_BASE ≤ a < STACK_TOP)); [|lia]. intros Ha. apply Hnst.
  rewrite <- (stack_page a) by done.
  exists i. split; [done|]. split; [done|]. split; [apply page_of_page; unfold a; lia|]. unfold page_of, a. zlia.
Qed.

(** ** The call *)

(** The name and the arguments [execve] reads: without arguments, or with 4096 bytes and
    more of them, the name takes their place. *)
Definition exec_name um (name : Z) : str := default [] (from_utf8 (until_nul (ubytes um name 64))).
Definition exec_args um (name args alen : Z) : list Z :=
  if (0 <? alen) && (alen <? 4096) then ubytes um args (Z.to_nat alen) else as_bytes (exec_name um name) ++ [0].

(** The call is made with valid pointers on the name of a well-formed executable. *)
Record exec_call b k um (name args alen : Z) img : Prop := {
  xc_kernel : kernel_ok off b k um;
  xc_words : 0 ≤ name < 2 ^ 64 ∧ 0 ≤ args < 2 ^ 64 ∧ 0 ≤ alen < 2 ^ 64;
  xc_name : valid_range um name 64;
  xc_args : 0 < alen → valid_range um args alen;
  xc_file : find_file (k_vfs k) (exec_name um name) = Ret (Some img);
  xc_elf : elf_wf img;
  xc_room : room_for img (k_mem k) (k_cr3 k);
}.

(** The kernel heap is mapped, below a kernel entry of the top-level table. *)
Definition heap_in_kernel (r : ram) (cr3 : Z) : Prop :=
  (∀ a, a ∈ heap_pages → is_Some (leaf_walk r 3 cr3 a)) ∧ Z.testbit (entry_of r cr3 (idx 3 HEAP_START)) 2 = false.

Lemma heap_page_facts a : a ∈ heap_pages →
  0 ≤ a < 2 ^ 47 ∧ idx 3 a = idx 3 HEAP_START ∧ page_of a = a ∧ a ≠ USER_STACK_BASE.
Proof.
  intros Hin%list_elem_of_In.
  assert (forallb (λ a, (0 <=? a) && (a <? 2 ^ 47) && (idx 3 a =? idx 3 HEAP_START) && (page_of a =? a) && negb (a =? USER_STACK_BASE)) heap_pages = true)
    as Hf by (vm_compute; reflexivity).
  apply (proj1 (forallb_forall _ _)) with (x := a) in Hf; [lia|done].
Qed.

(** A page with a leaf on an ordinary path has an entry. *)
Lemma leaf_mapped r pml4 a : plain_path r 3 pml4 a = true → is_Some (leaf_walk r 3 pml4 a) → mapped r pml4 a = true.
Proof.
  intros Hp Hw. assert (is_Some (leaf_table r 3 pml4 a)) as [x Hx].
  { revert Hp Hw. generalize 3%nat as lvl. intros lvl. revert pml4. induction lvl as [|l IH]; intros t Hp Hw; [by eexists|].
    cbn [plain_path leaf_walk leaf_table] in *. fold (idx (S l) a) in *. destruct (Z.eqb_spec (entry_of r t (idx (S l) a)) 0) as [E|E].
    - rewrite E in Hw. by destruct Hw.
    - cbn [orb] in Hp. apply andb_prop in Hp as [[Hb0 Hb7%negb_true_iff]%andb_prop Hp]. unfold descends. rewrite Hb0, Hb7 in *.
      rewrite andb_false_r in Hw |- *. by apply IH. }
  unfold mapped, slot. rewrite Hx. cbn [fmap option_fmap option_map].
  destruct (leaf_walk_slot r 3 a x pml4 Hx) as [El _]. rewrite El in Hw. cbv zeta in Hw.
  destruct (Z.eqb_spec (entry_of r x (idx 0 a)) 0) as [E|E]; [rewrite E in Hw; by destruct Hw|done].
Qed.

Lemma until_nul_bytes l : Forall (λ x, is_byte x) l → Forall (λ x, is_byte x) (until_nul l).
Proof. induction 1 as [|c l Hc _ IH]; cbn [until_nul]; [done|]. by destruct (c =? 0); constructor. Qed.

Lemma exec_args_bytes b k um name args alen img : exec_call b k um name args alen img → Forall (λ x, is_byte x) (exec_args um name args alen).
Proof.
  intros [Hk (_ & _ & Hal) Hn Ha _ _ _]. pose proof (ko_space _ _ _ _ Hk) as Hu. unfold exec_args.
  destruct (Z.ltb_spec 0 alen); cbn [andb]; [destruct (Z.ltb_spec alen 4096)|].
  { eapply ubytes_bytes; [done|]. eapply valid_range_user; [by apply Ha|lia]. }
  all: apply Forall_app; (split; [|repeat constructor; lia]).
  all: unfold exec_name; destruct (from_utf8 _) as [s|] eqn:E; [|constructor]; change (default [] (Some s)) with s.
  all: rewrite (as_bytes_from_utf8 _ _ s (le_n _) E).
  all: apply until_nul_bytes; eapply ubytes_bytes; [done|]; eapply valid_range_user; [done|lia].
Qed.

(** [execve] up to the switch of the address space. *)
Lemma execve_to_switch b k um name args alen img (Q : outcome (sys_end * kernel (V := V)) → Prop) :
  exec_call b k um name args alen img →
  (∀ v k', is_error v → k_tm k' = k_tm k → nfree (k_mem k) < 1 + 4 * (elf_pages img + 1) → Q (Ret (SysReturn v, k'))) →
  (∀ p m1 m2 um2 load_result, taken off (k_mem k) m1 p →
     seeded (λ e, negb (e =? 0) && negb (Z.testbit e 2)) (mem_ram (k_mem k)) (mem_ram m1) (k_cr3 k) p →
     uspace off m2 p um2 → is_Some (um2 !! USER_STACK_BASE) →
     (result_ok load_result = false → nfree (k_mem k) < 1 + 4 * (elf_pages img + 1)) →
     match load_result with Ok entry => entry = e_entry img ∧ segments_at img um2 | Err e => e = MemoryMappingFailed end →
     elsewhere_same img USER_STACK_BASE m1 m2 p →
     Q (_ <- switch_cr3 (mem_ram (k_mem k)) (k_cr3 k) (mem_ram m2) p;;
        let* (user_stack_top, r) := build_user_stack (mem_ram m2) p (USER_STACK_BASE + 0x1000) (exec_args um name args alen) in
        let k := set_k_ram (set_k_mem k m2) r in
        match load_result with
        | Err e => Ret (SysReturn (errno_rax (KernelError_from_ElfError e)), k)
        | Ok entry_point =>
            let* (next, stacks, tm, res) :=
              spawn_dynamic sel tramp entry_point p user_stack_top stack (k_next_id k) (k_stacks k) (k_tm k) in
            let k := mkKernel tm (k_mem k) (k_cr3 k) (k_keys k) (k_vfs k) next stacks (k_console k) in
            Ret (SysReturn match res with Ok i => i | Err kernel_err => errno_rax kernel_err end, k)
        end)) →
  Q (sys_execve (Some off) sel tramp stack k name args alen).
Proof.
  intros [Hk (Hn & Ha & Hal) Hvn Hva Hfile Helf [Hnst Hroom]] Herr Hgo. pose proof (ko_space _ _ _ _ Hk) as Hu. unfold sys_execve.
  destruct (wp_inv _ _ (valid_memory off k um name 64 Hu Hn ltac:(lia))) as (v & -> & Hv).
  assert (v = true) as -> by (by apply Hv). cbn [obind negb].
  assert ((if 0 <? alen then is_valid_user_memory (Some off) k args alen else Ret true) = Ret true) as ->.
  { destruct (Z.ltb_spec 0 alen); [|done]. destruct (wp_inv _ _ (valid_memory off k um args alen Hu Ha Hal)) as (v & -> & Hv2).
    f_equal. apply Hv2. auto. }
  cbn [obind negb]. rewrite (user_name_ok off b k um name 64) by (done || lia). cbn [obind]. fold (exec_name um name).
  assert ((if (0 <? alen) && (alen <? 4096) then load_bytes (mem_ram (k_mem k)) (k_cr3 k) args (Z.to_nat alen)
           else Ret (as_bytes (exec_name um name) ++ [0])) = Ret (exec_args um name args alen)) as ->.
  { unfold exec_args. destruct (Z.ltb_spec 0 alen); cbn [andb]; [|done]. destruct (Z.ltb_spec alen 4096); [|done].
    apply (copy_in off b k um args alen); first [done|lia|auto]. }
  cbn [obind]. rewrite Hfile. cbn [obind].
  pose proof (proj1 (Forall_forall _ _) (sw_owned _ _ (us_wf _ _ _ _ Hu)) (k_cr3 k) ltac:(left)) as [Hman Hrefs].
  destruct (wp_inv _ _ (create_isolated_ok off (k_cr3 k) (k_mem k) (us_ok _ _ _ _ Hu) Hman Hrefs)) as ([o m] & -> & Ho).
  cbn [obind]. pose proof (elf_pages_nonneg img Helf) as Hpn. destruct o as [p|].
  2: { apply Herr; [unfold is_error, neg; lia|done|]. rewrite (free_frames_none _ (proj2 Ho)). lia. }
  destruct Ho as (Htk & Hsd & _). pose proof (taken_free _ _ _ _ (us_ok _ _ _ _ Hu) Htk) as Hfr.
  apply (load_with_stack_then USER_STACK_BASE img m p); [unfold USER_STACK_BASE; split; [lia|done]|done|done|by eapply new_uspace| |].
  { intros q Hq. eapply new_unmapped; [done|done|done| |by apply Hroom]. destruct Hq as [(i & _ & _ & [Hq _] & _)| ->]; [done|unfold USER_STACK_BASE; lia]. }
  intros load_result res m2 um2 Hu2 Hst Hfew Hload Hsame. destruct res as [[]|e].
  - apply (Hgo p m m2 um2 load_result); try done; [by apply Hst|]. intros Hlr. rewrite Hlr in Hfew. specialize (Hfew eq_refl). lia.
  - apply Herr; [apply errno_is_error|done|]. rewrite andb_false_r in Hfew. specialize (Hfew eq_refl). lia.
Qed.

(** The heap is where it was in the new space, if it is the kernel's. *)
Lemma heap_reached_new b k um name args alen img p m1 m2 : exec_call b k um name args alen img →
  heap_in_kernel (mem_ram (k_mem k)) (k_cr3 k) → taken off (k_mem k) m1 p →
  seeded (λ e, negb (e =? 0) && negb (Z.testbit e 2)) (mem_ram (k_mem k)) (mem_ram m1) (k_cr3 k) p →
  elsewhere_same img USER_STACK_BASE m1 m2 p →
  heap_reached (mem_ram (k_mem k)) (k_cr3 k) (mem_ram m2) p = true.
Proof.
  intros [Hk _ _ _ _ _ [_ Hroom]] [Hmap Hker] Htk Hsd Hsame. pose proof (ko_space _ _ _ _ Hk) as Hu. unfold heap_reached.
  apply forallb_forall. intros a Hin%list_elem_of_In. destruct (heap_page_facts a Hin) as (Ha & Hidx & Hpg & Hst).
  destruct (Hmap a Hin) as [e He]. rewrite He. apply bool_decide_eq_true.
  rewrite Hsame; [|done| |by rewrite Hpg].
  - erewrite new_walk by done. by rewrite Hidx, Hker.
  - rewrite Hpg. intros Hseg. destruct (Hroom a (or_introl Hseg)) as [Hm|Hm]; [|rewrite Hidx in Hm; congruence].
    rewrite leaf_mapped in Hm; [done|by apply Hu|by eexists].
Qed.

(** C2: [execve] starts a program.  For a path that names a well-formed executable of the
    boot archive, valid pointers, and arguments that fit the stack page, [execve]
    returns.  The conditions on the current space: the kernel heap is mapped in it below
    a kernel entry of the top-level table, and no page of the program is (the stack page
    is not one of the program's).  It returns the id of a task that was spawned with the
    executable's entry point, a space of its own and a stack pointer, such that in that
    space the task's memory holds all segments of the executable, the argument strings,
    and at the stack pointer the number of arguments, the pointers to them and two null
    words.  The arguments are those of the call, or the name if they are none or 4096
    bytes and more.  It returns an error, and adds no task, only if the heap has no
    kernel stack left or fewer frames are free than one for the top-level table and four
    per page of the segments and the stack. *)
Theorem sys_execve_starts b k um name args alen img : exec_call b k um name args alen img →
  heap_in_kernel (mem_ram (k_mem k)) (k_cr3 k) →
  USER_STACK_BASE ≤ stack_at STACK_TOP (exec_args um name args alen) →
  match stack with Some start => 0 ≤ start ∧ start + STACK_SIZE < 2 ^ 64 | None => True end →
  wp (sys_execve (Some off) sel tramp stack k name args alen) (λ '(e, k'), ∃ v, e = SysReturn v
    ∧ ((is_error v ∧ k_tm k' = k_tm k ∧ (nfree (k_mem k) < 1 + 4 * (elf_pages img + 1) ∨ stack = None))
       ∨ ∃ p um', program_ready img (exec_args um name args alen) k k' p um' v)).
Proof.
  intros Hx Hheap Hfit Hstack. apply (execve_to_switch b k um name args alen img (λ o, wp o _)); [done| |].
  { intros v k' He Ht Hn. cbn [wp]. exists v. split; [done|left]. by split_and!; [..|left]. }
  intros p m1 m2 um2 load_result Htk Hsd Hu2 Hst Hfew Hload Hsame. unfold switch_cr3.
  rewrite (heap_reached_new b k um name args alen img p m1 m2) by done. cbn [obind].
  eapply wp_mono; [apply (exec_finish (nfree (k_mem k) < 1 + 4 * (elf_pages img + 1)) img m2 k (set_k_mem k m2) p um2); try done|].
  - by eapply exec_args_bytes.
  - apply Hx.
  - apply Hx.
  - intros [e k'] (w & -> & [?|[um' ?]]); exists w; (split; [done|]); [by left|right]. by exists p, um'.
Qed.

End Exec.

(** ** Witnesses *)

Module ExecSample.
(** The task of [SysSample] with the kernel heap in its space: the tables of the heap are
    the frames 10 to 12, its pages are above the memory of the sample; [flags] are those
    of the entry of the top-level table above it. *)
Definition frames : BitmapFrameAllocator :=
  mkAlloc [63; 30; 0; 0; 0; 0] ([1; 1; 1; 1; 1; 2; 0; 0; 0; 1; 1; 1; 1] ++ replicate 35 0) 48 6.
Definition heap_table : list Z :=
  Sample.table (map (λ j, (64 + Z.of_nat j, 0x100000 + Z.of_nat j * FRAME_SIZE + 3)) (seq 0 256)).
Definition contents (flags : Z) : list (list Z) :=
  [zero_frame; Sample.table [(0, 0x2007); (136, 0xA000 + flags); (256, 0x9003)]; Sample.table [(0, 0x3007)];
   Sample.table [(0, 0x4007)]; Sample.table [(5, 0x5007)]; SysSample.page; zero_frame; zero_frame; zero_frame; zero_frame;
   Sample.table [(273, 0xB003)]; Sample.table [(34, 0xC003)]; heap_table] ++ replicate 35 zero_frame.
Definition memory (flags : Z) : ram :=
  list_to_map (imap (λ i b, (Z.of_nat i * FRAME_SIZE, b)) (contents flags)).
Definition m (flags : Z) : mem := mkMem frames (memory flags).
Definition k (flags : Z) : kernel := mkKernel SysSample.tasks (m flags) 4096 ring_init SysSample.files 2 ∅ [].

Lemma exec_mem_ok flags : flags = 3 ∨ flags = 7 → mem_ok Sample.off (m flags).
Proof.
  intros Hf. split.
  - apply wf_check_sound. vm_compute. reflexivity.
  - vm_compute. discriminate.
  - right. vm_compute. split; [discriminate|reflexivity].
  - intros p Hp. change (total_frames (mem_alloc (m flags)) * FRAME_SIZE) with 196608 in Hp. right. unfold Sample.off. lia.
  - intros f Hfr. apply Sample.frame_okb_sound.
    apply (all_below_spec 48 (λ f, Sample.frame_okb (memory flags) (f * FRAME_SIZE))); [|exact Hfr].
    destruct Hf as [-> | ->]; vm_compute; reflexivity.
Qed.

Definition tables : list Z := [0x1000; 0x2000; 0x3000; 0x4000; 0xA000; 0xB000; 0xC000; 0x9000].
Lemma exec_tables_eq flags : flags = 3 ∨ flags = 7 → pt_tables (memory flags) 3 4096 = tables.
Proof. intros [-> | ->]; vm_compute; reflexivity. Qed.

Lemma exec_space_wf flags : flags = 3 ∨ flags = 7 → space_wf (m flags) 4096.
Proof.
  intros Hf. split; cbn [m mem_ram mem_alloc].
  - rewrite exec_tables_eq by done. apply (bool_decide_unpack _). vm_compute. exact I.
  - rewrite exec_tables_eq by done. apply Forall_forall. intros x Hx.
    assert (x / FRAME_SIZE * FRAME_SIZE = x ∧ 0 ≤ x / FRAME_SIZE < 48 ∧ 0 < refs frames (x / FRAME_SIZE)) as (E & Hr & Ho).
    { unfold tables in Hx. repeat (apply elem_of_cons in Hx as [->|Hx]; [vm_compute; intuition discriminate|]). by apply not_elem_of_nil in Hx. }
    split; [|done]. exists (x / FRAME_SIZE). split; [by rewrite E|exact Hr].
  - intros i Hi. apply (all_below_spec 512 (λ i, negb (Z.testbit (entry_of (memory flags) 4096 i) 7))) in Hi;
      [by apply negb_true_iff|]. destruct Hf as [-> | ->]; vm_compute; reflexivity.
Qed.

Lemma page_fine flags : flags = 3 ∨ flags = 7 → page_of_task (m flags) 4096 0x5000 5 SysSample.page.
Proof.
  intros Hf. split; [split; [lia|reflexivity]|..].
  4: { cbn [m mem_ram]. rewrite exec_tables_eq by done. apply (bool_decide_unpack _). vm_compute. exact I. }
  all: destruct Hf as [-> | ->]; vm_compute; first [reflexivity|exact I|split; [discriminate|reflexivity]|split; reflexivity].
Qed.

Lemma space_fine flags : flags = 3 ∨ flags = 7 → uspace Sample.off (m flags) 4096 SysSample.pages.
Proof.
  intros Hf. assert (∀ a, plain_path (memory flags) 3 4096 a = true) as Hplain.
  { intros a. apply plain_tree_sound. destruct Hf as [-> | ->]; vm_compute; reflexivity. }
  change SysSample.pages with ({[0x5000 := SysSample.page]} : umem).
  split; [by apply exec_mem_ok|by apply exec_space_wf| |intros a _; apply Hplain|].
  - exists (λ _, 5). split.
    + intros p b Hp. apply lookup_singleton_Some in Hp as [<- <-]. by apply page_fine.
    + intros p q [b Hp] [c Hq] _. apply lookup_singleton_Some in Hp as [<- _], Hq as [<- _]. reflexivity.
  - intros a l e Ha Hw Hb. apply (leaves_sound _ _ _ _ 3 4096 0 (Hplain a)) in Hw. rewrite page_part_page in Hw by done.
    assert (forallb (λ '(q, x), negb (Z.testbit x 2) || (q =? 0x5000)) (leaves (memory flags) 3 4096 0) = true) as El
      by (destruct Hf as [-> | ->]; vm_compute; reflexivity).
    apply list_elem_of_In in Hw. apply (proj1 (forallb_forall _ _) El) in Hw. rewrite Hb in Hw. cbn [negb orb] in Hw.
    apply Z.eqb_eq in Hw. rewrite Z.add_0_l in Hw. rewrite Hw. eexists. apply lookup_singleton_eq.
Qed.

Lemma exec_kernel_fine flags : flags = 3 ∨ flags = 7 → @kernel_ok Sample.off unit unit_vnode 3 (k flags) SysSample.pages.
Proof.
  intros Hf. destruct SysSample.kernel_fine as [_ Hk Hv Ht Hc]. split; [by apply space_fine|exact Hk|exact Hv|exact Ht|exact Hc].
Qed.

Lemma call_fine flags : flags = 3 ∨ flags = 7 →
  @exec_call true Sample.off unit unit_vnode 3 (k flags) SysSample.pages 0x5100 0x5200 5 ElfSample.img.
Proof.
  intros Hf. split.
  - by apply exec_kernel_fine.
  - lia.
  - apply SysSample.page_valid; lia.
  - intros _. apply SysSample.page_valid; lia.
  - vm_compute. reflexivity.
  - exact ElfSample.img_wf.
  - split; [intros H%ElfSample.only_page; discriminate|].
    intros a [->%ElfSample.only_page| ->]; [right|left]; destruct Hf as [-> | ->]; vm_compute; reflexivity.
Qed.

Lemma heap_fine : heap_in_kernel (memory 3) 4096.
Proof.
  split; [|vm_compute; reflexivity]. intros a Hin%list_elem_of_In.
  assert (forallb (λ a, match leaf_walk (memory 3) 3 4096 a with Some _ => true | None => false end) heap_pages = true) as E
    by (vm_compute; reflexivity).
  pose proof (proj1 (forallb_forall _ _) E a Hin) as Ha. cbv beta in Ha. clear E. revert Ha.
  generalize (leaf_walk (memory 3) 3 4096 a) as o. intros [x|] Ha; [by exists x|discriminate Ha].
Qed.
End ExecSample.

Lemma sys_execve_starts_witness :
  wp (@sys_execve true checked_virt_new masked_phys_new x86_entries table_mapper unit (Some Sample.off) Task.sample_selectors 0x5000
        (Some 0x100000) (ExecSample.k 3) 0x5100 0x5200 5)
     (λ '(e, k'), ∃ v p um', e = SysReturn v ∧ uspace Sample.off (k_mem k') p um' ∧ ubyte um' 0x6012 = Some 0x0F).
Proof.
  eapply wp_mono; [apply (@sys_execve_starts true x86_entries x86_entries_spec checked_virt_new checked_virt_new_spec masked_phys_new
    masked_phys_new_spec Sample.off table_mapper sample_mapper unit unit_vnode Task.sample_selectors 0x5000 (Some 0x100000)
    3 (ExecSample.k 3) SysSample.pages 0x5100 0x5200 5 ElfSample.img (ExecSample.call_fine 3 (or_introl eq_refl)) ExecSample.heap_fine)|].
  - vm_compute. discriminate.
  - unfold STACK_SIZE. lia.
  - intros [e k'] (v & -> & [(_ & _ & [Hfew|Hno])|(p & um' & [Hs Hseg _ _ _])]).
    + vm_compute in Hfew. discriminate Hfew.
    + discriminate Hno.
    + exists v, p, um'. split; [reflexivity|]. split; [exact Hs|].
      exact (Hseg 0 2 ltac:(vm_compute; split; [discriminate|reflexivity]) eq_refl ltac:(vm_compute; split; [discriminate|reflexivity])).
Defined.

