(* ===== verification/Boot.v ===== *)
(** * Boot: the file system, the processor and the first tasks
    ([init_multitasking] of src/src/task/mod.rs, [init_filesystem] of
    src/src/fs/mod.rs, src/src/core/cpu.rs)

    The last steps of the bring-up, put together from the components.

    The theorems: a spawned task joins a sound machine without disturbing it;
    [init_multitasking] leaves a machine on which the scheduler can start: the
    reaper first, then the shell with its segments in memory. *)

From S2P Require Import Prelude KError FrameAlloc Fd X86 Task TaskManager Scheduler Paging PageTree PageMapper AddrSpace UserMem UserSpace Keyboard Str Vfs Elf Syscall SyscallFacts Execve.

#[local] Open Scope list_scope.

(** ** The code *)

Section Init.
Context `{Profile} `{VirtAddrNew} `{PhysAddrNew} `{EntryOps} `{Mapper} {V : Type}.
Context (hhdm : option Z) (sel : Selectors) (tramp reaper_entry : Z).

(** [init_multitasking] on the statics it changes: the task manager, the counter of
    task ids, the stack memory and the page tables.  [stack1] and [stack2] are the
    heap's answers to the two stack reservations; [cr3] is the boot space.  Left out
    are the two log lines and the final [idt::reload], which loads the table that is
    loaded already. *)
Definition init_multitasking (stack1 stack2 : option Z) (cr3 : Z) (v : vfs V) (t : TaskManager (node V))
    (next : Z) (st : memory) (m : mem) : outcome (TaskManager (node V) * Z * memory * mem) :=
  let* (next, st, t, r) := spawn sel tramp reaper_entry cr3 KernelMode stack1 next st t in
  match r with
  | Err _ => Stop Panic
  | Ok _ =>
      o <- find_file v (lit "shell.elf");;
      match o with
      | None => Stop Panic
      | Some elf_slice =>
          let* (o, m) := create_isolated_pml4 hhdm cr3 m in
          match o with
          | None => Stop Panic
          | Some target_pml4 =>
              let* (load_result, m) := load_elf hhdm elf_slice target_pml4 m in
              let user_stack_base := 0x800000 in
              let user_stack_top := user_stack_base + 0x1000 in
              page <- virt_new user_stack_base;;
              let* (_, m) := allocate_and_map_user_page hhdm target_pml4 page m in
              match load_result with
              | Err _ => Stop Panic
              | Ok entry_point =>
                  let* (next, st, t, r) := spawn_dynamic sel tramp entry_point target_pml4 user_stack_top stack2 next st t in
                  match r with Err _ => Stop Panic | Ok _ => Ret (t, next, st, m) end
              end
          end
      end
  end.
End Init.

(** [fs::init_filesystem]: [modules] is the bootloader's response, each module given
    by its bytes. *)
Definition init_filesystem `{Profile} {V} (modules : option (list (list Z))) (v : vfs V) : outcome (vfs V) :=
  match modules with
  | Some (tar :: _) => build_vfs_tree_from_tar (vfs_init v tar)
  | Some [] => Ret v
  | None => Ret v
  end.

(** [cpu::init] on CR0, CR4 and the APIC base register. *)
Definition EMULATE_COPROCESSOR : Z := Z.shiftl 1 2.
Definition MONITOR_COPROCESSOR : Z := Z.shiftl 1 1.
Definition OSFXSR : Z := Z.shiftl 1 9.
Definition OSXMMEXCPT_ENABLE : Z := Z.shiftl 1 10.

Definition cpu_init (cr0 cr4 apic_base : Z) : Z * Z * Z :=
  let cr0 := Z.land cr0 (unot 64 EMULATE_COPROCESSOR) in
  let cr0 := Z.lor cr0 MONITOR_COPROCESSOR in
  let cr4 := Z.lor cr4 OSFXSR in
  let cr4 := Z.lor cr4 OSXMMEXCPT_ENABLE in
  (cr0, cr4, Z.land apic_base (unot 64 (Z.shiftl 1 11))).

(** A bit of [cpu_init]'s results: set, cleared or kept. *)
Lemma cpu_init_bits cr0 cr4 apic k : 0 ≤ k → 0 ≤ cr0 < 2 ^ 64 → 0 ≤ cr4 < 2 ^ 64 → 0 ≤ apic < 2 ^ 64 →
  let '(cr0', cr4', apic') := cpu_init cr0 cr4 apic in
  Z.testbit cr0' k = ((k =? 1) || Z.testbit cr0 k && negb (k =? 2))
  ∧ Z.testbit cr4' k = ((k =? 10) || ((k =? 9) || Z.testbit cr4 k))
  ∧ Z.testbit apic' k = (Z.testbit apic k && negb (k =? 11)).
Proof.
  intros Hk H1 H2 H3. unfold cpu_init, EMULATE_COPROCESSOR, MONITOR_COPROCESSOR, OSFXSR, OSXMMEXCPT_ENABLE.
  rewrite !land_unot by (cbn; lia). rewrite !mask_set, !Z.ldiff_spec, !one_bit by lia. done.
Qed.

(** The boot archive can be searched once the file system is initialised. *)
Lemma init_filesystem_finds `{Profile} {V} ms trail rest (v : vfs V) name : Forall member_wf ms → Z.of_nat (length (archive ms trail)) < 2 ^ 63 →
  wp (init_filesystem (Some (archive ms trail :: rest)) v) (λ v', find_file v' name = Ret (assoc name ms)).
Proof.
  intros Hwf Hlen. cbn [init_filesystem]. rewrite (build_vfs_tree_spec _ ms trail) by done. cbn [wp].
  apply (find_file_archive _ ms trail); try done. by destruct (fields_fold (vfs_init v (archive ms trail)) ms) as [-> _].
Qed.

(** ** A new task on a running machine *)

Section Spawn.
Context `{HP : Profile} {V : Type}.
Implicit Types (m : machine V) (c : cpu) (t u : Task V).

(** A stack the heap can give to a new task: away from the stacks of the other tasks
    and from the one in use. *)
Record fresh_stack m c (start : Z) : Prop := {
  fs_low : 0 < start;
  fs_high : start + STACK_SIZE < 2 ^ 64 - 64;
  fs_canonical : canonical (start + STACK_SIZE);
  fs_disjoint : ∀ i u, task_registry (tm m) !! i = Some u →
    stack_end u ≤ start ∨ start + STACK_SIZE ≤ stack_start u;
  fs_cpu : regs c RSP ≤ start ∨ start + STACK_SIZE ≤ regs c RSP - 64;
}.

(** Before the first task. *)
Lemma machine_ok_empty m c : tm m = TaskManager_empty → regs c RSP mod 8 = 0 → 64 ≤ regs c RSP < 2 ^ 64 → machine_ok m c.
Proof.
  intros Htm Ha Hr. assert (∀ i u, task_registry (tm m) !! i = Some u → False) as Hno.
  { intros i u Hu. rewrite Htm in Hu. change ((∅ : gmap Z (Task V)) !! i = Some u) in Hu. by rewrite lookup_empty in Hu. }
  split.
  - rewrite Htm. apply tm_inv_empty.
  - intros i u []%Hno.
  - intros i j u v _ []%Hno.
  - intros i u ([]%Hno & _).
  - done.
  - intros i u _ []%Hno.
  - intros _ i u ([]%Hno & _).
Qed.

Lemma new_task_framed sel tramp entry priv ust t (mm : memory) : 0 < stack_start t → stack_end t = stack_start t + STACK_SIZE →
  rsp t = stack_end t - stack_end t mod 16 - 8 * Z.of_nat (length (initial_words sel tramp entry priv ust)) →
  words mm (rsp t) (initial_words sel tramp entry priv ust) → framed t mm.
Proof.
  intros Hs He Hr Hw. unfold STACK_SIZE in *.
  assert (rsp t mod 8 = 0 ∧ stack_start t ≤ rsp t ∧ rsp t + 64 ≤ stack_end t) as (? & ? & ?).
  { rewrite Hr. destruct priv; cbn [initial_words frame_words app rev length]; zlia. }
  split_and!; try done. exists 0x202, (replicate 6 0), (match priv with KernelMode => entry | UserMode => tramp end).
  split; [done|]. destruct priv; cbn [initial_words frame_words app rev words replicate] in *; tauto.
Qed.

(** Registering a task whose stack is set up, at memory [mm]. *)
Lemma machine_ok_register m c mm t : machine_ok m c → task_registry (tm m) !! id t = None → fresh_stack m c (stack_start t) →
  stack_end t = stack_start t + STACK_SIZE → framed t mm →
  (∀ a, ¬ stack_start t ≤ a < stack_start t + STACK_SIZE → mm !! a = X86.mem c !! a) →
  machine_ok (set_tm m (register (tm m) t)) (with_mem c mm).
Proof.
  intros Hok Hnew [Hlo Hhi Hcan Hdj Hcpu] Hend Hfr Hout. unfold STACK_SIZE in *.
  assert (task_registry (register (tm m) t) = <[id t := t]> (task_registry (tm m))) as Hreg
    by (unfold register; by rewrite registry_set_task_state).
  assert (current_task (register (tm m) t) = current_task (tm m)) as Hcur
    by (unfold register; by rewrite current_set_task_state).
  assert (∀ i u, task_registry (register (tm m) t) !! i = Some u → (i = id t ∧ u = t) ∨ (i ≠ id t ∧ task_registry (tm m) !! i = Some u)) as Hcase.
  { intros i u. rewrite Hreg. intros [[<- <-]|[? ?]]%lookup_insert_Some; [by left|by right]. }
  assert (∀ i u, i ≠ id t → parked (register (tm m) t) i u → parked (tm m) i u) as Hpk.
  { intros i u Hi (Hu & Hd & Hc). unfold register in Hd. rewrite states_set_task_state, lookup_insert_ne in Hd by done.
    rewrite Hcur in Hc. destruct (Hcase i u Hu) as [[? _]|[_ ?]]; [done|]. by split_and!. }
  split; cbn [tm set_tm]; rewrite ?Hcur.
  - by apply tm_inv_register, Hok.
  - intros i u [[-> ->]|[_ Hu]]%Hcase; [|by eapply mo_stacks]. unfold stack_ok. rewrite Hend. split_and!; try done; lia.
  - intros i j u v Hij [[-> ->]|[Hi Hu]]%Hcase [[-> ->]|[Hj Hv]]%Hcase; [done| | |by eapply (mo_disjoint _ _ Hok i j)].
    + pose proof (Hdj _ _ Hv). unfold disjoint_stacks. lia.
    + pose proof (Hdj _ _ Hu). unfold disjoint_stacks. lia.
  - intros i u Hp. cbn [X86.mem with_mem]. destruct (decide (i = id t)) as [->|Hi].
    { destruct (Hcase _ _ (proj1 Hp)) as [[_ ->]|[? _]]; done. }
    apply Hpk in Hp as Hp'; [|done]. pose proof (mo_frames _ _ Hok i u Hp') as Hf.
    apply (framed_mem u (X86.mem c)); [done|]. intros a Ha. apply Hout. destruct Hf as (_ & ? & ? & _).
    pose proof (Hdj _ _ (proj1 Hp')). lia.
  - apply Hok.
  - intros i u Hc [[-> ->]|[_ Hu]]%Hcase; [|by apply (mo_on _ _ Hok i u)].
    destruct (inv_current_registered _ _ (mo_inv _ _ Hok) Hc) as [v Hv]. congruence.
  - intros Hc i u Hp. destruct (decide (i = id t)) as [->|Hi].
    + destruct (Hcase _ _ (proj1 Hp)) as [[_ ->]|[? _]]; [|done]. unfold off_stack. cbn [regs with_mem]. rewrite Hend. lia.
    + by eapply (Scheduler.mo_off _ _ Hok Hc i u), Hpk.
Qed.

Lemma machine_ok_spawn sel tramp entry pml4 priv ust start next m c : machine_ok m c →
  task_registry (tm m) !! next = None → fresh_stack m c start →
  wp (spawn_with sel tramp entry pml4 priv ust (Some start) next (X86.mem c) (tm m)) (λ '(next', mm, t', r),
    r = Ok next ∧ next' = wrap 64 (next + 1) ∧ machine_ok (set_tm m t') (with_mem c mm)
    ∧ ∃ t, t' = register (tm m) t ∧ id t = next ∧ privilege t = priv ∧ pml4_frame t = pml4
      ∧ stack_start t = start ∧ stack_end t = start + STACK_SIZE
      ∧ rsp t = stack_end t - stack_end t mod 16 - 8 * Z.of_nat (length (initial_words sel tramp entry priv ust))
      ∧ words mm (rsp t) (initial_words sel tramp entry priv ust)
      ∧ ∀ a, ¬ start ≤ a < start + STACK_SIZE → mm !! a = X86.mem c !! a).
Proof.
  intros Hok Hnew Hfs. pose proof Hfs as [Hlo Hhi _ _ _]. unfold spawn_with. wp_step.
  eapply wp_mono; [apply Task_new_spec; lia|cbv beta]. intros [[next' mm] r].
  intros (t & -> & -> & Hid & _ & Hpml & Hpriv & Hss & Hse & Hrsp & Hw & Hout). wp_step.
  split_and!; [by rewrite Hid|done| |exists t; by split_and!].
  rewrite <- Hss in *. apply machine_ok_register; try done; [by rewrite Hid|].
  by eapply (new_task_framed sel tramp entry priv ust).
Qed.
End Spawn.

(** ** The first tasks *)

Section Boot.
Context `{HP : Profile} `{HE : EntrySpec} `{HV : VirtAddrSpec} `{HA : PhysAddrSpec} (off : Z) `{HM : Mapper} `{HMS : !MapperSpec off}.
Context {V : Type} `{HN : VNode V}.
Context (sel : Selectors) (tramp reaper_entry : Z).
Implicit Types (b : machine (node V)) (c : cpu).

Definition SHELL_STACK : Z := 0x800000.

(** The stack of the shell and its segments are away from the kernel. *)
Definition shell_room (img : list Z) (m : mem) (cr3 : Z) : Prop := ¬ segment_page img SHELL_STACK
  ∧ ∀ a, segment_page img a ∨ a = SHELL_STACK →
    mapped (mem_ram m) cr3 a = false ∨ Z.testbit (entry_of (mem_ram m) cr3 (idx 3 a)) 2 = true.

(** Fewer frames are free than the shell's space may need. *)
Definition no_memory (img : list Z) (m : mem) : Prop := nfree m < 1 + 4 * (elf_pages img + 1).

(** The machine the scheduler starts on: the reaper and the shell are queued, each
    with its first frame on its own stack, and the shell's memory is loaded.  [m] is
    the memory before. *)
Record booted (img : list Z) b c (m : mem) (cr3 : Z) (t' : TaskManager (node V)) (st' : memory) (m' : mem) : Prop := {
  bt_machine : machine_ok (set_tm b t') (with_mem c st');
  bt_queue : ready_queue t' = [1; 2] ∧ current_task t' = None ∧ dom (task_registry t') = {[1; 2]};
  bt_reaper : ∃ r, task_registry t' !! 1 = Some r ∧ privilege r = KernelMode ∧ pml4_frame r = cr3
    ∧ words st' (rsp r) (initial_words sel tramp reaper_entry KernelMode 0);
  bt_shell : ∃ s um, task_registry t' !! 2 = Some s ∧ privilege s = UserMode
    ∧ words st' (rsp s) (initial_words sel tramp (e_entry img) UserMode (SHELL_STACK + 0x1000))
    ∧ uspace off m' (pml4_frame s) um ∧ segments_at img um ∧ (is_Some (um !! SHELL_STACK) ∨ no_memory img m);
}.

(** Making the space and loading the shell into it. *)
Lemma shell_loaded {B} img um cr3 m (K : Z → result Z ElfError → mem → outcome B) Q : uspace off m cr3 um → elf_wf img → shell_room img m cr3 →
  (∀ p m' um', uspace off m' p um' → segments_at img um' → is_Some (um' !! SHELL_STACK) ∨ no_memory img m → panics_or (no_memory img m) (K p (Ok (e_entry img)) m') Q) →
  (∀ p e m', K p (Err e) m' = Stop Panic) →
  panics_or (no_memory img m) (let* (o, m) := create_isolated_pml4 (Some off) cr3 m in
      match o with
      | None => Stop Panic
      | Some p =>
          let* (load_result, m) := load_elf (Some off) img p m in
          page <- virt_new SHELL_STACK;;
          let* (_, m) := allocate_and_map_user_page (Some off) p page m in K p load_result m
      end) Q.
Proof.
  intros Hu Helf [Hnst Hroom] HK HE'.
  pose proof (proj1 (Forall_forall _ _) (sw_owned _ _ (us_wf _ _ _ _ Hu)) cr3 ltac:(left)) as [Hman Hrefs].
  pose proof (create_isolated_ok off cr3 m (us_ok _ _ _ _ Hu) Hman Hrefs) as Ho. pose proof (elf_pages_nonneg img Helf) as Hpn.
  destruct (create_isolated_pml4 (Some off) cr3 m) as [[o m1]|] eqn:Ec; [|done]. cbn [obind wp] in *.
  destruct o as [p|]; [|split; [done|]; unfold no_memory; rewrite (free_frames_none _ (proj2 Ho)); lia].
  destruct Ho as (Htk & Hsd & _). pose proof (taken_free _ _ _ _ (us_ok _ _ _ _ Hu) Htk) as Hfr.
  assert (is_page SHELL_STACK) as Hsp by (unfold SHELL_STACK; split; [lia|done]).
  pose proof (load_with_stack off SHELL_STACK img m1 p Hsp Helf Hnst ltac:(by eapply new_uspace)) as Hw.
  match type of Hw with ?P → _ => assert P as Hun end.
  { intros q Hq. eapply new_unmapped; [done|done|done| |by apply Hroom].
    destruct Hq as [(i & _ & _ & [Hq _] & _)| ->]; [done|unfold SHELL_STACK; lia]. }
  specialize (Hw Hun). destruct (load_elf (Some off) img p m1) as [[lr m2]|] eqn:El; [|done]. cbn [obind] in *.
  destruct (virt_new SHELL_STACK) as [page|]; [|done]. cbn [obind] in *.
  destruct (allocate_and_map_user_page (Some off) p page m2) as [[res m3]|]; [|done]. cbn [obind wp] in *.
  destruct Hw as (um3 & Hu3 & Hst & Hfew & Hl & _). destruct lr as [entry|e].
  2: { rewrite HE'. split; [done|]. specialize (Hfew eq_refl). unfold no_memory. lia. }
  destruct Hl as [-> Hseg]. eapply HK; try done. destruct res as [[]|e]; [left; by apply Hst|right].
  specialize (Hfew eq_refl). unfold no_memory. lia.
Qed.

(** The reaper and the shell, registered one after the other. *)
Lemma register_two (t1 t2 : Task (node V)) : id t1 = 1 → id t2 = 2 →
  let t := register (register TaskManager_empty t1) t2 in
  ready_queue t = [1; 2] ∧ current_task t = None ∧ task_registry t = <[2 := t2]> (<[1 := t1]> ∅).
Proof.
  intros E1 E2. unfold register. rewrite E1, E2, !registry_set_task_state. cbn [set_registry task_registry].
  rewrite !current_set_task_state. by split_and!.
Qed.

(** The frame of a new task is on its stack, so writes elsewhere keep it. *)
Lemma words_kept entry priv ust (t : Task (node V)) (st st' : memory) : 0 < stack_start t → stack_end t = stack_start t + STACK_SIZE →
  rsp t = stack_end t - stack_end t mod 16 - 8 * Z.of_nat (length (initial_words sel tramp entry priv ust)) →
  (∀ a, stack_start t ≤ a < stack_end t → st' !! a = st !! a) →
  words st (rsp t) (initial_words sel tramp entry priv ust) → words st' (rsp t) (initial_words sel tramp entry priv ust).
Proof.
  intros Hs He Hr Hout Hw. eapply words_agree; [|exact Hw]. intros a Ha. symmetry. apply Hout.
  unfold STACK_SIZE in *. rewrite Hr in Ha. destruct priv; cbn [initial_words frame_words app rev length] in Ha; zlia.
Qed.

(** The first tick on such a machine. *)
Lemma first_tick img b c m cr3 t' st' m' cell_addr ret_addr : (∀ cell, cell_addr cell ≠ 0) → booted img b c m cr3 t' st' m' →
  wp (schedule cell_addr ret_addr (set_tm b t') (with_mem c st')) (λ '(b', c'),
    machine_ok b' c' ∧ current_task (tm b') = Some 1 ∧ rip c' = reaper_entry).
Proof.
  intros Hcell [Hok (Hq & Hc & _) (r & Hr & _ & _ & Hw) _].
  eapply wp_mono; [by apply (schedule_spec cell_addr ret_addr)|cbv beta]. intros [b' c'] (Hok' & Hcur & _ & Hres).
  cbn [set_tm tm] in *. rewrite advance_eq in Hcur by apply Hok. cbn [set_current current_task] in Hcur.
  unfold round_queue in Hcur. rewrite Hc, Hq in Hcur. cbn [head] in Hcur. split_and!; [done|done|].
  rewrite Hcur, Hc in Hres. destruct (Hres ltac:(done) 1 r eq_refl Hr) as (_ & _ & Hrip). cbn [X86.mem with_mem] in Hrip.
  cbn [initial_words frame_words app rev words] in Hw.
  replace (rsp r + 56) with (rsp r + 8 + 8 + 8 + 8 + 8 + 8 + 8) in Hrip by lia. destruct_and! Hw. congruence.
Qed.

Lemma init_multitasking_ok img b c m um cr3 v s1 s2 cell_addr ret_addr :
  (∀ cell, cell_addr cell ≠ 0) → machine_ok b c → tm b = TaskManager_empty → uspace off m cr3 um →
  find_file v (lit "shell.elf") = Ret (Some img) → elf_wf img → shell_room img m cr3 →
  fresh_stack b c s1 → fresh_stack b c s2 → s1 + STACK_SIZE ≤ s2 ∨ s2 + STACK_SIZE ≤ s1 →
  panics_or (no_memory img m) (init_multitasking (Some off) sel tramp reaper_entry (Some s1) (Some s2) cr3 v (tm b) 1 (X86.mem c) m)
    (λ '(t', _, st', m'), booted img b c m cr3 t' st' m'
      ∧ (∀ i u, task_registry t' !! i = Some u → stack_start u = (if i =? 1 then s1 else s2) ∧ stack_end u = stack_start u + STACK_SIZE)
      ∧ wp (schedule cell_addr ret_addr (set_tm b t') (with_mem c st')) (λ '(b', c'),
          machine_ok b' c' ∧ current_task (tm b') = Some 1 ∧ rip c' = reaper_entry)).
Proof.
  intros Hcell Hok Hemp Hu Hfile Helf Hroom Hf1 Hf2 Hdj. unfold init_multitasking, spawn.
  eapply panics_or_bind; [apply machine_ok_spawn; [done|by rewrite Hemp|done]|].
  intros [[[next st1] t1'] r] (-> & -> & Hok1 & r1 & -> & Hid1 & Hpr1 & Hpm1 & Hss1 & Hse1 & Hrsp1 & Hw1 & _).
  rewrite Hfile. cbn [obind]. rewrite Hemp in *.
  apply (shell_loaded img um cr3 m (λ p lr m', match lr with
    | Err _ => Stop Panic
    | Ok entry =>
        let* (next, st, t, r) := spawn_dynamic sel tramp entry p (SHELL_STACK + 0x1000) (Some s2) (wrap 64 (1 + 1)) st1
                                   (register TaskManager_empty r1) in
        match r with Err _ => Stop Panic | Ok _ => Ret (t, next, st, m') end
    end)); try done. clear um Hu Hroom. intros p m' um Hu Hseg Hsst.
  assert (task_registry (register TaskManager_empty r1) = <[1 := r1]> ∅) as Hreg1
    by (unfold register; rewrite registry_set_task_state; cbn; by rewrite Hid1).
  eapply panics_or_bind.
  { apply (machine_ok_spawn sel tramp (e_entry img) p UserMode (SHELL_STACK + 0x1000) s2 2 _ _ Hok1); cbn [tm set_tm].
    - rewrite Hreg1, lookup_insert_ne by done. apply lookup_empty.
    - destruct Hf2. split; cbn [tm set_tm regs with_mem]; try done. intros i u. rewrite Hreg1.
      intros [[<- <-]|[_ Hi]]%lookup_insert_Some; [lia|]. by rewrite lookup_empty in Hi. }
  cbv beta. intros [[[next2 st2] t2'] rr] (-> & _ & Hok2 & r2 & -> & Hid2 & Hpr2 & Hpm2 & Hss2 & Hse2 & Hrsp2 & Hw2 & Hout2).
  cbn [tm set_tm] in *. destruct (register_two r1 r2 Hid1 Hid2) as (Hq & Hc & Hreg).
  assert (booted img b c m cr3 (register (register TaskManager_empty r1) r2) st2 m') as Hb; [|split; [done|split; [|by eapply first_tick]]].
  2: { intros i u. rewrite Hreg. intros [[<- <-]|[_ [[<- <-]|[_ Hi]]%lookup_insert_Some]]%lookup_insert_Some; [by rewrite Hse2, Hss2|by rewrite Hse1, Hss1|].
       by rewrite lookup_empty in Hi. }
  split; rewrite ?Hreg.
  - exact Hok2.
  - split_and!; [done|done|]. rewrite !dom_insert_L, dom_empty_L. set_solver.
  - exists r1. rewrite lookup_insert_ne, lookup_insert_eq by done. split_and!; try done.
    apply (words_kept _ _ _ r1 st1); try done; [rewrite Hss1; apply Hf1|by rewrite Hse1, Hss1|]. intros a Ha. apply Hout2.
    rewrite Hss1, Hse1 in Ha. lia.
  - exists r2, um. rewrite lookup_insert_eq. split_and!; try done. by rewrite Hpm2.
Qed.

(** Boot ends on a machine that can run.  With the initramfs shell, two stacks
    from the heap and the processor on its boot stack, [init_multitasking] leaves
    the reaper and the shell queued in this order.  The machine is sound, so the
    first tick does not fail and enters the reaper at its entry point; the reaper
    runs in the boot space, and the space of the shell holds all segments of the
    executable and its stack page, with the entry point in the shell's first frame.
    Only if fewer frames are free than one for the top-level table and four per page
    does boot panic, or go on without the stack page.  The kernel stacks are the two
    blocks of the heap, in this order. *)
Theorem init_multitasking_boots img b c m um cr3 v s1 s2 cell_addr ret_addr :
  (∀ cell, cell_addr cell ≠ 0) → machine_ok b c → tm b = TaskManager_empty → uspace off m cr3 um →
  find_file v (lit "shell.elf") = Ret (Some img) → elf_wf img → shell_room img m cr3 →
  fresh_stack b c s1 → fresh_stack b c s2 → s1 + STACK_SIZE ≤ s2 ∨ s2 + STACK_SIZE ≤ s1 →
  panics_or (no_memory img m) (init_multitasking (Some off) sel tramp reaper_entry (Some s1) (Some s2) cr3 v (tm b) 1 (X86.mem c) m)
    (λ '(t', _, st', m'), booted img b c m cr3 t' st' m'
      ∧ (∀ i u, task_registry t' !! i = Some u → stack_start u = (if i =? 1 then s1 else s2) ∧ stack_end u = stack_start u + STACK_SIZE)
      ∧ wp (schedule cell_addr ret_addr (set_tm b t') (with_mem c st')) (λ '(b', c'),
          machine_ok b' c' ∧ current_task (tm b') = Some 1 ∧ rip c' = reaper_entry)).
Proof. apply init_multitasking_ok. Qed.
End Boot.

Module BootSample.
Definition files : vfs unit := mkVfs (Some (archive [gnu_member (lit "shell.elf") ElfSample.img] [])) ∅ ∅.
Definition machine0 : machine (node unit) := mkMachine TaskManager_empty 0 0 4096 0 [].
Definition cpu0 : cpu := sample_cpu 0x8000 ∅.

Lemma no_task i u : task_registry (tm machine0) !! i = Some u → False.
Proof. intros Hu. change ((∅ : gmap Z (Task (node unit))) !! i = Some u) in Hu. by rewrite lookup_empty in Hu. Qed.

Lemma machine0_ok : machine_ok machine0 cpu0.
Proof. apply machine_ok_empty; [done|done|vm_compute; intuition discriminate]. Qed.

Lemma fresh start : 0x8000 ≤ start → start + STACK_SIZE < 2 ^ 47 → fresh_stack machine0 cpu0 start.
Proof.
  intros Hlo Hhi. unfold STACK_SIZE in *. split; unfold STACK_SIZE; [lia|lia|left; lia| |left; exact Hlo].
  intros i u []%no_task.
Qed.

Lemma room : shell_room ElfSample.img (k_mem SysSample.k) 4096.
Proof.
  split.
  - intros H%ElfSample.only_page. discriminate.
  - intros a [->%ElfSample.only_page| ->]; right; vm_compute; reflexivity.
Qed.
End BootSample.

Lemma init_multitasking_boots_witness :
  wp (@init_multitasking true checked_virt_new masked_phys_new x86_entries table_mapper unit (Some Sample.off)
      Task.sample_selectors 0x5000 0x9999 (Some 0x100000) (Some 0x200000) 4096 BootSample.files TaskManager_empty 1 ∅
      (k_mem SysSample.k))
    (λ '(t', _, st', m'), ready_queue t' = [1; 2]).
Proof.
  pose proof (@init_multitasking_boots true x86_entries x86_entries_spec checked_virt_new checked_virt_new_spec masked_phys_new
    masked_phys_new_spec Sample.off table_mapper sample_mapper unit Task.sample_selectors 0x5000 0x9999
    ElfSample.img BootSample.machine0 BootSample.cpu0 (k_mem SysSample.k) SysSample.pages 4096 BootSample.files
    0x100000 0x200000 (λ _, 0x77) 0x1234 ltac:(discriminate) BootSample.machine0_ok eq_refl SysSample.page_space
    ltac:(vm_compute; reflexivity) ElfSample.img_wf BootSample.room
    ltac:(apply BootSample.fresh; unfold STACK_SIZE; lia) ltac:(apply BootSample.fresh; unfold STACK_SIZE; lia)
    ltac:(left; unfold STACK_SIZE; lia)) as Hb.
  change (X86.mem BootSample.cpu0) with (∅ : memory) in Hb. change (tm BootSample.machine0) with (@TaskManager_empty (node unit)) in Hb.
  destruct (init_multitasking _ _ _ _ _ _ _ _ _ _ _ _) as [[[[t' n] st'] m']|e].
  - destruct Hb as [[_ [Hq _] _ _] _]. exact Hq.
  - destruct Hb as [_ Hfew]. vm_compute in Hfew. discriminate Hfew.
Defined.
