(* ===== verification/Heap.v ===== *)
(** * The kernel heap and the stacks of the tasks (src/src/mm/allocator.rs)

    [InterruptSafeHeap] wraps the [Heap] of the linked_list_allocator crate, which is
    a type class here, in the critical section of Critical.v.  The kernel stack of a
    task is a block of this heap: [Task::new] reserves it, dropping the task frees it.

    The theorems: a task whose stack comes from the heap joins a sound machine, or
    the heap is exhausted and the machine is as before; and the heap bounds the
    number of tasks. *)

From S2P Require Import Prelude KError FrameAlloc Fd X86 Task TaskManager Critical Scheduler Paging PageTree PageMapper AddrSpace Vfs Boot.

#[local] Open Scope list_scope.

(** ** The crate *)

Record Layout := mkLayout { l_size : Z; l_align : Z }.

Class HeapOps (H : Type) := {
  heap_empty : H;
  heap_init : H → Z → Z → H;
  allocate_first_fit : H → Layout → option Z * H;
  heap_deallocate : H → Z → Layout → H;
}.

(** The live blocks of a heap, with their sizes, and the region it manages.  A block
    that is handed out is aligned, lies in the region and overlaps no live one; a
    failed request changes nothing; a block given back is no longer live. *)
Class HeapSpec (H : Type) `{HeapOps H} (live : H → gmap Z Z) (region : H → option (Z * Z)) : Prop := {
  heap_empty_spec : live heap_empty = ∅ ∧ region heap_empty = None;
  heap_init_spec h start size : region h = None → live h = ∅ → live (heap_init h start size) = ∅ ∧ region (heap_init h start size) = Some (start, size);
  allocate_none h l h' : allocate_first_fit h l = (None, h') → live h' = live h ∧ region h' = region h;
  allocate_some h l a h' : allocate_first_fit h l = (Some a, h') → 0 < l_size l →
    live h' = <[a := l_size l]> (live h) ∧ region h' = region h ∧ a mod l_align l = 0
    ∧ (∃ start size, region h = Some (start, size) ∧ start ≤ a ∧ a + l_size l ≤ start + size)
    ∧ ∀ b n, live h !! b = Some n → b + n ≤ a ∨ a + l_size l ≤ b;
  deallocate_spec h a l : live h !! a = Some (l_size l) →
    live (heap_deallocate h a l) = delete a (live h) ∧ region (heap_deallocate h a l) = region h;
}.

(** ** The wrapper *)

Section Wrapper.
Context `{HeapOps H}.

Definition InterruptSafeHeap_empty (if_on : bool) : guarded H := mkGuarded if_on false heap_empty.

Definition InterruptSafeHeap_init (self : guarded H) (heap_start heap_size : Z) : outcome (unit * guarded H) :=
  call (with_irq_lock (λ h, Ret (tt, heap_init h heap_start heap_size))) self.

(** Null is address 0. *)
Definition alloc (self : guarded H) (layout : Layout) : outcome (Z * guarded H) :=
  call (with_irq_lock (λ h, let '(r, h) := allocate_first_fit h layout in Ret (default 0 r, h))) self.

Definition dealloc (self : guarded H) (ptr : Z) (layout : Layout) : outcome (unit * guarded H) :=
  call (with_irq_lock (λ h, Ret (tt, heap_deallocate h ptr layout))) self.

(** The last step of [init_heap]. *)
Definition ALLOCATOR_init (self : guarded H) : outcome (unit * guarded H) := InterruptSafeHeap_init self HEAP_START HEAP_SIZE.

(** [try_reserve_exact] of a byte vector, and [Box<[u8]>] at its drop. *)
Definition stack_layout : Layout := mkLayout STACK_SIZE 1.

Definition reserve_stack (self : guarded H) : outcome (option Z * guarded H) :=
  let* (p, self) := alloc self stack_layout in
  Ret (if p =? 0 then None else Some p, self).

Definition drop_stack {V} (self : guarded H) (t : Task V) : outcome (unit * guarded H) := dealloc self (stack_start t) stack_layout.

(** [TaskManager::spawn] and [spawn_dynamic] with the heap they allocate from. *)
Definition spawn_on_heap `{Profile} {V} (sel : Selectors) (tramp entry_point pml4 : Z) (priv : PrivilegeLevel) (user_stack_top : Z)
    (self : guarded H) (next : Z) (m : memory) (tm : TaskManager V)
    : outcome (Z * memory * TaskManager V * result Z KernelError * guarded H) :=
  let* (stack, self) := reserve_stack self in
  let* (next, m, tm, r) := spawn_with sel tramp entry_point pml4 priv user_stack_top stack next m tm in
  Ret (next, m, tm, r, self).
End Wrapper.

(** ** Stacks *)

Section Stacks.
Context `{HP : Profile} `{HS : HeapSpec H live region} {V : Type}.
Implicit Types (m : machine V) (c : cpu) (u : Task V) (s : guarded H).

(** The kernel heap at work: it is free to be locked, its blocks lie in the heap
    pages and do not overlap. *)
Record heap_wf s : Prop := {
  hw_free : held s = false;
  hw_region : region (data s) = Some (HEAP_START, HEAP_SIZE);
  hw_inside : ∀ a n, live (data s) !! a = Some n → HEAP_START ≤ a ∧ 0 < n ∧ a + n ≤ HEAP_START + HEAP_SIZE;
  hw_apart : ∀ a b n k, a ≠ b → live (data s) !! a = Some n → live (data s) !! b = Some k → a + n ≤ b ∨ b + k ≤ a;
}.

(** The stack of every task is a block of its own. *)
Definition stacks_live m s : Prop := ∀ i u, task_registry (tm m) !! i = Some u →
  live (data s) !! stack_start u = Some STACK_SIZE ∧ stack_end u = stack_start u + STACK_SIZE.

(** The processor is not on free heap memory: it is outside the heap, as at boot, or
    on a live block. *)
Definition cpu_placed c s : Prop := regs c RSP ≤ HEAP_START ∨ HEAP_START + HEAP_SIZE ≤ regs c RSP - 64
  ∨ ∃ a n, live (data s) !! a = Some n ∧ a + 64 ≤ regs c RSP ≤ a + n.

Lemma heap_boot b : wp (ALLOCATOR_init (InterruptSafeHeap_empty b)) (λ '(_, s), heap_wf s ∧ if_on s = b ∧ live (data s) = ∅).
Proof.
  unfold ALLOCATOR_init, InterruptSafeHeap_init. rewrite call_irq_lock by done. cbn [obind wp if_on InterruptSafeHeap_empty data].
  destruct heap_empty_spec as [Hl Hr]. destruct (heap_init_spec heap_empty HEAP_START HEAP_SIZE Hr Hl) as [Hl' Hr']. split_and!; [|done|done].
  split; cbn [held data]; by rewrite ?Hl'.
Qed.

Lemma alloc_spec s l : heap_wf s → 0 < l_size l → wp (alloc s l) (λ '(p, s'), heap_wf s' ∧ if_on s' = if_on s
  ∧ if p =? 0 then live (data s') = live (data s)
    else live (data s') = <[p := l_size l]> (live (data s)) ∧ HEAP_START ≤ p ∧ p + l_size l ≤ HEAP_START + HEAP_SIZE ∧ p mod l_align l = 0
      ∧ live (data s) !! p = None ∧ ∀ b n, live (data s) !! b = Some n → b + n ≤ p ∨ p + l_size l ≤ b).
Proof.
  intros [Hf Hr Hin Hap] Hl. unfold alloc. rewrite call_irq_lock by done.
  destruct (allocate_first_fit (data s) l) as [[a|] h'] eqn:E; cbn [obind wp if_on data];
    [change (default 0 (Some a)) with a|change (default 0 None) with 0].
  - destruct (allocate_some _ _ _ _ E Hl) as (Hlive & Hreg & Hal & (start & size & Hr0 & Hlo & Hhi) & Hdis).
    rewrite Hr in Hr0. injection Hr0 as <- <-.
    assert (live (data s) !! a = None) as Hnew.
    { destruct (live (data s) !! a) as [n|] eqn:Ea; [|done]. destruct (Hin _ _ Ea) as (_ & ? & _). destruct (Hdis _ _ Ea); lia. }
    rewrite (proj2 (Z.eqb_neq a 0)) by (unfold HEAP_START in Hlo; lia). split_and!; try done.
    split; cbn [held data]; rewrite ?Hlive; try congruence.
    + intros b n [[<- <-]|[_ Hb]]%lookup_insert_Some; [done|by apply Hin].
    + intros b b' n k Hne [[<- <-]|[_ Hb]]%lookup_insert_Some [[<- <-]|[_ Hb']]%lookup_insert_Some; [done| | |by eapply Hap].
      * destruct (Hdis _ _ Hb'); lia.
      * destruct (Hdis _ _ Hb); lia.
  - destruct (allocate_none _ _ _ E) as [Hlive Hreg]. cbn. split_and!; [|done|done].
    split; cbn [held data]; rewrite ?Hlive; try done. congruence.
Qed.

Lemma dealloc_spec s a l : heap_wf s → live (data s) !! a = Some (l_size l) →
  wp (dealloc s a l) (λ '(_, s'), heap_wf s' ∧ if_on s' = if_on s ∧ live (data s') = delete a (live (data s))).
Proof.
  intros [Hf Hr Hin Hap] Ha. unfold dealloc. rewrite call_irq_lock by done. cbn [obind wp if_on data].
  destruct (deallocate_spec _ _ _ Ha) as [Hlive Hreg]. split_and!; [|done|done]. split; cbn [held data]; rewrite ?Hlive; try congruence.
  - intros b n [_ Hb]%lookup_delete_Some. by apply Hin.
  - intros b b' n k Hne [_ Hb]%lookup_delete_Some [_ Hb']%lookup_delete_Some. by eapply Hap.
Qed.

Lemma reserve_spec s : heap_wf s → wp (reserve_stack s) (λ '(o, s'), heap_wf s' ∧ if_on s' = if_on s ∧
  match o with
  | None => live (data s') = live (data s)
  | Some p => live (data s') = <[p := STACK_SIZE]> (live (data s)) ∧ HEAP_START ≤ p ∧ p + STACK_SIZE ≤ HEAP_START + HEAP_SIZE
      ∧ live (data s) !! p = None ∧ ∀ b n, live (data s) !! b = Some n → b + n ≤ p ∨ p + STACK_SIZE ≤ b
  end).
Proof.
  intros Hwf. unfold reserve_stack. wp_step. eapply wp_mono; [by apply (alloc_spec s stack_layout)|cbv beta].
  intros [p s1] (Hwf1 & Hif & Hp). wp_step. destruct (p =? 0); [done|]. destruct Hp as (? & ? & ? & _ & ? & ?). by split_and!.
Qed.

(** A block the heap hands out can be the stack of a new task. *)
Lemma heap_fresh m c s p : stacks_live m s → cpu_placed c s → HEAP_START ≤ p → p + STACK_SIZE ≤ HEAP_START + HEAP_SIZE →
  (∀ b n, live (data s) !! b = Some n → b + n ≤ p ∨ p + STACK_SIZE ≤ b) → fresh_stack m c p.
Proof.
  intros Hst Hcpu Hlo Hhi Hdis. assert (HEAP_START + HEAP_SIZE < 2 ^ 47 ∧ 0 < HEAP_START) as [? ?] by done.
  unfold STACK_SIZE in *. split; unfold STACK_SIZE; [lia|lia|left; lia| |].
  - intros i u Hu. destruct (Hst i u Hu) as [Hl He]. destruct (Hdis _ _ Hl); unfold STACK_SIZE in *; lia.
  - destruct Hcpu as [?|[?|(a & n & Ha & ?)]]; [lia|lia|]. destruct (Hdis _ _ Ha); lia.
Qed.

Lemma stacks_live_register m s s' p t : stacks_live m s → live (data s') = <[p := STACK_SIZE]> (live (data s)) → live (data s) !! p = None →
  stack_start t = p → stack_end t = p + STACK_SIZE → stacks_live (set_tm m (register (tm m) t)) s'.
Proof.
  intros Hst Hl Hn Hs He i u. cbn [tm set_tm]. unfold register. rewrite registry_set_task_state. cbn [set_registry task_registry].
  rewrite Hl. intros [[_ <-]|[_ Hu]]%lookup_insert_Some.
  - rewrite Hs, He. by rewrite lookup_insert_eq.
  - destruct (Hst i u Hu) as [Hu1 Hu2]. rewrite lookup_insert_ne by congruence. done.
Qed.

(** Spawning on a sound machine, with both answers of the heap. *)
Lemma spawn_on_heap_ok sel tramp entry pml4 priv ust next m c s : machine_ok m c → heap_wf s → stacks_live m s → cpu_placed c s →
  task_registry (tm m) !! next = None →
  wp (spawn_on_heap sel tramp entry pml4 priv ust s next (X86.mem c) (tm m)) (λ '(next', mm, t', r, s'),
    machine_ok (set_tm m t') (with_mem c mm) ∧ heap_wf s' ∧ stacks_live (set_tm m t') s' ∧ cpu_placed c s' ∧ if_on s' = if_on s
    ∧ match r with
      | Ok i => i = next ∧ ∃ t, t' = register (tm m) t ∧ id t = i ∧ words mm (rsp t) (initial_words sel tramp entry priv ust)
          ∧ live (data s) !! stack_start t = None ∧ live (data s') !! stack_start t = Some STACK_SIZE
      | Err e => e = TaskE StackAllocation ∧ t' = tm m ∧ mm = X86.mem c ∧ live (data s') = live (data s)
      end).
Proof.
  intros Hok Hwf Hst Hcpu Hnew. unfold spawn_on_heap. wp_step.
  eapply wp_mono; [by apply reserve_spec|cbv beta]. intros [[p|] s1] (Hwf1 & Hif & Hp).
  2: { unfold spawn_with, Task_new, TaskId_new. cbn [obind wp]. split_and!; try done.
       - by destruct m, c.
       - intros i u Hu. rewrite Hp. exact (Hst i u Hu).
       - unfold cpu_placed. by rewrite Hp. }
  destruct Hp as (Hl & Hlo & Hhi & Hn & Hdis). wp_step.
  eapply wp_mono; [apply machine_ok_spawn; [done|done|by eapply heap_fresh]|cbv beta].
  intros [[[next' mm] t'] r] (-> & _ & Hok' & t & -> & Hid & _ & _ & Hss & Hse & _ & Hw & _). wp_step.
  split_and!; try done.
  - by eapply stacks_live_register.
  - destruct Hcpu as [?|[?|(a & n & Ha & ?)]]; [by left|by right; left|]. right. right. exists a, n. rewrite Hl, lookup_insert_ne; [done|congruence].
  - exists t. rewrite Hss, Hl, lookup_insert_eq. by split_and!.
Qed.

(** C10: a new task gets a stack of its own.  With every task's stack a live block of
    the kernel heap, spawning through the heap keeps the machine sound and that
    invariant: the new stack overlaps neither another task's nor the one in use.
    When the heap cannot give 64 KiB, the spawn fails with the stack error and
    changes no task.  Interrupt flag and lock of the heap are as before. *)
Theorem spawn_on_heap_joins sel tramp entry pml4 priv ust next m c s : machine_ok m c → heap_wf s → stacks_live m s → cpu_placed c s →
  task_registry (tm m) !! next = None →
  wp (spawn_on_heap sel tramp entry pml4 priv ust s next (X86.mem c) (tm m)) (λ '(next', mm, t', r, s'),
    machine_ok (set_tm m t') (with_mem c mm) ∧ heap_wf s' ∧ stacks_live (set_tm m t') s' ∧ cpu_placed c s' ∧ if_on s' = if_on s
    ∧ match r with
      | Ok i => i = next ∧ ∃ t, t' = register (tm m) t ∧ id t = i ∧ words mm (rsp t) (initial_words sel tramp entry priv ust)
          ∧ live (data s) !! stack_start t = None ∧ live (data s') !! stack_start t = Some STACK_SIZE
      | Err e => e = TaskE StackAllocation ∧ t' = tm m ∧ mm = X86.mem c ∧ live (data s') = live (data s)
      end).
Proof. exact (spawn_on_heap_ok sel tramp entry pml4 priv ust next m c s). Qed.

(** Removing a dead task keeps the machine sound. *)
Lemma machine_ok_kill m c i u : machine_ok m c → task_registry (tm m) !! i = Some u → task_states (tm m) !! i = Some Dead →
  machine_ok (set_tm m (kill (tm m) i).2) c.
Proof.
  intros Hok Hu Hd. destruct (kill_spec (tm m) i u (mo_inv _ _ Hok) Hu Hd) as (_ & Hinv & Hreg & Hcur & Hst).
  assert (∀ j v, task_registry (kill (tm m) i).2 !! j = Some v → j ≠ i ∧ task_registry (tm m) !! j = Some v) as Hsub.
  { intros j v. rewrite Hreg. by intros [? ?]%lookup_delete_Some. }
  assert (∀ j v, parked (kill (tm m) i).2 j v → parked (tm m) j v) as Hpk.
  { intros j v (Hj & Hdj & Hcj). destruct (Hsub _ _ Hj) as [Hne Hj']. rewrite Hcur in Hcj. split_and!; [done| |done].
    intros Hdd. apply Hdj. rewrite Hst. rewrite !decide_False by (try done; intros [? ?]; congruence). done. }
  split; cbn [tm set_tm]; rewrite ?Hcur.
  - done.
  - intros j v [_ Hj]%Hsub. by eapply mo_stacks.
  - intros j k v w Hne [_ Hj]%Hsub [_ Hk]%Hsub. by eapply (mo_disjoint _ _ Hok j k).
  - intros j v Hp%Hpk. by eapply mo_frames.
  - apply Hok.
  - intros j v Hc [_ Hj]%Hsub. by apply (mo_on _ _ Hok j v).
  - intros Hc j v Hp%Hpk. by eapply (Scheduler.mo_off _ _ Hok Hc).
Qed.

(** The reaper frees the stack of the task it removes: the machine stays sound, and
    exactly that block is given back. *)
Theorem dropped_stack_freed m c s i u : machine_ok m c → heap_wf s → stacks_live m s → task_registry (tm m) !! i = Some u →
  task_states (tm m) !! i = Some Dead →
  wp (drop_stack s u) (λ '(_, s'), machine_ok (set_tm m (kill (tm m) i).2) c ∧ heap_wf s' ∧ stacks_live (set_tm m (kill (tm m) i).2) s'
    ∧ live (data s') = delete (stack_start u) (live (data s))).
Proof.
  intros Hok Hwf Hst Hu Hd. destruct (Hst i u Hu) as [Hl He].
  eapply wp_mono; [by apply (dealloc_spec s (stack_start u) stack_layout)|cbv beta]. intros [_ s'] (Hwf' & _ & Hl').
  split_and!; [by eapply machine_ok_kill|done| |done].
  destruct (kill_spec (tm m) i u (mo_inv _ _ Hok) Hu Hd) as (_ & _ & Hreg & _). intros j v Hj. cbn [tm set_tm] in Hj. rewrite Hreg in Hj.
  apply lookup_delete_Some in Hj as [Hne Hj]. destruct (Hst j v Hj) as [Hlj Hej]. split; [|done]. rewrite Hl', lookup_delete_ne; [done|].
  intros Heq. pose proof (mo_disjoint _ _ Hok i j u v Hne Hu Hj) as Hdj. unfold disjoint_stacks, STACK_SIZE in *. lia.
Qed.

(** The stacks start in different sixteenths of the heap. *)
Lemma tasks_fit m c s : machine_ok m c → heap_wf s → stacks_live m s → (size (task_registry (tm m)) ≤ 16)%nat.
Proof.
  intros Hok Hwf Hst. rewrite <- length_map_to_list, <- (length_fmap (λ x, (stack_start x.2 - HEAP_START) / STACK_SIZE)).
  set (slots := _ <$> _). change 16%nat with (length (seqZ 0 16)). apply submseteq_length, NoDup_submseteq.
  - apply NoDup_fmap_2_strong; [|apply NoDup_map_to_list]. intros [i u] [j v] Hi%elem_of_map_to_list Hj%elem_of_map_to_list Heq. cbn [snd] in Heq.
    destruct (decide (i = j)) as [->|Hne]; [congruence|]. pose proof (mo_disjoint _ _ Hok i j u v Hne Hi Hj) as Hdj.
    destruct (Hst i u Hi) as [_ Hei], (Hst j v Hj) as [_ Hej]. unfold disjoint_stacks, STACK_SIZE in *. zlia.
  - intros k Hk. apply list_elem_of_fmap in Hk as ([i u] & -> & Hi%elem_of_map_to_list). cbn [snd].
    destruct (hw_inside _ Hwf _ _ (proj1 (Hst i u Hi))) as (Hlo & _ & Hhi). apply elem_of_seqZ. unfold STACK_SIZE, HEAP_SIZE in *. zlia.
Qed.

(** C28: the heap bounds the tasks.  Its one mebibyte holds at most sixteen stacks, so
    no more than sixteen tasks exist at any time, dead ones that have not been reaped
    included; a spawn with sixteen tasks fails with the stack error and changes no
    task. *)
Theorem tasks_bounded sel tramp entry pml4 priv ust next m c s : machine_ok m c → heap_wf s → stacks_live m s → cpu_placed c s →
  task_registry (tm m) !! next = None →
  (size (task_registry (tm m)) ≤ 16)%nat
  ∧ (size (task_registry (tm m)) = 16%nat →
     wp (spawn_on_heap sel tramp entry pml4 priv ust s next (X86.mem c) (tm m)) (λ '(_, mm, t', r, _),
       r = Err (TaskE StackAllocation) ∧ t' = tm m ∧ mm = X86.mem c)).
Proof.
  intros Hok Hwf Hst Hcpu Hnew. split; [by eapply tasks_fit|]. intros Hfull.
  eapply wp_mono; [by apply spawn_on_heap_ok|cbv beta]. intros [[[[next' mm] t'] r] s'] (Hok' & Hwf' & Hst' & _ & _ & Hr).
  destruct r as [i|e]; [|by destruct Hr as (-> & -> & -> & _)]. exfalso.
  destruct Hr as (-> & t & -> & Hid & _). pose proof (tasks_fit _ _ _ Hok' Hwf' Hst') as Hle.
  cbn [tm set_tm] in Hle. unfold register in Hle. rewrite registry_set_task_state in Hle. cbn [set_registry task_registry] in Hle.
  rewrite Hid, map_size_insert_None in Hle by done. lia.
Qed.
End Stacks.

(** ** Witnesses *)

(** A heap that hands out ascending addresses. *)
Module KernelHeap.
Record bump := mkBump { bump_region : option (Z * Z); bump_next : Z; bump_live : gmap Z Z }.

Definition good (h : bump) (l : Layout) (s n a : Z) : Prop :=
  a mod l_align l = 0 ∧ s ≤ a ∧ a + l_size l ≤ s + n ∧ map_Forall (λ b k, b + k ≤ a ∨ a + l_size l ≤ b) (bump_live h).

#[global] Instance good_dec h l s n a : Decision (good h l s n a).
Proof. unfold good. apply _. Defined.

Definition bump_alloc (h : bump) (l : Layout) : option Z * bump :=
  match bump_region h with
  | None => (None, h)
  | Some (s, n) =>
      let a := bump_next h + (- bump_next h) mod l_align l in
      if bool_decide (good h l s n a) then (Some a, mkBump (bump_region h) (a + l_size l) (<[a := l_size l]> (bump_live h))) else (None, h)
  end.

#[global] Instance ops : HeapOps bump := {|
  heap_empty := mkBump None 0 ∅;
  heap_init _ start size := mkBump (Some (start, size)) start ∅;
  allocate_first_fit := bump_alloc;
  heap_deallocate h a _ := mkBump (bump_region h) (bump_next h) (delete a (bump_live h));
|}.

#[global] Instance spec : HeapSpec bump bump_live bump_region.
Proof.
  split; try done.
  - intros h l h'. unfold allocate_first_fit, ops, bump_alloc. repeat case_match; intros; by simplify_eq.
  - intros h l a h'. unfold allocate_first_fit, ops, bump_alloc. destruct (bump_region h) as [[s n]|] eqn:Er; [|done].
    case_bool_decide as Hg; [|done]. intros [= <- <-] _. destruct Hg as (? & ? & ? & Hall). split; [done|]. split; [done|]. split; [done|].
    split; [by exists s, n|]. intros b k Hb. exact (Hall b k Hb).
Qed.

Definition heap : guarded bump := mkGuarded true false (mkBump (Some (HEAP_START, HEAP_SIZE)) HEAP_START ∅).

Lemma heap_ok : heap_wf (live := bump_live) (region := bump_region) heap.
Proof. by split. Qed.

Lemma none_live m : tm m = TaskManager_empty → stacks_live (V := node unit) (live := bump_live) m heap.
Proof. intros Htm i u Hu. rewrite Htm in Hu. change ((∅ : gmap Z (Task (node unit))) !! i = Some u) in Hu. by rewrite lookup_empty in Hu. Qed.

(** [n] kernel tasks in a row, with the identifiers from [i] on. *)
Fixpoint spawn_times (n : nat) (i : Z) (mm : memory) (t : TaskManager (node unit)) (s : guarded bump) : outcome (memory * TaskManager (node unit) * guarded bump) :=
  match n with
  | O => Ret (mm, t, s)
  | S n =>
      let* (_, mm, t, _, s) := spawn_on_heap (H1 := true) Task.sample_selectors 0x5000 0x9999 4096 KernelMode 0 s i mm t in
      spawn_times n (i + 1) mm t s
  end.

Definition staffed (i : Z) (mm : memory) (t : TaskManager (node unit)) (s : guarded bump) : Prop :=
  machine_ok (set_tm BootSample.machine0 t) (with_mem BootSample.cpu0 mm) ∧ heap_wf (live := bump_live) (region := bump_region) s
  ∧ stacks_live (live := bump_live) (set_tm BootSample.machine0 t) s ∧ ∀ j, i ≤ j → task_registry t !! j = None.

Lemma on_boot_stack mm s : cpu_placed (live := bump_live) (with_mem BootSample.cpu0 mm) s.
Proof. left. vm_compute. discriminate. Qed.

Lemma spawn_times_ok n i mm t s : staffed i mm t s → wp (spawn_times n i mm t s) (λ '(mm, t, s), staffed (i + Z.of_nat n) mm t s).
Proof.
  revert i mm t s. induction n as [|n IH]; intros i mm t s Hst; cbn [spawn_times wp]; [by rewrite Z.add_0_r|]. wp_step.
  destruct Hst as (Hok & Hwf & Hlive & Hnew).
  eapply wp_mono; [exact (spawn_on_heap_ok (HP := true) _ _ _ _ _ _ i _ _ s Hok Hwf Hlive (on_boot_stack mm s) (Hnew i ltac:(lia)))|cbv beta].
  intros [[[[next mm'] t'] r] s'] (Hok' & Hwf' & Hlive' & _ & _ & Hr). replace (i + Z.of_nat (S n)) with (i + 1 + Z.of_nat n) by lia.
  apply IH. split; [exact Hok'|]. split; [exact Hwf'|]. split; [exact Hlive'|]. intros j Hj. destruct r as [k|e].
  - destruct Hr as (-> & u & -> & Hid & _). unfold register. rewrite registry_set_task_state. cbn [set_registry task_registry tm set_tm].
    rewrite Hid, lookup_insert_ne by lia. apply Hnew. lia.
  - destruct Hr as (_ & -> & _). apply Hnew. lia.
Qed.

Lemma staffed_boot : staffed 1 ∅ TaskManager_empty heap.
Proof. split; [exact BootSample.machine0_ok|]. split; [exact heap_ok|]. split; [by apply none_live|]. intros j _. apply lookup_empty. Qed.
End KernelHeap.

(** The first task of the machine. *)
Lemma spawn_on_heap_joins_witness :
  wp (@spawn_on_heap _ KernelHeap.ops true (node unit) Task.sample_selectors 0x5000 0x9999 4096 KernelMode 0 KernelHeap.heap 1 ∅ TaskManager_empty)
    (λ '(_, _, t', r, _), r = Ok 1 ∧ ready_queue t' = [1]).
Proof.
  pose proof (@spawn_on_heap_joins true _ KernelHeap.ops _ _ KernelHeap.spec (node unit) Task.sample_selectors 0x5000 0x9999 4096 KernelMode 0 1
    BootSample.machine0 BootSample.cpu0 KernelHeap.heap BootSample.machine0_ok KernelHeap.heap_ok
    (KernelHeap.none_live BootSample.machine0 eq_refl) ltac:(left; vm_compute; discriminate) eq_refl) as Hs.
  change (X86.mem BootSample.cpu0) with (∅ : memory) in Hs. change (tm BootSample.machine0) with (@TaskManager_empty (node unit)) in Hs.
  destruct (spawn_on_heap _ _ _ _ _ _ _ _ _ _) as [[[[[n mm] t'] r] s']|] eqn:E; [|exact Hs]. cbn [wp] in Hs |- *.
  destruct Hs as (_ & _ & _ & _ & _ & Hr). destruct r as [i|e].
  - destruct Hr as [-> (t & -> & Hid & _)]. split; [reflexivity|]. unfold register. rewrite Hid. reflexivity.
  - vm_compute in E. discriminate E.
Defined.

(** Sixteen tasks, and one more. *)
Lemma tasks_bounded_witness :
  wp (KernelHeap.spawn_times 16 1 ∅ TaskManager_empty KernelHeap.heap) (λ '(mm, t, s), size (task_registry t) = 16%nat
    ∧ wp (@spawn_on_heap _ KernelHeap.ops true (node unit) Task.sample_selectors 0x5000 0x9999 4096 KernelMode 0 s 17 mm t)
        (λ '(_, _, t', r, _), r = Err (TaskE StackAllocation) ∧ t' = t)).
Proof.
  pose proof (KernelHeap.spawn_times_ok 16 1 _ _ _ KernelHeap.staffed_boot) as Hs.
  assert (wp (KernelHeap.spawn_times 16 1 ∅ TaskManager_empty KernelHeap.heap) (λ '(_, t, _), size (task_registry t) = 16%nat)) as Hn
    by (vm_compute; reflexivity).
  destruct (KernelHeap.spawn_times 16 1 ∅ TaskManager_empty KernelHeap.heap) as [[[mm t] s]|]; [|exact Hs]. cbn [wp] in *.
  destruct Hs as (Hok & Hwf & Hl & Hnew). split; [exact Hn|].
  destruct (@tasks_bounded true _ KernelHeap.ops _ _ KernelHeap.spec (node unit) Task.sample_selectors 0x5000 0x9999 4096 KernelMode 0 17
    _ _ s Hok Hwf Hl (KernelHeap.on_boot_stack mm s) (Hnew 17 ltac:(lia))) as [_ Hfull].
  eapply wp_mono; [exact (Hfull Hn)|cbv beta]. intros [[[[next mm'] t'] r] s'] (-> & -> & _). split; reflexivity.
Defined.
