(* ===== verification/Fat.v ===== *)
(** * The FAT driver (src/src/fs/fat/)

    The boot sector and directory entry layouts (bpb.rs), the volume geometry
    and the cluster chain (volume.rs), and the [VNode] implementation (mod.rs).
    Packed structs are decoded field by field in declaration order.

    The geometry functions call each other, so they are defined on the depth of
    the call stack: three calls are enough for FAT16, and no depth is enough for
    FAT32, whose root directory is located through the data region and whose data
    region is located through the root directory.

    The theorems: mounting decodes the boot sector; a file of a FAT16 volume is
    found by its 8.3 name and read at any offset as the concatenation of the
    clusters of its chain; every FAT32 operation that needs a sector number
    recurses without end. *)

From S2P Require Import Prelude KError Block Str Vfs.

#[local] Open Scope list_scope.

(** ** On-disk structures *)

(** The fields the two boot sectors share. *)
Record Bpb := mkBpb {
  jump_boot : list Z;
  oem_name : list Z;
  bytes_per_sector : Z;
  sectors_per_cluster : Z;
  reserved_sector_count : Z;
  table_count : Z;
  root_entry_count : Z;
  total_sectors_16 : Z;
  media_type : Z;
  table_size_16 : Z;
  sectors_per_track : Z;
  head_side_count : Z;
  hidden_sector_count : Z;
  total_sectors_32 : Z;
}.

Record Fat16BootSector := mkFat16 {
  bpb16 : Bpb;
  drive_number16 : Z;
  reserved_1_16 : Z;
  boot_signature16 : Z;
  volume_id16 : Z;
  volume_label16 : list Z;
  fat_type_label16 : list Z;
}.

Record Fat32BootSector := mkFat32 {
  bpb32 : Bpb;
  table_size_32 : Z;
  extended_flags : Z;
  fat_version : Z;
  root_cluster : Z;
  fat_info : Z;
  backup_bs_sector : Z;
  reserved_0 : list Z;
  drive_number32 : Z;
  reserved_1_32 : Z;
  boot_signature32 : Z;
  volume_id32 : Z;
  volume_label32 : list Z;
  fat_type_label32 : list Z;
}.

Inductive FatType :=
| Fat16 (bs : Fat16BootSector)
| Fat32 (bs : Fat32BootSector).

Record DirectoryEntry := mkDirent {
  de_name : list Z;
  attributes : Z;
  de_reserved : Z;
  creation_time_tenths : Z;
  creation_time : Z;
  creation_date : Z;
  last_access_date : Z;
  first_cluster_high : Z;
  write_time : Z;
  write_date : Z;
  first_cluster_low : Z;
  file_size : Z;
}.

Definition bpb_of_bytes (b : list Z) : Bpb :=
  mkBpb (sub 0 3 b) (sub 3 8 b) (field 11 2 b) (field 13 1 b) (field 14 2 b) (field 16 1 b)
    (field 17 2 b) (field 19 2 b) (field 21 1 b) (field 22 2 b) (field 24 2 b) (field 26 2 b)
    (field 28 4 b) (field 32 4 b).

Definition fat16_of_bytes (b : list Z) : Fat16BootSector :=
  mkFat16 (bpb_of_bytes b) (field 36 1 b) (field 37 1 b) (field 38 1 b) (field 39 4 b)
    (sub 43 11 b) (sub 54 8 b).

Definition fat32_of_bytes (b : list Z) : Fat32BootSector :=
  mkFat32 (bpb_of_bytes b) (field 36 4 b) (field 40 2 b) (field 42 2 b) (field 44 4 b)
    (field 48 2 b) (field 50 2 b) (sub 52 12 b) (field 64 1 b) (field 65 1 b) (field 66 1 b)
    (field 67 4 b) (sub 71 11 b) (sub 82 8 b).

Definition dirent_of_bytes (b : list Z) : DirectoryEntry :=
  mkDirent (sub 0 11 b) (field 11 1 b) (field 12 1 b) (field 13 1 b) (field 14 2 b) (field 16 2 b)
    (field 18 2 b) (field 20 2 b) (field 22 2 b) (field 24 2 b) (field 26 2 b) (field 28 4 b).

(** ** The volume *)

Section Volume.
Context `{Profile} `{BlockDevice D}.

Record FatVolume := mkVolume { device : D; start_lba : Z; fat_type : FatType }.
Implicit Types v : FatVolume.

Definition fat_mount (device : D) (start_lba : Z) : result FatVolume FsError :=
  match read_block device start_lba with
  | Err _ => Err BlockRead
  | Ok buffer =>
      let b510 := nth 510 buffer 0 in
      let b511 := nth 511 buffer 0 in
      if negb (b510 =? 0x55) || negb (b511 =? 0xAA) then Err (BadMagic 0xAA55 (le [b510; b511]))
      else
        let table_size_16 := field 22 2 buffer in
        Ok (mkVolume device start_lba
              (if table_size_16 =? 0 then Fat32 (fat32_of_bytes buffer) else Fat16 (fat16_of_bytes buffer)))
  end.

Definition bpb v : Bpb :=
  match fat_type v with Fat16 bs => bpb16 bs | Fat32 bs => bpb32 bs end.

(** The three geometry functions; [depth] bounds the nesting of their calls. *)
Fixpoint root_dir_sector (depth : nat) v : outcome Z :=
  match depth with
  | O => Stop OutOfFuel
  | S depth =>
      match fat_type v with
      | Fat16 bs =>
          let reserved := reserved_sector_count (bpb16 bs) in
          a <- uadd 64 (start_lba v) reserved;;
          t <- umul 64 (table_count (bpb16 bs)) (table_size_16 (bpb16 bs));;
          uadd 64 a t
      | Fat32 bs => cluster_to_sector depth v (root_cluster bs)
      end
  end
with first_data_sector (depth : nat) v : outcome Z :=
  match depth with
  | O => Stop OutOfFuel
  | S depth =>
      match fat_type v with
      | Fat16 bs =>
          let bytes_per_sector := bytes_per_sector (bpb16 bs) in
          e <- umul 64 (root_entry_count (bpb16 bs)) 32;;
          m <- usub 64 bytes_per_sector 1;;
          s <- uadd 64 e m;;
          root_dir_sectors <- udiv s bytes_per_sector;;
          r <- root_dir_sector depth v;;
          uadd 64 r root_dir_sectors
      | Fat32 _ => root_dir_sector depth v
      end
  end
with cluster_to_sector (depth : nat) v (cluster : Z) : outcome Z :=
  match depth with
  | O => Stop OutOfFuel
  | S depth =>
      let sectors_per_cluster := sectors_per_cluster (bpb v) in
      data_start <- first_data_sector depth v;;
      c <- usub 64 cluster 2;;
      cluster_offset <- umul 64 c sectors_per_cluster;;
      uadd 64 data_start cluster_offset
  end.

Definition next_cluster v (current_cluster : Z) : outcome (option Z) :=
  let reserved := reserved_sector_count (bpb v) in
  let bytes_per_sector := bytes_per_sector (bpb v) in
  let is_fat32 := match fat_type v with Fat32 _ => true | Fat16 _ => false end in
  fat_start_sector <- uadd 64 (start_lba v) reserved;;
  byte_offset <- umul 64 current_cluster (if is_fat32 then 4 else 2);;
  sector_offset <- udiv byte_offset bytes_per_sector;;
  byte_in_sector <- umod byte_offset bytes_per_sector;;
  target_sector <- uadd 64 fat_start_sector sector_offset;;
  match read_block (device v) target_sector with
  | Err _ => Ret None
  | Ok buffer =>
      b0 <- vget buffer byte_in_sector;;
      b1 <- vget buffer (byte_in_sector + 1);;
      if is_fat32 then
        b2 <- vget buffer (byte_in_sector + 2);;
        b3 <- vget buffer (byte_in_sector + 3);;
        let next := Z.land (le [b0; b1; b2; b3]) 0x0FFFFFFF in
        Ret (if 0x0FFFFFF8 <=? next then None else Some next)
      else
        let next := le [b0; b1] in
        Ret (if 0xFFF8 <=? next then None else Some next)
  end.

(** ** Directories *)

(** The sixteen entries of a directory sector. *)
Definition dirents (buffer : list Z) : list DirectoryEntry :=
  map (λ i, dirent_of_bytes (sub (Z.of_nat i * 32) 32 buffer)) (seq 0 16).

Definition SPACE : Z := 32.
Definition DOT : Z := 46.

(** The 8.3 name as the code rebuilds it. *)
Definition short_name (e : DirectoryEntry) : str :=
  filter (λ c, c ≠ SPACE) (sub 0 8 (de_name e))
  ++ (if nth 8 (de_name e) 0 =? SPACE then [] else DOT :: filter (λ c, c ≠ SPACE) (sub 8 3 (de_name e))).

Definition is_end (e : DirectoryEntry) : bool := nth 0 (de_name e) 0 =? 0x00.
Definition skipped (e : DirectoryEntry) : bool :=
  (nth 0 (de_name e) 0 =? 0xE5) || (attributes e =? 0x0F) || negb (Z.land (attributes e) 0x08 =? 0).
Definition entry_is_dir (e : DirectoryEntry) : bool := negb (Z.land (attributes e) 0x10 =? 0).
Definition entry_cluster (e : DirectoryEntry) : Z :=
  Z.lor (Z.shiftl (first_cluster_high e) 16) (first_cluster_low e).

(** The loop over the entries. *)
Fixpoint find_entry (name : str) (es : list DirectoryEntry) : option DirectoryEntry :=
  match es with
  | [] => None
  | e :: es' =>
      if is_end e then None
      else if skipped e then find_entry name es'
      else if eq_ignore_ascii_case (short_name e) name then Some e
      else find_entry name es'
  end.

(** ** Nodes *)

Record FatNode := mkFatNode { volume : FatVolume; start_cluster : Z; is_directory : bool; size : Z }.

Definition new_root v : FatNode := mkFatNode v 0 true 0.

Definition fat_lookup (depth : nat) (n : FatNode) (name : str) : outcome (option FatNode) :=
  if negb (is_directory n) then Ret None else
  target_sector <- (if start_cluster n =? 0 then root_dir_sector depth (volume n)
                    else cluster_to_sector depth (volume n) (start_cluster n));;
  match read_block (device (volume n)) target_sector with
  | Err _ => Ret None
  | Ok buffer =>
      Ret ((λ e, mkFatNode (volume n) (entry_cluster e) (entry_is_dir e) (file_size e))
             <$> find_entry name (dirents buffer))
  end.

(** [for _ in 0..clusters_to_skip]; [None] is the early [return 0]. *)
Fixpoint skip_clusters v (n : nat) (cluster : Z) : outcome (option Z) :=
  match n with
  | O => Ret (Some cluster)
  | S n =>
      o <- next_cluster v cluster;;
      match o with Some next => skip_clusters v n next | None => Ret None end
  end.

(** One round of the copy loop.  The state is the cluster, the offset in it and
    the bytes copied into [buf] so far. *)
Definition read_round (depth : nat) v (bytes_to_read bytes_per_cluster : Z)
    (st : Z * Z * list Z) : outcome (flow (Z * Z * list Z) (list Z)) :=
  let '(current_cluster, offset_in_cluster, copied) := st in
  let bytes_copied := Z.of_nat (length copied) in
  if negb (bytes_copied <? bytes_to_read) then Ret (Done copied) else
  let bps := bytes_per_sector (bpb v) in
  sector_in_cluster <- udiv offset_in_cluster bps;;
  offset_in_sector <- umod offset_in_cluster bps;;
  s <- cluster_to_sector depth v current_cluster;;
  target_sector <- uadd 64 s sector_in_cluster;;
  match read_block (device v) target_sector with
  | Err _ => Ret (Done copied)
  | Ok sector_buffer =>
      let chunk_size := Z.min (bps - offset_in_sector) (bytes_to_read - bytes_copied) in
      if Z.of_nat (length sector_buffer) <? offset_in_sector + chunk_size then Stop Panic else
      let copied := copied ++ sub offset_in_sector chunk_size sector_buffer in
      let offset_in_cluster := offset_in_cluster + chunk_size in
      if offset_in_cluster =? bytes_per_cluster then
        o <- next_cluster v current_cluster;;
        match o with
        | Some next => Ret (Next (next, 0, copied))
        | None => Ret (Done copied)
        end
      else Ret (Next (current_cluster, offset_in_cluster, copied))
  end.

(** [FatNode::read] into a buffer of [len] bytes: the bytes copied. *)
Definition fat_read (depth : nat) (n : FatNode) (offset len : Z) : outcome (list Z) :=
  let v := volume n in
  if is_directory n || (size n <=? offset) || (start_cluster n =? 0) || (len =? 0) then Ret [] else
  let bytes_to_read := Z.min len (size n - offset) in
  let bytes_per_cluster := bytes_per_sector (bpb v) * sectors_per_cluster (bpb v) in
  clusters_to_skip <- udiv offset bytes_per_cluster;;
  offset_in_cluster <- umod offset bytes_per_cluster;;
  o <- skip_clusters v (Z.to_nat clusters_to_skip) (start_cluster n);;
  match o with
  | None => Ret []
  | Some c =>
      loop (S (Z.to_nat bytes_to_read)) (read_round depth v bytes_to_read bytes_per_cluster)
        (c, offset_in_cluster, [])
  end.

(** ** The boot-time listing *)

Inductive listing :=
| ListDir (name : str) (cluster : Z)
| ListFile (name : str) (size cluster fragments : Z).

(** [while let Some(next) = .. { fragments += 1; .. if fragments > 20000 { break; } }]. *)
Fixpoint count_fragments v (fuel : nat) (current fragments : Z) : outcome Z :=
  match fuel with
  | O => Stop OutOfFuel
  | S fuel =>
      o <- next_cluster v current;;
      match o with
      | None => Ret fragments
      | Some next =>
          if 20000 <? fragments + 1 then Ret (fragments + 1)
          else count_fragments v fuel next (fragments + 1)
      end
  end.

Fixpoint list_entries v (es : list DirectoryEntry) : outcome (list listing) :=
  match es with
  | [] => Ret []
  | e :: es' =>
      if is_end e then Ret []
      else if skipped e then list_entries v es'
      else
        line <- (if entry_is_dir e then Ret (ListDir (short_name e) (entry_cluster e))
                 else f <- count_fragments v (Z.to_nat 20001) (entry_cluster e) 1;;
                      Ret (ListFile (short_name e) (file_size e) (entry_cluster e) f));;
        rest <- list_entries v es';;
        Ret (line :: rest)
  end.

(** The lines printed; [None] when the sector cannot be read. *)
Definition list_root_dir (depth : nat) v : outcome (option (list listing)) :=
  root_sector <- root_dir_sector depth v;;
  match read_block (device v) root_sector with
  | Err _ => Ret None
  | Ok buffer => l <- list_entries v (dirents buffer);; Ret (Some l)
  end.

(** [debug_info]: the two sector numbers it prints. *)
Definition debug_info (depth : nat) v : outcome (Z * Z) :=
  r <- root_dir_sector depth v;;
  d <- first_data_sector depth v;;
  Ret (r, d).

#[global] Instance FatNode_vnode (depth : nat) : VNode FatNode := {|
  vn_read := fat_read depth;
  vn_get_size := size;
  vn_is_dir := is_directory;
  vn_lookup := fat_lookup depth |}.
End Volume.
Arguments FatVolume : clear implicits.
Arguments FatNode : clear implicits.

(** ** Encodings *)

Definition bpb_fields (p : Bpb) : list (list Z) :=
  [jump_boot p; oem_name p; le_bytes 2 (bytes_per_sector p); le_bytes 1 (sectors_per_cluster p);
   le_bytes 2 (reserved_sector_count p); le_bytes 1 (table_count p); le_bytes 2 (root_entry_count p);
   le_bytes 2 (total_sectors_16 p); le_bytes 1 (media_type p); le_bytes 2 (table_size_16 p);
   le_bytes 2 (sectors_per_track p); le_bytes 2 (head_side_count p); le_bytes 4 (hidden_sector_count p);
   le_bytes 4 (total_sectors_32 p)].
Definition bpb_widths : list nat := [3; 8; 2; 1; 2; 1; 2; 2; 1; 2; 2; 2; 4; 4]%nat.

Definition fat16_fields (bs : Fat16BootSector) : list (list Z) :=
  bpb_fields (bpb16 bs) ++
  [le_bytes 1 (drive_number16 bs); le_bytes 1 (reserved_1_16 bs); le_bytes 1 (boot_signature16 bs);
   le_bytes 4 (volume_id16 bs); volume_label16 bs; fat_type_label16 bs].
Definition fat16_widths : list nat := bpb_widths ++ [1; 1; 1; 4; 11; 8]%nat.

Definition fat32_fields (bs : Fat32BootSector) : list (list Z) :=
  bpb_fields (bpb32 bs) ++
  [le_bytes 4 (table_size_32 bs); le_bytes 2 (extended_flags bs); le_bytes 2 (fat_version bs);
   le_bytes 4 (root_cluster bs); le_bytes 2 (fat_info bs); le_bytes 2 (backup_bs_sector bs);
   reserved_0 bs; le_bytes 1 (drive_number32 bs); le_bytes 1 (reserved_1_32 bs);
   le_bytes 1 (boot_signature32 bs); le_bytes 4 (volume_id32 bs); volume_label32 bs; fat_type_label32 bs].
Definition fat32_widths : list nat := bpb_widths ++ [4; 2; 2; 4; 2; 2; 12; 1; 1; 1; 4; 11; 8]%nat.

Definition dirent_fields (e : DirectoryEntry) : list (list Z) :=
  [de_name e; le_bytes 1 (attributes e); le_bytes 1 (de_reserved e); le_bytes 1 (creation_time_tenths e);
   le_bytes 2 (creation_time e); le_bytes 2 (creation_date e); le_bytes 2 (last_access_date e);
   le_bytes 2 (first_cluster_high e); le_bytes 2 (write_time e); le_bytes 2 (write_date e);
   le_bytes 2 (first_cluster_low e); le_bytes 4 (file_size e)].
Definition dirent_widths : list nat := [11; 1; 1; 1; 2; 2; 2; 2; 2; 2; 2; 4]%nat.

(** The widths of the fields. *)
Definition u8 (x : Z) : Prop := 0 ≤ x < 256.
Definition u16 (x : Z) : Prop := 0 ≤ x < 65536.
Definition u32 (x : Z) : Prop := 0 ≤ x < 4294967296.

Definition bpb_wf (p : Bpb) : Prop :=
  length (jump_boot p) = 3%nat ∧ length (oem_name p) = 8%nat ∧ u16 (bytes_per_sector p)
  ∧ u8 (sectors_per_cluster p) ∧ u16 (reserved_sector_count p) ∧ u8 (table_count p)
  ∧ u16 (root_entry_count p) ∧ u16 (total_sectors_16 p) ∧ u8 (media_type p) ∧ u16 (table_size_16 p)
  ∧ u16 (sectors_per_track p) ∧ u16 (head_side_count p) ∧ u32 (hidden_sector_count p)
  ∧ u32 (total_sectors_32 p).

Definition fat16_wf (bs : Fat16BootSector) : Prop :=
  bpb_wf (bpb16 bs) ∧ u8 (drive_number16 bs) ∧ u8 (reserved_1_16 bs) ∧ u8 (boot_signature16 bs)
  ∧ u32 (volume_id16 bs) ∧ length (volume_label16 bs) = 11%nat ∧ length (fat_type_label16 bs) = 8%nat.

Definition fat32_wf (bs : Fat32BootSector) : Prop :=
  bpb_wf (bpb32 bs) ∧ u32 (table_size_32 bs) ∧ u16 (extended_flags bs) ∧ u16 (fat_version bs)
  ∧ u32 (root_cluster bs) ∧ u16 (fat_info bs) ∧ u16 (backup_bs_sector bs) ∧ length (reserved_0 bs) = 12%nat
  ∧ u8 (drive_number32 bs) ∧ u8 (reserved_1_32 bs) ∧ u8 (boot_signature32 bs) ∧ u32 (volume_id32 bs)
  ∧ length (volume_label32 bs) = 11%nat ∧ length (fat_type_label32 bs) = 8%nat.

Definition dirent_wf (e : DirectoryEntry) : Prop :=
  length (de_name e) = 11%nat ∧ u8 (attributes e) ∧ u8 (de_reserved e) ∧ u8 (creation_time_tenths e)
  ∧ u16 (creation_time e) ∧ u16 (creation_date e) ∧ u16 (last_access_date e) ∧ u16 (first_cluster_high e)
  ∧ u16 (write_time e) ∧ u16 (write_date e) ∧ u16 (first_cluster_low e) ∧ u32 (file_size e).

Lemma bpb_widths_ok p : bpb_wf p → widths_ok (bpb_fields p) bpb_widths.
Proof. intros (? & ? & _). widths. Qed.

(** Decoding the shared part, whatever follows it. *)
Lemma bpb_roundtrip p rest : bpb_wf p → bpb_of_bytes (concat (bpb_fields p) ++ rest) = p.
Proof.
  intros Hp. pose proof (bpb_widths_ok p Hp) as Hw. destruct Hp as (? & ? & Hp).
  unfold u8, u16, u32 in Hp. destruct p. unfold bpb_of_bytes. simpl in Hp.
  f_equal; decode_field Hw 14%nat.
Qed.

Lemma fat16_roundtrip bs rest : fat16_wf bs → fat16_of_bytes (concat (fat16_fields bs) ++ rest) = bs.
Proof.
  intros (Hp & Hb). unfold u8, u32 in Hb.
  assert (widths_ok (fat16_fields bs) fat16_widths) as Hw.
  { apply Forall2_app; [by apply bpb_widths_ok|]. destruct Hb as (_ & _ & _ & _ & ? & ?). widths. }
  assert (bpb_of_bytes (concat (fat16_fields bs) ++ rest) = bpb16 bs) as Hc.
  { unfold fat16_fields. rewrite concat_app, <- app_assoc. by apply bpb_roundtrip. }
  unfold fat16_of_bytes. rewrite Hc. destruct bs. simpl in Hb. f_equal; decode_field Hw 20%nat.
Qed.

Lemma fat32_roundtrip bs rest : fat32_wf bs → fat32_of_bytes (concat (fat32_fields bs) ++ rest) = bs.
Proof.
  intros (Hp & Hb). unfold u8, u16, u32 in Hb.
  assert (widths_ok (fat32_fields bs) fat32_widths) as Hw.
  { apply Forall2_app; [by apply bpb_widths_ok|].
    destruct Hb as (_ & _ & _ & _ & _ & _ & ? & _ & _ & _ & _ & ? & ?). widths. }
  assert (bpb_of_bytes (concat (fat32_fields bs) ++ rest) = bpb32 bs) as Hc.
  { unfold fat32_fields. rewrite concat_app, <- app_assoc. by apply bpb_roundtrip. }
  unfold fat32_of_bytes. rewrite Hc. destruct bs. simpl in Hb. f_equal; decode_field Hw 27%nat.
Qed.

Lemma dirent_widths_ok e : dirent_wf e → widths_ok (dirent_fields e) dirent_widths.
Proof. intros (? & _). widths. Qed.

Lemma dirent_roundtrip e rest : dirent_wf e → dirent_of_bytes (concat (dirent_fields e) ++ rest) = e.
Proof.
  intros He. pose proof (dirent_widths_ok e He) as Hw. unfold dirent_wf, u8, u16, u32 in He.
  destruct e. unfold dirent_of_bytes. simpl in He. f_equal; decode_field Hw 12%nat.
Qed.

(** ** Theorems *)

Section FatTheorems.
Context `{HP : Profile} `{HD : BlockDevice D}.
Implicit Types v : FatVolume D.

Lemma nth_signature (b : list Z) k : length b = 510%nat → nth (510 + k) (b ++ [0x55; 0xAA]) 0 = nth k [0x55; 0xAA] 0.
Proof. intros Hb. rewrite app_nth2 by lia. f_equal. lia. Qed.

Lemma field_22 p ext rest : bpb_wf p → field 22 2 (concat (bpb_fields p ++ ext) ++ rest) = table_size_16 p.
Proof.
  intros Hp. rewrite concat_app, <- app_assoc.
  change (field 22 2 ?b) with (table_size_16 (bpb_of_bytes b)). by rewrite bpb_roundtrip.
Qed.

(** Mounting decodes the boot sector.  A sector that encodes a FAT16 or a
    FAT32 boot record and ends in the signature is mounted as exactly that
    record, the variant chosen by the 16-bit table size; a sector that cannot be
    read gives [BlockRead], and one without the signature [BadMagic]. *)
Theorem fat_mount_decodes (dev : D) lba bs16 bs32 code16 code32 b e :
  fat16_wf bs16 → table_size_16 (bpb16 bs16) ≠ 0 → length code16 = 448%nat →
  fat32_wf bs32 → table_size_16 (bpb32 bs32) = 0 → length code32 = 420%nat →
  nth 510 b 0 ≠ 0x55 ∨ nth 511 b 0 ≠ 0xAA →
  (read_block dev lba = Ok ((concat (fat16_fields bs16) ++ code16) ++ [0x55; 0xAA]) →
     fat_mount dev lba = Ok (mkVolume dev lba (Fat16 bs16)))
  ∧ (read_block dev lba = Ok ((concat (fat32_fields bs32) ++ code32) ++ [0x55; 0xAA]) →
     fat_mount dev lba = Ok (mkVolume dev lba (Fat32 bs32)))
  ∧ (read_block dev lba = Ok b →
     fat_mount dev lba = Err (BadMagic 0xAA55 (le [nth 510 b 0; nth 511 b 0])))
  ∧ (read_block dev lba = Err e → fat_mount dev lba = Err BlockRead).
Proof.
  intros H16 Ht16 Hc16 H32 Ht32 Hc32 Hmagic. unfold fat_mount. split_and!.
  - assert (length (concat (fat16_fields bs16) ++ code16) = 510%nat) as Hl.
    { rewrite length_app, (length_concat_widths _ fat16_widths), Hc16; [done|].
      destruct H16 as (? & _ & _ & _ & _ & ? & ?). apply Forall2_app; [by apply bpb_widths_ok|widths]. }
    intros ->. pose proof (nth_signature _ 0 Hl) as H0. pose proof (nth_signature _ 1 Hl) as H1.
    cbn [Nat.add] in H0, H1. rewrite H0, H1. cbn [nth Z.eqb Pos.eqb negb orb].
    rewrite <- app_assoc. unfold fat16_fields at 1. rewrite field_22 by apply H16.
    rewrite (proj2 (Z.eqb_neq _ _)) by done. by rewrite fat16_roundtrip.
  - assert (length (concat (fat32_fields bs32) ++ code32) = 510%nat) as Hl.
    { rewrite length_app, (length_concat_widths _ fat32_widths), Hc32; [done|].
      destruct H32 as (? & _ & _ & _ & _ & _ & _ & ? & _ & _ & _ & _ & ? & ?).
      apply Forall2_app; [by apply bpb_widths_ok|widths]. }
    intros ->. pose proof (nth_signature _ 0 Hl) as H0. pose proof (nth_signature _ 1 Hl) as H1.
    cbn [Nat.add] in H0, H1. rewrite H0, H1. cbn [nth Z.eqb Pos.eqb negb orb].
    rewrite <- app_assoc. unfold fat32_fields at 1. rewrite field_22 by apply H32.
    rewrite Ht32. by rewrite fat32_roundtrip.
  - intros ->. destruct (Z.eqb_spec (nth 510 b 0) 0x55), (Z.eqb_spec (nth 511 b 0) 0xAA); try done. tauto.
  - by intros ->.
Qed.

(** ** FAT32 *)

(** The equations of the geometry functions. *)
Lemma root_dir_sector_S depth v : root_dir_sector (S depth) v =
  match fat_type v with
  | Fat16 bs => a <- uadd 64 (start_lba v) (reserved_sector_count (bpb16 bs));;
                t <- umul 64 (table_count (bpb16 bs)) (table_size_16 (bpb16 bs));; uadd 64 a t
  | Fat32 bs => cluster_to_sector depth v (root_cluster bs)
  end.
Proof. done. Qed.

Lemma first_data_sector_S depth v : first_data_sector (S depth) v =
  match fat_type v with
  | Fat16 bs => e <- umul 64 (root_entry_count (bpb16 bs)) 32;;
                m <- usub 64 (bytes_per_sector (bpb16 bs)) 1;; s <- uadd 64 e m;;
                q <- udiv s (bytes_per_sector (bpb16 bs));; r <- root_dir_sector depth v;; uadd 64 r q
  | Fat32 _ => root_dir_sector depth v
  end.
Proof. done. Qed.

Lemma cluster_to_sector_S depth v cluster : cluster_to_sector (S depth) v cluster =
  (s <- first_data_sector depth v;; c <- usub 64 cluster 2;;
   o <- umul 64 c (sectors_per_cluster (bpb v));; uadd 64 s o).
Proof. done. Qed.

Lemma fat32_no_depth v bs cluster depth : fat_type v = Fat32 bs →
  root_dir_sector depth v = Stop OutOfFuel ∧ first_data_sector depth v = Stop OutOfFuel
  ∧ cluster_to_sector depth v cluster = Stop OutOfFuel.
Proof.
  intros Hv. revert cluster. induction depth as [|depth IH]; intros cluster; [done|].
  rewrite root_dir_sector_S, first_data_sector_S, cluster_to_sector_S, Hv.
  destruct (IH (root_cluster bs)) as (IH1 & IH2 & IH3). by rewrite IH2.
Qed.

(** C37: FAT32 volumes cannot be used.  [root_dir_sector] asks
    [cluster_to_sector], which asks [first_data_sector], which asks
    [root_dir_sector] again: no call depth is enough for any of them, so the
    boot-time listing, a lookup in the root directory and the first read of a
    non-empty file overflow the kernel stack. *)
Theorem fat32_recursion_unbounded v bs depth name cluster sz len :
  fat_type v = Fat32 bs → 0 < cluster → 0 < sz → 0 < len →
  0 < bytes_per_sector (bpb v) → 0 < sectors_per_cluster (bpb v) →
  debug_info depth v = Stop OutOfFuel
  ∧ list_root_dir depth v = Stop OutOfFuel
  ∧ fat_lookup depth (new_root v) name = Stop OutOfFuel
  ∧ fat_read depth (mkFatNode v cluster false sz) 0 len = Stop OutOfFuel.
Proof.
  intros Hv Hc Hsz Hlen Hb Hs. destruct (fat32_no_depth v bs cluster depth Hv) as (H1 & H2 & H3).
  unfold debug_info, list_root_dir, fat_lookup, fat_read, new_root.
  cbn [is_directory start_cluster volume size negb Z.eqb]. rewrite H1. cbn [obind]. split_and!; try done.
  rewrite (proj2 (Z.leb_gt _ _)), (proj2 (Z.eqb_neq _ _)), (proj2 (Z.eqb_neq _ _)) by lia. cbn [orb].
  unfold udiv at 1, umod at 1. rewrite (proj2 (Z.eqb_neq (_ * _) 0)) by lia. cbn [obind].
  rewrite Z.div_0_l by lia. change (Z.to_nat 0) with 0%nat. cbn [skip_clusters obind loop].
  unfold read_round at 1. rewrite (proj2 (Z.ltb_lt _ _)) by (simpl; lia). cbn [negb].
  unfold udiv, umod. rewrite (proj2 (Z.eqb_neq (bytes_per_sector (bpb v)) 0)) by lia.
  cbn [obind]. by rewrite H3.
Qed.
End FatTheorems.

(** ** FAT16 volumes *)

(** A chain of clusters in the allocation table. *)
Inductive fat_chain (fat : list Z) (clusters : Z) : Z → list Z → Prop :=
| chain_last c e : 2 ≤ c < clusters → fat !! Z.to_nat c = Some e → 0xFFF8 ≤ e → fat_chain fat clusters c [c]
| chain_next c e cs : 2 ≤ c < clusters → fat !! Z.to_nat c = Some e → e < 0xFFF8 →
    fat_chain fat clusters e cs → fat_chain fat clusters c (c :: cs).

Section Fat16.
Context `{HP : Profile} `{HD : BlockDevice D}.
Context (v : FatVolume D) (bs : Fat16BootSector).

Definition root_lba : Z :=
  start_lba v + reserved_sector_count (bpb16 bs) + table_count (bpb16 bs) * table_size_16 (bpb16 bs).
Definition data_lba : Z := root_lba + (root_entry_count (bpb16 bs) * 32 + 511) / 512.
Definition cluster_lba (c : Z) : Z := data_lba + (c - 2) * sectors_per_cluster (bpb16 bs).

(** The disk holds a FAT16 volume with the allocation table [fat] and the given
    contents of its data clusters (the numbers 2 up to [clusters]). *)
Record fat16_image (fat : list Z) (clusters : Z) (content : Z → list Z) : Prop := {
  im_type : fat_type v = Fat16 bs;
  im_wf : bpb_wf (bpb16 bs);
  im_bps : bytes_per_sector (bpb16 bs) = 512;
  im_spc : 0 < sectors_per_cluster (bpb16 bs);
  im_lba : u32 (start_lba v);
  im_fat_length : Z.of_nat (length fat) = 256 * table_size_16 (bpb16 bs);
  im_clusters : clusters ≤ Z.of_nat (length fat);
  im_fat_words : Forall u16 fat;
  im_fat k : 0 ≤ k < table_size_16 (bpb16 bs) →
    read_block (device v) (start_lba v + reserved_sector_count (bpb16 bs) + k)
    = Ok (concat (map (le_bytes 2) (sub (256 * k) 256 fat)));
  im_content_length c : Z.of_nat (length (content c)) = 512 * sectors_per_cluster (bpb16 bs);
  im_content c j : 2 ≤ c < clusters → 0 ≤ j < sectors_per_cluster (bpb16 bs) →
    read_block (device v) (cluster_lba c + j) = Ok (sub (512 * j) 512 (content c));
}.

Context (fat : list Z) (clusters : Z) (content : Z → list Z) (Him : fat16_image fat clusters content).

Lemma bpb_16 : bpb v = bpb16 bs.
Proof. unfold bpb. by rewrite (im_type _ _ _ Him). Qed.

Lemma root_dir_sector_16 depth : (1 ≤ depth)%nat → root_dir_sector depth v = Ret root_lba.
Proof.
  intros Hd. destruct depth as [|depth]; [lia|]. rewrite root_dir_sector_S, (im_type _ _ _ Him).
  pose proof (im_lba _ _ _ Him) as Hl. pose proof (im_wf _ _ _ Him) as Hw. unfold bpb_wf, u8, u16, u32 in *.
  unfold uadd, umul. rewrite checked_ok by lia. cbn [obind]. rewrite checked_ok by nia. cbn [obind].
  rewrite checked_ok by nia. done.
Qed.

Lemma root_lba_bound : 0 ≤ root_lba < 2 ^ 33.
Proof.
  pose proof (im_lba _ _ _ Him) as Hl. pose proof (im_wf _ _ _ Him) as Hw. unfold bpb_wf, u8, u16, u32 in *.
  unfold root_lba. nia.
Qed.

Lemma cluster_to_sector_16 depth c : (3 ≤ depth)%nat → 2 ≤ c < clusters →
  cluster_to_sector depth v c = Ret (cluster_lba c) ∧ 0 ≤ cluster_lba c < 2 ^ 62.
Proof.
  intros Hd Hc. do 2 (destruct depth as [|depth]; [lia|]).
  rewrite cluster_to_sector_S, first_data_sector_S, (im_type _ _ _ Him), bpb_16.
  rewrite root_dir_sector_16 by lia. pose proof root_lba_bound as Hr.
  pose proof (im_wf _ _ _ Him) as Hw. pose proof (im_clusters _ _ _ Him) as Hcl.
  pose proof (im_fat_length _ _ _ Him). unfold bpb_wf, u8, u16, u32 in Hw.
  unfold uadd, usub, umul, udiv. rewrite (im_bps _ _ _ Him).
  rewrite checked_ok by lia. cbn [obind]. rewrite checked_ok by lia. cbn [obind].
  rewrite checked_ok by lia. cbn [obind Z.eqb]. change (512 - 1) with 511.
  assert (0 ≤ (root_entry_count (bpb16 bs) * 32 + 511) / 512 < 2 ^ 33) as Hq by zlia.
  rewrite checked_ok by lia. cbn [obind]. fold data_lba.
  assert (0 ≤ data_lba < 2 ^ 34) as Hdl by (unfold data_lba; lia).
  rewrite checked_ok by lia. cbn [obind].
  assert (0 ≤ (c - 2) * sectors_per_cluster (bpb16 bs) < 2 ^ 34) as Hm by nia.
  rewrite checked_ok by lia. cbn [obind]. rewrite checked_ok by lia.
  unfold cluster_lba. split; [done|lia].
Qed.

(** The table: two bytes per entry. *)
Lemma lookup_table (l : list Z) i x : l !! i = Some x →
  concat (map (le_bytes 2) l) !! (2 * i)%nat = Some (x mod 256)
  ∧ concat (map (le_bytes 2) l) !! (2 * i + 1)%nat = Some (x / 256 mod 256).
Proof.
  revert i. induction l as [|y l IH]; intros i Hi; [done|]. destruct i as [|i]; simpl in Hi; [by simplify_eq|].
  destruct (IH i Hi) as [H0 H1].
  replace (2 * S i)%nat with (S (S (2 * i))) by lia. replace (S (S (2 * i)) + 1)%nat with (S (S (2 * i + 1))) by lia.
  cbn [map concat le_bytes app]. done.
Qed.

Lemma next_cluster_16 c e : 0 ≤ c → fat !! Z.to_nat c = Some e →
  next_cluster v c = Ret (if 0xFFF8 <=? e then None else Some e).
Proof.
  intros Hc He. pose proof (lookup_lt_Some _ _ _ He) as Hlt.
  pose proof (im_lba _ _ _ Him) as Hl. pose proof (im_wf _ _ _ Him) as Hw. pose proof (im_fat_length _ _ _ Him) as Hfl.
  unfold bpb_wf, u8, u16, u32 in *. unfold next_cluster. rewrite bpb_16, (im_type _ _ _ Him), (im_bps _ _ _ Him).
  unfold uadd, umul, udiv, umod. rewrite checked_ok by lia. cbn [obind]. rewrite checked_ok by lia. cbn [obind Z.eqb].
  rewrite checked_ok by zlia. cbn [obind].
  assert (c * 2 / 512 = c / 256) as -> by zlia. assert (c * 2 mod 512 = 2 * (c mod 256)) as -> by zlia.
  rewrite (im_fat _ _ _ Him) by zlia.
  assert (sub (256 * (c / 256)) 256 fat !! Z.to_nat (c mod 256) = Some e) as Hs.
  { rewrite lookup_sub by zlia. rewrite <- He. f_equal. zlia. }
  destruct (lookup_table _ _ _ Hs) as [H0 H1]. unfold vget.
  replace (Z.to_nat (2 * (c mod 256))) with (2 * Z.to_nat (c mod 256))%nat by zlia.
  replace (Z.to_nat (2 * (c mod 256) + 1)) with (2 * Z.to_nat (c mod 256) + 1)%nat by zlia.
  rewrite H0, H1. cbn [obind]. replace (le [e mod 256; e / 256 mod 256]) with e; [done|].
  pose proof (im_fat_words _ _ _ Him) as Hw16. eapply Forall_lookup_1 in Hw16; [|exact He]. unfold u16 in Hw16.
  simpl. zlia.
Qed.

Lemma chain_head c cs : fat_chain fat clusters c cs → 2 ≤ c < clusters ∧ ∃ cs', cs = c :: cs'.
Proof. inversion 1; eauto. Qed.

(** The step of a chain. *)
Lemma next_cluster_chain c cs : fat_chain fat clusters c (c :: cs) →
  match cs with
  | [] => next_cluster v c = Ret None
  | c' :: _ => next_cluster v c = Ret (Some c') ∧ fat_chain fat clusters c' cs
  end.
Proof.
  intros Hc. inversion Hc as [c0 e Hr He Hge|c0 e cs0 Hr He Hlt Hcs]; subst.
  - rewrite (next_cluster_16 c e) by (done || lia). by rewrite (proj2 (Z.leb_le _ _)).
  - destruct (chain_head _ _ Hcs) as (_ & cs' & ->).
    rewrite (next_cluster_16 c e) by (done || lia). by rewrite (proj2 (Z.leb_gt _ _)).
Qed.

Lemma skip_clusters_chain n : ∀ c cs, fat_chain fat clusters c cs → (n < length cs)%nat →
  ∃ c', skip_clusters v n c = Ret (Some c') ∧ fat_chain fat clusters c' (drop n cs).
Proof.
  induction n as [|n IH]; intros c cs Hc Hn; [by exists c|].
  destruct (chain_head _ _ Hc) as (_ & cs' & ->). pose proof (next_cluster_chain _ _ Hc) as Hnext.
  destruct cs' as [|c' cs']; [simpl in Hn; lia|]. destruct Hnext as [Hnext Hc'].
  cbn [skip_clusters]. rewrite Hnext. cbn [obind drop]. apply IH; [done|]. simpl in Hn |- *. lia.
Qed.

Abbreviation spc := (sectors_per_cluster (bpb16 bs)).
Abbreviation bpc := (512 * sectors_per_cluster (bpb16 bs)).

Definition chain_data (cs : list Z) : list Z := concat (map content cs).

Lemma length_chain_data cs : Z.of_nat (length (chain_data cs)) = Z.of_nat (length cs) * bpc.
Proof.
  unfold chain_data. induction cs as [|c cs IH]; [done|]. cbn [map concat length].
  rewrite length_app, Nat2Z.inj_add, IH, (im_content_length _ _ _ Him). lia.
Qed.

Lemma drop_chain_data n cs : drop (Z.to_nat (Z.of_nat n * bpc)) (chain_data cs) = chain_data (drop n cs).
Proof.
  pose proof (im_spc _ _ _ Him) as Hs. revert cs. induction n as [|n IH]; intros cs; [done|].
  destruct cs as [|c cs]; [apply drop_nil|]. cbn [drop]. rewrite <- IH.
  unfold chain_data at 1. cbn [map concat]. pose proof (im_content_length _ _ _ Him c) as Hl.
  rewrite drop_app_ge by nia. unfold chain_data. f_equal. nia.
Qed.

(** What is left to copy: the bytes of the chain from the current position. *)
Definition read_inv (rest : list Z) (bytes_to_read : Z) (st : Z * Z * list Z) : Prop :=
  let '(cur, oic, copied) := st in
  ∃ cs, fat_chain fat clusters cur cs ∧ 0 ≤ oic < bpc
    ∧ rest = copied ++ drop (Z.to_nat oic) (chain_data cs)
    ∧ Z.of_nat (length copied) ≤ bytes_to_read.

(** The bytes copied in one round. *)
Lemma chunk_bytes c cs oic chunk : 0 ≤ oic → 0 ≤ chunk → oic mod 512 + chunk ≤ 512 → oic + chunk ≤ bpc →
  sub (oic mod 512) chunk (sub (512 * (oic / 512)) 512 (content c)) ++ drop (Z.to_nat (oic + chunk)) (chain_data (c :: cs))
  = drop (Z.to_nat oic) (chain_data (c :: cs)).
Proof.
  intros Ho Hc Hs Hb. rewrite sub_sub by zlia. replace (512 * (oic / 512) + oic mod 512) with oic by zlia.
  unfold chain_data. cbn [map concat]. pose proof (im_content_length _ _ _ Him c) as Hl.
  rewrite !drop_app_le by lia. rewrite app_assoc. f_equal. unfold sub.
  replace (Z.to_nat (oic + chunk)) with (Z.to_nat oic + Z.to_nat chunk)%nat by lia.
  rewrite <- drop_drop. apply take_drop.
Qed.

Lemma read_round_inv depth rest bytes_to_read st : (3 ≤ depth)%nat →
  bytes_to_read ≤ Z.of_nat (length rest) → read_inv rest bytes_to_read st →
  wp (read_round depth v bytes_to_read bpc st) (λ r,
    match r with
    | Next st' => read_inv rest bytes_to_read st' ∧ (length st.2 < length st'.2)%nat
    | Done copied => copied = take (Z.to_nat bytes_to_read) rest
    end).
Proof.
  destruct st as [[cur oic] copied]. intros Hd Hbtr (cs & Hcs & Hoic & Hrest & Hcop). unfold read_round.
  assert (Z.of_nat (length copied) = bytes_to_read → ∀ u, rest = copied ++ u → copied = take (Z.to_nat bytes_to_read) rest) as Hfin.
  { intros <- u ->. by rewrite Nat2Z.id, take_app_length. }
  destruct (Z.ltb_spec (Z.of_nat (length copied)) bytes_to_read) as [Hlt|]; cbn [negb]; [|wp_step; eapply Hfin; [lia|done]].
  destruct (chain_head _ _ Hcs) as (Hcur & cs' & ->). rewrite bpb_16, (im_bps _ _ _ Him).
  unfold udiv, umod. cbn [Z.eqb obind].
  destruct (cluster_to_sector_16 depth cur Hd Hcur) as [-> Hlba]. cbn [obind]. pose proof (im_wf _ _ _ Him) as Hw.
  unfold bpb_wf, u8 in Hw. unfold uadd. rewrite checked_ok by zlia. cbn [obind].
  rewrite (im_content _ _ _ Him) by zlia. set (chunk := Z.min _ _).
  assert (0 < chunk ∧ oic mod 512 + chunk ≤ 512 ∧ oic + chunk ≤ bpc ∧ Z.of_nat (length copied) + chunk ≤ bytes_to_read) as (Hc1 & Hc2 & Hc3 & Hc4)
    by (unfold chunk; zlia).
  pose proof (im_content_length _ _ _ Him cur) as Hcl.
  rewrite length_sub by zlia. rewrite (proj2 (Z.ltb_ge _ _)) by lia.
  set (bytes := sub (oic mod 512) chunk _).
  assert (length bytes = Z.to_nat chunk) as Hlb.
  { unfold bytes. apply length_sub; [zlia..|]. rewrite length_sub by zlia. lia. }
  assert (rest = (copied ++ bytes) ++ drop (Z.to_nat (oic + chunk)) (chain_data (cur :: cs'))) as Hrest'.
  { rewrite Hrest, <- app_assoc. f_equal. symmetry. apply chunk_bytes; lia. }
  clear Hrest Hfin. clearbody bytes chunk.
  destruct (Z.eqb_spec (oic + chunk) bpc) as [Heq|].
  - rewrite Heq in Hrest'. pose proof (drop_chain_data 1 (cur :: cs')) as Hdrop. rewrite Z.mul_1_l in Hdrop.
    rewrite Hdrop in Hrest'. cbn [drop] in Hrest'.
    pose proof (next_cluster_chain _ _ Hcs) as Hnext. destruct cs' as [|c' cs'].
    + rewrite Hnext. cbn [obind]. wp_step. unfold chain_data in Hrest'. cbn [map concat] in Hrest'.
      rewrite app_nil_r in Hrest'. rewrite <- Hrest'. rewrite take_ge; [done|].
      apply (f_equal length) in Hrest'. rewrite length_app in Hrest'. lia.
    + destruct Hnext as [-> Hc']. cbn [obind]. wp_step. split; [|simpl; rewrite length_app; lia].
      exists (c' :: cs'). split_and!; [done|pose proof (im_spc _ _ _ Him); lia..|done|rewrite length_app; lia].
  - wp_step. split; [|simpl; rewrite length_app; lia].
    exists (cur :: cs'). split_and!; [done|lia..|done|rewrite length_app; lia].
Qed.

(** Reading a file whose clusters hold at least its size. *)
Lemma fat_read_16 depth c cs sz offset len : (3 ≤ depth)%nat → fat_chain fat clusters c cs →
  0 ≤ sz ≤ Z.of_nat (length cs) * bpc → 0 ≤ offset → 0 ≤ len →
  fat_read depth (mkFatNode v c false sz) offset len
  = Ret (take (Z.to_nat len) (drop (Z.to_nat offset) (take (Z.to_nat sz) (chain_data cs)))).
Proof.
  intros Hd Hcs Hsz Hoff Hlen. unfold fat_read. cbn [volume is_directory size start_cluster orb].
  destruct (chain_head _ _ Hcs) as (Hc & _). rewrite (proj2 (Z.eqb_neq c 0)), orb_false_r by lia.
  destruct (Z.leb_spec sz offset) as [|Hlt]; cbn [orb].
  { rewrite drop_ge by (rewrite length_take; lia). by rewrite take_nil. }
  destruct (Z.eqb_spec len 0) as [->|]; [done|]. rewrite bpb_16, (im_bps _ _ _ Him).
  pose proof (im_spc _ _ _ Him) as Hs. pose proof (length_chain_data cs) as Hld.
  unfold udiv, umod. rewrite (proj2 (Z.eqb_neq bpc 0)) by lia. cbn [obind].
  set (k := offset / bpc). set (r := offset mod bpc). set (btr := Z.min len (sz - offset)).
  assert (offset = k * bpc + r ∧ 0 ≤ r < bpc ∧ 0 ≤ k) as (Hk & Hr & Hk0).
  { unfold k, r. pose proof (Z.div_mod offset bpc ltac:(lia)). pose proof (Z.mod_pos_bound offset bpc ltac:(lia)).
    pose proof (Z.div_pos offset bpc Hoff ltac:(lia)). lia. }
  destruct (skip_clusters_chain (Z.to_nat k) c cs Hcs) as (c' & -> & Hc'); [nia|]. cbn [obind].
  assert (drop (Z.to_nat r) (chain_data (drop (Z.to_nat k) cs)) = drop (Z.to_nat offset) (chain_data cs)) as Hdr.
  { rewrite <- drop_chain_data, drop_drop. f_equal. rewrite Z2Nat.id by lia. lia. }
  set (rest := drop (Z.to_nat offset) (chain_data cs)) in *.
  assert (btr ≤ Z.of_nat (length rest)) as Hbl by (unfold rest, btr; rewrite length_drop; lia).
  destruct (wp_inv _ _ (wp_loop (read_inv rest btr) (λ st, (Z.to_nat btr - length st.2)%nat)
    (λ copied, copied = take (Z.to_nat btr) rest) (read_round depth v btr bpc)
    ltac:(intros st Hst; eapply wp_mono; [by apply read_round_inv|]; intros [st'|?]; [|done];
          intros [Hi Hl]; split; [done|]; destruct st' as [[? ?] cp]; destruct Hi as (? & _ & _ & _ & Hle); simpl in *; lia)
    (S (Z.to_nat btr)) (c', r, []) ltac:(exists (drop (Z.to_nat k) cs); split_and!; [done|lia..|by rewrite Hdr|simpl; unfold btr; lia])
    ltac:(simpl; lia))) as (a & -> & ->).
  f_equal. unfold rest, btr. rewrite skipn_firstn_comm, take_take. f_equal. lia.
Qed.
End Fat16.

Section Fat16Theorems.
Context `{HP : Profile} `{HD : BlockDevice D}.
Implicit Types v : FatVolume D.

Definition dir_sector (es : list DirectoryEntry) : list Z := concat (map (λ e, concat (dirent_fields e)) es).

Lemma dirents_dir_sector es : length es = 16%nat → Forall dirent_wf es → dirents (dir_sector es) = es.
Proof.
  intros Hl Hwf. apply list_eq. intros i. unfold dirents. rewrite list_lookup_fmap.
  destruct (decide (i < 16)%nat) as [Hi|]; [|rewrite lookup_seq_ge by lia; by rewrite lookup_ge_None_2 by lia].
  rewrite lookup_seq_lt by lia. cbn [fmap option_fmap option_map Nat.add].
  destruct (lookup_lt_is_Some_2 es i ltac:(lia)) as [e He]. rewrite He. f_equal.
  assert (dirent_wf e) as Hwe by (by eapply Forall_lookup_1 in Hwf).
  rewrite <- (app_nil_r (dir_sector es)). unfold dir_sector.
  rewrite (sub_concat _ (replicate 16 32%nat) _ i (concat (dirent_fields e))).
  - rewrite <- (app_nil_r (concat _)). by apply dirent_roundtrip.
  - assert (∀ k, length es = k → widths_ok (map (λ e, concat (dirent_fields e)) es) (replicate k 32%nat)) as Hws; [|by apply Hws].
    intros k <-. clear -Hwf. induction Hwf as [|x l Hx _ IH]; [constructor|]. cbn [map length replicate].
    constructor; [|exact IH]. by rewrite (length_concat_widths _ _ (dirent_widths_ok x Hx)).
  - rewrite list_lookup_fmap, He. done.
  - rewrite take_replicate, sum_list_replicate. lia.
  - by rewrite lookup_replicate_2.
Qed.

Definition live (name : str) (e : DirectoryEntry) : bool :=
  negb (skipped e) && eq_ignore_ascii_case (short_name e) name.

Lemma find_entry_first name es1 e es2 :
  Forall (λ x, is_end x = false ∧ live name x = false) es1 → is_end e = false → live name e = true →
  find_entry name (es1 ++ e :: es2) = Some e.
Proof.
  intros H1 He Hl. unfold live in *. induction H1 as [|x es1 [Hx Hlx] _ IH]; simpl.
  - rewrite He. destruct (skipped e); [done|]. simpl in Hl. by rewrite Hl.
  - rewrite Hx. destruct (skipped x); [done|]. simpl in Hlx. by rewrite Hlx.
Qed.

(** C19: files of a FAT16 volume.  On a volume whose disk holds an allocation
    table and cluster contents, the first live entry with a name (compared
    without case, as rebuilt from the 8.3 slot) among the sixteen of the first
    sector of the root directory, the only one [lookup] reads, is found; if it is
    a file whose chain is long enough for its size, reading the node at any offset
    into a buffer of any length returns, in full and in order, the bytes of the
    concatenated clusters of the chain, cut at the file size. *)
Theorem fat16_file_reads v bs fat clusters content es1 e es2 name cs depth :
  let es := es1 ++ e :: es2 in
  fat16_image v bs fat clusters content → length es = 16%nat → Forall dirent_wf es →
  read_block (device v) (root_lba v bs) = Ok (dir_sector es) →
  Forall (λ x, is_end x = false ∧ live name x = false) es1 → is_end e = false → live name e = true →
  entry_is_dir e = false → fat_chain fat clusters (entry_cluster e) cs →
  file_size e ≤ Z.of_nat (length cs) * (512 * sectors_per_cluster (bpb16 bs)) → (3 ≤ depth)%nat →
  wp (fat_lookup depth (new_root v) name) (λ o, ∃ n, o = Some n ∧ size n = file_size e
    ∧ ∀ offset len, 0 ≤ offset → 0 ≤ len →
        fat_read depth n offset len
        = Ret (take (Z.to_nat len) (drop (Z.to_nat offset) (take (Z.to_nat (file_size e)) (concat (map content cs)))))).
Proof.
  intros es Him Hl Hwf Hrd H1 He Hlive Hdir Hcs Hsz Hd. unfold fat_lookup, new_root.
  cbn [is_directory negb start_cluster volume Z.eqb].
  rewrite (root_dir_sector_16 v bs fat clusters content Him) by lia. cbn [obind]. rewrite Hrd.
  rewrite dirents_dir_sector by done. unfold es. rewrite find_entry_first by done.
  wp_step. cbn [fmap option_fmap option_map]. eexists. split_and!; [done|done|].
  intros offset len Hoff Hlen. rewrite Hdir.
  apply (fat_read_16 v bs fat clusters content Him); try done.
  apply Forall_app in Hwf as [_ Hwf]. inversion_clear Hwf as [|? ? Hwe _].
  destruct Hwe as (_ & _ & _ & _ & _ & _ & _ & _ & _ & _ & _ & [Hs _]). lia.
Qed.
End Fat16Theorems.

(** ** Witnesses *)

Module Sample.
Definition bs : Fat16BootSector :=
  mkFat16 (mkBpb [235; 60; 144] (replicate 8 32) 512 1 1 1 16 64 248 1 1 1 0 0) 128 0 41 7
    (replicate 11 32) (replicate 8 32).
Definition table : list Z := [0xFFF8; 0xFFFF; 3; 0xFFFF] ++ replicate 252 0.
Definition content (c : Z) : list Z := if c =? 2 then replicate 512 7 else replicate 512 9.
Definition readme : DirectoryEntry :=
  mkDirent [82; 69; 65; 68; 77; 69; 32; 32; 84; 88; 84] 32 0 0 0 0 0 0 0 0 2 700.
Definition blank : DirectoryEntry := mkDirent (replicate 11 0) 0 0 0 0 0 0 0 0 0 0 0.
Definition entries : list DirectoryEntry := readme :: replicate 15 blank.
Definition boot : list Z := (concat (fat16_fields bs) ++ replicate 448 0) ++ [0x55; 0xAA].
Definition disk : ramdisk :=
  mkRamdisk (<[0 := boot]> (<[1 := concat (map (le_bytes 2) table)]>
    (<[2 := dir_sector entries]> (<[3 := content 2]> {[4 := content 3]})))) 8.
Definition vol : FatVolume ramdisk := mkVolume disk 0 (Fat16 bs).

Definition bs32 : Fat32BootSector :=
  mkFat32 (mkBpb [235; 60; 144] (replicate 8 32) 512 1 1 1 0 0 248 0 1 1 0 64) 1 0 0 2 1 6
    (replicate 12 0) 128 0 41 7 (replicate 11 32) (replicate 8 32).

Ltac wf_fields := repeat split; vm_compute; (reflexivity || discriminate).

Lemma bs_wf : fat16_wf bs.
Proof. wf_fields. Qed.

Lemma bs32_wf : fat32_wf bs32.
Proof. wf_fields. Qed.

Lemma image : fat16_image vol bs table 4 content.
Proof.
  split; try reflexivity; try (vm_compute; (reflexivity || discriminate)).
  - apply bs_wf.
  - vm_compute; split; (reflexivity || discriminate).
  - apply Forall_app. split; [repeat constructor; vm_compute; (reflexivity || discriminate)|].
    apply Forall_replicate. vm_compute; split; (reflexivity || discriminate).
  - intros k Hk. cbn in Hk. assert (k = 0) as -> by lia. vm_compute. reflexivity.
  - intros c. unfold content. destruct (c =? 2); reflexivity.
  - intros c j Hc Hj. cbn in Hj. assert (j = 0) as -> by lia.
    assert (c = 2 ∨ c = 3) as [->| ->] by lia; vm_compute; reflexivity.
Qed.

Lemma chain : fat_chain table 4 2 [2; 3].
Proof.
  eapply chain_next; [lia|reflexivity|lia|]. eapply chain_last; [lia|reflexivity|lia].
Qed.
End Sample.

Lemma fat_mount_decodes_witness : fat_mount Sample.disk 0 = Ok (mkVolume Sample.disk 0 (Fat16 Sample.bs)).
Proof.
  destruct (fat_mount_decodes Sample.disk 0 Sample.bs Sample.bs32 (replicate 448 0) (replicate 420 0) [] IoFailure)
    as (H & _).
  - exact Sample.bs_wf.
  - discriminate.
  - reflexivity.
  - exact Sample.bs32_wf.
  - reflexivity.
  - reflexivity.
  - left. discriminate.
  - apply H. vm_compute. reflexivity.
Defined.

Lemma fat32_recursion_unbounded_witness :
  @list_root_dir true ramdisk _ 100 (mkVolume Sample.disk 0 (Fat32 Sample.bs32)) = Stop OutOfFuel.
Proof.
  apply (@fat32_recursion_unbounded true ramdisk _ (mkVolume Sample.disk 0 (Fat32 Sample.bs32)) Sample.bs32
    100%nat [] 2 1 1 eq_refl eq_refl eq_refl eq_refl eq_refl eq_refl).
Defined.

Lemma fat16_file_reads_witness :
  wp (@fat_lookup true ramdisk _ 3 (new_root Sample.vol) [114; 101; 97; 100; 109; 101; 46; 116; 120; 116]) (λ o,
    ∃ n, o = Some n ∧ size n = 700 ∧ @fat_read true ramdisk _ 3 n 510 4 = Ret [7; 7; 9; 9]).
Proof.
  eapply wp_mono; [apply (@fat16_file_reads true ramdisk _ Sample.vol Sample.bs Sample.table 4 Sample.content
    [] Sample.readme (replicate 15 Sample.blank) [114; 101; 97; 100; 109; 101; 46; 116; 120; 116] [2; 3] 3%nat)|].
  - exact Sample.image.
  - reflexivity.
  - apply Forall_cons. split; [|apply Forall_replicate]; Sample.wf_fields.
  - vm_compute. reflexivity.
  - constructor.
  - reflexivity.
  - vm_compute. reflexivity.
  - reflexivity.
  - exact Sample.chain.
  - discriminate.
  - lia.
  - intros o (n & -> & Hs & Hr). exists n. split; [reflexivity|]. split; [exact Hs|].
    rewrite (Hr 510 4) by discriminate. vm_compute. reflexivity.
Defined.
