(* ===== verification/Ext4.v ===== *)
(** * The ext4 driver (src/src/fs/ext4/)

    The on-disk structures (super_block.rs, block_group.rs, inode.rs, extents.rs,
    dir_entry.rs), the volume operations (volume.rs) and the [VNode]
    implementation (mod.rs).  Packed structs are decoded field by field in
    declaration order.

    A volume shares its device with every node through an [Arc]; the device is
    the state [d] that the operations of the driver thread, in the monad [fs] of
    computations that may fail with an [FsError].  Memory for the buffers is
    assumed to be available. *)

From S2P Require Import Prelude KError Block Str Vfs.

#[local] Open Scope list_scope.

(** ** On-disk structures *)

Record Ext4SuperBlock := mkSuper {
  s_inodes_count : Z;
  s_blocks_count_lo : Z;
  s_r_blocks_count_lo : Z;
  s_free_blocks_count_lo : Z;
  s_free_inodes_count : Z;
  s_first_data_block : Z;
  s_log_block_size : Z;
  s_log_cluster_size : Z;
  s_blocks_per_group : Z;
  s_clusters_per_group : Z;
  s_inodes_per_group : Z;
  s_mtime : Z;
  s_wtime : Z;
  s_mnt_count : Z;
  s_max_mnt_count : Z;
  s_magic : Z;
  s_state : Z;
  s_errors : Z;
  s_minor_rev_level : Z;
  s_lastcheck : Z;
  s_checkinterval : Z;
  s_creator_os : Z;
  s_rev_level : Z;
  s_def_resuid : Z;
  s_def_resgid : Z;
}.

Record Ext4BlockGroupDescriptor := mkBgd {
  bg_block_bitmap_lo : Z;
  bg_inode_bitmap_lo : Z;
  bg_inode_table_lo : Z;
  bg_free_blocks_count_lo : Z;
  bg_free_inodes_count_lo : Z;
  bg_used_dirs_count_lo : Z;
  bg_flags : Z;
  bg_exclude_bitmap_lo : Z;
  bg_block_bitmap_csum_lo : Z;
  bg_inode_bitmap_csum_lo : Z;
  bg_itable_unused_lo : Z;
  bg_checksum : Z;
}.

Record Ext4Inode := mkInode {
  i_mode : Z;
  i_uid : Z;
  i_size_lo : Z;
  i_atime : Z;
  i_ctime : Z;
  i_mtime : Z;
  i_dtime : Z;
  i_gid : Z;
  i_links_count : Z;
  i_blocks_lo : Z;
  i_flags : Z;
  i_osd1 : Z;
  i_block : list Z;
  i_generation : Z;
  i_file_acl_lo : Z;
  i_size_hi : Z;
  i_obso_faddr : Z;
}.

Record Ext4ExtentHeader := mkExtentHeader {
  eh_magic : Z;
  eh_entries : Z;
  eh_max : Z;
  eh_depth : Z;
  eh_generation : Z;
}.

Record Ext4Extent := mkExtent {
  ee_block : Z;
  ee_len : Z;
  ee_start_hi : Z;
  ee_start_lo : Z;
}.

Record Ext4DirEntryHeader := mkDirHeader {
  de_inode : Z;
  rec_len : Z;
  name_len : Z;
  file_type : Z;
}.

Definition super_of_bytes (b : list Z) : Ext4SuperBlock :=
  mkSuper (field 0 4 b) (field 4 4 b) (field 8 4 b) (field 12 4 b) (field 16 4 b) (field 20 4 b)
    (field 24 4 b) (field 28 4 b) (field 32 4 b) (field 36 4 b) (field 40 4 b) (field 44 4 b)
    (field 48 4 b) (field 52 2 b) (field 54 2 b) (field 56 2 b) (field 58 2 b) (field 60 2 b)
    (field 62 2 b) (field 64 4 b) (field 68 4 b) (field 72 4 b) (field 76 4 b) (field 80 2 b)
    (field 82 2 b).

Definition bgd_of_bytes (b : list Z) : Ext4BlockGroupDescriptor :=
  mkBgd (field 0 4 b) (field 4 4 b) (field 8 4 b) (field 12 2 b) (field 14 2 b) (field 16 2 b)
    (field 18 2 b) (field 20 4 b) (field 24 2 b) (field 26 2 b) (field 28 2 b) (field 30 2 b).

Definition inode_of_bytes (b : list Z) : Ext4Inode :=
  mkInode (field 0 2 b) (field 2 2 b) (field 4 4 b) (field 8 4 b) (field 12 4 b) (field 16 4 b)
    (field 20 4 b) (field 24 2 b) (field 26 2 b) (field 28 4 b) (field 32 4 b) (field 36 4 b)
    (sub 40 60 b) (field 100 4 b) (field 104 4 b) (field 108 4 b) (field 112 4 b).

Definition extent_header_of_bytes (b : list Z) : Ext4ExtentHeader :=
  mkExtentHeader (field 0 2 b) (field 2 2 b) (field 4 2 b) (field 6 2 b) (field 8 4 b).

Definition extent_of_bytes (b : list Z) : Ext4Extent :=
  mkExtent (field 0 4 b) (field 4 2 b) (field 6 2 b) (field 8 4 b).

Definition dir_header_of_bytes (b : list Z) : Ext4DirEntryHeader :=
  mkDirHeader (field 0 4 b) (field 4 2 b) (field 6 1 b) (field 7 1 b).

(** The bytes of the structs that are copied to disk. *)
Definition inode_fields (i : Ext4Inode) : list (list Z) :=
  [le_bytes 2 (i_mode i); le_bytes 2 (i_uid i); le_bytes 4 (i_size_lo i); le_bytes 4 (i_atime i);
   le_bytes 4 (i_ctime i); le_bytes 4 (i_mtime i); le_bytes 4 (i_dtime i); le_bytes 2 (i_gid i);
   le_bytes 2 (i_links_count i); le_bytes 4 (i_blocks_lo i); le_bytes 4 (i_flags i); le_bytes 4 (i_osd1 i);
   i_block i; le_bytes 4 (i_generation i); le_bytes 4 (i_file_acl_lo i); le_bytes 4 (i_size_hi i);
   le_bytes 4 (i_obso_faddr i)].
Definition inode_to_bytes (i : Ext4Inode) : list Z := concat (inode_fields i).

Definition extent_header_fields (h : Ext4ExtentHeader) : list (list Z) :=
  [le_bytes 2 (eh_magic h); le_bytes 2 (eh_entries h); le_bytes 2 (eh_max h); le_bytes 2 (eh_depth h);
   le_bytes 4 (eh_generation h)].
Definition extent_header_to_bytes (h : Ext4ExtentHeader) : list Z := concat (extent_header_fields h).

Definition extent_fields (e : Ext4Extent) : list (list Z) :=
  [le_bytes 4 (ee_block e); le_bytes 2 (ee_len e); le_bytes 2 (ee_start_hi e); le_bytes 4 (ee_start_lo e)].
Definition extent_to_bytes (e : Ext4Extent) : list Z := concat (extent_fields e).

Definition BGD_SIZE : Z := 32.
Definition INODE_STRUCT_SIZE : Z := 116.
Definition EXTENT_HEADER_SIZE : Z := 12.
Definition EXTENT_SIZE : Z := 12.

(** [x << n] on 64 bits: bits shifted out are lost, a shift by 64 or more is an
    overflow. *)
Definition ushl64 `{Profile} (x n : Z) : outcome Z :=
  if n <? 64 then Ret (wrap 64 (Z.shiftl x n))
  else if overflow_checks then Stop Panic else Ret (wrap 64 (Z.shiftl x (n mod 64))).

Definition block_size `{Profile} (sb : Ext4SuperBlock) : outcome Z := ushl64 1024 (s_log_block_size sb).

Definition inode_is_directory (i : Ext4Inode) : bool := Z.land (i_mode i) 0xF000 =? 0x4000.

Definition inode_size (i : Ext4Inode) : Z := Z.lor (Z.shiftl (i_size_hi i) 32) (i_size_lo i).

(** [mem::zeroed()]. *)
Definition zeroed_inode : Ext4Inode := mkInode 0 0 0 0 0 0 0 0 0 0 0 0 (replicate 60 0) 0 0 0 0.

(** ** The monad of the driver *)

Section Fs.
Context {D : Type} `{BlockDevice D}.

Definition fs (A : Type) : Type := D → outcome (result A FsError * D).

Definition fs_ret {A} (a : A) : fs A := λ d, Ret (Ok a, d).
Definition fs_err {A} (e : FsError) : fs A := λ d, Ret (Err e, d).
Definition fs_lift {A} (m : outcome A) : fs A := λ d, a <- m;; Ret (Ok a, d).

(** The [?] operator. *)
Definition fs_bind {A B} (m : fs A) (k : A → fs B) : fs B := λ d,
  let* (r, d) := m d in
  match r with Ok a => k a d | Err e => Ret (Err e, d) end.

(** [read_block(..).map_err(|_| FsError::BlockRead)] and its sibling. *)
Definition fs_read (lba : Z) : fs (list Z) := λ d,
  Ret (match read_block d lba with Ok b => Ok b | Err _ => Err BlockRead end, d).
Definition fs_write (lba : Z) (b : list Z) : fs unit := λ d,
  let (r, d) := write_block d lba b in
  Ret (match r with Ok _ => Ok tt | Err _ => Err BlockWrite end, d).

(** [for i in lo..hi { .. ?; }]. *)
Fixpoint fs_each (n : nat) (i : Z) (body : Z → fs unit) : fs unit :=
  match n with
  | O => fs_ret tt
  | S n => fs_bind (body i) (λ _, fs_each n (i + 1) body)
  end.
End Fs.

Notation "x <~ m ;; k" := (fs_bind m (λ x, k))
  (at level 100, m at next level, right associativity) : nwin_scope.
Notation "x <! m ;; k" := (fs_bind (fs_lift m) (λ x, k))
  (at level 100, m at next level, right associativity) : nwin_scope.

(** A raw write into a buffer, out of bounds when it leaves it. *)
Definition raw_write (buf : list Z) (off : Z) (new : list Z) : outcome (list Z) :=
  if (0 <=? off) && (off + Z.of_nat (length new) <=? Z.of_nat (length buf)) then Ret (splice off new buf)
  else Stop OutOfBounds.

(** ** The volume *)

Record Ext4Volume := mkExt4Volume { ev_start_lba : Z; ev_super_block : Ext4SuperBlock }.

Section Volume.
Context `{HP : Profile} {D : Type} `{HD : BlockDevice D}.
Implicit Types v : Ext4Volume.

Definition ext4_mount (start_lba : Z) : fs (D := D) Ext4Volume :=
  super_block_sector <! uadd 64 start_lba 2;;
  b0 <~ fs_read super_block_sector;;
  next <! uadd 64 super_block_sector 1;;
  b1 <~ fs_read next;;
  let super_block := super_of_bytes (b0 ++ b1) in
  if negb (s_magic super_block =? 0xEF53) then fs_err (BadMagic 0xEF53 (s_magic super_block))
  else fs_ret (mkExt4Volume start_lba super_block).

Definition bgd_block v : outcome Z :=
  bs <- block_size (ev_super_block v);;
  Ret (if bs =? 1024 then 2 else 1).

(** The first sector of a block. *)
Definition block_sector v (block bs : Z) : outcome Z :=
  off <- umul 64 block (bs / 512);;
  uadd 64 (ev_start_lba v) off.

(** The descriptor of a group, read from the first sector of the table. *)
Definition read_bgd v (group_index : Z) : fs (D := D) Ext4BlockGroupDescriptor :=
  bs <! block_size (ev_super_block v);;
  bgd_block_logic <! bgd_block v;;
  bgd_sector_start <! block_sector v bgd_block_logic bs;;
  bgd_buffer <~ fs_read bgd_sector_start;;
  let bgd_offset := (group_index * BGD_SIZE) mod 512 in
  b <! raw_slice bgd_buffer bgd_offset BGD_SIZE;;
  fs_ret (bgd_of_bytes b).

(** The scan for a zero bit: the byte and the bit in it. *)
Fixpoint scan_bitmap (l : list Z) (byte_index : Z) : option (Z * Z) :=
  match l with
  | [] => None
  | byte :: l' =>
      if byte =? 0xFF then scan_bitmap l' (byte_index + 1)
      else match first_from (λ bit, Z.land byte (Z.shiftl 1 bit) =? 0) 0 8 with
           | Some bit => Some (byte_index, bit)
           | None => scan_bitmap l' (byte_index + 1)
           end
  end.

(** Take the first free bit of a bitmap block: its index. *)
Definition take_bit v (bitmap_block : Z) (exhausted : FsError) : fs (D := D) Z :=
  bs <! block_size (ev_super_block v);;
  bitmap_sector <! block_sector v bitmap_block bs;;
  bitmap_buffer <~ fs_read bitmap_sector;;
  match scan_bitmap bitmap_buffer 0 with
  | None => fs_err exhausted
  | Some (byte_index, bit_index) =>
      byte <! vget bitmap_buffer byte_index;;
      bitmap_buffer <! vset bitmap_buffer byte_index (Z.lor byte (Z.shiftl 1 bit_index));;
      _ <~ fs_write bitmap_sector bitmap_buffer;;
      fs_ret (byte_index * 8 + bit_index)
  end.

Definition allocate_inode v : fs (D := D) Z :=
  bgd <~ read_bgd v 0;;
  i <~ take_bit v (bg_inode_bitmap_lo bgd) OutOfInodes;;
  fs_ret (wrap 32 (i + 1)).

Definition allocate_block v : fs (D := D) Z :=
  bgd <~ read_bgd v 0;;
  i <~ take_bit v (bg_block_bitmap_lo bgd) OutOfBlocks;;
  fs_ret (wrap 32 i).

(** The sector of an inode and its offset in it. *)
Definition locate_inode v (inode_num : Z) : fs (D := D) (Z * Z) :=
  if (inode_num <? 1) || (s_inodes_count (ev_super_block v) <? inode_num) then fs_err CorruptedDirectory else
  bs <! block_size (ev_super_block v);;
  let inodes_per_group := s_inodes_per_group (ev_super_block v) in
  group_index <! udiv (inode_num - 1) inodes_per_group;;
  inode_index_in_group <! umod (inode_num - 1) inodes_per_group;;
  bgd <~ read_bgd v group_index;;
  byte_offset_in_table <! umul 64 inode_index_in_group 256;;
  table_offset <! umul 64 (bg_inode_table_lo bgd) bs;;
  absolute_byte_offset <! uadd 64 table_offset byte_offset_in_table;;
  target_sector <! uadd 64 (ev_start_lba v) (absolute_byte_offset / 512);;
  fs_ret (target_sector, absolute_byte_offset mod 512).

Definition read_inode v (inode_num : Z) : fs (D := D) Ext4Inode :=
  loc <~ locate_inode v inode_num;;
  inode_buffer <~ fs_read loc.1;;
  b <! raw_slice inode_buffer loc.2 INODE_STRUCT_SIZE;;
  fs_ret (inode_of_bytes b).

Definition write_inode v (inode_num : Z) (inode : Ext4Inode) : fs (D := D) unit :=
  loc <~ locate_inode v inode_num;;
  sector_buffer <~ fs_read loc.1;;
  sector_buffer <! raw_write sector_buffer loc.2 (inode_to_bytes inode);;
  fs_write loc.1 sector_buffer.

(** The sectors of a buffer, written one by one. *)
Definition write_sectors (start_sector bs : Z) (buffer : list Z) : fs (D := D) unit :=
  fs_each (Z.to_nat (bs / 512)) 0 (λ i,
    sector_lba <! uadd 64 start_sector i;;
    fs_write sector_lba (sub (i * 512) 512 buffer)).

Definition write_data_to_block v (block_num : Z) (data : list Z) : fs (D := D) unit :=
  bs <! block_size (ev_super_block v);;
  if bs <? Z.of_nat (length data) then fs_err CorruptedDirectory else
  start_sector <! block_sector v block_num bs;;
  write_sectors start_sector bs (splice 0 data (replicate (Z.to_nat bs) 0)).

(** The loop over the extents of a leaf. *)
Fixpoint find_extent v (bs logical_block : Z) (entries : list Ext4Extent) : outcome (option Z) :=
  match entries with
  | [] => Ret None
  | extent :: entries =>
      let start_logic := ee_block extent in
      if logical_block <? start_logic then find_extent v bs logical_block entries else
      end_logic <- uadd 32 start_logic (ee_len extent);;
      if logical_block <? end_logic then
        let physical_block := Z.lor (Z.shiftl (ee_start_hi extent) 32) (ee_start_lo extent) in
        target <- uadd 64 physical_block (logical_block - start_logic);;
        s <- block_sector v target bs;;
        Ret (Some s)
      else find_extent v bs logical_block entries
  end.

(** The extents that follow the header, [from_raw_parts] over [i_block]. *)
Definition leaf_extents (i_block : list Z) (n : Z) : outcome (list Ext4Extent) :=
  b <- raw_slice i_block EXTENT_HEADER_SIZE (n * EXTENT_SIZE);;
  Ret (map (λ k, extent_of_bytes (sub (Z.of_nat k * EXTENT_SIZE) EXTENT_SIZE b)) (seq 0 (Z.to_nat n))).

Definition logical_to_physical_sector v (inode : Ext4Inode) (logical_block : Z) : outcome (option Z) :=
  bs <- block_size (ev_super_block v);;
  let header := extent_header_of_bytes (i_block inode) in
  if negb (eh_magic header =? 0xF30A) then Ret None
  else if eh_depth header =? 0 then
    entries <- leaf_extents (i_block inode) (eh_entries header);;
    find_extent v bs logical_block entries
  else Ret None.

(** [copy_nonoverlapping] of the header and the extent into the zeroed array. *)
Definition build_file_inode (file_size physical_block : Z) : Ext4Inode :=
  let header := mkExtentHeader 0xF30A 1 4 0 0 in
  let extent := mkExtent 0 1 0 physical_block in
  let i_block := splice EXTENT_HEADER_SIZE (extent_to_bytes extent)
                   (splice 0 (extent_header_to_bytes header) (replicate 60 0)) in
  mkInode 0x81A4 0 file_size 0 0 0 0 0 1 8 0x80000 0 i_block 0 0 0 0.

(** The probe of [debug_info]: an inode and a block are taken and the block is
    written; errors end it silently. *)
Definition debug_text : list Z :=
  lit "This file was created and written 100% from my own Rust kernel. NWIN OS lives!".

Definition ext4_debug_info v (d : D) : outcome D :=
  _ <- block_size (ev_super_block v);;
  let* (r, d) := allocate_inode v d in
  match r with
  | Err _ => Ret d
  | Ok _ =>
      let* (r, d) := allocate_block v d in
      match r with
      | Err _ => Ret d
      | Ok nuevo_bloque => let* (_, d) := write_data_to_block v nuevo_bloque debug_text d in Ret d
      end
  end.
End Volume.

(** ** Nodes *)

Record Ext4Node := mkExt4Node {
  en_volume : Ext4Volume;
  en_inode_num : Z;
  en_inode : Ext4Inode;
  en_is_directory : bool;
  en_size : Z;
}.

Section Nodes.
Context `{HP : Profile} {D : Type} `{HD : BlockDevice D}.
Implicit Types n : Ext4Node.

Definition node_of (v : Ext4Volume) (inode_num : Z) (inode : Ext4Inode) : Ext4Node :=
  mkExt4Node v inode_num inode (inode_is_directory inode) (inode_size inode).

(** [read_inode(2).unwrap_or_else(zeroed)]: reading leaves the disk alone. *)
Definition ext4_new_root (v : Ext4Volume) (d : D) : outcome Ext4Node :=
  let* (r, _) := read_inode v 2 d in
  Ret (node_of v 2 match r with Ok i => i | Err _ => zeroed_inode end).

(** One round of the copy loop: the bytes copied so far, [offset] is where the
    read began. *)
Definition ext4_read_round n (d : D) (offset bytes_to_read bs : Z) (copied : list Z)
    : outcome (flow (list Z) (list Z)) :=
  let bytes_copied := Z.of_nat (length copied) in
  if negb (bytes_copied <? bytes_to_read) then Ret (Done copied) else
  let current_offset := offset + bytes_copied in
  q <- udiv current_offset bs;;
  let logical_block := wrap 32 q in
  offset_in_block <- umod current_offset bs;;
  let sector_in_block := offset_in_block / 512 in
  let offset_in_sector := current_offset mod 512 in
  o <- logical_to_physical_sector (en_volume n) (en_inode n) logical_block;;
  match o with
  | None => Ret (Done copied)
  | Some base_lba =>
      target_sector <- uadd 64 base_lba sector_in_block;;
      match read_block d target_sector with
      | Err _ => Ret (Done copied)
      | Ok sector_buffer =>
          let chunk_size := Z.min (512 - offset_in_sector) (bytes_to_read - bytes_copied) in
          Ret (Next (copied ++ sub offset_in_sector chunk_size sector_buffer))
      end
  end.

(** [read] into a buffer of [len] bytes: the bytes copied. *)
Definition ext4_read n (d : D) (offset len : Z) : outcome (list Z) :=
  if (en_size n <=? offset) || (len =? 0) then Ret [] else
  bs <- block_size (ev_super_block (en_volume n));;
  let bytes_to_read := Z.min len (en_size n - offset) in
  loop (S (Z.to_nat bytes_to_read)) (ext4_read_round n d offset bytes_to_read bs) [].

(** The directory scan of [lookup] over the bytes read.  The header is read
    through a raw pointer into the buffer, of the size of the directory. *)
Definition lookup_round n (d : D) (name : str) (buffer : list Z) (bytes_read : Z) (local_offset : Z)
    : outcome (flow Z (option Ext4Node)) :=
  if negb (local_offset <? bytes_read) then Ret (Done None) else
  h <- raw_slice buffer local_offset 8;;
  let entry := dir_header_of_bytes h in
  if rec_len entry =? 0 then Ret (Done None) else
  let next := local_offset + rec_len entry in
  if de_inode entry =? 0 then Ret (Next next) else
  if bytes_read <? local_offset + 8 + name_len entry then Ret (Done None) else
  name_slice <- raw_slice buffer (local_offset + 8) (name_len entry);;
  match from_utf8 name_slice with
  | Some entry_name =>
      if decide (entry_name = name) then
        let* (r, _) := read_inode (en_volume n) (de_inode entry) d in
        match r with
        | Ok child_inode => Ret (Done (Some (node_of (en_volume n) (de_inode entry) child_inode)))
        | Err _ => Ret (Next next)
        end
      else Ret (Next next)
  | None => Ret (Next next)
  end.

Definition ext4_lookup n (d : D) (name : str) : outcome (option Ext4Node) :=
  if negb (en_is_directory n) then Ret None else
  bytes <- ext4_read n d 0 (en_size n);;
  let bytes_read := Z.of_nat (length bytes) in
  if bytes_read =? 0 then Ret None else
  let buffer := bytes ++ replicate (Z.to_nat (en_size n) - length bytes) 0 in
  loop (S (Z.to_nat bytes_read)) (lookup_round n d name buffer bytes_read) 0.

(** [(x + 3) & !3]. *)
Definition align4 (x : Z) : Z := Z.land (x + 3) (unot 64 3).

(** The edits of the last record: its length is cut, the new entry takes the
    rest. *)
Definition append_entry (buffer : list Z) (offset rec_len name_len : Z) (name : list Z) (inode_num : Z)
    : outcome (result (list Z) FsError) :=
  let aligned_len := align4 (8 + name_len) in
  space_left <- usub 64 rec_len aligned_len;;
  let new_entry_aligned := align4 (8 + Z.of_nat (length name)) in
  if space_left <? new_entry_aligned then Ret (Err NoSpace) else
  buffer <- raw_write buffer (offset + 4) (le_bytes 2 aligned_len);;
  let new_offset := offset + aligned_len in
  buffer <- raw_write buffer new_offset (le_bytes 4 inode_num);;
  buffer <- raw_write buffer (new_offset + 4) (le_bytes 2 space_left);;
  buffer <- raw_write buffer (new_offset + 6) (le_bytes 1 (Z.of_nat (length name)));;
  buffer <- raw_write buffer (new_offset + 7) [1];;
  buffer <- raw_write buffer (new_offset + 8) name;;
  Ret (Ok buffer).

Definition add_round (bs : Z) (buffer name : list Z) (inode_num : Z) (offset : Z)
    : outcome (flow Z (result (list Z) FsError)) :=
  r <- raw_slice buffer (offset + 4) 2;;
  l <- raw_slice buffer (offset + 6) 1;;
  let rec_len := le r in
  let name_len := le l in
  if offset + rec_len =? bs then
    x <- append_entry buffer offset rec_len name_len name inode_num;;
    Ret (Done x)
  else
    let offset := offset + rec_len in
    if (bs <=? offset) || (rec_len =? 0) then Ret (Done (Err CorruptedDirectory)) else Ret (Next offset).

(** [read_block] into the slices of a buffer, one by one. *)
Fixpoint read_sectors (n : nat) (i lba : Z) : fs (D := D) (list Z) :=
  match n with
  | O => fs_ret []
  | S n =>
      sector <! uadd 64 lba i;;
      b <~ fs_read sector;;
      rest <~ read_sectors n (i + 1) lba;;
      fs_ret (b ++ rest)
  end.

Definition add_entry n (name : str) (inode_num : Z) : fs (D := D) unit :=
  if negb (en_is_directory n) then fs_err CorruptedDirectory else
  bs <! block_size (ev_super_block (en_volume n));;
  o <! logical_to_physical_sector (en_volume n) (en_inode n) 0;;
  match o with
  | None => fs_err CorruptedDirectory
  | Some physical_sector =>
      buffer <~ read_sectors (Z.to_nat (bs / 512)) 0 physical_sector;;
      x <! loop (S (Z.to_nat bs)) (add_round bs buffer (as_bytes name) inode_num) 0;;
      match x with
      | Err e => fs_err e
      | Ok buffer => write_sectors physical_sector bs buffer
      end
  end.
End Nodes.

(** The nodes of a mounted disk: the trait object holds the device. *)
Record ext4_vnode {D : Type} := mkVnode { vn_disk : D; vn_node : Ext4Node }.
Arguments ext4_vnode : clear implicits.

#[global] Instance Ext4Node_vnode `{HP : Profile} {D} `{HD : BlockDevice D} : VNode (ext4_vnode D) := {|
  vn_read n offset len := ext4_read (vn_node n) (vn_disk n) offset len;
  vn_get_size n := en_size (vn_node n);
  vn_is_dir n := en_is_directory (vn_node n);
  vn_lookup n name :=
    o <- ext4_lookup (vn_node n) (vn_disk n) name;;
    Ret (mkVnode D (vn_disk n) <$> o);
|}.
