(* ===== verification/Ext4Image.v ===== *)
(** * Ext4 images

    What the bytes of a disk mean to the ext4 driver, and the theorems about the
    driver on such disks.  [holds d g] says that a healthy disk [d] has sector
    [g lba] at every [lba]; the specifications of the operations turn a disk that
    holds [g] into one that holds an updated [g].

    Reading a file gives the bytes of the blocks its extents name, the allocators
    take the lowest free bit, and an inode is read from and written to its place
    in the table. *)

From S2P Require Import Prelude KError Block Str Vfs Ext4.

#[local] Open Scope list_scope.

(** ** Encodings *)

Definition inode_widths : list nat := [2; 2; 4; 4; 4; 4; 4; 2; 2; 4; 4; 4; 60; 4; 4; 4; 4]%nat.

Record inode_wf (i : Ext4Inode) : Prop := {
  iw_mode : 0 ≤ i_mode i < 256 ^ 2;
  iw_uid : 0 ≤ i_uid i < 256 ^ 2;
  iw_size_lo : 0 ≤ i_size_lo i < 256 ^ 4;
  iw_atime : 0 ≤ i_atime i < 256 ^ 4;
  iw_ctime : 0 ≤ i_ctime i < 256 ^ 4;
  iw_mtime : 0 ≤ i_mtime i < 256 ^ 4;
  iw_dtime : 0 ≤ i_dtime i < 256 ^ 4;
  iw_gid : 0 ≤ i_gid i < 256 ^ 2;
  iw_links : 0 ≤ i_links_count i < 256 ^ 2;
  iw_blocks : 0 ≤ i_blocks_lo i < 256 ^ 4;
  iw_flags : 0 ≤ i_flags i < 256 ^ 4;
  iw_osd1 : 0 ≤ i_osd1 i < 256 ^ 4;
  iw_block : length (i_block i) = 60%nat;
  iw_block_bytes : Forall (λ b, is_byte b) (i_block i);
  iw_generation : 0 ≤ i_generation i < 256 ^ 4;
  iw_acl : 0 ≤ i_file_acl_lo i < 256 ^ 4;
  iw_size_hi : 0 ≤ i_size_hi i < 256 ^ 4;
  iw_faddr : 0 ≤ i_obso_faddr i < 256 ^ 4;
}.

Lemma inode_widths_ok i : inode_wf i → widths_ok (inode_fields i) inode_widths.
Proof. intros []. widths. Qed.

Lemma length_inode_to_bytes i : inode_wf i → length (inode_to_bytes i) = 116%nat.
Proof. intros Hi. unfold inode_to_bytes. by rewrite (length_concat_widths _ inode_widths) by (by apply inode_widths_ok). Qed.

Lemma inode_roundtrip i rest : inode_wf i → inode_of_bytes (inode_to_bytes i ++ rest) = i.
Proof.
  intros Hi. pose proof (inode_widths_ok i Hi) as Hw. unfold inode_to_bytes. destruct Hi. unfold inode_of_bytes.
  destruct i. repeat match goal with Hb : 0 ≤ _ < _ |- _ => progress cbn in Hb end. f_equal; decode_field Hw 17%nat.
Qed.

Lemma Forall_concat {A} (P : A → Prop) (ls : list (list A)) : Forall (Forall P) ls → Forall P (concat ls).
Proof. induction 1; cbn [concat]; [done|]. by apply Forall_app. Qed.

Lemma all_bytes l : forallb (λ b, (0 <=? b) && (b <? 256)) l = true → Forall (λ b, is_byte b) l.
Proof.
  intros Hl. apply Forall_forall. intros x Hx. rewrite forallb_forall in Hl.
  specialize (Hl x ltac:(by apply list_elem_of_In)). apply andb_true_iff in Hl as [H1%Z.leb_le H2%Z.ltb_lt]. done.
Qed.

Lemma inode_to_bytes_range i : inode_wf i → Forall (λ b, is_byte b) (inode_to_bytes i).
Proof.
  intros Hi. apply Forall_concat. unfold inode_fields.
  repeat (apply List.Forall_cons; [first [apply le_bytes_range | apply Hi]|]). apply List.Forall_nil.
Qed.

(** ** Healthy disks *)

(** A disk of [cap] sectors on which reads and writes in range succeed. *)
Class HealthyDisk (D : Type) `{BlockDevice D} (cap : Z) := {
  healthy : D → Prop;
  healthy_read d lba : healthy d → 0 ≤ lba < cap → ∃ b, read_block d lba = Ok b;
  healthy_write d lba b : healthy d → 0 ≤ lba < cap → is_sector b →
    ∃ d', write_block d lba b = (Ok tt, d') ∧ healthy d';
}.

#[export] Instance ramdisk_healthy cap : HealthyDisk ramdisk cap.
Proof.
  refine {| healthy d := capacity d = cap |}.
  - intros d lba <- Hl. cbn [read_block ramdisk_device].
    rewrite (proj2 (Z.leb_le _ _)), (proj2 (Z.ltb_lt _ _)) by lia. by eexists.
  - intros d lba b <- Hl Hb. cbn [write_block ramdisk_device].
    rewrite (proj2 (Z.leb_le _ _)), (proj2 (Z.ltb_lt _ _)) by lia. by eexists.
Defined.

(** The contents of a disk, sector by sector. *)
Abbreviation image := (Z → list Z).
Definition upd (g : image) (lba : Z) (b : list Z) : image := λ x, if decide (x = lba) then b else g x.

(** Successful runs: the run returns [Ok], and value and disk satisfy [Q]. *)
Definition fwp {D A} (m : fs (D := D) A) (d : D) (Q : A → D → Prop) : Prop :=
  wp (m d) (λ '(r, d'), match r with Ok a => Q a d' | Err _ => False end).

Section Disk.
Context `{HP : Profile} {D : Type} `{HD : BlockDevice D} `{HS : !BlockDeviceSpec D} {cap : Z} `{HH : !HealthyDisk D cap}.
Implicit Types (d : D) (g : image).

Lemma fwp_bind {A B} (m : fs (D := D) A) (k : A → fs (D := D) B) d Q :
  fwp m d (λ a d', fwp (k a) d' Q) → fwp (fs_bind m k) d Q.
Proof.
  unfold fwp, fs_bind. intros Hm. apply wp_bind. eapply wp_mono; [exact Hm|].
  intros [[a|e] d']; [done|by intros []].
Qed.

Lemma fwp_lift {A} (m : outcome A) d (Q : A → D → Prop) : wp m (λ a, Q a d) → fwp (fs_lift m) d Q.
Proof. unfold fwp, fs_lift. intros Hm. apply wp_bind. eapply wp_mono; [exact Hm|]. done. Qed.

Lemma fwp_ret {A} (a : A) d (Q : A → D → Prop) : Q a d → fwp (fs_ret a) d Q.
Proof. done. Qed.

Lemma fwp_mono {A} (m : fs (D := D) A) d (P Q : A → D → Prop) :
  fwp m d P → (∀ a d', P a d' → Q a d') → fwp m d Q.
Proof. unfold fwp. intros Hm HPQ. eapply wp_mono; [exact Hm|]. intros [[a|e] d']; [apply HPQ|done]. Qed.

Definition holds d g : Prop := healthy d ∧ ∀ lba, 0 ≤ lba < cap → read_block d lba = Ok (g lba).

Lemma holds_exists d : healthy d → ∃ g, holds d g.
Proof.
  intros Hd. exists (λ lba, match read_block d lba with Ok b => b | Err _ => [] end). split; [done|].
  intros lba Hl. by destruct (healthy_read d lba Hd Hl) as [b ->].
Qed.

Lemma holds_sector d g lba : holds d g → 0 ≤ lba < cap → is_sector (g lba).
Proof. intros [_ Hr] Hl. eapply read_block_sector. by apply Hr. Qed.

Lemma fwp_read d g lba (Q : list Z → D → Prop) : holds d g → 0 ≤ lba < cap → Q (g lba) d → fwp (fs_read lba) d Q.
Proof. intros [_ Hr] Hl HQ. unfold fwp, fs_read. by rewrite Hr. Qed.

Lemma fwp_write d g lba b (Q : unit → D → Prop) : holds d g → 0 ≤ lba < cap → is_sector b →
  (∀ d', holds d' (upd g lba b) → Q tt d') → fwp (fs_write lba b) d Q.
Proof.
  intros [Hh Hr] Hl Hb HQ. destruct (healthy_write d lba b Hh Hl Hb) as (d' & Hw & Hh').
  unfold fwp, fs_write. rewrite Hw. apply HQ. split; [done|]. intros x Hx. unfold upd. case_decide as E.
  - subst. by eapply write_block_same.
  - rewrite (write_block_other d lba b d') by done. by apply Hr.
Qed.

(** Extensionally equal images are held by the same disks. *)
Lemma holds_ext d g g' : holds d g → (∀ x, 0 ≤ x < cap → g' x = g x) → holds d g'.
Proof. intros [Hh Hr] Hg. split; [done|]. intros x Hx. by rewrite Hr, Hg. Qed.
End Disk.

(** ** Bitmaps *)

Definition bit_at (l : list Z) (i : Z) : bool := Z.testbit (nth (Z.to_nat (i / 8)) l 0) (i mod 8).
Definition set_bit_at (l : list Z) (i : Z) : list Z :=
  <[Z.to_nat (i / 8) := Z.lor (nth (Z.to_nat (i / 8)) l 0) (Z.shiftl 1 (i mod 8))]> l.

(** The lowest clear bit, and a bitmap without one. *)
Definition lowest_clear (l : list Z) (i : Z) : Prop :=
  0 ≤ i < 8 * Z.of_nat (length l) ∧ bit_at l i = false ∧ ∀ j, 0 ≤ j < i → bit_at l j = true.
Definition full (l : list Z) : Prop := ∀ j, 0 ≤ j < 8 * Z.of_nat (length l) → bit_at l j = true.

Lemma bit_at_cons x l j : 0 ≤ j → bit_at (x :: l) j = if j <? 8 then Z.testbit x j else bit_at l (j - 8).
Proof.
  intros Hj. unfold bit_at. destruct (Z.ltb_spec j 8).
  - by rewrite Z.div_small, Z.mod_small by lia.
  - replace (Z.to_nat (j / 8)) with (S (Z.to_nat ((j - 8) / 8))) by zlia. cbn [nth]. f_equal. zlia.
Qed.

(** The scan of one byte. *)
Lemma byte_scan x : is_byte x →
  match first_from (λ bit, Z.land x (Z.shiftl 1 bit) =? 0) 0 8 with
  | Some k => 0 ≤ k < 8 ∧ Z.testbit x k = false ∧ (∀ j, 0 ≤ j < k → Z.testbit x j = true) ∧ x ≠ 255
  | None => x = 255
  end.
Proof.
  intros Hx. assert (∀ j, 0 ≤ j → (Z.land x (Z.shiftl 1 j) =? 0) = negb (Z.testbit x j)) as Ht by (intros; by apply mask_test).
  destruct (first_from _ 0 8) as [k|] eqn:E.
  - apply first_from_Some in E as (Hk & Hz & Hj). rewrite Ht in Hz by lia. apply negb_true_iff in Hz. split_and!; try lia; [done| |].
    + intros j Hjk. specialize (Hj j Hjk). rewrite Ht in Hj by lia. by apply negb_false_iff.
    + intros ->. change 255 with (Z.ones 8) in Hz. by rewrite Z.ones_spec_low in Hz by lia.
  - change 255 with (Z.ones 8). apply Z.bits_inj'. intros j Hj. destruct (decide (j < 8)).
    + rewrite Z.ones_spec_low by lia. pose proof (proj1 (first_from_None _ _ _) E j ltac:(lia)) as Hz. cbv beta in Hz.
      rewrite Ht in Hz by lia. by apply negb_false_iff.
    + rewrite Z.ones_spec_high, (bits_above 8) by lia. done.
Qed.

Lemma scan_bitmap_ok l : Forall (λ x, is_byte x) l → ∀ off,
  match scan_bitmap l off with
  | Some (b, k) => lowest_clear l ((b - off) * 8 + k) ∧ 0 ≤ k < 8
  | None => full l
  end.
Proof.
  unfold lowest_clear, full. induction 1 as [|x l Hx Hl IH]; intros off; cbn [scan_bitmap length]; [intros j; lia|].
  pose proof (byte_scan x Hx) as Hs. specialize (IH (off + 1)).
  assert (x = 255 → match scan_bitmap l (off + 1) with
    | Some (b, k) => (0 ≤ (b - off) * 8 + k < 8 * Z.of_nat (S (length l)) ∧ bit_at (x :: l) ((b - off) * 8 + k) = false
        ∧ ∀ j, 0 ≤ j < (b - off) * 8 + k → bit_at (x :: l) j = true) ∧ 0 ≤ k < 8
    | None => ∀ j, 0 ≤ j < 8 * Z.of_nat (S (length l)) → bit_at (x :: l) j = true end) as Hskip.
  { intros ->. assert (∀ j, 0 ≤ j < 8 → Z.testbit 255 j = true) as Hff by (intros; change 255 with (Z.ones 8); by apply Z.ones_spec_low).
    destruct (scan_bitmap l (off + 1)) as [[b k]|].
    - destruct IH as [(Hr & Hf & Hj) Hk]. split; [|done]. split; [lia|]. rewrite bit_at_cons, (proj2 (Z.ltb_ge _ _)) by lia.
      split; [by replace ((b - off) * 8 + k - 8) with ((b - (off + 1)) * 8 + k) by lia|].
      intros j Hjr. rewrite bit_at_cons by lia. destruct (Z.ltb_spec j 8); [apply Hff; lia|apply Hj; lia].
    - intros j Hjr. rewrite bit_at_cons by lia. destruct (Z.ltb_spec j 8); [apply Hff; lia|apply IH; lia]. }
  destruct (Z.eqb_spec x 255) as [E|E]; [by apply Hskip|].
  destruct (first_from _ 0 8) as [k|]; [|by apply Hskip]. destruct Hs as (Hk & Hz & Hj & _).
  rewrite Z.sub_diag. split; [|done]. split; [lia|]. rewrite bit_at_cons, (proj2 (Z.ltb_lt _ _)) by lia.
  split; [done|]. intros j Hjr. rewrite bit_at_cons, (proj2 (Z.ltb_lt _ _)) by lia. apply Hj. lia.
Qed.

Lemma bit_at_set l i j : 0 ≤ i < 8 * Z.of_nat (length l) → 0 ≤ j →
  bit_at (set_bit_at l i) j = (j =? i) || bit_at l j.
Proof.
  intros Hi Hj. unfold bit_at, set_bit_at. rewrite !(nth_lookup _ _ 0).
  destruct (decide (Z.to_nat (j / 8) = Z.to_nat (i / 8))) as [E|E].
  - rewrite E, list_lookup_insert_eq by zlia. cbn [default from_option]. unfold id.
    rewrite mask_set by (apply Z.mod_pos_bound; lia). f_equal.
    destruct (Z.eqb_spec (j mod 8) (i mod 8)), (Z.eqb_spec j i); try done; zlia.
  - rewrite list_lookup_insert_ne by done. rewrite (proj2 (Z.eqb_neq j i)); [done|]. by intros ->.
Qed.

Lemma set_bit_sector l i : is_sector l → 0 ≤ i < 4096 → is_sector (set_bit_at l i).
Proof.
  intros [Hl Hb] Hi. unfold set_bit_at. split; [by rewrite length_insert|]. apply Forall_insert; [done|].
  assert (is_byte (nth (Z.to_nat (i / 8)) l 0)) as Hn.
  { rewrite (nth_lookup l _ 0). destruct (l !! Z.to_nat (i / 8)) eqn:E; [|cbn; lia]. by eapply (Forall_lookup_1 _ _ _ _ Hb). }
  apply (lor_range 8); [lia|done|]. apply shiftl_one_range. apply Z.mod_pos_bound. lia.
Qed.

(** ** Geometry *)

(** A volume of [nb] blocks of at least 2 KiB that fits on the disk. *)
Record geometry (cap : Z) (v : Ext4Volume) (nb : Z) : Prop := {
  geo_log : 1 ≤ s_log_block_size (ev_super_block v) ≤ 5;
  geo_start : 0 ≤ ev_start_lba v;
  geo_blocks : 2 ≤ nb < 2 ^ 32;
  geo_end : ev_start_lba v + nb * (2 * 2 ^ s_log_block_size (ev_super_block v)) ≤ cap;
  geo_cap : cap ≤ 2 ^ 54;
}.

Section Geometry.
Context `{HP : Profile} {D : Type} `{HD : BlockDevice D} `{HS : !BlockDeviceSpec D} {cap : Z} `{HH : !HealthyDisk D cap}.
Context (v : Ext4Volume) (nb : Z) (Hgeo : geometry cap v nb).
Implicit Types (d : D) (g : image).

Definition spb : Z := 2 * 2 ^ s_log_block_size (ev_super_block v).
Definition bsz : Z := 512 * spb.

(** The first sector of block [k], and its bytes. *)
Definition base (k : Z) : Z := ev_start_lba v + k * spb.
Definition blk g (k : Z) : list Z := concat (map (λ i, g (base k + Z.of_nat i)) (seq 0 (Z.to_nat spb))).

(** Replacing the bytes of a block. *)
Definition upd_block g (k : Z) (b : list Z) : image :=
  λ x, if decide (base k ≤ x < base k + spb) then sub ((x - base k) * 512) 512 b else g x.

Lemma spb_bounds : 4 ≤ spb ≤ 64.
Proof.
  destruct Hgeo as [Hl _ _ _ _]. unfold spb. set (l := s_log_block_size _) in *.
  assert (2 ^ 1 ≤ 2 ^ l) by (apply Z.pow_le_mono_r; lia). assert (2 ^ l ≤ 2 ^ 5) by (apply Z.pow_le_mono_r; lia). lia.
Qed.

Lemma bsz_bounds : 2048 ≤ bsz ≤ 32768.
Proof. pose proof spb_bounds. unfold bsz. lia. Qed.

Lemma block_size_ok : block_size (ev_super_block v) = Ret bsz.
Proof.
  destruct Hgeo as [Hl _ _ _ _]. pose proof bsz_bounds. unfold block_size, ushl64.
  rewrite (proj2 (Z.ltb_lt _ _)), Z.shiftl_mul_pow2 by lia.
  replace (1024 * 2 ^ s_log_block_size (ev_super_block v)) with bsz by (unfold bsz, spb; lia).
  unfold wrap. by rewrite Z.mod_small by lia.
Qed.

Lemma bsz_div : bsz / 512 = spb.
Proof. unfold bsz. rewrite Z.mul_comm. by apply Z.div_mul. Qed.

Lemma base_range k i : 0 ≤ k < nb → 0 ≤ i < spb → 0 ≤ base k + i < cap.
Proof.
  intros Hk Hi. destruct Hgeo as [_ Hs _ He _]. fold spb in He. unfold base. nia.
Qed.

Lemma cap_bound : cap ≤ 2 ^ 54.
Proof. apply Hgeo. Qed.

Lemma block_sector_ok k : 0 ≤ k < nb → block_sector v k bsz = Ret (base k).
Proof.
  intros Hk. pose proof spb_bounds. pose proof (base_range k 0 Hk ltac:(lia)) as Hr. pose proof cap_bound.
  destruct Hgeo as [_ Hs _ _ _]. unfold block_sector. rewrite bsz_div. unfold umul, uadd. unfold base in *.
  rewrite !checked_ok by nia. cbn [obind]. by rewrite checked_ok by lia.
Qed.

Lemma bgd_block_ok : bgd_block v = Ret 1.
Proof.
  unfold bgd_block. rewrite block_size_ok. cbn [obind]. pose proof bsz_bounds.
  by rewrite (proj2 (Z.eqb_neq _ _)) by lia.
Qed.

(** Different blocks have different sectors. *)
Lemma base_disjoint k k' i i' : 0 ≤ i < spb → 0 ≤ i' < spb → k ≠ k' → base k + i ≠ base k' + i'.
Proof. unfold base. pose proof spb_bounds. nia. Qed.

Lemma length_concat_sectors g (f : nat → Z) n : (∀ i, (i < n)%nat → length (g (f i)) = 512%nat) →
  length (concat (map (λ i, g (f i)) (seq 0 n))) = (n * 512)%nat.
Proof.
  induction n as [|n IH]; intros Hl; [done|]. rewrite seq_S, map_app, concat_app, length_app. cbn [map concat].
  rewrite app_nil_r, IH by (intros; apply Hl; lia). rewrite Hl by lia. lia.
Qed.

Lemma sector_ok d g k i : holds d g → 0 ≤ k < nb → 0 ≤ i < spb → is_sector (g (base k + i)).
Proof. intros Hd Hk Hi. eapply holds_sector; [exact Hd|]. by apply base_range. Qed.

Lemma length_blk d g k : holds d g → 0 ≤ k < nb → Z.of_nat (length (blk g k)) = bsz.
Proof.
  intros Hd Hk. pose proof spb_bounds. unfold blk. rewrite (length_concat_sectors g (λ i, base k + Z.of_nat i)).
  - unfold bsz. lia.
  - intros i Hi. apply (sector_ok d g k (Z.of_nat i) Hd Hk). lia.
Qed.

Lemma sum_list_const {A} (w : nat) (l : list A) : sum_list (map (λ _, w) l) = (length l * w)%nat.
Proof. induction l as [|x l IH]; [done|]. cbn [map sum_list_with length]. simpl. by rewrite IH. Qed.

(** The [i]-th piece of a concatenation of equal pieces. *)
Lemma sub_pieces (f : nat → list Z) (w : nat) n i : (∀ j, (j < n)%nat → length (f j) = w) → (i < n)%nat →
  sub (Z.of_nat (i * w)) (Z.of_nat w) (concat (map f (seq 0 n))) = f i.
Proof.
  intros Hl Hi. rewrite <- (app_nil_r (concat _)).
  apply (sub_concat (map f (seq 0 n)) (map (λ _, w) (seq 0 n)) [] i).
  - apply Forall2_fmap, Forall_Forall2_diag, Forall_forall. intros j Hj. apply Hl. apply elem_of_seq in Hj. lia.
  - rewrite list_lookup_fmap, lookup_seq_lt by lia. done.
  - f_equal. rewrite firstn_map, take_seq, Nat.min_l by lia. by rewrite sum_list_const, length_seq.
  - rewrite list_lookup_fmap, lookup_seq_lt by lia. done.
Qed.

Lemma blk_sector d g k i : holds d g → 0 ≤ k < nb → 0 ≤ i < spb → sub (i * 512) 512 (blk g k) = g (base k + i).
Proof.
  intros Hd Hk Hi. unfold blk. pose proof (sub_pieces (λ i, g (base k + Z.of_nat i)) 512 (Z.to_nat spb) (Z.to_nat i)) as Hs.
  rewrite Nat2Z.inj_mul, !Z2Nat.id in Hs by lia. apply Hs; [|lia].
  intros j Hj. apply (sector_ok d g k (Z.of_nat j) Hd Hk). lia.
Qed.

Lemma blk_ext g g' k : (∀ i, 0 ≤ i < spb → g' (base k + i) = g (base k + i)) → blk g' k = blk g k.
Proof.
  intros Hg. unfold blk. f_equal. apply map_ext_in. intros i [_ Hi]%in_seq. apply Hg. lia.
Qed.

Lemma blk_upd_block_other g k b k' : k' ≠ k → blk (upd_block g k b) k' = blk g k'.
Proof.
  intros Hne. apply blk_ext. intros i Hi. unfold upd_block. rewrite decide_False; [done|]. unfold base.
  pose proof spb_bounds. nia.
Qed.

Lemma blk_upd_other g lba b k : (∀ i, 0 ≤ i < spb → base k + i ≠ lba) → blk (upd g lba b) k = blk g k.
Proof. intros Hne. apply blk_ext. intros i Hi. unfold upd. rewrite decide_False; [done|]. by apply Hne. Qed.

Lemma concat_chunks (b : list Z) n : concat (map (λ i, sub (Z.of_nat i * 512) 512 b) (seq 0 n)) = take (n * 512) b.
Proof.
  induction n as [|n IH]; [done|]. rewrite seq_S, map_app, concat_app, IH. cbn [map concat]. rewrite app_nil_r.
  unfold sub. replace (Z.to_nat (Z.of_nat (0 + n) * 512)) with (n * 512)%nat by lia.
  change (Z.to_nat 512) with 512%nat. rewrite take_take_drop. f_equal. lia.
Qed.

Lemma blk_upd_block g k b : Z.of_nat (length b) = bsz → blk (upd_block g k b) k = b.
Proof.
  intros Hl. pose proof spb_bounds. unfold blk.
  rewrite (map_ext_in _ (λ i, sub (Z.of_nat i * 512) 512 b)).
  - rewrite concat_chunks, take_ge; [done|]. unfold bsz in Hl. lia.
  - intros i [_ Hi]%in_seq. unfold upd_block. rewrite decide_True by lia. do 2 f_equal. lia.
Qed.

Lemma read_sectors_ok d g k : holds d g → 0 ≤ k < nb →
  fwp (read_sectors (Z.to_nat spb) 0 (base k)) d (λ b d', b = blk g k ∧ d' = d).
Proof.
  intros Hd Hk. pose proof spb_bounds. pose proof cap_bound. unfold blk.
  assert (∀ n j, (j + n ≤ Z.to_nat spb)%nat →
    fwp (read_sectors n (Z.of_nat j) (base k)) d
      (λ b d', b = concat (map (λ i, g (base k + Z.of_nat i)) (seq j n)) ∧ d' = d)) as Hr; [|by apply (Hr _ 0%nat)].
  induction n as [|n IH]; intros j Hj; [done|]. cbn [read_sectors]. pose proof (base_range k (Z.of_nat j) Hk ltac:(lia)).
  apply fwp_bind, fwp_lift. wp_step. apply fwp_bind. eapply fwp_read; [exact Hd|done|]. apply fwp_bind.
  replace (Z.of_nat j + 1) with (Z.of_nat (S j)) by lia. eapply fwp_mono; [apply IH; lia|]. intros b d' [-> ->].
  by apply fwp_ret.
Qed.

Lemma sub_sector (b : list Z) i : Z.of_nat (length b) = bsz → Forall (λ x, is_byte x) b → 0 ≤ i < spb →
  is_sector (sub (i * 512) 512 b).
Proof.
  intros Hl Hb Hi. split; [apply length_sub; unfold bsz in Hl; lia|]. by apply Forall_take, Forall_drop.
Qed.

Lemma write_sectors_ok d g k b : holds d g → 0 ≤ k < nb → Z.of_nat (length b) = bsz → Forall (λ x, is_byte x) b →
  fwp (write_sectors (base k) bsz b) d (λ _ d', holds d' (upd_block g k b)).
Proof.
  intros Hd Hk Hl Hb. pose proof spb_bounds. pose proof cap_bound. unfold write_sectors. rewrite bsz_div.
  set (part := λ j x, if decide (base k ≤ x < base k + j) then sub ((x - base k) * 512) 512 b else g x).
  assert (∀ n j d, (0 ≤ j ∧ j + Z.of_nat n ≤ spb) → holds d (part j) →
    fwp (fs_each n j (λ i, sector_lba <! uadd 64 (base k) i;; fs_write sector_lba (sub (i * 512) 512 b))) d
      (λ _ d', holds d' (part (j + Z.of_nat n)))) as Hw.
  { induction n as [|n IH]; intros j d0 Hj Hd0; [by rewrite Z.add_0_r|]. cbn [fs_each].
    pose proof (base_range k j Hk ltac:(lia)). apply fwp_bind, fwp_bind, fwp_lift. wp_step.
    eapply fwp_write; [exact Hd0|done|apply sub_sector; done || lia|]. intros d1 Hd1.
    replace (j + Z.of_nat (S n)) with (j + 1 + Z.of_nat n) by lia. apply IH; [lia|].
    eapply holds_ext; [exact Hd1|]. intros x Hx. unfold upd, part. destruct (decide (x = base k + j)) as [->|Hne].
    - rewrite decide_True by lia. do 2 f_equal. lia.
    - repeat case_decide; try done; lia. }
  eapply fwp_mono; [apply (Hw _ 0 d); [lia|]|].
  - eapply holds_ext; [exact Hd|]. intros x Hx. unfold part. by rewrite decide_False by lia.
  - intros u d' Hd'. rewrite Z.add_0_l, Z2Nat.id in Hd' by lia. exact Hd'.
Qed.

(** ** Extents *)

(** The physical block of a logical block: the first extent that covers it. *)
Fixpoint extent_lookup (es : list Ext4Extent) (l : Z) : option Z :=
  match es with
  | [] => None
  | e :: es =>
      if (ee_block e <=? l) && (l <? ee_block e + ee_len e)
      then Some (Z.lor (Z.shiftl (ee_start_hi e) 32) (ee_start_lo e) + (l - ee_block e))
      else extent_lookup es l
  end.

(** The inode has these extents, in one leaf; they lie on the volume. *)
Record has_extents (i : Ext4Inode) (es : list Ext4Extent) : Prop := {
  he_magic : eh_magic (extent_header_of_bytes (i_block i)) = 0xF30A;
  he_depth : eh_depth (extent_header_of_bytes (i_block i)) = 0;
  he_leaf : leaf_extents (i_block i) (eh_entries (extent_header_of_bytes (i_block i))) = Ret es;
  he_logical : Forall (λ e, 0 ≤ ee_block e ∧ 0 ≤ ee_len e ∧ ee_block e + ee_len e < 2 ^ 32) es;
  he_physical l k : extent_lookup es l = Some k → 0 ≤ k < nb;
}.

Lemma find_extent_ok es l : Forall (λ e, 0 ≤ ee_block e ∧ 0 ≤ ee_len e ∧ ee_block e + ee_len e < 2 ^ 32) es →
  (∀ k, extent_lookup es l = Some k → 0 ≤ k < nb) → find_extent v bsz l es = Ret (base <$> extent_lookup es l).
Proof.
  induction es as [|e es IH]; intros Hlog Hph; [done|]. apply Forall_cons in Hlog as [He Hlog].
  cbn [find_extent extent_lookup] in *. destruct (Z.leb_spec (ee_block e) l) as [Hle|Hlt].
  - rewrite (proj2 (Z.ltb_ge _ _)) by lia. unfold uadd at 1. rewrite checked_ok by lia. cbn [obind andb] in *.
    destruct (Z.ltb_spec l (ee_block e + ee_len e)); [|by apply IH].
    specialize (Hph _ eq_refl). pose proof (geo_blocks _ _ _ Hgeo). unfold uadd. rewrite checked_ok by lia.
    cbn [obind]. by rewrite block_sector_ok.
  - rewrite (proj2 (Z.ltb_lt _ _)) by lia. by apply IH.
Qed.

Lemma logical_ok i es l : has_extents i es →
  logical_to_physical_sector v i l = Ret (base <$> extent_lookup es l).
Proof.
  intros [Hm Hd Hl Hlog Hph]. unfold logical_to_physical_sector. rewrite block_size_ok. cbn [obind].
  rewrite Hm, Hd, Hl. cbn [Z.eqb negb obind]. apply find_extent_ok; [done|]. apply Hph.
Qed.

(** ** Reading files *)

(** The blocks of a file up to its end or its first hole. *)
Definition file_blocks (n : Ext4Node) (es : list Ext4Extent) (ks : list Z) : Prop :=
  (∀ l k, ks !! l = Some k → extent_lookup es (Z.of_nat l) = Some k)
  ∧ (en_size n ≤ Z.of_nat (length ks) * bsz ∨ extent_lookup es (Z.of_nat (length ks)) = None)
  ∧ Z.of_nat (length ks) < 2 ^ 32.

Definition file_bytes g (ks : list Z) : list Z := concat (map (blk g) ks).

Lemma blk_widths d g ks : holds d g → Forall (λ k, 0 ≤ k < nb) ks →
  widths_ok (map (blk g) ks) (map (λ _, Z.to_nat bsz) ks).
Proof.
  intros Hd Hk. apply Forall2_fmap, Forall_Forall2_diag. eapply Forall_impl; [exact Hk|]. intros k Hkr.
  pose proof (length_blk d g k Hd Hkr). lia.
Qed.

Lemma length_file_bytes d g ks : holds d g → Forall (λ k, 0 ≤ k < nb) ks →
  Z.of_nat (length (file_bytes g ks)) = Z.of_nat (length ks) * bsz.
Proof.
  intros Hd Hk. pose proof bsz_bounds. unfold file_bytes.
  rewrite (length_concat_widths _ _ (blk_widths d g ks Hd Hk)), sum_list_const. lia.
Qed.

(** The sector of a file at byte [c]. *)
Lemma file_sector d g ks c k : holds d g → Forall (λ k, 0 ≤ k < nb) ks → 0 ≤ c →
  ks !! Z.to_nat (c / bsz) = Some k →
  sub (c / 512 * 512) 512 (file_bytes g ks) = g (base k + c mod bsz / 512).
Proof.
  intros Hd Hks Hc Hk. pose proof bsz_bounds. pose proof spb_bounds. pose proof (proj1 (Forall_lookup _ _) Hks _ _ Hk) as Hkr.
  set (l := c / bsz) in *. set (r := c mod bsz). assert (c = l * bsz + r ∧ 0 ≤ r < bsz ∧ 0 ≤ l) as (Hcr & Hr & Hl).
  { unfold l, r. pose proof (Z.div_mod c bsz ltac:(lia)). pose proof (Z.mod_pos_bound c bsz ltac:(lia)).
    pose proof (Z.div_pos c bsz Hc ltac:(lia)). lia. }
  assert (c / 512 = l * spb + r / 512) as ->.
  { rewrite Hcr. unfold bsz. replace (l * (512 * spb) + r) with (l * spb * 512 + r) by lia. by rewrite Z.div_add_l. }
  assert (0 ≤ r / 512 < spb) as Hr' by (unfold bsz in Hr; zlia).
  rewrite <- (blk_sector d g k) by done.
  replace ((l * spb + r / 512) * 512) with (l * bsz + r / 512 * 512) by (unfold bsz; lia).
  assert (sub (l * bsz) bsz (file_bytes g ks) = blk g k) as <-.
  { unfold file_bytes. rewrite <- (app_nil_r (concat _)).
    eapply (sub_concat _ _ _ (Z.to_nat l) _ _ _ (blk_widths d g ks Hd Hks)).
    - rewrite list_lookup_fmap, Hk. done.
    - rewrite firstn_map, sum_list_const, length_take. apply lookup_lt_Some in Hk. lia.
    - rewrite list_lookup_fmap, Hk. cbn. f_equal. lia. }
  rewrite sub_sub by (unfold bsz; lia). done.
Qed.

Lemma sub_join {A} (l : list A) off a b : 0 ≤ off → 0 ≤ a → 0 ≤ b → sub off a l ++ sub (off + a) b l = sub off (a + b) l.
Proof.
  intros. unfold sub. replace (Z.to_nat (off + a)) with (Z.to_nat off + Z.to_nat a)%nat by lia.
  rewrite <- drop_drop, take_take_drop. f_equal. lia.
Qed.

Lemma blocks_on_volume n es ks : has_extents (en_inode n) es → file_blocks n es ks → Forall (λ k, 0 ≤ k < nb) ks.
Proof.
  intros He (Hk & _ & _). apply Forall_lookup. intros l k Hl. eapply (he_physical _ _ He). by apply Hk.
Qed.

(** One round of the loop extends the copy. *)
Lemma read_round_ok d g n es ks off N copied : holds d g → en_volume n = v → has_extents (en_inode n) es →
  file_blocks n es ks → 0 ≤ off → off + N ≤ en_size n → off ≤ Z.of_nat (length ks) * bsz → 0 ≤ N →
  let F := file_bytes g ks in
  copied = sub off (Z.of_nat (length copied)) F → Z.of_nat (length copied) ≤ N →
  wp (ext4_read_round n d off N bsz copied) (λ r,
    match r with
    | Next c => (c = sub off (Z.of_nat (length c)) F ∧ Z.of_nat (length c) ≤ N) ∧ (length copied < length c)%nat
    | Done c => c = sub off N F
    end).
Proof.
  intros Hd Hv He Hb Ho HN Hlen HN0 F Hc HcN. pose proof bsz_bounds. pose proof spb_bounds.
  pose proof (blocks_on_volume n es ks He Hb) as Hks. pose proof (length_file_bytes d g ks Hd Hks) as HF. fold F in HF.
  destruct Hb as (Hmap & Hend & Hmax). unfold ext4_read_round.
  destruct (Z.ltb_spec (Z.of_nat (length copied)) N) as [Hlt|]; cbn [negb]; [|wp_step; by rewrite Hc; f_equal; lia].
  set (c := off + Z.of_nat (length copied)).
  assert (Z.of_nat (length copied) ≤ Z.max 0 (Z.of_nat (length F) - off)) as Hcl.
  { rewrite Hc. unfold sub. rewrite length_take, length_drop. lia. }
  assert (0 ≤ c / bsz ≤ Z.of_nat (length ks)) as Hq by (unfold c; split; [apply Z.div_pos; lia|apply Z.div_le_upper_bound; nia]).
  unfold udiv, umod. rewrite (proj2 (Z.eqb_neq bsz 0)) by lia. cbn [obind].
  unfold wrap. rewrite Z.mod_small by lia. rewrite Hv, (logical_ok _ es) by done. cbn [obind].
  destruct (ks !! Z.to_nat (c / bsz)) as [k|] eqn:Ek.
  - pose proof (Hmap _ _ Ek) as Hx. rewrite Z2Nat.id in Hx by lia. rewrite Hx. cbn [fmap option_fmap option_map].
    assert (0 ≤ k < nb) as Hkr by (by eapply (proj1 (Forall_lookup _ _) Hks)).
    pose proof (Z.mod_pos_bound c bsz ltac:(lia)) as Hm.
    assert (0 ≤ c mod bsz / 512 < spb) as Hs by (unfold bsz in Hm |- *; zlia).
    pose proof (base_range k _ Hkr Hs) as Hr. pose proof cap_bound. wp_step. wp_step.
    destruct Hd as [Hh Hrd]. rewrite Hrd by done. wp_step.
    rewrite <- (file_sector d g ks c k (conj Hh Hrd) Hks ltac:(lia) Ek). fold F.
    set (chunk := Z.min (512 - c mod 512) (N - Z.of_nat (length copied))).
    pose proof (Z.mod_pos_bound c 512 ltac:(lia)) as Hm5. pose proof (Z.div_mod c 512 ltac:(lia)) as Hdm.
    assert (c + chunk ≤ Z.of_nat (length F)) as Hin.
    { apply lookup_lt_Some in Ek. assert (c < Z.of_nat (length ks) * bsz) as Hcb.
      { pose proof (Z.div_mod c bsz ltac:(lia)). nia. }
      unfold bsz in HF, Hcb. set (P := Z.of_nat (length ks) * spb) in *.
      assert (c < 512 * P) by lia. assert (Z.of_nat (length F) = 512 * P) by lia. lia. }
    rewrite sub_sub by lia. replace (c / 512 * 512 + c mod 512) with c by lia.
    pose proof (length_sub F c chunk ltac:(lia) ltac:(lia) Hin) as Hlc. rewrite !length_app, Hlc.
    split; [|lia]. split; [|lia]. rewrite Hc at 1. unfold c. rewrite sub_join by lia. f_equal. lia.
  - apply lookup_ge_None in Ek. assert (c / bsz = Z.of_nat (length ks)) as E by lia.
    pose proof (Z.div_mod c bsz ltac:(lia)) as Hdm. pose proof (Z.mod_pos_bound c bsz ltac:(lia)).
    destruct Hend as [Hend|Hend]; [nia|]. rewrite E, Hend. cbn [fmap option_fmap option_map]. wp_step. rewrite Hc. unfold sub.
    rewrite !take_ge by (rewrite length_drop; nia). done.
Qed.

Lemma ext4_read_ok d g n es ks off len : holds d g → en_volume n = v → has_extents (en_inode n) es →
  file_blocks n es ks → 0 ≤ off ≤ Z.of_nat (length ks) * bsz → 0 ≤ len →
  ext4_read n d off len = Ret (sub off (Z.min len (en_size n - off)) (file_bytes g ks)).
Proof.
  intros Hd Hv He Hb Ho Hlen. unfold ext4_read.
  destruct (Z.leb_spec (en_size n) off); [cbn [orb]; unfold sub; by replace (Z.to_nat _) with 0%nat by lia|].
  destruct (Z.eqb_spec len 0) as [->|]; cbn [orb]; [unfold sub; by replace (Z.to_nat (Z.min _ _)) with 0%nat by lia|].
  rewrite Hv, block_size_ok. cbn [obind]. set (N := Z.min len (en_size n - off)).
  assert (wp (loop (S (Z.to_nat N)) (ext4_read_round n d off N bsz) []) (λ c, c = sub off N (file_bytes g ks))) as Hw.
  { apply (wp_loop (λ c, c = sub off (Z.of_nat (length c)) (file_bytes g ks) ∧ Z.of_nat (length c) ≤ N)
      (λ c, (Z.to_nat N - length c)%nat)); [|split; [done|cbn [length]; lia]|cbn [length]; lia].
    intros c [Hc HcN]. eapply wp_mono; [apply (read_round_ok d g n es ks); done || lia|cbv beta].
    intros [c'|c']; [|done]. intros [[Hc' HcN'] Hl]. split; [done|lia]. }
  apply wp_inv in Hw as (c & -> & ->). done.
Qed.

(** ** Block groups and allocation *)

(** The descriptor the driver reads for a group. *)
Definition bgd_at g (group : Z) : Ext4BlockGroupDescriptor :=
  bgd_of_bytes (sub ((group * BGD_SIZE) mod 512) BGD_SIZE (g (base 1))).

Lemma read_bgd_ok d g group (Q : Ext4BlockGroupDescriptor → D → Prop) : holds d g → Q (bgd_at g group) d →
  fwp (read_bgd v group) d Q.
Proof.
  intros Hd HQ. pose proof spb_bounds. pose proof (geo_blocks _ _ _ Hgeo). unfold read_bgd.
  rewrite block_size_ok, bgd_block_ok. apply fwp_bind, fwp_lift. wp_step. apply fwp_bind, fwp_lift. wp_step.
  rewrite block_sector_ok by lia. apply fwp_bind, fwp_lift. wp_step. apply fwp_bind.
  pose proof (base_range 1 0 ltac:(lia) ltac:(lia)) as Hr. rewrite Z.add_0_r in Hr.
  eapply fwp_read; [exact Hd|done|]. destruct (holds_sector _ _ _ Hd Hr) as [Hl _].
  apply fwp_bind, fwp_lift. unfold raw_slice. rewrite Hl, (proj2 (Z.leb_le _ _)); [by wp_step|].
  unfold BGD_SIZE. zlia.
Qed.

Lemma take_bit_ok d g B e : holds d g → 0 ≤ B < nb →
  wp (take_bit v B e d) (λ '(r, d'),
    match r with
    | Ok i => lowest_clear (g (base B)) i ∧ holds d' (upd g (base B) (set_bit_at (g (base B)) i))
    | Err x => x = e ∧ d' = d ∧ full (g (base B))
    end).
Proof.
  intros Hd HB. pose proof spb_bounds. unfold take_bit, fs_bind at 1, fs_lift at 1. rewrite block_size_ok. cbn [obind].
  unfold fs_bind at 1, fs_lift at 1. rewrite block_sector_ok by done. cbn [obind].
  pose proof (base_range B 0 HB ltac:(lia)) as Hr. rewrite Z.add_0_r in Hr.
  destruct (holds_sector _ _ _ Hd Hr) as [Hl Hb]. unfold fs_bind at 1, fs_read. rewrite (proj2 Hd) by done. cbn [obind].
  set (l := g (base B)) in *. pose proof (scan_bitmap_ok l Hb 0) as Hs.
  destruct (scan_bitmap l 0) as [[b k]|]; [|done]. destruct Hs as [Hlow Hk]. rewrite Z.sub_0_r in Hlow.
  pose proof Hlow as [Hi _]. rewrite Hl in Hi. change (Z.of_nat 512) with 512 in Hi.
  assert (Hd1 : (b * 8 + k) / 8 = b) by zlia. assert (Hm1 : (b * 8 + k) mod 8 = k) by zlia.
  destruct (lookup_lt_is_Some_2 l (Z.to_nat b)) as [x Hx]; [lia|].
  assert (set_bit_at l (b * 8 + k) = <[Z.to_nat b := Z.lor x (Z.shiftl 1 k)]> l) as Hset.
  { unfold set_bit_at. rewrite Hd1, Hm1, (nth_lookup l _ 0), Hx. done. }
  unfold fs_bind at 1, fs_lift at 1, vget. rewrite Hx. cbn [obind].
  unfold fs_bind at 1, fs_lift at 1, vset. rewrite Hx. cbn [obind]. rewrite <- Hset.
  assert (fwp (_ <~ fs_write (base B) (set_bit_at l (b * 8 + k));; fs_ret (b * 8 + k)) d
    (λ i d', lowest_clear l i ∧ holds d' (upd g (base B) (set_bit_at l i)))) as Hw.
  { apply fwp_bind. eapply fwp_write; [exact Hd|done|by apply set_bit_sector|]. intros d' Hd'. by apply fwp_ret. }
  eapply wp_mono; [exact Hw|]. intros [[i|y] d']; [done|by intros []].
Qed.

(** What an allocator of group 0 does with its bitmap block: the lowest clear bit is
    set, nothing else on the disk changes; or the bitmap is full. *)
Definition allocated_bit d g (B : Z) (e : FsError) (r : result Z FsError) d' (num : Z → Z) : Prop :=
  match r with
  | Ok x => ∃ i, x = num i ∧ lowest_clear (g (base B)) i ∧ holds d' (upd g (base B) (set_bit_at (g (base B)) i))
  | Err x => x = e ∧ d' = d ∧ full (g (base B))
  end.

Lemma lowest_clear_range d g B i : holds d g → 0 ≤ B < nb → lowest_clear (g (base B)) i → 0 ≤ i < 4096.
Proof.
  intros Hd HB [Hi _]. pose proof spb_bounds. pose proof (base_range B 0 HB ltac:(lia)) as Hr. rewrite Z.add_0_r in Hr.
  destruct (holds_sector _ _ _ Hd Hr) as [Hl _]. rewrite Hl in Hi. lia.
Qed.

Lemma allocate_inode_ok d g : holds d g → 0 ≤ bg_inode_bitmap_lo (bgd_at g 0) < nb →
  wp (allocate_inode v d) (λ '(r, d'),
    allocated_bit d g (bg_inode_bitmap_lo (bgd_at g 0)) OutOfInodes r d' (λ i, i + 1)).
Proof.
  intros Hd HB. unfold allocate_inode, fs_bind at 1. wp_step.
  eapply wp_mono; [apply (read_bgd_ok d g 0 (λ b d', b = bgd_at g 0 ∧ d' = d)); done|].
  intros [[b|x] d']; [|by intros []]. intros [-> ->]. unfold fs_bind. wp_step.
  eapply wp_mono; [by apply take_bit_ok|]. intros [[i|x] d']; [|done]. intros [Hl Hd'].
  pose proof (lowest_clear_range _ _ _ _ Hd HB Hl). exists i. unfold wrap. by rewrite Z.mod_small by lia.
Qed.

Lemma allocate_block_ok d g : holds d g → 0 ≤ bg_block_bitmap_lo (bgd_at g 0) < nb →
  wp (allocate_block v d) (λ '(r, d'),
    allocated_bit d g (bg_block_bitmap_lo (bgd_at g 0)) OutOfBlocks r d' (λ i, i)).
Proof.
  intros Hd HB. unfold allocate_block, fs_bind at 1. wp_step.
  eapply wp_mono; [apply (read_bgd_ok d g 0 (λ b d', b = bgd_at g 0 ∧ d' = d)); done|].
  intros [[b|x] d']; [|by intros []]. intros [-> ->]. unfold fs_bind. wp_step.
  eapply wp_mono; [by apply take_bit_ok|]. intros [[i|x] d']; [|done]. intros [Hl Hd'].
  pose proof (lowest_clear_range _ _ _ _ Hd HB Hl). exists i. unfold wrap. by rewrite Z.mod_small by lia.
Qed.

(** ** Inodes *)

(** The place of an inode: a sector and an offset in it. *)
Definition inode_group (n : Z) : Z := (n - 1) / s_inodes_per_group (ev_super_block v).
Definition inode_index (n : Z) : Z := (n - 1) mod s_inodes_per_group (ev_super_block v).
Definition inode_table g (n : Z) : Z := bg_inode_table_lo (bgd_at g (inode_group n)).
Definition inode_sector g (n : Z) : Z := base (inode_table g n) + inode_index n / 2.
Definition inode_off (n : Z) : Z := inode_index n mod 2 * 256.
Definition inode_at g (n : Z) : Ext4Inode :=
  inode_of_bytes (sub (inode_off n) INODE_STRUCT_SIZE (g (inode_sector g n))).

(** The number is valid and its place lies on the volume. *)
Record inode_valid g (n : Z) : Prop := {
  iv_number : 1 ≤ n ≤ s_inodes_count (ev_super_block v);
  iv_count : s_inodes_count (ev_super_block v) < 2 ^ 32;
  iv_per_group : 0 < s_inodes_per_group (ev_super_block v);
  iv_table : 0 ≤ inode_table g n;
  iv_end : inode_table g n * spb + inode_index n / 2 < nb * spb;
}.

Lemma inode_sector_range g n : inode_valid g n → 0 ≤ inode_sector g n < cap.
Proof.
  intros [? _ Hp Ht He]. pose proof spb_bounds. destruct Hgeo as [_ Hs _ Hend _]. fold spb in Hend.
  pose proof (Z.mod_pos_bound (n - 1) _ Hp) as Hi. fold (inode_index n) in Hi. unfold inode_sector, base. zlia.
Qed.

Lemma inode_off_range n : 0 ≤ inode_off n ≤ 256.
Proof. unfold inode_off. pose proof (Z.mod_pos_bound (inode_index n) 2 ltac:(lia)). lia. Qed.

Lemma locate_inode_ok d g n (Q : Z * Z → D → Prop) : holds d g → inode_valid g n →
  Q (inode_sector g n, inode_off n) d → fwp (locate_inode v n) d Q.
Proof.
  intros Hd Hv HQ. pose proof (inode_sector_range g n Hv) as Hr. pose proof cap_bound. destruct Hv as [Hn Hc Hp Ht He].
  pose proof bsz_bounds. pose proof spb_bounds. pose proof (geo_start _ _ _ Hgeo) as Hs.
  pose proof (Z.mod_pos_bound (n - 1) _ Hp) as Hi. fold (inode_index n) in Hi.
  assert (inode_index n < 2 ^ 32) as Hi32 by (unfold inode_index; pose proof (Z.mod_le (n - 1) _ ltac:(lia) Hp); lia).
  unfold locate_inode. rewrite (proj2 (Z.ltb_ge n 1)), (proj2 (Z.ltb_ge _ n)) by lia. cbn [orb].
  rewrite block_size_ok. apply fwp_bind, fwp_lift. wp_step. unfold udiv, umod. rewrite (proj2 (Z.eqb_neq _ 0)) by lia.
  apply fwp_bind, fwp_lift. wp_step. apply fwp_bind, fwp_lift. wp_step. apply fwp_bind.
  apply (read_bgd_ok d g); [done|]. fold (inode_group n) (inode_index n) (inode_table g n).
  assert (inode_table g n * bsz + inode_index n * 256 < 2 ^ 63) as Hb.
  { unfold inode_sector, base in Hr. unfold bsz. zlia. }
  apply fwp_bind, fwp_lift. wp_step. apply fwp_bind, fwp_lift. apply wp_checked; [nia|]. apply fwp_bind, fwp_lift.
  apply wp_checked; [nia|]. apply fwp_bind, fwp_lift.
  assert ((inode_table g n * bsz + inode_index n * 256) / 512 = inode_table g n * spb + inode_index n / 2) as ->.
  { unfold bsz. replace (inode_table g n * (512 * spb)) with (inode_table g n * spb * 512) by lia.
    rewrite Z.div_add_l by lia. f_equal. zlia. }
  apply wp_checked; [unfold inode_sector, base in Hr; lia|]. apply fwp_ret.
  assert ((inode_table g n * bsz + inode_index n * 256) mod 512 = inode_off n) as ->.
  { unfold bsz, inode_off. replace (inode_table g n * (512 * spb) + inode_index n * 256) with (inode_index n * 256 + inode_table g n * spb * 512) by lia.
    rewrite Z.mod_add by lia. zlia. }
  unfold inode_sector, base in HQ. by rewrite Z.add_assoc.
Qed.

Lemma read_inode_ok d g n (Q : Ext4Inode → D → Prop) : holds d g → inode_valid g n → Q (inode_at g n) d →
  fwp (read_inode v n) d Q.
Proof.
  intros Hd Hv HQ. pose proof (inode_sector_range g n Hv) as Hr. pose proof (inode_off_range n). unfold read_inode.
  apply fwp_bind, (locate_inode_ok d g); [done|done|]. cbn [fst snd]. apply fwp_bind. eapply fwp_read; [exact Hd|done|].
  destruct (holds_sector _ _ _ Hd Hr) as [Hl _]. apply fwp_bind, fwp_lift. unfold raw_slice.
  rewrite Hl, (proj2 (Z.leb_le _ _)) by (unfold INODE_STRUCT_SIZE; lia). wp_step. by apply fwp_ret.
Qed.

(** The disk after an inode was written. *)
Definition put_inode g (n : Z) (i : Ext4Inode) : image :=
  upd g (inode_sector g n) (splice (inode_off n) (inode_to_bytes i) (g (inode_sector g n))).

Lemma Forall_splice {A} (P : A → Prop) off new l : Forall P new → Forall P l → Forall P (splice off new l).
Proof.
  intros Hn Hl. unfold splice. apply Forall_app. split; [by apply Forall_take|]. apply Forall_app.
  split; [done|by apply Forall_drop].
Qed.

Lemma splice_sector off new b : is_sector b → 0 ≤ off → off + Z.of_nat (length new) ≤ 512 →
  Forall (λ x, is_byte x) new → is_sector (splice off new b).
Proof.
  intros [Hl Hb] Ho Hn Hnb. split; [rewrite length_splice; lia|]. by apply Forall_splice.
Qed.

Lemma write_inode_ok d g n i : holds d g → inode_valid g n → inode_wf i →
  fwp (write_inode v n i) d (λ _ d', holds d' (put_inode g n i)).
Proof.
  intros Hd Hv Hi. pose proof (inode_sector_range g n Hv) as Hr. pose proof (inode_off_range n).
  pose proof (length_inode_to_bytes i Hi) as Hli. unfold write_inode.
  apply fwp_bind, (locate_inode_ok d g); [done|done|]. cbn [fst snd]. apply fwp_bind. eapply fwp_read; [exact Hd|done|].
  pose proof (holds_sector _ _ _ Hd Hr) as Hsec. pose proof Hsec as [Hl _]. apply fwp_bind, fwp_lift. unfold raw_write.
  rewrite Hl, (proj2 (Z.leb_le _ _)), (proj2 (Z.leb_le _ _)) by lia. cbn [andb]. wp_step.
  eapply fwp_write; [exact Hd|done| |done]. apply splice_sector; [done|lia|lia|by apply inode_to_bytes_range].
Qed.
End Geometry.
