(* ===== verification/Ext4Dir.v ===== *)
(** * Ext4 directories and file creation

    Directory blocks as sequences of records, the specifications of [lookup] and
    [add_entry] on them, and the creation of a file as the disk manager does it:
    allocate an inode and a block, write the data, write the inode, link it. *)

From S2P Require Import Prelude KError Block Str Vfs Ext4 Ext4Image.

#[local] Open Scope list_scope.

(** ** Records *)

Record dent := mkDent { dn_inode : Z; dn_type : Z; dn_name : list Z; dn_slack : list Z }.

Definition dent_len (e : dent) : nat := 8 + length (dn_name e) + length (dn_slack e).

Definition dent_fields (e : dent) : list (list Z) :=
  [le_bytes 4 (dn_inode e); le_bytes 2 (Z.of_nat (dent_len e)); le_bytes 1 (Z.of_nat (length (dn_name e)));
   le_bytes 1 (dn_type e); dn_name e; dn_slack e].
Definition dent_bytes (e : dent) : list Z := concat (dent_fields e).
Definition dir_bytes (es : list dent) : list Z := concat (map dent_bytes es).

Record dent_wf (e : dent) : Prop := {
  dw_inode : 0 ≤ dn_inode e < 2 ^ 32;
  dw_type : 0 ≤ dn_type e < 256;
  dw_name : (length (dn_name e) < 256)%nat;
  dw_len : Z.of_nat (dent_len e) < 65536;
  dw_bytes : Forall (λ b, is_byte b) (dn_name e ++ dn_slack e);
}.

Lemma dent_widths_ok e :
  widths_ok (dent_fields e) [4; 2; 1; 1; length (dn_name e); length (dn_slack e)]%nat.
Proof. unfold dent_fields. widths. Qed.

Lemma length_dent_bytes e : length (dent_bytes e) = dent_len e.
Proof. unfold dent_bytes. rewrite (length_concat_widths _ _ (dent_widths_ok e)). simpl. unfold dent_len. lia. Qed.

Lemma dir_header_roundtrip e rest : dent_wf e →
  dir_header_of_bytes (dent_bytes e ++ rest)
  = mkDirHeader (dn_inode e) (Z.of_nat (dent_len e)) (Z.of_nat (length (dn_name e))) (dn_type e).
Proof.
  intros [Hi Ht Hn Hl _]. unfold dir_header_of_bytes, dent_bytes. pose proof (dent_widths_ok e) as Hw.
  f_equal; decode_field Hw 4%nat.
Qed.

Lemma dent_name_sub e rest : sub 8 (Z.of_nat (length (dn_name e))) (dent_bytes e ++ rest) = dn_name e.
Proof. unfold dent_bytes. eapply (sub_concat _ _ _ 4 _ _ _ (dent_widths_ok e)); done. Qed.

Lemma dent_bytes_range e : dent_wf e → Forall (λ b, is_byte b) (dent_bytes e).
Proof.
  intros He. destruct (proj1 (Forall_app _ _ _) (dw_bytes _ He)) as [Hn Hs]. apply Forall_concat. unfold dent_fields.
  repeat (apply List.Forall_cons; [first [apply le_bytes_range | done]|]). apply List.Forall_nil.
Qed.

Lemma dir_bytes_range es : Forall dent_wf es → Forall (λ b, is_byte b) (dir_bytes es).
Proof.
  intros He. apply Forall_concat. apply Forall_fmap. eapply Forall_impl; [exact He|]. apply dent_bytes_range.
Qed.

Lemma dir_bytes_app es1 es2 : dir_bytes (es1 ++ es2) = dir_bytes es1 ++ dir_bytes es2.
Proof. unfold dir_bytes. by rewrite map_app, concat_app. Qed.

Lemma dir_bytes_cons e es : dir_bytes (e :: es) = dent_bytes e ++ dir_bytes es.
Proof. done. Qed.

(** ** Overwriting pieces of a buffer *)

Lemma splice_concat {A} (ps : list (list A)) i p new off : ps !! i = Some p → length new = length p →
  off = Z.of_nat (length (concat (take i ps))) → splice off new (concat ps) = concat (<[i := new]> ps).
Proof.
  intros Hi Hl ->. pose proof (lookup_lt_Some _ _ _ Hi) as Hlt.
  rewrite <- (take_drop_middle ps i p Hi) at 2. rewrite insert_take_drop by done. rewrite !concat_app. cbn [concat].
  unfold splice. rewrite Nat2Z.id, take_app_length. f_equal. f_equal.
  rewrite Hl, <- drop_drop, drop_app_length. apply drop_app_length.
Qed.

Lemma raw_write_concat ps i p new off : ps !! i = Some p → length new = length p →
  off = Z.of_nat (length (concat (take i ps))) → raw_write (concat ps) off new = Ret (concat (<[i := new]> ps)).
Proof.
  intros Hi Hl Ho. unfold raw_write. rewrite (proj2 (Z.leb_le 0 off)) by lia.
  rewrite (proj2 (Z.leb_le _ _)); [cbn [andb]; by rewrite (splice_concat ps i p)|].
  rewrite <- (take_drop_middle ps i p Hi), concat_app, length_app. cbn [concat]. rewrite length_app. lia.
Qed.

(** ** Appending a record *)

(** The lengths the code computes. *)
Definition aligned (n : nat) : nat := (n + 3) / 4 * 4.

Lemma align4_aligned n : Z.of_nat n < 2 ^ 32 → align4 (Z.of_nat n) = Z.of_nat (aligned n).
Proof.
  intros Hn. unfold align4. change 3 with (Z.ones 2) at 2. rewrite land_unot_ones by lia. unfold aligned.
  rewrite Nat2Z.inj_mul, Nat2Z.inj_div, Nat2Z.inj_add. change (Z.of_nat 3) with 3. change (Z.of_nat 4) with 4.
  change (2 ^ 2) with 4. zlia.
Qed.

Lemma aligned_bounds n : (n ≤ aligned n ≤ n + 3)%nat.
Proof. unfold aligned. pose proof (Nat.div_mod (n + 3) 4 ltac:(lia)). pose proof (Nat.mod_upper_bound (n + 3) 4 ltac:(lia)). lia. Qed.

(** The record cut to its aligned length, and the record that takes the rest. *)
Definition cut_dent (e : dent) : dent :=
  mkDent (dn_inode e) (dn_type e) (dn_name e)
    (take (aligned (8 + length (dn_name e)) - (8 + length (dn_name e))) (dn_slack e)).
Definition rest_dent (e : dent) (name : list Z) (inode_num : Z) : dent :=
  mkDent inode_num 1 name
    (drop (aligned (8 + length (dn_name e)) - (8 + length (dn_name e)) + (8 + length name)) (dn_slack e)).

(** The padding of a record has room for another name. *)
Definition has_room (e : dent) (name : list Z) : Prop :=
  (aligned (8 + length (dn_name e)) + aligned (8 + length name) ≤ dent_len e)%nat.

Lemma split_record {A} (l : list A) n :
  l = take 4 l ++ take 2 (drop 4 l) ++ take 1 (drop 6 l) ++ take 1 (drop 7 l) ++ take n (drop 8 l) ++ drop (8 + n) l.
Proof.
  rewrite <- (take_drop 4 l) at 1. f_equal. rewrite <- (take_drop 2 (drop 4 l)) at 1. f_equal. rewrite drop_drop.
  rewrite <- (take_drop 1 (drop (4 + 2) l)) at 1. f_equal. rewrite drop_drop.
  rewrite <- (take_drop 1 (drop (4 + 2 + 1) l)) at 1. f_equal. rewrite drop_drop.
  rewrite <- (take_drop n (drop (4 + 2 + 1 + 1) l)) at 1. f_equal. by rewrite drop_drop.
Qed.

(** The side conditions of a write to one piece. *)
Ltac pieces :=
  first [ reflexivity
        | cbn [take concat]; rewrite ?length_app, ?length_le_bytes, ?length_take, ?length_drop; cbn [length];
          rewrite ?length_app, ?length_le_bytes, ?length_take, ?length_drop; cbn [length]; lia ].

Section Append.
Context `{HP : Profile}.

Lemma cut_rest_len e name ino : has_room e name →
  dent_len (cut_dent e) = aligned (8 + length (dn_name e))
  ∧ dent_len (rest_dent e name ino) = (dent_len e - aligned (8 + length (dn_name e)))%nat.
Proof.
  unfold has_room, dent_len. intros Hr. pose proof (aligned_bounds (8 + length (dn_name e))).
  pose proof (aligned_bounds (8 + length name)). unfold cut_dent, rest_dent. cbn [dn_name dn_slack].
  rewrite length_take, length_drop. lia.
Qed.

Lemma cut_wf e : dent_wf e → dent_wf (cut_dent e).
Proof.
  intros [Hi Ht Hn Hl Hb]. apply Forall_app in Hb as [Hb1 Hb2]. split; try done; cbn [cut_dent dn_name dn_slack].
  - unfold dent_len in *. cbn [cut_dent dn_name dn_slack]. rewrite length_take. lia.
  - apply Forall_app. split; [done|by apply Forall_take].
Qed.

Lemma rest_wf e name ino : dent_wf e → (length name < 256)%nat → Forall (λ b, is_byte b) name → 0 ≤ ino < 2 ^ 32 →
  has_room e name → dent_wf (rest_dent e name ino).
Proof.
  intros [_ _ _ Hl Hb] Hn Hnb Hi Hr. apply Forall_app in Hb as [_ Hb2]. destruct (cut_rest_len e name ino Hr) as [_ Hlen].
  split; try done.
  - rewrite Hlen. lia.
  - apply Forall_app. split; [done|by apply Forall_drop].
Qed.

Lemma append_entry_ok pre e name ino : dent_wf e → (length name < 256)%nat → has_room e name →
  append_entry (pre ++ dent_bytes e) (Z.of_nat (length pre)) (Z.of_nat (dent_len e))
    (Z.of_nat (length (dn_name e))) name ino
  = Ret (Ok (pre ++ dent_bytes (cut_dent e) ++ dent_bytes (rest_dent e name ino))).
Proof.
  intros He Hn Hr. destruct (cut_rest_len e name ino Hr) as [Hcut Hrest]. pose proof (dw_name _ He). pose proof (dw_len _ He) as Hlen.
  pose proof (aligned_bounds (8 + length (dn_name e))) as Ha. pose proof (aligned_bounds (8 + length name)) as Hb.
  unfold has_room in Hr. unfold append_entry.
  replace (8 + Z.of_nat (length (dn_name e))) with (Z.of_nat (8 + length (dn_name e))) by lia.
  replace (8 + Z.of_nat (length name)) with (Z.of_nat (8 + length name)) by lia.
  rewrite !align4_aligned by lia. set (a := aligned (8 + length (dn_name e))) in *.
  unfold usub. rewrite checked_ok by lia. cbn [obind]. rewrite (proj2 (Z.ltb_ge _ _)) by lia.
  set (s := (a - (8 + length (dn_name e)))%nat) in *. set (sl := dn_slack e). set (s2 := drop s sl).
  assert (length sl = dent_len e - 8 - length (dn_name e))%nat as Hsl by (unfold dent_len; fold sl; lia).
  assert (length s2 = dent_len e - a)%nat as Hs2 by (unfold s2; rewrite length_drop; lia).
  assert (pre ++ dent_bytes e = concat [pre; le_bytes 4 (dn_inode e); le_bytes 2 (Z.of_nat (dent_len e));
    le_bytes 1 (Z.of_nat (length (dn_name e))); le_bytes 1 (dn_type e); dn_name e; take s sl; take 4 s2;
    take 2 (drop 4 s2); take 1 (drop 6 s2); take 1 (drop 7 s2); take (length name) (drop 8 s2);
    drop (8 + length name) s2]) as ->.
  { unfold dent_bytes, dent_fields. cbn [concat]. rewrite !app_nil_r. fold sl. do 6 f_equal.
    by rewrite <- (split_record s2 (length name)); unfold s2; rewrite take_drop. }
  rewrite (raw_write_concat _ 2 (le_bytes 2 (Z.of_nat (dent_len e)))) by pieces. cbn [obind list_insert insert].
  rewrite (raw_write_concat _ 7 (take 4 s2)) by pieces. cbn [obind list_insert insert].
  rewrite (raw_write_concat _ 8 (take 2 (drop 4 s2))) by pieces. cbn [obind list_insert insert].
  rewrite (raw_write_concat _ 9 (take 1 (drop 6 s2))) by pieces. cbn [obind list_insert insert].
  rewrite (raw_write_concat _ 10 (take 1 (drop 7 s2))) by pieces. cbn [obind list_insert insert].
  rewrite (raw_write_concat _ 11 (take (length name) (drop 8 s2))) by pieces. cbn [obind list_insert insert].
  do 2 f_equal. unfold dent_bytes, dent_fields. rewrite Hcut, Hrest. cbn [cut_dent rest_dent dn_inode dn_type dn_name dn_slack concat].
  fold a s sl. rewrite !app_nil_r, <- !app_assoc. do 7 f_equal. unfold s2. rewrite drop_drop.
  replace (Z.of_nat (dent_len e) - Z.of_nat a) with (Z.of_nat (dent_len e - a)) by lia. done.
Qed.
End Append.

(** ** Records at an offset *)

Lemma le_u16 x : 0 ≤ x < 65536 → le (le_bytes 2 x) = x.
Proof. intros Hx. by apply le_le_bytes. Qed.

Lemma le_u8 x : 0 ≤ x < 256 → le (le_bytes 1 x) = x.
Proof. intros Hx. by apply le_le_bytes. Qed.

Lemma raw_slice_app pre x off n : 0 ≤ off → 0 ≤ n → off + n ≤ Z.of_nat (length x) →
  raw_slice (pre ++ x) (Z.of_nat (length pre) + off) n = Ret (sub off n x).
Proof.
  intros Ho Hn Hl. unfold raw_slice. rewrite length_app, (proj2 (Z.leb_le _ _)) by lia. f_equal.
  rewrite sub_app_r by lia. f_equal. lia.
Qed.

Section Records.
Context (pre : list Z) (e : dent) (rest : list Z) (He : dent_wf e).

Lemma length_record : (dent_len e ≤ length (dent_bytes e ++ rest))%nat.
Proof. rewrite length_app, length_dent_bytes. lia. Qed.

Lemma record_len : raw_slice (pre ++ dent_bytes e ++ rest) (Z.of_nat (length pre) + 4) 2
  = Ret (le_bytes 2 (Z.of_nat (dent_len e))).
Proof.
  pose proof length_record as Hl. unfold dent_len in Hl. rewrite raw_slice_app by lia. f_equal; unfold dent_bytes;
  eapply (sub_concat _ _ _ 1 _ _ _ (dent_widths_ok e)); done.
Qed.

Lemma record_name_len : raw_slice (pre ++ dent_bytes e ++ rest) (Z.of_nat (length pre) + 6) 1
  = Ret (le_bytes 1 (Z.of_nat (length (dn_name e)))).
Proof.
  pose proof length_record as Hl. unfold dent_len in Hl. rewrite raw_slice_app by lia. f_equal; unfold dent_bytes;
  eapply (sub_concat _ _ _ 2 _ _ _ (dent_widths_ok e)); done.
Qed.

Lemma record_header : ∃ h, raw_slice (pre ++ dent_bytes e ++ rest) (Z.of_nat (length pre)) 8 = Ret h
  ∧ dir_header_of_bytes h
    = mkDirHeader (dn_inode e) (Z.of_nat (dent_len e)) (Z.of_nat (length (dn_name e))) (dn_type e).
Proof.
  pose proof length_record as Hl. unfold dent_len in Hl. exists (sub 0 8 (dent_bytes e ++ rest)). split.
  - rewrite <- (raw_slice_app pre) by lia. f_equal. lia.
  - rewrite <- (dir_header_roundtrip e rest He). unfold dir_header_of_bytes, field. by rewrite !sub_sub by lia.
Qed.

Lemma record_name : raw_slice (pre ++ dent_bytes e ++ rest) (Z.of_nat (length pre) + 8) (Z.of_nat (length (dn_name e)))
  = Ret (dn_name e).
Proof.
  pose proof length_record as Hl. unfold dent_len in Hl. rewrite raw_slice_app by lia. f_equal. apply dent_name_sub.
Qed.
End Records.

(** ** Adding an entry *)

Section Add.
Context `{HP : Profile}.

Lemma length_dir_bytes_le es : (8 * length es ≤ length (dir_bytes es))%nat.
Proof.
  induction es as [|e es IH]; [done|]. rewrite dir_bytes_cons, length_app, length_dent_bytes. cbn [length].
  unfold dent_len. lia.
Qed.

Lemma add_loop_ok bs es e name ino : Forall dent_wf es → dent_wf e → (length name < 256)%nat → has_room e name →
  Z.of_nat (length (dir_bytes (es ++ [e]))) = bs → bs < 65536 →
  ∀ todo don fuel, es = don ++ todo → (length todo < fuel)%nat →
  loop fuel (add_round bs (dir_bytes (es ++ [e])) name ino) (Z.of_nat (length (dir_bytes don)))
  = Ret (Ok (dir_bytes (es ++ [cut_dent e; rest_dent e name ino]))).
Proof.
  intros Hes He Hn Hr Hbs Hmax. induction todo as [|x todo IH]; intros don fuel Heq Hf.
  - rewrite app_nil_r in Heq. subst don. destruct fuel as [|fuel]; [lia|]. cbn [loop]. unfold add_round.
    rewrite dir_bytes_app, dir_bytes_cons. change (dir_bytes []) with (@nil Z).
    rewrite record_len, record_name_len by done. cbn [obind].
    pose proof (dw_len _ He). pose proof (dw_name _ He). rewrite le_u16, le_u8 by lia.
    rewrite dir_bytes_app, dir_bytes_cons, !length_app, length_dent_bytes in Hbs. cbn [length dir_bytes map concat] in Hbs.
    rewrite (proj2 (Z.eqb_eq _ _)) by lia. rewrite app_nil_r, append_entry_ok by done. cbn [obind].
    by rewrite dir_bytes_app, !dir_bytes_cons, app_nil_r.
  - destruct fuel as [|fuel]; [cbn in Hf; lia|]. cbn [loop].
    assert (dir_bytes (es ++ [e]) = dir_bytes don ++ dent_bytes x ++ dir_bytes (todo ++ [e])) as Hb.
    { rewrite Heq, <- app_assoc, dir_bytes_app. done. }
    assert (dent_wf x) as Hx by (rewrite Heq in Hes; apply Forall_app in Hes as [_ Hes]; by apply Forall_cons in Hes as [Hes _]).
    pose proof (record_len (dir_bytes don) x (dir_bytes (todo ++ [e]))) as Hrl.
    pose proof (record_name_len (dir_bytes don) x (dir_bytes (todo ++ [e]))) as Hnl. rewrite <- Hb in Hrl, Hnl.
    unfold add_round at 1. rewrite Hrl, Hnl. cbn [obind].
    pose proof (dw_len _ Hx). pose proof (dw_name _ Hx). rewrite le_u16, le_u8 by lia.
    rewrite Hb, !length_app, length_dent_bytes in Hbs. pose proof (length_dir_bytes_le (todo ++ [e])) as Hpos.
    rewrite length_app in Hpos. cbn [length] in Hpos.
    rewrite (proj2 (Z.eqb_neq _ bs)) by lia. rewrite (proj2 (Z.leb_gt bs _)) by lia.
    rewrite (proj2 (Z.eqb_neq _ 0)) by (unfold dent_len; lia). cbn [orb].
    replace (Z.of_nat (length (dir_bytes don)) + Z.of_nat (dent_len x)) with (Z.of_nat (length (dir_bytes (don ++ [x])))).
    + apply IH; [by rewrite <- app_assoc|cbn in Hf; lia].
    + rewrite dir_bytes_app, dir_bytes_cons, !length_app, length_dent_bytes. cbn [length dir_bytes map concat]. lia.
Qed.
End Add.

(** ** Directories on a volume *)

(** The inode number of the first live entry with the name. *)
Fixpoint dir_find (name : str) (es : list dent) : option Z :=
  match es with
  | [] => None
  | e :: es =>
      if negb (dn_inode e =? 0) && bool_decide (from_utf8 (dn_name e) = Some name) then Some (dn_inode e)
      else dir_find name es
  end.

Section Directory.
Context `{HP : Profile} {D : Type} `{HD : BlockDevice D} `{HS : !BlockDeviceSpec D} {cap : Z} `{HH : !HealthyDisk D cap}.
Context (v : Ext4Volume) (nb : Z) (Hgeo : geometry cap v nb).
Implicit Types (d : D) (g : image) (n : Ext4Node).

(** All live entries name valid inodes. *)
Definition live_valid g (es : list dent) : Prop := Forall (λ e, dn_inode e ≠ 0 → inode_valid v nb g (dn_inode e)) es.

Definition found g (i : Z) : Ext4Node := node_of v i (inode_at v g i).

Lemma lookup_loop_ok d g n name es : holds d g → en_volume n = v → Forall dent_wf es → live_valid g es →
  ∀ todo don fuel, es = don ++ todo → (length todo < fuel)%nat →
  loop fuel (lookup_round n d name (dir_bytes es) (Z.of_nat (length (dir_bytes es)))) (Z.of_nat (length (dir_bytes don)))
  = Ret (found g <$> dir_find name todo).
Proof.
  intros Hd Hv Hwf Hlive. induction todo as [|x todo IH]; intros don fuel Heq Hf.
  { rewrite app_nil_r in Heq. subst don. destruct fuel as [|fuel]; [lia|]. cbn [loop]. unfold lookup_round.
    by rewrite (proj2 (Z.ltb_ge _ _)) by lia. }
  destruct fuel as [|fuel]; [cbn in Hf; lia|]. cbn [loop dir_find].
  assert (dir_bytes es = dir_bytes don ++ dent_bytes x ++ dir_bytes todo) as Hb by (rewrite Heq, dir_bytes_app; done).
  assert (x ∈ es) as Hin by (rewrite Heq; apply elem_of_app; right; left).
  pose proof (proj1 (Forall_forall _ _) Hwf x Hin) as Hx. pose proof (proj1 (Forall_forall _ _) Hlive x Hin) as Hval. cbv beta in Hval.
  destruct (record_header (dir_bytes don) x (dir_bytes todo) Hx) as (h & Hh & Hdec). rewrite <- Hb in Hh.
  pose proof (record_name (dir_bytes don) x (dir_bytes todo)) as Hnm. rewrite <- Hb in Hnm.
  pose proof (f_equal (@length Z) Hb) as Hlen. rewrite !length_app, length_dent_bytes in Hlen. unfold dent_len in Hlen.
  assert (loop fuel (lookup_round n d name (dir_bytes es) (Z.of_nat (length (dir_bytes es))))
    (Z.of_nat (length (dir_bytes don)) + Z.of_nat (dent_len x)) = Ret (found g <$> dir_find name todo)) as Hnext.
  { replace (Z.of_nat (length (dir_bytes don)) + Z.of_nat (dent_len x)) with (Z.of_nat (length (dir_bytes (don ++ [x])))).
    - apply IH; [by rewrite <- app_assoc|cbn in Hf; lia].
    - rewrite dir_bytes_app, dir_bytes_cons, !length_app, length_dent_bytes. cbn [length dir_bytes map concat]. lia. }
  unfold lookup_round at 1. rewrite (proj2 (Z.ltb_lt _ _)) by lia. cbn [negb]. rewrite Hh. cbn [obind]. rewrite Hdec.
  cbn [rec_len de_inode name_len]. rewrite (proj2 (Z.eqb_neq _ 0)) by (unfold dent_len; lia).
  destruct (Z.eqb_spec (dn_inode x) 0) as [E|E]; cbn [negb andb]; [exact Hnext|].
  rewrite (proj2 (Z.ltb_ge _ _)) by lia. rewrite Hnm. cbn [obind].
  destruct (from_utf8 (dn_name x)) as [nm|]; [|exact Hnext]. case_decide as En.
  - subst nm. rewrite bool_decide_true by done. rewrite Hv.
    pose proof (read_inode_ok v nb Hgeo d g (dn_inode x) (λ i d', i = inode_at v g (dn_inode x) ∧ d' = d) Hd (Hval E) ltac:(done)) as Hr.
    unfold fwp in Hr. destruct (read_inode v (dn_inode x) d) as [[[i|?] d']|]; [|done|done]. by destruct Hr as [-> ->].
  - rewrite bool_decide_false by (by intros [=]). exact Hnext.
Qed.

Lemma ext4_lookup_ok d g n name exts ks es : holds d g → en_volume n = v → en_is_directory n = true →
  has_extents nb (en_inode n) exts → file_blocks v n exts ks → file_bytes v g ks = dir_bytes es →
  en_size n = Z.of_nat (length (dir_bytes es)) → Forall dent_wf es → live_valid g es →
  ext4_lookup n d name = Ret (found g <$> dir_find name es).
Proof.
  intros Hd Hv Hdir He Hb Hbytes Hsize Hwf Hlive. unfold ext4_lookup. rewrite Hdir. cbn [negb].
  rewrite (ext4_read_ok v nb Hgeo d g n exts ks) by (done || lia || (pose proof (bsz_bounds v nb Hgeo); lia)). cbn [obind].
  rewrite Z.sub_0_r, Z.min_id, Hbytes, sub_all by done.
  destruct (Z.eqb_spec (Z.of_nat (length (dir_bytes es))) 0) as [E|E].
  { pose proof (length_dir_bytes_le es). by destruct es; [|cbn in *; lia]. }
  replace (Z.to_nat (en_size n) - length (dir_bytes es))%nat with 0%nat by lia. cbn [replicate]. rewrite app_nil_r.
  apply (lookup_loop_ok d g n name es Hd Hv Hwf Hlive es []); [done|]. pose proof (length_dir_bytes_le es). lia.
Qed.

Lemma add_entry_ok d g n name ino exts k es e : holds d g → en_volume n = v → en_is_directory n = true →
  has_extents nb (en_inode n) exts → extent_lookup exts 0 = Some k → blk v g k = dir_bytes (es ++ [e]) →
  Forall dent_wf es → dent_wf e → (length (as_bytes name) < 256)%nat → Forall (λ b, is_byte b) (as_bytes name) →
  0 ≤ ino < 2 ^ 32 → has_room e (as_bytes name) →
  fwp (add_entry n name ino) d (λ _ d',
    holds d' (upd_block v g k (dir_bytes (es ++ [cut_dent e; rest_dent e (as_bytes name) ino])))).
Proof.
  intros Hd Hv Hdir He Hk Hblk Hwf Hwe Hn Hnb Hino Hr. pose proof (he_physical nb _ _ He _ _ Hk) as Hkr.
  pose proof (length_blk v nb Hgeo d g k Hd Hkr) as Hlen. rewrite Hblk in Hlen. pose proof (bsz_bounds v nb Hgeo).
  unfold add_entry. rewrite Hdir, Hv, (block_size_ok v nb Hgeo). cbn [negb]. apply fwp_bind, fwp_lift. wp_step.
  rewrite (logical_ok v nb Hgeo _ _ _ He), Hk. apply fwp_bind, fwp_lift. wp_step. cbn [fmap option_fmap option_map].
  rewrite (bsz_div v). apply fwp_bind. eapply fwp_mono; [by apply (read_sectors_ok v nb Hgeo d g k)|]. intros b d' [-> ->].
  rewrite Hblk. apply fwp_bind, fwp_lift.
  rewrite (add_loop_ok _ es e (as_bytes name) ino Hwf Hwe Hn Hr Hlen ltac:(lia) es []); [|done|].
  2: { pose proof (length_dir_bytes_le (es ++ [e])). rewrite length_app in *. lia. }
  wp_step. apply (write_sectors_ok v nb Hgeo); try done.
  - destruct (cut_rest_len e (as_bytes name) ino Hr) as [H1 H2]. unfold has_room in Hr.
    rewrite <- Hlen, !dir_bytes_app, !dir_bytes_cons, !length_app, !length_dent_bytes, H1, H2. cbn [length dir_bytes map concat]. lia.
  - apply dir_bytes_range, Forall_app. split; [done|]. pose proof (cut_wf e Hwe) as Hc.
    pose proof (rest_wf e (as_bytes name) ino Hwe Hn Hnb Hino Hr) as Hre.
    by repeat first [apply List.Forall_nil | apply List.Forall_cons].
Qed.
End Directory.

(** ** A filesystem with a root directory *)

Section Create.
Context `{HP : Profile} {D : Type} `{HD : BlockDevice D} `{HS : !BlockDeviceSpec D} {cap : Z} `{HH : !HealthyDisk D cap}.
Context (v : Ext4Volume) (nb : Z) (Hgeo : geometry cap v nb).
Implicit Types (d : D) (g : image) (n : Ext4Node).

Definition ib g : Z := bg_inode_bitmap_lo (bgd_at v g 0).
Definition bb g : Z := bg_block_bitmap_lo (bgd_at v g 0).
Definition itab g : Z := bg_inode_table_lo (bgd_at v g 0).
Definition ipg : Z := s_inodes_per_group (ev_super_block v).

(** The blocks of the inode table of group 0, which has [tl] of them. *)
Definition in_table g (tl k : Z) : Prop := itab g ≤ k < itab g + tl.

(** Metadata: the descriptors, the two bitmaps, the inode table and the block [rk]
    of the root directory, all different. *)
Record layout g (tl rk : Z) : Prop := {
  ly_ib : 0 ≤ ib g < nb;
  ly_bb : 0 ≤ bb g < nb;
  ly_rk : 0 ≤ rk < nb;
  ly_table : 0 ≤ itab g ∧ itab g + tl ≤ nb;
  ly_table_size : 0 < ipg ∧ ipg ≤ 2 * spb v * tl;
  ly_inodes : ipg ≤ s_inodes_count (ev_super_block v) < 2 ^ 32;
  ly_distinct : NoDup [1; ib g; bb g; rk];
  ly_table_apart k : in_table g tl k → k ∉ [1; ib g; bb g; rk];
}.

(** Blocks in use are marked, and clear bits stand for objects of the group. *)
Record marked g (tl rk : Z) : Prop := {
  mk_meta k : k ∈ [1; ib g; bb g; rk] ∨ in_table g tl k → 0 ≤ k < 4096 → bit_at (g (base v (bb g))) k = true;
  mk_blocks k : 0 ≤ k < 4096 → bit_at (g (base v (bb g))) k = false → k < nb;
  mk_inodes i : 0 ≤ i < 4096 → bit_at (g (base v (ib g))) i = false → i < ipg;
}.

(** An inode of group 0 that is in use. *)
Definition used_inode g (i : Z) : Prop := 1 ≤ i ≤ ipg ∧ (i ≤ 4096 → bit_at (g (base v (ib g))) (i - 1) = true).

(** The root directory: one block, in memory as [n]. *)
Record root_dir g n (rk : Z) (exts : list Ext4Extent) (es : list dent) : Prop := {
  rd_volume : en_volume n = v;
  rd_dir : en_is_directory n = true;
  rd_extents : has_extents nb (en_inode n) exts;
  rd_first : extent_lookup exts 0 = Some rk;
  rd_size : en_size n = bsz v;
  rd_bytes : blk v g rk = dir_bytes es;
  rd_wf : Forall dent_wf es;
  rd_used : Forall (λ e, dn_inode e ≠ 0 → used_inode g (dn_inode e)) es;
}.

(** The place of an inode of group 0, as a block of the table and a sector in it. *)
Lemma inode_place g tl rk i : layout g tl rk → 1 ≤ i ≤ ipg →
  inode_valid v nb g i ∧ ∃ tb r, in_table g tl tb ∧ 0 ≤ r < spb v ∧ inode_sector v g i = base v tb + r.
Proof.
  intros Hly Hi. destruct Hly as [_ _ _ [Ht0 Ht] [Hp Hsz] [Hcnt Hc32] _ _]. pose proof (spb_bounds v nb Hgeo) as Hspb.
  assert (inode_group v i = 0) as Hg by (unfold inode_group; fold ipg; apply Z.div_small; lia).
  assert (inode_index v i = i - 1) as Hx by (unfold inode_index; fold ipg; apply Z.mod_small; lia).
  assert (inode_table v g i = itab g) as Htab by (unfold inode_table; by rewrite Hg).
  assert (0 ≤ (i - 1) / 2 < spb v * tl) as Hq by zlia. split.
  - split; rewrite ?Htab, ?Hx; try done; try (fold ipg; lia). nia.
  - exists (itab g + (i - 1) / 2 / spb v), ((i - 1) / 2 mod spb v).
    pose proof (Z.div_mod ((i - 1) / 2) (spb v) ltac:(lia)) as Hdm. pose proof (Z.mod_pos_bound ((i - 1) / 2) (spb v) ltac:(lia)).
    pose proof (Z.div_pos ((i - 1) / 2) (spb v) ltac:(lia) ltac:(lia)).
    pose proof (Z.div_lt_upper_bound ((i - 1) / 2) (spb v) tl ltac:(lia) ltac:(lia)). unfold in_table.
    split_and!; try lia. unfold inode_sector. rewrite Htab, Hx. unfold base. lia.
Qed.

(** Only the sector of the descriptors matters for the layout. *)
Lemma same_bgd g g' : g' (base v 1) = g (base v 1) → ∀ gr, bgd_at v g' gr = bgd_at v g gr.
Proof. intros Hg gr. unfold bgd_at. by rewrite Hg. Qed.

Lemma layout_bgd g g' tl rk : g' (base v 1) = g (base v 1) → layout g tl rk → layout g' tl rk.
Proof.
  intros Hg. pose proof (same_bgd g g' Hg 0) as Hb. intros []. unfold in_table, ib, bb, itab in *.
  split; unfold in_table, ib, bb, itab; rewrite ?Hb; done.
Qed.

Lemma upd_other_block g k b k' i : 0 ≤ i < spb v → k ≠ k' → upd g (base v k) b (base v k' + i) = g (base v k' + i).
Proof.
  intros Hi Hne. unfold upd. rewrite decide_False; [done|]. pose proof (spb_bounds v nb Hgeo).
  rewrite <- (Z.add_0_r (base v k)). apply not_eq_sym. apply (base_disjoint v nb Hgeo); lia.
Qed.

(** ** Steps that only mark bits *)

Definition agree_block g g' (k : Z) : Prop := ∀ i, 0 ≤ i < spb v → g' (base v k + i) = g (base v k + i).

Lemma agree_first g g' k : agree_block g g' k → g' (base v k) = g (base v k).
Proof. intros Ha. pose proof (spb_bounds v nb Hgeo). specialize (Ha 0 ltac:(lia)). by rewrite Z.add_0_r in Ha. Qed.

Lemma agree_blk g g' k : agree_block g g' k → blk v g' k = blk v g k.
Proof. intros Ha. by apply blk_ext. Qed.

Lemma agree_block_trans g g' g'' k : agree_block g g' k → agree_block g' g'' k → agree_block g g'' k.
Proof. intros H1 H2 i Hi. by rewrite H2, H1. Qed.

(** The bitmaps only gain bits, the descriptors stay. *)
Record grows g g' : Prop := {
  gr_bgd : agree_block g g' 1;
  gr_inodes i : 0 ≤ i < 4096 → bit_at (g (base v (ib g))) i = true → bit_at (g' (base v (ib g))) i = true;
  gr_blocks i : 0 ≤ i < 4096 → bit_at (g (base v (bb g))) i = true → bit_at (g' (base v (bb g))) i = true;
}.

Lemma grows_same g g' : grows g g' → ib g' = ib g ∧ bb g' = bb g ∧ itab g' = itab g.
Proof. intros [Hb _ _]. unfold ib, bb, itab. by rewrite (same_bgd g g' (agree_first _ _ _ Hb)). Qed.

Lemma grows_trans g g' g'' : grows g g' → grows g' g'' → grows g g''.
Proof.
  intros H1 H2. destruct (grows_same _ _ H1) as (Hi & Hb & _). destruct H1 as [Ha1 Hi1 Hb1], H2 as [Ha2 Hi2 Hb2].
  rewrite Hi in Hi2. rewrite Hb in Hb2. split; [by eapply agree_block_trans|auto|auto].
Qed.

Lemma grows_layout g g' tl rk : grows g g' → layout g tl rk → layout g' tl rk.
Proof. intros [Hb _ _]. apply layout_bgd. by apply agree_first. Qed.

Lemma not_true_clear b b' : (b = true → b' = true) → b' = false → b = false.
Proof. destruct b, b'; naive_solver. Qed.

Lemma grows_marked g g' tl rk : grows g g' → marked g tl rk → marked g' tl rk.
Proof.
  intros Hgr [Hm Hk Hi]. destruct (grows_same _ _ Hgr) as (Ei & Eb & Et). destruct Hgr as [_ Hgi Hgb].
  split; unfold in_table; rewrite ?Ei, ?Eb, ?Et.
  - intros k Hmeta Hr. apply Hgb; [done|]. by apply Hm.
  - intros k Hr Hc. apply Hk; [done|]. eapply not_true_clear; [|exact Hc]. by apply Hgb.
  - intros i Hr Hc. apply Hi; [done|]. eapply not_true_clear; [|exact Hc]. by apply Hgi.
Qed.

Lemma grows_used g g' i : grows g g' → used_inode g i → used_inode g' i.
Proof.
  intros Hgr [Hr Hu]. destruct (grows_same _ _ Hgr) as (Ei & _). destruct Hgr as [_ Hgi _]. split; [done|].
  intros Hle. rewrite Ei. apply Hgi; [lia|]. by apply Hu.
Qed.

Lemma grows_root g g' n rk exts es : grows g g' → agree_block g g' rk → root_dir g n rk exts es → root_dir g' n rk exts es.
Proof.
  intros Hgr Ha []. split; try done.
  - by rewrite (agree_blk _ _ _ Ha).
  - eapply Forall_impl; [exact rd_used0|]. intros e He Hnz. eapply grows_used; eauto.
Qed.

(** Setting a bit of the first sector of a block. *)
Lemma set_bit_agree g B i k : k ≠ B → agree_block g (upd g (base v B) (set_bit_at (g (base v B)) i)) k.
Proof. intros Hne j Hj. apply upd_other_block; [done|congruence]. Qed.

Lemma set_bit_bits d g B i j : holds d g → 0 ≤ B < nb → 0 ≤ i < 4096 → 0 ≤ j →
  bit_at (upd g (base v B) (set_bit_at (g (base v B)) i) (base v B)) j = (j =? i) || bit_at (g (base v B)) j.
Proof.
  intros Hd HB Hi Hj. unfold upd. rewrite decide_True by done. pose proof (spb_bounds v nb Hgeo).
  destruct (sector_ok v nb Hgeo d g B 0 Hd HB ltac:(lia)) as [Hl _]. rewrite Z.add_0_r in Hl.
  apply bit_at_set; [rewrite Hl; lia|done].
Qed.

(** ** The steps of creating a file *)

Definition has_clear (l : list Z) : Prop := ∃ i, 0 ≤ i < 4096 ∧ bit_at l i = false.

Lemma has_clear_not_full d g B : holds d g → 0 ≤ B < nb → has_clear (g (base v B)) → ¬ full (g (base v B)).
Proof.
  intros Hd HB (i & Hi & Hc) Hf. pose proof (spb_bounds v nb Hgeo).
  destruct (sector_ok v nb Hgeo d g B 0 Hd HB ltac:(lia)) as [Hl _]. rewrite Z.add_0_r in Hl.
  rewrite Hf in Hc; [done|]. rewrite Hl. lia.
Qed.

(** A bit was taken from the bitmap in block [B]. *)
Record bit_taken g g' (B i : Z) : Prop := {
  bt_range : 0 ≤ i < 4096;
  bt_clear : bit_at (g (base v B)) i = false;
  bt_bits j : 0 ≤ j → bit_at (g' (base v B)) j = (j =? i) || bit_at (g (base v B)) j;
  bt_agree k : k ≠ B → agree_block g g' k;
}.

Lemma bit_taken_intro d g B i : holds d g → 0 ≤ B < nb → lowest_clear (g (base v B)) i →
  bit_taken g (upd g (base v B) (set_bit_at (g (base v B)) i)) B i.
Proof.
  intros Hd HB Hl. pose proof (lowest_clear_range v nb Hgeo d g B i Hd HB Hl) as Hi. split; [done|apply Hl| |].
  - intros j Hj. by apply (set_bit_bits d).
  - intros k Hk. by apply set_bit_agree.
Qed.

Lemma layout_ne g tl rk : layout g tl rk → ib g ≠ 1 ∧ bb g ≠ 1 ∧ ib g ≠ bb g ∧ rk ≠ 1 ∧ rk ≠ ib g ∧ rk ≠ bb g.
Proof.
  intros Hly. pose proof (ly_distinct _ _ _ Hly) as Hnd. rewrite !NoDup_cons, !not_elem_of_cons in Hnd.
  destruct Hnd as ((? & ? & ? & _) & (? & ? & _) & (? & _) & _). split_and!; congruence.
Qed.

Lemma bit_taken_grows g g' tl rk B i : layout g tl rk → bit_taken g g' B i → B = ib g ∨ B = bb g → grows g g'.
Proof.
  intros Hly [Hr Hc Hb Ha] HB. destruct (layout_ne _ _ _ Hly) as (H1 & H2 & H3 & _).
  assert (∀ B' j, 0 ≤ j → bit_at (g (base v B')) j = true → bit_at (g' (base v B')) j = true) as Hmono.
  { intros B' j Hj Ht. destruct (decide (B' = B)) as [->|]; [rewrite Hb by done; by rewrite Ht, orb_true_r|].
    by rewrite (agree_first _ _ _ (Ha B' ltac:(done))). }
  split; [apply Ha; destruct HB; congruence|intros; apply Hmono; done || lia|intros; apply Hmono; done || lia].
Qed.

Lemma alloc_inode_step d g tl rk : holds d g → layout g tl rk → has_clear (g (base v (ib g))) →
  fwp (allocate_inode v) d (λ ino d', ∃ g', holds d' g' ∧ bit_taken g g' (ib g) (ino - 1)).
Proof.
  intros Hd Hly Hc. pose proof (ly_ib _ _ _ Hly) as HB.
  eapply wp_mono; [by apply (allocate_inode_ok v nb Hgeo d g Hd)|]. intros [[x|x] d'].
  - intros (i & -> & Hl & Hd'). eexists. split; [exact Hd'|]. replace (i + 1 - 1) with i by lia.
    by apply (bit_taken_intro d).
  - intros (_ & _ & Hf). by apply (has_clear_not_full d g (ib g)).
Qed.

Lemma alloc_block_step d g tl rk : holds d g → layout g tl rk → has_clear (g (base v (bb g))) →
  fwp (allocate_block v) d (λ k d', ∃ g', holds d' g' ∧ bit_taken g g' (bb g) k).
Proof.
  intros Hd Hly Hc. pose proof (ly_bb _ _ _ Hly) as HB.
  eapply wp_mono; [by apply (allocate_block_ok v nb Hgeo d g Hd)|]. intros [[x|x] d'].
  - intros (i & -> & Hl & Hd'). eexists. split; [exact Hd'|]. by apply (bit_taken_intro d).
  - intros (_ & _ & Hf). by apply (has_clear_not_full d g (bb g)).
Qed.

(** A block with a clear bit is no metadata. *)
Definition data_block g (tl rk k : Z) : Prop := 0 ≤ k < nb ∧ (k ∉ [1; ib g; bb g; rk]) ∧ ¬ in_table g tl k.

Lemma clear_data_block g tl rk k : marked g tl rk → 0 ≤ k < 4096 → bit_at (g (base v (bb g))) k = false →
  data_block g tl rk k.
Proof.
  intros [Hm Hk _] Hr Hc. split_and!; [lia|by apply Hk| |]; intros Hin; rewrite Hm in Hc; auto; done.
Qed.

(** A step that changes only the blocks in [S], and there only adds bits to the
    bitmaps. *)
Definition changes g g' (S : Z → Prop) : Prop := grows g g' ∧ ∀ k, ¬ S k → agree_block g g' k.

Lemma changes_trans g g' g'' S S' : changes g g' S → changes g' g'' S' → changes g g'' (λ k, S k ∨ S' k).
Proof.
  intros [H1 A1] [H2 A2]. split; [by eapply grows_trans|]. intros k Hk. eapply agree_block_trans; [apply A1|apply A2]; tauto.
Qed.

Lemma upd_block_changes g k b : (k ∉ [1; ib g; bb g]) → changes g (upd_block v g k b) (eq k).
Proof.
  intros Hn. rewrite !not_elem_of_cons in Hn. destruct Hn as (N1 & Ni & Nb & _).
  assert (∀ k', k ≠ k' → agree_block g (upd_block v g k b) k') as Ha.
  { intros k' Hne i Hi. unfold upd_block. rewrite decide_False; [done|]. unfold base. pose proof (spb_bounds v nb Hgeo). nia. }
  split; [|exact Ha]. split; [by apply Ha| |]; intros i Hi.
  - by rewrite (agree_first _ _ _ (Ha (ib g) ltac:(congruence))).
  - by rewrite (agree_first _ _ _ (Ha (bb g) ltac:(congruence))).
Qed.

Lemma write_data_step d g k data : holds d g → 0 ≤ k < nb → Z.of_nat (length data) ≤ bsz v → Forall (λ b, is_byte b) data →
  fwp (write_data_to_block v k data) d (λ _ d',
    holds d' (upd_block v g k (data ++ replicate (Z.to_nat (bsz v) - length data) 0))).
Proof.
  intros Hd Hk Hl Hb. pose proof (bsz_bounds v nb Hgeo). unfold write_data_to_block.
  rewrite (block_size_ok v nb Hgeo). apply fwp_bind, fwp_lift. wp_step. rewrite (proj2 (Z.ltb_ge _ _)) by lia.
  rewrite (block_sector_ok v nb Hgeo) by done. apply fwp_bind, fwp_lift. wp_step.
  assert (splice 0 data (replicate (Z.to_nat (bsz v)) 0) = data ++ replicate (Z.to_nat (bsz v) - length data) 0) as ->.
  { unfold splice. change (Z.to_nat 0) with 0%nat. cbn [take app Nat.add]. by rewrite drop_replicate. }
  apply (write_sectors_ok v nb Hgeo); try done.
  - rewrite length_app, length_replicate. lia.
  - apply Forall_app. split; [done|]. apply Forall_replicate. lia.
Qed.

(** The inode of a new file. *)
Lemma build_file_inode_wf size k : 0 ≤ size < 2 ^ 32 → 0 ≤ k < 2 ^ 32 → inode_wf (build_file_inode size k).
Proof.
  intros Hs Hk. split; cbn [build_file_inode i_mode i_uid i_size_lo i_atime i_ctime i_mtime i_dtime i_gid
    i_links_count i_blocks_lo i_flags i_osd1 i_block i_generation i_file_acl_lo i_size_hi i_obso_faddr]; try lia; [done|].
  apply Forall_splice; [|apply Forall_splice; [|apply Forall_replicate; lia]].
  all: apply Forall_concat; repeat (apply List.Forall_cons; [apply le_bytes_range|]); apply List.Forall_nil.
Qed.

Lemma build_file_inode_extents size k : 0 ≤ k < nb → has_extents nb (build_file_inode size k) [mkExtent 0 1 0 k].
Proof.
  intros Hk. pose proof (geo_blocks _ _ _ Hgeo). split; [done|done| | |].
  - change (Ret [mkExtent 0 1 0 (le (le_bytes 4 k))] = Ret [mkExtent 0 1 0 k]). rewrite le_le_bytes; [done|]. cbn; lia.
  - apply List.Forall_cons; [cbn; lia|apply List.Forall_nil].
  - intros l k' Hl. cbn [extent_lookup ee_block ee_len ee_start_hi ee_start_lo] in Hl.
    destruct (Z.leb_spec 0 l), (Z.ltb_spec l (0 + 1)); cbn [andb] in Hl; try done.
    assert (l = 0) as -> by lia. injection Hl as <-. by rewrite Z.add_0_r.
Qed.

(** Inodes of the table under changes. *)
Lemma inode_sector_grows g g' i : grows g g' → inode_sector v g' i = inode_sector v g i.
Proof. intros [Hb _ _]. unfold inode_sector, inode_table. by rewrite (same_bgd g g' (agree_first _ _ _ Hb)). Qed.

Lemma inode_at_agree g g' tl rk i : layout g tl rk → 1 ≤ i ≤ ipg → grows g g' →
  (∀ tb, in_table g tl tb → agree_block g g' tb) → inode_at v g' i = inode_at v g i.
Proof.
  intros Hly Hi Hgr Ha. destruct (inode_place g tl rk i Hly Hi) as (_ & tb & r & Htb & Hr & Hs).
  unfold inode_at. rewrite (inode_sector_grows _ _ _ Hgr), Hs. by rewrite (Ha tb Htb).
Qed.

Lemma put_inode_changes g tl rk ino i : layout g tl rk → 1 ≤ ino ≤ ipg →
  changes g (put_inode v g ino i) (in_table g tl).
Proof.
  intros Hly Hi. destruct (inode_place g tl rk ino Hly Hi) as (_ & tb & r & Htb & Hr & Hs).
  assert (∀ k, ¬ in_table g tl k → agree_block g (put_inode v g ino i) k) as Ha.
  { intros k Hk j Hj. unfold put_inode, upd. rewrite decide_False; [done|]. rewrite Hs.
    apply (base_disjoint v nb Hgeo); [done|done|]. by intros ->. }
  assert (∀ k, k ∈ [1; ib g; bb g; rk] → agree_block g (put_inode v g ino i) k) as Hm.
  { intros k Hk. apply Ha. intros Hin. by apply (ly_table_apart _ _ _ Hly k Hin). }
  split; [|done]. split.
  - apply Hm. left.
  - intros j Hj. by rewrite (agree_first _ _ _ (Hm (ib g) ltac:(right; left))).
  - intros j Hj. by rewrite (agree_first _ _ _ (Hm (bb g) ltac:(right; right; left))).
Qed.

Lemma put_inode_at d g tl rk ino i j : holds d g → layout g tl rk → 1 ≤ ino ≤ ipg → 1 ≤ j ≤ ipg → inode_wf i →
  inode_at v (put_inode v g ino i) j = if decide (j = ino) then i else inode_at v g j.
Proof.
  intros Hd Hly Hi Hj Hwf. destruct (put_inode_changes g tl rk ino i Hly Hi) as [Hgr _].
  destruct (inode_place g tl rk ino Hly Hi) as (Hv & _). pose proof (inode_sector_range v nb Hgeo g ino Hv) as Hr.
  destruct (holds_sector _ _ _ Hd Hr) as [Hl _]. pose proof (length_inode_to_bytes i Hwf) as Hli.
  unfold inode_at at 1. rewrite (inode_sector_grows _ _ _ Hgr). unfold put_inode, upd.
  pose proof (inode_off_range v ino) as Hoi. pose proof (inode_off_range v j) as Hoj.
  destruct (decide (j = ino)) as [->|Hne].
  - rewrite decide_True by done. unfold INODE_STRUCT_SIZE. rewrite sub_splice_same by lia.
    rewrite <- (app_nil_r (inode_to_bytes i)). by apply inode_roundtrip.
  - unfold inode_at. case_decide as Es; [|done]. rewrite Es. f_equal.
    assert (inode_off v j ≠ inode_off v ino) as Hoff.
    { unfold inode_sector, inode_off, inode_table, inode_group, inode_index in *. fold ipg in *.
      rewrite !(Z.div_small (_ - 1) ipg), !(Z.mod_small (_ - 1) ipg) in * by lia. zlia. }
    assert (inode_off v j = 0 ∨ inode_off v j = 256) as Hz by (unfold inode_off; zlia).
    assert (inode_off v ino = 0 ∨ inode_off v ino = 256) as Hz' by (unfold inode_off; zlia).
    unfold INODE_STRUCT_SIZE. rewrite sub_splice_other by lia. done.
Qed.

(** ** Filesystems the driver can work on *)

Record fs_ok g n (tl rk : Z) (exts : list Ext4Extent) (es : list dent) : Prop := {
  fo_layout : layout g tl rk;
  fo_marked : marked g tl rk;
  fo_root : root_dir g n rk exts es;
}.

Lemma fs_ok_changes g g' n tl rk exts es S : changes g g' S → ¬ S rk → fs_ok g n tl rk exts es → fs_ok g' n tl rk exts es.
Proof.
  intros [Hgr Ha] Hs []. split; [by eapply grows_layout|by eapply grows_marked|]. by eapply grows_root; [|apply Ha|].
Qed.

(** What files are made of: inodes in use, and blocks that are in use and no
    metadata. *)
Definition file_block g (tl rk k : Z) : Prop :=
  (k ∉ [ib g; bb g; rk]) ∧ ¬ in_table g tl k ∧ (0 ≤ k < 4096 → bit_at (g (base v (bb g))) k = true).

Record kept g g' (tl rk : Z) : Prop := {
  kp_inodes i : used_inode g i → inode_at v g' i = inode_at v g i;
  kp_blocks k : file_block g tl rk k → blk v g' k = blk v g k;
}.

(** The root directory is read as its records. *)
Lemma root_lookup d g n tl rk exts es name : holds d g → fs_ok g n tl rk exts es →
  ext4_lookup n d name = Ret (found v g <$> dir_find name es).
Proof.
  intros Hd [Hly _ [Hv Hdir He Hk Hs Hb Hwf Hu]]. pose proof (ly_rk _ _ _ Hly) as Hrk.
  pose proof (length_blk v nb Hgeo d g rk Hd Hrk) as Hl. pose proof (bsz_bounds v nb Hgeo).
  apply (ext4_lookup_ok v nb Hgeo d g n name exts [rk] es); try done.
  - split_and!; [|left; cbn [length]; lia|cbn; lia]. intros [|l] k Hlk; cbn in Hlk; [by injection Hlk as <-|done].
  - unfold file_bytes. cbn [map concat]. by rewrite app_nil_r.
  - rewrite <- Hb, Hl. done.
  - eapply Forall_impl; [exact Hu|]. intros x Hx Hnz. apply (inode_place g tl rk); [done|]. by apply Hx.
Qed.

Lemma dir_find_used g name es i : Forall (λ e, dn_inode e ≠ 0 → used_inode g (dn_inode e)) es →
  dir_find name es = Some i → used_inode g i.
Proof.
  induction 1 as [|e es He _ IH]; cbn [dir_find]; [done|].
  destruct (Z.eqb_spec (dn_inode e) 0); cbn [negb andb]; [done|]. case_bool_decide; [intros [= <-]; by apply He|done].
Qed.

Lemma dir_find_app name es es' : dir_find name (es ++ es')
  = match dir_find name es with Some i => Some i | None => dir_find name es' end.
Proof. induction es as [|e es IH]; cbn; [done|]. by destruct (_ && _). Qed.

(** Cutting the padding of the last record and adding one after it. *)
Lemma dir_find_added name es e new ino nm : dir_find new (es ++ [e]) = None → ino ≠ 0 → nm = as_bytes new →
  from_utf8 nm = Some new →
  dir_find name (es ++ [cut_dent e; rest_dent e nm ino])
  = if decide (name = new) then Some ino else dir_find name (es ++ [e]).
Proof.
  intros Hn Hi -> Hu. rewrite dir_find_app in Hn |- *. rewrite (dir_find_app name es [e]).
  cbn [dir_find cut_dent rest_dent dn_inode dn_name] in *.
  rewrite (proj2 (Z.eqb_neq ino 0)) by done. cbn [negb andb]. rewrite Hu. destruct (decide (name = new)) as [->|E].
  - rewrite (bool_decide_true (Some new = Some new)) by done.
    destruct (dir_find new es); [done|]. by destruct (_ && _).
  - rewrite (bool_decide_false (Some new = Some name)) by congruence. done.
Qed.

(** Steps that keep all files. *)
Definition evolves g g' (tl rk : Z) : Prop := grows g g' ∧ kept g g' tl rk.

Lemma file_block_grows g g' tl rk k : grows g g' → file_block g tl rk k → file_block g' tl rk k.
Proof.
  intros Hgr (Hn & Ht & Hb). destruct (grows_same _ _ Hgr) as (Ei & Eb & Et). destruct Hgr as [_ _ Hg].
  unfold file_block, in_table. rewrite Ei, Eb, Et. split_and!; [done|done|]. auto.
Qed.

Lemma evolves_trans g g' g'' tl rk : evolves g g' tl rk → evolves g' g'' tl rk → evolves g g'' tl rk.
Proof.
  intros [G1 [I1 B1]] [G2 [I2 B2]]. split; [by eapply grows_trans|]. split.
  - intros i Hi. rewrite I2 by (by eapply grows_used). by apply I1.
  - intros k Hk. rewrite B2 by (by eapply file_block_grows). by apply B1.
Qed.

Lemma changes_evolves g g' n tl rk exts es S : fs_ok g n tl rk exts es → changes g g' S →
  (∀ k, in_table g tl k ∨ file_block g tl rk k → ¬ S k) → evolves g g' tl rk.
Proof.
  intros Hfs [Hgr Ha] Hs. split; [done|]. split.
  - intros i [Hi _]. eapply inode_at_agree; [apply Hfs|done|done|]. intros tb Htb. apply Ha, Hs. by left.
  - intros k Hk. apply agree_blk, Ha, Hs. by right.
Qed.

Lemma fs_ok_ne g n tl rk exts es : fs_ok g n tl rk exts es → rk ≠ ib g ∧ rk ≠ bb g ∧
  ∀ k, in_table g tl k ∨ file_block g tl rk k → k ≠ ib g ∧ k ≠ bb g ∧ k ≠ rk.
Proof.
  intros Hfs. destruct (layout_ne _ _ _ (fo_layout _ _ _ _ _ _ Hfs)) as (_ & _ & _ & _ & H1 & H2). split_and!; [done..|].
  intros k [Hk|(Hk & _)].
  - pose proof (ly_table_apart _ _ _ (fo_layout _ _ _ _ _ _ Hfs) k Hk) as Hn. rewrite !not_elem_of_cons in Hn. tauto.
  - rewrite !not_elem_of_cons in Hk. tauto.
Qed.

Definition others_clear g g' (B x : Z) : Prop :=
  ∀ i, 0 ≤ i < 4096 → i ≠ x → bit_at (g (base v B)) i = false → bit_at (g' (base v B)) i = false.

(** An inode is taken. *)
Lemma inode_step d g n tl rk exts es : holds d g → fs_ok g n tl rk exts es → has_clear (g (base v (ib g))) →
  fwp (allocate_inode v) d (λ ino d', ∃ g', holds d' g' ∧ changes g g' (eq (ib g)) ∧ fs_ok g' n tl rk exts es
    ∧ 1 ≤ ino ≤ ipg ∧ ¬ used_inode g ino ∧ used_inode g' ino ∧ others_clear g g' (ib g) (ino - 1)).
Proof.
  intros Hd Hfs Hc. pose proof (fs_ok_ne _ _ _ _ _ _ Hfs) as (Hrk & _).
  eapply fwp_mono; [by apply (alloc_inode_step d g tl rk); [|apply Hfs|]|]. intros ino d' (g' & Hd' & Hbt).
  pose proof (bit_taken_grows g g' tl rk _ _ (fo_layout _ _ _ _ _ _ Hfs) Hbt ltac:(by left)) as Hgr.
  destruct Hbt as [Hr Hcl Hbits Ha]. pose proof (mk_inodes _ _ _ (fo_marked _ _ _ _ _ _ Hfs) _ Hr Hcl) as Hi.
  assert (changes g g' (eq (ib g))) as Hch by (split; [done|]; intros k Hk; apply Ha; congruence).
  exists g'. split_and!; try done; try lia; [by eapply fs_ok_changes| | |].
  - intros [_ Hu]. rewrite Hu in Hcl by lia. done.
  - split; [lia|]. intros _. destruct (grows_same _ _ Hgr) as (-> & _). rewrite Hbits by lia. by rewrite Z.eqb_refl.
  - intros i Hir Hne Hic. rewrite Hbits by lia. rewrite Hic, (proj2 (Z.eqb_neq _ _)) by done. done.
Qed.

(** A block is taken and written. *)
Lemma block_step d g n tl rk exts es data : holds d g → fs_ok g n tl rk exts es → has_clear (g (base v (bb g))) →
  Z.of_nat (length data) ≤ bsz v → Forall (λ b, is_byte b) data →
  fwp (allocate_block v) d (λ k d1, fwp (write_data_to_block v k data) d1 (λ _ d2, ∃ g',
    holds d2 g' ∧ changes g g' (λ x, bb g = x ∨ k = x) ∧ fs_ok g' n tl rk exts es ∧ data_block g tl rk k
    ∧ ¬ file_block g tl rk k ∧ blk v g' k = data ++ replicate (Z.to_nat (bsz v) - length data) 0
    ∧ others_clear g g' (bb g) k)).
Proof.
  intros Hd Hfs Hc Hlen Hbytes. pose proof (fs_ok_ne _ _ _ _ _ _ Hfs) as (_ & Hrk & _).
  eapply fwp_mono; [by apply (alloc_block_step d g tl rk); [|apply Hfs|]|]. intros k d1 (g1 & Hd1 & Hbt).
  pose proof (bit_taken_grows g g1 tl rk _ _ (fo_layout _ _ _ _ _ _ Hfs) Hbt ltac:(by right)) as Hgr.
  destruct Hbt as [Hr Hcl Hbits Ha]. pose proof (clear_data_block g tl rk k (fo_marked _ _ _ _ _ _ Hfs) Hr Hcl) as Hdb.
  assert (changes g g1 (eq (bb g))) as Hch1 by (split; [done|]; intros x Hx; apply Ha; congruence).
  pose proof Hdb as (Hk & Hn & Ht). pose proof Hn as Hn'. rewrite !not_elem_of_cons in Hn'. destruct Hn' as (N1 & Ni & Nb & Nr & _).
  eapply fwp_mono; [by apply (write_data_step d1 g1 k data)|]. intros u d2 Hd2. cbv beta in Hd2. clear u.
  destruct (grows_same _ _ Hgr) as (Ei & Eb & _). remember (data ++ _) as b eqn:Eqb in Hd2 |- *.
  assert (changes g1 (upd_block v g1 k b) (eq k)) as Hch2.
  { apply upd_block_changes. rewrite Ei, Eb, !not_elem_of_cons. split_and!; try done. apply not_elem_of_nil. }
  eexists. split; [exact Hd2|]. split; [exact (changes_trans _ _ _ _ _ Hch1 Hch2)|].
  split_and!; try done.
  - eapply fs_ok_changes; [exact Hch2|congruence|]. eapply fs_ok_changes; [exact Hch1|congruence|done].
  - intros (_ & _ & Hb). rewrite Hb in Hcl; [done|lia].
  - apply (blk_upd_block v nb Hgeo). rewrite Eqb, length_app, length_replicate. lia.
  - intros i Hi Hne Hic. rewrite (agree_first _ _ _ (proj2 Hch2 (bb g) ltac:(congruence))).
    rewrite Hbits by lia. rewrite Hic, (proj2 (Z.eqb_neq _ _)) by done. done.
Qed.

(** An inode is written. *)
Lemma put_step d g n tl rk exts es ino i : holds d g → fs_ok g n tl rk exts es → 1 ≤ ino ≤ ipg → inode_wf i →
  fwp (write_inode v ino i) d (λ _ d', ∃ g', holds d' g' ∧ changes g g' (in_table g tl) ∧ fs_ok g' n tl rk exts es
    ∧ ∀ j, 1 ≤ j ≤ ipg → inode_at v g' j = if decide (j = ino) then i else inode_at v g j).
Proof.
  intros Hd Hfs Hi Hwf. pose proof (fo_layout _ _ _ _ _ _ Hfs) as Hly.
  eapply fwp_mono; [apply (write_inode_ok v nb Hgeo d g); [done|by apply (inode_place g tl rk)|done]|].
  intros u d' Hd'. pose proof (put_inode_changes g tl rk ino i Hly Hi) as Hch. eexists. split_and!; [exact Hd'|exact Hch| |].
  - eapply fs_ok_changes; [exact Hch| |done]. intros Hin. apply (ly_table_apart _ _ _ Hly rk Hin). rewrite !elem_of_cons. tauto.
  - intros j Hj. by apply (put_inode_at d g tl rk).
Qed.

(** A name is linked. *)
Lemma link_step d g n tl rk exts es e name ino : holds d g → fs_ok g n tl rk exts (es ++ [e]) → used_inode g ino →
  has_room e (as_bytes name) → (length (as_bytes name) < 256)%nat → Forall (λ b, is_byte b) (as_bytes name) →
  fwp (add_entry n name ino) d (λ _ d', ∃ g', holds d' g' ∧ changes g g' (eq rk)
    ∧ fs_ok g' n tl rk exts (es ++ [cut_dent e; rest_dent e (as_bytes name) ino])).
Proof.
  intros Hd Hfs Hu Hr Hl Hb. destruct Hfs as [Hly Hmk [Hv Hdir He Hk Hs Hblk Hwf Hus]].
  apply Forall_app in Hwf as [Hwf Hwe]. apply Forall_inv in Hwe. apply Forall_app in Hus as [Hus Hue]. apply Forall_inv in Hue.
  pose proof (ly_inodes _ _ _ Hly) as Hcnt. destruct (layout_ne _ _ _ Hly) as (_ & _ & _ & R1 & Ri & Rb).
  assert (0 ≤ ino < 2 ^ 32) as Hino by (destruct Hu; lia).
  eapply fwp_mono; [by apply (add_entry_ok v nb Hgeo d g n name ino exts rk es e)|]. intros u d' Hd'. cbv beta in Hd'.
  remember (es ++ [cut_dent e; _]) as es' eqn:Ees in Hd' |- *.
  assert (changes g (upd_block v g rk (dir_bytes es')) (eq rk)) as Hch.
  { apply upd_block_changes. rewrite !not_elem_of_cons. split_and!; try done. apply not_elem_of_nil. }
  pose proof (proj1 Hch) as Hgr. eexists. split_and!; [exact Hd'|done|].
  split; [by eapply grows_layout|by eapply grows_marked|]. split; try done.
  - apply (blk_upd_block v nb Hgeo). rewrite <- (length_blk v nb Hgeo d g rk Hd (ly_rk _ _ _ Hly)), Hblk, Ees.
    destruct (cut_rest_len e (as_bytes name) ino Hr) as [H1 H2]. unfold has_room in Hr.
    rewrite !dir_bytes_app, !dir_bytes_cons, !length_app, !length_dent_bytes, H1, H2. cbn [length dir_bytes map concat]. lia.
  - rewrite Ees. apply Forall_app. split; [done|]. apply List.Forall_cons; [by apply cut_wf|].
    apply List.Forall_cons; [by apply rest_wf|apply List.Forall_nil].
  - rewrite Ees. apply Forall_app. split; [|apply List.Forall_cons; [|apply List.Forall_cons; [|apply List.Forall_nil]]].
    + eapply Forall_impl; [exact Hus|]. intros x Hx Hnz. eapply grows_used; [rewrite <- Ees; exact Hgr|]. by apply Hx.
    + intros Hnz. eapply grows_used; [rewrite <- Ees; exact Hgr|]. by apply Hue.
    + intros _. eapply grows_used; [rewrite <- Ees; exact Hgr|done].
Qed.

(** Reading a file of one block. *)
Lemma new_file_read d g ino k data : holds d g → 0 ≤ k < nb → Z.of_nat (length data) ≤ bsz v →
  blk v g k = data ++ replicate (Z.to_nat (bsz v) - length data) 0 →
  ext4_read (node_of v ino (build_file_inode (Z.of_nat (length data)) k)) d 0 (Z.of_nat (length data)) = Ret data.
Proof.
  intros Hd Hk Hl Hb. pose proof (bsz_bounds v nb Hgeo). set (n := node_of _ _ _).
  assert (en_size n = Z.of_nat (length data)) as Hs.
  { cbn [n node_of en_size]. unfold inode_size. cbn [build_file_inode i_size_lo i_size_hi]. apply Z.lor_0_l. }
  rewrite (ext4_read_ok v nb Hgeo d g n [mkExtent 0 1 0 k] [k]); try done.
  - rewrite Hs, Z.sub_0_r, Z.min_id. unfold file_bytes. cbn [map concat]. by rewrite app_nil_r, Hb, sub_app_l.
  - by apply build_file_inode_extents.
  - split_and!; [|left; rewrite Hs; cbn [length]; lia|cbn; lia]. intros [|l] x Hx; cbn in Hx; [|done]. injection Hx as <-.
    change (Some (k + 0) = Some k). f_equal. lia.
  - cbn [length]. lia.
  - lia.
Qed.
End Create.
