(* ===== verification/Ext4Facts.v ===== *)
(** * What the ext4 driver does

    The main theorems of the driver, with a volume of eight blocks that satisfies
    their hypotheses. *)

From S2P Require Import Prelude KError Block Str Vfs Ext4 Ext4Image Ext4Dir.

#[local] Open Scope list_scope.

(** ** A small volume *)

Module Sample.
(** Blocks of 2 KiB: the super block, the descriptors, the inode bitmap, the block
    bitmap, the inode table, the root directory and two free blocks. *)
Definition pad (n : nat) (l : list Z) : list Z := l ++ replicate (n - length l) 0.

Definition super : list Z :=
  pad 512 (le_bytes 4 8 ++ le_bytes 4 8 ++ replicate 16 0 ++ le_bytes 4 1 ++ le_bytes 4 1 ++ replicate 8 0
           ++ le_bytes 4 8 ++ replicate 12 0 ++ le_bytes 2 0xEF53).
Definition descriptors : list Z := pad 512 (le_bytes 4 3 ++ le_bytes 4 2 ++ le_bytes 4 4).
Definition inode_bitmap : list Z := 3 :: replicate 511 255.
Definition block_bitmap : list Z := 63 :: replicate 511 255.

Definition root_inode : Ext4Inode :=
  mkInode 0x41ED 0 2048 0 0 0 0 0 2 4 0x80000 0
    (pad 60 (extent_header_to_bytes (mkExtentHeader 0xF30A 1 4 0 0) ++ extent_to_bytes (mkExtent 0 1 0 5))) 0 0 0 0.
Definition inodes : list Z := pad 512 (replicate 256 0 ++ inode_to_bytes root_inode).

Definition dot : dent := mkDent 2 2 [46] [0; 0; 0].
Definition dotdot : dent := mkDent 2 2 [46; 46] (replicate (2048 - 12 - 10) 0).
Definition root_bytes : list Z := dir_bytes ([dot] ++ [dotdot]).

Definition disk : ramdisk :=
  mkRamdisk (list_to_map [(2, super); (4, descriptors); (8, inode_bitmap); (12, block_bitmap); (16, inodes);
    (20, sub 0 512 root_bytes); (21, sub 512 512 root_bytes); (22, sub 1024 512 root_bytes);
    (23, sub 1536 512 root_bytes)]) 32.
Definition g : image := sector_of disk.
Definition v : Ext4Volume := mkExt4Volume 0 (super_of_bytes (super ++ zero_sector)).

Definition checked : Profile := true.
#[local] Existing Instance checked.

Lemma mounted : ext4_mount 0 disk = Ret (Ok v, disk).
Proof. vm_compute. reflexivity. Qed.

Lemma v_geometry : geometry 32 v 8.
Proof. by split; vm_compute. Qed.

Lemma disk_holds : holds (cap := 32) disk g.
Proof. split; [done|]. intros lba Hl. cbn [read_block ramdisk_device]. by rewrite (proj2 (Z.leb_le _ _)), (proj2 (Z.ltb_lt _ _)) by (cbn; lia). Qed.

Lemma bits_rest b k : 8 ≤ k < 4096 → bit_at (b :: replicate 511 255) k = true.
Proof.
  intros Hk. rewrite bit_at_cons by lia. rewrite (proj2 (Z.ltb_ge _ _)) by lia. unfold bit_at.
  rewrite nth_lookup, lookup_replicate_2 by zlia. cbn [default]. change 255 with (Z.ones 8). apply Z.ones_spec_low. zlia.
Qed.

Lemma ib_eq : ib v g = 2.
Proof. by vm_compute. Qed.
Lemma bb_eq : bb v g = 3.
Proof. by vm_compute. Qed.
Lemma itab_eq : itab v g = 4.
Proof. by vm_compute. Qed.
Lemma inode_bits : g (base v 2) = inode_bitmap.
Proof. by vm_compute. Qed.
Lemma block_bits : g (base v 3) = block_bitmap.
Proof. by vm_compute. Qed.

Lemma v_layout : layout v 8 g 1 5.
Proof.
  split; rewrite ?ib_eq, ?bb_eq, ?itab_eq; try (by vm_compute).
  - repeat (apply NoDup_cons; split; [rewrite ?not_elem_of_cons; split_and?; first [done|apply not_elem_of_nil]|]). apply NoDup_nil_2.
  - intros k. unfold in_table. rewrite itab_eq. intros Hk. rewrite !not_elem_of_cons. split_and!; try lia. apply not_elem_of_nil.
Qed.

Lemma v_marked : marked v 8 g 1 5.
Proof.
  split; rewrite ?ib_eq, ?bb_eq; unfold in_table; rewrite ?itab_eq, ?inode_bits, ?block_bits.
  - intros k Hm. rewrite !elem_of_cons, elem_of_nil in Hm. intros Hk.
    assert (k = 1 ∨ k = 2 ∨ k = 3 ∨ k = 4 ∨ k = 5) as Hc by lia. by destruct Hc as [->|[->|[->|[->| ->]]]].
  - intros k Hk Hc. destruct (Z.ltb_spec k 8); [done|]. by rewrite (bits_rest 63) in Hc by lia.
  - intros k Hk Hc. destruct (Z.ltb_spec k 8); [done|]. by rewrite (bits_rest 3) in Hc by lia.
Qed.

Definition root_extents : list Ext4Extent := [mkExtent 0 1 0 5].

Lemma root_inode_at : inode_at v g 2 = root_inode.
Proof. by vm_compute. Qed.

Lemma root_has_extents : has_extents 8 root_inode root_extents.
Proof.
  split; [by vm_compute..| |].
  - apply List.Forall_cons; [cbn; lia|apply List.Forall_nil].
  - intros l k Hl. cbn [root_extents extent_lookup ee_block ee_len] in Hl.
    destruct (Z.leb_spec 0 l), (Z.ltb_spec l (0 + 1)); cbn [andb] in Hl; try done.
    assert (l = 0) as -> by lia. by injection Hl as <-.
Qed.

Lemma dents_wf : Forall dent_wf ([dot] ++ [dotdot]).
Proof.
  repeat apply List.Forall_cons; try apply List.Forall_nil.
  all: split; [done|done|cbn; lia|done|by apply all_bytes].
Qed.

Lemma two_used : used_inode v g 2.
Proof. split; [done|]. intros _. by vm_compute. Qed.

Lemma v_root : root_dir v 8 g (found v g 2) 5 root_extents ([dot] ++ [dotdot]).
Proof.
  unfold found. rewrite root_inode_at. split; [done|done| |done|done|by vm_compute| |].
  - apply root_has_extents.
  - apply dents_wf.
  - repeat apply List.Forall_cons; try apply List.Forall_nil; intros _; apply two_used.
Qed.

End Sample.

(** ** The theorems *)

Section Facts.
Context `{HP : Profile} {D : Type} `{HD : BlockDevice D} `{HS : !BlockDeviceSpec D} {cap : Z} `{HH : !HealthyDisk D cap}.
Context (v : Ext4Volume) (nb : Z) (Hgeo : geometry cap v nb).
Implicit Types (d : D) (g : image) (n : Ext4Node).

(** C40: reading a file.  For a node whose extents name the blocks [ks], up to its
    end or its first hole, [read] at any offset into a buffer of any length
    returns exactly the bytes of these blocks from the offset on, cut at the
    buffer length and at the file size. *)
Theorem ext4_file_reads d g n es ks off len : holds d g → en_volume n = v → has_extents nb (en_inode n) es →
  file_blocks v n es ks → 0 ≤ off ≤ Z.of_nat (length ks) * bsz v → 0 ≤ len →
  ext4_read n d off len = Ret (sub off (Z.min len (en_size n - off)) (file_bytes v g ks)).
Proof. by apply ext4_read_ok. Qed.

(** Directory lookup.  On a directory whose bytes are a sequence of records,
    [lookup] returns the node of the first live record with the name, and nothing
    if there is none. *)
Theorem ext4_lookup_first d g n name exts ks es : holds d g → en_volume n = v → en_is_directory n = true →
  has_extents nb (en_inode n) exts → file_blocks v n exts ks → file_bytes v g ks = dir_bytes es →
  en_size n = Z.of_nat (length (dir_bytes es)) → Forall dent_wf es → live_valid v nb g es →
  ext4_lookup n d name = Ret (found v g <$> dir_find name es).
Proof. by apply ext4_lookup_ok. Qed.

(** Inode round trip.  An inode that was written is read back as it was, and
    every other inode of the group still reads as before. *)
Theorem ext4_inode_write_read d g tl rk ino i : holds d g → layout v nb g tl rk → 1 ≤ ino ≤ ipg v → inode_wf i →
  fwp (write_inode v ino i) d (λ _ d', ∀ j, 1 ≤ j ≤ ipg v →
    fwp (read_inode v j) d' (λ x d'', d'' = d' ∧
      if decide (j = ino) then x = i else fwp (read_inode v j) d (λ y _, x = y))).
Proof.
  intros Hd Hly Hi Hwf. pose proof (put_inode_changes v nb Hgeo g tl rk ino i Hly Hi) as [Hgr _].
  eapply fwp_mono; [apply (write_inode_ok v nb Hgeo d g); [done|by apply (inode_place v nb Hgeo g tl rk)|done]|].
  intros u d' Hd' j Hj. cbv beta in Hd'. pose proof (grows_layout v nb Hgeo _ _ _ _ Hgr Hly) as Hly'.
  apply (read_inode_ok v nb Hgeo d' _ j _ Hd'); [by apply (inode_place v nb Hgeo _ tl rk)|]. split; [done|].
  rewrite (put_inode_at v nb Hgeo d g tl rk) by done. case_decide; [done|].
  apply (read_inode_ok v nb Hgeo d g j _ Hd); [by apply (inode_place v nb Hgeo _ tl rk)|done].
Qed.
End Facts.

(** The descriptors of groups sixteen apart are not told apart: the offset of a
    descriptor is reduced modulo the sector size, and only the first sector of the
    table is read.  An inode of group [i + 16] is read from the table of group [i]. *)
Theorem ext4_groups_alias `{HP : Profile} {D : Type} `{HD : BlockDevice D} (v : Ext4Volume) (n : Z) (d : D) :
  0 < ipg v → 1 ≤ n → n + 16 * ipg v ≤ s_inodes_count (ev_super_block v) →
  read_inode v (n + 16 * ipg v) d = read_inode v n d.
Proof.
  intros Hp Hn Hc. unfold read_inode. unfold fs_bind at 1 3. f_equal. unfold locate_inode.
  rewrite !(proj2 (Z.ltb_ge _ _)) by lia. cbn [orb]. fold (ipg v). unfold udiv, umod.
  replace (n + 16 * ipg v - 1) with (n - 1 + 16 * ipg v) by lia.
  rewrite Z.div_add, Z.mod_add by lia. rewrite (proj2 (Z.eqb_neq _ _)) by lia.
  assert (read_bgd (D := D) v ((n - 1) / ipg v + 16) = read_bgd v ((n - 1) / ipg v)) as E; [|].
  { unfold read_bgd. replace (((n - 1) / ipg v + 16) * BGD_SIZE) with ((n - 1) / ipg v * BGD_SIZE + 1 * 512) by (unfold BGD_SIZE; lia).
    by rewrite Z.mod_add. }
  unfold fs_bind, fs_lift. cbn [obind]. by rewrite E.
Qed.

(** ** The theorems on the small volume *)

Module SampleFacts.
Import Sample.
#[local] Existing Instance checked.

Lemma root_blocks : file_blocks v (found v g 2) root_extents [5].
Proof.
  split_and!; [|left; by vm_compute|done]. intros [|l] k Hl; cbn in Hl; [by injection Hl as <-|done].
Qed.

Lemma root_extents_ok : has_extents 8 (en_inode (found v g 2)) root_extents.
Proof. unfold found. rewrite root_inode_at. apply root_has_extents. Qed.

(** Witness: 100 bytes at offset 2000 of the root directory; 48 are left. *)
Lemma ext4_file_reads_witness : ext4_read (found v g 2) disk 2000 100 = Ret (replicate 48 0).
Proof.
  rewrite (ext4_file_reads v 8 v_geometry disk g (found v g 2) root_extents [5] 2000 100 disk_holds eq_refl
    root_extents_ok root_blocks ltac:(by vm_compute) ltac:(lia)).
  vm_compute. reflexivity.
Defined.

Lemma ext4_lookup_first_witness : ext4_lookup (found v g 2) disk (lit "..") = Ret (Some (found v g 2)).
Proof.
  rewrite (ext4_lookup_first v 8 v_geometry disk g (found v g 2) (lit "..") root_extents [5] ([dot] ++ [dotdot]) disk_holds
    eq_refl ltac:(by vm_compute) root_extents_ok root_blocks ltac:(by vm_compute) ltac:(by vm_compute) dents_wf).
  - reflexivity.
  - repeat apply List.Forall_cons; try apply List.Forall_nil; intros _; apply (inode_place v 8 v_geometry g 1 5); by (apply v_layout || vm_compute).
Defined.

Lemma ext4_inode_write_read_witness :
  fwp (write_inode v 3 root_inode) disk (λ _ d', fwp (read_inode v 3) d' (λ x _, x = root_inode)).
Proof.
  eapply fwp_mono; [apply (ext4_inode_write_read v 8 v_geometry disk g 1 5 3 root_inode disk_holds v_layout); [by vm_compute|]|].
  - split; try done. by apply all_bytes.
  - intros u d' H. eapply fwp_mono; [apply (H 3); by vm_compute|]. by intros x d'' [_ Hx].
Defined.

(** A volume with more than sixteen groups of eight inodes. *)
Definition v_groups : Ext4Volume := mkExt4Volume 0 (super_of_bytes (le_bytes 4 200 ++ drop 4 super)).

Lemma ext4_groups_alias_witness : read_inode v_groups 130 disk = Ret (Ok root_inode, disk).
Proof.
  change 130 with (2 + 16 * ipg v_groups).
  rewrite (ext4_groups_alias v_groups 2 disk ltac:(by vm_compute) ltac:(lia) ltac:(by vm_compute)).
  vm_compute. reflexivity.
Defined.
End SampleFacts.
