(* ===== verification/Display.v ===== *)
(** * The display (src/src/drivers/display)

    The linear framebuffer of fb.rs as a map from offsets to bytes (a write outside
    it is [OutOfBounds]) and the terminal of tty.rs on top of it: printable
    characters, control characters and ANSI sequences.  The glyphs are those of the
    [font8x8] crate, a parameter.

    The theorems: no byte sequence makes the terminal panic or write outside the
    visible pixels; the pixels show, at every moment, a text screen that is
    described without pixels; and the decimal parameters of an ANSI sequence are
    read back as the numbers they were printed from. *)

From S2P Require Import Prelude.

#[local] Open Scope list_scope.

(** ** The framebuffer *)

Abbreviation color := (Z * Z * Z)%type.

Record FrameBuffer := mkFb {
  fb_mem : gmap Z Z;
  width : Z;
  height : Z;
  pitch : Z;
  bytes_per_pixel : Z;
}.

(** [BASIC_FONTS.get]: the eight rows of a glyph. *)
Class Font := font_get : Z → option (list Z).

Section Framebuffer.
Context `{HP : Profile}.
Implicit Types fb : FrameBuffer.

Definition FrameBuffer_new (mem : gmap Z Z) (w h p bpp : Z) : FrameBuffer := mkFb mem w h p (bpp / 8).

(** [*(self.ptr.add(o)) = v]. *)
Definition poke fb (o v : Z) : outcome FrameBuffer :=
  match fb_mem fb !! o with
  | Some _ => Ret (mkFb (<[o := v]> (fb_mem fb)) (width fb) (height fb) (pitch fb) (bytes_per_pixel fb))
  | None => Stop OutOfBounds
  end.

(** The three stores of a pixel. *)
Definition poke_pixel fb (x y : Z) (c : color) : outcome FrameBuffer :=
  a <- umul 64 y (pitch fb);;
  b <- umul 64 x (bytes_per_pixel fb);;
  offset <- uadd 64 a b;;
  fb <- poke fb offset c.1.1;;
  o1 <- uadd 64 offset 1;;
  fb <- poke fb o1 c.1.2;;
  o2 <- uadd 64 offset 2;;
  poke fb o2 c.2.

Definition draw_pixel fb (x y : Z) (c : color) : outcome FrameBuffer :=
  if (x <? width fb) && (y <? height fb) then poke_pixel fb x y c else Ret fb.

Definition fill_rect fb (x y w h : Z) (c : color) : outcome FrameBuffer :=
  each_range 0 h (λ row_i fb, each_range 0 w (λ col_i fb,
    px <- uadd 64 x col_i;;
    py <- uadd 64 y row_i;;
    draw_pixel fb px py c) fb) fb.

Definition clear fb (c : color) : outcome FrameBuffer :=
  each_range 0 (height fb) (λ y fb, each_range 0 (width fb) (λ x fb, poke_pixel fb x y c) fb) fb.

Definition draw_char `{Font} fb (x y byte : Z) (fg bg : color) : outcome FrameBuffer :=
  let glyph := default (replicate 8 0) (font_get byte) in
  each_range 0 (Z.of_nat (length glyph)) (λ row_i fb,
    row <- vget glyph row_i;;
    each_range 0 8 (λ bit_i fb,
      let is_active := negb (Z.land row (Z.shiftl 1 bit_i) =? 0) in
      let c := if is_active then fg else bg in
      px <- uadd 64 x bit_i;;
      py <- uadd 64 y row_i;;
      draw_pixel fb px py c) fb) fb.
End Framebuffer.

(** ** The terminal *)

Definition BG_DEFAULT : color := (0, 0, 0).
Definition FG_DEFAULT : color := (170, 170, 170).
Definition ANSI_COLORS : list color :=
  [(0, 0, 0); (0, 0, 170); (0, 170, 0); (0, 170, 170); (170, 0, 0); (170, 0, 170); (170, 170, 0); (170, 170, 170)].

Inductive AnsiState := Normal | Escape | Csi.

Record Writer := mkWriter {
  fb : FrameBuffer;
  x_pos : Z;
  y_pos : Z;
  fg_color : color;
  bg_color : color;
  ansi_state : AnsiState;
  ansi_params : list Z;
  ansi_param_idx : Z;
  ansi_current_val : Z;
}.

Section Terminal.
Context `{HP : Profile} `{HF : Font}.
Implicit Types w : Writer.

Definition set_fb w v := mkWriter v (x_pos w) (y_pos w) (fg_color w) (bg_color w) (ansi_state w) (ansi_params w) (ansi_param_idx w) (ansi_current_val w).
Definition set_pos w x y := mkWriter (fb w) x y (fg_color w) (bg_color w) (ansi_state w) (ansi_params w) (ansi_param_idx w) (ansi_current_val w).
Definition set_colors w f b := mkWriter (fb w) (x_pos w) (y_pos w) f b (ansi_state w) (ansi_params w) (ansi_param_idx w) (ansi_current_val w).
Definition set_state w s := mkWriter (fb w) (x_pos w) (y_pos w) (fg_color w) (bg_color w) s (ansi_params w) (ansi_param_idx w) (ansi_current_val w).
Definition set_params w p i v := mkWriter (fb w) (x_pos w) (y_pos w) (fg_color w) (bg_color w) (ansi_state w) p i v.

Definition reset_cursor w : Writer := set_pos w 0 0.

Definition clear_screen w : outcome Writer := f <- clear (fb w) (bg_color w);; Ret (set_fb w f).

Definition draw_cursor w : outcome Writer :=
  y <- uadd 64 (y_pos w) 6;;
  f <- fill_rect (fb w) (x_pos w) y 8 2 FG_DEFAULT;; Ret (set_fb w f).

Definition erase_cursor w : outcome Writer :=
  y <- uadd 64 (y_pos w) 6;;
  f <- fill_rect (fb w) (x_pos w) y 8 2 (bg_color w);; Ret (set_fb w f).

Definition Writer_new (mem : gmap Z Z) (wd ht p bpp : Z) : outcome Writer :=
  let w := mkWriter (FrameBuffer_new mem wd ht p bpp) 0 0 FG_DEFAULT BG_DEFAULT Normal [0; 0; 0; 0] 0 0 in
  w <- clear_screen w;;
  draw_cursor w.

Definition new_line w : outcome Writer :=
  y <- uadd 64 (y_pos w) 8;;
  let w := set_pos w 0 y in
  b <- uadd 64 (y_pos w) 8;;
  if height (fb w) <=? b then clear_screen (set_pos w (x_pos w) 0) else Ret w.

Definition backspace w : outcome Writer :=
  w <- (if 8 <=? x_pos w then x <- usub 64 (x_pos w) 8;; Ret (set_pos w x (y_pos w))
        else if 8 <=? y_pos w then
          y <- usub 64 (y_pos w) 8;;
          a <- usub 64 (width (fb w)) (width (fb w) mod 8);;
          x <- usub 64 a 8;;
          Ret (set_pos w x y)
        else Ret w);;
  f <- fill_rect (fb w) (x_pos w) (y_pos w) 8 8 (bg_color w);; Ret (set_fb w f).

Definition print_char w (byte : Z) : outcome Writer :=
  e <- uadd 64 (x_pos w) 8;;
  w <- (if width (fb w) <=? e then new_line w else Ret w);;
  f <- draw_char (fb w) (x_pos w) (y_pos w) byte (fg_color w) (bg_color w);;
  let w := set_fb w f in
  x <- uadd 64 (x_pos w) 8;;
  Ret (set_pos w x (y_pos w)).

(** One parameter of [m]. *)
Definition sgr w (i : Z) : outcome Writer :=
  p <- vget (ansi_params w) i;;
  if p =? 0 then Ret (set_colors w FG_DEFAULT BG_DEFAULT)
  else if (30 <=? p) && (p <=? 37) then c <- vget ANSI_COLORS (p - 30);; Ret (set_colors w c (bg_color w))
  else if (40 <=? p) && (p <=? 47) then c <- vget ANSI_COLORS (p - 40);; Ret (set_colors w (fg_color w) c)
  else Ret w.

Definition execute_ansi_cmd w (cmd : Z) : outcome Writer :=
  if cmd =? 109 then each_range 0 (ansi_param_idx w) (λ i w, sgr w i) w
  else if cmd =? 74 then
    p <- vget (ansi_params w) 0;;
    if p =? 2 then w <- clear_screen w;; Ret (reset_cursor w) else Ret w
  else if cmd =? 72 then
    p0 <- vget (ansi_params w) 0;;
    y <- (if 0 <? p0 then usub 64 p0 1 else Ret 0);;
    p1 <- vget (ansi_params w) 1;;
    x <- (if 0 <? p1 then usub 64 p1 1 else Ret 0);;
    x <- umul 64 x 8;;
    y <- umul 64 y 8;;
    Ret (set_pos w x y)
  else if cmd =? 75 then
    mode <- (if 0 <? ansi_param_idx w then vget (ansi_params w) 0 else Ret 0);;
    if mode =? 0 then
      let remaining_width := sat_sub (width (fb w)) (x_pos w) in
      f <- fill_rect (fb w) (x_pos w) (y_pos w) remaining_width 8 (bg_color w);;
      Ret (set_fb w f)
    else Ret w
  else Ret w.

(** [if self.ansi_param_idx < 4 { .. }]: the current value becomes a parameter. *)
Definition store_param w : outcome Writer :=
  if ansi_param_idx w <? 4 then
    l <- vset (ansi_params w) (ansi_param_idx w) (ansi_current_val w);;
    i <- uadd 64 (ansi_param_idx w) 1;;
    Ret (set_params w l i (ansi_current_val w))
  else Ret w.

Definition write_byte w (byte : Z) : outcome Writer :=
  match ansi_state w with
  | Normal =>
      if byte =? 0x1B then Ret (set_state w Escape)
      else if byte =? 10 then new_line w
      else if byte =? 13 then Ret (set_pos w 0 (y_pos w))
      else if byte =? 8 then backspace w
      else if (0x20 <=? byte) && (byte <=? 0x7E) then print_char w byte
      else Ret w
  | Escape =>
      if byte =? 91 then Ret (set_params (set_state w Csi) [0; 0; 0; 0] 0 0) else Ret (set_state w Normal)
  | Csi =>
      if (48 <=? byte) && (byte <=? 57) then
        Ret (set_params w (ansi_params w) (ansi_param_idx w)
               (wrap 32 (wrap 32 (ansi_current_val w * 10) + (byte - 48))))
      else if byte =? 59 then
        w <- store_param w;; Ret (set_params w (ansi_params w) (ansi_param_idx w) 0)
      else
        w <- store_param w;;
        w <- execute_ansi_cmd w byte;;
        Ret (set_state w Normal)
  end.

(** [write_str]: the bytes of the text. *)
Definition write_str w (bytes : list Z) : outcome Writer := mfold write_byte w bytes.

(** [_print] with the formatted text; [WRITER] is empty before [init]. *)
Definition _print (WRITER : option Writer) (bytes : list Z) : outcome (option Writer) :=
  match WRITER with
  | Some w =>
      w <- erase_cursor w;;
      w <- write_str w bytes;;
      w <- draw_cursor w;;
      Ret (Some w)
  | None => Ret None
  end.

(** [init] on the response of the boot loader: the first framebuffer is blanked
    (the loops are those of [clear]) and gets a terminal. *)
Definition display_init (framebuffers : list (gmap Z Z * Z * Z * Z * Z)) : outcome (option Writer) :=
  match framebuffers with
  | [] => Ret None
  | (mem, wd, ht, p, bpp) :: _ =>
      f <- clear (FrameBuffer_new mem wd ht p bpp) (0, 0, 0);;
      w <- Writer_new (fb_mem f) wd ht p bpp;;
      Ret (Some w)
  end.
End Terminal.

(** ** Pixels *)

Section Pixels.
Context `{HP : Profile}.
Implicit Types fb : FrameBuffer.

(** The buffer holds its scan lines, and a pixel has at least three bytes. *)
Record fb_ok fb : Prop := {
  fb_bpp : 3 ≤ bytes_per_pixel fb;
  fb_width : 8 ≤ width fb < 2 ^ 32;
  fb_height : 0 < height fb < 2 ^ 32;
  fb_pitch : width fb * bytes_per_pixel fb ≤ pitch fb;
  fb_size : height fb * pitch fb < 2 ^ 63;
  fb_bytes o : 0 ≤ o < height fb * pitch fb → is_Some (fb_mem fb !! o);
}.

Definition visible fb (x y : Z) : Prop := 0 ≤ x < width fb ∧ 0 ≤ y < height fb.
Definition offset_of fb (x y : Z) : Z := y * pitch fb + x * bytes_per_pixel fb.

Definition pixel fb (x y : Z) : option color :=
  match fb_mem fb !! offset_of fb x y, fb_mem fb !! (offset_of fb x y + 1), fb_mem fb !! (offset_of fb x y + 2) with
  | Some a, Some b, Some c => Some (a, b, c)
  | _, _, _ => None
  end.

(** The same geometry, and the bytes that belong to no visible pixel are as
    before. *)
Record same_frame fb fb' : Prop := {
  sf_width : width fb' = width fb;
  sf_height : height fb' = height fb;
  sf_pitch : pitch fb' = pitch fb;
  sf_bpp : bytes_per_pixel fb' = bytes_per_pixel fb;
  sf_ok : fb_ok fb';
  sf_rest o : (∀ x y, visible fb x y → ¬ offset_of fb x y ≤ o < offset_of fb x y + 3) → fb_mem fb' !! o = fb_mem fb !! o;
}.

Lemma same_frame_refl fb : fb_ok fb → same_frame fb fb.
Proof. by split. Qed.

Lemma same_frame_visible fb fb' x y : same_frame fb fb' → visible fb' x y ↔ visible fb x y.
Proof. intros [Hw Hh _ _ _ _]. unfold visible. by rewrite Hw, Hh. Qed.

Lemma same_frame_offset fb fb' x y : same_frame fb fb' → offset_of fb' x y = offset_of fb x y.
Proof. intros [_ _ Hp Hb _ _]. unfold offset_of. by rewrite Hp, Hb. Qed.

Lemma same_frame_trans fb1 fb2 fb3 : same_frame fb1 fb2 → same_frame fb2 fb3 → same_frame fb1 fb3.
Proof.
  intros H12 H23. pose proof H12 as [w1 h1 p1 b1 _ r1]. pose proof H23 as [w2 h2 p2 b2 o2 r2]. split; [congruence..|done|].
  intros o Ho. rewrite r2, r1; [done|done|]. intros x y Hv. rewrite (same_frame_offset fb1 fb2) by done. apply Ho.
  by apply (same_frame_visible fb1 fb2).
Qed.

(** Distinct pixels have disjoint bytes. *)
Lemma offset_bound fb x y : fb_ok fb → visible fb x y → 0 ≤ offset_of fb x y ∧ offset_of fb x y + 3 ≤ height fb * pitch fb.
Proof. intros [] [Hx Hy]. unfold offset_of. nia. Qed.

Lemma offset_apart fb x y x' y' : fb_ok fb → visible fb x y → visible fb x' y' → (x, y) ≠ (x', y') →
  offset_of fb x y + 3 ≤ offset_of fb x' y' ∨ offset_of fb x' y' + 3 ≤ offset_of fb x y.
Proof.
  intros [Hb Hw Hh Hp Hs _] [Hx Hy] [Hx' Hy'] Hne. unfold offset_of. destruct (Z.lt_trichotomy y y') as [Hlt|[->|Hlt]].
  - left. nia.
  - destruct (Z.lt_trichotomy x x') as [Hlt|[->|Hlt]]; [left; nia|done|right; nia].
  - right. nia.
Qed.

Lemma poke_in fb o v : is_Some (fb_mem fb !! o) →
  poke fb o v = Ret (mkFb (<[o := v]> (fb_mem fb)) (width fb) (height fb) (pitch fb) (bytes_per_pixel fb)).
Proof. intros [x Hx]. unfold poke. by rewrite Hx. Qed.

Lemma poke_pixel_ok fb x y c : fb_ok fb → visible fb x y →
  wp (poke_pixel fb x y c) (λ fb', same_frame fb fb' ∧ pixel fb' x y = Some c
    ∧ ∀ x' y', visible fb x' y' → (x', y') ≠ (x, y) → pixel fb' x' y' = pixel fb x' y').
Proof.
  intros Hok Hv. pose proof Hok as [Hb Hw Hh Hp Hs Hbytes]. pose proof (offset_bound fb x y Hok Hv) as [Ho1 Ho2]. pose proof Hv as [Hx Hy].
  unfold poke_pixel, umul, uadd. rewrite !checked_ok by (unfold offset_of in *; nia). cbn [obind].
  rewrite checked_ok by (unfold offset_of in *; nia). cbn [obind].
  rewrite checked_ok by (unfold offset_of in *; nia). cbn [obind]. fold (offset_of fb x y). set (o := offset_of fb x y) in *.
  rewrite poke_in by (apply Hbytes; lia). cbn [obind]. rewrite !checked_ok by lia. cbn [obind].
  rewrite poke_in by (cbn; apply lookup_insert_is_Some'; right; apply Hbytes; lia). cbn [obind].
  rewrite poke_in by (cbn; apply lookup_insert_is_Some'; right; apply lookup_insert_is_Some'; right; apply Hbytes; lia).
  cbn [fb_mem width height pitch bytes_per_pixel wp]. destruct c as [[c0 c1] c2]. cbn [fst snd].
  set (mem := <[o + 2 := c2]> _).
  assert (∀ q, ¬ o ≤ q < o + 3 → mem !! q = fb_mem fb !! q) as Hout by (intros q Hq; unfold mem; rewrite !lookup_insert_ne by lia; done).
  split; [split; try done|split].
  - split; cbn; try done. intros q Hq. unfold mem. repeat (apply lookup_insert_is_Some'; right). by apply Hbytes.
  - intros q Hq. cbn. apply Hout. by apply Hq.
  - unfold pixel, offset_of. cbn. fold (offset_of fb x y). fold o. unfold mem.
    rewrite (lookup_insert_ne _ (o + 2) o), (lookup_insert_ne _ (o + 1) o), lookup_insert_eq by lia.
    rewrite (lookup_insert_ne _ (o + 2) (o + 1)), lookup_insert_eq by lia. by rewrite lookup_insert_eq.
  - intros x' y' Hv' Hne. destruct (offset_apart fb x' y' x y Hok Hv' Hv Hne) as [Ha|Ha]; fold o in Ha;
      unfold pixel, offset_of; cbn; fold (offset_of fb x' y'); rewrite !Hout by lia; done.
Qed.

(** The visible pixels in a region were painted. *)
Record painted fb (region : Z → Z → bool) (paint : Z → Z → color) fb' : Prop := {
  pt_frame : same_frame fb fb';
  pt_pixel x y : visible fb x y → pixel fb' x y = if region x y then Some (paint x y) else pixel fb x y;
}.

Lemma painted_nothing fb region paint : fb_ok fb → (∀ x y, visible fb x y → region x y = false) → painted fb region paint fb.
Proof. intros Hok Hr. split; [by apply same_frame_refl|]. intros x y Hv. by rewrite Hr. Qed.

Lemma painted_ext fb r1 p1 r2 p2 fb' : (∀ x y, visible fb x y → r1 x y = r2 x y ∧ (r2 x y = true → p1 x y = p2 x y)) →
  painted fb r1 p1 fb' → painted fb r2 p2 fb'.
Proof.
  intros He [Hf Hp]. split; [done|]. intros x y Hv. rewrite Hp by done. destruct (He x y Hv) as [-> Hc].
  destruct (r2 x y); [|done]. by rewrite Hc.
Qed.

Lemma painted_then fb r1 p fb1 r2 fb2 : painted fb r1 p fb1 → painted fb1 r2 p fb2 → painted fb (λ x y, r1 x y || r2 x y) p fb2.
Proof.
  intros [Hf1 Hp1] [Hf2 Hp2]. split; [by eapply same_frame_trans|]. intros x y Hv.
  rewrite Hp2 by (by apply (same_frame_visible fb)). rewrite Hp1 by done. by destruct (r1 x y), (r2 x y).
Qed.

(** A loop paints what its rounds paint. *)
Lemma paint_loop fb n region paint (body : Z → FrameBuffer → outcome FrameBuffer) : fb_ok fb → 0 ≤ n →
  (∀ i st, 0 ≤ i < n → same_frame fb st → wp (body i st) (painted st (region i) paint)) →
  wp (each_range 0 n body fb) (painted fb (λ x y, existsb (λ i, region (Z.of_nat i) x y) (seq 0 (Z.to_nat n))) paint).
Proof.
  intros Hok Hn Hb.
  eapply wp_mono; [apply (wp_each_range (λ i, painted fb (λ x y, existsb (λ i, region (Z.of_nat i) x y) (seq 0 (Z.to_nat i))) paint))|].
  - by apply painted_nothing.
  - intros i st Hi Hp. eapply wp_mono; [apply Hb; [done|apply Hp]|]. intros st' Hp'.
    eapply painted_ext; [|by eapply painted_then]. intros x y _. split; [|done]. cbv beta.
    rewrite Z2Nat.inj_add, Nat.add_1_r, seq_S, existsb_app by lia. cbn [existsb]. by rewrite Nat.add_0_l, Z2Nat.id, orb_false_r by lia.
  - cbv beta. intros fb'. by rewrite Z.max_r by lia.
Qed.

Lemma existsb_range n p : existsb (λ i, p (Z.of_nat i)) (seq 0 (Z.to_nat n)) = true ↔ ∃ i, 0 ≤ i < n ∧ p i = true.
Proof.
  rewrite existsb_exists. split.
  - intros (i & [_ Hi]%in_seq & Hp). exists (Z.of_nat i). split; [lia|done].
  - intros (i & Hi & Hp). exists (Z.to_nat i). rewrite in_seq, Z2Nat.id by lia. split; [lia|done].
Qed.

(** A region given by its rows or columns is a rectangle. *)
Definition in_rect (x0 y0 w h x y : Z) : bool := (x0 <=? x) && (x <? x0 + w) && ((y0 <=? y) && (y <? y0 + h)).

Lemma in_rect_true x0 y0 w h x y : in_rect x0 y0 w h x y = true ↔ x0 ≤ x < x0 + w ∧ y0 ≤ y < y0 + h.
Proof. unfold in_rect. rewrite !andb_true_iff, !Z.leb_le, !Z.ltb_lt. tauto. Qed.

Lemma rect_columns x0 y0 w h x y : existsb (λ i, in_rect (x0 + Z.of_nat i) y0 1 h x y) (seq 0 (Z.to_nat w)) = in_rect x0 y0 w h x y.
Proof.
  apply eq_true_iff_eq. rewrite (existsb_range w (λ i, in_rect (x0 + i) y0 1 h x y)), in_rect_true. split.
  - intros (i & Hi & Hr%in_rect_true). lia.
  - intros Hr. exists (x - x0). rewrite in_rect_true. lia.
Qed.

Lemma rect_rows x0 y0 w h x y : existsb (λ i, in_rect x0 (y0 + Z.of_nat i) w 1 x y) (seq 0 (Z.to_nat h)) = in_rect x0 y0 w h x y.
Proof.
  apply eq_true_iff_eq. rewrite (existsb_range h (λ i, in_rect x0 (y0 + i) w 1 x y)), in_rect_true. split.
  - intros (i & Hi & Hr%in_rect_true). lia.
  - intros Hr. exists (y - y0). rewrite in_rect_true. lia.
Qed.

Lemma painted_pixel fb x y c fb' : same_frame fb fb' → pixel fb' x y = Some c →
  (∀ x' y', visible fb x' y' → (x', y') ≠ (x, y) → pixel fb' x' y' = pixel fb x' y') → painted fb (in_rect x y 1 1) (λ _ _, c) fb'.
Proof.
  intros Hf Hc Ho. split; [done|]. intros x' y' Hv. destruct (in_rect x y 1 1 x' y') eqn:E.
  - apply in_rect_true in E. by replace x' with x by lia; replace y' with y by lia.
  - apply Ho; [done|]. intros [= -> ->]. apply not_true_iff_false in E. apply E, in_rect_true. lia.
Qed.

Lemma poke_pixel_paints fb x y c : fb_ok fb → visible fb x y → wp (poke_pixel fb x y c) (painted fb (in_rect x y 1 1) (λ _ _, c)).
Proof. intros Hok Hv. eapply wp_mono; [by apply poke_pixel_ok|]. intros fb' (Hf & Hc & Ho). by apply painted_pixel. Qed.

Lemma draw_pixel_paints fb x y c : fb_ok fb → 0 ≤ x → 0 ≤ y → wp (draw_pixel fb x y c) (painted fb (in_rect x y 1 1) (λ _ _, c)).
Proof.
  intros Hok Hx Hy. unfold draw_pixel. destruct (Z.ltb_spec x (width fb)), (Z.ltb_spec y (height fb)); cbn [andb];
    [by apply poke_pixel_paints|wp_step; apply painted_nothing; [done|]; intros x' y' [Hx' Hy'];
     apply not_true_iff_false; rewrite in_rect_true; lia..].
Qed.

Lemma fill_rect_paints fb x y w h c : fb_ok fb → 0 ≤ x → 0 ≤ y → 0 ≤ w → 0 ≤ h → x + w < 2 ^ 64 → y + h < 2 ^ 64 →
  wp (fill_rect fb x y w h c) (painted fb (in_rect x y w h) (λ _ _, c)).
Proof.
  intros Hok Hx Hy Hw Hh Hxw Hyh. unfold fill_rect.
  eapply wp_mono; [apply (paint_loop fb h (λ i, in_rect x (y + i) w 1) (λ _ _, c)); [done|done|]|].
  - intros row st Hrow Hst. eapply wp_mono; [apply (paint_loop st w (λ i, in_rect (x + i) (y + row) 1 1) (λ _ _, c)); [apply Hst|done|]|].
    + intros col st' Hcol Hst'. unfold uadd. rewrite !checked_ok by lia. cbn [obind]. apply draw_pixel_paints; [apply Hst'|lia|lia].
    + intros st'. apply painted_ext. intros x' y' _. split; [apply rect_columns|done].
  - intros fb'. apply painted_ext. intros x' y' _. split; [apply rect_rows|done].
Qed.

Lemma clear_paints fb c : fb_ok fb → wp (clear fb c) (painted fb (λ _ _, true) (λ _ _, c)).
Proof.
  intros Hok. pose proof (fb_width _ Hok). pose proof (fb_height _ Hok). unfold clear.
  eapply wp_mono; [apply (paint_loop fb (height fb) (λ i, in_rect 0 i (width fb) 1) (λ _ _, c)); [done|lia|]|].
  - intros row st Hrow Hst. rewrite (sf_width _ _ Hst).
    eapply wp_mono; [apply (paint_loop st (width fb) (λ i, in_rect i row 1 1) (λ _ _, c)); [apply Hst|lia|]|].
    + intros col st' Hcol Hst'. apply poke_pixel_paints; [apply Hst'|]. apply (same_frame_visible st st'); [done|].
      apply (same_frame_visible fb st); [done|]. split; lia.
    + intros st'. apply painted_ext. intros x' y' _. split; [|done]. rewrite <- rect_columns. done.
  - intros fb'. apply painted_ext. intros x' y' [Hx' Hy']. split; [|done].
    transitivity (in_rect 0 0 (width fb) (height fb) x' y'); [rewrite <- rect_rows; done|]. apply in_rect_true. lia.
Qed.
End Pixels.

(** ** Glyphs *)

(** A glyph has eight rows ([[u8; 8]]). *)
Class FontSpec `{Font} : Prop := font_rows b g : font_get b = Some g → length g = 8%nat.

Section Glyphs.
Context `{HP : Profile} `{HF : FontSpec}.

Definition glyph_of (byte : Z) : list Z := default (replicate 8 0) (font_get byte).

(** The colour of a pixel of a glyph. *)
Definition glyph_color (byte : Z) (fg bg : color) (cx cy : Z) : color :=
  if Z.testbit (nth (Z.to_nat cy) (glyph_of byte) 0) cx then fg else bg.

Lemma glyph_length byte : length (glyph_of byte) = 8%nat.
Proof. unfold glyph_of. destruct (font_get byte) eqn:E; [by eapply font_rows|done]. Qed.

Lemma draw_char_paints fb x y byte fg bg : fb_ok fb → 0 ≤ x → 0 ≤ y → x + 8 < 2 ^ 64 → y + 8 < 2 ^ 64 →
  wp (draw_char fb x y byte fg bg) (painted fb (in_rect x y 8 8) (λ x' y', glyph_color byte fg bg (x' - x) (y' - y))).
Proof.
  intros Hok Hx Hy Hxw Hyh. unfold draw_char. fold (glyph_of byte). rewrite glyph_length.
  set (paint := λ x' y', glyph_color byte fg bg (x' - x) (y' - y)).
  eapply wp_mono; [apply (paint_loop fb 8 (λ i, in_rect x (y + i) 8 1) paint); [done|lia|]|].
  - intros row st Hrow Hst. destruct (lookup_lt_is_Some_2 (glyph_of byte) (Z.to_nat row)) as [g Hg]; [rewrite glyph_length; lia|].
    unfold vget. rewrite Hg. cbn [obind].
    eapply wp_mono; [apply (paint_loop st 8 (λ i, in_rect (x + i) (y + row) 1 1) paint); [apply Hst|lia|]|].
    + intros col st' Hcol Hst'. unfold uadd. rewrite !checked_ok by lia. cbn [obind].
      eapply wp_mono; [apply draw_pixel_paints; [apply Hst'|lia|lia]|]. intros st2. apply painted_ext. intros x' y' _. split; [done|].
      intros Hr%in_rect_true. unfold paint, glyph_color. replace (y' - y) with row by lia. replace (x' - x) with col by lia.
      rewrite nth_lookup, Hg. cbn [default]. rewrite mask_test, negb_involutive by lia. done.
    + intros st'. apply painted_ext. intros x' y' _. split; [apply rect_columns|done].
  - intros fb'. apply painted_ext. intros x' y' _. split; [apply rect_rows|done].
Qed.
End Glyphs.

(** ** The text screen *)

(** What the bytes mean, apart from pixels: commands. *)
Inductive command :=
| Put (byte : Z)
| NewLine
| Return
| Back
| Sgr (args : list Z)
| ClearAll
| Goto (r c : Z)
| EraseRight.

(** A parser of ANSI sequences with the arguments as a list. *)
Record parser := mkParser { p_state : AnsiState; p_args : list Z; p_val : Z }.

Definition push_arg (args : list Z) (v : Z) : list Z := if (length args <? 4)%nat then args ++ [v] else args.
Definition arg (args : list Z) (i : nat) : Z := nth i args 0.

Definition csi (cmd : Z) (args : list Z) : list command :=
  if cmd =? 109 then [Sgr args]
  else if cmd =? 74 then if arg args 0 =? 2 then [ClearAll] else []
  else if cmd =? 72 then [Goto (arg args 0) (arg args 1)]
  else if cmd =? 75 then if arg args 0 =? 0 then [EraseRight] else []
  else [].

Definition parse (p : parser) (byte : Z) : parser * list command :=
  match p_state p with
  | Normal =>
      if byte =? 0x1B then (mkParser Escape (p_args p) (p_val p), [])
      else (p, if byte =? 10 then [NewLine] else if byte =? 13 then [Return] else if byte =? 8 then [Back]
               else if (0x20 <=? byte) && (byte <=? 0x7E) then [Put byte] else [])
  | Escape =>
      if byte =? 91 then (mkParser Csi [] 0, []) else (mkParser Normal (p_args p) (p_val p), [])
  | Csi =>
      if (48 <=? byte) && (byte <=? 57) then (mkParser Csi (p_args p) ((p_val p * 10 + (byte - 48)) mod 2 ^ 32), [])
      else
        let args := push_arg (p_args p) (p_val p) in
        if byte =? 59 then (mkParser Csi args 0, [])
        else (mkParser Normal args (p_val p), csi byte args)
  end.

(** What a cell shows: a colour, a character, or something whose two lower rows
    were painted over by the cursor. *)
Inductive cell :=
| Blank (bg : color)
| Glyph (byte : Z) (fg bg : color)
| Under (v : cell) (c : color).

Record screen := mkScreen { cells : Z → Z → cell; col : Z; row : Z; s_fg : color; s_bg : color }.

Definition at_cell (s : screen) (c r : Z) : screen := mkScreen (cells s) c r (s_fg s) (s_bg s).
Definition put_cell (s : screen) (v : cell) : screen :=
  mkScreen (λ c r, if (c =? col s) && (r =? row s) then v else cells s c r) (col s) (row s) (s_fg s) (s_bg s).
Definition wipe (s : screen) : screen := mkScreen (λ _ _, Blank (s_bg s)) (col s) (row s) (s_fg s) (s_bg s).

(** A screen of [wd] by [ht] pixels.  At the bottom a new line starts over on a
    blank screen. *)
Definition next_line (ht : Z) (s : screen) : screen :=
  if ht <=? 8 * (row s + 1) + 8 then at_cell (wipe s) 0 0 else at_cell s 0 (row s + 1).

Definition wrap_line (wd ht : Z) (s : screen) : screen := if wd <=? 8 * col s + 8 then next_line ht s else s.

Definition sgr_arg (s : screen) (p : Z) : screen :=
  if p =? 0 then mkScreen (cells s) (col s) (row s) FG_DEFAULT BG_DEFAULT
  else if (30 <=? p) && (p <=? 37) then mkScreen (cells s) (col s) (row s) (nth (Z.to_nat (p - 30)) ANSI_COLORS BG_DEFAULT) (s_bg s)
  else if (40 <=? p) && (p <=? 47) then mkScreen (cells s) (col s) (row s) (s_fg s) (nth (Z.to_nat (p - 40)) ANSI_COLORS BG_DEFAULT)
  else s.

Definition apply_command (wd ht : Z) (s : screen) (c : command) : screen :=
  match c with
  | Put byte =>
      let s := wrap_line wd ht s in
      at_cell (put_cell s (Glyph byte (s_fg s) (s_bg s))) (col s + 1) (row s)
  | NewLine => next_line ht s
  | Return => at_cell s 0 (row s)
  | Back =>
      let s := if 1 <=? col s then at_cell s (col s - 1) (row s)
               else if 1 <=? row s then at_cell s (wd / 8 - 1) (row s - 1) else s in
      put_cell s (Blank (s_bg s))
  | Sgr args => fold_left sgr_arg args s
  | ClearAll => at_cell (wipe s) 0 0
  | Goto r c => at_cell s (Z.max 0 (c - 1)) (Z.max 0 (r - 1))
  | EraseRight =>
      mkScreen (λ c r, if (col s <=? c) && (r =? row s) then Blank (s_bg s) else cells s c r) (col s) (row s) (s_fg s) (s_bg s)
  end.

(** The cursor bar, in a colour, on the cell at the cursor. *)
Definition underline (c : color) (s : screen) : screen := put_cell s (Under (cells s (col s) (row s)) c).

Definition interpret (wd ht : Z) (ps : parser * screen) (byte : Z) : parser * screen :=
  let (p, cmds) := parse ps.1 byte in (p, fold_left (apply_command wd ht) cmds ps.2).

(** A text: the cursor goes, the bytes are interpreted, the cursor is back. *)
Definition print_text (wd ht : Z) (ps : parser * screen) (bytes : list Z) : parser * screen :=
  let ps := fold_left (interpret wd ht) bytes (ps.1, underline (s_bg ps.2) ps.2) in
  (ps.1, underline FG_DEFAULT ps.2).

Definition boot_screen : parser * screen :=
  (mkParser Normal [] 0, underline FG_DEFAULT (mkScreen (λ _ _, Blank BG_DEFAULT) 0 0 FG_DEFAULT BG_DEFAULT)).

(** ** The pixels show the screen *)

Section Shows.
Context `{HP : Profile} `{HF : FontSpec}.
Implicit Types (w : Writer) (s : screen) (p : parser).

Fixpoint cell_color (v : cell) (cx cy : Z) : color :=
  match v with
  | Blank bg => bg
  | Glyph byte fg bg => glyph_color byte fg bg cx cy
  | Under v c => if cy <? 6 then cell_color v cx cy else c
  end.

(** What a screen shows at a pixel. *)
Definition screen_color s (x y : Z) : color := cell_color (cells s (x / 8) (y / 8)) (x mod 8) (y mod 8).

(** The writer but for the pixels. *)
Record placed w s : Prop := {
  pl_ok : fb_ok (fb w);
  pl_x : x_pos w = 8 * col s;
  pl_y : y_pos w = 8 * row s;
  pl_col : 0 ≤ col s ≤ 2 ^ 32;
  pl_row : 0 ≤ row s ≤ 2 ^ 32;
  pl_fg : fg_color w = s_fg s;
  pl_bg : bg_color w = s_bg s;
}.

Record drawn w s : Prop := {
  dr_placed : placed w s;
  dr_pixels x y : visible (fb w) x y → pixel (fb w) x y = Some (screen_color s x y);
}.

Record parsing w p : Prop := {
  pa_state : ansi_state w = p_state p;
  pa_params : ansi_params w = p_args p ++ replicate (4 - length (p_args p)) 0;
  pa_idx : ansi_param_idx w = Z.of_nat (length (p_args p));
  pa_max : (length (p_args p) ≤ 4)%nat;
  pa_args : Forall (λ v, 0 ≤ v < 2 ^ 32) (p_args p);
  pa_val : ansi_current_val w = p_val p;
  pa_u32 : 0 ≤ p_val p < 2 ^ 32;
}.

(** An operation that leaves the parser alone. *)
Record redrawn w s w' : Prop := {
  re_drawn : drawn w' s;
  re_frame : same_frame (fb w) (fb w');
  re_state : ansi_state w' = ansi_state w;
  re_params : ansi_params w' = ansi_params w;
  re_idx : ansi_param_idx w' = ansi_param_idx w;
  re_val : ansi_current_val w' = ansi_current_val w;
}.

Lemma redrawn_refl w s : drawn w s → redrawn w s w.
Proof. intros Hd. split; [done|apply same_frame_refl, Hd|done..]. Qed.

Lemma redrawn_trans w1 s2 w2 s3 w3 : redrawn w1 s2 w2 → redrawn w2 s3 w3 → redrawn w1 s3 w3.
Proof. intros [_ f1 a1 b1 c1 d1] [h f2 a2 b2 c2 d2]. split; [done|by eapply same_frame_trans|congruence..]. Qed.

Lemma redrawn_parsing w s w' p : redrawn w s w' → parsing w p → parsing w' p.
Proof. intros [_ _ a b c d] []. split; congruence. Qed.

(** Painting a region with what the new screen shows there. *)
Lemma drawn_paint w s s' region paint f : drawn w s → placed w s' → painted (fb w) region paint f →
  (∀ x y, visible (fb w) x y → screen_color s' x y = if region x y then paint x y else screen_color s x y) →
  redrawn w s' (set_fb w f).
Proof.
  intros [Hpl Hpx] [] [Hf Hp] He. split; [|done..]. split; [split; try done; apply Hf|].
  intros x y Hv. cbn. apply (same_frame_visible (fb w) f x y Hf) in Hv. rewrite Hp, He by done. destruct (region x y); [done|by apply Hpx].
Qed.

Lemma drawn_move w s c r : drawn w s → 0 ≤ c ≤ 2 ^ 32 → 0 ≤ r ≤ 2 ^ 32 → redrawn w (at_cell s c r) (set_pos w (8 * c) (8 * r)).
Proof. intros [[] Hpx] Hc Hr. split; [|by apply same_frame_refl|done..]. by split. Qed.

(** The pixels of the cell at the cursor. *)
Lemma cursor_rect c r x y : 0 ≤ x → 0 ≤ y → in_rect (8 * c) (8 * r) 8 8 x y = (x / 8 =? c) && (y / 8 =? r).
Proof.
  intros Hx Hy. apply eq_true_iff_eq. rewrite in_rect_true, andb_true_iff, !Z.eqb_eq.
  pose proof (Z.div_mod x 8). pose proof (Z.mod_pos_bound x 8). pose proof (Z.div_mod y 8). pose proof (Z.mod_pos_bound y 8). lia.
Qed.

(** The cell at the cursor is painted. *)
Lemma drawn_cell w s v paint f : drawn w s → painted (fb w) (in_rect (x_pos w) (y_pos w) 8 8) paint f →
  (∀ x y, x / 8 = col s → y / 8 = row s → paint x y = cell_color v (x mod 8) (y mod 8)) →
  redrawn w (put_cell s v) (set_fb w f).
Proof.
  intros Hd Hp Hc. eapply drawn_paint; [done| |done|].
  - by destruct Hd as [[] _].
  - intros x y [Hx Hy]. destruct Hd as [[_ -> -> _ _ _ _] _]. rewrite cursor_rect by lia. unfold screen_color. cbn.
    destruct (Z.eqb_spec (x / 8) (col s)), (Z.eqb_spec (y / 8) (row s)); cbn; [|done..]. by rewrite Hc.
Qed.

Lemma clear_screen_placed w s : placed w s → wp (clear_screen w) (redrawn w (wipe s)).
Proof.
  intros Hpl. unfold clear_screen. wp_step. eapply wp_mono; [apply clear_paints, Hpl|]. intros f [Hf Hp]. wp_step.
  destruct Hpl. split; [split; [by split; try apply Hf|]|done..]. intros x y Hv. cbn in *. rewrite Hp; [by f_equal|].
  by apply (same_frame_visible (fb w) f).
Qed.

Lemma clear_screen_shows w s : drawn w s → wp (clear_screen w) (redrawn w (wipe s)).
Proof. intros Hd. apply clear_screen_placed, Hd. Qed.

Lemma new_line_shows w s : drawn w s → wp (new_line w) (redrawn w (next_line (height (fb w)) s)).
Proof.
  intros Hd. pose proof (dr_placed _ _ Hd) as []. pose proof (fb_height _ pl_ok0). unfold new_line. rewrite pl_y0. wp_steps. cbn [y_pos set_pos fb height].
  wp_step. unfold next_line. replace (8 * (row s + 1) + 8) with (8 * row s + 8 + 8) by lia. destruct (Z.leb_spec (height (fb w)) (8 * row s + 8 + 8)).
  - eapply wp_mono; [apply (clear_screen_shows _ (at_cell s 0 0))|].
    + apply (re_drawn w). apply (drawn_move w s 0 0); [done|lia|lia].
    + intros w' Hw'. eapply redrawn_trans; [apply (drawn_move w s 0 0); [done|lia|lia]|done].
  - wp_step. replace (8 * row s + 8) with (8 * (row s + 1)) by lia. apply (drawn_move w s 0); [done|lia|lia].
Qed.

Lemma wrap_line_shows w s : drawn w s →
  wp (if width (fb w) <=? 8 * col s + 8 then new_line w else Ret w)
    (λ w', redrawn w (wrap_line (width (fb w)) (height (fb w)) s) w' ∧ 8 * col (wrap_line (width (fb w)) (height (fb w)) s) + 8 < 2 ^ 32).
Proof.
  intros Hd. pose proof (dr_placed _ _ Hd) as []. pose proof (fb_width _ pl_ok0) as Hwd. unfold wrap_line.
  destruct (Z.leb_spec (width (fb w)) (8 * col s + 8)).
  - eapply wp_mono; [by apply new_line_shows|]. intros w' Hw'. split; [done|]. unfold next_line. case_match; cbn; lia.
  - wp_step. split; [by apply redrawn_refl|lia].
Qed.

Lemma print_char_shows w s byte : drawn w s →
  wp (print_char w byte) (redrawn w (apply_command (width (fb w)) (height (fb w)) s (Put byte))).
Proof.
  intros Hd. pose proof (dr_placed _ _ Hd) as []. unfold print_char. rewrite pl_x0. wp_steps. cbn [apply_command].
  eapply wp_mono; [by apply wrap_line_shows|]. set (s1 := wrap_line _ _ _). intros w1 [Hw1 Hc].
  pose proof (re_drawn _ _ _ Hw1) as Hd1. pose proof (dr_placed _ _ Hd1) as [o1 x1 y1 c1 r1 f1 b1].
  wp_step. eapply wp_mono; [apply draw_char_paints; [done|lia..]|]. intros f Hf. wp_step. cbn [x_pos y_pos set_fb]. rewrite x1. wp_steps.
  cbn [y_pos set_fb]. rewrite y1. replace (8 * col s1 + 8) with (8 * (col s1 + 1)) by lia.
  assert (redrawn w1 (put_cell s1 (Glyph byte (s_fg s1) (s_bg s1))) (set_fb w1 f)) as Hg.
  { eapply drawn_cell; [done|done|]. intros x y Hx Hy. cbn. rewrite f1, b1, x1, y1, <- Hx, <- Hy. f_equal; rewrite Z.mod_eq; lia. }
  eapply redrawn_trans; [done|]. eapply redrawn_trans; [apply Hg|].
  apply (drawn_move (set_fb w1 f) (put_cell s1 _) (col s1 + 1) (row s1)); [apply (re_drawn w1), Hg|lia|lia].
Qed.

Lemma backspace_shows w s : drawn w s →
  wp (backspace w) (redrawn w (apply_command (width (fb w)) (height (fb w)) s Back)).
Proof.
  intros Hd. pose proof (dr_placed _ _ Hd) as []. pose proof (fb_width _ pl_ok0) as Hwd. unfold backspace. cbn [apply_command].
  set (s1 := if 1 <=? col s then _ else _). wp_step. eapply (wp_mono _ (redrawn w s1)).
  - rewrite pl_x0, pl_y0. pose proof (Z.mod_pos_bound (width (fb w)) 8). pose proof (Z.div_mod (width (fb w)) 8). unfold s1.
    destruct (Z.leb_spec 8 (8 * col s)), (Z.leb_spec 1 (col s)); try lia; [wp_steps|].
    { replace (8 * col s - 8) with (8 * (col s - 1)) by lia. apply drawn_move; [done|lia|lia]. }
    destruct (Z.leb_spec 8 (8 * row s)), (Z.leb_spec 1 (row s)); try lia; wp_steps; [|by apply redrawn_refl].
    replace (8 * row s - 8) with (8 * (row s - 1)) by lia.
    replace (width (fb w) - width (fb w) mod 8 - 8) with (8 * (width (fb w) / 8 - 1)) by lia. apply drawn_move; [done|lia|lia].
  - intros w1 Hw1. pose proof (re_drawn _ _ _ Hw1) as Hd1. pose proof (dr_placed _ _ Hd1) as [o1 x1 y1 c1 r1 f1 b1].
    wp_step. eapply wp_mono; [apply fill_rect_paints; [done|lia..]|]. intros f Hf. wp_step. eapply redrawn_trans; [done|].
    eapply drawn_cell; [done|done|]. intros x y _ _. done.
Qed.

Lemma parsing_param w p i : parsing w p → 0 ≤ i < 4 → vget (ansi_params w) i = Ret (arg (p_args p) (Z.to_nat i)).
Proof.
  intros [_ Hp _ Hm _ _ _] Hi. unfold vget, arg. rewrite Hp, nth_lookup.
  destruct (decide (Z.to_nat i < length (p_args p))%nat) as [Hlt|Hge].
  - rewrite lookup_app_l by done. apply lookup_lt_is_Some_2 in Hlt as [v ->]. done.
  - rewrite lookup_app_r, lookup_replicate_2 by lia. by rewrite lookup_ge_None_2 by lia.
Qed.

Lemma parsing_arg w p i : parsing w p → 0 ≤ arg (p_args p) i < 2 ^ 32.
Proof.
  intros [_ _ _ _ Ha _ _]. unfold arg. rewrite nth_lookup. destruct (p_args p !! i) eqn:E; [|done].
  by eapply Forall_lookup_1 in Ha.
Qed.

Lemma drawn_colors w s f b : drawn w s → redrawn w (mkScreen (cells s) (col s) (row s) f b) (set_colors w f b).
Proof. intros [[] Hpx]. split; [|by apply same_frame_refl|done..]. by split. Qed.

Lemma sgr_shows w s p i : drawn w s → parsing w p → 0 ≤ i < 4 →
  wp (sgr w i) (redrawn w (sgr_arg s (arg (p_args p) (Z.to_nat i)))).
Proof.
  intros Hd Hpa Hi. pose proof (dr_placed _ _ Hd) as []. unfold sgr, sgr_arg. rewrite (parsing_param w p) by done. wp_step. cbn.
  set (v := arg _ _). assert (∀ j, 0 ≤ j < 8 → vget ANSI_COLORS j = Ret (nth (Z.to_nat j) ANSI_COLORS BG_DEFAULT)) as Hcol.
  { intros j Hj. assert (j ∈ [0; 1; 2; 3; 4; 5; 6; 7]) as Hin by (rewrite !elem_of_cons; lia). by repeat (apply elem_of_cons in Hin as [-> |Hin]; [done|]); apply elem_of_nil in Hin. }
  case_match; [wp_step; by apply drawn_colors|]. case_match eqn:E30.
  { rewrite Hcol by lia. cbn [obind]. wp_step. rewrite pl_bg0. by apply drawn_colors. }
  case_match eqn:E40; [|wp_step; by apply redrawn_refl].
  rewrite Hcol by lia. cbn [obind]. wp_step. rewrite pl_fg0. by apply drawn_colors.
Qed.

Lemma sgrs_show w s p : drawn w s → parsing w p →
  wp (each_range 0 (ansi_param_idx w) (λ i w, sgr w i) w) (redrawn w (fold_left sgr_arg (p_args p) s)).
Proof.
  intros Hd Hpa. pose proof Hpa as [_ _ Hi Hm _ _ _]. rewrite Hi.
  eapply wp_mono; [apply (wp_each_range (λ i, redrawn w (fold_left sgr_arg (take (Z.to_nat i) (p_args p)) s)))|].
  - by apply redrawn_refl.
  - intros i w' Hii Hr. eapply wp_mono; [apply sgr_shows; [apply Hr|by eapply redrawn_parsing|lia]|]. intros w2 Hr2.
    eapply redrawn_trans; [done|]. destruct (lookup_lt_is_Some_2 (p_args p) (Z.to_nat i)) as [v Hv]; [lia|].
    rewrite Z2Nat.inj_add, Nat.add_1_r, (take_S_r _ _ v), fold_left_app by (done || lia). cbn. unfold arg in Hr2. by rewrite nth_lookup, Hv in Hr2.
  - cbv beta. intros w'. rewrite Z.max_r, Nat2Z.id, firstn_all by lia. done.
Qed.

Lemma erase_right_shows w s : drawn w s →
  wp (f <- fill_rect (fb w) (x_pos w) (y_pos w) (sat_sub (width (fb w)) (x_pos w)) 8 (bg_color w);; Ret (set_fb w f))
    (redrawn w (apply_command (width (fb w)) (height (fb w)) s EraseRight)).
Proof.
  intros Hd. pose proof (dr_placed _ _ Hd) as []. pose proof (fb_width _ pl_ok0) as Hwd. unfold sat_sub.
  wp_step. eapply wp_mono; [apply fill_rect_paints; [done|lia..]|]. intros f Hf. wp_step. eapply drawn_paint; [done| |done|]; [done|].
  intros x y [Hx Hy]. unfold screen_color. cbn. replace (in_rect _ _ _ _ x y) with ((col s <=? x / 8) && (y / 8 =? row s)).
  - case_match; cbn; [done|done].
  - apply eq_true_iff_eq. rewrite in_rect_true, andb_true_iff, Z.leb_le, Z.eqb_eq.
    pose proof (Z.div_mod x 8). pose proof (Z.mod_pos_bound x 8). pose proof (Z.div_mod y 8). pose proof (Z.mod_pos_bound y 8). lia.
Qed.

Lemma goto_shows w s p : drawn w s → parsing w p →
  wp (execute_ansi_cmd w 72) (redrawn w (apply_command (width (fb w)) (height (fb w)) s (Goto (arg (p_args p) 0) (arg (p_args p) 1)))).
Proof.
  intros Hd Hpa. pose proof (parsing_arg w p 0 Hpa). pose proof (parsing_arg w p 1 Hpa). unfold execute_ansi_cmd. cbn [Z.eqb Pos.eqb apply_command].
  rewrite !(parsing_param w p) by (done || lia). cbn [obind].
  change (Z.to_nat 0) with 0%nat. change (Z.to_nat 1) with 1%nat.
  assert (∀ v, 0 ≤ v < 2 ^ 32 → (if 0 <? v then usub 64 v 1 else Ret 0) = Ret (Z.max 0 (v - 1))) as Hone.
  { intros v Hv. unfold usub. destruct (Z.ltb_spec 0 v); [rewrite checked_ok by lia|]; f_equal; lia. }
  rewrite !Hone by done. cbn [obind]. wp_steps.
  rewrite !(Z.mul_comm _ 8). apply drawn_move; [done|lia|lia].
Qed.

Lemma execute_ansi_cmd_shows w s p cmd : drawn w s → parsing w p →
  wp (execute_ansi_cmd w cmd) (redrawn w (fold_left (apply_command (width (fb w)) (height (fb w))) (csi cmd (p_args p)) s)).
Proof.
  intros Hd Hpa. destruct (Z.eqb_spec cmd 72) as [->|Hne]; [by apply goto_shows|]. unfold execute_ansi_cmd, csi. rewrite !(parsing_param w p) by (done || lia). cbn [obind].
  destruct (cmd =? 109); [by apply sgrs_show|]. destruct (cmd =? 74).
  { change (Z.to_nat 0) with 0%nat. case_match; [|wp_step; by apply redrawn_refl]. wp_step. eapply wp_mono; [by apply clear_screen_shows|].
    intros w' Hw'. wp_step. eapply redrawn_trans; [done|]. apply (drawn_move w' (wipe s) 0 0); [apply Hw'|lia|lia]. }
  rewrite (proj2 (Z.eqb_neq cmd 72)) by done. destruct (cmd =? 75); [|wp_step; by apply redrawn_refl].
  eapply wp_bind, (wp_mono _ (λ m, m = arg (p_args p) 0)).
  - destruct (Z.ltb_spec 0 (ansi_param_idx w)); wp_step; [done|]. destruct Hpa as [_ _ Hi _ _ _ _]. by destruct (p_args p); [|cbn in Hi; lia].
  - intros m ->. case_match; [by apply erase_right_shows|wp_step; by apply redrawn_refl].
Qed.

(** The writer shows a screen and is at a point of the parser, and nothing but
    visible pixels changed since [w]. *)
Record advanced w (ps : parser * screen) w' : Prop := {
  ad_parsing : parsing w' ps.1;
  ad_drawn : drawn w' ps.2;
  ad_frame : same_frame (fb w) (fb w');
}.

Lemma advanced_redrawn w s p w' : parsing w p → redrawn w s w' → advanced w (p, s) w'.
Proof. intros Hpa Hr. split; [by eapply redrawn_parsing|apply Hr|apply Hr]. Qed.

Lemma advanced_trans w1 ps2 w2 ps3 w3 : advanced w1 ps2 w2 → advanced w2 ps3 w3 → advanced w1 ps3 w3.
Proof. intros [_ _ f1] [p d f2]. split; [done|done|by eapply same_frame_trans]. Qed.

(** The parser fields are set. *)
Lemma advanced_set w s p l i v : drawn w s → parsing (set_params (set_state w (p_state p)) l i v) p →
  advanced w (p, s) (set_params (set_state w (p_state p)) l i v).
Proof. intros [[] Hpx] Hpa. split; [done| |by apply same_frame_refl]. by split. Qed.

Lemma push_arg_ok args v : (length args ≤ 4)%nat → Forall (λ v, 0 ≤ v < 2 ^ 32) args → 0 ≤ v < 2 ^ 32 →
  (length (push_arg args v) ≤ 4)%nat ∧ Forall (λ v, 0 ≤ v < 2 ^ 32) (push_arg args v).
Proof.
  intros Hl Ha Hv. unfold push_arg. case_match eqn:E; [|done]. apply Nat.ltb_lt in E. rewrite length_app, Forall_app. cbn. split; [lia|].
  split; [done|by constructor].
Qed.

Lemma store_param_shows w s p : drawn w s → parsing w p →
  wp (store_param w) (advanced w (mkParser (p_state p) (push_arg (p_args p) (p_val p)) (p_val p), s)).
Proof.
  intros Hd Hpa. pose proof Hpa as [Hst Hpp Hi Hm Ha Hval Hu]. pose proof (push_arg_ok _ _ Hm Ha Hu) as [Hl' Ha'].
  unfold store_param, push_arg in *. rewrite Hi in *. destruct (Nat.ltb_spec (length (p_args p)) 4) as [Hlt|Hge].
  - rewrite (proj2 (Z.ltb_lt _ _)) by lia. wp_step. apply wp_vset; [rewrite Hpp, length_app, length_replicate; lia|]. wp_steps.
    rewrite Nat2Z.id. change (set_params w) with (set_params (set_state w (ansi_state w))). rewrite Hst. apply (advanced_set w s (mkParser (p_state p) _ _)); [done|].
    split; cbn; try done; [|rewrite length_app; cbn; lia].
    rewrite Hpp, Hval, length_app. cbn. replace (4 - length (p_args p))%nat with (S (4 - (length (p_args p) + 1)))%nat by lia.
    cbn [replicate]. by rewrite <- app_assoc, insert_app_r_alt, Nat.sub_diag by lia.
  - rewrite (proj2 (Z.ltb_ge _ _)) by lia. wp_step. by split; [|done|apply same_frame_refl, Hd].
Qed.

Lemma write_byte_shows w ps byte : parsing w ps.1 → drawn w ps.2 →
  wp (write_byte w byte) (advanced w (interpret (width (fb w)) (height (fb w)) ps byte)).
Proof.
  destruct ps as [p s]. cbn [fst snd]. intros Hpa Hd. pose proof Hpa as [Hst Hpp Hi Hm Ha Hval Hu]. unfold write_byte, interpret, parse. cbn [fst snd]. rewrite Hst.
  destruct (p_state p) eqn:Ep.
  - destruct (byte =? 27).
    { wp_step. apply (advanced_set w s (mkParser Escape (p_args p) (p_val p)) (ansi_params w)); [done|]. by split. }
    destruct (byte =? 10); [eapply wp_mono; [by apply new_line_shows|intros; by apply advanced_redrawn]|].
    destruct (byte =? 13).
    { wp_step. apply advanced_redrawn; [done|]. destruct (dr_placed _ _ Hd) as [_ _ -> _ Hrow _ _]. apply (drawn_move w s 0); [done|lia|done]. }
    destruct (byte =? 8); [eapply wp_mono; [by apply backspace_shows|intros; by apply advanced_redrawn]|].
    case_match; [eapply wp_mono; [by apply print_char_shows|intros; by apply advanced_redrawn]|].
    wp_step. by apply advanced_redrawn, redrawn_refl.
  - case_match; wp_step.
    + apply (advanced_set w s (mkParser Csi [] 0) [0; 0; 0; 0]); [done|]. split; cbn; first [done|lia|constructor].
    + apply (advanced_set w s (mkParser Normal (p_args p) (p_val p)) (ansi_params w)); [done|]. by split.
  - case_match eqn:Edig.
    { wp_step. change (set_params w) with (set_params (set_state w (ansi_state w))). rewrite Hst.
      apply (advanced_set w s (mkParser Csi (p_args p) _)); [done|]. pose proof (Z.mod_pos_bound (p_val p * 10 + (byte - 48)) (2 ^ 32)).
      split; cbn [p_state p_args p_val ansi_state ansi_params ansi_param_idx ansi_current_val set_params set_state]; try done; [|lia].
      rewrite Hval. unfold wrap. by rewrite Zplus_mod_idemp_l. }
    destruct (push_arg_ok _ _ Hm Ha Hu) as [Hl' Ha']. case_match.
    + wp_step. eapply wp_mono; [by apply store_param_shows|]. intros w1 Hw1. wp_step. eapply advanced_trans; [done|].
      destruct Hw1 as [[s1 p1 i1 m1 a1 v1 u1] d1 _]. cbn in *. change (set_params w1) with (set_params (set_state w1 (ansi_state w1))). rewrite s1, Ep.
      apply (advanced_set w1 s (mkParser Csi _ 0)); [done|]. by split.
    + wp_step. eapply wp_mono; [by apply store_param_shows|]. intros w1 [p1 d1 f1]. cbn [fst snd] in *. wp_step.
      eapply wp_mono; [by apply execute_ansi_cmd_shows|]. intros w2 Hw2. cbn [p_args]. rewrite (sf_width _ _ f1), (sf_height _ _ f1) in Hw2. wp_step.
      pose proof (redrawn_parsing _ _ _ _ Hw2 p1) as [s2 p2 i2 m2 a2 v2 u2]. destruct Hw2 as [[[] dx2] f2 _ _ _ _]. cbn in *.
      split; [by split|by split|by eapply same_frame_trans].
Qed.

Lemma write_str_shows w ps bytes : parsing w ps.1 → drawn w ps.2 →
  wp (write_str w bytes) (advanced w (fold_left (interpret (width (fb w)) (height (fb w))) bytes ps)).
Proof.
  intros Hpa Hd. unfold write_str.
  apply (wp_mfold (λ read, advanced w (fold_left (interpret (width (fb w)) (height (fb w))) read ps)) write_byte bytes []).
  - split; [done|done|apply same_frame_refl, Hd].
  - intros read byte w' Hw' _. eapply wp_mono; [apply write_byte_shows; apply Hw'|]. intros w2 Hw2.
    rewrite (sf_width _ _ (ad_frame _ _ _ Hw')), (sf_height _ _ (ad_frame _ _ _ Hw')) in Hw2.
    rewrite fold_left_app. by eapply advanced_trans.
Qed.

(** The cursor bar. *)
Lemma underline_shows w s c : drawn w s →
  wp (y <- uadd 64 (y_pos w) 6;; f <- fill_rect (fb w) (x_pos w) y 8 2 c;; Ret (set_fb w f)) (redrawn w (underline c s)).
Proof.
  intros Hd. pose proof (dr_placed _ _ Hd) as []. wp_steps. eapply wp_mono; [apply fill_rect_paints; [done|lia..]|]. intros f Hf. wp_step.
  eapply drawn_paint; [done|by split|done|]. intros x y [Hx Hy]. unfold screen_color, underline, put_cell. cbn [cells].
  pose proof (Z.div_mod x 8). pose proof (Z.mod_pos_bound x 8). pose proof (Z.div_mod y 8). pose proof (Z.mod_pos_bound y 8).
  destruct (in_rect _ _ _ _ x y) eqn:E.
  - apply in_rect_true in E. rewrite (proj2 (Z.eqb_eq (x / 8) _)), (proj2 (Z.eqb_eq (y / 8) (row s))) by lia. cbn.
    by rewrite (proj2 (Z.ltb_ge (y mod 8) 6)) by lia.
  - apply not_true_iff_false in E. rewrite in_rect_true in E. destruct (Z.eqb_spec (x / 8) (col s)) as [Hc|], (Z.eqb_spec (y / 8) (row s)) as [Hr|]; cbn; [|done..].
    rewrite <- Hc, <- Hr. by rewrite (proj2 (Z.ltb_lt (y mod 8) 6)) by lia.
Qed.

Lemma print_shows w ps bytes : parsing w ps.1 → drawn w ps.2 →
  wp (_print (Some w) bytes) (λ r, ∃ w', r = Some w' ∧ advanced w (print_text (width (fb w)) (height (fb w)) ps bytes) w').
Proof.
  intros Hpa Hd. cbn [_print]. wp_step. unfold erase_cursor. eapply wp_mono; [by apply underline_shows|]. intros w1 Hw1.
  pose proof (advanced_redrawn _ _ _ _ Hpa Hw1) as A1. wp_step. rewrite (pl_bg _ _ (dr_placed _ _ Hd)) in A1.
  eapply wp_mono; [by apply (write_str_shows w1 (ps.1, underline (s_bg ps.2) ps.2)); apply A1|]. intros w2 A2. wp_step.
  rewrite (sf_width _ _ (ad_frame _ _ _ A1)), (sf_height _ _ (ad_frame _ _ _ A1)) in A2. unfold draw_cursor.
  eapply wp_mono; [apply underline_shows, A2|]. intros w3 Hw3. wp_step. exists w3. split; [done|].
  eapply advanced_trans; [done|]. eapply advanced_trans; [done|]. apply advanced_redrawn; [apply A2|done].
Qed.

(** The state after [init]. *)
Lemma display_init_shows mem wd ht pt bpp rest : fb_ok (FrameBuffer_new mem wd ht pt bpp) →
  wp (display_init ((mem, wd, ht, pt, bpp) :: rest)) (λ r, ∃ w, r = Some w ∧ parsing w boot_screen.1 ∧ drawn w boot_screen.2
    ∧ same_frame (FrameBuffer_new mem wd ht pt bpp) (fb w)).
Proof.
  intros Hok. cbn [display_init]. wp_step. eapply wp_mono; [by apply clear_paints|]. intros f [Hf _]. wp_steps. unfold Writer_new.
  set (w0 := mkWriter _ _ _ _ _ _ _ _ _). assert (fb w0 = f) as Hfb.
  { destruct Hf as [e1 e2 e3 e4 _ _]. destruct f. cbn in *. unfold FrameBuffer_new. congruence. }
  set (s0 := mkScreen (λ _ _, Blank BG_DEFAULT) 0 0 FG_DEFAULT BG_DEFAULT).
  assert (parsing w0 boot_screen.1) as Hpa by (split; cbn; first [done|lia|constructor]).
  wp_step. eapply wp_mono; [apply (clear_screen_placed w0 s0); split; [rewrite Hfb; apply Hf|done..]|]. intros w1 Hw1.
  unfold draw_cursor. eapply wp_mono; [apply underline_shows, Hw1|]. intros w2 Hw2. wp_step. exists w2.
  pose proof (redrawn_trans _ _ _ _ _ Hw1 Hw2) as Hr. split; [done|]. split; [by eapply redrawn_parsing|]. split; [apply Hr|].
  rewrite <- Hfb in Hf. eapply same_frame_trans; [done|apply Hr].
Qed.

Lemma prints_show w ps texts : parsing w ps.1 → drawn w ps.2 →
  wp (mfold _print (Some w) texts) (λ r, ∃ w', r = Some w' ∧ advanced w (fold_left (print_text (width (fb w)) (height (fb w))) texts ps) w').
Proof.
  intros Hpa Hd.
  apply (wp_mfold (λ read r, ∃ w', r = Some w' ∧ advanced w (fold_left (print_text (width (fb w)) (height (fb w))) read ps) w') _print texts []).
  - exists w. split; [done|]. split; [done|done|apply same_frame_refl, Hd].
  - intros read text r (w' & -> & Hw') _. eapply wp_mono; [apply print_shows; apply Hw'|]. intros r2 (w2 & -> & Hw2). exists w2. split; [done|].
    rewrite (sf_width _ _ (ad_frame _ _ _ Hw')), (sf_height _ _ (ad_frame _ _ _ Hw')) in Hw2. rewrite fold_left_app. by eapply advanced_trans.
Qed.

(** C26: After [init] on a framebuffer that holds its scan lines, any sequence of
    printed texts, whatever their bytes, is written without a panic; every visible
    pixel then has the colour that the text screen shows there (characters, colours,
    line wrapping, backspace, erasing, cursor addressing and cursor bar as described
    by [interpret]), and no byte outside the visible pixels has changed. *)
Theorem display_shows mem wd ht pt bpp rest texts : fb_ok (FrameBuffer_new mem wd ht pt bpp) →
  wp (w <- display_init ((mem, wd, ht, pt, bpp) :: rest);; mfold _print w texts) (λ r, ∃ w, r = Some w
    ∧ same_frame (FrameBuffer_new mem wd ht pt bpp) (fb w)
    ∧ ∀ x y, 0 ≤ x < wd → 0 ≤ y < ht → pixel (fb w) x y = Some (screen_color (fold_left (print_text wd ht) texts boot_screen).2 x y)).
Proof.
  intros Hok. wp_step. eapply wp_mono; [by apply display_init_shows|]. intros r (w & -> & Hpa & Hd & Hf). cbv beta.
  eapply wp_mono; [by apply prints_show|]. intros r2 (w2 & -> & Hw2). exists w2. split; [done|].
  rewrite (sf_width _ _ Hf), (sf_height _ _ Hf) in Hw2. cbn [width height FrameBuffer_new] in Hw2. pose proof (same_frame_trans _ _ _ Hf (ad_frame _ _ _ Hw2)) as Hf2.
  split; [done|]. intros x y Hx Hy. apply Hw2. by apply (same_frame_visible _ _ x y Hf2).
Qed.

(** ** ANSI sequences *)

Definition number (ds : list Z) : Z := fold_left (λ v d, v * 10 + d) ds 0.

Fixpoint separated (args : list (list Z)) : list Z :=
  match args with
  | [] => []
  | [ds] => map (Z.add 48) ds
  | ds :: rest => map (Z.add 48) ds ++ [59] ++ separated rest
  end.

(** Escape, bracket, the arguments in decimal, the command. *)
Definition ansi_sequence (args : list (list Z)) (cmd : Z) : list Z := [0x1B; 91] ++ separated args ++ [cmd].

Lemma interpret_digits wd ht args s ds : Forall (λ d, 0 ≤ d ≤ 9) ds → ∀ v,
  fold_left (interpret wd ht) (map (Z.add 48) ds) (mkParser Csi args (v mod 2 ^ 32), s)
  = (mkParser Csi args (fold_left (λ v d, v * 10 + d) ds v mod 2 ^ 32), s).
Proof.
  induction 1 as [|d ds Hd Hds IH]; intros v; [done|]. cbn [map fold_left]. unfold interpret at 2, parse. cbn [fst snd p_state p_args p_val].
  rewrite (proj2 (Z.leb_le 48 _)), (proj2 (Z.leb_le _ 57)) by lia. cbn [andb fold_left].
  replace (v mod 2 ^ 32 * 10 + (48 + d - 48)) with (v mod 2 ^ 32 * 10 + d) by lia.
  rewrite <- Zplus_mod_idemp_l, Zmult_mod_idemp_l, Zplus_mod_idemp_l. apply IH.
Qed.

Lemma interpret_separated wd ht s cmd args : args ≠ [] → Forall (Forall (λ d, 0 ≤ d ≤ 9)) args → ¬ 48 ≤ cmd ≤ 57 → cmd ≠ 59 → ∀ before, ∃ v,
  fold_left (interpret wd ht) (separated args ++ [cmd]) (mkParser Csi before 0, s)
  = let args := fold_left push_arg (map (λ ds, number ds mod 2 ^ 32) args) before in
    (mkParser Normal args v, fold_left (apply_command wd ht) (csi cmd args) s).
Proof.
  intros Hne Hds Hc1 Hc2. induction Hds as [|ds args Hds Hargs IH]; [done|]. intros before.
  assert (∀ q, fold_left (interpret wd ht) (map (Z.add 48) ds ++ q) (mkParser Csi before 0, s)
    = fold_left (interpret wd ht) q (mkParser Csi before (number ds mod 2 ^ 32), s)) as Hone.
  { intros q. rewrite fold_left_app. pose proof (interpret_digits wd ht before s ds Hds 0) as Hz. change (0 mod 2 ^ 32) with 0 in Hz. by rewrite Hz. }
  destruct args as [|ds2 args].
  - cbn [separated]. rewrite Hone. cbn [fold_left map]. unfold interpret, parse. cbn [fst snd p_state p_args p_val].
    replace ((48 <=? cmd) && (cmd <=? 57)) with false by lia. rewrite (proj2 (Z.eqb_neq cmd 59)) by done. by eexists.
  - destruct (IH ltac:(done) (push_arg before (number ds mod 2 ^ 32))) as [v Hv]. exists v. change (separated (ds :: ds2 :: args))
      with (map (Z.add 48) ds ++ [59] ++ separated (ds2 :: args)). rewrite <- app_assoc, Hone. apply Hv.
Qed.

Lemma push_args l : ∀ before, (length before ≤ 4)%nat → fold_left push_arg l before = take 4 (before ++ l).
Proof.
  induction l as [|v l IH]; intros before Hb; cbn [fold_left]; [by rewrite app_nil_r, take_ge|]. unfold push_arg at 2.
  destruct (Nat.ltb_spec (length before) 4).
  - rewrite IH by (rewrite length_app; cbn; lia). by rewrite <- app_assoc.
  - rewrite IH by done. by rewrite !take_app_le, !take_ge by lia.
Qed.

Lemma interpret_sequence wd ht p s args cmd : p_state p = Normal → args ≠ [] → Forall (Forall (λ d, 0 ≤ d ≤ 9)) args →
  ¬ 48 ≤ cmd ≤ 57 → cmd ≠ 59 → ∃ p',
  fold_left (interpret wd ht) (ansi_sequence args cmd) (p, s)
  = (p', fold_left (apply_command wd ht) (csi cmd (take 4 (map (λ ds, number ds mod 2 ^ 32) args))) s) ∧ p_state p' = Normal.
Proof.
  intros Hp Hne Hds Hc1 Hc2. destruct (interpret_separated wd ht s cmd args Hne Hds Hc1 Hc2 []) as [v Hv]. unfold ansi_sequence. cbn [app fold_left].
  assert (interpret wd ht (p, s) 27 = (mkParser Escape (p_args p) (p_val p), s)) as ->.
  { unfold interpret, parse. cbn [fst snd]. by rewrite Hp. }
  change (interpret wd ht (mkParser Escape (p_args p) (p_val p), s) 91) with (mkParser Csi [] 0, s).
  rewrite Hv, push_args by (cbn; lia). by eexists.
Qed.

(** An ANSI control sequence whose arguments are written in decimal is executed
    with the numbers they denote: modulo 2^32, and with the first four when there
    are more; the screen changes as the command says and the terminal is back in
    its normal state. *)
Theorem ansi_sequence_runs w s args cmd : drawn w s → (∃ p, parsing w p ∧ p_state p = Normal) → args ≠ [] →
  Forall (Forall (λ d, 0 ≤ d ≤ 9)) args → ¬ 48 ≤ cmd ≤ 57 → cmd ≠ 59 →
  wp (write_str w (ansi_sequence args cmd)) (λ w', ansi_state w' = Normal ∧ same_frame (fb w) (fb w')
    ∧ drawn w' (fold_left (apply_command (width (fb w)) (height (fb w))) (csi cmd (take 4 (map (λ ds, number ds mod 2 ^ 32) args))) s)).
Proof.
  intros Hd (p & Hpa & Hp) Hne Hds Hc1 Hc2. eapply wp_mono; [by apply (write_str_shows w (p, s))|]. intros w' [pa' d' f'].
  destruct (interpret_sequence (width (fb w)) (height (fb w)) p s args cmd Hp Hne Hds Hc1 Hc2) as (p' & Hv & Hn). rewrite Hv in pa', d'.
  split; [|done]. rewrite (pa_state _ _ pa'). done.
Qed.
End Shows.

(** ** A sample display *)
Module DisplaySample.

#[local] Instance sample_profile : Profile := true.
(** Every row of a glyph is the byte itself. *)
#[local] Instance sample_font : Font := λ b, Some (replicate 8 b).
#[local] Instance sample_font_spec : FontSpec.
Proof. intros b g [= <-]. done. Qed.

Definition sample_mem : gmap Z Z := map_seqZ 0 (replicate (24 * 72) 7).

Lemma sample_fb_ok : fb_ok (FrameBuffer_new sample_mem 24 24 72 24).
Proof.
  split; cbn [FrameBuffer_new width height pitch bytes_per_pixel fb_mem]; change (24 / 8) with 3; [lia..|].
  intros o Ho. apply lookup_map_seqZ_is_Some. rewrite length_replicate. lia.
Qed.

(** A letter, then a letter in red: the pixels of the second cell. *)
Lemma display_shows_witness :
  wp (w <- display_init [(sample_mem, 24, 24, 72, 24)];; mfold _print w [[65]; [0x1B; 91; 51; 49; 109; 66]])
    (λ r, ∃ w, r = Some w ∧ pixel (fb w) 8 0 = Some (0, 0, 0) ∧ pixel (fb w) 9 0 = Some (0, 0, 170)).
Proof.
  eapply wp_mono; [apply (display_shows sample_mem 24 24 72 24 []), sample_fb_ok|].
  intros r (w & -> & _ & Hw). exists w. split; [done|]. rewrite !Hw by lia. vm_compute. done.
Defined.

(** Two decimal arguments set both colours. *)
Lemma ansi_sequence_runs_witness :
  wp (w <- display_init [(sample_mem, 24, 24, 72, 24)];; match w with Some w => write_str w (ansi_sequence [[3; 1]; [4; 2]] 109) | None => Stop Panic end)
    (λ w, fg_color w = (0, 0, 170) ∧ bg_color w = (0, 170, 0)).
Proof.
  apply wp_bind. eapply wp_mono; [apply display_init_shows, sample_fb_ok|]. intros r (w & -> & Hpa & Hd & _). cbv beta iota.
  eapply wp_mono.
  - apply (ansi_sequence_runs w boot_screen.2 [[3; 1]; [4; 2]] 109); [done|by exists boot_screen.1|done| |lia|lia].
    repeat (constructor; try lia).
  - intros w' (_ & _ & [[_ _ _ _ _ -> ->] _]). done.
Defined.
End DisplaySample.
