(* ===== verification/Start.v ===== *)
(** * The entry point ([_start] of src/src/main.rs)

    The bring-up as one program: the components of the other files in the order
    [_start] runs them, on one record of everything they touch.  The bootloader's
    responses are its input; the log lines of the components themselves are left out,
    as in their files.

    The theorem: from a hand-over of the bootloader, on a machine without a disk
    controller, [_start] reaches its idle loop, and the first tick there enters the
    reaper on a sound machine with the shell queued behind it. *)

From S2P Require Import Prelude KError FrameAlloc Fd X86 Task SyscallEntry TaskManager Critical Scheduler Paging PageTree PageMapper AddrSpace UserMem UserSpace BootMem Keyboard Faults Segments Str Serial Vfs Elf Syscall SyscallFacts Execve Boot Heap Ahci Pci Display.

#[local] Open Scope list_scope.

(** ** The code *)

(** The responses to the Limine requests; a framebuffer is its memory, width, height,
    pitch and bits per pixel, a module its bytes. *)
Record limine := mkLimine {
  base_revision_supported : bool;
  framebuffers : list (gmap Z Z * Z * Z * Z * Z);
  memmap : option (list memmap_entry);
  hhdm : option Z;
  modules : option (list (list Z));
}.

Section Start.
Context `{Profile} `{VirtAddrNew} `{PhysAddrNew} `{EntryOps} `{Mapper}.
Context `{GdtView} `{StarOps} `{Font} `{PortIo D} `{HeapOps HT} `{PciConfig C} `{Hba DV} {V : Type}.

(** Addresses of the kernel image: the two stacks of the task state segment, the
    system-call entry, the trampoline of [task.rs] and the reaper. *)
Record image := mkImage { RSP0_STACK : Z; DF_STACK : Z; syscall_entry_rip : Z; trampoline : Z; reaper_rip : Z }.

(** The statics and the hardware. *)
Record boot := mkBoot {
  b_serial : serial D;                    (* SERIAL1, and the chips behind the ports *)
  b_writer : option Writer;               (* WRITER *)
  b_control : Z * Z * Z;                  (* CR0, CR4, the APIC base *)
  b_segments : segment_state;             (* the processor *)
  b_msrs : option Msrs;                   (* STAR, LSTAR, SFMASK *)
  b_mem : mem;                            (* the frame allocator and the memory *)
  b_heap : guarded HT;                     (* ALLOCATOR *)
  b_pci : pci_io C;
  b_hba : DV;
  b_vfs : vfs V;
  b_machine : machine (node V);           (* TASK_MANAGER, the TSS, CR3 *)
  b_next : Z;                             (* the counter of task ids *)
}.

(** [initialize] and [write_masks] are those of the pic8259 crate, [process_disk] that
    of the disk manager, [fuel] bounds the waits for the serial port and the disk
    controller. *)
Context (initialize : D → D) (write_masks : D → Z → Z → D) (process_disk : world DV → Z → outcome (world DV)).
Context (fuel : nat) (img : image).

Definition println (w : option Writer) (text : str) : outcome (option Writer) := Display._print w (as_bytes (text ++ [10])).

Definition on_device (f : D → D) (s : serial D) : serial D := mkSerial1 (f (Serial.device s)) (SERIAL1 s) (locked s).

(** Lines 72 to 81: the log, the screen, the processor's features. *)
Definition start_console (l : limine) (b : boot) : outcome (serial D * option Writer * (Z * Z * Z)) :=
  s <- serial_println fuel (b_serial b) [[10; 10] ++ lit ">>> [SYSTEM] BOOTING NWIN OS (VFS-FAT32 BUILD) <<< " ++ [10; 10]];;
  if negb (base_revision_supported l) then Stop Panic else
  s <- serial_println fuel s [lit "=== TELEMETRY SUBSYSTEM ONLINE ==="];;
  s <- serial_println fuel s [lit "[OK] COM1 serial port initialised."];;
  w <- display_init (framebuffers l);;
  w <- println w (lit "=== NWIN OS kernel booting ===");;
  let '(cr0, cr4, apic_base) := b_control b in
  w <- println w (lit "[OK] SIMD/SSE coprocessor enabled.");;
  w <- println w (lit "[OK] Local APIC disabled; legacy 8259 PIC routing active.");;
  Ret (s, w, cpu_init cr0 cr4 apic_base).

(** Lines 83 to 86: descriptor table, interrupt table, system-call registers. *)
Definition start_tables (s : serial D) (w : option Writer) (b : boot)
    : outcome (Selectors * TaskStateSegment * segment_state * serial D * Msrs * option Writer) :=
  tss <- TSS (RSP0_STACK img) (DF_STACK img);;
  G <- GDT;;
  seg <- gdt_init G (b_segments b);;
  let s := on_device (idt_init initialize write_masks) s in
  msrs <- syscall_init G.2 (syscall_entry_rip img);;
  w <- println w (lit "[OK] GDT, IDT and Syscall MSRs configured.");;
  Ret (G.2, tss, seg, s, msrs, w).

(** Lines 88 to 94: memory, devices, files, tasks.  The heap gives the two task
    stacks; its use by the collections is not modelled. *)
Definition start_system (l : limine) (sel : Selectors) (c : cpu) (b : boot)
    : outcome (Z * mem * guarded HT * pci_io C * DV * vfs V * TaskManager (node V) * Z * memory) :=
  let* (pml4, m) := mm_init (hhdm l) (memmap l) (cr3 (b_machine b)) (mem_alloc (b_mem b)) (mem_ram (b_mem b)) in
  let* (_, heap) := ALLOCATOR_init (b_heap b) in
  let* (_ahci_base, io, w) := pci_init (ahci_init process_disk fuel (hhdm l) pml4) (b_pci b) (mkWorld (b_hba b) m) in
  v <- init_filesystem (modules l) (b_vfs b);;
  let* (stack1, heap) := reserve_stack heap in
  let* (stack2, heap) := reserve_stack heap in
  let* (t, next, st, m) := init_multitasking (hhdm l) sel (trampoline img) (reaper_rip img) stack1 stack2 pml4 v
                             (tm (b_machine b)) (b_next b) (X86.mem c) (wmem w) in
  Ret (pml4, m, heap, io, dev w, v, t, next, st).

(** [_start] up to its idle loop. *)
Definition start (l : limine) (b : boot) : outcome boot :=
  let* (s, w, control) := start_console l b in
  let* (sel, tss, seg, s, msrs, w) := start_tables s w b in
  let c := s_cpu seg in
  let* (pml4, m, heap, io, hba, v, t, next, st) := start_system l sel c b in
  let s := on_device pit_init s in
  w <- println w (lit "[OK] Interrupts enabled. Handing control to the scheduler...");;
  s <- serial_println fuel s [lit "[MAIN] Boot thread parked on hlt; awaiting PIT tick."];;
  let b' := b_machine b in
  let mach := mkMachine t (privilege_stack_table tss !!! 0%nat) (KERNEL_RSP b') pml4 (BOOT_RSP b') (eois b') in
  Ret (mkBoot s w control (mkSeg (gdtr seg) (with_mem c st) (tr seg) (tss_busy seg)) (Some msrs) m heap io hba v mach next).
End Start.

(** ** The stages *)

(** The chips of the board do not disturb each other: the timer and the interrupt
    controllers are at other ports than the serial port. *)
Class BoardSpec `{PortIo D} (view : D → uart) (max_wait : nat) (tview : D → pit)
    (initialize : D → D) (write_masks : D → Z → Z → D) : Prop := {
  #[global] bd_uart :: UartSpec 0x3F8 view max_wait;
  #[global] bd_pit :: PitSpec tview initialize write_masks;
  bd_uart_kept d port v : port ∈ [0x40; 0x43; 0x80] → view (outb d port v) = view d;
  bd_uart_pic d a b : view (initialize d) = view d ∧ view (write_masks d a b) = view d;
  bd_pit_kept d r v : 0 ≤ r < 8 → tview (outb d (0x3F8 + r) v) = tview d ∧ tview (inb d (0x3F8 + r)).2 = tview d;
}.

Lemma newlines_scalar : Forall scalar [10; 10].
Proof. do 2 (apply Forall_cons; split; [left; lia|]). by apply Forall_nil. Qed.

Section Console.
Context `{HP : Profile} `{HF : FontSpec} `{HB : BoardSpec D view max_wait tview initialize write_masks}.
Context (fuel : nat) (Hfuel : (max_wait < fuel)%nat).
Implicit Types (s : serial D) (w : option Writer).

(** The screen shows a text, or there is none. *)
Definition screen_ok w : Prop := match w with Some w => ∃ ps, parsing w ps.1 ∧ drawn w ps.2 | None => True end.

(** The log works. *)
Definition log_ok s : Prop := SERIAL1 s = Some COM1 ∧ locked s = false ∧ line_up (max_wait := max_wait) (view (Serial.device s)).

Lemma println_ok w text : screen_ok w → wp (println w text) screen_ok.
Proof.
  destruct w as [w|]; [|done]. intros (ps & Hpa & Hd). eapply wp_mono; [exact (print_shows w ps _ Hpa Hd)|]. cbv beta.
  intros r (w' & -> & [Hpa' Hd' _]). by eexists.
Qed.

Lemma serial_println_ok s text : Serial.port_ready (view := view) (max_wait := max_wait) s → locked s = false → Forall scalar text → wp (serial_println fuel s [text]) log_ok.
Proof.
  intros Hp Hl Ht. unfold serial_println. cbn [app]. eapply wp_mono; [apply (print_ok fuel Hfuel s [text; [10]] Hp Hl)|].
  - constructor; [exact Ht|]. constructor; [|constructor]. constructor; [|constructor]. left. lia.
  - intros s' (Hs & Hl' & Hu & _). exact (conj Hs (conj Hl' Hu)).
Qed.

Lemma log_ready s : log_ok s → Serial.port_ready (view := view) (max_wait := max_wait) s ∧ locked s = false.
Proof. intros (E & ? & Hl). unfold Serial.port_ready. rewrite E. split_and!; try done. apply Hl. Qed.

Lemma chips_kept s f : (∀ d, view (f d) = view d) → log_ok s → log_ok (on_device f s).
Proof. intros Hf (E & Hl & Hu). split_and!; [done|done|]. unfold on_device. cbn [Serial.device]. by rewrite Hf. Qed.

Ltac chip_port := apply (bool_decide_unpack _); exact I.

Lemma idt_init_uart d : view (idt_init initialize write_masks d) = view d.
Proof.
  unfold idt_init, io_wait. rewrite bd_uart_kept by chip_port. rewrite (proj2 (bd_uart_pic _ _ _)). rewrite bd_uart_kept by chip_port.
  rewrite (proj1 (bd_uart_pic _ 0 0)). by rewrite !bd_uart_kept by chip_port.
Qed.

Lemma pit_init_uart d : view (pit_init d) = view d.
Proof. unfold pit_init. by rewrite !bd_uart_kept by chip_port. Qed.

Lemma serial_timer s s' text : log_ok s → serial_println fuel s [text] = Ret s' → tview (Serial.device s') = tview (Serial.device s).
Proof.
  intros (E & _) Hp. refine (print_keeps fuel Hfuel (λ d, tview d = tview (Serial.device s)) _ fuel s _ s' E Hp eq_refl).
  intros d r v Hr Hd. destruct (bd_pit_kept d r v Hr) as [-> ->]. done.
Qed.
End Console.

(** What the bootloader hands over, and the state of the statics. *)
Section Boots.
Context `{HP : Profile} `{HE : EntrySpec} `{HV : VirtAddrSpec} `{HA : PhysAddrSpec} (off : Z) `{HM : Mapper} `{HMS : !MapperSpec off}.
Context `{HG : GdtSpec used} `{HW : !GdtView} `{HGS : !GdtViewSpec used} `{HSS : StarSpec} `{HF : FontSpec}.
Context `{HB : BoardSpec D view max_wait tview initialize write_masks}.
Context `{HHS : HeapSpec HT live region} `{HC : PciConfig C} `{HH : Hba DV} {V : Type} `{HN : VNode V}.
Context (process_disk : world DV → Z → outcome (world DV)) (fuel : nat) (Hfuel : (max_wait < fuel)%nat) (img : image).
Implicit Types (b : boot (D := D) (HT := HT) (C := C) (DV := DV) (V := V)) (l : limine).

(** A fresh heap serves the two stacks. *)
Definition heap_serves : Prop := ∃ s1 s2 h1 h2, let h := mkGuarded false false (heap_init heap_empty HEAP_START HEAP_SIZE) in
  reserve_stack h = Ret (Some s1, h1) ∧ reserve_stack h1 = Ret (Some s2, h2).

(** The lower half of the bootloader's space: ordinary tables, no page of ring 3, and
    nothing where the shell goes. *)
Record lower_half (shell : list Z) (cr3 : Z) (r : ram) : Prop := {
  lh_plain a : 0 ≤ a < 2 ^ 47 → plain_path r 3 cr3 a = true;
  lh_kernel a k e : 0 ≤ a < 2 ^ 47 → leaf_walk r 3 cr3 a = Some (k, e) → Z.testbit e 2 = false;
  lh_stack : ¬ segment_page shell SHELL_STACK;
  lh_room a : segment_page shell a ∨ a = SHELL_STACK → mapped r cr3 a = false ∧ ¬ HEAP_START ≤ a < HEAP_START + HEAP_SIZE;
}.

Record handed_over l b (entries : list memmap_entry) (ms : list member) (shell : list Z) : Prop := {
  hd_revision : base_revision_supported l = true;
  hd_screen : match framebuffers l with [] => True | (mem, wd, ht, pt, bpp) :: _ => fb_ok (FrameBuffer_new mem wd ht pt bpp) end;
  hd_memory : memmap l = Some entries ∧ hhdm l = Some off ∧ mem_alloc (b_mem b) = empty
    ∧ handover off entries (cr3 (b_machine b)) (mem_ram (b_mem b));
  hd_lower : lower_half shell (cr3 (b_machine b)) (mem_ram (b_mem b));
  hd_modules : ∃ trail rest, modules l = Some (archive ms trail :: rest) ∧ Forall member_wf ms
    ∧ Z.of_nat (length (archive ms trail)) < 2 ^ 63;
  hd_shell : assoc (lit "shell.elf") ms = Some shell ∧ elf_wf shell;
  hd_serial : Serial.port_ready (view := view) (max_wait := max_wait) (b_serial b) ∧ locked (b_serial b) = false;
  hd_cpu : let sp := regs (s_cpu (b_segments b)) RSP in
    sp mod 8 = 0 ∧ 64 ≤ sp < 2 ^ 64 ∧ (sp ≤ HEAP_START ∨ HEAP_START + HEAP_SIZE ≤ sp - 64) ∧ tss_busy (b_segments b) = false;
  hd_heap : b_heap b = InterruptSafeHeap_empty false;
  hd_tasks : tm (b_machine b) = TaskManager_empty ∧ b_next b = 1;
  hd_image : stack_array (RSP0_STACK img) ∧ stack_array (DF_STACK img) ∧ canonical (syscall_entry_rip img);
  hd_disk : sata_of (config (b_pci b)) = None;
}.

Lemma start_console_ok l b entries ms shell : handed_over l b entries ms shell →
  wp (start_console fuel l b) (λ '(s, w, _), log_ok (view := view) (max_wait := max_wait) s ∧ screen_ok w).
Proof.
  intros Hd. unfold start_console. destruct (hd_serial _ _ _ _ _ Hd) as [Hs Hl]. rewrite (hd_revision _ _ _ _ _ Hd). cbn [negb].
  wp_step. eapply wp_mono; [apply (serial_println_ok fuel Hfuel); [exact Hs|exact Hl|]|cbv beta].
  { apply Forall_app. split; [exact newlines_scalar|]. apply Forall_app. split; [apply lit_scalar|exact newlines_scalar]. }
  intros s1 [Hs1 Hl1]%log_ready. wp_step. eapply wp_mono; [apply (serial_println_ok fuel Hfuel); [exact Hs1|exact Hl1|apply lit_scalar]|cbv beta].
  intros s2 [Hs2 Hl2]%log_ready. wp_step. eapply wp_mono; [apply (serial_println_ok fuel Hfuel); [exact Hs2|exact Hl2|apply lit_scalar]|cbv beta].
  intros s3 Hs3. wp_step. eapply (wp_mono _ screen_ok).
  { pose proof (hd_screen _ _ _ _ _ Hd) as Hfb. destruct (framebuffers l) as [|[[[[mem wd] ht] pt] bpp] rest]; [exact I|].
    eapply wp_mono; [by apply display_init_shows|cbv beta]. intros r (w & -> & Hpa & Hdr & _). by exists boot_screen. }
  intros w0 Hw0. wp_step. eapply wp_mono; [by apply println_ok|cbv beta]. intros w1 Hw1. destruct (b_control b) as [[cr0 cr4] apic].
  wp_step. eapply wp_mono; [by apply println_ok|cbv beta]. intros w2 Hw2. wp_step. eapply wp_mono; [by apply println_ok|cbv beta]. intros w3 Hw3.
  wp_step. exact (conj Hs3 Hw3).
Qed.

(** The tables after [start_tables]. *)
Record tables_ok b (sel : Selectors) (tss : TaskStateSegment) (seg : segment_state) (s : serial D) (msrs : Msrs) (w : option Writer) : Prop := {
  to_selectors : sel = mkSelectors 0x08 0x10 0x23 0x1B 0x28;
  to_tss : tss = mkTss [RSP0_STACK img + TSS_STACK_SIZE; 0; 0] [DF_STACK img + TSS_STACK_SIZE; 0; 0; 0; 0; 0; 0];
  to_segments : cs (s_cpu seg) = 0x08 ∧ ss (s_cpu seg) = 0x10 ∧ (∀ r, segs (s_cpu seg) r = 0x10) ∧ tr seg = 0x28;
  to_cpu : regs (s_cpu seg) = regs (s_cpu (b_segments b)) ∧ X86.mem (s_cpu seg) = X86.mem (s_cpu (b_segments b));
  to_log : log_ok (view := view) (max_wait := max_wait) s;
  to_timer : tview (Serial.device s) = mkPit 0x36 None 11931 (0xFC, 0xFF);
  to_msrs : msrs_fit sel (syscall_entry_rip img) msrs;
  to_screen : screen_ok w;
}.

Lemma start_tables_ok l b entries ms shell s w : handed_over l b entries ms shell → log_ok (view := view) (max_wait := max_wait) s → screen_ok w →
  wp (start_tables initialize write_masks img s w b) (λ '(sel, tss, seg, s', msrs, w'), tables_ok b sel tss seg s' msrs w').
Proof.
  intros Hd Hs Hw. destruct (hd_image _ _ _ _ _ Hd) as (Hr0 & Hdf & Hent). destruct (hd_cpu _ _ _ _ _ Hd) as (_ & _ & _ & Hbusy).
  unfold start_tables. rewrite TSS_stacks by done. cbn [obind]. pose proof (gdt_init_loads (b_segments b) Hbusy) as Hg. pose proof GDT_entries as HG'.
  destruct GDT as [[g sel]|]; [|done]. cbn [obind wp fst snd] in *. destruct HG' as [-> _].
  destruct (gdt_init _ (b_segments b)) as [seg|]; [|done]. cbn [obind wp] in *. destruct Hg as (_ & _ & Hcs & Hss & Hsegs & Htr & _ & (Hr & _ & Hm) & _).
  wp_step. eapply wp_mono; [by apply syscall_init_ok|cbv beta]. intros msrs Hms. wp_step. eapply wp_mono; [by apply println_ok|cbv beta]. intros w' Hw'.
  wp_step. split; try done.
  - apply chips_kept; [apply idt_init_uart|done].
  - apply idt_init_timer.
Qed.

(** The kernel's space before the first task: no page of ring 3, room for the shell. *)
Lemma kernel_space entries shell cr3 r p m : mm_ready off entries cr3 r p m → lower_half shell cr3 r →
  uspace off m p ∅ ∧ shell_room shell m p.
Proof.
  intros Hr [Hpl Hk Hst Hroom]. split.
  - split; [apply Hr|apply Hr|apply views_empty| |].
    + intros a Ha. apply (mr_plain _ _ _ _ _ _ Hr a Ha), Hpl, Ha.
    + intros a k e Ha Hw Hb. exfalso. destruct (decide (HEAP_START ≤ a < HEAP_START + HEAP_SIZE)) as [Hin|Hout].
      * destruct (mr_heap _ _ _ _ _ _ Hr) as (m1 & Hh & _). rewrite (heap_leaf _ _ _ _ _ _ _ Hh Hin Hw) in Hb. done.
      * destruct (mr_same _ _ _ _ _ _ Hr a Ha Hout) as [E _]. rewrite E in Hw. rewrite (Hk a k e Ha Hw) in Hb. done.
  - split; [done|]. intros a Ha. left. destruct (Hroom a Ha) as [Hm Hout].
    destruct (mr_same _ _ _ _ _ _ Hr a) as [_ ->]; [|done|done].
    destruct Ha as [(i & _ & _ & [Hq _] & _)| ->]; [done|unfold SHELL_STACK; lia].
Qed.

(** Fewer frames are free than the kernel's table, the heap and the shell may need. *)
Definition boot_short (entries : list memmap_entry) (shell : list Z) : Prop :=
  ∃ a, init empty (Some entries) (Some off) = Ret a ∧ free_frames a < (1 + 4 * HEAP_PAGES) + (1 + 4 * (elf_pages shell + 1)).

(** The two stacks, from a fresh heap. *)
Lemma two_stacks : heap_serves → ∃ h0, ALLOCATOR_init (InterruptSafeHeap_empty false) = Ret (tt, h0) ∧ ∃ s1 s2 h1 h2,
  reserve_stack h0 = Ret (Some s1, h1) ∧ reserve_stack h1 = Ret (Some s2, h2) ∧ heap_wf (live := live) (region := region) h2
  ∧ (∀ bm c, tm bm = @TaskManager_empty (node V) → (regs c RSP ≤ HEAP_START ∨ HEAP_START + HEAP_SIZE ≤ regs c RSP - 64) →
      fresh_stack bm c s1 ∧ fresh_stack bm c s2)
  ∧ (s1 + STACK_SIZE ≤ s2 ∨ s2 + STACK_SIZE ≤ s1)
  ∧ live (Critical.data h2) !! s1 = Some STACK_SIZE ∧ live (Critical.data h2) !! s2 = Some STACK_SIZE.
Proof.
  intros (s1 & s2 & h1 & h2 & R1 & R2). set (h0 := mkGuarded false false _) in R1.
  assert (ALLOCATOR_init (InterruptSafeHeap_empty false) = Ret (tt, h0)) as E0
    by (unfold ALLOCATOR_init, InterruptSafeHeap_init; by rewrite call_irq_lock).
  exists h0. split; [done|]. pose proof (heap_boot (live := live) (region := region) false) as Hb. rewrite E0 in Hb. destruct Hb as (Hwf0 & _ & Hl0).
  pose proof (reserve_spec h0 Hwf0) as H1'. rewrite R1 in H1'. destruct H1' as (Hwf1 & _ & Hl1 & Hlo1 & Hhi1 & _ & _).
  pose proof (reserve_spec h1 Hwf1) as H2'. rewrite R2 in H2'. destruct H2' as (Hwf2 & _ & Hl2 & Hlo2 & Hhi2 & Hn2 & Hd2).
  assert (live (Critical.data h1) !! s1 = Some STACK_SIZE) as Hs1 by (by rewrite Hl1, lookup_insert_eq).
  exists s1, s2, h1, h2. split_and!; try done.
  - intros bm c Htm Hc. assert (∀ p, HEAP_START ≤ p → p + STACK_SIZE ≤ HEAP_START + HEAP_SIZE → fresh_stack bm c p) as Hf; [|split; by apply Hf].
    intros p Hlo Hhi. apply (heap_fresh (live := live) bm c h0).
    + intros i u Hu. rewrite Htm in Hu. change ((∅ : gmap Z (Task (node V))) !! i = Some u) in Hu. by rewrite lookup_empty in Hu.
    + destruct Hc; [by left|by right; left].
    + done.
    + done.
    + intros b n Hbn. by rewrite Hl0, lookup_empty in Hbn.
  - destruct (Hd2 _ _ Hs1); [by left|by right].
  - rewrite Hl2, lookup_insert_ne; [done|congruence].
  - by rewrite Hl2, lookup_insert_eq.
Qed.

Context (cell_addr : save_cell → Z) (ret_addr : Z) (Hcells : ∀ cell, cell_addr cell ≠ 0).

Lemma start_system_ok l b entries ms shell sel c : handed_over l b entries ms shell → heap_serves →
  regs c RSP = regs (s_cpu (b_segments b)) RSP →
  panics_or (boot_short entries shell) (start_system process_disk fuel img l sel c b) (λ '(pml4, m, heap, io, hba, v, t, next, st),
    find_file v (lit "shell.elf") = Ret (Some shell) ∧ heap_wf (live := live) (region := region) heap
    ∧ ∃ m1, (no_memory shell m1 → boot_short entries shell) ∧ ∀ bm, tm bm = TaskManager_empty →
        booted off sel (trampoline img) (reaper_rip img) shell bm c m1 pml4 t st m ∧ stacks_live (live := live) (set_tm bm t) heap).
Proof.
  intros Hd Hserves Hsp. unfold start_system. destruct (hd_memory _ _ _ _ _ Hd) as (-> & -> & -> & Hho).
  pose proof (mm_init_ok off entries _ _ Hho) as Hmm. destruct (mm_init _ _ _ _ _) as [[p m]|e]; cbn [obind panics_or] in *.
  2: { destruct Hmm as [-> (a & Ha & Hfew)]. split; [done|]. exists a. split; [done|].
       pose proof (elf_pages_nonneg shell (proj2 (hd_shell _ _ _ _ _ Hd))). lia. }
  destruct (kernel_space _ _ _ _ _ _ Hmm (hd_lower _ _ _ _ _ Hd)) as [Hu Hroom].
  rewrite (hd_heap _ _ _ _ _ Hd). destruct (two_stacks Hserves) as (h0 & -> & s1 & s2 & h1 & h2 & R1 & R2 & Hwf & Hfresh & Hdis & Hl1 & Hl2). cbn [obind].
  pose proof (pci_init_starts (ahci_init process_disk fuel (Some off) p) (b_pci b) (mkWorld (b_hba b) m)) as Hpci.
  rewrite (hd_disk _ _ _ _ _ Hd) in Hpci. destruct Hpci as [a ->]. cbn [obind].
  destruct (hd_modules _ _ _ _ _ Hd) as (trail & rest & -> & Hms & Hlen).
  pose proof (init_filesystem_finds ms trail rest (b_vfs b) (lit "shell.elf") Hms Hlen) as Hfs. destruct (init_filesystem _ (b_vfs b)) as [v|]; [|done].
  cbn [obind wp] in *. rewrite R1. cbn [obind]. rewrite R2. cbn [obind wmem]. destruct (hd_tasks _ _ _ _ _ Hd) as [-> ->].
  destruct (hd_shell _ _ _ _ _ Hd) as [Has Helf]. rewrite Has in Hfs. destruct (hd_cpu _ _ _ _ _ Hd) as (Ha8 & Hrng & Hplace & _).
  rewrite <- Hsp in Ha8, Hrng, Hplace.
  pose proof (λ bm Htm, init_multitasking_ok off sel (trampoline img) (reaper_rip img) shell bm c m ∅ p v s1 s2 cell_addr ret_addr Hcells
    (machine_ok_empty bm c Htm Ha8 Hrng) Htm Hu Hfs Helf Hroom (proj1 (Hfresh bm c Htm Hplace)) (proj2 (Hfresh bm c Htm Hplace)) Hdis) as Hmt.
  assert (no_memory shell m → boot_short entries shell) as Hshort.
  { unfold no_memory. intros Hno. destruct (mr_frames _ _ _ _ _ _ Hmm) as (al & Hal & _ & _ & Hfr). exists al. split; [done|]. lia. }
  set (bm0 := mkMachine (@TaskManager_empty (node V)) 0 0 0 0 []).
  destruct (init_multitasking _ _ _ _ _ _ _ _ TaskManager_empty _ _ _) as [[[[t next] st] m2]|e] eqn:E; cbn [obind panics_or].
  2: { specialize (Hmt bm0 eq_refl). cbn [tm bm0] in Hmt. rewrite E in Hmt. destruct Hmt as [-> Hno]. split; [done|]. by apply Hshort. }
  split; [done|]. split; [done|]. exists m. split; [done|]. intros bm Htm. specialize (Hmt bm Htm). rewrite Htm, E in Hmt.
  destruct Hmt as (Hb & Hst & _). split; [done|]. intros i u Hi. cbn [tm set_tm] in Hi. destruct (Hst i u Hi) as [-> ->].
  split; [|done]. by destruct (i =? 1).
Qed.

(** The machine in the idle loop. *)
Record running (entries : list memmap_entry) (shell : list Z) b : Prop := {
  rn_sound : machine_ok (b_machine b) (s_cpu (b_segments b));
  rn_queue : ready_queue (tm (b_machine b)) = [1; 2] ∧ current_task (tm (b_machine b)) = None;
  rn_shell : ∃ s um, task_registry (tm (b_machine b)) !! 2 = Some s ∧ privilege s = UserMode ∧ uspace off (b_mem b) (pml4_frame s) um
    ∧ segments_at shell um ∧ (is_Some (um !! SHELL_STACK) ∨ boot_short entries shell);
  rn_segments : let c := s_cpu (b_segments b) in cs c = 0x08 ∧ ss c = 0x10 ∧ (∀ r, segs c r = 0x10) ∧ tr (b_segments b) = 0x28;
  rn_entry : (∃ ms, b_msrs b = Some ms ∧ msrs_fit (mkSelectors 0x08 0x10 0x23 0x1B 0x28) (syscall_entry_rip img) ms)
    ∧ tss_rsp0 (b_machine b) = RSP0_STACK img + TSS_STACK_SIZE;
  rn_timer : tview (Serial.device (b_serial b)) = mkPit 0x36 None 11931 (0xFC, 0xFF);
  rn_output : log_ok (view := view) (max_wait := max_wait) (b_serial b) ∧ screen_ok (b_writer b);
  rn_files : find_file (b_vfs b) (lit "shell.elf") = Ret (Some shell);
  rn_heap : heap_wf (live := live) (region := region) (b_heap b) ∧ stacks_live (live := live) (b_machine b) (b_heap b);
  rn_tick : wp (timer_interrupt_handler cell_addr ret_addr (b_machine b) (s_cpu (b_segments b))) (λ '(m', c'),
    machine_ok m' c' ∧ current_task (tm m') = Some 1 ∧ rip c' = reaper_rip img);
}.

Lemma boot_tick sel tramp shell (bm : machine (node V)) c m pml4 t st m' : booted off sel tramp (reaper_rip img) shell bm c m pml4 t st m' →
  wp (timer_interrupt_handler cell_addr ret_addr (set_tm bm t) (with_mem c st)) (λ '(m', c'),
    machine_ok m' c' ∧ current_task (tm m') = Some 1 ∧ rip c' = reaper_rip img).
Proof.
  intros [Hok Hq Hr Hs]. unfold timer_interrupt_handler.
  apply (first_tick off sel tramp (reaper_rip img) shell (notify_eoi bm TIMER_INTERRUPT) c m pml4 t st m' cell_addr ret_addr Hcells).
  split; [|done|done|done]. change (machine_ok (notify_eoi (set_tm bm t) TIMER_INTERRUPT) (with_mem c st)). by apply machine_ok_eoi.
Qed.

(** C3: the kernel boots.  From what the bootloader hands over - a supported revision, a
    well-formed memory map and page table, the archive with a well-formed shell, and
    any framebuffer - on a machine without a disk controller, [_start] does not panic
    and reaches its idle loop.  There the log and the screen work, the segments,
    system-call registers and the task state segment are those of the descriptor
    table, the timer runs at 100 Hz with exactly timer and keyboard enabled, the heap
    holds the two kernel stacks, and reaper and shell are queued on a sound machine,
    the shell with its segments in memory; the first tick enters the reaper.  Only if
    fewer frames are free than table, heap and shell may need, boot panics, or goes on
    without the stack page of the shell. *)
Theorem start_boots l b entries ms shell : handed_over l b entries ms shell → heap_serves →
  panics_or (boot_short entries shell) (start initialize write_masks process_disk fuel img l b) (running entries shell).
Proof.
  intros Hd Hserves. unfold start. eapply panics_or_bind; [by eapply start_console_ok|cbv beta]. intros [[s w] control] [Hs Hw].
  eapply panics_or_bind; [by eapply start_tables_ok|cbv beta]. intros [[[[[sel tss] seg] s1] msrs] w1] [-> -> Hseg [Hregs Hmem] Hlog Htim Hms Hw1].
  pose proof (start_system_ok l b entries ms shell (mkSelectors 0x08 0x10 0x23 0x1B 0x28) (s_cpu seg) Hd Hserves ltac:(by rewrite Hregs)) as Hsys.
  destruct (start_system _ _ _ _ _ _ _) as [[[[[[[[[pml4 m] heap] io] hba] v] t] next] st]|e]; cbn [obind panics_or] in *; [|done].
  destruct Hsys as (Hfile & Hheap & m1 & Hshort & Hbm).
  set (bm := mkMachine (@TaskManager_empty (node V)) (RSP0_STACK img + TSS_STACK_SIZE) (KERNEL_RSP (b_machine b)) pml4
    (BOOT_RSP (b_machine b)) (eois (b_machine b))).
  destruct (Hbm bm eq_refl) as [Hb Hstacks]. set (s2 := on_device pit_init s1).
  assert (log_ok (view := view) (max_wait := max_wait) s2) as Hs2 by (apply chips_kept; [apply pit_init_uart|done]).
  assert (tview (Serial.device s2) = mkPit 0x36 None 11931 (0xFC, 0xFF)) as Ht2.
  { unfold s2, on_device. cbn [Serial.device]. by rewrite pit_init_timer, Htim. }
  eapply panics_or_bind; [by apply println_ok|cbv beta]. intros w2 Hw2.
  pose proof (log_ready _ Hs2) as [Hp2 Hl2]. pose proof (serial_println_ok fuel Hfuel s2 _ Hp2 Hl2 (lit_scalar "[MAIN] Boot thread parked on hlt; awaiting PIT tick.")) as Hpr.
  destruct (serial_println fuel s2 _) as [s3|] eqn:E3; [|done]. cbn [obind panics_or wp] in *.
  pose proof (serial_timer fuel Hfuel _ _ _ Hs2 E3) as Ht3. pose proof Hb as [Hok (Hq & Hc & _) _ (sh & um & Hsh & Hpriv & _ & Husp & Hsegm & Hstk)].
  split; cbn [b_machine b_segments b_mem b_msrs b_serial b_writer b_vfs b_heap s_cpu tr tm tss_rsp0].
  - exact Hok.
  - exact (conj Hq Hc).
  - exists sh, um. split_and!; try done. destruct Hstk as [?|?]; [by left|right; by apply Hshort].
  - exact Hseg.
  - split; [by exists msrs|done].
  - by rewrite Ht3.
  - exact (conj Hpr Hw2).
  - exact Hfile.
  - exact (conj Hheap Hstacks).
  - by eapply (boot_tick _ _ shell bm).
Qed.
End Boots.

(** ** A machine that boots *)

Module StartSample.
(** No PCI function, no disk controller. *)
#[global] Instance no_pci : PciConfig unit := {| config_read _ _ _ _ _ := 0xFFFFFFFF; config_write c _ _ _ _ _ := c |}.
#[global] Instance no_hba : Hba unit := {| hba_read d r _ := (0, d, r); hba_write d r _ _ := (d, r) |}.
#[global] Instance block_font : Font := λ b, Some (replicate 8 b).

Lemma block_font_ok : FontSpec.
Proof. by intros b g [= <-]. Qed.

Lemma board : BoardSpec SerialSample.chip_uart 2 SerialSample.chip_pit (λ d, d) SerialSample.chips_masks.
Proof.
  split; [exact SerialSample.chips_uart|exact SerialSample.chips_timer| |done|].
  - intros d port v Hp. rewrite !elem_of_cons in Hp. by destruct Hp as [->|[->|[->|[]%not_elem_of_nil]]].
  - intros d r v Hr. split; [|done]. unfold outb, SerialSample.chips_io, SerialSample.chips_out. destruct (_ && _); [done|].
    cbn [SerialSample.chip_pit]. unfold pit_write. by rewrite !(proj2 (Z.eqb_neq _ _)) by lia.
Qed.

(** An empty top-level table in frame 1, and 1200 usable frames. *)
Definition memory : ram := list_to_map (imap (λ i b, (Z.of_nat i * FRAME_SIZE, b)) (replicate 1210 zero_frame)).

Lemma empty_table j : 0 ≤ j < 512 → entry_of memory 4096 j = 0.
Proof. intros Hj. apply Z.eqb_eq. revert j Hj. apply (all_below_spec 512 (λ j, entry_of memory 4096 j =? 0)). vm_compute. reflexivity. Qed.

Lemma empty_walk a : plain_path memory 3 4096 a = true ∧ mapped memory 4096 a = false ∧ leaf_walk memory 3 4096 a = None.
Proof.
  pose proof (empty_table _ (idx_range 3 a)) as E. unfold mapped, slot. cbn [plain_path leaf_table leaf_walk]. fold (idx 3 a). rewrite E. done.
Qed.

Lemma start_tables_eq : pt_tables memory 3 4096 = [4096].
Proof. vm_compute. reflexivity. Qed.

Lemma hand : handover Sample.off HeapSample.entries 4096 memory.
Proof.
  destruct HeapSample.sample_handover as [H1 H2 H3 H4 H5 _ _ _ _ _].
  split; [exact H1|exact H2|exact H3|exact H4|exact H5|..].
  - intros f Hf. apply HeapSample.frames_ok; [apply HeapSample.zero_frames|exact Hf].
  - rewrite start_tables_eq. apply NoDup_singleton.
  - rewrite start_tables_eq. apply Forall_singleton. exists 1. vm_compute. intuition discriminate.
  - intros i Hi. by rewrite empty_table.
  - intros j _. destruct (empty_walk (heap_page j)) as (? & ? & _). done.
Qed.

Lemma low : lower_half ElfSample.img 4096 memory.
Proof.
  split.
  - intros a _. apply empty_walk.
  - intros a k e _ Hw. destruct (empty_walk a) as (_ & _ & E). rewrite E in Hw. discriminate.
  - intros H%ElfSample.only_page. discriminate.
  - intros a Ha. split; [apply empty_walk|]. destruct Ha as [->%ElfSample.only_page| ->]; vm_compute; intuition discriminate.
Qed.

Definition members : list member := [gnu_member (lit "shell.elf") ElfSample.img].
Definition responses : limine := mkLimine true [] (Some HeapSample.entries) (Some Sample.off) (Some [archive members []]).
Definition kernel : image := mkImage 0x40000 0x10000 0x5000 0x5000 0x9999.
Definition statics : boot (D := SerialSample.chips) (HT := KernelHeap.bump) (C := unit) (DV := unit) (V := unit) :=
  mkBoot (mkSerial1 SerialSample.cold None false) None (0, 0, 0) (mkSeg None BootSample.cpu0 0 false) None (mkMem empty memory)
    (InterruptSafeHeap_empty false) (mkIo 0 tt) tt (mkVfs None ∅ ∅) BootSample.machine0 1.

Lemma start_ready : handed_over (view := SerialSample.chip_uart) (max_wait := 2) Sample.off kernel responses statics HeapSample.entries members ElfSample.img.
Proof.
  split.
  - reflexivity.
  - exact I.
  - exact (conj eq_refl (conj eq_refl (conj eq_refl hand))).
  - exact low.
  - exists [], []. split; [reflexivity|]. split; [|vm_compute; reflexivity]. apply Forall_singleton.
    split; [discriminate|]. split; [vm_compute; lia|]. split; [repeat (apply Forall_cons; split; [cbn; lia|]); by apply Forall_nil|]. split; [vm_compute; reflexivity|split; reflexivity].
  - split; [vm_compute; reflexivity|exact ElfSample.img_wf].
  - split; [split; [cbn; lia|exact I]|reflexivity].
  - vm_compute. intuition discriminate.
  - reflexivity.
  - exact (conj eq_refl eq_refl).
  - split; [by apply SegmentSample.array|]. split; [by apply SegmentSample.array|]. left. vm_compute. intuition discriminate.
  - vm_compute. reflexivity.
Qed.

Lemma stacks : heap_serves (HT := KernelHeap.bump).
Proof.
  exists HEAP_START, (HEAP_START + STACK_SIZE).
  exists (mkGuarded false false (KernelHeap.mkBump (Some (HEAP_START, HEAP_SIZE)) (HEAP_START + STACK_SIZE) {[HEAP_START := STACK_SIZE]})).
  exists (mkGuarded false false (KernelHeap.mkBump (Some (HEAP_START, HEAP_SIZE)) (HEAP_START + 2 * STACK_SIZE)
    (<[HEAP_START + STACK_SIZE := STACK_SIZE]> {[HEAP_START := STACK_SIZE]}))).
  cbv zeta. split; vm_compute; reflexivity.
Qed.

Lemma start_enough : ~ boot_short (HP := true) Sample.off HeapSample.entries ElfSample.img.
Proof.
  intros (a & Ha & Hf). assert (match @init true empty (Some HeapSample.entries) (Some Sample.off) with
    | Ret a => (1 + 4 * HEAP_PAGES) + (1 + 4 * (elf_pages ElfSample.img + 1)) <=? free_frames a | Stop _ => false end = true)
    as Hc by (vm_compute; reflexivity). rewrite Ha in Hc. apply Z.leb_le in Hc. lia.
Qed.
End StartSample.

Lemma start_boots_witness :
  wp (@start true checked_virt_new masked_phys_new x86_entries table_mapper SegmentSample.table SegmentSample.table_view EntrySample.star
      StartSample.block_font SerialSample.chips SerialSample.chips_io KernelHeap.bump KernelHeap.ops unit StartSample.no_pci unit StartSample.no_hba unit
      (λ d, d) SerialSample.chips_masks (λ w _, Ret w) 3 StartSample.kernel StartSample.responses StartSample.statics)
    (λ b, ready_queue (tm (b_machine b)) = [1; 2] ∧ @find_file true unit (b_vfs b) (lit "shell.elf") = Ret (Some ElfSample.img)).
Proof.
  pose proof (@start_boots true x86_entries x86_entries_spec checked_virt_new checked_virt_new_spec masked_phys_new masked_phys_new_spec
    Sample.off table_mapper sample_mapper SegmentSample.table SegmentSample.used SegmentSample.segment_table_ok SegmentSample.table_view SegmentSample.view_ok
    EntrySample.star EntrySample.star_ok StartSample.block_font StartSample.block_font_ok SerialSample.chips SerialSample.chips_io
    SerialSample.chip_uart 2 SerialSample.chip_pit (λ d, d) SerialSample.chips_masks StartSample.board
    KernelHeap.bump KernelHeap.ops KernelHeap.bump_live KernelHeap.bump_region KernelHeap.spec unit StartSample.no_pci unit StartSample.no_hba unit
    (λ w _, Ret w) 3 ltac:(lia) StartSample.kernel (λ _, 0x77) 0x1234 ltac:(discriminate) StartSample.responses StartSample.statics
    HeapSample.entries StartSample.members ElfSample.img StartSample.start_ready StartSample.stacks) as Hb.
  destruct (start _ _ _ _ _ _ _) as [b|e].
  - destruct Hb as [_ [Hq _] _ _ _ _ _ Hf _ _]. exact (conj Hq Hf).
  - destruct Hb as [_ Hs]. destruct (StartSample.start_enough Hs).
Defined.
